(* ===== verification/_CoqProject ===== *)
-Q . S2P
Prelude.v
Policy.v
QueueModel.v
QueueBase.v
QueueHistory.v
QueueProps.v
GoStd.v
Admission.v
Keyring.v
Rotation.v
ConfigTrust.v
Control.v
AdminAuth.v
Vault.v
Password.v
Windows.v
StoreClient.v
Coordinator.v
PublicGuard.v
Gateway.v
EndToEnd.v
Publication.v
PublicationExample.v
PublicationProps.v
CommandProps.v
ScheduleProps.v
DataNode.v
Origin.v
DataNodeProps.v
NodeExample.v
NodeGuard.v
NodeAck.v
Accounts.v
Security.v
AccountFlow.v
AccountProps.v
AccountSessions.v
AccountCodes.v
AccountLimits.v
AccountExample.v
Json.v
AuthHTTP.v
AuthHistory.v
AuthLogout.v
AuthExample.v
InstallPlan.v
InstallCost.v
Setup.v
SetupProps.v
SetupHTTP.v
SetupExample.v
Preflight.v
RecoveryArchive.v
RecoveryProps.v
RecoveryListing.v
RecoveryTrip.v
RecoveryExample.v
ControlViews.v
ControlHTTP.v
ControlRoutes.v
AdminServer.v
ControlAudit.v
ControlPages.v
ControlExample.v
TrafficRuns.v
TrafficProps.v
TrafficExample.v
HostFiles.v
InstallerState.v
InstallerDocker.v
Installer.v
InstallerSpecs.v
InstallerRecord.v
InstallerProps.v
InstallerHistory.v
InstallerFiles.v
InstallerRetry.v
InstallerExample.v
