(* ===== verification/Prelude.v ===== *)
(** * Waiting Room: a verification development

    Waiting Room is a virtual queue in front of web origins. Visitors join the
    queue of a room at a coordinator, are promoted in order under a rate and a
    capacity, claim a signed admission and present it at a gateway, which lets
    them through to the origin. Operators change the configuration in a
    control plane, which signs every change; coordinators and gateways verify
    and apply the signed snapshots and report back. The library models the Go
    code of these parts, under [src/internal], as executable functions, and
    proves what makes them correct over every history of their operations.

    ** The parts and where they are modelled

    - [Policy] (module [policy]): [policy/fifo.go], which tickets are eligible.
    - [QueueModel] (module [model]): [queue/model/model.go], the reference
      model of a room's queue. [QueueBase] and [QueueHistory] hold its
      invariants, [QueueProps] its theorems.
    - [GoStd]: base64, UTF-8, strings in full; JSON, SHA-256, HMAC, Ed25519
      and AEAD as classes of operations with their documented laws.
    - [Admission] (module [admission]): [admission/token.go], signed tokens.
    - [Keyring] (module [keyring]): [keyring/keyring.go], [aead.go].
    - [Rotation] (module [localcontrol]): [localcontrol/rotation.go], the
      journalled key rotation, interruptible at every file write.
    - [ConfigTrust] (module [configtrust]): [configtrust/snapshot.go],
      [file.go]; the signed snapshot, the gate of a node and its stores.
    - [Control] (module [control]): [control/config.go], [runtime.go],
      [route_check.go]; configurations, routes, runtimes and events.
    - [AdminAuth] (module [adminauth]) and [Password] (module [password]):
      [adminauth], roles, sessions, CSRF, one-time codes, password records.
    - [Windows] (module [windows]): the sliding counters and the diagnostics
      of [runtimeplane].
    - [StoreClient] (modules [valkeystore] and [fence]): the client of the
      shared store, [queue/valkeystore], alone and under interleaving.
    - [Coordinator] (module [lab]) and [Gateway] (module [gateway]): the
      public API and the browser gateway, [lab].
    - [EndToEnd]: queue, coordinator, gateway and keys together.
    - [Publication] (module [pgstore]): the transactions of the control plane,
      [adminauth/pgstore]. [PublicationExample] is a concrete installation;
      [PublicationProps], [CommandProps] and [ScheduleProps] hold the
      theorems.
    - [DataNode] (module [runtimeplane]) and [Origin] (module [origin]): the
      node that fetches, applies and serves publications, [runtimeplane], and
      its dialer. [DataNodeProps], [NodeGuard] and [NodeAck] hold the theorems,
      [NodeExample] a concrete node.
    - [Vault] (module [vault]): secrets of one-time codes, [adminauth/totp.go],
      and their sealed storage, [pgstore/vault.go].
    - [Accounts] (module [accounts]): the transactions on passwords, sessions,
      challenges, recovery codes, enrolments and attempt limits, [pgstore];
      [Security] (module [security]): the commands on accounts and policy and
      the fresh authentication; [AccountFlow] (module [flow]): the requests
      that compose them, stage by stage. [AccountProps] runs the requests
      interleaved; [AccountSessions], [AccountCodes] and [AccountLimits] hold
      the theorems, [AccountExample] a concrete history with the witnesses.
    - [Json] (module [json]): the token decoder of [encoding/json], in full.
      [AuthHTTP] (modules [http], [authhttp], [sessionhttp]): the handlers in
      front of the accounts, [adminauth/authhttp/handler.go] and
      [adminauth/sessionhttp/handler.go], over a class of backends;
      [AuthHistory] is the backend that runs the requests of [AccountFlow] and
      holds the theorem on cookies, [AuthLogout] the one on logout,
      [AuthExample] the concrete requests of their witnesses.
    - [InstallPlan] (module [installplan]) and [InstallCost] (module [cost]):
      planning inputs, proposals, cost estimates and reports, [installplan];
      [Preflight] (module [preflight]): the policy over collected evidence,
      [installplan/preflight].
    - [Setup] (module [setup]): the durable setup of a new installation,
      [pgstore/setup.go]; [SetupProps] runs it among the requests of
      [AccountProps]; [SetupHTTP] (module [setuphttp]) is its endpoint,
      [adminauth/authhttp/setup.go], alone and over those histories;
      [SetupExample] holds the witnesses.
    - [RecoveryArchive] (modules [files] and [recoveryarchive]): cold backups
      of the volumes, [recoveryarchive/archive.go], over a file system whose
      calls can fail. [RecoveryProps] shows what a restoration leaves alone,
      [RecoveryListing] what a walk lists, [RecoveryTrip] the round trip,
      [RecoveryExample] a concrete backup.
    - [ControlViews] (module [views]): what the control plane shows without
      changing anything, [pgstore]; [ControlHTTP] (modules [strconv], [url] and
      [controlhttp]): the three handlers of the operators,
      [adminauth/controlhttp]. [ControlRoutes] says which requests they pass
      on, [ControlAudit] that changes are authorized and audited,
      [ControlPages] what following the audit log shows; [ControlExample] holds
      the witnesses.
    - [AdminServer] (module [adminserver]): the handler in front of all
      endpoints of the administration, [adminserver].
    - [TrafficRuns] (modules [trafficlab] and [trafficruns]): the durable runs
      of the traffic lab, [pgstore/traffic_lab.go], and the validity of their
      reports, [trafficlab/report.go]; [TrafficProps] holds the theorems over
      histories with several workers, [TrafficExample] the witnesses.
    - [PublicGuard] (module [publicguard]): the client of the counters that
      limit public requests, [publicguard/guard.go].
    - [HostFiles] (module [host]): the host of an installation, its files and
      what can befall them, with rules for triples over it. [InstallerState]
      (module [installer]), [InstallerDocker] (module [docker]) and [Installer]
      (module [wrctl]): the installer, [installer]. [InstallerSpecs],
      [InstallerRecord] and [InstallerProps] hold the invariant and its rules,
      [InstallerHistory] the histories with losses of power, [InstallerFiles]
      what stays as it was, [InstallerRetry] the runs without faults,
      [InstallerExample] the witnesses.

    This file holds what they share: results, machine integers with their
    wrap-around, list and map lemmas, and the tactics [to_prop], [case_if] and
    [split_if].

    ** How the code is modelled

    A method is a function of its receiver's state; an error is a value of
    [result] or [option]; a mutex or a database lock makes an operation one
    step, and where the code interleaves (module [fence]) the steps are its
    atomic loads and stores. Readings of clocks, random values and faults of
    disks, servers and databases are arguments, so that a theorem over
    histories covers every clock, every interruption and every fault. Instants
    keep the unit of the code: milliseconds in the queue, nanoseconds elsewhere
    where Go uses [time.Time]. Integers are [Z]; an operation that can leave
    its width wraps with [i64] or [u64].

    What is outside the repository is a parameter: Valkey ([Server]), the
    transport between gateway and coordinator, JSON records, [net/url], the
    cryptographic primitives, X.509, the tar format. A law that a theorem needs of it is a
    class of its own ([CodecLaws], [Ed25519Laws], [StoreLaws], [QueueLaws], ...)
    and every theorem that assumes one has a witness with a concrete instance.

    ** What the theorems show

    - Queue: no window of a minute admits more than the rate and no instant
      more than the capacities; tickets are promoted in join order and none
      twice; retried joins are idempotent; a drain closes the queue; after an
      uncertain write nothing is admitted before everything uncertain lapsed.
    - Store client: a write of unknown outcome is followed by no request
      before an acknowledged recovery, sequentially and under interleaving.
    - Tokens and keys: projections hold no other role's secrets; a rotation
      converges however often it is interrupted and keeps the signer of every
      admission.
    - Trusted configuration: what a node serves is signed, current and never
      older than what it served, across restarts, clock changes and disk
      faults.
    - Control plane: what it publishes reaches the nodes, through faults,
      retries and key rotations; a clock recovery reopens a quarantined node;
      commands run once; a sensitive command spends a proof made for it; events
      of a room never overlap; a drain ends on evidence; versions advance.
    - Control endpoints: a request reaches the control plane exactly when it is
      a well-formed one of an endpoint, with its whole body; every change
      through them was authorized by a live session and is in the audit log;
      following the cursors of the log shows every row once and ends. A
      listener of the setup reaches no application and no other the setup.
    - Traffic lab: one run at a time, claimed once, with one audited result,
      and no run stays active for ever.
    - Public API: joins are replayed exactly and allocate at most one ticket;
      the gateway lets a request through only with a verified admission and
      stripped of credentials; the visitors let through never exceed the
      capacity, and an admission opens every gateway while it lives.
    - Nodes: what reaches an origin through a reachable gateway is unprotected
      by the configuration in force or carries an admission of its room; a
      protected request meets the one room that protects it; the reports of a
      gateway are accepted; the dialer connects to public addresses only.
    - Accounts: in every history of interleaved requests, faults and changes,
      a session was earned with the present password and a second factor while
      the policy asks for one; codes are spent once; an administrator remains;
      attempts are limited in every minute; every request ends. Over HTTP: a
      body is read exactly; a session cookie is handed out only for the session
      that the credentials of the same request opened; logout is final.
    - Counters and passwords: the rings refine logs; verification costs the
      same for unknown accounts.
    - Installation: cost estimates are exact and plans fit the hosts they are
      priced for; the preflight blocks exactly until everything is proved; a
      setup is applied once, as it was reviewed, before the first
      administrator, and the report that the endpoint answers is what the
      installation keeps.
    - Installer: over histories with faults, kills and losses of power the
      application starts only with the image its data were migrated to; an
      interrupted upgrade is completed by retrying; no file but the record is
      ever changed.
    - Backups: a created backup verifies and restores the same trees; restoring
      any archive, exchanged or interrupted anywhere, changes nothing outside
      the volumes and no file that is there.

    ** Bounds

    Histories of the queue assume that the clock stays a [horizon] (the longest
    lifetimes of the configuration) below the largest [int64] and that there
    are fewer than [2^64] operations, so that no deadline or counter wraps; the
    code has no such check, and no deployment reaches the bound. Loops of the code are
    structural recursions over their lists; the calibration and the sweep
    retry carry the loop bound of the code; the waits of the installer poll at
    most as often as their deadline allows, and [waitReady_loop_enough] shows
    that more polls change nothing; the walk of a volume recurses at
    most as deep as the tree has levels, which is the fuel it gets. No
    definition runs out of fuel.

    ** Not modelled

    HTML rendering, HTTP listeners and constant headers, process wiring,
    the process loop of a node, the connections of the setup tunnel and the load
    that a run of the traffic lab makes: they arrange calls of other programs and libraries and decide little
    themselves. The Lua library of the store, which is not Go (its contract is
    [QueueLaws]); image decoding; the decoding of JSON into records, whose
    result is a parameter. *)

From stdpp Require Import base list gmap strings pretty sorting.
From Stdlib Require Import ZArith Lia.

(** ** Scopes, notations and hint databases *)

Declare Scope wr_scope.
Delimit Scope wr_scope with wr.

Create HintDb wr discriminated.

(** ** Results: Go's [(value, error)] pairs *)

(** A Go function that returns [(A, error)] returns [Ok] with the value or
    [Err] with the error. *)
Inductive result (E A : Type) : Type :=
  | Ok (a : A)
  | Err (e : E).
Arguments Ok {E A} a.
Arguments Err {E A} e.

Definition is_ok {E A} (r : result E A) : bool :=
  match r with Ok _ => true | Err _ => false end.

Lemma is_ok_true {E A} (r : result E A) : is_ok r = true <-> exists a, r = Ok a.
Proof. destruct r; simpl; split; [eauto | done | done | intros [? ?]; done]. Qed.

(** ** Machine integers

    Go's [int], [int64] and [time.Duration] are two's complement 64-bit
    integers and [uint64] is arithmetic modulo 2^64; an operation that can
    leave the range is written with the wrap-around below. *)

Definition i64 (z : Z) : Z := ((z + 9223372036854775808) mod 18446744073709551616 - 9223372036854775808)%Z.
Definition u64 (z : Z) : Z := (z mod 18446744073709551616)%Z.

Definition max_i64 : Z := 9223372036854775807.
Definition in_i64 (z : Z) : Prop := (-9223372036854775808 <= z <= 9223372036854775807)%Z.
Definition in_u64 (z : Z) : Prop := (0 <= z <= 18446744073709551615)%Z.

#[global] Instance in_i64_dec z : Decision (in_i64 z).
Proof. unfold in_i64. apply _. Defined.
#[global] Instance in_u64_dec z : Decision (in_u64 z).
Proof. unfold in_u64. apply _. Defined.

Lemma i64_id z : in_i64 z -> i64 z = z.
Proof. unfold in_i64, i64. intros. rewrite Z.mod_small; lia. Qed.

Lemma u64_id z : in_u64 z -> u64 z = z.
Proof. unfold in_u64, u64. intros. rewrite Z.mod_small; lia. Qed.

Lemma i64_range z : in_i64 (i64 z).
Proof. unfold in_i64, i64. pose proof (Z.mod_pos_bound (z + 9223372036854775808) 18446744073709551616). lia. Qed.

Lemma u64_range z : in_u64 (u64 z).
Proof. unfold in_u64, u64. pose proof (Z.mod_pos_bound z 18446744073709551616). lia. Qed.

(** ** Proof automation *)

(** Remove every wrap-around of the goal and the context whose argument is in
    range, discharging the range by [lia]. *)
Ltac unwrap :=
  repeat match goal with
  | |- context [i64 ?z] => rewrite (i64_id z) by (unfold in_i64; lia)
  | |- context [u64 ?z] => rewrite (u64_id z) by (unfold in_u64; lia)
  | H : context [i64 ?z] |- _ => rewrite (i64_id z) in H by (unfold in_i64; lia)
  | H : context [u64 ?z] |- _ => rewrite (u64_id z) in H by (unfold in_u64; lia)
  end.

(** Turn boolean tests of the code into propositions. *)
Ltac to_prop :=
  repeat match goal with
  | H : (_ && _)%bool = true |- _ => apply andb_true_iff in H; destruct H
  | H : (_ || _)%bool = false |- _ => apply orb_false_iff in H; destruct H
  | H : negb _ = true |- _ => apply negb_true_iff in H
  | H : negb _ = false |- _ => apply negb_false_iff in H
  | H : (_ <=? _)%Z = true |- _ => apply Z.leb_le in H
  | H : (_ <=? _)%Z = false |- _ => apply Z.leb_gt in H
  | H : (_ <? _)%Z = true |- _ => apply Z.ltb_lt in H
  | H : (_ <? _)%Z = false |- _ => apply Z.ltb_ge in H
  | H : (_ =? _)%Z = true |- _ => apply Z.eqb_eq in H
  | H : (_ =? _)%Z = false |- _ => apply Z.eqb_neq in H
  | H : bool_decide _ = true |- _ => apply bool_decide_eq_true in H
  | H : bool_decide _ = false |- _ => apply bool_decide_eq_false in H
  | H : (_ =? _)%string = true |- _ => apply String.eqb_eq in H
  | H : (_ =? _)%string = false |- _ => apply String.eqb_neq in H
  end.

(** Case analysis on the first [if] or [match] of the goal or a hypothesis. *)
Ltac split_if :=
  match goal with
  | |- context [if ?b then _ else _] => let E := fresh "E" in destruct b eqn:E
  | H : context [if ?b then _ else _] |- _ => let E := fresh "E" in destruct b eqn:E
  end.

(** The same on the goal only, naming the equation of the test. *)
Tactic Notation "case_if" "as" ident(E) :=
  match goal with |- context [if ?b then _ else _] => destruct b eqn:E end.

(** Whether a map of the goal has the key. *)
Ltac case_row k := match goal with |- context [?m !! k] => destruct (m !! k) end.

(** ** Lists *)

(** Go: [i := 0; for i < len(l) && p(l[i]) { i++ }; l = l[i:]]. *)
Fixpoint drop_while {A} (p : A -> bool) (l : list A) : list A :=
  match l with
  | [] => []
  | x :: l' => if p x then drop_while p l' else l
  end.

Lemma drop_while_split {A} (p : A -> bool) (l : list A) :
  exists d, l = d ++ drop_while p l /\ Forall (fun x => p x = true) d.
Proof.
  induction l as [|x l [d [Hd Hall]]]; simpl; [exists []; auto|].
  destruct (p x) eqn:E.
  - exists (x :: d). split; [simpl; by rewrite <- Hd | by constructor].
  - exists []. auto.
Qed.

Lemma drop_while_length {A} (p : A -> bool) (l : list A) :
  (length (drop_while p l) <= length l)%nat.
Proof. induction l as [|x l IH]; simpl; [lia|]. destruct (p x); simpl; lia. Qed.

Lemma drop_while_all {A} (p : A -> bool) (l : list A) :
  Forall (fun x => p x = true) l -> drop_while p l = [].
Proof. induction 1 as [|x l Hx _ IH]; simpl; [done | by rewrite Hx]. Qed.

(** A [for] loop over a list that threads a state. *)
Lemma fold_left_ind {A B} (P : B -> Prop) (f : B -> A -> B) (l : list A) (b : B) :
  P b -> (forall b x, x ∈ l -> P b -> P (f b x)) -> P (fold_left f l b).
Proof.
  revert b. induction l as [|x l IH]; intros b Hb Hf; simpl; [done|].
  apply IH; [apply Hf; [left | done] | intros b' y Hy; apply Hf; by right].
Qed.

(** Occurrences counted with a Go [int] counter. *)
Definition countb {A} (p : A -> bool) (l : list A) : nat :=
  length (List.filter p l).

Lemma countb_app {A} (p : A -> bool) l1 l2 : countb p (l1 ++ l2) = (countb p l1 + countb p l2)%nat.
Proof. unfold countb. by rewrite List.filter_app, length_app. Qed.

Lemma countb_le_length {A} (p : A -> bool) l : (countb p l <= length l)%nat.
Proof. unfold countb. induction l as [|x l IH]; simpl; [lia|]. destruct (p x); simpl; lia. Qed.

Lemma countb_none {A} (p : A -> bool) l : Forall (fun x => p x = false) l -> countb p l = 0%nat.
Proof. unfold countb. induction 1 as [|x l Hx _ IH]; simpl; [done | by rewrite Hx]. Qed.

(** ** Counting over a map: [n := 0; for _, v := range m { if p(v) { n++ } }] *)

Section map_count.
Context `{Countable K} {V : Type}.
Implicit Types (m : gmap K V) (p : V -> bool).

Definition b2z (b : bool) : Z := if b then 1 else 0.

Definition map_count p m : Z := map_fold (fun _ v n => (n + b2z (p v))%Z) 0%Z m.

Lemma map_count_empty p : map_count p ∅ = 0%Z.
Proof. apply map_fold_empty. Qed.

Lemma map_count_insert_None p m k v :
  m !! k = None -> map_count p (<[k:=v]> m) = (map_count p m + b2z (p v))%Z.
Proof.
  intros Hk. unfold map_count. rewrite map_fold_insert_L; [done | | done].
  intros. lia.
Qed.

Lemma map_count_insert_Some p m k v w :
  m !! k = Some w ->
  map_count p (<[k:=v]> m) = (map_count p m - b2z (p w) + b2z (p v))%Z.
Proof.
  intros Hk. rewrite <- insert_delete_eq.
  rewrite map_count_insert_None by apply lookup_delete_eq.
  enough (map_count p m = (map_count p (delete k m) + b2z (p w))%Z) by lia.
  rewrite <- (insert_id m k w Hk) at 1. rewrite <- insert_delete_eq.
  by rewrite map_count_insert_None by apply lookup_delete_eq.
Qed.

Lemma map_count_nonneg p m : (0 <= map_count p m)%Z.
Proof.
  induction m as [|k v m Hk IH] using map_ind; [by rewrite map_count_empty|].
  rewrite map_count_insert_None by done. unfold b2z. destruct (p v); lia.
Qed.

Lemma map_count_fmap_le p (f : V -> V) m :
  (forall v, p (f v) = true -> p v = true) -> (map_count p (f <$> m) <= map_count p m)%Z.
Proof.
  intros Hf. induction m as [|k v m Hk IH] using map_ind; [by rewrite fmap_empty|].
  rewrite fmap_insert, !map_count_insert_None by (rewrite ?lookup_fmap, ?Hk; done).
  specialize (Hf v). unfold b2z. destruct (p (f v)), (p v); lia.
Qed.

Lemma map_count_zero p m :
  (forall k v, m !! k = Some v -> p v = false) -> map_count p m = 0%Z.
Proof.
  induction m as [|k v m Hk IH] using map_ind; intros Hp; [apply map_count_empty|].
  rewrite map_count_insert_None by done.
  rewrite (Hp k v) by apply lookup_insert_eq. rewrite IH; [done|].
  intros k' v' Hk'. apply (Hp k'). rewrite lookup_insert_ne; [done | congruence].
Qed.

Lemma map_count_pos p m k v : m !! k = Some v -> p v = true -> (0 < map_count p m)%Z.
Proof.
  intros Hk Hp. rewrite <- (insert_id m k v Hk), <- insert_delete_eq.
  rewrite map_count_insert_None by apply lookup_delete_eq. rewrite Hp. simpl.
  pose proof (map_count_nonneg p (delete k m)). lia.
Qed.

(** Distinct keys whose values count are no more than the count. *)
Lemma map_count_keys p m (ks : list K) :
  NoDup ks -> (forall k, k ∈ ks -> exists v, m !! k = Some v /\ p v = true) ->
  (Z.of_nat (length ks) <= map_count p m)%Z.
Proof.
  revert m. induction ks as [|k ks IH]; intros m Hnd Hks; simpl; [apply map_count_nonneg|].
  apply NoDup_cons in Hnd as [Hnot Hnd]. destruct (Hks k) as (v & Hk & Hp); [by left|].
  enough (Z.of_nat (length ks) <= map_count p (delete k m))%Z as Hle.
  { rewrite <- (insert_id m k v Hk), <- insert_delete_eq.
    rewrite map_count_insert_None by apply lookup_delete_eq. rewrite Hp. simpl. lia. }
  apply IH; [done|]. intros k' Hk'. destruct (Hks k') as (v' & Hv' & Hp'); [by right|].
  exists v'. split; [|done]. rewrite lookup_delete_ne; [done | congruence].
Qed.
End map_count.

#[export] Hint Resolve i64_range u64_range map_count_nonneg : wr.
