(* ===== verification/Policy.v ===== *)
(** * Queue policies: [src/internal/policy/fifo.go]

    The policy chooses which waiting tickets are eligible for promotion.
    [policy.Eligible] is the FIFO policy; the theorems show that its result is
    independent of the order in which the candidates arrive (Go iterates maps
    in random order and [sort.Slice] is not stable), that it is sorted by
    sequence, that it drops only expired candidates or later ones, and that it
    returns as many as it may. *)

From S2P Require Import Prelude.
From stdpp Require Import base list strings sorting.
From Stdlib Require Import ZArith Lia.

Module policy.
Local Open Scope Z_scope.

Record Candidate := mkCandidate {
  ID : string;
  Sequence : Z;      (* uint64 *)
  ExpiresAt : Z      (* int64, milliseconds *)
}.

Record Capability := mkCapability { Kind : string; SchemaVersion : Z }.

Inductive error := ErrUnsupported.

(** [type FIFO struct{}] is the only implementation of the [Policy] interface. *)
Inductive Policy := FIFO.

Definition Capabilities : list Capability := [mkCapability "fifo" 1].

Definition New (kind : string) : result error Policy :=
  if negb (String.eqb kind "fifo") then Err ErrUnsupported else Ok FIFO.

(** The comparison function given to [sort.Slice]. *)
Definition less (a b : Candidate) : bool :=
  if Sequence a =? Sequence b then String.ltb (ID a) (ID b) else Sequence a <? Sequence b.

(** [sort.Slice] returns a permutation in which no element is [less] than an
    earlier one; [merge_sort] is one such procedure. *)
Definition not_after (a b : Candidate) : Prop := less b a = false.

#[global] Instance not_after_dec : RelDecision not_after.
Proof. intros a b. unfold not_after. apply _. Defined.

(** [func (FIFO) Eligible(candidates, now, limit)]. *)
Definition Eligible (candidates : list Candidate) (now limit : Z) : list Candidate :=
  if limit <=? 0 then [] else
  let out := List.filter (fun c => now <? ExpiresAt c) candidates in
  let out := merge_sort not_after out in
  if limit <? Z.of_nat (length out) then take (Z.to_nat limit) out else out.

(** ** The order is a total preorder, antisymmetric on distinct identities *)

Lemma ltb_leb s t : String.ltb s t = negb (String.leb t s).
Proof.
  unfold String.ltb, String.leb. rewrite (String.compare_antisym t s).
  by destruct (String.compare s t).
Qed.

Lemma not_after_spec a b :
  not_after a b <-> Sequence a < Sequence b \/ (Sequence a = Sequence b /\ String.le (ID a) (ID b)).
Proof.
  unfold not_after, less, String.le. rewrite ltb_leb.
  destruct (Z.eqb_spec (Sequence b) (Sequence a)) as [E|E].
  - rewrite negb_false_iff. destruct (String.leb (ID a) (ID b)); simpl.
    + split; [intros _; right; done | done].
    + split; [done | intros [?|[_ []]]; lia].
  - rewrite Z.ltb_ge. split; [lia | intros [?|[? _]]; lia].
Qed.

#[global] Instance not_after_trans : Transitive not_after.
Proof.
  intros a b c. rewrite !not_after_spec. intros [?|[? ?]] [?|[? ?]]; try (left; lia).
  right. split; [lia | by etrans].
Qed.

#[global] Instance not_after_total : Total not_after.
Proof.
  intros a b. rewrite !not_after_spec.
  destruct (Z.lt_trichotomy (Sequence a) (Sequence b)) as [?|[E|?]]; [tauto | | tauto].
  destruct (total String.le (ID a) (ID b)); [left | right]; right; split; auto.
Qed.

Lemma not_after_antisym a b :
  not_after a b -> not_after b a -> Sequence a = Sequence b /\ ID a = ID b.
Proof.
  rewrite !not_after_spec. intros [?|[? H1]] [?|[? H2]]; try lia.
  split; [done|]. by apply (anti_symm String.le).
Qed.

Definition live (now : Z) (l : list Candidate) : list Candidate :=
  List.filter (fun c => now <? ExpiresAt c) l.

Lemma elem_of_live now l c : c ∈ live now l <-> c ∈ l /\ now < ExpiresAt c.
Proof. unfold live. by rewrite list_elem_of_In, List.filter_In, <- list_elem_of_In, Z.ltb_lt. Qed.

Lemma Eligible_take l now limit :
  0 < limit -> Eligible l now limit = take (Z.to_nat limit) (merge_sort not_after (live now l)).
Proof.
  intros Hl. unfold Eligible, live. destruct (Z.leb_spec limit 0); [lia|]. cbv zeta.
  split_if; [done|]. to_prop. rewrite take_ge; [done | lia].
Qed.

Lemma Eligible_elem l now limit c : c ∈ Eligible l now limit -> c ∈ l /\ now < ExpiresAt c.
Proof.
  intros Hc. destruct (Z.leb_spec limit 0) as [Hl|Hl].
  { unfold Eligible in Hc. by rewrite (proj2 (Z.leb_le _ _) Hl), elem_of_nil in Hc. }
  rewrite Eligible_take in Hc by done.
  assert (c ∈ merge_sort not_after (live now l)) as Hm.
  { eapply elem_of_submseteq; [exact Hc | apply sublist_submseteq, sublist_take]. }
  rewrite (merge_sort_Permutation not_after) in Hm. by apply elem_of_live.
Qed.

Lemma Eligible_length l now limit :
  Z.of_nat (length (Eligible l now limit)) = Z.min (Z.max 0 limit) (Z.of_nat (length (live now l))).
Proof.
  destruct (Z.leb_spec limit 0) as [Hl|Hl].
  { unfold Eligible. rewrite (proj2 (Z.leb_le _ _) Hl). simpl. lia. }
  rewrite Eligible_take, length_take by done.
  rewrite (Permutation_length (merge_sort_Permutation not_after (live now l))). lia.
Qed.

Lemma Eligible_sorted l now limit : StronglySorted not_after (Eligible l now limit).
Proof.
  destruct (Z.leb_spec limit 0) as [Hl|Hl].
  { unfold Eligible. rewrite (proj2 (Z.leb_le _ _) Hl). constructor. }
  rewrite Eligible_take by done.
  pose proof (StronglySorted_merge_sort not_after (live now l)) as Hs.
  rewrite <- (take_drop (Z.to_nat limit)) in Hs. by apply StronglySorted_app_1_l in Hs.
Qed.

(** Every live candidate that is left out comes after every chosen one. *)
Lemma Eligible_prefix l now limit :
  exists rest, live now l ≡ₚ Eligible l now limit ++ rest /\
    forall c d, c ∈ Eligible l now limit -> d ∈ rest -> not_after c d.
Proof.
  destruct (Z.leb_spec limit 0) as [Hl|Hl].
  { exists (live now l). unfold Eligible. rewrite (proj2 (Z.leb_le _ _) Hl). simpl.
    split; [done|]. intros c d Hc. by rewrite elem_of_nil in Hc. }
  rewrite Eligible_take by done. exists (drop (Z.to_nat limit) (merge_sort not_after (live now l))).
  rewrite take_drop. split; [symmetry; apply merge_sort_Permutation|].
  intros c d Hc Hd.
  pose proof (StronglySorted_merge_sort not_after (live now l)) as Hs.
  rewrite <- (take_drop (Z.to_nat limit)) in Hs.
  eapply (StronglySorted_app_1_elem_of not_after); eauto.
Qed.

Lemma live_Permutation now l1 l2 : l1 ≡ₚ l2 -> live now l1 ≡ₚ live now l2.
Proof.
  unfold live. induction 1 as [|x l l' _ IH|x y l|l l' l'' _ IH1 _ IH2]; simpl; [done | | | by etrans].
  - destruct (now <? ExpiresAt x); [by rewrite IH | done].
  - destruct (now <? ExpiresAt x), (now <? ExpiresAt y); done || apply Permutation_swap.
Qed.

(** The FIFO policy returns the same list whatever order the candidates
    come in: the random iteration order of a Go map and the instability of
    [sort.Slice] do not show, because distinct candidates have distinct
    identifiers. *)
Lemma Eligible_order_independent l1 l2 now limit :
  NoDup (ID <$> l1) -> l1 ≡ₚ l2 -> Eligible l1 now limit = Eligible l2 now limit.
Proof.
  intros Hnd Hp. destruct (Z.leb_spec limit 0) as [Hl|Hl].
  { unfold Eligible. by rewrite (proj2 (Z.leb_le _ _) Hl). }
  rewrite !Eligible_take by done. f_equal.
  apply (StronglySorted_unique_strong not_after).
  - intros a b Ha Hb H1 H2.
    rewrite (merge_sort_Permutation not_after), elem_of_live in Ha, Hb.
    destruct Ha as [Ha _], Hb as [Hb _]. rewrite <- Hp in Hb.
    destruct (not_after_antisym a b H1 H2) as [_ Hid].
    apply list_elem_of_lookup in Ha as [i Hi], Hb as [j Hj].
    assert (i = j) as ->; [|congruence].
    eapply (NoDup_lookup (ID <$> l1)); [done | |]; rewrite list_lookup_fmap.
    + by rewrite Hi.
    + by rewrite Hj, Hid.
  - apply (StronglySorted_merge_sort not_after).
  - apply (StronglySorted_merge_sort not_after).
  - rewrite !merge_sort_Permutation. by apply live_Permutation.
Qed.

Definition wit_a : Candidate := mkCandidate "1:7" 7 500.
Definition wit_b : Candidate := mkCandidate "1:3" 3 500.

End policy.
