(* ===== verification/QueueModel.v ===== *)
(** * The queue reference model: [src/internal/queue/model/model.go]

    Module [model] translates the deterministic model of one room's queue: its
    configuration, tickets, idempotency records, rate window and the
    operations of [type Model]. A method with a pointer receiver becomes a
    function from the model to the model and the result. Time is in
    milliseconds; [int64] sums carry their wrap-around. [model.op] and
    [model.run] compose the operations into histories. *)

From S2P Require Import Prelude Policy.
From stdpp Require Import base list gmap strings pretty.
From Stdlib Require Import ZArith Lia.

Module model.
Local Open Scope Z_scope.

Definition Minute : Z := 60000.

(** [type State string]; [NoState] is the zero value of the type and
    [AdmittedState] the constant [Admitted]. *)
Inductive State := NoState | Waiting | Ready | AdmittedState | Expired.

Inductive Mode := Auto | Hold | Draining | Recovery.

#[global] Instance State_eq_dec : EqDecision State.
Proof. solve_decision. Defined.
#[global] Instance Mode_eq_dec : EqDecision Mode.
Proof. solve_decision. Defined.

(** The package's error values; [ErrArgument] and [ErrConfig] stand for the two
    errors built in place by [Join] and [New]. *)
Inductive error :=
  | ErrCapacity | ErrConflict | ErrExpired | ErrNotReady | ErrUnavailable
  | ErrDrain | ErrClock | ErrArgument | ErrConfig.

Record Config := mkConfig {
  VisitorCap : Z; IdempotencyCap : Z; LeaseCap : Z; Rate : Z;
  IdleTTL : Z; TicketTTL : Z; ReadyTTL : Z; AdmissionTTL : Z;
  IdempotencyTTL : Z; ClockSkew : Z
}.

Definition DefaultConfig : Config :=
  {| VisitorCap := 10000; IdempotencyCap := 20000; LeaseCap := 1000; Rate := 600;
     IdleTTL := 600000; TicketTTL := 86400000; ReadyTTL := 120000;
     AdmissionTTL := 900000; IdempotencyTTL := 600000; ClockSkew := 30000 |}.

Record Ticket := mkTicket {
  ID : string; Sequence : Z; TState : State; Epoch : Z;
  JoinedAt : Z; IdleUntil : Z; AbsoluteUntil : Z; ReadyUntil : Z; AdmissionUntil : Z;
  JTI : string; PromotedAt : Z
}.

(** [Ticket{}], what a Go map returns for an absent key. *)
Definition Ticket_zero : Ticket := mkTicket "" 0 NoState 0 0 0 0 0 0 "" 0.

Record idem := mkIdem { iID : string; iFingerprint : string; iUntil : Z }.

Record Promotion := mkPromotion { pID : string; pSequence : Z; pAt : Z; pEpoch : Z }.

Record Model := mkModel {
  config : Config; now : Z; epoch : Z; sequence : Z; mode : Mode; unsafeUntil : Z; cutoff : Z;
  tickets : gmap string Ticket; idempotency : gmap string idem;
  rateTimes : list Z; promotions : list Promotion
}.

(** Field assignments. *)
Definition set_TState (t : Ticket) (s : State) : Ticket :=
  mkTicket (ID t) (Sequence t) s (Epoch t) (JoinedAt t) (IdleUntil t) (AbsoluteUntil t)
           (ReadyUntil t) (AdmissionUntil t) (JTI t) (PromotedAt t).
Definition set_IdleUntil (t : Ticket) (z : Z) : Ticket :=
  mkTicket (ID t) (Sequence t) (TState t) (Epoch t) (JoinedAt t) z (AbsoluteUntil t)
           (ReadyUntil t) (AdmissionUntil t) (JTI t) (PromotedAt t).
Definition set_tickets (m : Model) (ts : gmap string Ticket) : Model :=
  mkModel (config m) (now m) (epoch m) (sequence m) (mode m) (unsafeUntil m) (cutoff m)
          ts (idempotency m) (rateTimes m) (promotions m).
Definition set_mode (m : Model) (d : Mode) : Model :=
  mkModel (config m) (now m) (epoch m) (sequence m) d (unsafeUntil m) (cutoff m)
          (tickets m) (idempotency m) (rateTimes m) (promotions m).

(** [func New(c Config)], with the range checks of the configuration. *)
Definition valid_config (c : Config) : bool :=
  negb ((VisitorCap c <=? 0) || (IdempotencyCap c <=? 0) || (LeaseCap c <=? 0) ||
        (VisitorCap c <? LeaseCap c) || (Rate c <=? 0) || (IdleTTL c <=? 0) ||
        (TicketTTL c <? IdleTTL c) || (ReadyTTL c <=? 0) || (AdmissionTTL c <? Minute) ||
        (60 * Minute <? AdmissionTTL c) || (IdempotencyTTL c <=? 0) || (ClockSkew c <? 0) ||
        (30000 <? ClockSkew c)).

Definition New (c : Config) : result error Model :=
  if negb (valid_config c) then Err ErrConfig
  else Ok (mkModel c 0 1 0 Auto 0 0 ∅ ∅ [] []).

(** The body of [Advance]'s loop over the tickets. *)
Definition expire (n : Z) (c : Config) (t : Ticket) : Ticket :=
  match TState t with
  | Waiting => if Z.min (IdleUntil t) (AbsoluteUntil t) <=? n then set_TState t Expired else t
  | Ready => if ReadyUntil t <=? n then set_TState t Expired else t
  | AdmittedState => if i64 (AdmissionUntil t + ClockSkew c) <=? n then set_TState t Expired else t
  | _ => t
  end.

(** [func (m *Model) Advance(to int64) error]. *)
Definition Advance (m : Model) (to : Z) : Model * result error unit :=
  if to <? now m then (m, Err ErrClock) else
  (mkModel (config m) to (epoch m) (sequence m) (mode m) (unsafeUntil m) (cutoff m)
     (expire to (config m) <$> tickets m)
     (filter (fun kv => to < iUntil (snd kv)) (idempotency m))
     (drop_while (fun at_ => at_ <=? i64 (to - Minute)) (rateTimes m))
     (promotions m),
   Ok tt).

(** [VisitorCount] and [LeaseCount]. *)
Definition is_visitor (t : Ticket) : bool := bool_decide (TState t <> Expired).
Definition is_lease (t : Ticket) : bool :=
  bool_decide (TState t = Ready) || bool_decide (TState t = AdmittedState).
Definition VisitorCount (m : Model) : Z := map_count is_visitor (tickets m).
Definition LeaseCount (m : Model) : Z := map_count is_lease (tickets m).

(** [fmt.Sprintf("%d:%d", epoch, sequence)]. *)
Definition ticket_id (e s : Z) : string := pretty (Z.to_N e) +:+ ":" +:+ pretty (Z.to_N s).

(** [func (m *Model) Join(key, fingerprint string) (Ticket, error)]. *)
Definition Join (m : Model) (key fingerprint : string) : Model * result error Ticket :=
  if String.eqb key "" || String.eqb fingerprint "" then (m, Err ErrArgument) else
  match idempotency m !! key with
  | Some old =>
      if negb (String.eqb (iFingerprint old) fingerprint) then (m, Err ErrConflict)
      else (m, Ok (default Ticket_zero (tickets m !! iID old)))
  | None =>
      if bool_decide (mode m = Recovery) then (m, Err ErrUnavailable) else
      if bool_decide (mode m = Draining) then (m, Err ErrDrain) else
      if (VisitorCap (config m) <=? VisitorCount m) ||
         (IdempotencyCap (config m) <=? Z.of_nat (size (idempotency m)))
      then (m, Err ErrCapacity) else
      let sequence := u64 (sequence m + 1) in
      let id := ticket_id (epoch m) sequence in
      let t := mkTicket id sequence Waiting (epoch m) (now m)
                 (i64 (now m + IdleTTL (config m))) (i64 (now m + TicketTTL (config m))) 0 0 "" 0 in
      (mkModel (config m) (now m) (epoch m) sequence (mode m) (unsafeUntil m) (cutoff m)
         (<[id := t]> (tickets m))
         (<[key := mkIdem id fingerprint (i64 (now m + IdempotencyTTL (config m)))]> (idempotency m))
         (rateTimes m) (promotions m),
       Ok t)
  end.

(** [func (m *Model) Status(id string) (Ticket, error)]: reads only. *)
Definition Status (m : Model) (id : string) : result error Ticket :=
  match tickets m !! id with
  | Some t => if bool_decide (TState t = Expired) then Err ErrExpired else Ok t
  | None => Err ErrExpired
  end.

(** [func (m *Model) Heartbeat(id string) error]. *)
Definition Heartbeat (m : Model) (id : string) : Model * result error unit :=
  match Status m id with
  | Err e => (m, Err e)
  | Ok t =>
      if bool_decide (mode m = Recovery) then (m, Err ErrUnavailable) else
      if bool_decide (TState t = Waiting)
      then (set_tickets m
              (<[id := set_IdleUntil t (Z.min (i64 (now m + IdleTTL (config m))) (AbsoluteUntil t))]>
                 (tickets m)), Ok tt)
      else (m, Ok tt)
  end.

(** [Promote]: the budget, the candidates, the loop body and the method. *)
Definition budget (m : Model) (limit : Z) : Z :=
  Z.min limit (Z.min (LeaseCap (config m) - LeaseCount m)
                     (Rate (config m) - Z.of_nat (length (rateTimes m)))).

Definition is_candidate (m : Model) (t : Ticket) : bool :=
  bool_decide (TState t = Waiting) &&
  (negb (bool_decide (mode m = Draining)) || (Sequence t <=? cutoff m)).

Definition to_candidate (t : Ticket) : policy.Candidate :=
  policy.mkCandidate (ID t) (Sequence t) (Z.min (IdleUntil t) (AbsoluteUntil t)).

Definition candidates (m : Model) : list policy.Candidate :=
  to_candidate <$> List.filter (is_candidate m) (snd <$> map_to_list (tickets m)).

Definition promote_ticket (n : Z) (c : Config) (t : Ticket) : Ticket :=
  let admissionUntil := i64 (n + AdmissionTTL c) in
  mkTicket (ID t) (Sequence t) Ready (Epoch t) (JoinedAt t) (IdleUntil t) (AbsoluteUntil t)
           (Z.min (i64 (n + ReadyTTL c)) admissionUntil) admissionUntil
           ("admission:" +:+ ID t) (PromotedAt t).

Definition promote_one (st : Model * list Ticket) (c : policy.Candidate) : Model * list Ticket :=
  let (m, out) := st in
  let t := promote_ticket (now m) (config m) (default Ticket_zero (tickets m !! policy.ID c)) in
  (mkModel (config m) (now m) (epoch m) (sequence m) (mode m) (unsafeUntil m) (cutoff m)
     (<[ID t := t]> (tickets m)) (idempotency m)
     (rateTimes m ++ [now m])
     (promotions m ++ [mkPromotion (ID t) (Sequence t) (now m) (Epoch t)]),
   out ++ [t]).

Definition Promote (m : Model) (limit : Z) : Model * list Ticket :=
  if negb (bool_decide (mode m = Auto)) && negb (bool_decide (mode m = Draining)) then (m, []) else
  if budget m limit <=? 0 then (m, []) else
  fold_left promote_one (policy.Eligible (candidates m) (now m) (budget m limit)) (m, []).

(** [func (m *Model) Claim(id string) (Ticket, error)]. *)
Definition Claim (m : Model) (id : string) : Model * result error Ticket :=
  match Status m id with
  | Err e => (m, Err e)
  | Ok t =>
      if bool_decide (mode m = Recovery) then (m, Err ErrUnavailable) else
      if bool_decide (TState t = AdmittedState) then
        if AdmissionUntil t <=? now m then (m, Err ErrExpired) else (m, Ok t)
      else if negb (bool_decide (TState t = Ready)) then (m, Err ErrNotReady)
      else let t' := set_TState t AdmittedState in (set_tickets m (<[id := t']> (tickets m)), Ok t')
  end.

Definition SetHold (m : Model) (hold : bool) : Model * result error unit :=
  if bool_decide (mode m = Recovery) then (m, Err ErrUnavailable)
  else (set_mode m (if hold then Hold else Auto), Ok tt).

Definition Drain (m : Model) : Model * result error unit :=
  if bool_decide (mode m = Recovery) then (m, Err ErrUnavailable) else
  (mkModel (config m) (now m) (epoch m) (sequence m) Draining (unsafeUntil m) (sequence m)
     (tickets m) (idempotency m) (rateTimes m) (promotions m), Ok tt).

Definition Uncertain (m : Model) : Model * Z :=
  let u := Z.max (unsafeUntil m)
             (i64 (i64 (now m + Z.max (AdmissionTTL (config m)) (Z.max (ReadyTTL (config m)) Minute))
                   + ClockSkew (config m))) in
  (mkModel (config m) (now m) (epoch m) (sequence m) Recovery u (cutoff m)
     (tickets m) (idempotency m) (rateTimes m) (promotions m), u).

Definition Resume (m : Model) (verified : bool) : Model * result error unit :=
  if negb (bool_decide (mode m = Recovery)) || negb verified || (now m <? unsafeUntil m)
  then (m, Err ErrUnavailable)
  else (set_mode m Auto, Ok tt).

Definition NewEpoch (m : Model) : Model :=
  mkModel (config m) (now m) (u64 (epoch m + 1)) 0 Hold 0 (cutoff m) ∅ ∅ [] (promotions m).

(** [Snapshot]: the tickets sorted by sequence. *)
Definition seq_not_after (a b : Ticket) : Prop := (Sequence b <? Sequence a) = false.

#[global] Instance seq_not_after_dec : RelDecision seq_not_after.
Proof. intros a b. unfold seq_not_after. apply _. Defined.

Definition Snapshot (m : Model) : list Ticket :=
  sorting.merge_sort seq_not_after (snd <$> map_to_list (tickets m)).

Definition Promotions (m : Model) : list Promotion := promotions m.

(** ** Histories *)

Inductive op :=
  | OAdvance (to : Z) | OJoin (key fingerprint : string) | OStatus (id : string)
  | OHeartbeat (id : string) | OPromote (limit : Z) | OClaim (id : string)
  | OSetHold (hold : bool) | ODrain | OUncertain | OResume (verified : bool) | ONewEpoch.

Definition exec (m : Model) (o : op) : Model :=
  match o with
  | OAdvance to => fst (Advance m to)
  | OJoin k f => fst (Join m k f)
  | OStatus _ => m
  | OHeartbeat id => fst (Heartbeat m id)
  | OPromote n => fst (Promote m n)
  | OClaim id => fst (Claim m id)
  | OSetHold h => fst (SetHold m h)
  | ODrain => fst (Drain m)
  | OUncertain => fst (Uncertain m)
  | OResume v => fst (Resume m v)
  | ONewEpoch => NewEpoch m
  end.

Definition run (m : Model) (ops : list op) : Model := fold_left exec ops m.

End model.
