(* ===== verification/QueueBase.v ===== *)
(** * Structural invariant of the queue model

    Lemmas on [model.Promote] in closed form and the invariant that needs no
    assumption on clocks or counters: the ticket map is keyed by the ticket's
    own identifier, idempotency records point to tickets, and every capacity
    of the configuration is respected. *)

From S2P Require Import Prelude Policy QueueModel.
From stdpp Require Import base list gmap strings pretty sorting.
From Stdlib Require Import ZArith Lia.
Import model.
Local Open Scope Z_scope.

(** ** Identifiers *)

Lemma ticket_id_inj e s s' :
  in_u64 s -> in_u64 s' -> ticket_id e s = ticket_id e s' -> s = s'.
Proof.
  unfold ticket_id, in_u64. intros Hs Hs' H.
  apply (inj (String.app _)), (inj (String.app _)), (inj pretty) in H. lia.
Qed.

(** ** [Promote] in closed form *)

Definition promote_tickets (n : Z) (c : Config) (ts : list Ticket) (tk : gmap string Ticket) :=
  fold_left (fun tk t => <[ID t := promote_ticket n c t]> tk) ts tk.

Definition promotion_of (n : Z) (t : Ticket) : Promotion :=
  mkPromotion (ID t) (Sequence t) n (Epoch t).

Definition promote_all (m : Model) (ts : list Ticket) : Model :=
  mkModel (config m) (now m) (epoch m) (sequence m) (mode m) (unsafeUntil m) (cutoff m)
    (promote_tickets (now m) (config m) ts (tickets m)) (idempotency m)
    (rateTimes m ++ replicate (length ts) (now m))
    (promotions m ++ (promotion_of (now m) <$> ts)).

Lemma promote_fold ts m out :
  NoDup (ID <$> ts) -> Forall (fun t => tickets m !! ID t = Some t) ts ->
  fold_left promote_one (to_candidate <$> ts) (m, out) =
    (promote_all m ts, out ++ (promote_ticket (now m) (config m) <$> ts)).
Proof.
  revert m out. induction ts as [|t ts IH]; intros m out Hnd Hall.
  { unfold promote_all. destruct m; simpl. by rewrite !app_nil_r. }
  simpl in Hnd. apply NoDup_cons in Hnd as [Hnot Hnd]. apply Forall_cons in Hall as [Ht Hall].
  simpl. rewrite Ht. simpl. rewrite IH; simpl; [|done|].
  - unfold promote_all. simpl. rewrite <- !app_assoc. simpl. done.
  - rewrite Forall_forall in Hall |- *. intros u Hu. specialize (Hall u Hu). simpl.
    rewrite lookup_insert_ne; [done|]. intros E. apply Hnot. rewrite E.
    by apply list_elem_of_fmap_2.
Qed.

Lemma promote_tickets_other n c ts tk k :
  k ∉ (ID <$> ts) -> promote_tickets n c ts tk !! k = tk !! k.
Proof.
  unfold promote_tickets. revert tk. induction ts as [|t ts IH]; intros tk Hk; simpl; [done|].
  simpl in Hk. apply not_elem_of_cons in Hk as [? ?].
  rewrite IH by done. by rewrite lookup_insert_ne.
Qed.

Lemma promote_tickets_in n c ts tk t :
  NoDup (ID <$> ts) -> t ∈ ts ->
  promote_tickets n c ts tk !! ID t = Some (promote_ticket n c t).
Proof.
  unfold promote_tickets. revert tk. induction ts as [|u ts IH]; intros tk Hnd Ht; simpl.
  { by apply elem_of_nil in Ht. }
  simpl in Hnd. apply NoDup_cons in Hnd as [Hnot Hnd].
  apply elem_of_cons in Ht as [->|Ht]; [|by apply IH].
  change (promote_tickets n c ts (<[ID u:=promote_ticket n c u]> tk) !! ID u = Some (promote_ticket n c u)).
  rewrite promote_tickets_other by done. apply lookup_insert_eq.
Qed.

(** A lookup after a promotion is either a promoted ticket or the old entry. *)
Lemma promote_tickets_inv n c ts tk k t' :
  NoDup (ID <$> ts) -> promote_tickets n c ts tk !! k = Some t' ->
  (exists t, t ∈ ts /\ k = ID t /\ t' = promote_ticket n c t) \/
  ((k ∉ (ID <$> ts)) /\ tk !! k = Some t').
Proof.
  intros Hnd Hk. destruct (decide (k ∈ (ID <$> ts))) as [Hin|Hout].
  - left. apply list_elem_of_fmap in Hin as [t [-> Ht]].
    rewrite promote_tickets_in in Hk by done. naive_solver.
  - right. by rewrite promote_tickets_other in Hk.
Qed.

Lemma promote_tickets_count p n c ts tk :
  NoDup (ID <$> ts) -> Forall (fun t => tk !! ID t = Some t) ts ->
  map_count p (promote_tickets n c ts tk) =
    map_count p tk + fold_right (fun t z => b2z (p (promote_ticket n c t)) - b2z (p t) + z) 0 ts.
Proof.
  unfold promote_tickets. revert tk. induction ts as [|t ts IH]; intros tk Hnd Hall; simpl; [lia|].
  simpl in Hnd. apply NoDup_cons in Hnd as [Hnot Hnd]. apply Forall_cons in Hall as [Ht Hall].
  rewrite IH; [|done|].
  - rewrite (map_count_insert_Some _ _ _ _ _ Ht). lia.
  - rewrite Forall_forall in Hall |- *. intros u Hu. rewrite lookup_insert_ne; [by apply Hall|].
    intros E. apply Hnot. rewrite E. by apply list_elem_of_fmap_2.
Qed.

(** ** The structural invariant *)

Definition ticket_keyed (m : Model) (k : string) (t : Ticket) : Prop :=
  ID t = k /\ k = ticket_id (epoch m) (Sequence t) /\ in_u64 (Sequence t) /\
  Epoch t = epoch m /\ TState t <> NoState /\ PromotedAt t = 0 /\
  (is_lease t = true -> JTI t = "admission:" +:+ k).

Record base_inv (m : Model) : Prop := {
  b_config : valid_config (config m) = true;
  b_keyed : forall k t, tickets m !! k = Some t -> ticket_keyed m k t;
  b_idem : forall k i, idempotency m !! k = Some i -> is_Some (tickets m !! iID i);
  b_visitors : VisitorCount m <= VisitorCap (config m);
  b_leases : LeaseCount m <= LeaseCap (config m);
  b_idems : Z.of_nat (size (idempotency m)) <= IdempotencyCap (config m);
  b_rate : Z.of_nat (length (rateTimes m)) <= Rate (config m)
}.

Lemma candidates_elem m c :
  c ∈ candidates m <->
  exists k t, tickets m !! k = Some t /\ is_candidate m t = true /\ c = to_candidate t.
Proof.
  unfold candidates. rewrite list_elem_of_fmap. split.
  - intros [t [-> Ht]]. rewrite list_elem_of_In, List.filter_In, <- list_elem_of_In in Ht.
    destruct Ht as [Ht Hc]. apply list_elem_of_fmap in Ht as [[k u] [-> Hk]].
    apply elem_of_map_to_list in Hk. by exists k, u.
  - intros (k & t & Hk & Hc & ->). exists t. split; [done|].
    rewrite list_elem_of_In, List.filter_In, <- list_elem_of_In. split; [|done].
    apply list_elem_of_fmap. exists (k, t). split; [done|]. by apply elem_of_map_to_list.
Qed.

Lemma filter_fmap_sublist {A B} (f : A -> B) (p : A -> bool) l :
  (f <$> List.filter p l) `sublist_of` (f <$> l).
Proof.
  induction l as [|x l IH]; simpl; [constructor|].
  destruct (p x); simpl; by constructor.
Qed.

Lemma candidates_NoDup m : base_inv m -> NoDup (policy.ID <$> candidates m).
Proof.
  intros [_ Hk _ _ _ _ _]. unfold candidates.
  replace (policy.ID <$> (to_candidate <$> List.filter (is_candidate m) (snd <$> map_to_list (tickets m))))
    with (ID <$> List.filter (is_candidate m) (snd <$> map_to_list (tickets m)))
    by (rewrite <- list_fmap_compose; by apply list_fmap_ext).
  eapply sublist_NoDup; [|apply filter_fmap_sublist].
  replace (ID <$> (snd <$> map_to_list (tickets m))) with (fst <$> map_to_list (tickets m)).
  { apply NoDup_fst_map_to_list. }
  rewrite <- list_fmap_compose. apply list_fmap_ext. intros i [k t] Hi. simpl. symmetry.
  apply (Hk k t). apply elem_of_map_to_list, list_elem_of_lookup. eauto.
Qed.

(** The tickets an eligible list of candidates stands for. *)
Lemma eligible_tickets m cs :
  base_inv m -> (forall c, c ∈ cs -> c ∈ candidates m) -> NoDup (policy.ID <$> cs) ->
  exists ts, cs = to_candidate <$> ts /\ NoDup (ID <$> ts) /\
    Forall (fun t => tickets m !! ID t = Some t /\ is_candidate m t = true) ts.
Proof.
  intros Hb. induction cs as [|c cs IH]; intros Hin Hnd.
  { exists []. repeat split; constructor. }
  simpl in Hnd. apply NoDup_cons in Hnd as [Hnot Hnd].
  destruct IH as (ts & -> & Hnd' & Hall); [intros; apply Hin; by right | done |].
  destruct (proj1 (candidates_elem m c) (Hin c ltac:(left))) as (k & t & Hk & Hc & ->).
  destruct (b_keyed m Hb k t Hk) as [<- _].
  exists (t :: ts). repeat split; [| by constructor].
  simpl. apply NoDup_cons. split; [|done]. simpl in Hnot.
  by rewrite <- list_fmap_compose in Hnot.
Qed.

(** What [Promote] chooses: distinct live candidates in strictly increasing
    sequence, within the budget, before every live candidate left waiting. *)
Definition live_candidate (m : Model) (t : Ticket) : Prop :=
  tickets m !! ID t = Some t /\ is_candidate m t = true /\
  now m < Z.min (IdleUntil t) (AbsoluteUntil t).

Record chosen (m : Model) (limit : Z) (ts : list Ticket) : Prop := {
  ch_active : ts <> [] -> mode m = Auto \/ mode m = Draining;
  ch_nodup : NoDup (ID <$> ts);
  ch_live : Forall (live_candidate m) ts;
  ch_sorted : StronglySorted (fun a b => Sequence a < Sequence b) ts;
  ch_budget : ts <> [] -> Z.of_nat (length ts) <= budget m limit;
  ch_first : forall t u, t ∈ ts -> live_candidate m u -> u ∉ ts -> Sequence t < Sequence u
}.

Lemma chosen_nil m limit : chosen m limit [].
Proof.
  constructor; try done; try constructor. intros t u Ht. by apply elem_of_nil in Ht.
Qed.

Lemma same_sequence m t u :
  base_inv m -> tickets m !! ID t = Some t -> tickets m !! ID u = Some u ->
  Sequence t = Sequence u -> t = u.
Proof.
  intros Hb Ht Hu E.
  destruct (b_keyed m Hb _ _ Ht) as (_ & Hid & _), (b_keyed m Hb _ _ Hu) as (_ & Hid' & _).
  rewrite Hid, E, <- Hid' in Ht. congruence.
Qed.

Lemma not_after_sequence a b : policy.not_after a b -> policy.Sequence a <= policy.Sequence b.
Proof. rewrite policy.not_after_spec. lia. Qed.

Lemma strictly_sorted m ts :
  base_inv m -> NoDup (ID <$> ts) -> Forall (fun t => tickets m !! ID t = Some t) ts ->
  StronglySorted policy.not_after (to_candidate <$> ts) ->
  StronglySorted (fun a b => Sequence a < Sequence b) ts.
Proof.
  intros Hb. induction ts as [|t ts IH]; intros Hnd Hall Hs; [constructor|].
  simpl in Hnd, Hs. apply NoDup_cons in Hnd as [Hnot Hnd]. apply Forall_cons in Hall as [Ht Hall].
  apply StronglySorted_inv in Hs as [Hs Hhd]. constructor; [by apply IH|].
  rewrite Forall_forall in Hhd. rewrite Forall_forall in Hall |- *. intros u Hu.
  pose proof (not_after_sequence _ _ (Hhd _ (list_elem_of_fmap_2 to_candidate _ _ Hu))) as Hle.
  simpl in Hle. destruct (decide (Sequence t = Sequence u)) as [E|]; [|lia].
  rewrite (same_sequence m t u Hb Ht (Hall u Hu) E) in Hnot.
  exfalso. apply Hnot. by apply list_elem_of_fmap_2.
Qed.

(** A live candidate outside the eligible prefix comes after it. *)
Lemma left_out_after m ts rest t u :
  base_inv m -> Forall (fun t => tickets m !! ID t = Some t) ts ->
  policy.live (now m) (candidates m) ≡ₚ (to_candidate <$> ts) ++ rest ->
  (forall c d, c ∈ (to_candidate <$> ts) -> d ∈ rest -> policy.not_after c d) ->
  t ∈ ts -> live_candidate m u -> u ∉ ts -> Sequence t < Sequence u.
Proof.
  intros Hb Hlook Hperm Hrest Ht (Hu & Huc & Hul) Hnot. rewrite Forall_forall in Hlook.
  assert (to_candidate u ∈ policy.live (now m) (candidates m)) as Hlive.
  { apply policy.elem_of_live. split; [apply candidates_elem; eauto | done]. }
  rewrite Hperm in Hlive. apply elem_of_app in Hlive as [Hin|Hin].
  - apply list_elem_of_fmap in Hin as [v [Ev Hv]].
    assert (u = v); [|congruence]. apply (same_sequence m u v Hb); [done | by apply Hlook |].
    by injection Ev.
  - pose proof (not_after_sequence _ _ (Hrest _ _ (list_elem_of_fmap_2 to_candidate _ _ Ht) Hin)) as Hle.
    simpl in Hle. destruct (decide (Sequence t = Sequence u)) as [E'|]; [|lia].
    rewrite (same_sequence m t u Hb (Hlook t Ht) Hu E') in Ht. done.
Qed.

(** The eligible candidates are the candidates of [chosen] tickets. *)
Lemma Eligible_chosen m limit :
  base_inv m -> (mode m = Auto \/ mode m = Draining) ->
  exists ts, policy.Eligible (candidates m) (now m) (budget m limit) = to_candidate <$> ts /\
    (0 < budget m limit -> chosen m limit ts).
Proof.
  intros Hb Hmode. set (cs := policy.Eligible (candidates m) (now m) (budget m limit)).
  destruct (policy.Eligible_prefix (candidates m) (now m) (budget m limit)) as [rest [Hperm Hrest]].
  fold cs in Hperm, Hrest.
  assert (NoDup (policy.ID <$> cs)) as Hnd.
  { pose proof (candidates_NoDup m Hb) as Hc.
    apply (sublist_NoDup (policy.ID <$> policy.live (now m) (candidates m))) in Hc;
      [|apply filter_fmap_sublist].
    rewrite Hperm, fmap_app in Hc. by apply NoDup_app in Hc as [? _]. }
  destruct (eligible_tickets m cs Hb) as (ts & Hcs & Hnd' & Hall); [|done|].
  { intros c Hc. by apply policy.Eligible_elem in Hc as [? _]. }
  assert (Forall (fun t => tickets m !! ID t = Some t) ts) as Hlook
    by (eapply Forall_impl; [exact Hall | naive_solver]).
  exists ts. split; [done|]. intros Hpos. constructor; [done | done | | | |].
  - rewrite Forall_forall in Hall |- *. intros t Ht. destruct (Hall t Ht) as [? ?].
    split_and!; [done | done |].
    assert (to_candidate t ∈ cs) as Hc by (rewrite Hcs; by apply list_elem_of_fmap_2).
    by apply policy.Eligible_elem in Hc as [_ ?].
  - eapply strictly_sorted; eauto. rewrite <- Hcs. apply policy.Eligible_sorted.
  - intros _. rewrite <- (length_fmap to_candidate), <- Hcs. unfold cs. rewrite policy.Eligible_length. lia.
  - rewrite Hcs in Hperm, Hrest. intros t u. by eapply left_out_after.
Qed.

Lemma Promote_spec m limit :
  base_inv m ->
  exists ts, chosen m limit ts /\
    Promote m limit = (promote_all m ts, promote_ticket (now m) (config m) <$> ts) /\
    ((mode m = Auto \/ mode m = Draining) ->
     Z.of_nat (length ts) =
       Z.min (Z.max 0 (budget m limit)) (Z.of_nat (length (policy.live (now m) (candidates m))))).
Proof.
  intros Hb. unfold Promote.
  assert (promote_all m [] = m) as Hnil by (unfold promote_all; destruct m; simpl; by rewrite !app_nil_r).
  destruct (negb (bool_decide (mode m = Auto)) && negb (bool_decide (mode m = Draining))) eqn:E.
  { exists []. rewrite Hnil. split_and!; [apply chosen_nil | done |]. to_prop. naive_solver. }
  assert (mode m = Auto \/ mode m = Draining) as Hmode.
  { apply andb_false_iff in E. rewrite !negb_false_iff, !bool_decide_eq_true in E. done. }
  destruct (Z.leb_spec (budget m limit) 0) as [Hle|Hlt].
  { exists []. rewrite Hnil. split_and!; [apply chosen_nil | done |]. intros _. simpl. lia. }
  destruct (Eligible_chosen m limit Hb Hmode) as (ts & Hcs & Hch). specialize (Hch Hlt).
  exists ts. split_and!; [done | |].
  - rewrite Hcs, promote_fold; [done | apply Hch |].
    eapply Forall_impl; [apply (ch_live _ _ _ Hch)|]. by intros t (? & _).
  - intros _. rewrite <- (length_fmap to_candidate), <- Hcs. apply policy.Eligible_length.
Qed.

(** ** Every operation preserves the structural invariant *)

Lemma base_inv_ext m m' :
  config m' = config m -> epoch m' = epoch m -> tickets m' = tickets m ->
  idempotency m' = idempotency m -> rateTimes m' = rateTimes m ->
  base_inv m -> base_inv m'.
Proof.
  intros Hc He Ht Hi Hr [H1 H2 H3 H4 H5 H6 H7].
  constructor; unfold VisitorCount, LeaseCount, ticket_keyed in *; rewrite ?Hc, ?He, ?Ht, ?Hi, ?Hr; auto.
Qed.

Lemma expire_cases n c t : expire n c t = t \/ expire n c t = set_TState t Expired.
Proof. unfold expire. destruct (TState t); try (by left); split_if; auto. Qed.

Lemma expire_visitor n c t : is_visitor (expire n c t) = true -> is_visitor t = true.
Proof. destruct (expire_cases n c t) as [->| ->]; done. Qed.

Lemma expire_lease n c t : is_lease (expire n c t) = true -> is_lease t = true.
Proof. destruct (expire_cases n c t) as [->| ->]; done. Qed.

Lemma New_base c m : New c = Ok m -> base_inv m.
Proof.
  unfold New. destruct (valid_config c) eqn:E; simpl; [|done]. intros [= <-].
  assert (H := E). unfold valid_config in H. to_prop.
  constructor; simpl; unfold VisitorCount, LeaseCount; simpl; rewrite ?map_count_empty, ?map_size_empty;
    simpl; try lia; try done.
Qed.

Lemma Advance_base m to : base_inv m -> base_inv (fst (Advance m to)).
Proof.
  intros [H1 H2 H3 H4 H5 H6 H7]. unfold Advance. split_if; simpl; [by constructor|].
  constructor; simpl; [done | | | | | |].
  - intros k t. rewrite lookup_fmap_Some. intros (u & <- & Hu).
    destruct (H2 k u Hu) as (? & ? & ? & ? & ? & ? & ?).
    destruct (expire_cases to (config m) u) as [->| ->]; split_and!; done.
  - intros k i Hk. apply map_lookup_filter_Some in Hk as [Hk _].
    rewrite lookup_fmap. destruct (H3 k i Hk) as [t ->]. eauto.
  - unfold VisitorCount in *. simpl. etrans; [|exact H4].
    apply map_count_fmap_le. apply expire_visitor.
  - unfold LeaseCount in *. simpl. etrans; [|exact H5].
    apply map_count_fmap_le. apply expire_lease.
  - etrans; [|exact H6]. apply inj_le. apply map_subseteq_size, map_filter_subseteq.
  - etrans; [|exact H7]. apply inj_le. apply drop_while_length.
Qed.

Lemma map_count_insert_le `{Countable K} {V} (p : V -> bool) (m : gmap K V) k v :
  map_count p (<[k:=v]> m) <= map_count p m + b2z (p v).
Proof.
  destruct (m !! k) as [w|] eqn:E.
  - rewrite (map_count_insert_Some _ _ _ _ _ E). unfold b2z. destruct (p w), (p v); lia.
  - by rewrite map_count_insert_None.
Qed.

Lemma Join_base m k f : base_inv m -> base_inv (fst (Join m k f)).
Proof.
  intros Hb. unfold Join. split_if; [done|]. destruct (idempotency m !! k) as [old|] eqn:Ek; [by split_if|].
  do 3 (split_if; [done|]). simpl. destruct Hb as [H1 H2 H3 H4 H5 H6 H7]. to_prop.
  constructor; simpl; [done | | | | | |done].
  - intros k' t. destruct (decide (k' = ticket_id (epoch m) (u64 (sequence m + 1)))) as [->|Hne].
    + rewrite lookup_insert_eq. intros [= <-]. unfold ticket_keyed. simpl. split_and!; auto with wr; done.
    + rewrite lookup_insert_ne by done. apply H2.
  - intros k' i. destruct (decide (k' = k)) as [->|Hne].
    + rewrite lookup_insert_eq. intros [= <-]. simpl. rewrite lookup_insert_eq. eauto.
    + rewrite lookup_insert_ne by done. intros Hi.
      rewrite lookup_insert. case_decide; [eauto|]. by eapply H3.
  - unfold VisitorCount in *. simpl. etrans; [apply map_count_insert_le|]. simpl. lia.
  - unfold LeaseCount in *. simpl. etrans; [apply map_count_insert_le|]. simpl. lia.
  - rewrite map_size_insert_None by done. lia.
Qed.

(** Replacing a ticket by one with the same identity. *)
Lemma base_inv_update m k t t' :
  base_inv m -> tickets m !! k = Some t ->
  ID t' = ID t -> Sequence t' = Sequence t -> Epoch t' = Epoch t -> TState t' <> NoState ->
  PromotedAt t' = PromotedAt t -> JTI t' = JTI t -> is_visitor t' = is_visitor t -> is_lease t' = is_lease t ->
  base_inv (set_tickets m (<[k:=t']> (tickets m))).
Proof.
  intros [H1 H2 H3 H4 H5 H6 H7] Hk E1 E2 E3 E4 E5 E6 Ev El.
  constructor; simpl; [done | | | | |done|done].
  - intros k' u. destruct (decide (k' = k)) as [->|Hne].
    + rewrite lookup_insert_eq. intros [= <-]. destruct (H2 k t Hk) as (? & ? & ? & ? & ? & ? & ?).
      unfold ticket_keyed. simpl. rewrite E1, E2, E3, E5, E6, El. by split_and!.
    + rewrite lookup_insert_ne by done. apply H2.
  - intros k' i Hi. simpl. rewrite lookup_insert. case_decide; [eauto|]. by eapply H3.
  - unfold VisitorCount in *. simpl. rewrite (map_count_insert_Some _ _ _ _ _ Hk), Ev. lia.
  - unfold LeaseCount in *. simpl. rewrite (map_count_insert_Some _ _ _ _ _ Hk), El. lia.
Qed.

Lemma Status_ok m id t : Status m id = Ok t <-> tickets m !! id = Some t /\ TState t <> Expired.
Proof.
  unfold Status. destruct (tickets m !! id) as [u|]; [|naive_solver].
  case_bool_decide; naive_solver.
Qed.

Lemma Heartbeat_base m id : base_inv m -> base_inv (fst (Heartbeat m id)).
Proof.
  intros Hb. unfold Heartbeat. destruct (Status m id) as [t|e] eqn:E; [|done].
  apply Status_ok in E as [Hk Hx]. destruct (bool_decide (mode m = Recovery)); [done|].
  destruct (bool_decide (TState t = Waiting)) eqn:Hw; [|done]. to_prop.
  simpl. eapply base_inv_update; eauto. simpl. by rewrite Hw.
Qed.

Lemma Claim_base m id : base_inv m -> base_inv (fst (Claim m id)).
Proof.
  intros Hb. unfold Claim. destruct (Status m id) as [t|e] eqn:E; [|done].
  apply Status_ok in E as [Hk Hx]. destruct (bool_decide (mode m = Recovery)); [done|].
  destruct (bool_decide (TState t = AdmittedState)); [by split_if|].
  destruct (bool_decide (TState t = Ready)) eqn:Hr; simpl; [|done]. to_prop.
  eapply base_inv_update; eauto; simpl; try done; unfold is_visitor, is_lease; simpl; by rewrite Hr.
Qed.

Lemma live_candidate_waiting m t : live_candidate m t -> TState t = Waiting.
Proof. intros (_ & Hc & _). unfold is_candidate in Hc. by to_prop. Qed.

Lemma chosen_lookup m limit ts :
  chosen m limit ts -> Forall (fun t => tickets m !! ID t = Some t) ts.
Proof. intros Hc. eapply Forall_impl; [apply (ch_live _ _ _ Hc)|]. by intros t (? & _). Qed.

Lemma promote_leases n c ts tk :
  NoDup (ID <$> ts) -> Forall (fun t => tk !! ID t = Some t) ts ->
  Forall (fun t => TState t = Waiting) ts ->
  map_count is_lease (promote_tickets n c ts tk) = map_count is_lease tk + Z.of_nat (length ts) /\
  map_count is_visitor (promote_tickets n c ts tk) = map_count is_visitor tk.
Proof.
  intros Hnd Hl Hw. rewrite !promote_tickets_count by done.
  induction Hw as [|t ts Ht Hw IH]; simpl; [lia|].
  apply Forall_cons in Hl as [? Hl]. simpl in Hnd. apply NoDup_cons in Hnd as [? Hnd].
  destruct (IH Hnd Hl). unfold is_lease, is_visitor in *. rewrite Ht in *. simpl in *. lia.
Qed.

Lemma Promote_base m limit : base_inv m -> base_inv (fst (Promote m limit)).
Proof.
  intros Hb. destruct (Promote_spec m limit Hb) as (ts & Hch & -> & _). simpl.
  pose proof (chosen_lookup _ _ _ Hch) as Hl.
  destruct Hch as [_ Hnd Hlive _ Hbud _].
  assert (Forall (fun t => TState t = Waiting) ts) as Hw
    by (eapply Forall_impl; [exact Hlive | apply live_candidate_waiting]).
  destruct (promote_leases (now m) (config m) ts (tickets m) Hnd Hl Hw) as [HL HV].
  destruct Hb as [H1 H2 H3 H4 H5 H6 H7].
  assert (Z.of_nat (length ts) <= LeaseCap (config m) - LeaseCount m /\
          Z.of_nat (length ts) <= Rate (config m) - Z.of_nat (length (rateTimes m))) as [B1 B2].
  { destruct ts as [|t ts']; [simpl; lia|]. specialize (Hbud ltac:(done)). unfold budget in Hbud. lia. }
  constructor; simpl; [done | | | | |done|].
  - intros k t Hk.
    destruct (promote_tickets_inv _ _ _ _ _ _ Hnd Hk) as [(u & Hu & -> & ->)|[_ Hk']].
    + rewrite Forall_forall in Hl. destruct (H2 _ _ (Hl u Hu)) as (? & ? & ? & ? & ? & ? & ?).
      unfold ticket_keyed. simpl. by split_and!.
    + by apply H2.
  - intros k i Hi. destruct (H3 k i Hi) as [t Ht].
    destruct (decide (iID i ∈ (ID <$> ts))) as [Hin|Hout].
    + apply list_elem_of_fmap in Hin as [u [-> Hu]]. rewrite promote_tickets_in by done. eauto.
    + rewrite promote_tickets_other by done. eauto.
  - unfold VisitorCount in *. simpl. lia.
  - unfold LeaseCount in *. simpl. lia.
  - rewrite length_app, length_replicate. lia.
Qed.

Lemma NewEpoch_base m : base_inv m -> base_inv (NewEpoch m).
Proof.
  intros [H1 _ _ _ _ _ _]. assert (H := H1). unfold valid_config in H. to_prop.
  constructor; simpl; unfold VisitorCount, LeaseCount; simpl; rewrite ?map_count_empty, ?map_size_empty;
    simpl; try lia; try done.
Qed.

Lemma exec_base m o : base_inv m -> base_inv (exec m o).
Proof.
  intros Hb. destruct o; simpl.
  - by apply Advance_base.
  - by apply Join_base.
  - done.
  - by apply Heartbeat_base.
  - by apply Promote_base.
  - by apply Claim_base.
  - unfold SetHold. split_if; [done|]. by apply (base_inv_ext m).
  - unfold Drain. split_if; [done|]. by apply (base_inv_ext m).
  - by apply (base_inv_ext m).
  - unfold Resume. split_if; [done|]. by apply (base_inv_ext m).
  - by apply NewEpoch_base.
Qed.

Lemma run_base m ops : base_inv m -> base_inv (run m ops).
Proof. intros Hb. unfold run. apply fold_left_ind; [done|]. intros. by apply exec_base. Qed.

#[export] Hint Resolve New_base exec_base run_base : wr.
