(* ===== verification/QueueHistory.v ===== *)
(** * Histories of the queue model

    The invariant of every history of operations whose clock stays far enough
    from the end of the [int64] range for no deadline to overflow, and whose
    length keeps the [uint64] counters from wrapping: deadlines of live
    tickets, the promotion log in queue order, the rolling rate window and the
    safety bound of a recovery. *)

From S2P Require Import Prelude Policy QueueModel QueueBase.
From stdpp Require Import base list gmap strings sorting.
From Stdlib Require Import ZArith Lia.
Import model.
Local Open Scope Z_scope.

(** ** Well-formed histories *)

(** No deadline computed at time [t] overflows when [t + horizon c] fits. *)
Definition horizon (c : Config) : Z :=
  Z.max (TicketTTL c) (Z.max (IdempotencyTTL c) (Z.max (ReadyTTL c) 3600000)) + 60000.

Definition op_ok (c : Config) (o : op) : Prop :=
  match o with OAdvance to => to + horizon c <= max_i64 | _ => True end.

#[global] Instance op_ok_dec c o : Decision (op_ok c o).
Proof. destruct o; simpl; apply _. Defined.

Definition history_ok (c : Config) (ops : list op) : Prop :=
  horizon c <= max_i64 /\ Forall (op_ok c) ops /\ Z.of_nat (length ops) < 18446744073709551615.

(** ** The invariant *)

Record ticket_ok (m : Model) (t : Ticket) : Prop := {
  t_seq : 1 <= Sequence t <= sequence m;
  t_waiting : TState t = Waiting -> now m < IdleUntil t <= AbsoluteUntil t;
  t_ready : TState t = Ready ->
    now m < ReadyUntil t <= AdmissionUntil t /\ AdmissionUntil t <= now m + AdmissionTTL (config m);
  t_admitted : TState t = AdmittedState ->
    now m < AdmissionUntil t + ClockSkew (config m) /\ AdmissionUntil t <= now m + AdmissionTTL (config m);
  t_fifo : TState t = Waiting ->
    Forall (fun p => pEpoch p = epoch m -> pSequence p < Sequence t) (promotions m)
}.

Definition promo_ok (m : Model) (p : Promotion) : Prop :=
  pEpoch p <= epoch m /\ 0 <= pAt p <= now m /\ (pEpoch p = epoch m -> pSequence p <= sequence m).

(** The promotion log is ordered by epoch and, in an epoch, by sequence. *)
Definition promo_lt (a b : Promotion) : Prop :=
  pEpoch a < pEpoch b \/ (pEpoch a = pEpoch b /\ pSequence a < pSequence b).

Definition at_list (e : Z) (ps : list Promotion) : list Z :=
  pAt <$> List.filter (fun p => pEpoch p =? e) ps.

Definition in_minute (t a : Z) : bool := (t - Minute <? a) && (a <=? t).
Definition in_window (e t : Z) (p : Promotion) : bool := (pEpoch p =? e) && in_minute t (pAt p).

Definition recovery_ok (m : Model) : Prop :=
  mode m = Recovery ->
  (forall k t, tickets m !! k = Some t -> is_lease t = true ->
     AdmissionUntil t + ClockSkew (config m) <= unsafeUntil m) /\
  Forall (fun a => a + Minute <= unsafeUntil m) (rateTimes m).

Record hist_inv (n : Z) (m : Model) : Prop := {
  h_base : base_inv m;
  h_now : 0 <= now m /\ now m + horizon (config m) <= max_i64;
  h_seq : 0 <= sequence m <= n;
  h_epoch : 1 <= epoch m <= n + 1;
  h_ticket : forall k t, tickets m !! k = Some t -> ticket_ok m t;
  h_promo : Forall (promo_ok m) (promotions m);
  h_fifo : StronglySorted promo_lt (promotions m);
  h_rate : exists old, at_list (epoch m) (promotions m) = old ++ rateTimes m /\
             Forall (fun a => a <= now m - Minute) old;
  h_window : forall e t, Z.of_nat (countb (in_window e t) (promotions m)) <= Rate (config m);
  h_recovery : recovery_ok m
}.

Lemma config_bounds c :
  valid_config c = true ->
  0 < VisitorCap c /\ 0 < LeaseCap c <= VisitorCap c /\ 0 < Rate c /\ 0 < IdleTTL c <= TicketTTL c /\
  0 < ReadyTTL c /\ 60000 <= AdmissionTTL c <= 3600000 /\ 0 < IdempotencyTTL c /\ 0 <= ClockSkew c <= 30000.
Proof. unfold valid_config, Minute. intros H. to_prop. lia. Qed.

(** Facts about sums at the current time that stay in range. *)
Ltac time_facts H :=
  let Hc := fresh "Hc" in let Hn := fresh "Hn" in
  pose proof (config_bounds _ (b_config _ (h_base _ _ H))) as Hc;
  pose proof (h_now _ _ H) as Hn; unfold horizon, max_i64, Minute in *.

Lemma hist_inv_weaken n m : hist_inv n m -> hist_inv (n + 1) m.
Proof. intros [? ? ? ? ? ? ? ? ? ?]. constructor; auto; lia. Qed.

(** A change of mode, cutoff or safety bound only. *)
Lemma hist_inv_mode n m m' :
  config m' = config m -> now m' = now m -> epoch m' = epoch m -> sequence m' = sequence m ->
  tickets m' = tickets m -> idempotency m' = idempotency m -> rateTimes m' = rateTimes m ->
  promotions m' = promotions m -> recovery_ok m' -> hist_inv n m -> hist_inv n m'.
Proof.
  intros E1 E2 E3 E4 E5 E6 E7 E8 Hr [H1 H2 H3 H4 H5 H6 H7 H8 H9 _].
  constructor; unfold promo_ok in *; rewrite ?E1, ?E2, ?E3, ?E4, ?E5, ?E6, ?E7, ?E8; auto.
  - by apply (base_inv_ext m).
  - intros k t Hk. destruct (H5 k t Hk). constructor; rewrite ?E1, ?E2, ?E3, ?E4, ?E8; auto.
Qed.

(** ** Rate window lemmas *)

Lemma countb_in_window e t ps : countb (in_window e t) ps = countb (in_minute t) (at_list e ps).
Proof.
  unfold countb, at_list. induction ps as [|p ps IH]; simpl; [done|].
  unfold in_window at 1. destruct (pEpoch p =? e); simpl; [|done].
  destruct (in_minute t (pAt p)); simpl; by rewrite ?IH.
Qed.

Lemma at_list_app e ps qs : at_list e (ps ++ qs) = at_list e ps ++ at_list e qs.
Proof. unfold at_list. by rewrite List.filter_app, fmap_app. Qed.

Lemma at_list_promotions n m ts e :
  hist_inv n m -> Forall (fun t => tickets m !! ID t = Some t) ts ->
  at_list e (promotion_of (now m) <$> ts) =
    if epoch m =? e then replicate (length ts) (now m) else [].
Proof.
  intros Hh. induction 1 as [|t ts Ht _ IH]; simpl; [by destruct (epoch m =? e)|].
  destruct (b_keyed m (h_base n m Hh) _ _ Ht) as (_ & _ & _ & He & _).
  unfold at_list in *. csimpl. rewrite He. destruct (epoch m =? e); csimpl; by rewrite IH.
Qed.

(** ** Every operation preserves the invariant *)

Lemma New_hist c m : New c = Ok m -> horizon c <= max_i64 -> hist_inv 0 m.
Proof.
  intros HN Hz. pose proof (New_base c m HN) as Hb. unfold New in HN.
  destruct (valid_config c) eqn:Hv; [|done]. injection HN as <-.
  pose proof (config_bounds c Hv). simpl in *.
  constructor; simpl; [done | lia | lia | lia | | constructor | constructor | | | ].
  - intros k t. by rewrite lookup_empty.
  - exists []. by split; [|constructor].
  - intros. unfold countb. simpl. lia.
  - intros ?. done.
Qed.

Lemma expire_ok n m to k t :
  hist_inv n m -> now m <= to -> to + horizon (config m) <= max_i64 -> tickets m !! k = Some t ->
  ticket_ok (fst (Advance m to)) (expire to (config m) t).
Proof.
  intros Hh Hto Hmax Hk. destruct (h_ticket n m Hh k t Hk) as [Hs Hw Hr Ha Hf].
  time_facts Hh. unfold Advance. destruct (Z.ltb_spec to (now m)); [lia|]. simpl.
  unfold expire. destruct (TState t) eqn:E.
  - constructor; simpl; auto; congruence.
  - specialize (Hw eq_refl). specialize (Hf eq_refl).
    split_if; to_prop; (constructor; simpl; rewrite ?E; auto; try congruence; try lia).
  - specialize (Hr eq_refl). split_if; to_prop; (constructor; simpl; rewrite ?E; auto; try congruence; try lia).
  - specialize (Ha eq_refl). split_if; to_prop; unwrap;
      (constructor; simpl; rewrite ?E; auto; try congruence; try lia).
  - constructor; simpl; rewrite ?E; auto; congruence.
Qed.

Lemma Advance_hist n m to :
  hist_inv n m -> to + horizon (config m) <= max_i64 -> hist_inv n (fst (Advance m to)).
Proof.
  intros Hh Hmax. destruct (Z.ltb_spec to (now m)) as [Hlt|Hge].
  { unfold Advance. by rewrite (proj2 (Z.ltb_lt _ _) Hlt). }
  pose proof (Advance_base m to (h_base n m Hh)) as Hb.
  pose proof (expire_ok n m to) as Hex. time_facts Hh.
  destruct Hh as [H1 H2 H3 H4 H5 H6 H7 [old [H8 H8']] H9 H10].
  unfold Advance in *. rewrite (proj2 (Z.ltb_ge _ _) Hge) in *. simpl in *.
  constructor; simpl; auto.
  - unfold horizon, max_i64. lia.
  - intros k t. rewrite lookup_fmap_Some. intros (u & <- & Hu). eapply Hex; eauto.
    by constructor; eauto.
  - eapply Forall_impl; [exact H6|]. intros p (? & ? & ?). unfold promo_ok. simpl. split; [done|]. split; [lia | done].
  - destruct (drop_while_split (fun a => a <=? i64 (to - Minute)) (rateTimes m)) as [d [Hd Hall]].
    exists (old ++ d). rewrite H8, Hd at 1. rewrite <- app_assoc. split; [done|].
    apply Forall_app. split; (eapply Forall_impl; [eassumption|]); simpl; intros a Ha; [lia|].
    unfold Minute in *. to_prop. unwrap. lia.
  - intros Hrec. simpl in *. destruct (H10 Hrec) as [HL HR]. split.
    + intros k t. rewrite lookup_fmap_Some. intros (u & <- & Hu) Hl.
      assert (AdmissionUntil (expire to (config m) u) = AdmissionUntil u) as ->
        by (destruct (expire_cases to (config m) u) as [->| ->]; done).
      by eapply HL, expire_lease.
    + destruct (drop_while_split (fun a => a <=? i64 (to - Minute)) (rateTimes m)) as [d [Hd _]].
      rewrite Hd in HR. by apply Forall_app in HR as [_ ?].
Qed.

Lemma ticket_ok_joined m n s :
  hist_inv n m -> s = sequence m + 1 -> forall t, ticket_ok m t ->
  ticket_ok (mkModel (config m) (now m) (epoch m) s (mode m) (unsafeUntil m) (cutoff m)
               (tickets m) (idempotency m) (rateTimes m) (promotions m)) t.
Proof. intros Hh -> t [H1 H2 H3 H4 H5]. constructor; simpl; auto. lia. Qed.

Lemma Join_hist n m k f :
  hist_inv n m -> n < 18446744073709551615 -> hist_inv (n + 1) (fst (Join m k f)).
Proof.
  intros Hh Hn. pose proof (Join_base m k f (h_base n m Hh)) as Hb.
  pose proof (hist_inv_weaken n m Hh) as Hw. unfold Join in *.
  split_if; [done|]. destruct (idempotency m !! k) as [old|]; [by split_if|].
  split_if; [done|]. to_prop. do 2 (split_if; [done|]).
  pose proof (h_seq n m Hh) as Hs. rewrite (u64_id (sequence m + 1)) in * by (unfold in_u64; lia).
  pose proof (ticket_ok_joined m n _ Hh eq_refl) as Hj. time_facts Hh. unwrap. simpl in *.
  destruct Hh as [H1 H2 H3 H4 H5 H6 H7 H8 H9 H10].
  constructor; simpl; auto; [lia | lia | | |].
  - intros k' t. destruct (decide (k' = ticket_id (epoch m) (sequence m + 1))) as [->|Hne].
    + rewrite lookup_insert_eq. intros [= <-]. constructor; simpl; try done; try lia.
      intros _. eapply Forall_impl; [exact H6|]. intros p (_ & _ & Hp) He. specialize (Hp He). lia.
    + rewrite lookup_insert_ne by done. intros Ht. destruct (Hj t (H5 _ _ Ht)). by constructor.
  - eapply Forall_impl; [exact H6|]. intros p (? & ? & Hp). unfold promo_ok. simpl.
    split; [done|]. split; [done|]. intros He. specialize (Hp He). lia.
  - intros Hrec. done.
Qed.

(** Replacing a ticket by one with the same identity. *)
Lemma hist_inv_update n m k t' :
  hist_inv n m -> base_inv (set_tickets m (<[k:=t']> (tickets m))) -> ticket_ok m t' ->
  mode m <> Recovery -> hist_inv n (set_tickets m (<[k:=t']> (tickets m))).
Proof.
  intros [H1 H2 H3 H4 H5 H6 H7 H8 H9 H10] Hb Hok Hm.
  constructor; simpl; auto; [|by intros ?].
  intros k' u. destruct (decide (k' = k)) as [->|Hne].
  - rewrite lookup_insert_eq. intros [= <-]. destruct Hok. by constructor.
  - rewrite lookup_insert_ne by done. intros Hu. destruct (H5 _ _ Hu). by constructor.
Qed.

Lemma Heartbeat_hist n m id : hist_inv n m -> hist_inv n (fst (Heartbeat m id)).
Proof.
  intros Hh. pose proof (Heartbeat_base m id (h_base n m Hh)) as Hb. unfold Heartbeat in *.
  destruct (Status m id) as [t|e] eqn:E; [|done].
  apply Status_ok in E as [Hk Hx]. destruct (bool_decide (mode m = Recovery)) eqn:Hr; [done|].
  destruct (bool_decide (TState t = Waiting)) eqn:Hw; [|done]. to_prop. simpl in *.
  eapply hist_inv_update; eauto. destruct (h_ticket n m Hh id t Hk) as [Hs Hwt Hrd Ha Hf].
  specialize (Hwt Hw). time_facts Hh. unwrap.
  constructor; simpl; auto; try congruence. lia.
Qed.

Lemma Claim_hist n m id : hist_inv n m -> hist_inv n (fst (Claim m id)).
Proof.
  intros Hh. pose proof (Claim_base m id (h_base n m Hh)) as Hb. unfold Claim in *.
  destruct (Status m id) as [t|e] eqn:E; [|done].
  apply Status_ok in E as [Hk Hx]. destruct (bool_decide (mode m = Recovery)) eqn:Hr; [done|].
  destruct (bool_decide (TState t = AdmittedState)); [by split_if|].
  destruct (bool_decide (TState t = Ready)) eqn:Hrd; simpl in *; [|done]. to_prop.
  eapply hist_inv_update; eauto. destruct (h_ticket n m Hh id t Hk) as [Hs Hwt Hready Ha Hf].
  specialize (Hready Hrd). time_facts Hh. constructor; simpl; auto; try done. lia.
Qed.

Lemma NewEpoch_hist n m :
  hist_inv n m -> n < 18446744073709551614 -> hist_inv (n + 1) (NewEpoch m).
Proof.
  intros Hh Hn. pose proof (NewEpoch_base m (h_base n m Hh)) as Hb. time_facts Hh.
  destruct Hh as [H1 H2 H3 H4 H5 H6 H7 H8 H9 H10].
  unfold NewEpoch in *. rewrite (u64_id (epoch m + 1)) in * by (unfold in_u64; lia).
  constructor; simpl; auto; [lia | lia | | | |].
  - intros k t. by rewrite lookup_empty.
  - eapply Forall_impl; [exact H6|]. intros p (? & ? & _). unfold promo_ok. simpl. lia.
  - exists []. split; [|constructor]. unfold at_list.
    assert (List.filter (fun p => pEpoch p =? epoch m + 1) (promotions m) = []) as ->; [|done].
    clear - H6. induction H6 as [|p ps (? & _ & _) _ IH]; simpl; [done|].
    destruct (Z.eqb_spec (pEpoch p) (epoch m + 1)); [lia | done].
  - intros ?. done.
Qed.

(** *** [Promote] *)

(** The log after a promotion of [ts]: still ordered, since every promoted
    ticket was waiting behind every promotion of its epoch. *)
Lemma promote_fifo n m limit ts :
  hist_inv n m -> chosen m limit ts ->
  StronglySorted promo_lt (promotions m ++ (promotion_of (now m) <$> ts)).
Proof.
  intros Hh Hch. pose proof (chosen_lookup _ _ _ Hch) as Hl.
  destruct Hch as [_ _ Hlive Hs _ _]. apply StronglySorted_app_2; [ | apply (h_fifo n m Hh) |].
  - intros p q Hp Hq. apply list_elem_of_fmap in Hq as [t [-> Ht]].
    rewrite Forall_forall in Hl. rewrite Forall_forall in Hlive.
    destruct (b_keyed m (h_base n m Hh) _ _ (Hl t Ht)) as (_ & _ & _ & He & _).
    pose proof (t_fifo m t (h_ticket n m Hh _ _ (Hl t Ht)) (live_candidate_waiting m t (Hlive t Ht))) as Hf.
    pose proof (h_promo n m Hh) as Hpr. rewrite Forall_forall in Hf. rewrite Forall_forall in Hpr.
    destruct (Hpr p Hp) as (Hpe & _). unfold promo_lt. simpl. rewrite He.
    destruct (decide (pEpoch p = epoch m)) as [E|]; [right; split; [done | by apply Hf] | left; lia].
  - clear Hlive. induction Hs as [|t ts Hs IH Ht]; csimpl; [constructor|].
    apply Forall_cons in Hl as [Hlt Hl]. constructor; [by apply IH|].
    apply Forall_fmap, Forall_forall. intros u Hu. rewrite Forall_forall in Hl.
    rewrite Forall_forall in Ht. destruct (b_keyed m (h_base n m Hh) _ _ Hlt) as (_ & _ & _ & He & _).
    destruct (b_keyed m (h_base n m Hh) _ _ (Hl u Hu)) as (_ & _ & _ & He' & _).
    right. simpl. split; [congruence | by apply Ht].
Qed.

Lemma countb_replicate {A} (p : A -> bool) k x :
  countb p (replicate k x) = if p x then k else 0%nat.
Proof. unfold countb. induction k as [|k IH]; simpl; destruct (p x); simpl; auto. Qed.

(** The budget keeps every window of a minute within the rate. *)
Lemma promote_window n m limit ts e t :
  hist_inv n m -> chosen m limit ts ->
  Z.of_nat (countb (in_window e t) (promotions m ++ (promotion_of (now m) <$> ts))) <= Rate (config m).
Proof.
  intros Hh Hch. pose proof (chosen_lookup _ _ _ Hch) as Hl. pose proof (h_window n m Hh e t) as Hw.
  pose proof (b_rate m (h_base n m Hh)) as Hb.
  assert (Z.of_nat (length ts) <= Rate (config m) - Z.of_nat (length (rateTimes m))) as Hbud.
  { destruct ts as [|u ts']; [simpl; lia|].
    pose proof (ch_budget _ _ _ Hch ltac:(done)). unfold budget in *. lia. }
  rewrite countb_in_window in *. rewrite at_list_app, countb_app, (at_list_promotions n m ts e Hh Hl).
  destruct (Z.eqb_spec (epoch m) e) as [<-|Hne]; [|unfold countb in *; simpl; lia].
  rewrite countb_replicate. destruct (in_minute t (now m)) eqn:Et; [|lia].
  destruct (h_rate n m Hh) as (old & Hold & Hall). rewrite Hold, countb_app.
  rewrite (countb_none _ old).
  { pose proof (countb_le_length (in_minute t) (rateTimes m)). lia. }
  eapply Forall_impl; [exact Hall|]. intros a Ha. simpl in Ha. unfold in_minute in *. to_prop.
  apply andb_false_iff. left. apply Z.ltb_ge. lia.
Qed.

(** A waiting ticket left out, candidate or not, is behind every chosen one. *)
Lemma chosen_before n m limit ts u t :
  hist_inv n m -> chosen m limit ts -> u ∈ ts -> t ∉ ts ->
  tickets m !! ID t = Some t -> TState t = Waiting -> Sequence u < Sequence t.
Proof.
  intros Hh Hch Hu Hnot Ht Hwt. destruct (is_candidate m t) eqn:Hc.
  - apply (ch_first _ _ _ Hch u t Hu); [|done]. split_and!; [done | done |].
    pose proof (t_waiting _ _ (h_ticket n m Hh _ _ Ht) Hwt). lia.
  - pose proof (ch_live _ _ _ Hch) as Hlive. rewrite Forall_forall in Hlive.
    destruct (Hlive u Hu) as (_ & Huc & _). unfold is_candidate in *.
    rewrite (bool_decide_eq_true_2 (TState t = Waiting) Hwt) in Hc.
    rewrite (bool_decide_eq_true_2 _ (live_candidate_waiting m u (Hlive u Hu))) in Huc.
    destruct (bool_decide (mode m = Draining)); simpl in *; to_prop; [lia | done].
Qed.

Lemma promote_ticket_ok n m limit ts k t :
  hist_inv n m -> chosen m limit ts ->
  promote_tickets (now m) (config m) ts (tickets m) !! k = Some t -> ticket_ok (promote_all m ts) t.
Proof.
  intros Hh Hch Hk. pose proof (chosen_lookup _ _ _ Hch) as Hl. rewrite Forall_forall in Hl.
  destruct (promote_tickets_inv _ _ _ _ _ _ (ch_nodup _ _ _ Hch) Hk) as [(u & Hu & -> & ->)|[Hnot Hold]].
  - destruct (h_ticket n m Hh _ _ (Hl u Hu)) as [Hs _ _ _ _]. time_facts Hh.
    constructor; simpl; try done; unwrap; intros; lia.
  - destruct (h_ticket n m Hh _ _ Hold) as [Hs Hw Hr Ha Hf]. constructor; simpl; auto.
    intros Hwt. specialize (Hf Hwt). apply Forall_app. split; [done|].
    apply Forall_fmap, Forall_forall. intros u Hu He. simpl in *.
    destruct (b_keyed m (h_base n m Hh) _ _ Hold) as (HID & _). rewrite <- HID in Hold, Hnot.
    eapply chosen_before; eauto. intros Hin. apply Hnot. by apply list_elem_of_fmap_2.
Qed.

Lemma Promote_hist n m limit : hist_inv n m -> hist_inv n (fst (Promote m limit)).
Proof.
  intros Hh. pose proof (Promote_base m limit (h_base n m Hh)) as Hb.
  destruct (Promote_spec m limit (h_base n m Hh)) as (ts & Hch & E & _). rewrite E in *. simpl in *.
  pose proof (chosen_lookup _ _ _ Hch) as Hl. time_facts Hh.
  constructor; simpl; [done | apply Hh | apply Hh | apply Hh | | | | | |].
  - intros k t Hk. eapply promote_ticket_ok; eauto.
  - apply Forall_app. split; [apply (h_promo n m Hh)|]. apply Forall_fmap, Forall_forall.
    intros t Ht. rewrite Forall_forall in Hl. specialize (Hl t Ht).
    destruct (b_keyed m (h_base n m Hh) _ _ Hl) as (_ & _ & _ & He & _).
    pose proof (t_seq _ _ (h_ticket n m Hh _ _ Hl)). unfold promo_ok. simpl. lia.
  - eapply promote_fifo; eauto.
  - destruct (h_rate n m Hh) as (old & Hold & Hall). exists old. split; [|done].
    rewrite at_list_app, Hold, (at_list_promotions n m ts _ Hh Hl), Z.eqb_refl. by rewrite <- app_assoc.
  - intros e t. eapply promote_window; eauto.
  - intros Hrec. simpl in *. destruct ts as [|t ts'].
    + destruct (h_recovery n m Hh Hrec). simpl. by rewrite app_nil_r.
    + destruct (ch_active _ _ _ Hch ltac:(done)); congruence.
Qed.

(** *** Mode changes *)

Lemma Uncertain_hist n m : hist_inv n m -> hist_inv n (fst (Uncertain m)).
Proof.
  intros Hh. apply (hist_inv_mode n m); try done. intros _. time_facts Hh. simpl. unfold Minute. unwrap.
  split.
  - intros k t Hk Hl. destruct (h_ticket n m Hh k t Hk) as [_ _ Hr Ha _].
    unfold is_lease in Hl. apply orb_true_iff in Hl as [Hl|Hl]; to_prop.
    + specialize (Hr Hl). lia.
    + specialize (Ha Hl). lia.
  - destruct (h_rate n m Hh) as (old & Hold & _). apply Forall_forall. intros a Ha.
    assert (a ∈ at_list (epoch m) (promotions m)) as Hin by (rewrite Hold; apply elem_of_app; by right).
    unfold at_list in Hin. apply list_elem_of_fmap in Hin as [p [-> Hp]].
    rewrite list_elem_of_In, List.filter_In, <- list_elem_of_In in Hp. destruct Hp as [Hp _].
    pose proof (h_promo n m Hh) as Hpr. rewrite Forall_forall in Hpr.
    destruct (Hpr p Hp) as (_ & ? & _). lia.
Qed.

Lemma exec_hist n m o :
  hist_inv n m -> op_ok (config m) o -> n < 18446744073709551614 -> hist_inv (n + 1) (exec m o).
Proof.
  intros Hh Ho Hn. destruct o; simpl in *;
    try (by apply Join_hist; [|lia]); try (by apply NewEpoch_hist); apply hist_inv_weaken.
  - by apply Advance_hist.
  - done.
  - by apply Heartbeat_hist.
  - by apply Promote_hist.
  - by apply Claim_hist.
  - unfold SetHold. destruct (bool_decide (mode m = Recovery)); [done|].
    apply (hist_inv_mode n m); try done. intros Hr. by destruct hold.
  - unfold Drain. destruct (bool_decide (mode m = Recovery)); [done|].
    by apply (hist_inv_mode n m).
  - by apply Uncertain_hist.
  - unfold Resume. split_if; [done|]. by apply (hist_inv_mode n m).
Qed.

Lemma exec_config m o : base_inv m -> config (exec m o) = config m.
Proof.
  intros Hb. destruct o; simpl; try done.
  - unfold Advance. by split_if.
  - unfold Join. split_if; [done|]. destruct (idempotency m !! key); [by split_if|]. by repeat split_if.
  - unfold Heartbeat. destruct (Status m id); [|done]. by repeat split_if.
  - destruct (Promote_spec m limit Hb) as (ts & _ & -> & _). done.
  - unfold Claim. destruct (Status m id); [|done]. by repeat split_if.
  - unfold SetHold. by split_if.
  - unfold Drain. by split_if.
  - unfold Resume. by split_if.
Qed.

Lemma run_hist n m ops :
  hist_inv n m -> Forall (op_ok (config m)) ops ->
  n + Z.of_nat (length ops) < 18446744073709551615 -> hist_inv (n + Z.of_nat (length ops)) (run m ops).
Proof.
  revert n m. induction ops as [|o ops IH]; intros n m Hh Hok Hn.
  { simpl. by rewrite Z.add_0_r. }
  apply Forall_cons in Hok as [Ho Hok]. simpl in *.
  replace (n + Z.of_nat (S (length ops))) with ((n + 1) + Z.of_nat (length ops)) by lia.
  apply IH; [apply exec_hist; [done|done|lia] | | lia].
  by rewrite (exec_config m o (h_base n m Hh)).
Qed.

Lemma New_config c m : New c = Ok m -> config m = c.
Proof. unfold New. split_if; [done|]. by intros [= <-]. Qed.

(** Every history from a fresh model. *)
Lemma history_hist c m ops :
  New c = Ok m -> history_ok c ops -> hist_inv (Z.of_nat (length ops)) (run m ops).
Proof.
  intros HN (Hz & Hops & Hlen). rewrite <- (Z.add_0_l (Z.of_nat (length ops))).
  apply run_hist; [by eapply New_hist | by rewrite (New_config c m HN) | lia].
Qed.

Lemma run_config m ops : base_inv m -> config (run m ops) = config m.
Proof.
  revert m. induction ops as [|o ops IH]; intros m Hb; simpl; [done|].
  rewrite IH by auto with wr. by apply exec_config.
Qed.
