(* ===== verification/QueueProps.v ===== *)
(** * Properties of the queue model

    Theorems on every history of the queue reference model: capacities, the
    rolling rate, queue order, recovery, idempotent joins, work conservation,
    drains and admissions. *)

From S2P Require Import Prelude Policy QueueModel QueueBase QueueHistory.
From stdpp Require Import base list gmap strings sorting.
From Stdlib Require Import ZArith Lia.
Import model.
Local Open Scope Z_scope.

(** ** A concrete room used by the witnesses *)

Definition small_config : Config :=
  {| VisitorCap := 3; IdempotencyCap := 8; LeaseCap := 2; Rate := 2;
     IdleTTL := 600000; TicketTTL := 86400000; ReadyTTL := 120000;
     AdmissionTTL := 900000; IdempotencyTTL := 600000; ClockSkew := 30000 |}.

Definition small_model : Model := mkModel small_config 0 1 0 Auto 0 0 ∅ ∅ [] [].

Definition small_ops : list op :=
  [OAdvance 1000; OJoin "a" "f"; OJoin "b" "f"; OJoin "c" "f"; OPromote 5; OClaim "1:1"].

Lemma small_new : New small_config = Ok small_model.
Proof. reflexivity. Qed.

Lemma small_history : history_ok small_config small_ops.
Proof. by apply (bool_decide_unpack _); vm_compute. Qed.

(** ** Invariants read off the histories *)

(** C2: whatever the history, the room never holds more live leases, visitors
    or idempotency records than its configuration allows. *)
Theorem capacity_respected c m ops :
  New c = Ok m ->
  LeaseCount (run m ops) <= LeaseCap c /\ VisitorCount (run m ops) <= VisitorCap c /\
  Z.of_nat (size (idempotency (run m ops))) <= IdempotencyCap c.
Proof.
  intros HN. pose proof (New_base c m HN) as Hb.
  pose proof (run_base m ops Hb) as [_ _ _ HV HL HI _].
  rewrite run_config, (New_config c m HN) in * by done. done.
Qed.

Lemma capacity_respected_witness :
  New small_config = Ok small_model /\ LeaseCount (run small_model small_ops) <= LeaseCap small_config /\
  LeaseCount (run small_model small_ops) = 2.
Proof.
  split_and!; [exact small_new | | by vm_compute].
  apply (capacity_respected small_config small_model small_ops small_new).
Defined.

(** C1: in every history and for every window of one minute, at most [Rate]
    promotions of an epoch fall in the window; the window may end at any
    instant, so the bound is on the rolling rate and not on aligned minutes. *)
Theorem rolling_rate c m ops e t :
  New c = Ok m -> history_ok c ops ->
  Z.of_nat (countb (in_window e t) (Promotions (run m ops))) <= Rate c.
Proof.
  intros HN Hok. pose proof (h_window _ _ (history_hist c m ops HN Hok) e t) as Hw.
  by rewrite run_config, (New_config c m HN) in Hw by (eapply New_base; eauto).
Qed.

Lemma rolling_rate_witness :
  Z.of_nat (countb (in_window 1 1000) (Promotions (run small_model small_ops))) <= 2 /\
  countb (in_window 1 1000) (Promotions (run small_model small_ops)) = 2%nat.
Proof.
  split; [|by vm_compute].
  apply (rolling_rate small_config small_model small_ops 1 1000 small_new small_history).
Defined.

(** C5: the promotion log of every history is strictly increasing in (epoch,
    sequence): tickets are promoted in the order they joined and none twice;
    and a ticket still waiting joined after every ticket promoted in its
    epoch, so nobody is overtaken. *)
Theorem promotions_in_join_order c m ops :
  New c = Ok m -> history_ok c ops ->
  StronglySorted promo_lt (Promotions (run m ops)) /\
  forall id t p, tickets (run m ops) !! id = Some t -> TState t = Waiting ->
    p ∈ Promotions (run m ops) -> pEpoch p = epoch (run m ops) -> pSequence p < Sequence t.
Proof.
  intros HN Hok. pose proof (history_hist c m ops HN Hok) as Hh.
  split; [apply (h_fifo _ _ Hh)|]. intros id t p Ht Hw Hp He.
  pose proof (t_fifo _ _ (h_ticket _ _ Hh id t Ht) Hw) as Hf. rewrite Forall_forall in Hf. by apply Hf.
Qed.

Lemma promotions_in_join_order_witness :
  StronglySorted promo_lt (Promotions (run small_model small_ops)) /\
  pID <$> Promotions (run small_model small_ops) = ["1:1"; "1:2"].
Proof.
  split; [|by vm_compute].
  apply (promotions_in_join_order small_config small_model small_ops small_new small_history).
Defined.

(** ** Recovery *)

Lemma recovered_lease n m k t :
  hist_inv n m -> mode m = Recovery -> unsafeUntil m <= now m ->
  tickets m !! k = Some t -> is_lease t = false.
Proof.
  intros Hh Hr Hu Hk. destruct (is_lease t) eqn:El; [|done]. exfalso.
  destruct (h_recovery n m Hh Hr) as [HL _]. specialize (HL k t Hk El).
  destruct (h_ticket n m Hh k t Hk) as [_ _ Hrd Ha _]. time_facts Hh.
  unfold is_lease in El. apply orb_true_iff in El as [E|E]; to_prop;
    [specialize (Hrd E) | specialize (Ha E)]; lia.
Qed.


Definition recovery_ops : list op := small_ops ++ [OUncertain; OAdvance 931000].


(** ** Idempotent joins *)

(** An operation that keeps an idempotency record valid until [u]. *)
Definition keeps_until (u : Z) (o : op) : Prop :=
  match o with OAdvance to => to < u | ONewEpoch => False | _ => True end.

#[global] Instance keeps_until_dec u o : Decision (keeps_until u o).
Proof. destruct o; simpl; apply _. Defined.

Lemma exec_idem m o k i :
  base_inv m -> idempotency m !! k = Some i -> keeps_until (iUntil i) o ->
  idempotency (exec m o) !! k = Some i.
Proof.
  intros Hb Hk Ho. destruct o; simpl in *; try done.
  - unfold Advance. split_if; [done|]. simpl. by apply map_lookup_filter_Some.
  - unfold Join. split_if; [done|]. destruct (decide (key = k)) as [->|Hne].
    + rewrite Hk. by split_if.
    + destruct (idempotency m !! key); [by split_if|]. do 3 (split_if; [done|]). simpl.
      by rewrite lookup_insert_ne.
  - unfold Heartbeat. destruct (Status m id); [|done]. by repeat split_if.
  - destruct (Promote_spec m limit Hb) as (ts & _ & -> & _). done.
  - unfold Claim. destruct (Status m id); [|done]. by repeat split_if.
  - unfold SetHold. by split_if.
  - unfold Drain. by split_if.
  - unfold Resume. by split_if.
Qed.

Lemma run_idem m ops k i :
  base_inv m -> idempotency m !! k = Some i -> Forall (keeps_until (iUntil i)) ops ->
  idempotency (run m ops) !! k = Some i.
Proof.
  intros Hb Hk Hops. revert m Hb Hk. induction Hops as [|o ops Ho _ IH]; intros m Hb Hk; simpl; [done|].
  apply IH; [by apply exec_base | by apply exec_idem].
Qed.

(** What a join with a known key answers. *)
Lemma Join_replay m k f i f' :
  base_inv m -> k <> "" -> f <> "" -> f' <> "" -> idempotency m !! k = Some i -> iFingerprint i = f ->
  Join m k f' = (m, if String.eqb f f' then Ok (default Ticket_zero (tickets m !! iID i)) else Err ErrConflict).
Proof.
  intros Hb Hk Hf Hf' Hi <-. unfold Join. rewrite Hi.
  rewrite (proj2 (String.eqb_neq k "") Hk), (proj2 (String.eqb_neq f' "") Hf'). simpl.
  by destruct (String.eqb (iFingerprint i) f').
Qed.

Lemma Join_new m k f m' t :
  idempotency m !! k = None -> Join m k f = (m', Ok t) ->
  k <> "" /\ f <> "" /\
  idempotency m' !! k = Some (mkIdem (ID t) f (i64 (now m + IdempotencyTTL (config m)))).
Proof.
  intros Hk. unfold Join. rewrite Hk.
  destruct (String.eqb k "" || String.eqb f "") eqn:E; [done|]. do 3 (split_if; [done|]).
  intros [= <- <-]. to_prop. split_and!; [done | done |]. simpl. apply lookup_insert_eq.
Qed.

(** A join is idempotent. After a join with a fresh key, and for as long as
    the key's lifetime lasts in the epoch, a retry with the same fingerprint
    answers the ticket first issued and changes nothing, and a retry with
    another fingerprint is refused as a conflict. *)
Lemma join_idempotent c m ops k f s t later f' :
  New c = Ok m -> history_ok c ops -> idempotency (run m ops) !! k = None ->
  Join (run m ops) k f = (s, Ok t) ->
  Forall (keeps_until (now (run m ops) + IdempotencyTTL c)) later -> f' <> "" ->
  exists u, tickets (run s later) !! ID t = Some u /\ ID u = ID t /\
    Join (run s later) k f' = (run s later, if String.eqb f f' then Ok u else Err ErrConflict).
Proof.
  intros HN Hok Hk HJ Hlater Hf'. pose proof (history_hist c m ops HN Hok) as Hh.
  assert (config (run m ops) = c) as Hc
    by (rewrite run_config by (by eapply New_base); by eapply New_config).
  set (r := run m ops) in *. clearbody r.
  destruct (Join_new r k f s t Hk HJ) as (Hk0 & Hf0 & Hi). rewrite Hc in Hi.
  assert (base_inv s) as Hs by (replace s with (fst (Join r k f)) by (by rewrite HJ); apply Join_base, Hh).
  time_facts Hh. rewrite Hc in *. unwrap.
  pose proof (run_idem s later k _ Hs Hi Hlater) as Hi'. pose proof (run_base s later Hs) as Hb.
  destruct (b_idem _ Hb k _ Hi') as [u Hu]. simpl in Hu. exists u.
  split_and!; [done | by destruct (b_keyed _ Hb _ _ Hu) |].
  rewrite (Join_replay _ k f _ f' Hb Hk0 Hf0 Hf' Hi' eq_refl). simpl. by rewrite Hu.
Qed.

(** ** Work conservation *)

(** [Promote] is work conserving. In an active mode it promotes exactly as
    many tickets as the caller's limit, the free leases, the free rate and the
    live candidates allow, in join order, and each becomes ready. *)
Lemma promote_work_conserving c m ops limit :
  New c = Ok m -> let s := run m ops in
  (mode s = Auto \/ mode s = Draining) ->
  Z.of_nat (length (snd (Promote s limit))) =
    Z.min (Z.max 0 (Z.min limit (Z.min (LeaseCap c - LeaseCount s)
                                       (Rate c - Z.of_nat (length (rateTimes s))))))
          (Z.of_nat (length (policy.live (now s) (candidates s)))) /\
  LeaseCount (fst (Promote s limit)) = LeaseCount s + Z.of_nat (length (snd (Promote s limit))) /\
  StronglySorted (fun a b => Sequence a < Sequence b) (snd (Promote s limit)) /\
  Forall (fun t => TState t = Ready /\ tickets (fst (Promote s limit)) !! ID t = Some t) (snd (Promote s limit)).
Proof.
  intros HN s Hm. pose proof (run_base m ops (New_base c m HN)) as Hb. fold s in Hb.
  assert (config s = c) as Hc by (unfold s; rewrite run_config by (by eapply New_base); by eapply New_config).
  destruct (Promote_spec s limit Hb) as (ts & Hch & -> & Hlen). simpl. rewrite length_fmap, (Hlen Hm).
  unfold budget. rewrite Hc. split_and!; [done | | |].
  - rewrite <- Hc. fold (budget s limit). rewrite <- (Hlen Hm). unfold LeaseCount. simpl.
    apply promote_leases; [apply Hch | by eapply chosen_lookup |].
    eapply Forall_impl; [apply Hch | apply live_candidate_waiting].
  - pose proof (ch_sorted _ _ _ Hch) as Hs. clear - Hs.
    induction Hs as [|t ts Hs IH Ht]; csimpl; constructor; [done|].
    by apply Forall_fmap.
  - apply Forall_fmap, Forall_forall. intros t Ht. simpl. split; [done|]. rewrite <- Hc.
    apply promote_tickets_in; [apply Hch | done].
Qed.

(** ** Drains *)

(** The operations that leave a drain in force. *)
Definition keeps_drain (o : op) : Prop :=
  match o with OSetHold _ | OUncertain | ONewEpoch => False | _ => True end.

#[global] Instance keeps_drain_dec o : Decision (keeps_drain o).
Proof. destruct o; simpl; apply _. Defined.

(** The state of a drain that began at [base] with the log [ps]. *)
Record drained (cut : Z) (ps : list Promotion) (m : Model) : Prop := {
  d_base : base_inv m;
  d_mode : mode m = Draining;
  d_cutoff : cutoff m = cut;
  d_sequence : sequence m = cut;
  d_log : exists new, promotions m = ps ++ new /\ Forall (fun p => pSequence p <= cut) new
}.

Lemma drained_ext cut ps m m' :
  base_inv m' -> mode m' = mode m -> cutoff m' = cutoff m -> sequence m' = sequence m ->
  promotions m' = promotions m -> drained cut ps m -> drained cut ps m'.
Proof. intros Hb E1 E2 E3 E4 [H1 H2 H3 H4 H5]. constructor; rewrite ?E1, ?E2, ?E3, ?E4; auto. Qed.

Lemma Promote_drained cut ps m limit :
  drained cut ps m -> drained cut ps (fst (Promote m limit)).
Proof.
  intros [H1 H2 H3 H4 [new [Hnew Hall]]]. pose proof (Promote_base m limit H1) as Hb.
  destruct (Promote_spec m limit H1) as (ts & Hch & E & _). rewrite E in *. simpl in *.
  constructor; simpl; auto. exists (new ++ (promotion_of (now m) <$> ts)).
  rewrite Hnew, <- app_assoc. split; [done|]. apply Forall_app. split; [done|].
  apply Forall_fmap. eapply Forall_impl; [apply (ch_live _ _ _ Hch)|].
  intros t (_ & Hc & _). simpl. unfold is_candidate in Hc. rewrite H2 in Hc. simpl in Hc. to_prop. lia.
Qed.

Lemma exec_drained cut ps m o :
  drained cut ps m -> keeps_drain o -> drained cut ps (exec m o).
Proof.
  intros Hd Ho. pose proof (exec_base m o (d_base _ _ _ Hd)) as Hb.
  pose proof (d_mode _ _ _ Hd) as Hm.
  destruct o; simpl in *; try done; try (by apply Promote_drained);
    apply (drained_ext cut ps m); try done.
  all: unfold Advance, Join, Heartbeat, Claim, Drain, Resume.
  all: rewrite ?Hm; simpl; try (destruct (Status m id)); try (destruct (idempotency m !! key));
    repeat split_if; simpl; rewrite ?Hm; try done; symmetry; rewrite (d_cutoff _ _ _ Hd); by destruct Hd.
Qed.

(** A drain admits nobody new. From the drain on, and until the room is
    held, reopened or reset, every promotion concerns a ticket that had joined
    before the drain, no new ticket is created, and a join with a fresh key is
    refused. *)
Lemma drain_closes_the_queue c m ops later :
  New c = Ok m -> mode (run m ops) <> Recovery -> Forall keeps_drain later ->
  let s := run m ops in let d := run (fst (Drain s)) later in
  (exists new, Promotions d = Promotions s ++ new /\ Forall (fun p => pSequence p <= sequence s) new) /\
  sequence d = sequence s /\
  forall k f, k <> "" -> f <> "" -> idempotency d !! k = None -> Join d k f = (d, Err ErrDrain).
Proof.
  intros HN Hm Hl s d. pose proof (run_base m ops (New_base c m HN)) as Hb. fold s in Hb, Hm.
  assert (drained (sequence s) (promotions s) (fst (Drain s))) as H0.
  { unfold Drain. rewrite bool_decide_eq_false_2 by done. simpl. constructor; simpl; try done.
    - by apply (base_inv_ext s).
    - exists []. by rewrite app_nil_r. }
  assert (drained (sequence s) (promotions s) d) as Hd.
  { unfold d, run. apply fold_left_ind; [done|]. intros b o Ho Hbd. apply exec_drained; [done|].
    rewrite Forall_forall in Hl. by apply Hl. }
  destruct Hd as [H1 H2 H3 H4 H5]. split_and!; [done | done |]. intros k f Hk Hf Hi.
  unfold Join. rewrite Hi, H2. apply String.eqb_neq in Hk, Hf. by rewrite Hk, Hf.
Qed.

(** ** Admissions *)

Definition promoted (m : Model) (t : Ticket) (p : Promotion) : Prop :=
  pID p = ID t /\ pEpoch p = epoch m /\ pSequence p = Sequence t /\
  AdmissionUntil t = i64 (pAt p + AdmissionTTL (config m)).

(** Every lease was granted by a promotion of the log. *)
Definition leases_logged (m : Model) : Prop :=
  forall k t, tickets m !! k = Some t -> is_lease t = true ->
    exists p, p ∈ promotions m /\ promoted m t p.

Lemma leases_logged_ext m m' :
  config m' = config m -> epoch m' = epoch m -> promotions m' = promotions m ->
  (forall k t, tickets m' !! k = Some t -> is_lease t = true ->
     exists u, tickets m !! k = Some u /\ is_lease u = true /\
       ID u = ID t /\ Sequence u = Sequence t /\ AdmissionUntil u = AdmissionUntil t) ->
  leases_logged m -> leases_logged m'.
Proof.
  intros Ec Ee Ep Ht Hl k t Hk Hlt. destruct (Ht k t Hk Hlt) as (u & Hu & Hlu & E1 & E2 & E3).
  destruct (Hl k u Hu Hlu) as (p & Hp & Hpr). exists p. unfold promoted in *.
  rewrite Ec, Ee, Ep, <- E1, <- E2, <- E3. done.
Qed.

Lemma Promote_logged m limit :
  base_inv m -> leases_logged m -> leases_logged (fst (Promote m limit)).
Proof.
  intros Hb Hl. destruct (Promote_spec m limit Hb) as (ts & Hch & -> & _). simpl.
  intros k t Hk Hlt. simpl in Hk.
  destruct (promote_tickets_inv _ _ _ _ _ _ (ch_nodup _ _ _ Hch) Hk) as [(u & Hu & -> & ->)|[_ Hold]].
  - exists (promotion_of (now m) u). simpl. split.
    + apply elem_of_app. right. by apply list_elem_of_fmap_2.
    + pose proof (chosen_lookup _ _ _ Hch) as Hlk. rewrite Forall_forall in Hlk.
      destruct (b_keyed m Hb _ _ (Hlk u Hu)) as (_ & _ & _ & He & _).
      unfold promoted. simpl. by split_and!.
  - destruct (Hl k t Hold Hlt) as (p & Hp & Hpr). exists p. simpl. split; [|done].
    apply elem_of_app. by left.
Qed.

Lemma update_logged m id t t' :
  leases_logged m -> tickets m !! id = Some t -> ID t' = ID t -> Sequence t' = Sequence t ->
  AdmissionUntil t' = AdmissionUntil t -> (is_lease t' = true -> is_lease t = true) ->
  leases_logged (set_tickets m (<[id:=t']> (tickets m))).
Proof.
  intros Hl Hk E1 E2 E3 Hle. apply (leases_logged_ext m); try done. simpl.
  intros k u. destruct (decide (k = id)) as [->|Hne].
  - rewrite lookup_insert_eq. intros [= <-] Hlu. exists t. split_and!; auto.
  - rewrite lookup_insert_ne by done. eauto 10.
Qed.

Lemma exec_logged m o : base_inv m -> leases_logged m -> leases_logged (exec m o).
Proof.
  intros Hb Hl. destruct o; simpl.
  - unfold Advance. split_if; [done|]. apply (leases_logged_ext m); try done. simpl.
    intros k t. rewrite lookup_fmap_Some. intros (u & <- & Hu) Hlt. exists u.
    pose proof (expire_lease _ _ _ Hlt). by destruct (expire_cases to (config m) u) as [-> | ->].
  - unfold Join. split_if; [done|]. destruct (idempotency m !! key); [by split_if|].
    do 3 (split_if; [done|]). apply (leases_logged_ext m); try done. simpl.
    intros k t. destruct (decide (k = ticket_id (epoch m) (u64 (sequence m + 1)))) as [->|Hne].
    + rewrite lookup_insert_eq. by intros [= <-].
    + rewrite lookup_insert_ne by done. eauto 10.
  - done.
  - unfold Heartbeat. destruct (Status m id) as [t|] eqn:E; [|done]. apply Status_ok in E as [Hk _].
    repeat split_if; try done. by eapply update_logged.
  - by apply Promote_logged.
  - unfold Claim. destruct (Status m id) as [t|] eqn:E; [|done]. apply Status_ok in E as [Hk _].
    destruct (bool_decide (mode m = Recovery)); [done|].
    destruct (bool_decide (TState t = AdmittedState)); [by split_if|].
    destruct (bool_decide (TState t = Ready)) eqn:Hr; simpl; [|done]. to_prop.
    eapply update_logged; eauto. intros _. unfold is_lease. by rewrite Hr.
  - unfold SetHold. split_if; [done|]. by apply (leases_logged_ext m); eauto 10.
  - unfold Drain. split_if; [done|]. by apply (leases_logged_ext m); eauto 10.
  - by apply (leases_logged_ext m); eauto 10.
  - unfold Resume. split_if; [done|]. by apply (leases_logged_ext m); eauto 10.
  - intros k t Hk. simpl in Hk. by rewrite lookup_empty in Hk.
Qed.

Lemma run_logged c m ops : New c = Ok m -> leases_logged (run m ops).
Proof.
  intros HN. unfold run.
  apply (fold_left_ind (fun m => base_inv m /\ leases_logged m)); [split; [by eapply New_base|] |].
  - intros k t Hk. unfold New in HN. destruct (negb (valid_config c)); [done|]. injection HN as <-.
    simpl in Hk. by rewrite lookup_empty in Hk.
  - intros b o _ [? ?]. split; [by apply exec_base | by apply exec_logged].
Qed.

(** What a successful claim returns. *)
Lemma Claim_ok m id m' t :
  Claim m id = (m', Ok t) ->
  mode m <> Recovery /\ tickets m' !! id = Some t /\ TState t = AdmittedState /\
  mode m' = mode m /\ now m' = now m /\
  exists u, tickets m !! id = Some u /\ is_lease u = true /\ t = set_TState u AdmittedState /\
    (TState u = AdmittedState -> now m < AdmissionUntil u).
Proof.
  unfold Claim. destruct (Status m id) as [u|] eqn:E; [|done]. apply Status_ok in E as [Hk Hx].
  destruct (bool_decide (mode m = Recovery)) eqn:Hr; [done|].
  destruct (bool_decide (TState u = AdmittedState)) eqn:Ha.
  - split_if; [done|]. intros [= <- <-]. to_prop.
    split_and!; try done. exists u. unfold is_lease, set_TState. rewrite Ha. destruct u; simpl in *.
    by subst.
  - destruct (bool_decide (TState u = Ready)) eqn:Hrd; [|done]. intros [= <- <-]. to_prop. simpl.
    rewrite lookup_insert_eq. split_and!; try done. exists u. unfold is_lease. by rewrite Hrd.
Qed.

Lemma Claim_frame m id m' t :
  Claim m id = (m', Ok t) ->
  promotions m' = promotions m /\ LeaseCount m' = LeaseCount m /\ epoch m' = epoch m.
Proof.
  unfold Claim. destruct (Status m id) as [u|] eqn:E; [|done]. apply Status_ok in E as [Hk Hx].
  destruct (bool_decide (mode m = Recovery)) eqn:Hr; [done|].
  destruct (bool_decide (TState u = AdmittedState)) eqn:Ha; [split_if; [done|]; by intros [= <- <-]|].
  destruct (bool_decide (TState u = Ready)) eqn:Hrd; [|done]. intros [= <- <-]. to_prop.
  unfold LeaseCount. simpl. rewrite (map_count_insert_Some _ _ _ _ _ Hk). unfold is_lease. rewrite Hrd.
  simpl. split_and!; [done | lia | done].
Qed.

(** An admission is only ever issued for a promotion. A claim that
    succeeds in any history answers a ticket that the log promoted in the
    current epoch at a time [pAt], whose admission is not over and lasts
    until [pAt + AdmissionTTL] exactly; and claiming again at once is
    idempotent. *)
Lemma claim_only_promoted c m ops id s t :
  New c = Ok m -> history_ok c ops -> Claim (run m ops) id = (s, Ok t) ->
  (exists p, p ∈ Promotions s /\ pID p = id /\ pEpoch p = epoch (run m ops) /\
     AdmissionUntil t = pAt p + AdmissionTTL c) /\
  now (run m ops) < AdmissionUntil t /\ TState t = AdmittedState /\
  LeaseCount s = LeaseCount (run m ops) /\ Claim s id = (s, Ok t).
Proof.
  intros HN Hok HC. pose proof (history_hist c m ops HN Hok) as Hh.
  pose proof (run_logged c m ops HN) as Hl.
  assert (config (run m ops) = c) as Hc
    by (rewrite run_config by (by eapply New_base); by eapply New_config).
  set (r := run m ops) in *. clearbody r.
  destruct (Claim_ok r id s t HC) as (Hm & Hks & Hst & Hms & Hns & u & Hu & Hlu & -> & Hlate).
  destruct (Hl id u Hu Hlu) as (p & Hp & E1 & E2 & E3 & E4). rewrite Hc in E4.
  pose proof (h_promo _ _ Hh) as Hpr. rewrite Forall_forall in Hpr. destruct (Hpr p Hp) as (_ & Hat & _).
  assert (now r < AdmissionUntil u) as Hnow.
  { unfold is_lease in Hlu. apply orb_true_iff in Hlu as [E|E]; to_prop; [|by apply Hlate].
    pose proof (t_ready _ _ (h_ticket _ _ Hh id u Hu) E). lia. }
  destruct (b_keyed _ (h_base _ _ Hh) _ _ Hu) as (HID & _). time_facts Hh. rewrite Hc in *. unwrap.
  destruct (Claim_frame r id s _ HC) as (Hps & Hls & _). split_and!; try done.
  - exists p. unfold Promotions. rewrite Hps, E1. by split_and!.
  - assert (Status s id = Ok (set_TState u AdmittedState)) as HS by (by apply Status_ok).
    unfold Claim. rewrite HS, Hms, Hns.
    rewrite bool_decide_eq_false_2, bool_decide_eq_true_2 by done. simpl.
    by rewrite (proj2 (Z.leb_gt _ _) Hnow).
Qed.

