(* ===== verification/GoStd.v ===== *)
(** * The Go standard library the code builds on

    Byte strings are Rocq strings. [base64] is [base64.RawURLEncoding] in full;
    [strs] holds the functions of package [strings] the code calls. The wire
    format of [encoding/json] and the primitives of [crypto] are interfaces:
    a class of operations, with the documented law of the operations as a
    second class, so that clients are proved against the law. *)

From S2P Require Import Prelude.
From stdpp Require Import base list strings.
From Stdlib Require Import ZArith Lia Ascii String.
Local Open Scope Z_scope.

(** ** Byte strings *)

Definition byte_of (a : ascii) : Z := Z.of_N (N_of_ascii a).
Definition ascii_of (z : Z) : ascii := ascii_of_N (Z.to_N z).
Definition bytes (s : string) : list Z := byte_of <$> list_ascii_of_string s.
Definition of_bytes (l : list Z) : string := string_of_list_ascii (ascii_of <$> l).
Definition is_byte (z : Z) : Prop := 0 <= z < 256.

(** Go's [len] of a string. *)
Definition len (s : string) : Z := Z.of_nat (String.length s).

Lemma length_string_of_list_ascii l : String.length (string_of_list_ascii l) = List.length l.
Proof. induction l as [|a l IH]; [done|]. simpl. by rewrite IH. Qed.

Lemma byte_of_range a : is_byte (byte_of a).
Proof. unfold is_byte, byte_of. pose proof (N_ascii_bounded a). lia. Qed.

Lemma ascii_of_byte_of a : ascii_of (byte_of a) = a.
Proof. unfold ascii_of, byte_of. rewrite N2Z.id. apply ascii_N_embedding. Qed.

Lemma of_bytes_bytes s : of_bytes (bytes s) = s.
Proof.
  unfold of_bytes, bytes. rewrite <- list_fmap_compose.
  rewrite (list_fmap_ext _ id) by (intros; apply ascii_of_byte_of).
  rewrite list_fmap_id. apply string_of_list_ascii_of_string.
Qed.

Lemma bytes_range s : Forall is_byte (bytes s).
Proof. unfold bytes. apply Forall_fmap, Forall_true. apply byte_of_range. Qed.

(** ** Package [strings] *)

Module strs.

(** [strings.Split(s, sep)] for a separator of one byte. *)
Fixpoint split_byte (sep : ascii) (s : string) : list string :=
  match s with
  | EmptyString => [EmptyString]
  | String a s' =>
      if Ascii.eqb a sep then EmptyString :: split_byte sep s'
      else match split_byte sep s' with
           | p :: ps => String a p :: ps
           | [] => [String a EmptyString]
           end
  end.

Fixpoint contains_byte (sep : ascii) (s : string) : bool :=
  match s with EmptyString => false | String a s' => Ascii.eqb a sep || contains_byte sep s' end.

(** [strings.Cut(s, sep)] for a separator of one byte. *)
Fixpoint cut_byte (sep : ascii) (s : string) : option (string * string) :=
  match s with
  | EmptyString => None
  | String a s' =>
      if Ascii.eqb a sep then Some (EmptyString, s')
      else match cut_byte sep s' with
           | Some (p, q) => Some (String a p, q)
           | None => None
           end
  end.

Lemma cut_join sep s t :
  contains_byte sep s = false -> cut_byte sep (s +:+ String sep EmptyString +:+ t) = Some (s, t).
Proof.
  induction s as [|a s IH]; intros Hs.
  - change (cut_byte sep (String sep t) = Some (EmptyString, t)). simpl. by rewrite Ascii.eqb_refl.
  - simpl in Hs. apply orb_false_iff in Hs as [Ha Hs].
    change (cut_byte sep (String a (s +:+ String sep EmptyString +:+ t)) = Some (String a s, t)). simpl.
    by rewrite Ha, (IH Hs).
Qed.

Definition HasPrefix (s prefix : string) : bool := String.prefix prefix s.

(** [strings.TrimSuffix]. *)
Definition HasSuffix (s suffix : string) : bool :=
  let n := String.length s in let k := String.length suffix in
  (Nat.leb k n) && String.eqb (String.substring (n - k) k s) suffix.

Lemma split_none sep s : contains_byte sep s = false -> split_byte sep s = [s].
Proof.
  induction s as [|a s IH]; simpl; [done|]. intros H. apply orb_false_iff in H as [-> H].
  by rewrite (IH H).
Qed.

Lemma split_cons sep s t :
  contains_byte sep s = false -> split_byte sep (s +:+ String sep t) = s :: split_byte sep t.
Proof.
  induction s as [|a s IH]; intros Hs.
  - change (split_byte sep (String sep t) = EmptyString :: split_byte sep t). simpl.
    by rewrite Ascii.eqb_refl.
  - simpl in Hs. apply orb_false_iff in Hs as [Ha Hs].
    change (split_byte sep (String a (s +:+ String sep t)) = String a s :: split_byte sep t). simpl.
    by rewrite Ha, (IH Hs).
Qed.

Lemma split_join sep s t :
  contains_byte sep s = false -> contains_byte sep t = false ->
  split_byte sep (s +:+ String sep EmptyString +:+ t) = [s; t].
Proof.
  intros Hs Ht. change (String sep EmptyString +:+ t) with (String sep t).
  by rewrite split_cons, split_none.
Qed.
End strs.

(** ** [encoding/base64] without padding *)

Module base64.

Section alphabet.
(** The URL alphabet ends in [-_], the standard one in [+/]. *)
Context (url : bool).

Definition alphabet : string :=
  "ABCDEFGHIJKLMNOPQRSTUVWXYZabcdefghijklmnopqrstuvwxyz0123456789" +:+ (if url then "-_" else "+/").

Definition enc_char (v : Z) : ascii := default "A"%char (String.get (Z.to_nat v) alphabet).

(** The value of a character of the alphabet. *)
Definition dec_char (a : ascii) : option Z :=
  let b := byte_of a in
  if (65 <=? b) && (b <=? 90) then Some (b - 65)
  else if (97 <=? b) && (b <=? 122) then Some (b - 71)
  else if (48 <=? b) && (b <=? 57) then Some (b + 4)
  else if b =? (if url then 45 else 43) then Some 62
  else if b =? (if url then 95 else 47) then Some 63 else None.

(** Three bytes are four sextets, most significant first. *)
Fixpoint enc_sextets (l : list Z) : list Z :=
  match l with
  | a :: b :: c :: r =>
      (a / 4) :: (a mod 4 * 16 + b / 16) :: (b mod 16 * 4 + c / 64) :: (c mod 64) :: enc_sextets r
  | [a; b] => [a / 4; a mod 4 * 16 + b / 16; b mod 16 * 4]
  | [a] => [a / 4; a mod 4 * 16]
  | [] => []
  end.

(** A last group of two or three sextets drops its spare low bits, which a
    strict decoder requires to be zero; a last group of one is corrupt. *)
Fixpoint dec_sextets (strict : bool) (l : list Z) : option (list Z) :=
  match l with
  | w :: x :: y :: z :: r =>
      r' ← dec_sextets strict r;
      Some ((w * 4 + x / 16) :: (x mod 16 * 16 + y / 4) :: (y mod 4 * 64 + z) :: r')
  | [w; x; y] =>
      if strict && negb (y mod 4 =? 0) then None else Some [w * 4 + x / 16; x mod 16 * 16 + y / 4]
  | [w; x] => if strict && negb (x mod 16 =? 0) then None else Some [w * 4 + x / 16]
  | [_] => None
  | [] => Some []
  end.

Definition encode (s : string) : string :=
  string_of_list_ascii (enc_char <$> enc_sextets (bytes s)).

(** The decoder skips carriage returns and line feeds, strict or not. *)
Definition is_newline (a : ascii) : bool := (byte_of a =? 10) || (byte_of a =? 13).

Definition decode_string (strict : bool) (s : string) : option string :=
  vs ← mapM dec_char (List.filter (fun a => negb (is_newline a)) (list_ascii_of_string s));
  of_bytes <$> dec_sextets strict vs.

Definition is_sextet (v : Z) : Prop := 0 <= v < 64.

Definition char_ok (v : Z) : Prop :=
  dec_char (enc_char v) = Some v /\ is_newline (enc_char v) = false /\
  enc_char v <> "."%char /\ enc_char v <> "$"%char.

Lemma dec_enc_char v : is_sextet v -> char_ok v.
Proof.
  unfold is_sextet. intros Hv.
  assert (forallb (fun n => bool_decide (char_ok (Z.of_nat n))) (seq 0 64) = true) as H
    by (unfold char_ok, dec_char, enc_char, alphabet; destruct url; by vm_compute).
  rewrite forallb_forall in H. specialize (H (Z.to_nat v)). rewrite Z2Nat.id in H by lia.
  apply bool_decide_eq_true in H; [done|]. apply in_seq. lia.
Qed.

(** Induction three elements at a time. *)
Lemma list_ind3 {A} (P : list A -> Prop) :
  P [] -> (forall a, P [a]) -> (forall a b, P [a; b]) ->
  (forall a b c l, P l -> P (a :: b :: c :: l)) -> forall l, P l.
Proof.
  intros H0 H1 H2 H3. fix IH 1. intros [|a [|b [|c l]]]; [apply H0 | apply H1 | apply H2 | apply H3, IH].
Qed.

Lemma enc_sextets_range l : Forall is_byte l -> Forall is_sextet (enc_sextets l).
Proof.
  unfold is_byte, is_sextet.
  induction l as [|a|a b|a b c l IH] using list_ind3; simpl; intros H; decompose_Forall;
    repeat constructor; try (apply IH; assumption); Z.to_euclidean_division_equations; lia.
Qed.

Lemma dec_enc_sextets strict l : Forall is_byte l -> dec_sextets strict (enc_sextets l) = Some l.
Proof.
  unfold is_byte.
  induction l as [|a|a b|a b c l IH] using list_ind3; simpl; intros H; [done | | |]; decompose_Forall.
  - rewrite Z.mod_mul by lia. simpl. rewrite andb_false_r. do 2 f_equal.
    Z.to_euclidean_division_equations; lia.
  - rewrite Z.mod_mul by lia. simpl. rewrite andb_false_r.
    f_equal. f_equal; [|f_equal]; Z.to_euclidean_division_equations; lia.
  - rewrite IH by done. simpl. f_equal.
    f_equal; [|f_equal; [|f_equal]]; Z.to_euclidean_division_equations; lia.
Qed.

Lemma mapM_dec_enc vs :
  Forall is_sextet vs ->
  mapM dec_char (List.filter (fun a => negb (is_newline a)) (enc_char <$> vs)) = Some vs.
Proof.
  induction 1 as [|v vs Hv _ IH]; [done|].
  destruct (dec_enc_char v Hv) as (Hd & Hn & _). rewrite fmap_cons. cbn [List.filter]. rewrite Hn.
  cbn [negb mapM]. rewrite Hd. cbn [mbind option_bind]. by rewrite IH.
Qed.

Lemma decode_encode strict s : decode_string strict (encode s) = Some s.
Proof.
  unfold decode_string, encode. rewrite list_ascii_of_string_of_list_ascii.
  pose proof (bytes_range s) as Hb.
  rewrite (mapM_dec_enc _ (enc_sextets_range _ Hb)). simpl.
  rewrite (dec_enc_sextets _ _ Hb). simpl. by rewrite of_bytes_bytes.
Qed.

Lemma encode_no_sep sep s : sep = "."%char \/ sep = "$"%char -> strs.contains_byte sep (encode s) = false.
Proof.
  intros Hsep. unfold encode. pose proof (enc_sextets_range _ (bytes_range s)) as H.
  induction H as [|v vs Hv _ IH]; csimpl; [done|].
  destruct (dec_enc_char v Hv) as (_ & _ & Hd & Hd').
  rewrite IH, (proj2 (Ascii.eqb_neq _ _)) by (by destruct Hsep as [-> | ->]). done.
Qed.

(** The length of an encoding: four characters for three bytes, rounded up. *)
Lemma encode_length s : len (encode s) = (4 * len s + 2) / 3.
Proof.
  unfold len, encode. rewrite length_string_of_list_ascii, length_fmap.
  assert (Z.of_nat (String.length s) = Z.of_nat (List.length (bytes s))) as ->.
  { unfold bytes. by rewrite length_fmap, <- length_string_of_list_ascii, string_of_list_ascii_of_string. }
  induction (bytes s) as [|a|a b|a b c l IH] using list_ind3; [done | done | done |].
  cbn [enc_sextets List.length] in *. rewrite !Nat2Z.inj_succ. rewrite IH.
  Z.to_euclidean_division_equations; lia.
Qed.
End alphabet.

(** [RawURLEncoding] and [RawStdEncoding]. *)
Definition EncodeToString : string -> string := encode true.
Definition DecodeString : string -> option string := decode_string true false.
Definition StrictDecodeString : string -> option string := decode_string true true.
Definition StdEncodeToString : string -> string := encode false.
Definition StdStrictDecodeString : string -> option string := decode_string false true.

Lemma Decode_Encode s : DecodeString (EncodeToString s) = Some s.
Proof. apply decode_encode. Qed.

Lemma Encode_no_dot s : strs.contains_byte "."%char (EncodeToString s) = false.
Proof. apply encode_no_sep. by left. Qed.
End base64.

(** ** [encoding/json] *)

(** [marshal] is [json.Marshal] on the type, [decode] one call of a decoder's
    [Decode] with unknown fields disallowed: the value and the input left. *)
Class Codec (A : Type) := {
  marshal : A -> string;
  decode : string -> option (A * string)
}.

(** Decoding what was marshalled gives the value back and leaves nothing, for
    the values JSON can carry: those whose strings are valid UTF-8. *)
Class CodecLaws (A : Type) `{Codec A} (carried : A -> Prop) : Prop :=
  decode_marshal : forall a, carried a -> decode (marshal a) = Some (a, ""%string).

Definition is_space (a : ascii) : bool :=
  let b := byte_of a in (b =? 32) || (b =? 9) || (b =? 10) || (b =? 13).

(** [d.Decode(new(any)) == io.EOF]: only white space is left. *)
Definition at_EOF (rest : string) : bool := forallb is_space (list_ascii_of_string rest).

(** The strict decoder the code writes as two calls: one value and nothing after it. *)
Definition decode_strict {A} `{Codec A} (s : string) : option A :=
  match decode s with
  | Some (a, rest) => if at_EOF rest then Some a else None
  | None => None
  end.

Lemma decode_strict_marshal {A} `{CodecLaws A carried} (a : A) :
  carried a -> decode_strict (marshal a) = Some a.
Proof. intros Ha. unfold decode_strict. by rewrite (decode_marshal a Ha). Qed.

(** ** [crypto/ed25519] *)

(** A private key is the seed followed by the public key. *)
Definition PrivateKeySize : Z := 64.
Definition PublicKeySize : Z := 32.
Definition PublicOf (key : string) : string := String.substring 32 32 key.

Class Ed25519 := {
  ed_sign : string -> string -> string;
  ed_verify : string -> string -> string -> bool;
  NewKeyFromSeed : string -> string
}.

Class Ed25519Laws `{Ed25519} : Prop :=
  ed_correct : forall key msg, len key = PrivateKeySize ->
    ed_verify (PublicOf key) msg (ed_sign key msg) = true.

Lemma PublicOf_len key : len key = PrivateKeySize -> len (PublicOf key) = PublicKeySize.
Proof.
  unfold len, PrivateKeySize, PublicKeySize, PublicOf. intros H.
  assert (forall n k s, (n + k <= String.length s)%nat -> String.length (String.substring n k s) = k) as Hs.
  { clear. intros n k s. revert n k.
    induction s as [|a s IH]; intros n k Hl; simpl in *; [by destruct n, k; simpl in *; lia|].
    destruct n as [|n]; [destruct k as [|k]; simpl; [done|]|].
    - f_equal. apply (IH 0%nat k). lia.
    - apply IH. lia. }
  rewrite Hs; lia.
Qed.

(** ** [crypto/sha256] and [encoding/hex] *)

Class Sha256 := sha256 : string -> string.

(** A digest has 32 bytes. *)
Class Sha256Laws `{Sha256} : Prop := sha256_length : forall s, len (sha256 s) = 32%Z.

Definition hex_digit (v : Z) : ascii := default "0"%char (String.get (Z.to_nat v) "0123456789abcdef").

Definition hex_EncodeToString (s : string) : string :=
  string_of_list_ascii (hex_digit <$> mjoin ((fun b => [b / 16; b mod 16]) <$> bytes s)).

Lemma hex_length s : len (hex_EncodeToString s) = 2 * len s.
Proof.
  unfold len, hex_EncodeToString, bytes. rewrite length_string_of_list_ascii, length_fmap, <- list_fmap_compose.
  rewrite <- (string_of_list_ascii_of_string s) at 2. rewrite length_string_of_list_ascii.
  induction (list_ascii_of_string s) as [|a l IH]; [done|]. csimpl. simpl List.length. lia.
Qed.

(** [crypto/hmac] over SHA-256: key and message. *)
Class HmacSha256 := hmac_sha256 : string -> string -> string.

(** The code of a MAC has 32 bytes. *)
Class HmacLaws `{HmacSha256} : Prop := hmac_length : forall key msg, len (hmac_sha256 key msg) = 32%Z.

(** ** AES-GCM: [aes.NewCipher] and [cipher.NewGCM] *)

Definition NonceSize : nat := 12.
Definition Overhead : nat := 16.

(** [gcm_seal] returns the ciphertext with its tag, without the nonce. *)
Class AEAD := {
  gcm_seal : string -> string -> string -> string -> string;
  gcm_open : string -> string -> string -> string -> option string
}.

Class AEADLaws `{AEAD} : Prop := {
  gcm_roundtrip : forall key nonce plain aad,
    gcm_open key nonce (gcm_seal key nonce plain aad) aad = Some plain;
  gcm_length : forall key nonce plain aad,
    String.length (gcm_seal key nonce plain aad) = (String.length plain + Overhead)%nat
}.

(** [aes.NewCipher] accepts keys of 16, 24 or 32 bytes. *)
Definition aes_key (key : string) : bool := (len key =? 16) || (len key =? 24) || (len key =? 32).

Lemma str_app_assoc (a b c : string) : (a +:+ b) +:+ c = a +:+ (b +:+ c).
Proof.
  induction a as [|x a IH]; [done|].
  change (String x ((a +:+ b) +:+ c) = String x (a +:+ (b +:+ c))). by rewrite IH.
Qed.

Lemma str_length_app (a b : string) : String.length (a +:+ b) = (String.length a + String.length b)%nat.
Proof. induction a as [|x a IH]; [done|]. change (S (String.length (a +:+ b)) = S (String.length a + String.length b)). by rewrite IH. Qed.

Lemma str_app_nil_r (s : string) : s +:+ "" = s.
Proof. induction s as [|a s IH]; [done|]. change (String a (s +:+ "") = String a s). by rewrite IH. Qed.
Lemma contains_app c s t : strs.contains_byte c (s +:+ t) = strs.contains_byte c s || strs.contains_byte c t.
Proof. induction s as [|a s IH]; [done|]. change (strs.contains_byte c (String a (s +:+ t)) =
     strs.contains_byte c (String a s) || strs.contains_byte c t). cbn. by rewrite IH, orb_assoc. Qed.

(** The first bytes of a string and the rest: [s[:n]] and [s[n:]]. *)
Fixpoint str_take (n : nat) (s : string) : string :=
  match n, s with S n', String a s' => String a (str_take n' s') | _, _ => EmptyString end.
Fixpoint str_drop (n : nat) (s : string) : string :=
  match n, s with S n', String _ s' => str_drop n' s' | O, _ => s | _, EmptyString => EmptyString end.

Lemma str_take_app a b : str_take (String.length a) (a +:+ b) = a.
Proof.
  induction a as [|x a IH]; [by destruct b|].
  change (String x (str_take (String.length a) (a +:+ b)) = String x a). by rewrite IH.
Qed.

Lemma str_drop_app a b : str_drop (String.length a) (a +:+ b) = b.
Proof. induction a as [|x a IH]; [by destruct b | exact IH]. Qed.

Lemma str_take_all n s : (String.length s <= n)%nat -> str_take n s = s.
Proof. revert n. induction s as [|a s IH]; intros [|n] Hn; cbn in *; [done | done | lia |]. by rewrite IH by lia. Qed.

(** ** [unicode/utf8] and [unicode] *)

Module utf8.

(** A continuation byte. *)
Definition cont (b : Z) : bool := (128 <=? b) && (b <=? 191).

(** One rune of a valid encoding and the bytes left: shortest forms only, no
    surrogates, at most U+10FFFF. *)
Definition decode_rune (l : list Z) : option (Z * list Z) :=
  match l with
  | [] => None
  | b0 :: r0 =>
      if b0 <? 128 then Some (b0, r0) else
      match r0 with
      | [] => None
      | b1 :: r1 =>
          if negb (cont b1) then None else
          if (194 <=? b0) && (b0 <=? 223) then Some ((b0 - 192) * 64 + (b1 - 128), r1) else
          match r1 with
          | [] => None
          | b2 :: r2 =>
              if negb (cont b2) then None else
              if (224 <=? b0) && (b0 <=? 239) then
                let c := (b0 - 224) * 4096 + (b1 - 128) * 64 + (b2 - 128) in
                if (c <? 2048) || ((55296 <=? c) && (c <=? 57343)) then None else Some (c, r2)
              else
              match r2 with
              | [] => None
              | b3 :: r3 =>
                  if negb (cont b3) then None else
                  if (240 <=? b0) && (b0 <=? 244) then
                    let c := (b0 - 240) * 262144 + (b1 - 128) * 4096 + (b2 - 128) * 64 + (b3 - 128) in
                    if (c <? 65536) || (1114111 <? c) then None else Some (c, r3)
                  else None
              end
          end
      end
  end.

Fixpoint runes_fuel (fuel : nat) (l : list Z) : option (list Z) :=
  match fuel, l with
  | _, [] => Some []
  | O, _ => None
  | S n, _ => '(c, r) ← decode_rune l; cs ← runes_fuel n r; Some (c :: cs)
  end.

(** The runes of a valid UTF-8 string; [None] is [!utf8.ValidString(s)]. A rune
    takes at least one byte, so the length is enough fuel. *)
Definition runes (s : string) : option (list Z) := runes_fuel (String.length s) (bytes s).

(** [unicode.IsControl] and [unicode.IsSpace]. *)
Definition IsControl (c : Z) : bool := (c <=? 31) || ((127 <=? c) && (c <=? 159)).
Definition IsSpace (c : Z) : bool :=
  ((9 <=? c) && (c <=? 13)) || (c =? 32) || (c =? 133) || (c =? 160) || (c =? 5760) ||
  ((8192 <=? c) && (c <=? 8202)) || (c =? 8232) || (c =? 8233) || (c =? 8239) || (c =? 8287) || (c =? 12288).
End utf8.
