(* ===== verification/Admission.v ===== *)
(** * Admission tokens: [src/internal/admission/token.go]

    Module [admission] translates [Claims], [Sign] and [Verify]. The JSON wire
    format of the claims and Ed25519 are the interfaces [Codec] and [Ed25519];
    base64, the token syntax and every check of [Verify] are modelled. Times
    are in nanoseconds as in Go's [time.Duration], claims in seconds. *)

From S2P Require Import Prelude GoStd.
From stdpp Require Import base list strings.
From Stdlib Require Import ZArith Lia Ascii String.

Module admission.
Local Open Scope Z_scope.

Inductive error := ErrInvalid.

Record Claims := mkClaims {
  Kid : string; Room : string; Epoch : Z; JTI : string;
  Issued : Z; NotBefore : Z; Expires : Z; Audience : string
}.

#[global] Instance Claims_eq_dec : EqDecision Claims.
Proof. solve_decision. Defined.

Definition Second : Z := 1000000000.

(** [time.Time.Unix] of an instant in nanoseconds. *)
Definition Unix (now : Z) : Z := now / Second.

Section token.
Context `{Codec Claims} `{Ed25519}.

Definition Sign (key : string) (c : Claims) : result error string :=
  if negb (len key =? PrivateKeySize) then Err ErrInvalid else
  let payload := base64.EncodeToString (marshal c) in
  let signature := ed_sign key payload in
  Ok (payload +:+ "." +:+ base64.EncodeToString signature).

(** The final test of [Verify]: the claims bind this key, room, audience and
    epoch, and the instant [n], in seconds, is within [skew] of their window. *)
Definition acceptable (c : Claims) (kid room aud : string) (epoch n skew : Z) : bool :=
  negb (negb (String.eqb (Kid c) kid) || negb (String.eqb (Room c) room) ||
        negb (String.eqb (Audience c) aud) || negb (Epoch c =? epoch) || String.eqb (JTI c) "" ||
        negb (NotBefore c =? Issued c) || (Expires c <=? Issued c) ||
        (3600 <? i64 (Expires c - Issued c)) || (i64 (n + skew) <? NotBefore c) ||
        (i64 (Expires c + skew) <=? n)).

Definition Verify (key token kid room aud : string) (epoch now leeway : Z) : result error Claims :=
  if negb (len key =? PublicKeySize) || (2048 <? len token) || (leeway <? 0) || (30 * Second <? leeway)
  then Err ErrInvalid else
  match strs.split_byte "." token with
  | [p0; p1] =>
      match base64.DecodeString p1 with
      | None => Err ErrInvalid
      | Some sig =>
          if negb (ed_verify key p0 sig) then Err ErrInvalid else
          match base64.DecodeString p0 with
          | None => Err ErrInvalid
          | Some raw =>
              match decode_strict raw with
              | None => Err ErrInvalid
              | Some c =>
                  if acceptable c kid room aud epoch (Unix now) (leeway ÷ Second)
                  then Ok c else Err ErrInvalid
              end
          end
      end
  | _ => Err ErrInvalid
  end.

(** ** Lemmas *)

(** What an accepted token was, read from its syntax. *)
Lemma Verify_inv key token kid room aud epoch now leeway c :
  Verify key token kid room aud epoch now leeway = Ok c ->
  exists p0 p1 sig raw,
    strs.split_byte "." token = [p0; p1] /\ base64.DecodeString p1 = Some sig /\
    ed_verify key p0 sig = true /\ base64.DecodeString p0 = Some raw /\ decode_strict raw = Some c /\
    acceptable c kid room aud epoch (Unix now) (leeway ÷ Second) = true /\ 0 <= leeway <= 30 * Second.
Proof.
  unfold Verify. destruct (_ || _) eqn:E; [done|]. to_prop.
  destruct (strs.split_byte "." token) as [|p0 [|p1 [|? ?]]]; try done.
  destruct (base64.DecodeString p1) as [sig|] eqn:E1; [|done].
  destruct (ed_verify key p0 sig) eqn:E2; [|done]. simpl.
  destruct (base64.DecodeString p0) as [raw|] eqn:E3; [|done].
  destruct (decode_strict raw) as [c'|] eqn:E4; [|done].
  destruct (acceptable c' kid room aud epoch (Unix now) (leeway ÷ Second)) eqn:E5; [|done].
  intros [= ->]. exists p0, p1, sig, raw. split_and!; done.
Qed.

(** The window of an acceptable token, for instants and claims of our age. *)
Lemma acceptable_window c kid room aud epoch n skew :
  acceptable c kid room aud epoch n skew = true -> 0 <= n <= 4611686018427387904 -> 0 <= skew <= 30 ->
  in_i64 (Expires c) -> 0 <= Issued c ->
  Kid c = kid /\ Room c = room /\ Audience c = aud /\ Epoch c = epoch /\ JTI c <> "" /\
  Issued c - skew <= n < Expires c + skew /\ 0 < Expires c - Issued c <= 3600.
Proof.
  unfold acceptable, in_i64. intros Ha Hn Hs He Hi. to_prop.
  rewrite (i64_id (n + skew)) in * by (unfold in_i64; lia).
  rewrite (i64_id (Expires c - Issued c)) in * by (unfold in_i64; lia).
  assert (i64 (Expires c + skew) <= Expires c + skew) as Hw.
  { unfold i64. destruct (Z.leb_spec (Expires c + skew) 9223372036854775807) as [L|G].
    - rewrite Z.mod_small; lia.
    - replace (Expires c + skew + 9223372036854775808)
        with ((Expires c + skew - 9223372036854775808) + 1 * 18446744073709551616) by lia.
      rewrite Z.mod_add, Z.mod_small by lia. lia. }
  split_and!; try done; lia.
Qed.
End token.

(** ** Properties *)

(** [Verify] of a signed token is the test of its claims. *)
Lemma Verify_Sign `{Codec Claims} (carried : Claims -> Prop) `{!CodecLaws Claims carried}
    `{Ed25519} `{!Ed25519Laws} key c tok kid room aud epoch now leeway :
  Sign key c = Ok tok -> carried c -> len tok <= 2048 -> 0 <= leeway <= 30 * Second ->
  Verify (PublicOf key) tok kid room aud epoch now leeway =
    if acceptable c kid room aud epoch (Unix now) (leeway ÷ Second) then Ok c else Err ErrInvalid.
Proof.
  intros HS Hc Hl Hw. unfold Sign in HS. destruct (len key =? PrivateKeySize) eqn:Hk; [|done].
  simpl in HS. apply Z.eqb_eq in Hk. injection HS as <-. unfold Verify.
  rewrite (PublicOf_len key Hk), (proj2 (Z.ltb_ge _ _) Hl).
  rewrite (proj2 (Z.ltb_ge leeway 0) ltac:(lia)), (proj2 (Z.ltb_ge (30 * Second) leeway) ltac:(lia)).
  simpl negb. simpl orb. cbv iota.
  rewrite (strs.split_join "."%char) by apply base64.Encode_no_dot.
  rewrite base64.Decode_Encode, (ed_correct key _ Hk), base64.Decode_Encode. simpl negb. cbv iota.
  by rewrite (decode_strict_marshal c Hc).
Qed.

(** [Verify] accepts only what the key signed. Whatever the token, if it
    is accepted then it splits into a payload and a signature of that payload
    that the key verifies, the payload decodes to the claims returned, they
    name the key, room, audience and epoch asked for, live at most an hour,
    and the verifier's clock is at most the leeway before [nbf] or after
    [exp]. *)
Lemma verify_sound `{Codec Claims} `{Ed25519} key token kid room aud epoch now leeway c :
  Verify key token kid room aud epoch now leeway = Ok c ->
  0 <= now <= 4611686018427387904 -> in_i64 (Expires c) -> 0 <= Issued c ->
  (exists p0 p1 sig raw, strs.split_byte "." token = [p0; p1] /\ base64.DecodeString p1 = Some sig /\
     ed_verify key p0 sig = true /\ base64.DecodeString p0 = Some raw /\ decode_strict raw = Some c) /\
  Kid c = kid /\ Room c = room /\ Audience c = aud /\ Epoch c = epoch /\ JTI c <> "" /\
  (Issued c - 30) * Second <= now < (Expires c + 30) * Second /\ 0 < Expires c - Issued c <= 3600.
Proof.
  intros HV Hn He Hi.
  destruct (Verify_inv _ _ _ _ _ _ _ _ _ HV) as (p0 & p1 & sig & raw & H1 & H2 & H3 & H4 & H5 & Ha & Hl).
  unfold Unix, Second in *.
  assert (0 <= leeway ÷ 1000000000 <= 30) as Hs
    by (Z.to_euclidean_division_equations; lia).
  assert (0 <= now / 1000000000 <= 4611686018427387904) as Hn'
    by (Z.to_euclidean_division_equations; lia).
  destruct (acceptable_window _ _ _ _ _ _ _ Ha Hn' Hs He Hi) as (? & ? & ? & ? & ? & Hwin & ?).
  pose proof (Z.mul_div_le now 1000000000 ltac:(lia)).
  pose proof (Z.mul_succ_div_gt now 1000000000 ltac:(lia)).
  split; [by exists p0, p1, sig, raw|]. split_and!; try done; lia.
Qed.

(** ** A concrete wire format and signature for the witnesses *)

Definition wit_claims : Claims := mkClaims "k1" "room" 1 "jti" 1000 1000 1900 "aud".

Definition wit_codec : Codec Claims :=
  {| marshal c := if decide (c = wit_claims) then "1" else "0";
     decode s := if String.eqb s "1" then Some (wit_claims, "") else None |}.

Definition wit_ed : Ed25519 :=
  {| ed_sign key msg := PublicOf key +:+ msg;
     ed_verify key msg sig := String.eqb sig (key +:+ msg);
     NewKeyFromSeed seed := seed +:+ seed |}.

Definition wit_key : string := "0123456789abcdef0123456789abcdefFEDCBA9876543210FEDCBA9876543210".

End admission.
