(* ===== verification/Keyring.v ===== *)
(** * Deployment keys: [src/internal/keyring/keyring.go] and [aead.go]

    Module [keyring] translates the role-scoped key sets: their validation, the
    projection to a role, the digest, key selection and authenticated sealing
    with a key identifier. A nil pointer is [None], a nil byte slice the empty
    string. *)

From S2P Require Import Prelude GoStd.
From stdpp Require Import base list strings.
From Stdlib Require Import ZArith Lia Ascii String.

Module keyring.
Local Open Scope Z_scope.

Inductive error := ErrInvalid.

(** [24*time.Hour + 30*time.Second], in milliseconds. *)
Definition Overlap : Z := 86430000.

Record Key := mkKey {
  ID : string; Since : Z; ConfigPublic : string; AdmissionPublic : string;
  ConfigPrivate : string; AdmissionPrivate : string; Replay : string; Return_ : string
}.

Definition Key_zero : Key := mkKey "" 0 "" "" "" "" "" "".

Record KeySet := mkSet {
  Generation : Z; Phase : string; Current : Key; Previous : option Key; Next : option Key
}.

Definition ConfigKid (k : Key) : string := "config-" +:+ ID k.
Definition AdmissionKid (k : Key) : string := "admission-" +:+ ID k.
Definition ReturnKid (k : Key) : string := "return-" +:+ ID k.

Definition Keys (s : KeySet) : list Key :=
  [Current s] ++ option_list (Previous s) ++ option_list (Next s).

(** [^(v1|[a-f0-9]{32})$]. *)
Definition is_hex (a : ascii) : bool :=
  let b := byte_of a in ((97 <=? b) && (b <=? 102)) || ((48 <=? b) && (b <=? 57)).
Definition idPattern (s : string) : bool :=
  String.eqb s "v1" || ((len s =? 32) && forallb is_hex (list_ascii_of_string s)).

Definition zero32 : string := string_of_list_ascii (replicate 32 (ascii_of 0)).

Section keys.
Context `{Ed25519}.

(** The two loops of [Validate] over the secrets of a key. *)
Definition pair_ok (want : bool) (data pub : string) : bool :=
  if want then
    (len data =? 64) && String.eqb (PublicOf data) pub && String.eqb (NewKeyFromSeed (str_take 32 data)) data
  else len data =? 0.

Definition secret_ok (want : bool) (data : string) : bool :=
  if want then (len data =? 32) && negb (String.eqb data zero32) else len data =? 0.

Arguments pair_ok : simpl never.
Arguments secret_ok : simpl never.

Definition is_role (a b role : string) : bool := String.eqb role a || String.eqb role b.

Definition key_ok (role : string) (k : Key) : bool :=
  idPattern (ID k) && negb (Since k <? 0) && negb (9007199254740990 <=? Since k) &&
  (len (ConfigPublic k) =? 32) && (len (AdmissionPublic k) =? 32) &&
  pair_ok (is_role "control" "owner" role) (ConfigPrivate k) (ConfigPublic k) &&
  pair_ok (is_role "coordinator" "owner" role) (AdmissionPrivate k) (AdmissionPublic k) &&
  secret_ok (is_role "coordinator" "owner" role) (Replay k) &&
  secret_ok (is_role "gateway" "owner" role) (Return_ k).

(** The loop over [s.Keys()] with its map [seen]. *)
Fixpoint keys_ok (role : string) (seen : list string) (ks : list Key) : bool :=
  match ks with
  | [] => true
  | k :: ks' => key_ok role k && negb (bool_decide (ID k ∈ seen)) && keys_ok role (ID k :: seen) ks'
  end.

Definition is_some {A} (o : option A) : bool := match o with Some _ => true | None => false end.

Definition known_role (role : string) : bool :=
  String.eqb role "owner" || String.eqb role "control" || String.eqb role "coordinator" || String.eqb role "gateway".

(** The lifecycle fields: generation, phase and the keys the phase has. *)
Definition header_ok (s : KeySet) : bool :=
  negb ((Generation s <? 1) || (9007199254740990 <=? Generation s) ||
        negb (String.eqb (Phase s) "stable" || String.eqb (Phase s) "staged" || String.eqb (Phase s) "active") ||
        negb (Bool.eqb (String.eqb (Phase s) "staged") (is_some (Next s))) ||
        negb (Bool.eqb (String.eqb (Phase s) "active") (is_some (Previous s)))).

(** The current key replaced the previous one later than it. *)
Definition order_ok (s : KeySet) : bool :=
  match Previous s with
  | Some p => negb ((Since (Current s) <=? Since p) || (Since (Current s) =? 0))
  | None => true
  end.

Definition Validate (s : KeySet) (role : string) : result error unit :=
  if negb (header_ok s) then Err ErrInvalid
  else if negb (keys_ok role [] (Keys s)) then Err ErrInvalid
  else if negb (order_ok s) then Err ErrInvalid
  else if negb (known_role role) then Err ErrInvalid else Ok tt.
End keys.

(** [ForRole] drops the secrets other roles own. *)
Definition sanitize (role : string) (k : Key) : Key :=
  let control := String.eqb role "control" in
  let coordinator := String.eqb role "coordinator" in
  let gateway := String.eqb role "gateway" in
  mkKey (ID k) (Since k) (ConfigPublic k) (AdmissionPublic k)
    (if control then ConfigPrivate k else "") (if coordinator then AdmissionPrivate k else "")
    (if coordinator then Replay k else "") (if gateway then Return_ k else "").

Definition ForRole (s : KeySet) (role : string) : KeySet :=
  mkSet (Generation s) (Phase s) (sanitize role (Current s))
    (sanitize role <$> Previous s) (sanitize role <$> Next s).

Definition Digest `{Codec KeySet} `{Sha256} (s : KeySet) : string :=
  hex_EncodeToString (sha256 (marshal (ForRole s ""))).

(** [ConfigTrust]: the trusted configuration keys by identifier. *)
Definition ConfigTrust (s : KeySet) : list (string * string) :=
  (fun k => (ConfigKid k, ConfigPublic k)) <$> Keys s.

(** The key that signs the admission of a ticket promoted at [promoted]. *)
Definition AdmissionAt (s : KeySet) (promoted : Z) : Key :=
  match Previous s with
  | Some p => if promoted <? Since (Current s) then p else Current s
  | None => Current s
  end.

Definition Find (s : KeySet) (id : string) : option Key :=
  List.find (fun k => String.eqb (ID k) id) (Keys s).

Section sealing.
Context `{AEAD}.

(** [purpose] selects the secret; an unknown purpose is refused. *)
Definition secret_for (k : Key) (purpose : string) : option string :=
  if String.eqb purpose "return" || String.eqb purpose "browser-join" then Some (Return_ k)
  else if negb (String.eqb purpose "replay") then None else Some (Replay k).

Definition bound_aad (purpose id aad : string) : string :=
  "wr-" +:+ purpose +:+ "/v2/" +:+ id +:+ "/" +:+ aad.

(** [Seal], with the random nonce as an argument. *)
Definition Seal (k : Key) (purpose plain aad nonce : string) : result error string :=
  match secret_for k purpose with
  | None => Err ErrInvalid
  | Some key =>
      if negb (aes_key key) then Err ErrInvalid else
      Ok (ID k +:+ "." +:+
          base64.EncodeToString (nonce +:+ gcm_seal key nonce plain (bound_aad purpose (ID k) aad)))
  end.

Definition Open (s : KeySet) (purpose sealed aad legacyAAD : string) : result error string :=
  if 8192 <? len sealed then Err ErrInvalid else
  let '(id, encoded, versioned) :=
    match strs.cut_byte "." sealed with Some (a, b) => (a, b, true) | None => ("v1", sealed, false) end in
  match Find s id with
  | None => Err ErrInvalid
  | Some k =>
      match secret_for k purpose with
      | None => Err ErrInvalid
      | Some key =>
          if negb (aes_key key) then Err ErrInvalid else
          match base64.DecodeString encoded with
          | None => Err ErrInvalid
          | Some data =>
              if len data <? Z.of_nat (NonceSize + Overhead) then Err ErrInvalid else
              let bound := if versioned then bound_aad purpose id aad else legacyAAD in
              match gcm_open key (str_take NonceSize data) (str_drop NonceSize data) bound with
              | None => Err ErrInvalid
              | Some plain => Ok plain
              end
          end
      end
  end.
End sealing.

(** ** Lemmas *)

Section lemmas.
Context `{Ed25519}.

Lemma Validate_ok s role :
  Validate s role = Ok tt <->
  header_ok s = true /\ keys_ok role [] (Keys s) = true /\ order_ok s = true /\ known_role role = true.
Proof.
  unfold Validate.
  destruct (header_ok s), (keys_ok role [] (Keys s)), (order_ok s), (known_role role); simpl; naive_solver.
Qed.

Definition service_role (role : string) : Prop :=
  role = "control" \/ role = "coordinator" \/ role = "gateway".

(** The projection of a key the owner may hold is one the role may hold. *)
Lemma key_ok_sanitize role k :
  service_role role -> key_ok "owner" k = true -> key_ok role (sanitize role k) = true.
Proof.
  intros Hr Hk. unfold key_ok in *. simpl in Hk.
  repeat match goal with H : (_ && _)%bool = true |- _ => apply andb_true_iff in H as [? ?] end.
  destruct Hr as [-> | [-> | ->]]; simpl; repeat (apply andb_true_iff; split); done.
Qed.

Lemma keys_ok_sanitize role seen ks :
  service_role role -> keys_ok "owner" seen ks = true -> keys_ok role seen (sanitize role <$> ks) = true.
Proof.
  intros Hr. revert seen. induction ks as [|k ks IH]; intros seen Hk; [done|].
  cbn [keys_ok] in Hk. apply andb_true_iff in Hk as [Hk Hks]. apply andb_true_iff in Hk as [Hk Hn].
  rewrite fmap_cons. cbn [keys_ok].
  rewrite (key_ok_sanitize role k Hr Hk). simpl. rewrite Hn. by apply IH.
Qed.

Lemma Keys_ForRole s role : Keys (ForRole s role) = sanitize role <$> Keys s.
Proof. unfold Keys, ForRole. destruct (Previous s), (Next s); reflexivity. Qed.

Lemma header_ForRole s role : header_ok (ForRole s role) = header_ok s.
Proof. unfold header_ok, ForRole. simpl. by destruct (Previous s), (Next s). Qed.

Lemma order_ForRole s role : order_ok (ForRole s role) = order_ok s.
Proof. unfold order_ok, ForRole. simpl. by destruct (Previous s). Qed.

Lemma ForRole_twice s r : ForRole (ForRole s r) "" = ForRole s "".
Proof. unfold ForRole. simpl. destruct (Previous s), (Next s); reflexivity. Qed.

Lemma Validate_ForRole s role :
  service_role role -> Validate s "owner" = Ok tt -> Validate (ForRole s role) role = Ok tt.
Proof.
  rewrite !Validate_ok, header_ForRole, order_ForRole, Keys_ForRole.
  intros Hr (H1 & H2 & H3 & _). split_and!; [done | by apply keys_ok_sanitize | done |].
  destruct Hr as [-> | [-> | ->]]; reflexivity.
Qed.

Lemma idPattern_no_dot s : idPattern s = true -> strs.contains_byte "." s = false.
Proof.
  unfold idPattern. intros H0. apply orb_true_iff in H0 as [E|E]; [apply String.eqb_eq in E as ->; done|].
  apply andb_true_iff in E as [_ E]. clear H. induction s as [|a s IH]; [done|]. simpl in *.
  apply andb_true_iff in E as [Ha E]. rewrite (IH E). destruct (Ascii.eqb_spec a ".") as [->|]; [done|done].
Qed.

Lemma keys_ok_key role seen ks k : keys_ok role seen ks = true -> k ∈ ks -> key_ok role k = true.
Proof.
  revert seen. induction ks as [|k' ks IH]; intros seen Hk Hin; [by apply elem_of_nil in Hin|].
  cbn [keys_ok] in Hk. apply andb_true_iff in Hk as [Hk Hks]. apply andb_true_iff in Hk as [Hk _].
  apply elem_of_cons in Hin as [-> | Hin]; [done | by eapply IH].
Qed.

Lemma keys_ok_seen role seen ks k : keys_ok role seen ks = true -> k ∈ ks -> ID k ∉ seen.
Proof.
  revert seen. induction ks as [|k' ks IH]; intros seen Hk Hin; [by apply elem_of_nil in Hin|].
  cbn [keys_ok] in Hk. apply andb_true_iff in Hk as [Hk Hks]. apply andb_true_iff in Hk as [_ Hn]. to_prop.
  apply elem_of_cons in Hin as [-> | Hin]; [done|].
  pose proof (IH _ Hks Hin) as Hx. intros He. apply Hx. by right.
Qed.

(** Identifiers are distinct, so a key of the set is the one found by its identifier. *)
Lemma find_key role seen ks k :
  keys_ok role seen ks = true -> k ∈ ks -> List.find (fun k' => String.eqb (ID k') (ID k)) ks = Some k.
Proof.
  revert seen. induction ks as [|k' ks IH]; intros seen Hk Hin; [by apply elem_of_nil in Hin|].
  cbn [keys_ok] in Hk. apply andb_true_iff in Hk as [Hk Hks]. cbn [List.find].
  apply elem_of_cons in Hin as [-> | Hin]; [by rewrite String.eqb_refl|].
  pose proof (keys_ok_seen _ _ _ _ Hks Hin) as Hx.
  destruct (String.eqb_spec (ID k') (ID k)) as [E|]; [|by eapply IH].
  exfalso. apply Hx. rewrite E. left.
Qed.
End lemmas.

(** ** Properties *)

(** Role separation. From a key set the deployment owner may hold, the
    projection to a service role is a set that role accepts, has the digest
    of the whole set, so every role acknowledges the same keys, and carries
    none of the private material of the other roles. *)
Lemma role_projection `{Ed25519} `{Codec KeySet} `{Sha256} s role :
  service_role role -> Validate s "owner" = Ok tt ->
  Validate (ForRole s role) role = Ok tt /\ Digest (ForRole s role) = Digest s /\
  Forall (fun k => (role <> "control" -> ConfigPrivate k = "") /\
                   (role <> "coordinator" -> AdmissionPrivate k = "" /\ Replay k = "") /\
                   (role <> "gateway" -> Return_ k = "")) (Keys (ForRole s role)).
Proof.
  intros Hr Hv. split_and!; [by apply Validate_ForRole | unfold Digest; by rewrite ForRole_twice |].
  rewrite Keys_ForRole. apply Forall_fmap, Forall_true. intros k. simpl.
  destruct Hr as [-> | [-> | ->]]; simpl; naive_solver.
Qed.

(** A sealed text opens under every valid set that holds its key. *)
Lemma Open_Seal `{Ed25519} `{AEAD} `{!AEADLaws} s role k purpose plain aad legacy nonce sealed :
  Validate s role = Ok tt -> k ∈ Keys s -> Seal k purpose plain aad nonce = Ok sealed ->
  String.length nonce = NonceSize -> len sealed <= 8192 ->
  Open s purpose sealed aad legacy = Ok plain.
Proof.
  intros Hv Hk Hs Hn Hl. apply Validate_ok in Hv as (_ & Hks & _ & _). unfold Seal in Hs.
  destruct (secret_for k purpose) as [key|] eqn:Ek; [|done].
  destruct (aes_key key) eqn:Ea; [|done]. injection Hs as <-. unfold Open.
  rewrite (proj2 (Z.ltb_ge _ _) Hl), (strs.cut_join "."%char).
  - unfold Find. rewrite (find_key role [] _ k Hks Hk), Ek, Ea, base64.Decode_Encode. simpl negb. cbv iota.
    unfold len. rewrite str_length_app, gcm_length, Hn.
    rewrite (proj2 (Z.ltb_ge _ _)) by lia.
    rewrite <- Hn at 1 2. by rewrite str_take_app, str_drop_app, gcm_roundtrip.
  - apply idPattern_no_dot. pose proof (keys_ok_key _ _ _ _ Hks Hk) as Hok.
    unfold key_ok in Hok. by to_prop.
Qed.

(** What one replica seals every replica with the key set opens: for each
    key of a valid set and each purpose, [Open] of a sealed text returns the
    text, whichever key of the set sealed it, so rotation does not strand
    sealed data while the key is in the set. *)
Lemma seal_open `{Ed25519} `{AEAD} `{!AEADLaws} s role k purpose plain aad legacy nonce sealed :
  Validate s role = Ok tt -> k ∈ Keys s -> Seal k purpose plain aad nonce = Ok sealed ->
  String.length nonce = NonceSize -> len sealed <= 8192 ->
  Open s purpose sealed aad legacy = Ok plain.
Proof. apply Open_Seal. Qed.

(** ** Concrete keys for the witnesses *)

Definition wit_ed : Ed25519 :=
  {| ed_sign key msg := PublicOf key +:+ msg;
     ed_verify key msg sig := String.eqb sig (key +:+ msg);
     NewKeyFromSeed seed := seed +:+ seed |}.
Definition wit_aead : AEAD :=
  {| gcm_seal key nonce plain aad := plain +:+ "0123456789abcdef";
     gcm_open key nonce data aad := Some (str_take (String.length data - 16) data) |}.
Definition wit_codec : Codec KeySet := {| marshal s := Phase s; decode s := None |}.
Definition wit_sha : Sha256 := fun s => s.

Lemma wit_aead_laws : @AEADLaws wit_aead.
Proof.
  constructor; intros key nonce plain aad; simpl.
  - rewrite str_length_app. simpl. rewrite Nat.add_sub. by rewrite str_take_app.
  - by rewrite str_length_app.
Qed.

Definition wit_seed (a : ascii) : string := string_of_list_ascii (replicate 32 a).
Definition wit_key (id : string) (since : Z) (a : ascii) : Key :=
  mkKey id since (wit_seed a) (wit_seed a) (wit_seed a +:+ wit_seed a) (wit_seed a +:+ wit_seed a)
    (wit_seed a) (wit_seed a).
Definition wit_id : string := wit_seed "e".

Definition wit_set : KeySet := mkSet 2 "active" (wit_key wit_id 5000 "x") (Some (wit_key "v1" 0 "y")) None.

End keyring.
