(* ===== verification/Rotation.v ===== *)
(** * Key rotation: [src/internal/localcontrol/rotation.go]

    Module [localcontrol] translates the owner's key rotation: the phase
    machine over the journal [rotation.json], the distribution of the role key
    sets to the identity files and the operation record in the database. Files
    hold the values their JSON carries. A call may be interrupted after any
    number of completed file writes; the database transaction is then rolled
    back. X.509 verification is a parameter. *)

From S2P Require Import Prelude GoStd Keyring.
From stdpp Require Import base list strings sets.
From Stdlib Require Import ZArith Lia Ascii String.

Module localcontrol.
Import keyring.
Local Open Scope Z_scope.

Inductive error :=
  | ErrKeyring | ErrNotExist | ErrStageFirst | ErrJournal | ErrRetireFirst | ErrAcks
  | ErrClockRollback | ErrEmergency | ErrOverlap | ErrIdentity | ErrInterrupted.

Record State := mkState { Vault : string; Fingerprint : string }.

Record rotationDisk := mkDisk { dBinding : string; dKeys : KeySet; dBefore : string }.

(** The role-scoped identity file. *)
Record NodeIdentity := mkIdentity {
  nKeys : option KeySet; nSourceKey : string; nVersion : Z; nInstallation : string; nBinding : string;
  nNode : string; nCA : string; nCertificate : string; nPrivateKey : string;
  nConfigPublic : string; nAdmissionPublic : string; nConfigPrivate : string; nAdmissionPrivate : string;
  nReplayKey : string; nReturnKey : string; nService : string; nValkeyPassword : string
}.

(** A row of [control_key_acks] joined with the node and the delivery. *)
Record ack := mkAck { aGeneration : Z; aDigest : string; aObserved : Z; aCurrent : bool }.

Record operation_row := mkOperation { oGeneration : Z; oPhase : string; oDigest : string }.
Record audit_row := mkAudit { uAction : string; uBefore : string; uAfter : string; uRevision : Z }.

(** The installation: the journal, the identity files and the database tables. *)
Record World := mkWorld {
  wBinding : string;                       (* install_identity.key_binding *)
  wJournal : option rotationDisk;
  wControl : NodeIdentity; wGateway : NodeIdentity; wCoordinator : NodeIdentity;
  wAcks : list ack; wOperations : list operation_row; wAudit : list audit_row
}.

Inductive role := Control | Gateway | Coordinator.
#[global] Instance role_eq_dec : EqDecision role.
Proof. solve_decision. Defined.

Definition role_name (r : role) : string :=
  match r with Control => "control" | Gateway => "gateway" | Coordinator => "coordinator" end.
Definition roles : list role := [Control; Gateway; Coordinator].

Definition identity_of (w : World) (r : role) : NodeIdentity :=
  match r with Control => wControl w | Gateway => wGateway w | Coordinator => wCoordinator w end.
Definition set_identity (w : World) (r : role) (n : NodeIdentity) : World :=
  mkWorld (wBinding w) (wJournal w)
    (match r with Control => n | _ => wControl w end)
    (match r with Gateway => n | _ => wGateway w end)
    (match r with Coordinator => n | _ => wCoordinator w end)
    (wAcks w) (wOperations w) (wAudit w).
Definition set_journal (w : World) (d : rotationDisk) : World :=
  mkWorld (wBinding w) (Some d) (wControl w) (wGateway w) (wCoordinator w)
    (wAcks w) (wOperations w) (wAudit w).

Section rotation.
Context `{Ed25519} `{Codec KeySet} `{Sha256} `{HmacSha256}.

(** [NodeIdentity.TLS]: the certificate chain verifies; X.509 is not modelled. *)
Context (tls_ok : string -> string -> string -> string -> bool).

Definition Binding (s : State) : string := hex_EncodeToString (sha256 (Vault s +:+ Fingerprint s)).

Definition derive (s : State) (label : string) : string :=
  hmac_sha256 (Vault s) ("waiting-room/local-identity/v1/" +:+ label).

Definition legacyKeys (s : State) : Key :=
  let cfg := NewKeyFromSeed (derive s "config") in
  let adm := NewKeyFromSeed (derive s "admission") in
  mkKey "v1" 0 (PublicOf cfg) (PublicOf adm) cfg adm (derive s "replay") (derive s "return").

(** [LoadIdentity] of a file that decodes to [n]. *)
Definition LoadIdentity (n : NodeIdentity) (r : role) : result error NodeIdentity :=
  if negb (nVersion n =? 1) || negb (String.eqb (nNode n) (role_name r)) ||
     negb (String.eqb (nInstallation n) "local") || negb (len (nBinding n) =? 64) ||
     negb (len (nConfigPublic n) =? 32) || negb (len (nAdmissionPublic n) =? 32)
  then Err ErrIdentity
  else if match nKeys n with
          | Some ks => negb (is_ok (Validate ks (role_name r))) ||
                       match r with Gateway => negb (len (nSourceKey n) =? 32)
                                  | _ => negb (len (nSourceKey n) =? 0) end
          | None => false
          end then Err ErrIdentity
  else if match nKeys n with
          | Some ks => let k := Current ks in
              negb (String.eqb (nConfigPublic n) (ConfigPublic k) &&
                    String.eqb (nAdmissionPublic n) (AdmissionPublic k) &&
                    String.eqb (nConfigPrivate n) (ConfigPrivate k) &&
                    String.eqb (nAdmissionPrivate n) (AdmissionPrivate k) &&
                    String.eqb (nReplayKey n) (Replay k) && String.eqb (nReturnKey n) (Return_ k))
          | None => false
          end then Err ErrIdentity
  else if negb (tls_ok (nCA n) (nCertificate n) (nPrivateKey n) (nNode n)) then Err ErrIdentity
  else Ok n.

(** [loadRotation] of the journal. *)
Definition loadRotation (s : State) (j : option rotationDisk) : result error rotationDisk :=
  match j with
  | None => Err ErrNotExist
  | Some d =>
      if negb (String.eqb (dBinding d) (Binding s)) || negb (is_ok (Validate (dKeys d) "owner")) ||
         negb (len (dBefore d) =? 64)
      then Err ErrKeyring else Ok d
  end.

Definition countKeyAcks (acks : list ack) (now : Z) (keys : KeySet) : Z :=
  Z.of_nat (countb (fun a => (aGeneration a =? Generation keys) && String.eqb (aDigest a) (Digest keys) &&
                             (aObserved a <=? now) && (now - 120000 <? aObserved a) && aCurrent a) acks).

Inductive operation := Stage | Activate | Retire | Revoke | Status.
Definition operation_name (o : operation) : string :=
  match o with Stage => "stage" | Activate => "activate" | Retire => "retire" | Revoke => "revoke" | Status => "status" end.

(** The [switch operation] of [RotateKeys]: the new key set and whether it changed.
    [fresh] is the key [generateKey] draws, [now] the database clock in milliseconds. *)
Definition transition (o : operation) (k : KeySet) (acks now : Z) (emergencyReady : bool) (fresh : Key)
    : result error (KeySet * bool) :=
  match o with
  | Status => Ok (k, false)
  | Stage =>
      if String.eqb (Phase k) "active" then Err ErrRetireFirst else
      if negb (String.eqb (Phase k) "staged")
      then Ok (mkSet (i64 (Generation k + 1)) "staged" (Current k) (Previous k) (Some fresh), true)
      else Ok (k, false)
  | Activate =>
      if negb (String.eqb (Phase k) "active") then
        if negb (String.eqb (Phase k) "staged") || negb (acks =? 2) then Err ErrAcks else
        let old := Current k in
        let nx := default Key_zero (Next k) in
        let cur := mkKey (ID nx) (now + 30000) (ConfigPublic nx) (AdmissionPublic nx) (ConfigPrivate nx)
                     (AdmissionPrivate nx) (Replay nx) (Return_ nx) in
        if Since cur <=? Since old then Err ErrClockRollback else
        Ok (mkSet (i64 (Generation k + 1)) "active" cur (Some old) None, true)
      else Ok (k, false)
  | Retire | Revoke =>
      if negb (String.eqb (Phase k) "stable") then
        if negb (String.eqb (Phase k) "active") || negb (acks =? 2) then Err ErrAcks else
        if (match o with Revoke => true | _ => false end) && negb emergencyReady then Err ErrEmergency else
        if (match o with Revoke => false | _ => true end) && (now <? Since (Current k) + Overlap)
        then Err ErrOverlap else
        Ok (mkSet (i64 (Generation k + 1)) "stable" (Current k) None (Next k), true)
      else Ok (k, false)
  end.

(** The identity file of a role for a key set: the loop body of the distribution. *)
Definition identity_with (s : State) (r : role) (n : NodeIdentity) (keys : KeySet) : NodeIdentity :=
  let scoped := ForRole keys (role_name r) in
  let k := Current scoped in
  mkIdentity (Some scoped) (match r with Gateway => derive s "public-source" | _ => "" end)
    (nVersion n) (nInstallation n) (nBinding n) (nNode n) (nCA n) (nCertificate n) (nPrivateKey n)
    (ConfigPublic k) (AdmissionPublic k) (ConfigPrivate k) (AdmissionPrivate k) (Replay k) (Return_ k)
    (nService n) (nValkeyPassword n).

(** The loop over the roles, interrupted once [budget] writes are done. *)
Fixpoint distribute (s : State) (keys : KeySet) (rs : list role) (budget : nat) (w : World)
    : World * result error unit :=
  match rs with
  | [] => (w, Ok tt)
  | r :: rs' =>
      match LoadIdentity (identity_of w r) r with
      | Err e => (w, Err e)
      | Ok n =>
          match budget with
          | O => (w, Err ErrInterrupted)
          | S b => distribute s keys rs' b (set_identity w r (identity_with s r n keys))
          end
      end
  end.

(** The operation row, inserted once per generation, with its audit event. *)
Definition record_operation (o : operation) (d : rotationDisk) (w : World) : World :=
  let k := dKeys d in
  if bool_decide (Generation k ∈ (oGeneration <$> wOperations w)) then w else
  mkWorld (wBinding w) (wJournal w) (wControl w) (wGateway w) (wCoordinator w) (wAcks w)
    (wOperations w ++ [mkOperation (Generation k) (Phase k) (Digest k)])
    (wAudit w ++ [mkAudit ("keys." +:+ operation_name o) (dBefore d) (Digest k) (Generation k)]).

Definition zero_digest : string := hex_EncodeToString zero32.

Record RotationReport := mkReport {
  rPhase : string; rGeneration : Z; rDigest : string; rActivateAt : Z; rRetireAfter : Z;
  rAcknowledged : Z; rEmergencyReady : bool
}.

Definition rotationReport (keys : KeySet) (acks : Z) (emergencyReady : bool) : RotationReport :=
  let since := match Previous keys with Some _ => Since (Current keys) | None => 0 end in
  mkReport (Phase keys) (Generation keys) (Digest keys) since
    (match Previous keys with Some _ => since + Overlap | None => 0 end) acks emergencyReady.

(** The journal a call starts from; before the first staging it is the legacy
    key and the role files must not hold a key set yet. *)
Definition start_disk (s : State) (o : operation) (w : World) : result error rotationDisk :=
  match loadRotation s (wJournal w) with
  | Err ErrNotExist =>
      match o with
      | Stage =>
          if existsb (fun r => match LoadIdentity (identity_of w r) r with
                               | Ok n => is_some (nKeys n) | Err _ => true end) roles
          then Err ErrJournal
          else Ok (mkDisk (Binding s) (mkSet 0 "" (legacyKeys s) None None) zero_digest)
      | _ => Err ErrStageFirst
      end
  | r => r
  end.

Definition acks_of (now : Z) (w : World) (k : KeySet) : Z :=
  if 0 <? Generation k then countKeyAcks (wAcks w) now k else 0.

(** The part after the switch: validate, journal, distribute, record. *)
Definition commit (s : State) (o : operation) (disk' : rotationDisk) (budget : nat) (w : World)
    : World * result error RotationReport :=
  if negb (is_ok (Validate (dKeys disk') "owner")) then (w, Err ErrKeyring) else
  match budget with
  | O => (w, Err ErrInterrupted)
  | S b =>
      match distribute s (dKeys disk') roles b (set_journal w disk') with
      | (w', Err e) => (w', Err e)
      | (w', Ok tt) => (record_operation o disk' w', Ok (rotationReport (dKeys disk') 0 false))
      end
  end.

(** [RotateKeys]. [emergency] is the answer of the audit query for a fresh
    epoch reset, [fresh] the key drawn, [budget] the file writes completed. *)
Definition RotateKeys (s : State) (o : operation) (now : Z) (emergency : bool) (fresh : Key) (budget : nat)
    (w : World) : World * result error RotationReport :=
  if negb (String.eqb (wBinding w) (Binding s)) then (w, Err ErrKeyring) else
  match o, loadRotation s (wJournal w) with
  | Status, Err ErrNotExist => (w, Ok (mkReport "legacy" 0 "" 0 0 0 false))
  | _, _ =>
      match start_disk s o w with
      | Err e => (w, Err e)
      | Ok disk =>
          let k := dKeys disk in
          let acks := acks_of now w k in
          let emergencyReady := String.eqb (Phase k) "active" && (acks =? 2) && emergency in
          match o with
          | Status => (w, Ok (rotationReport k acks emergencyReady))
          | _ =>
              match transition o k acks now emergencyReady fresh with
              | Err e => (w, Err e)
              | Ok (keys, changed) =>
                  commit s o (mkDisk (dBinding disk) keys (if changed then Digest k else dBefore disk)) budget w
              end
          end
      end
  end.

(** ** Lemmas *)

Lemma is_ok_unit {E} (r : result E unit) : is_ok r = true -> r = Ok tt.
Proof. by destruct r as [[]|]. Qed.

Lemma identity_set w r n r' :
  identity_of (set_identity w r n) r' = if decide (r' = r) then n else identity_of w r'.
Proof. by destruct r, r'. Qed.

(** A role file after its write loads again. *)
Lemma identity_with_loads `{!HmacLaws} s r n keys :
  LoadIdentity n r = Ok n -> Validate keys "owner" = Ok tt ->
  LoadIdentity (identity_with s r n keys) r = Ok (identity_with s r n keys).
Proof.
  intros Hn Hv. assert (service_role (role_name r)) as Hr by (unfold service_role; destruct r; tauto).
  pose proof (Validate_ForRole keys _ Hr Hv) as Hf.
  assert (key_ok "owner" (Current keys) = true) as Hk.
  { apply Validate_ok in Hv as (_ & Hk & _ & _). eapply keys_ok_key; [exact Hk | left]. }
  unfold LoadIdentity in *. destruct (_ || _) eqn:E1 in Hn; [done|].
  destruct (tls_ok (nCA n) (nCertificate n) (nPrivateKey n) (nNode n)) eqn:Et.
  2: { destruct (nKeys n); simpl in Hn; repeat split_if; done. }
  clear Hn. unfold key_ok in Hk.
  repeat match goal with H : (_ && _)%bool = true |- _ => apply andb_true_iff in H as [? ?] end.
  repeat match goal with H : (_ || _)%bool = false |- _ => apply orb_false_iff in H as [? ?] end.
  cbn [identity_with nVersion nNode nInstallation nBinding nConfigPublic nAdmissionPublic nKeys nSourceKey
       nConfigPrivate nAdmissionPrivate nReplayKey nReturnKey nCA nCertificate nPrivateKey].
  simpl ConfigPublic. simpl AdmissionPublic.
  repeat match goal with H : ?x = false |- context [?x] => rewrite H end.
  repeat match goal with H : ?x = true |- context [?x] => rewrite H end.
  rewrite Hf, !String.eqb_refl. cbn -[derive]. destruct r; [done| |done].
  unfold derive. by rewrite hmac_length.
Qed.

Lemma LoadIdentity_id n r n' : LoadIdentity n r = Ok n' -> n' = n.
Proof. unfold LoadIdentity. repeat split_if; naive_solver. Qed.

(** Every role file loads. *)
Definition loadable (w : World) : Prop :=
  forall r, LoadIdentity (identity_of w r) r = Ok (identity_of w r).

(** The tables and the journal, which the distribution does not touch. *)
Definition same_records (w w' : World) : Prop :=
  wBinding w' = wBinding w /\ wJournal w' = wJournal w /\ wAcks w' = wAcks w /\
  wOperations w' = wOperations w /\ wAudit w' = wAudit w.

Lemma set_identity_loadable `{!HmacLaws} s w r keys :
  loadable w -> Validate keys "owner" = Ok tt ->
  loadable (set_identity w r (identity_with s r (identity_of w r) keys)).
Proof.
  intros Hl Hv r'. rewrite identity_set. destruct (decide (r' = r)) as [->|]; [|apply Hl].
  by apply identity_with_loads.
Qed.

Lemma distribute_frame `{!HmacLaws} s keys rs b w :
  loadable w -> Validate keys "owner" = Ok tt ->
  loadable (fst (distribute s keys rs b w)) /\ same_records w (fst (distribute s keys rs b w)).
Proof.
  intros Hl Hv. revert b w Hl. induction rs as [|r rs IH]; intros b w Hl; simpl; [done|].
  rewrite (Hl r). destruct b as [|b]; [done|].
  destruct (IH b _ (set_identity_loadable s w r keys Hl Hv)) as [HA HB]. split; [done|].
  by destruct r.
Qed.

Lemma distribute_journal s keys rs b w : wJournal (fst (distribute s keys rs b w)) = wJournal w.
Proof.
  revert b w. induction rs as [|r rs IH]; intros b w; simpl; [done|].
  destruct (LoadIdentity (identity_of w r) r); [|done]. destruct b as [|b]; [done|]. by rewrite IH.
Qed.

Lemma distribute_other s keys rs b w r :
  r ∉ rs -> identity_of (fst (distribute s keys rs b w)) r = identity_of w r.
Proof.
  revert b w. induction rs as [|r' rs IH]; intros b w Hr; simpl; [done|].
  apply not_elem_of_cons in Hr as [Hne Hr]. destruct (LoadIdentity (identity_of w r') r') as [n|]; [|done].
  destruct b as [|b]; [done|]. rewrite IH by done. rewrite identity_set. by rewrite decide_False.
Qed.

(** With enough writes every role holds its projection of the keys. *)
Lemma distribute_full `{!HmacLaws} s keys rs b w :
  loadable w -> Validate keys "owner" = Ok tt -> NoDup rs -> (List.length rs <= b)%nat ->
  snd (distribute s keys rs b w) = Ok tt /\
  Forall (fun r => nKeys (identity_of (fst (distribute s keys rs b w)) r) = Some (ForRole keys (role_name r))) rs.
Proof.
  intros Hl Hv Hnd. revert b w Hl. induction Hnd as [|r rs Hr Hnd IH]; intros b w Hl Hb; simpl in *; [done|].
  rewrite (Hl r). destruct b as [|b]; [lia|].
  destruct (IH b _ (set_identity_loadable s w r keys Hl Hv) ltac:(lia)) as [HA HB].
  split; [done|]. constructor; [|done]. rewrite distribute_other by done.
  rewrite identity_set, decide_True by done. done.
Qed.

(** A successful operation is a fixed point of the phase machine. *)
Lemma transition_fix o k acks now em fresh k' ch :
  transition o k acks now em fresh = Ok (k', ch) -> o <> Status ->
  forall acks' now' em' fresh', transition o k' acks' now' em' fresh' = Ok (k', false).
Proof.
  intros HT Ho acks' now' em' fresh'. destruct o; try done; simpl in *;
    repeat split_if; simplify_eq; simpl in *; to_prop; simplify_eq; try done; congruence.
Qed.

Lemma transition_unchanged o k acks now em fresh k' :
  transition o k acks now em fresh = Ok (k', false) -> k' = k.
Proof. destruct o; simpl; repeat split_if; naive_solver. Qed.

Lemma loadRotation_ok s j d :
  loadRotation s j = Ok d ->
  j = Some d /\ dBinding d = Binding s /\ Validate (dKeys d) "owner" = Ok tt /\ len (dBefore d) = 64.
Proof.
  unfold loadRotation. destruct j as [d'|]; [|done]. destruct (_ || _) eqn:E; [done|]. intros [= ->].
  to_prop. split_and!; try done. by apply is_ok_unit.
Qed.

Lemma loadRotation_some s d :
  dBinding d = Binding s -> Validate (dKeys d) "owner" = Ok tt -> len (dBefore d) = 64 ->
  loadRotation s (Some d) = Ok d.
Proof. intros E1 E2 E3. unfold loadRotation. by rewrite E1, E2, E3, String.eqb_refl. Qed.

(** The state a call leaves once it has written the journal [d]. *)
Record journaled (s : State) (o : operation) (d : rotationDisk) (w : World) : Prop := {
  j_journal : wJournal w = Some d;
  j_world : wBinding w = Binding s;
  j_binding : dBinding d = Binding s;
  j_valid : Validate (dKeys d) "owner" = Ok tt;
  j_before : len (dBefore d) = 64;
  j_fix : forall acks now em fresh, transition o (dKeys d) acks now em fresh = Ok (dKeys d, false);
  j_loadable : loadable w
}.

Lemma record_operation_frame o d w :
  wBinding (record_operation o d w) = wBinding w /\ wJournal (record_operation o d w) = wJournal w /\
  (forall r, identity_of (record_operation o d w) r = identity_of w r).
Proof. unfold record_operation. split_if; [done|]. split_and!; done. Qed.

Lemma set_journal_loadable w d : loadable w -> loadable (set_journal w d).
Proof. intros Hl []; [apply (Hl Control) | apply (Hl Gateway) | apply (Hl Coordinator)]. Qed.

Lemma commit_journaled `{!HmacLaws} s o d b w :
  loadable w -> wBinding w = Binding s -> dBinding d = Binding s -> Validate (dKeys d) "owner" = Ok tt ->
  len (dBefore d) = 64 ->
  (forall acks now em fresh, transition o (dKeys d) acks now em fresh = Ok (dKeys d, false)) ->
  journaled s o d (fst (commit s o d (S b) w)).
Proof.
  intros Hl Hw Hb Hv Hlen Hfix. unfold commit. rewrite Hv. simpl negb. cbv iota.
  pose proof (set_journal_loadable w d Hl) as Hl'.
  destruct (distribute_frame s (dKeys d) roles b _ Hl' Hv) as [Hld (E1 & E2 & _)].
  destruct (distribute s (dKeys d) roles b (set_journal w d)) as [w' [[]|e]]; simpl in *.
  - destruct (record_operation_frame o d w') as (E3 & E4 & E5).
    constructor; try done; [by rewrite E4 | by rewrite E3, E1 |]. intros r. by rewrite E5.
  - constructor; try done. by rewrite E1.
Qed.

Lemma commit_full `{!HmacLaws} s o d b w :
  loadable w -> Validate (dKeys d) "owner" = Ok tt -> (3 <= b)%nat ->
  is_ok (snd (commit s o d (S b) w)) = true /\
  (forall r, nKeys (identity_of (fst (commit s o d (S b) w)) r) = Some (ForRole (dKeys d) (role_name r))) /\
  Generation (dKeys d) ∈ (oGeneration <$> wOperations (fst (commit s o d (S b) w))).
Proof.
  intros Hl Hv Hb. unfold commit. rewrite Hv. simpl negb. cbv iota.
  pose proof (set_journal_loadable w d Hl) as Hl'.
  assert (NoDup roles) as Hnd by (by apply (bool_decide_unpack _); vm_compute).
  destruct (distribute_full s (dKeys d) roles b _ Hl' Hv Hnd Hb) as [Hok Hall].
  destruct (distribute s (dKeys d) roles b (set_journal w d)) as [w' [[]|e]]; simpl in *; [|done].
  split_and!; [done | |].
  - intros r. destruct (record_operation_frame o d w') as (_ & _ & E5). rewrite E5.
    rewrite Forall_forall in Hall. apply Hall. destruct r; set_solver.
  - unfold record_operation. case_bool_decide; [done|]. simpl. rewrite fmap_app. set_solver.
Qed.

Lemma start_disk_ok `{!Sha256Laws} s o w d :
  start_disk s o w = Ok d ->
  dBinding d = Binding s /\ len (dBefore d) = 64 /\
  (dKeys d = mkSet 0 "" (legacyKeys s) None None \/ Validate (dKeys d) "owner" = Ok tt).
Proof.
  unfold start_disk. destruct (loadRotation s (wJournal w)) as [d'|e] eqn:E.
  - intros [= ->]. destruct (loadRotation_ok _ _ _ E) as (_ & ? & ? & ?). auto.
  - destruct e; try done. destruct o; try done. destruct (existsb _ _); [done|]. intros [= <-]. simpl.
    split_and!; [done | by vm_compute | by left].
Qed.

Lemma start_disk_err s o w e : start_disk s o w = Err e -> e <> ErrInterrupted.
Proof.
  unfold start_disk, loadRotation. intros HE ->. destruct (wJournal w) as [d|].
  - by destruct (_ || _).
  - destruct o; try done. by destruct (existsb _ _).
Qed.

Lemma transition_err o k acks now em fresh e : transition o k acks now em fresh = Err e -> e <> ErrInterrupted.
Proof. intros HE ->. destruct o; simpl in HE; repeat split_if; done. Qed.

(** A call that got past the switch is a [commit] of a fixed point. *)
Lemma RotateKeys_commit `{!Sha256Laws} s o now em fresh b w w' res :
  RotateKeys s o now em fresh b w = (w', res) -> o <> Status ->
  (w' = w /\ exists e, res = Err e /\ e <> ErrInterrupted) \/
  (exists d, wBinding w = Binding s /\ RotateKeys s o now em fresh b w = commit s o d b w /\
     dBinding d = Binding s /\ len (dBefore d) = 64 /\ Validate (dKeys d) "owner" = Ok tt /\
     forall acks now em fresh, transition o (dKeys d) acks now em fresh = Ok (dKeys d, false)).
Proof.
  intros HR Ho. unfold RotateKeys in HR |- *.
  destruct (String.eqb (wBinding w) (Binding s)) eqn:Eb; [|left; naive_solver]. simpl in *. to_prop.
  assert (forall A (x y : A), match o, loadRotation s (wJournal w) with
            | Status, Err ErrNotExist => x | _, _ => y end = y) as Hm by (intros; by destruct o).
  rewrite Hm in HR |- *. clear Hm.
  destruct (start_disk s o w) as [disk|e] eqn:Ed; [|left; pose proof (start_disk_err s o w e Ed); naive_solver].
  destruct (start_disk_ok s o w disk Ed) as (Hd1 & Hd2 & Hd3).
  cbv zeta in HR |- *.
  set (acks := acks_of now w (dKeys disk)) in *.
  set (emr := String.eqb (Phase (dKeys disk)) "active" && (acks =? 2) && em) in *.
  destruct (transition o (dKeys disk) acks now emr fresh) as [[keys ch]|e] eqn:Et.
  2: { left. pose proof (transition_err _ _ _ _ _ _ _ Et). destruct o; naive_solver. }
  set (d := mkDisk (dBinding disk) keys (if ch then Digest (dKeys disk) else dBefore disk)) in *.
  assert (commit s o d b w = (w', res)) as HC by (destruct o; done).
  destruct (is_ok (Validate keys "owner")) eqn:Ev.
  - right. exists d. split_and!; try done.
    + destruct o; done.
    + simpl. destruct ch; [|done]. unfold Digest. rewrite hex_length, sha256_length. lia.
    + by apply is_ok_unit.
    + simpl. by eapply transition_fix.
  - left. unfold commit in HC. simpl in HC. rewrite Ev in HC. simpl in HC. naive_solver.
Qed.


(** Rotation does not change who signs a live admission. For every
    operation but an emergency revocation, applied to a valid key set, a
    ticket promoted less than the overlap ago, up to the activation margin of
    30 seconds from now, is signed by the same key before and after, so a
    repeated claim gives the same token; and the key stays in the set the
    gateways verify with. *)
Lemma admission_signer_stable o k acks now em fresh k' ch promoted :
  transition o k acks now em fresh = Ok (k', ch) -> o <> Revoke ->
  (Validate k "owner" = Ok tt \/ Previous k = None) ->
  now - Overlap < promoted < now + 30000 ->
  AdmissionAt k' promoted = AdmissionAt k promoted /\ AdmissionAt k promoted ∈ Keys k'.
Proof.
  intros HT Ho Hv Hp.
  assert (AdmissionAt k' promoted = AdmissionAt k promoted) as E.
  { destruct ch; [|by rewrite (transition_unchanged _ _ _ _ _ _ _ HT)].
    assert (Phase k = "staged" -> Previous k = None) as Hstaged.
    { intros Es. destruct Hv as [Hv|]; [|done]. apply Validate_ok in Hv as (Hh & _). unfold header_ok in Hh.
      rewrite Es in Hh. to_prop. by destruct (Previous k). }
    destruct o; try done; simpl in HT; repeat split_if; simplify_eq; to_prop; unfold AdmissionAt; simpl.
    - done.
    - rewrite (Hstaged ltac:(done)). rewrite (proj2 (Z.ltb_lt _ _)) by lia. done.
    - destruct (Previous k) as [p|]; [|done]. rewrite (proj2 (Z.ltb_ge _ _)); [done|].
      unfold Overlap in *. simpl in *. lia. }
  split; [done|]. rewrite <- E. unfold AdmissionAt, Keys. destruct (Previous k') as [p|]; [split_if|]; set_solver.
Qed.

(** The previous keys are dropped only when it is safe. If an operation
    takes a journaled key set with a previous key to one without it, both data
    roles had acknowledged exactly that key set within two minutes, and
    either the overlap since the activation has passed or, for a revocation,
    an Admin had reset the installation epoch. *)
Lemma previous_key_dropped_safely `{!Sha256Laws} s o now em fresh b w w1 res d p d1 :
  RotateKeys s o now em fresh b w = (w1, res) ->
  wJournal w = Some d -> Previous (dKeys d) = Some p -> wJournal w1 = Some d1 -> Previous (dKeys d1) = None ->
  countKeyAcks (wAcks w) now (dKeys d) = 2 /\
  ((o = Retire /\ Since (Current (dKeys d)) + Overlap <= now) \/ (o = Revoke /\ em = true)).
Proof.
  intros HR Hj Hp Hj1 Hp1. unfold RotateKeys in HR.
  destruct (negb _); [simplify_eq; congruence|]. unfold start_disk in HR. rewrite Hj in HR.
  destruct (loadRotation s (Some d)) as [d'|e] eqn:El.
  2: { destruct e, o; simplify_eq; try congruence; by unfold loadRotation in El; destruct (_ || _). }
  apply loadRotation_ok in El as ([= <-] & _ & Hv & _). apply Validate_ok in Hv as (Hh & _).
  assert (0 < Generation (dKeys d)) as Hg by (unfold header_ok in Hh; to_prop; lia).
  cbv zeta in HR. unfold acks_of in HR. rewrite (proj2 (Z.ltb_lt _ _) Hg) in HR.
  set (acks := countKeyAcks (wAcks w) now (dKeys d)) in *.
  set (emr := String.eqb (Phase (dKeys d)) "active" && (acks =? 2) && em) in *.
  destruct (transition o (dKeys d) acks now emr fresh) as [[keys ch]|e] eqn:Et.
  2: { destruct o; simplify_eq; congruence. }
  assert (o <> Status) as Ho by (intros ->; simplify_eq; congruence).
  assert (dKeys d1 = keys \/ dKeys d1 = dKeys d) as [E|E]; [| |congruence].
  { set (dd := mkDisk _ keys _) in HR. assert (commit s o dd b w = (w1, res)) as HC by (by destruct o).
    unfold commit in HC. destruct (negb _); [simplify_eq; right; congruence|].
    destruct b as [|b]; [simplify_eq; right; congruence|]. left.
    pose proof (distribute_journal s (dKeys dd) roles b (set_journal w dd)) as Hdj.
    destruct (distribute s (dKeys dd) roles b (set_journal w dd)) as [w' [[]|e]]; simpl in *; simplify_eq.
    - destruct (record_operation_frame o dd w') as (_ & E4 & _). rewrite E4, Hdj in Hj1. by simplify_eq.
    - done. }
  assert (emr = true -> em = true) as Hem by (unfold emr; intros; by to_prop).
  clearbody emr acks. rewrite E in Hp1. clear E HR.
  destruct o; try done; simpl in Et; repeat split_if; simplify_eq; simpl in *; to_prop; try congruence.
  - split; [done|]. left. split; [done | lia].
  - split; [done|]. right. split; [done|]. by apply Hem.
Qed.
End rotation.

(** ** A concrete installation for the witnesses *)

Definition wit_sha : Sha256 := fun _ => zero32.
Definition wit_hmac : HmacSha256 := fun _ _ => wit_seed "h".
Definition wit_tls (_ _ _ _ : string) : bool := true.
Definition wit_state : State := mkState "vault" "fingerprint".
Definition wit_codec : Codec KeySet := {| marshal s := Phase s; decode s := None |}.

Lemma wit_sha_laws : @Sha256Laws wit_sha.
Proof. intros s. reflexivity. Qed.
Lemma wit_hmac_laws : @HmacLaws wit_hmac.
Proof. intros k m. reflexivity. Qed.

Definition wit_identity (r : role) : NodeIdentity :=
  mkIdentity None "" 1 "local" (@Binding wit_sha wit_state) (role_name r) "ca" "crt" "key"
    (wit_seed "h") (wit_seed "h") "" "" "" "" "service" "".
Definition wit_world : World :=
  mkWorld (@Binding wit_sha wit_state) None (wit_identity Control) (wit_identity Gateway)
    (wit_identity Coordinator) [] [] [].

Definition wit_fresh : Key := wit_key wit_id 0 "n".

Definition wit_rotate := @RotateKeys wit_ed wit_codec wit_sha wit_hmac wit_tls wit_state.

(** The first staging is interrupted after the journal and one role file. *)
Definition wit_interrupted : World := fst (wit_rotate Stage 1000 false wit_fresh 2 wit_world).


Definition wit_staged : KeySet := mkSet 1 "staged" (wit_key "v1" 0 "y") None (Some (wit_key wit_id 0 "x")).
Definition wit_active : KeySet := mkSet 2 "active" (wit_key wit_id 31000 "x") (Some (wit_key "v1" 0 "y")) None.

Definition wit_journal (k : KeySet) : rotationDisk :=
  mkDisk (@Binding wit_sha wit_state) k (@zero_digest).
Definition wit_ack : ack := mkAck 2 (@Digest wit_codec wit_sha wit_active) 86461000 true.
Definition wit_active_world : World :=
  mkWorld (@Binding wit_sha wit_state) (Some (wit_journal wit_active)) (wit_identity Control)
    (wit_identity Gateway) (wit_identity Coordinator) [wit_ack; wit_ack] [] [].

End localcontrol.
