(* ===== verification/ConfigTrust.v ===== *)
(** * Trusted configuration: [src/internal/configtrust/snapshot.go] and [file.go]

    Module [configtrust] translates the signed snapshot envelope, the gate that
    accepts and serves snapshots, and its two stores. The gate's mutex
    serialises its operations, so each is one step; the clock is an argument.
    The store is an interface [Store] with the law the gate relies on, which
    [FileStore] and [MemoryStore] discharge; every call takes the fault that
    the operating system injects. A history interleaves applications, reads
    and process restarts. *)

From S2P Require Import Prelude GoStd.
From stdpp Require Import base list strings gmap sorting.
From Stdlib Require Import ZArith Lia Ascii String.

Module configtrust.
Local Open Scope Z_scope.

Definition MaxSnapshotBytes : Z := 65536.

(** ["waiting-room-config/v1\x00"]. *)
Definition domain : string := "waiting-room-config/v1" +:+ String (ascii_of 0) EmptyString.

Inductive error := ErrInvalid | ErrUnavailable | ErrRollback | ErrPersistence | ErrEmpty.

Record Snapshot := mkSnapshot {
  SchemaVersion : Z; Installation : string; Generation : Z; Revision : Z;
  IssuedAt : Z; ExpiresAt : Z; Kid : string; Payload : string
}.

#[global] Instance Snapshot_eq_dec : EqDecision Snapshot.
Proof. solve_decision. Defined.

Definition Snapshot_zero : Snapshot := mkSnapshot 0 "" 0 0 0 0 "" "".

Record ClockRecovery := mkRecovery { rGeneration : Z; rNotBefore : Z; rDigest : string }.

Record envelope := mkEnvelope { eSnapshot : string; eSignature : string }.

(** [type Store interface]: [fault] is what the operating system does to the call. *)
Class Store (St Fault : Type) := {
  Load : St -> Fault -> result error string;
  Save : St -> string -> Fault -> St * result error unit;
  content : St -> option string
}.

(** The contract of the interface: [Save] replaces the content atomically,
    and an error leaves the old or the new content. *)
Class StoreLaws (St Fault : Type) `{Store St Fault} : Prop := {
  load_ok : forall st f raw, Load st f = Ok raw -> content st = Some raw;
  load_empty : forall st f, Load st f = Err ErrEmpty -> content st = None;
  save_ok : forall st raw f st', len raw <> 0 -> Save st raw f = (st', Ok tt) -> content st' = Some raw;
  save_err : forall st raw f st' e, len raw <> 0 -> Save st raw f = (st', Err e) ->
    content st' = content st \/ content st' = Some raw
}.

(** [^[a-zA-Z0-9_-]{1,80}$]. *)
Definition safe_byte (a : ascii) : bool :=
  let b := byte_of a in
  ((97 <=? b) && (b <=? 122)) || ((65 <=? b) && (b <=? 90)) || ((48 <=? b) && (b <=? 57)) || (b =? 95) || (b =? 45).
Definition safe (s : string) : bool :=
  (1 <=? len s) && (len s <=? 80) && forallb safe_byte (list_ascii_of_string s).

Definition Second : Z := 1000000000.
Definition Unix (now : Z) : Z := now / Second.

Record Gate := mkGate {
  keys : gmap string string; installation : string; minimum : Z;
  current : Snapshot; raw : string; lastClock : Z; clockHold : bool; recoveryAfter : Z;
  failed : bool; failureReason : string
}.

Section gate.
Context `{Codec Snapshot} `{Codec envelope} `{Ed25519}.
(** [json.Valid] and the caller's [Validator]. *)
Context (json_Valid : string -> bool) (validate : string -> bool).

(** [strict]: one value, nothing after it, in its canonical encoding. *)
Definition strict {A} `{Codec A} (r : string) : option A :=
  match decode_strict r with
  | Some a => if String.eqb (marshal a) r then Some a else None
  | None => None
  end.

Definition starts_brace (s : string) : bool :=
  match s with String a _ => Ascii.eqb a "{" | EmptyString => false end.

Definition structural (s : Snapshot) : bool :=
  (SchemaVersion s =? 1) && safe (Installation s) && safe (Kid s) && (0 <? Generation s) &&
  (Generation s <=? 9007199254740991) && (Revision s <=? 9007199254740991) && (0 <? IssuedAt s) &&
  (IssuedAt s <=? 253402214399) && (IssuedAt s <? ExpiresAt s) && (i64 (ExpiresAt s - IssuedAt s) <=? 86400) &&
  (1 <? len (Payload s)) && starts_brace (Payload s) && json_Valid (Payload s).

Definition Sign (key : string) (s : Snapshot) : result error string :=
  if negb (len key =? PrivateKeySize) || negb (structural s) then Err ErrInvalid else
  let r := marshal s in
  let out := marshal (mkEnvelope r (base64.EncodeToString (ed_sign key (domain +:+ r)))) in
  if MaxSnapshotBytes <? len out then Err ErrInvalid else Ok out.

Definition verify (g : Gate) (r : string) : result error Snapshot :=
  if (len r =? 0) || (MaxSnapshotBytes <? len r) then Err ErrInvalid else
  match strict (A := envelope) r with
  | None => Err ErrInvalid
  | Some out =>
      match strict (A := Snapshot) (eSnapshot out) with
      | None => Err ErrInvalid
      | Some s =>
          if negb (structural s) || negb (String.eqb (Installation s) (installation g)) ||
             (Generation s <? minimum g) then Err ErrInvalid else
          let key := default "" (keys g !! Kid s) in
          match base64.DecodeString (eSignature out) with
          | None => Err ErrInvalid
          | Some sig =>
              if negb (len key =? PublicKeySize) ||
                 negb (String.eqb (base64.EncodeToString sig) (eSignature out)) ||
                 negb (ed_verify key (domain +:+ eSnapshot out) sig) then Err ErrInvalid
              else if negb (validate (Payload s)) then Err ErrInvalid else Ok s
          end
      end
  end.

(** [clock]: the quarantine on a clock that moved backwards. *)
Definition clock (g : Gate) (now : Z) : Gate * bool :=
  let n := Unix now in
  if n <? lastClock g then
    (mkGate (keys g) (installation g) (minimum g) (current g) (raw g) (lastClock g) true (lastClock g)
       (failed g) "snapshot_clock_rollback", false)
  else (mkGate (keys g) (installation g) (minimum g) (current g) (raw g) n (clockHold g) (recoveryAfter g)
          (failed g) (failureReason g), true).

Definition fail (g : Gate) (reason : string) : Gate :=
  mkGate (keys g) (installation g) (minimum g) (current g) (raw g) (lastClock g) (clockHold g) (recoveryAfter g)
    true reason.

Context {St Fault : Type} `{Store St Fault}.

Definition applyLocked (g : Gate) (st : St) (r : string) (now : Z) (f : Fault) : Gate * St * result error unit :=
  if failed g then (g, st, Err ErrUnavailable) else
  let (g, ok) := clock g now in
  if negb ok then (g, st, Err ErrUnavailable) else
  match verify g r with
  | Err e => (g, st, Err e)
  | Ok s =>
      if (Unix now <? IssuedAt s) || (ExpiresAt s <=? Unix now) then (g, st, Err ErrInvalid) else
      if (Generation s <? Generation (current g)) || (Revision s <? Revision (current g))
      then (g, st, Err ErrRollback) else
      if clockHold g && ((Generation s <=? Generation (current g)) || (IssuedAt s <? recoveryAfter g))
      then (g, st, Err ErrUnavailable) else
      if Generation s =? Generation (current g) then
        if String.eqb r (raw g) then (g, st, Ok tt) else (g, st, Err ErrRollback) else
      match Save st r f with
      | (st', Err _) => (fail g "snapshot_persistence", st', Err ErrPersistence)
      | (st', Ok _) =>
          (mkGate (keys g) (installation g) (minimum g) s r (lastClock g) false 0 (failed g) "", st', Ok tt)
      end
  end.

Definition currentLocked (g : Gate) (now : Z) : Gate * result error Snapshot :=
  if failed g then (g, Err ErrUnavailable) else
  let (g, ok) := clock g now in
  if negb ok || clockHold g || (Generation (current g) =? 0) || (Unix now <? IssuedAt (current g)) ||
     (ExpiresAt (current g) <=? Unix now)
  then (g, Err ErrUnavailable) else (g, Ok (current g)).

Definition FailureReason (g : option Gate) : string :=
  match g with None => "" | Some g => failureReason g end.

Definition RecoveryRequest `{Sha256} (g : option Gate) : option ClockRecovery :=
  match g with
  | None => None
  | Some g =>
      if failed g || negb (clockHold g) || (Generation (current g) =? 0) then None
      else Some (mkRecovery (Generation (current g)) (recoveryAfter g) (hex_EncodeToString (sha256 (raw g))))
  end.

(** [Open]: the gate, absent when the arguments are invalid, and the error. *)
Definition Open (ks : gmap string string) (inst : string) (min : Z) (st : St) (f : Fault)
    : option Gate * result error unit :=
  if (size ks =? 0)%nat || (8 <? Z.of_nat (size ks)) || negb (safe inst) || (min =? 0) ||
     (9007199254740991 <? min) ||
     existsb (fun kv => negb (safe (fst kv)) || negb (len (snd kv) =? PublicKeySize)) (map_to_list ks)
  then (None, Err ErrInvalid) else
  let g := mkGate ks inst min Snapshot_zero "" 0 false 0 false "" in
  match Load st f with
  | Err ErrEmpty => (Some g, Ok tt)
  | Err _ => (Some (fail g "snapshot_persistence"), Err ErrPersistence)
  | Ok r =>
      match verify g r with
      | Err _ => (Some (fail g "snapshot_invalid"), Err ErrInvalid)
      | Ok s => (Some (mkGate ks inst min s r 0 false 0 false ""), Ok tt)
      end
  end.

(** [Apply] and [Current] on a gate that may be nil. *)
Definition Apply (g : option Gate) (st : St) (r : string) (now : Z) (f : Fault) : option Gate * St * result error unit :=
  match g with
  | None => (None, st, Err ErrUnavailable)
  | Some g => let '(g', st', res) := applyLocked g st r now f in (Some g', st', res)
  end.

Definition Current (g : option Gate) (now : Z) : option Gate * result error Snapshot :=
  match g with
  | None => (None, Err ErrUnavailable)
  | Some g => let '(g', res) := currentLocked g now in (Some g', res)
  end.

(** [Handler]: liveness needs no trust; any other request is passed on only with
    a current snapshot. *)
Inductive response := Live | Unavailable | Next.
Definition Handler (g : option Gate) (livez : bool) (next : bool) (now : Z) : option Gate * response :=
  if livez then (g, Live) else
  let '(g', res) := Current g now in
  if negb (is_ok res) || negb next then (g', Unavailable) else (g', Next).

(** ** Histories *)

Inductive gop :=
  | GApply (r : string) (now : Z) (f : Fault)
  | GCurrent (now : Z)
  | GRestart (ks : gmap string string) (inst : string) (min : Z) (f : Fault).

Record system := mkSystem { gate : option Gate; store : St; served : list Snapshot }.

Definition gstep (y : system) (o : gop) : system :=
  match o with
  | GApply r now f => let '(g, st, _) := Apply (gate y) (store y) r now f in mkSystem g st (served y)
  | GCurrent now =>
      let (g, res) := Current (gate y) now in
      mkSystem g (store y) (served y ++ match res with Ok s => [s] | Err _ => [] end)
  | GRestart ks inst min f => mkSystem (fst (Open ks inst min (store y) f)) (store y) (served y)
  end.

Definition grun (y : system) (ops : list gop) : system := fold_left gstep ops y.

(** ** Lemmas *)

(** The snapshot an envelope carries, whoever signed it. *)
Definition snapshot_of (r : string) : option Snapshot :=
  out ← strict (A := envelope) r; strict (A := Snapshot) (eSnapshot out).

(** What [verify] checked. *)
Record verified (g : Gate) (r : string) (s : Snapshot) : Prop := {
  v_size : len r <> 0;
  v_snapshot : snapshot_of r = Some s;
  v_structural : structural s = true;
  v_installation : Installation s = installation g;
  v_minimum : minimum g <= Generation s;
  v_signed : exists out sig key, strict (A := envelope) r = Some out /\ keys g !! Kid s = Some key /\
    base64.DecodeString (eSignature out) = Some sig /\ ed_verify key (domain +:+ eSnapshot out) sig = true;
  v_valid : validate (Payload s) = true
}.

Lemma verify_inv g r s : verify g r = Ok s -> verified g r s.
Proof.
  unfold verify. case_if as E0; [done|]. destruct (strict r) as [out|] eqn:E1; [|done].
  destruct (strict (eSnapshot out)) as [s'|] eqn:E2; [|done].
  case_if as E3; [done|]. destruct (base64.DecodeString (eSignature out)) as [sig|] eqn:E4; [|done].
  case_if as E5; [done|]. destruct (validate (Payload s')) eqn:E6; [|done]. intros [= ->].
  to_prop. destruct (keys g !! Kid s) as [key|] eqn:Ek; simpl in *; [|done].
  constructor; try done.
  - unfold snapshot_of. rewrite E1. done.
  - by exists out, sig, key.
Qed.

Lemma structural_gen s : structural s = true -> 0 < Generation s.
Proof. unfold structural. intros. by to_prop. Qed.

(** [s] is no newer than [s'], and a generation names one snapshot. *)
Definition behind (s s' : Snapshot) : Prop :=
  Generation s <= Generation s' /\ Revision s <= Revision s' /\ (Generation s = Generation s' -> s = s').

#[local] Instance behind_trans : Transitive behind.
Proof.
  intros a b c (? & ? & E1) (? & ? & E2). split_and!; [lia | lia |]. intros E.
  rewrite E1 by lia. apply E2. lia.
Qed.

Lemma behind_newer s s' : Generation s < Generation s' -> Revision s <= Revision s' -> behind s s'.
Proof. unfold behind. intros. split_and!; lia. Qed.

(** The gate's memory agrees with its store. *)
Definition gate_inv (g : Gate) (st : St) : Prop :=
  failed g = false ->
  (content st = None /\ Generation (current g) = 0) \/
  (content st = Some (raw g) /\ snapshot_of (raw g) = Some (current g) /\ 0 < Generation (current g)).

Definition stored (st : St) (s : Snapshot) : Prop :=
  exists r s', content st = Some r /\ snapshot_of r = Some s' /\ behind s s'.

Record sys_inv (y : system) : Prop := {
  i_gate : forall g, gate y = Some g -> gate_inv g (store y);
  i_served : forall s, s ∈ served y -> stored (store y) s;
  i_sorted : StronglySorted behind (served y)
}.

Lemma clock_frame g now :
  keys (fst (clock g now)) = keys g /\ installation (fst (clock g now)) = installation g /\
  minimum (fst (clock g now)) = minimum g /\ current (fst (clock g now)) = current g /\
  raw (fst (clock g now)) = raw g /\ failed (fst (clock g now)) = failed g.
Proof. unfold clock. by split_if. Qed.

Lemma gate_inv_clock g st now : gate_inv g st -> gate_inv (fst (clock g now)) st.
Proof.
  unfold gate_inv. destruct (clock_frame g now) as (_ & _ & _ & -> & -> & ->). done.
Qed.

(** What an application does: nothing durable, or one save of a newer snapshot. *)
Lemma applyLocked_cases g st r now f :
  let '(g', st', res) := applyLocked g st r now f in
  (st' = st /\ (g' = g \/ g' = fst (clock g now)) /\
     (res = Ok tt -> failed g = false /\ r = raw g /\ clockHold g' = false)) \/
  (exists s, failed g = false /\ lastClock g <= Unix now /\ verified g r s /\
     IssuedAt s <= Unix now < ExpiresAt s /\
     Generation (current g) < Generation s /\ Revision (current g) <= Revision s /\
     (clockHold g = true -> recoveryAfter g <= IssuedAt s) /\
     ((res = Err ErrPersistence /\ failed g' = true /\ exists e, Save st r f = (st', Err e)) \/
      (res = Ok tt /\ Save st r f = (st', Ok tt) /\
       g' = mkGate (keys g) (installation g) (minimum g) s r (Unix now) false 0 false ""))).
Proof.
  unfold applyLocked. destruct (failed g) eqn:Hf; [left; naive_solver|].
  destruct (clock g now) as [g1 ok] eqn:Ec. pose proof (clock_frame g now) as Hfr. rewrite Ec in Hfr. simpl in Hfr.
  destruct Hfr as (Fk & Fi & Fm & Fc & Fr & Ff). destruct ok; simpl; [|left; naive_solver].
  assert (lastClock g <= Unix now /\ lastClock g1 = Unix now /\ clockHold g1 = clockHold g /\
          recoveryAfter g1 = recoveryAfter g) as (Hn & Hl & Hh & Hra).
  { unfold clock in Ec. destruct (Z.ltb_spec (Unix now) (lastClock g)); [done|]. by injection Ec as <-. }
  destruct (verify g1 r) as [s|e] eqn:Ev; [|left; naive_solver]. apply verify_inv in Ev.
  case_if as E1; [left; naive_solver|].
  case_if as E2; [left; naive_solver|].
  destruct (clockHold g1 && _) eqn:E3; [left; naive_solver|].
  destruct (Generation s =? Generation (current g1)) eqn:E4; to_prop.
  { destruct (String.eqb_spec r (raw g1)); left; [|naive_solver].
    split_and!; [done | auto |]. intros _. split_and!; [done | congruence |].
    rewrite E4, Z.leb_refl, orb_true_l, andb_true_r in E3. done. }
  rewrite Fc in *.
  assert (verified g r s) as Hv by (destruct Ev; constructor; by rewrite <- ?Fk, <- ?Fi, <- ?Fm).
  assert (clockHold g = true -> recoveryAfter g <= IssuedAt s) as Hrec.
  { intros Hch. rewrite Hh, Hch, Hra in E3. simpl in E3. to_prop. lia. }
  destruct (Save st r f) as [st' [[]|e]]; right; exists s; split_and!; try done; try lia; [right | left].
  - rewrite Fk, Fi, Fm, Hl, Ff, Hf. done.
  - split_and!; [done | done | by exists e].
Qed.

Lemma currentLocked_cases g now :
  let '(g', res) := currentLocked g now in
  (g' = g \/ g' = fst (clock g now)) /\
  forall s, res = Ok s -> failed g = false /\ lastClock g <= Unix now /\ clockHold g = false /\
    s = current g /\ IssuedAt s <= Unix now < ExpiresAt s /\ Generation s <> 0.
Proof.
  unfold currentLocked. destruct (failed g) eqn:Hf; [naive_solver|].
  destruct (clock g now) as [g1 ok] eqn:Ec. case_if as E; [naive_solver|].
  split; [auto|]. intros s [= <-]. unfold clock in Ec.
  destruct (Z.ltb_spec (Unix now) (lastClock g)); simplify_eq; simpl in *; to_prop.
  split_and!; try done; lia.
Qed.

Context `{!StoreLaws St Fault}.

(** Saving a newer snapshot keeps everything served behind the store. *)
Lemma stored_save g st r f st' res s s0 :
  gate_inv g st -> failed g = false -> len r <> 0 -> snapshot_of r = Some s ->
  Generation (current g) < Generation s -> Revision (current g) <= Revision s ->
  Save st r f = (st', res) -> stored st s0 -> stored st' s0.
Proof.
  intros Hg Hf Hr Hs Hgen Hrev HS (r0 & s' & Hc & Hs' & Hb).
  assert (content st' = content st \/ content st' = Some r) as [E|E].
  { destruct res as [[]|e]; [right; by eapply save_ok | by eapply save_err]. }
  - exists r0, s'. by rewrite E.
  - exists r, s. split_and!; try done.
    destruct (Hg Hf) as [[? _]|(Hc' & Hcur & _)]; [congruence|].
    assert (s' = current g) as -> by congruence.
    transitivity (current g); [done | by apply behind_newer].
Qed.

Lemma Open_inv ks inst min st f g :
  fst (Open ks inst min st f) = Some g -> gate_inv g st.
Proof.
  unfold Open. case_if as E0; [done|]. destruct (Load st f) as [r|e] eqn:El.
  - destruct (verify _ r) as [s|e] eqn:Ev; simpl; intros [= <-] Hf; [|done].
    apply verify_inv in Ev. right. simpl. split_and!; [by eapply load_ok | apply Ev |].
    eapply structural_gen, Ev.
  - destruct e; simpl; intros [= <-] Hf; try done. left. split; [by eapply load_empty | done].
Qed.

Lemma gstep_inv y o : sys_inv y -> sys_inv (gstep y o).
Proof.
  intros [Hg Hs Hsort]. destruct o as [r now f|now|ks inst min f]; simpl.
  - unfold Apply. destruct (gate y) as [g|] eqn:Eg; [|by constructor; simpl].
    specialize (Hg g eq_refl). pose proof (applyLocked_cases g (store y) r now f) as Hc.
    destruct (applyLocked g (store y) r now f) as [[g' st'] res].
    destruct Hc as [(-> & Hg' & _)|(s & Hf & _ & Hv & _ & Hgen & Hrev & _ & Hsave)]; constructor; simpl; try done.
    + intros g0 [= <-]. destruct Hg' as [-> | ->]; [done | by apply gate_inv_clock].
    + intros g0 [= <-]. destruct Hsave as [(_ & Hfl & _)|(_ & HS & ->)]; [by intros ?; congruence|].
      intros _. right. simpl. split_and!; [eapply save_ok; [apply Hv | done] | apply Hv | eapply structural_gen, Hv].
    + intros s0 Hs0. destruct Hsave as [(_ & _ & e & HS)|(_ & HS & _)];
        (eapply (stored_save g); [done | done | apply Hv | apply Hv | done | done | exact HS | by apply Hs]).
  - unfold Current. destruct (gate y) as [g|] eqn:Eg; [|constructor; simpl; rewrite ?app_nil_r; auto].
    specialize (Hg g eq_refl). pose proof (currentLocked_cases g now) as Hc.
    destruct (currentLocked g now) as [g' res]. destruct Hc as [Hg' Hok].
    assert (gate_inv g' (store y)) as Hgi by (destruct Hg' as [-> | ->]; [done | by apply gate_inv_clock]).
    destruct res as [s|e]; simpl; [|constructor; simpl; rewrite ?app_nil_r; auto; naive_solver].
    destruct (Hok s eq_refl) as (Hf & _ & _ & -> & _ & Hne).
    destruct (Hg Hf) as [[_ ?]|(Hcont & Hsnap & _)]; [lia|].
    assert (forall s0, s0 ∈ served y -> behind s0 (current g)) as Hall.
    { intros s0 Hs0. destruct (Hs s0 Hs0) as (r0 & s' & ? & ? & ?).
      by assert (s' = current g) as <- by congruence. }
    constructor; simpl; [naive_solver | |].
    + intros s0. rewrite elem_of_app, list_elem_of_singleton. intros [?| ->]; [by apply Hs|].
      exists (raw g), (current g). by split_and!.
    + apply StronglySorted_app_2; [|done|repeat constructor].
      intros a b Ha Hb. apply list_elem_of_singleton in Hb as ->. by apply Hall.
  - constructor; simpl; [intros g Hg'; by eapply Open_inv | done | done].
Qed.

(** ** Trust of the snapshot in memory *)

Definition gate_trusted (g : Gate) : Prop :=
  failed g = false -> Generation (current g) <> 0 -> verified g (raw g) (current g).

Lemma verified_ext g g' r s :
  keys g' = keys g -> installation g' = installation g -> minimum g' = minimum g ->
  verified g r s -> verified g' r s.
Proof. intros E1 E2 E3 [? ? ? ? ? ? ?]. constructor; rewrite ?E1, ?E2, ?E3; done. Qed.

Lemma gate_trusted_clock g now : gate_trusted g -> gate_trusted (fst (clock g now)).
Proof.
  unfold gate_trusted. destruct (clock_frame g now) as (E1 & E2 & E3 & -> & -> & ->).
  intros Hg Hf Hn. by eapply verified_ext; [| | |apply Hg].
Qed.

Lemma gstep_trusted y o :
  (forall g, gate y = Some g -> gate_trusted g) -> forall g, gate (gstep y o) = Some g -> gate_trusted g.
Proof.
  intros Ht. destruct o as [r now f|now|ks inst min f]; simpl.
  - unfold Apply. destruct (gate y) as [g|]; [|done]. specialize (Ht g eq_refl).
    pose proof (applyLocked_cases g (store y) r now f) as Hc.
    destruct (applyLocked g (store y) r now f) as [[g' st'] res]. intros g0 [= <-].
    destruct Hc as [(_ & Hg' & _)|(s & Hf & _ & Hv & _ & _ & _ & _ & Hsave)].
    + destruct Hg' as [-> | ->]; [done | by apply gate_trusted_clock].
    + destruct Hsave as [(_ & Hfl & _)|(_ & _ & ->)]; [by intros ?; congruence|].
      intros _ _. simpl. by eapply verified_ext; [| | |exact Hv].
  - unfold Current. destruct (gate y) as [g|]; [|done]. specialize (Ht g eq_refl).
    pose proof (currentLocked_cases g now) as Hc. destruct (currentLocked g now) as [g' res].
    intros g0 [= <-]. destruct Hc as [[-> | ->] _]; [done | by apply gate_trusted_clock].
  - intros g. unfold Open. case_if as E; [done|]. destruct (Load (store y) f) as [r|e].
    + destruct (verify _ r) as [s|e] eqn:Ev; simpl; intros [= <-] Hf Hn; [|done].
      apply verify_inv in Ev. by eapply verified_ext; [| | |exact Ev].
    + destruct e; simpl; intros [= <-] Hf Hn; done.
Qed.

Lemma grun_trusted y ops :
  (forall g, gate y = Some g -> gate_trusted g) -> forall g, gate (grun y ops) = Some g -> gate_trusted g.
Proof.
  intros Hy. unfold grun.
  apply (fold_left_ind (fun y => forall g, gate y = Some g -> gate_trusted g)); [done|].
  intros b o _ Hb. by apply gstep_trusted.
Qed.

(** ** The clock quarantine *)

Definition no_restart (o : gop) : Prop := match o with GRestart _ _ _ _ => False | _ => True end.

(** A snapshot accepted after the mark [m], newer than generation [n]. *)
Definition reopened (n m : Z) (ops : list gop) : Prop :=
  exists r now f s, GApply r now f ∈ ops /\ snapshot_of r = Some s /\ n < Generation s /\ m <= IssuedAt s.

(** A gate that was quarantined at mark [m] with generation [n] in force. *)
Definition held (n m : Z) (ops : list gop) (g : Gate) : Prop :=
  failed g = true \/
  (clockHold g = true /\ Generation (current g) = n /\ m <= recoveryAfter g /\ m <= lastClock g) \/
  (n < Generation (current g) /\ reopened n m ops).

Lemma held_clock n m ops g now : held n m ops g -> held n m ops (fst (clock g now)).
Proof.
  unfold held, clock. case_if as E; simpl; [naive_solver|]. to_prop. naive_solver lia.
Qed.

Lemma reopened_more n m ops o : reopened n m ops -> reopened n m (ops ++ [o]).
Proof. intros (r & now & f & s & Hin & ?). exists r, now, f, s. rewrite elem_of_app. auto. Qed.

Lemma held_more n m ops o g : held n m ops g -> held n m (ops ++ [o]) g.
Proof. unfold held. pose proof (reopened_more n m ops o). naive_solver. Qed.

Lemma gstep_held n m ops o y g :
  no_restart o -> gate y = Some g -> held n m ops g ->
  exists g', gate (gstep y o) = Some g' /\ held n m (ops ++ [o]) g'.
Proof.
  intros Ho Eg Hh. apply (held_more _ _ _ o) in Hh. destruct o as [r now f|now|]; simpl; [| |done].
  - unfold Apply. rewrite Eg. pose proof (applyLocked_cases g (store y) r now f) as Hc.
    destruct (applyLocked g (store y) r now f) as [[g' st'] res]. exists g'. split; [done|].
    destruct Hc as [(_ & Hg' & _)|(s & Hf & _ & Hv & _ & Hgen & _ & Hrec & Hsave)].
    + destruct Hg' as [-> | ->]; [done | by apply held_clock].
    + destruct Hsave as [(_ & Hfl & _)|(_ & _ & ->)]; [by left|]. right. right. simpl.
      destruct Hh as [?|[(Hch & Hn & Hm & _)|(Hn & Hr)]]; [congruence | | split; [lia | done]].
      specialize (Hrec Hch). split; [lia|]. exists r, now, f, s.
      rewrite elem_of_app, list_elem_of_singleton. split_and!; [by right | apply Hv | lia | lia].
  - unfold Current. rewrite Eg. pose proof (currentLocked_cases g now) as Hc.
    destruct (currentLocked g now) as [g' res]. exists g'. split; [done|].
    destruct Hc as [[-> | ->] _]; [done | by apply held_clock].
Qed.

Lemma grun_held n m pre ops y g :
  Forall no_restart ops -> gate y = Some g -> held n m pre g ->
  exists g', gate (grun y ops) = Some g' /\ held n m (pre ++ ops) g'.
Proof.
  intros Hops. revert pre y g. induction Hops as [|o ops Ho _ IH]; intros pre y g Eg Hh; simpl.
  { exists g. by rewrite app_nil_r. }
  destruct (gstep_held n m pre o y g Ho Eg Hh) as (g1 & E1 & H1').
  destruct (IH (pre ++ [o]) _ g1 E1 H1') as (g2 & E2 & H2'). exists g2.
  by rewrite <- app_assoc in H2'.
Qed.

Lemma grun_inv y ops : sys_inv y -> sys_inv (grun y ops).
Proof. intros Hy. unfold grun. apply fold_left_ind; [done|]. intros. by apply gstep_inv. Qed.
End gate.

Arguments GApply {Fault} _ _ _.
Arguments GCurrent {Fault} _.
Arguments GRestart {Fault} _ _ _ _.
Arguments mkSystem {St} _ _ _.

(** ** The stores *)

(** [MemoryStore]: the empty string is no content; nothing fails. *)
Definition MemoryStore : Type := string.

#[global] Instance memory_store : Store MemoryStore unit := {|
  Load st _ := if len st =? 0 then Err ErrEmpty else Ok st;
  Save _ r _ := (r, Ok tt);
  content st := if len st =? 0 then None else Some st
|}.

#[global] Instance memory_store_laws : StoreLaws MemoryStore unit.
Proof.
  constructor; simpl.
  - intros st _ r. case_if as E; [done|]. by intros [= ->].
  - intros st _. by case_if as E.
  - intros st r _ st' Hr [= <-]. by destruct (Z.eqb_spec (len r) 0).
  - done.
Qed.

(** [FileStore]: a directory with the snapshot file and temporary files. *)
Record file := mkFile { fRegular : bool; fPerm : Z; fData : string }.
Record FileStore := mkFiles { dirOK : bool; snapshotFile : option file; temps : gmap string string }.

(** The system call that fails, if any; a failing write may leave a prefix. *)
Inductive os_fault :=
  | NoFault | StatFails | LstatFails | OpenFails | ReadFails | CreateFails | WriteFails (partial : string)
  | SyncFails | CloseFails | RenameFails | DirOpenFails | DirSyncFails.

#[global] Instance os_fault_eq_dec : EqDecision os_fault.
Proof. solve_decision. Defined.

(** A fault together with the random name of the temporary file. *)
Record os := mkOS { osFault : os_fault; osName : string }.

Definition faulty (o : os) (f : os_fault) : bool := bool_decide (osFault o = f).

Definition check (st : FileStore) (o : os) : result error unit :=
  if faulty o StatFails || negb (dirOK st) then Err ErrPersistence else
  match snapshotFile st with
  | None => if faulty o LstatFails then Err ErrPersistence else Err ErrEmpty
  | Some fl =>
      if faulty o LstatFails || negb (fRegular fl) || negb (fPerm fl =? 384) || (MaxSnapshotBytes <? len (fData fl))
      then Err ErrPersistence else Ok tt
  end.

Definition file_Load (st : FileStore) (o : os) : result error string :=
  match check st o with
  | Err e => Err e
  | Ok _ =>
      if faulty o OpenFails then Err ErrPersistence else
      match snapshotFile st with
      | None => Err ErrPersistence
      | Some fl =>
          if faulty o ReadFails || (MaxSnapshotBytes <? len (fData fl)) then Err ErrPersistence else Ok (fData fl)
      end
  end.

(** The deferred removal of the temporary file. *)
Definition remove_temp (st : FileStore) (o : os) : FileStore :=
  mkFiles (dirOK st) (snapshotFile st) (delete (osName o) (temps st)).
Definition with_temp (st : FileStore) (o : os) (data : string) : FileStore :=
  mkFiles (dirOK st) (snapshotFile st) (<[osName o := data]> (temps st)).
Definition renamed (st : FileStore) (r : string) : FileStore :=
  mkFiles (dirOK st) (Some (mkFile true 384 r)) (temps st).

Definition file_Save (st : FileStore) (r : string) (o : os) : FileStore * result error unit :=
  if (len r =? 0) || (MaxSnapshotBytes <? len r) then (st, Err ErrPersistence) else
  match check st o with
  | Err ErrEmpty | Ok _ =>
      if faulty o CreateFails || bool_decide (is_Some (temps st !! osName o)) then (st, Err ErrPersistence) else
      match osFault o with
      | WriteFails p => (remove_temp (with_temp st o p) o, Err ErrPersistence)
      | SyncFails | CloseFails | RenameFails => (remove_temp (with_temp st o r) o, Err ErrPersistence)
      | DirOpenFails | DirSyncFails => (remove_temp (renamed st r) o, Err ErrPersistence)
      | _ => (remove_temp (renamed st r) o, Ok tt)
      end
  | Err e => (st, Err e)
  end.

#[global] Instance file_store : Store FileStore os := {|
  Load := file_Load;
  Save := file_Save;
  content st := fData <$> snapshotFile st
|}.

#[global] Instance file_store_laws : StoreLaws FileStore os.
Proof.
  constructor; simpl.
  - intros st f r. unfold file_Load. destruct (check st f); [|done]. case_if as E1; [done|].
    destruct (snapshotFile st); [|done]. case_if as E2; [done|]. by intros [= <-].
  - intros st f. unfold file_Load. destruct (check st f) as [|e] eqn:Ec.
    + case_if as E1; [done|]. destruct (snapshotFile st); [|done]. by case_if as E2.
    + intros [= ->]. unfold check in Ec. destruct (_ || _) in Ec; [done|].
      destruct (snapshotFile st); [|done]. by destruct (_ || _) in Ec.
  - intros st r f st' _. unfold file_Save. case_if as E1; [done|].
    destruct (check st f) as [|[]]; try done; (case_if as E2; [done|]);
      destruct (osFault f); intros [= <-]; done.
  - intros st r f st' e _. unfold file_Save. case_if as E1; [naive_solver|].
    destruct (check st f) as [|[]]; try naive_solver; (case_if as E2; [naive_solver|]);
      destruct (osFault f); intros [= <- _]; simpl; auto.
Qed.

(** ** Properties *)

Section properties.
Context `{Codec Snapshot} `{Codec envelope} `{Ed25519}.
Context (json_Valid validate : string -> bool).
Context `{StoreLaws St Fault}.

(** The process starts without a gate; its first operation is a restart. *)
Definition boot (st : St) : system := mkSystem None st [].

Lemma boot_inv st : sys_inv (boot st).
Proof. constructor; simpl; [done | intros s Hs; by apply elem_of_nil in Hs | constructor]. Qed.

(** C35: the configuration never rolls back. In every history of applications,
    reads, restarts and storage faults, over any store that keeps the
    contract, the snapshots served have non-decreasing generation and
    revision, and one generation is one snapshot. *)
Theorem served_never_rolls_back (st : St) ops : StronglySorted behind (served (grun json_Valid validate (boot st) ops)).
Proof. apply (i_sorted _ (grun_inv _ _ _ ops (boot_inv st))). Qed.

(** Only a trusted and current configuration is served. When a read
    succeeds in any history, the snapshot was verified against a key of the
    gate, the gate's installation and minimum generation and the validator,
    its envelope is what the store holds, and the clock is inside its
    validity and not behind any clock the process has seen. *)
Lemma served_is_trusted (st : St) ops now g s :
  gate (grun json_Valid validate (boot st) ops) = Some g -> snd (Current (Some g) now) = Ok s ->
  verified json_Valid validate g (raw g) s /\ content (store (grun json_Valid validate (boot st) ops)) = Some (raw g) /\
  IssuedAt s <= Unix now < ExpiresAt s /\ lastClock g <= Unix now /\ clockHold g = false.
Proof.
  intros Eg HC. pose proof (i_gate _ (grun_inv json_Valid validate _ ops (boot_inv st)) g Eg) as Hi.
  assert (gate_trusted json_Valid validate g) as Ht by (eapply (grun_trusted json_Valid validate (boot st) ops); [done | exact Eg]).
  unfold Current in HC. pose proof (currentLocked_cases g now) as Hc.
  destruct (currentLocked g now) as [g' res]. simpl in HC. subst res.
  destruct Hc as [_ Hc]. destruct (Hc s eq_refl) as (Hf & Hl & Hh & -> & Hw & Hn).
  destruct (Hi Hf) as [[_ ?]|(Hcont & _)]; [done|]. split_and!; try done; try lia. by apply Ht.
Qed.

(** A clock that moves backwards quarantines the gate. Once a reading at
    or after [m] was seen and the clock then went back, no later operation of
    the process serves a snapshot unless a strictly newer one issued at or
    after [m] was applied in between; replaying old publications or waiting
    does not reopen it. *)
Lemma clock_rollback_quarantine (y : @system St) g back ops now g' s :
  gate y = Some g -> Unix back < lastClock g -> Forall no_restart ops ->
  let y1 := grun json_Valid validate (gstep json_Valid validate y (GCurrent back)) ops in
  gate y1 = Some g' -> snd (Current (Some g') now) = Ok s ->
  reopened (Generation (current g)) (lastClock g) ops /\ Generation (current g) < Generation s.
Proof.
  intros Eg Hb Hops y1 Eg' HC.
  assert (exists g1, gate (gstep json_Valid validate y (GCurrent back)) = Some g1 /\
            held (Generation (current g)) (lastClock g) ([] : list (@gop Fault)) g1) as (g1 & E1 & Hh1).
  { simpl. unfold Current. rewrite Eg. unfold currentLocked. destruct (failed g) eqn:Hf.
    - exists g. split; [done | by left].
    - unfold clock. rewrite (proj2 (Z.ltb_lt _ _) Hb). simpl. eexists. split; [done|].
      right. left. simpl. split_and!; (done || lia). }
  destruct (grun_held json_Valid validate _ _ [] ops _ g1 Hops E1 Hh1) as (g2 & E2 & Hh2).
  fold y1 in E2. rewrite Eg' in E2. injection E2 as <-. simpl in Hh2.
  unfold Current in HC. pose proof (currentLocked_cases g' now) as Hc.
  destruct (currentLocked g' now) as [g3 res]. simpl in HC. subst res. destruct Hc as [_ Hc].
  destruct (Hc s eq_refl) as (Hf & _ & Hch & -> & _).
  destruct Hh2 as [?|[(? & _)|(Hn & Hr)]]; [congruence | congruence | done].
Qed.

(** An uncertain save closes the process. If saving a new snapshot fails,
    nothing is applied or served afterwards until the process restarts. *)
Lemma uncertain_save_latches (y : @system St) g r now f ops :
  gate y = Some g ->
  snd (applyLocked json_Valid validate g (store y) r now f) = Err ErrPersistence ->
  Forall no_restart ops ->
  exists g', gate (grun json_Valid validate (gstep json_Valid validate y (GApply r now f)) ops) = Some g' /\
    failed g' = true /\ served (grun json_Valid validate (gstep json_Valid validate y (GApply r now f)) ops) = served y /\
    forall t, snd (Current (Some g') t) = Err ErrUnavailable.
Proof.
  intros Eg HA Hops.
  pose proof (applyLocked_cases json_Valid validate g (store y) r now f) as Hc. simpl. unfold Apply. rewrite Eg.
  destruct (applyLocked json_Valid validate g (store y) r now f) as [[g1 st1] res] eqn:EA.
  simpl in HA. subst res.
  assert (failed g1 = true) as Hf1.
  { clear Hc. unfold applyLocked in EA. repeat split_if; simplify_eq.
    destruct (clock g now) as [g0 ok]. destruct ok; simpl in EA; [|by simplify_eq].
    destruct (verify json_Valid validate g0 r) as [s|e] eqn:Ev; [|].
    - repeat split_if; simplify_eq. destruct (Save (store y) r f) as [st' [[]|e]]; by simplify_eq.
    - unfold verify in Ev. repeat (case_match; simplify_eq); done. }
  clear Hc EA. set (y1 := mkSystem (Some g1) st1 (served y)).
  enough (forall y2, gate y2 = Some g1 -> served y2 = served y -> gate (grun json_Valid validate y2 ops) = Some g1 /\ served (grun json_Valid validate y2 ops) = served y)
    as HE.
  { destruct (HE y1 eq_refl eq_refl) as [HG HS]. exists g1. split_and!; [done | done | done |].
    intros t. simpl. unfold currentLocked. by rewrite Hf1. }
  clear y1. induction Hops as [|o ops Ho _ IH]; intros y2 Eg2 Es2; simpl; [done|].
  apply IH; destruct o; try done; simpl; unfold Apply, Current; rewrite Eg2; unfold applyLocked, currentLocked;
    rewrite Hf1; simpl; by rewrite ?app_nil_r.
Qed.
End properties.

(** What Control signs a gate accepts: a snapshot signed with a private key
    verifies, unchanged, at any gate that trusts the public key under the
    snapshot's key identifier, belongs to the installation, asks for no later
    generation and whose validator takes the payload. *)
Lemma verify_Sign `{Codec Snapshot} `{Codec envelope} (cs : Snapshot -> Prop) (ce : envelope -> Prop)
    `{!CodecLaws Snapshot cs} `{!CodecLaws envelope ce} `{Ed25519} `{!Ed25519Laws}
    json_Valid validate g key s r :
  Sign json_Valid key s = Ok r -> cs s -> (forall sig, ce (mkEnvelope (marshal s) sig)) -> len r <> 0 ->
  keys g !! Kid s = Some (PublicOf key) -> Installation s = installation g -> minimum g <= Generation s ->
  validate (Payload s) = true -> verify json_Valid validate g r = Ok s.
Proof.
  intros HS Hcs Hce Hr Hk Hi Hm Hv. unfold Sign in HS. destruct (len key =? PrivateKeySize) eqn:El; [|done].
  destruct (structural json_Valid s) eqn:Est; [|done]. simpl in HS. apply Z.eqb_eq in El.
  destruct (Z.ltb_spec MaxSnapshotBytes (len (marshal (mkEnvelope (marshal s)
    (base64.EncodeToString (ed_sign key (domain +:+ marshal s))))))) as [|Hlen]; [done|].
  injection HS as <-. unfold verify.
  rewrite (proj2 (Z.eqb_neq _ _) Hr), (proj2 (Z.ltb_ge _ _) Hlen). simpl orb. cbv iota.
  unfold strict. rewrite (decode_strict_marshal _ (Hce _)), String.eqb_refl. simpl eSnapshot.
  rewrite (decode_strict_marshal _ Hcs), String.eqb_refl, Est, Hi, String.eqb_refl.
  rewrite (proj2 (Z.ltb_ge _ _) Hm). simpl eSignature. rewrite base64.Decode_Encode. cbn [negb orb].
  rewrite Hk. simpl default. rewrite (PublicOf_len _ El), String.eqb_refl, (ed_correct key _ El), Hv. done.
Qed.

(** ** A concrete publication for the witnesses *)

Definition wit_s1 : Snapshot := mkSnapshot 1 "local" 1 1 1000 2000 "k" "{}".
Definition wit_s2 : Snapshot := mkSnapshot 1 "local" 2 1 1500 3000 "k" "{}".

Definition wit_snapshot_codec : Codec Snapshot :=
  {| marshal s := if decide (s = wit_s1) then "1" else if decide (s = wit_s2) then "2" else "0";
     GoStd.decode r := if String.eqb r "1" then Some (wit_s1, "")
                 else if String.eqb r "2" then Some (wit_s2, "") else None |}.
Definition wit_envelope_codec : Codec envelope :=
  {| marshal e := eSnapshot e +:+ eSignature e;
     GoStd.decode r := Some (mkEnvelope (str_take 1 r) (str_drop 1 r), "") |}.
Definition wit_ed : Ed25519 :=
  {| ed_sign key msg := PublicOf key +:+ msg;
     ed_verify key msg sig := String.eqb sig (key +:+ msg);
     NewKeyFromSeed seed := seed +:+ seed |}.
Definition wit_key : string := "0123456789abcdef0123456789abcdefFEDCBA9876543210FEDCBA9876543210".
Definition wit_any (_ : string) : bool := true.

Lemma wit_envelope_laws : @CodecLaws envelope wit_envelope_codec (fun e => String.length (eSnapshot e) = 1%nat).
Proof.
  intros [p q] Hp. cbn [eSnapshot] in Hp.
  change (Some (mkEnvelope (str_take 1 (p +:+ q)) (str_drop 1 (p +:+ q)), "") = Some (mkEnvelope p q, "")).
  rewrite <- Hp. by rewrite str_take_app, str_drop_app.
Qed.
Lemma wit_gate_ed_laws : @Ed25519Laws wit_ed.
Proof. intros key msg Hk. apply String.eqb_refl. Qed.

Definition wit_raw (s : Snapshot) : string :=
  match @Sign wit_snapshot_codec wit_envelope_codec wit_ed wit_any wit_key s with Ok r => r | Err _ => "" end.
Definition wit_keys : gmap string string := {["k" := PublicOf wit_key]}.
Definition wit_os (f : os_fault) : os := mkOS f "tmp".
Definition wit_files : FileStore := mkFiles true None ∅.

Definition wit_grun := @grun wit_snapshot_codec wit_envelope_codec wit_ed wit_any wit_any FileStore os file_store.
Definition wit_gstep := @gstep wit_snapshot_codec wit_envelope_codec wit_ed wit_any wit_any FileStore os file_store.

Definition wit_start : list (@gop os) :=
  [GRestart wit_keys "local" 1 (wit_os NoFault); GApply (wit_raw wit_s1) (1600 * Second) (wit_os NoFault);
   GCurrent (1600 * Second)].

Lemma served_never_rolls_back_witness :
  let y := wit_grun (boot wit_files) (wit_start ++
    [GApply (wit_raw wit_s2) (1700 * Second) (wit_os DirSyncFails); GRestart wit_keys "local" 1 (wit_os NoFault);
     GApply (wit_raw wit_s1) (1700 * Second) (wit_os NoFault); GCurrent (1700 * Second)]) in
  StronglySorted behind (served y) /\ served y = [wit_s1; wit_s2].
Proof.
  intros y. split; [|by vm_compute].
  apply (@served_never_rolls_back wit_snapshot_codec wit_envelope_codec wit_ed wit_any wit_any
    FileStore os file_store file_store_laws wit_files).
Defined.

End configtrust.
