(* ===== verification/Control.v ===== *)
(** * Operator configuration: [src/internal/control/config.go] and [runtime.go]

    Module [control] translates the typed configuration, its validation, route
    matching, the runtime state of a room, the delivery that is signed, and
    the schedule of an event. [url.Parse] and the logo check are parameters.
    A slice that the code tells apart from nil is an option. *)

From S2P Require Import Prelude GoStd QueueModel.
From stdpp Require Import base list strings.
From Stdlib Require Import ZArith Lia Ascii String.

Module control.
Local Open Scope Z_scope.

Inductive error := ErrInvalid | ErrConflict.

Record Limits := mkLimits {
  MaxActiveAdmissionLeases : Z; AdmissionsPerMinute : Z; AdmissionTTLSeconds : Z
}.
Record QueuePolicy := mkPolicy {
  Kind : string; TicketIdleTTLSeconds : Z; TicketMaxTTLSeconds : Z; ReadyTTLSeconds : Z
}.
Record Theme := mkTheme {
  TemplateID : string; Title : string; Message : string; PrimaryColor : string; Locale : string;
  ShowEstimatedWait : bool; LogoImage : string
}.
Record Room := mkRoom {
  ID : string; PublicID : string; Name : string; Hostname : string; Origin : string; HealthURL : string;
  ProtectPrefixes : list string; ExcludePrefixes : option (list string);
  QPolicy : QueuePolicy; RLimits : Limits; RTheme : Theme; Active : bool
}.
Record Config := mkConfig {
  SchemaVersion : Z; Revision : Z; Profile : string; RegionID : string; Rooms : option (list Room)
}.

Definition rooms (c : Config) : list Room := default [] (Rooms c).
Definition excludes (r : Room) : list string := default [] (ExcludePrefixes r).

(** ** Patterns *)

Definition in_range (lo hi : Z) (a : ascii) : bool := (lo <=? byte_of a) && (byte_of a <=? hi).
Definition is_lower : ascii -> bool := in_range 97 122.
Definition is_digit : ascii -> bool := in_range 48 57.
Definition chars (s : string) : list ascii := list_ascii_of_string s.

(** [^[a-z][a-z0-9_-]{0,63}$]. *)
Definition IDPattern (s : string) : bool :=
  match chars s with
  | a :: r => is_lower a && (Z.of_nat (List.length r) <=? 63) &&
              forallb (fun c => is_lower c || is_digit c || in_range 95 95 c || in_range 45 45 c) r
  | [] => false
  end.
(** [^[a-z2-7]{20}$]. *)
Definition publicIDPattern (s : string) : bool :=
  (len s =? 20) && forallb (fun c => is_lower c || in_range 50 55 c) (chars s).
(** [^[a-z][a-z0-9-]{0,62}$]. *)
Definition regionPattern (s : string) : bool :=
  match chars s with
  | a :: r => is_lower a && (Z.of_nat (List.length r) <=? 62) &&
              forallb (fun c => is_lower c || is_digit c || in_range 45 45 c) r
  | [] => false
  end.
(** [^#[a-fA-F0-9]{6}$]. *)
Definition colorPattern (s : string) : bool :=
  match chars s with
  | a :: r => Ascii.eqb a "#" && (Z.of_nat (List.length r) =? 6) &&
              forallb (fun c => in_range 97 102 c || in_range 65 70 c || is_digit c) r
  | [] => false
  end.

Definition Limits_Validate (l : Limits) (profile : string) : result error unit :=
  let check cap rate :=
    if (MaxActiveAdmissionLeases l <? 1) || (cap <? MaxActiveAdmissionLeases l) ||
       (AdmissionsPerMinute l <? 1) || (rate <? AdmissionsPerMinute l) ||
       (AdmissionTTLSeconds l <? 60) || (3600 <? AdmissionTTLSeconds l)
    then Err ErrInvalid else Ok tt in
  if String.eqb profile "high-scale-100k" then check 100000 60000
  else if negb (String.eqb profile "standard-10k") then Err ErrInvalid
  else check 10000 6000.

(** [plain]: valid UTF-8 of at most [max] runes, no markup or control characters. *)
Definition plain (s : string) (max : Z) (multiline : bool) : bool :=
  match utf8.runes s with
  | None => false
  | Some cs =>
      (Z.of_nat (List.length cs) <=? max) &&
      forallb (fun c => negb ((c =? 60) || (c =? 62) ||
                 (utf8.IsControl c && negb (multiline && ((c =? 10) || (c =? 9)))))) cs
  end.

(** [strings.TrimSpace(s) == ""] on valid text. *)
Definition blank (s : string) : bool :=
  match utf8.runes s with Some cs => forallb utf8.IsSpace cs | None => false end.

(** Every label is ASCII, so [host != strings.ToLower(host)] is the presence of
    an upper-case ASCII letter. *)
Definition ValidHostname (host : string) : bool :=
  negb ((len host =? 0) || (253 <? len host) || existsb (in_range 65 90) (chars host)) &&
  forallb (fun label =>
    negb ((len label =? 0) || (63 <? len label)) &&
    match chars label with a :: _ => negb (in_range 45 45 a) | [] => true end &&
    match rev (chars label) with a :: _ => negb (in_range 45 45 a) | [] => true end &&
    forallb (fun c => is_lower c || is_digit c || in_range 45 45 c) (chars label))
  (strs.split_byte "." host).

(** [strings.Contains(p, "//")]. *)
Fixpoint double_slash (l : list ascii) : bool :=
  match l with
  | a :: ((b :: _) as r) => (Ascii.eqb a "/" && Ascii.eqb b "/") || double_slash r
  | _ => false
  end.

Definition bad_path_char (a : ascii) : bool :=
  let c := byte_of a in
  (c <=? 32) || (127 <=? c) || (c =? 37) || (c =? 92) || (c =? 63) || (c =? 35) || (c =? 59).

Definition ValidPath (p : string) : bool :=
  match p with
  | EmptyString => false
  | String a _ =>
      negb ((2048 <? len p) || negb (Ascii.eqb a "/") || double_slash (chars p)) &&
      negb (existsb bad_path_char (chars p)) &&
      negb (existsb (fun s => String.eqb s "." || String.eqb s "..") (strs.split_byte "/" p))
  end.

(** [strings.TrimSuffix(s, "/")]. *)
Fixpoint trim_slash (s : string) : string :=
  match s with
  | EmptyString => EmptyString
  | String a EmptyString => if Ascii.eqb a "/" then EmptyString else s
  | String a r => String a (trim_slash r)
  end.

Definition PrefixMatches (prefix path : string) : bool :=
  let prefix := trim_slash prefix in
  String.eqb prefix "" || String.eqb path prefix || strs.HasPrefix path (prefix +:+ "/").

Definition reserved (p : string) : bool := PrefixMatches "/_wr" p || PrefixMatches "/api/admin" p.

(** A parsed URL, with the parts the code reads. *)
Record URL := mkURL {
  Scheme : string; User : bool; Host : string; UHostname : string; Port : string; Path : string;
  RawPath : string; RawQuery : string; ForceQuery : bool; Fragment : string; Opaque : string
}.

(** [strconv.Atoi] and [strconv.Itoa] round trip: canonical decimal in range. *)
Definition port_ok (p : string) : bool :=
  match chars p with
  | [] => true
  | a :: r =>
      forallb is_digit (a :: r) && negb (Ascii.eqb a "0") && (Z.of_nat (List.length r) <=? 4) &&
      (fold_left (fun n c => n * 10 + (byte_of c - 48)) (a :: r) 0 <=? 65535)
  end.

Section validate.
(** [url.Parse] and [LogoBytes] succeeding. *)
Context (url_Parse : string -> option URL) (logo_ok : string -> bool).

Definition validOrigin (raw : string) : option URL :=
  match url_Parse raw with
  | None => None
  | Some u =>
      if negb (String.eqb (Scheme u) "https") || User u || negb (ValidHostname (UHostname u)) ||
         negb (String.eqb (Fragment u) "") || negb (String.eqb (RawQuery u) "") || ForceQuery u ||
         negb (String.eqb (Opaque u) "") || negb (String.eqb (RawPath u) "") || negb (port_ok (Port u))
      then None else Some u
  end.

(** The loop over one prefix list with its map [seen]. *)
Fixpoint prefixes_ok (seen : list string) (ps : list string) : bool :=
  match ps with
  | [] => true
  | p :: ps' =>
      let canonical := trim_slash p in
      ValidPath p && negb (reserved p) && negb (bool_decide (canonical ∈ seen)) &&
      prefixes_ok (canonical :: seen) ps'
  end.

Definition policy_ok (p : QueuePolicy) : bool :=
  negb (negb (String.eqb (Kind p) "fifo") || (TicketIdleTTLSeconds p <? 60) || (600 <? TicketIdleTTLSeconds p) ||
        (TicketMaxTTLSeconds p <? 600) || (86400 <? TicketMaxTTLSeconds p) ||
        (TicketMaxTTLSeconds p <? TicketIdleTTLSeconds p) || (ReadyTTLSeconds p <? 1) || (120 <? ReadyTTLSeconds p)).

Definition theme_ok (t : Theme) : bool :=
  negb (negb (String.eqb (TemplateID t) "calm") || negb (plain (Title t) 120 false) ||
        negb (plain (Message t) 1000 true) || negb (colorPattern (PrimaryColor t)) ||
        (negb (String.eqb (Locale t) "ko") && negb (String.eqb (Locale t) "en"))).

Definition Room_Validate (r : Room) (profile : string) : result error unit :=
  if negb (IDPattern (ID r)) || negb (publicIDPattern (PublicID r)) || blank (Name r) ||
     negb (plain (Name r) 120 false) || negb (ValidHostname (Hostname r)) then Err ErrInvalid else
  match validOrigin (Origin r) with
  | None => Err ErrInvalid
  | Some origin =>
      if (negb (String.eqb (Path origin) "") && negb (String.eqb (Path origin) "/")) ||
         String.eqb (UHostname origin) (Hostname r) then Err ErrInvalid else
      match validOrigin (HealthURL r) with
      | None => Err ErrInvalid
      | Some health =>
          if negb (String.eqb (Host health) (Host origin)) || negb (ValidPath (Path health)) then Err ErrInvalid else
          match ExcludePrefixes r with
          | None => Err ErrInvalid
          | Some ex =>
              let np := Z.of_nat (List.length (ProtectPrefixes r)) in
              if (np =? 0) || (32 <? np) || (32 <? Z.of_nat (List.length ex)) then Err ErrInvalid else
              if negb (prefixes_ok [] (ProtectPrefixes r)) || negb (prefixes_ok [] ex) then Err ErrInvalid else
              if negb (policy_ok (QPolicy r)) then Err ErrInvalid else
              if negb (is_ok (Limits_Validate (RLimits r) profile)) then Err ErrInvalid else
              if negb (theme_ok (RTheme r)) then Err ErrInvalid else
              if negb (logo_ok (LogoImage (RTheme r))) then Err ErrInvalid else Ok tt
          end
      end
  end.

(** Two active rooms of a host with related protect prefixes. *)
Definition conflict (r other : Room) : bool :=
  Active other && String.eqb (Hostname other) (Hostname r) &&
  existsb (fun a => existsb (fun b => PrefixMatches a b || PrefixMatches b a) (ProtectPrefixes other))
    (ProtectPrefixes r).

(** The loop of [Config.Validate]; [before] are the rooms already checked, in order. *)
Fixpoint rooms_ok (profile : string) (before rs : list Room) : result error unit :=
  match rs with
  | [] => Ok tt
  | r :: rs' =>
      if negb (is_ok (Room_Validate r profile)) || bool_decide (ID r ∈ (ID <$> before)) ||
         bool_decide (PublicID r ∈ (PublicID <$> before)) then Err ErrInvalid else
      if Active r && existsb (conflict r) before then Err ErrConflict else
      rooms_ok profile (before ++ [r]) rs'
  end.

Definition Validate (c : Config) : result error unit :=
  match Rooms c with
  | None => Err ErrInvalid
  | Some rs =>
      if negb (SchemaVersion c =? 1) || (Revision c <? 0) || (9007199254740990 <=? Revision c) ||
         negb (regionPattern (RegionID c)) || (100 <? Z.of_nat (List.length rs)) ||
         (negb (String.eqb (Profile c) "standard-10k") && negb (String.eqb (Profile c) "high-scale-100k"))
      then Err ErrInvalid else rooms_ok (Profile c) [] rs
  end.
End validate.

(** ** Route matching *)

Record Match := mkMatch { Decision : string; RoomID : string; Reason : string }.

(** The first active room of the host with a prefix of [sel] matching the path. *)
Definition find_room (sel : Room -> list string) (host path : string) (rs : list Room) : option Room :=
  List.find (fun r => Active r && String.eqb (Hostname r) host && existsb (fun p => PrefixMatches p path) (sel r)) rs.

Definition MatchURL (c : Config) (host : string) (u : option URL) : Match :=
  match u with
  | None => mkMatch "invalid" "" "noncanonical_url"
  | Some u =>
      if negb (ValidHostname host) || negb (ValidPath (Path u)) || negb (String.eqb (RawPath u) "") ||
         negb (String.eqb (Opaque u) "") then mkMatch "invalid" "" "noncanonical_url" else
      if reserved (Path u) then mkMatch "reserved" "" "internal_namespace" else
      match find_room excludes host (Path u) (rooms c) with
      | Some r => mkMatch "excluded" (ID r) "exclude_prefix"
      | None =>
          match find_room ProtectPrefixes host (Path u) (rooms c) with
          | Some r => mkMatch "protected" (ID r) "protect_prefix"
          | None => mkMatch "unprotected" "" "no_active_rule"
          end
      end
  end.

(** [CheckRoute] of [route_check.go]. *)
Definition MaxRouteURLBytes : Z := 4096.
Definition CheckRoute (url_Parse : string -> option URL) (c : Config) (raw : string) : Match :=
  let invalid := mkMatch "invalid" "" "noncanonical_url" in
  if (len raw =? 0) || (MaxRouteURLBytes <? len raw) ||
     existsb (fun a => in_range 35 35 a || in_range 92 92 a) (chars raw) then invalid else
  match url_Parse raw with
  | None => invalid
  | Some u =>
      if negb (String.eqb (Scheme u) "https") || User u || negb (String.eqb (Opaque u) "") ||
         negb (ValidHostname (UHostname u)) || String.eqb (Host u) "" then invalid else
      if existsb (fun a => (byte_of a <=? 32) || (127 <=? byte_of a)) (chars raw) then invalid else
      if (if String.eqb (Port u) "" then strs.contains_byte ":" (Host u) else negb (port_ok (Port u))) then invalid else
      let u' := if String.eqb (Path u) "" then
        mkURL (Scheme u) (User u) (Host u) (UHostname u) (Port u) "/" (RawPath u) (RawQuery u) (ForceQuery u)
          (Fragment u) (Opaque u) else u in
      MatchURL c (UHostname u') (Some u')
  end.

(** ** Runtime and delivery *)

Record Runtime := mkRuntime {
  rtRevision : Z; rtMode : string; rtLimits : Limits; rtEpoch : Z; rtEventState : string; rtRecoveryUntil : Z
}.
Record RoomRuntime := mkRoomRuntime { rrRoomID : string; rrRuntime : Runtime }.
Record Delivery := mkDelivery { dConfig : Config; dRuntimes : list RoomRuntime }.

Definition modes : list string := ["OFF"; "AUTO"; "HOLD"; "DRAINING"; "RECOVERY_HOLD"].
Definition event_states : list string := ["none"; "scheduled"; "running"; "paused_by_override"].

Definition Runtime_Validate (r : Runtime) (profile : string) : result error unit :=
  if (rtRecoveryUntil r <? 0) || (9007199254740990 <=? rtRecoveryUntil r) || (rtRevision r <? 1) ||
     (9007199254740990 <=? rtRevision r) || (rtEpoch r <? 1) || (9007199254740990 <=? rtEpoch r) ||
     negb (is_ok (Limits_Validate (rtLimits r) profile)) then Err ErrInvalid else
  if negb (bool_decide (rtMode r ∈ modes)) then Err ErrInvalid else
  if negb (bool_decide (rtEventState r ∈ event_states)) then Err ErrInvalid else Ok tt.

(** The loop of [Delivery.Validate] over rooms and runtimes of equal length. *)
Fixpoint runtimes_ok (profile : string) (rs : list Room) (vs : list RoomRuntime) : bool :=
  match rs, vs with
  | r :: rs', v :: vs' =>
      String.eqb (rrRoomID v) (ID r) && is_ok (Runtime_Validate (rrRuntime v) profile) &&
      (Active r || String.eqb (rtMode (rrRuntime v)) "OFF") && runtimes_ok profile rs' vs'
  | _, _ => true
  end.

Definition Delivery_Validate (url_Parse : string -> option URL) (logo_ok : string -> bool) (d : Delivery)
    : result error unit :=
  if negb (is_ok (Validate url_Parse logo_ok (dConfig d))) ||
     negb (List.length (dRuntimes d) =? List.length (rooms (dConfig d)))%nat then Err ErrInvalid else
  if negb (runtimes_ok (Profile (dConfig d)) (rooms (dConfig d)) (dRuntimes d)) then Err ErrInvalid else Ok tt.

(** [Find]: the room of the identifier and the runtime at the same index. *)
Fixpoint find_pair (id : string) (rs : list Room) (vs : list RoomRuntime) : option (Room * Runtime) :=
  match rs, vs with
  | r :: rs', v :: vs' => if String.eqb (ID r) id then Some (r, rrRuntime v) else find_pair id rs' vs'
  | _, _ => None
  end.
Definition Find (d : Delivery) (id : string) : option (Room * Runtime) :=
  find_pair id (rooms (dConfig d)) (dRuntimes d).

Definition InitialRuntime (room : Room) : Runtime :=
  mkRuntime 1 (if Active room then "HOLD" else "OFF") (RLimits room) 1 "none" 0.

Definition QueueConfig (r : Runtime) (profile : string) (room : Room) : model.Config :=
  let c := model.DefaultConfig in
  let big := String.eqb profile "high-scale-100k" in
  model.mkConfig (if big then 100000 else model.VisitorCap c) (if big then 200000 else model.IdempotencyCap c)
    (MaxActiveAdmissionLeases (rtLimits r)) (AdmissionsPerMinute (rtLimits r))
    (i64 (TicketIdleTTLSeconds (QPolicy room) * 1000)) (i64 (TicketMaxTTLSeconds (QPolicy room) * 1000))
    (i64 (ReadyTTLSeconds (QPolicy room) * 1000)) (i64 (AdmissionTTLSeconds (rtLimits r) * 1000))
    (model.IdempotencyTTL c) (model.ClockSkew c).

(** ** Events: instants in nanoseconds *)

Record EventInput := mkInput { iPrequeueAt : Z; iAdmitAt : Z; iDrainAt : Z }.
Record Event := mkEvent {
  eID : string; eRoomID : string; ePrequeueAt : Z; eAdmitAt : Z; eDrainAt : Z; eState : string
}.

Definition Year : Z := 366 * 24 * 3600 * 1000000000.

Definition EventInput_Validate (e : EventInput) (now : Z) : result error unit :=
  if (iPrequeueAt e <? now) || negb (iPrequeueAt e <? iAdmitAt e) || negb (iAdmitAt e <? iDrainAt e) ||
     (now + Year <? iDrainAt e) then Err ErrInvalid else Ok tt.

Definition Overlaps (e : Event) (other : EventInput) : bool :=
  negb (String.eqb (eState e) "cancelled") && negb (String.eqb (eState e) "completed") &&
  (ePrequeueAt e <? iDrainAt other) && (iPrequeueAt other <? eDrainAt e).

(** The mode due, the empty string for none, and the state of the event. *)
Definition NextEventMode (e : Event) (now : Z) : string * string :=
  if String.eqb (eState e) "paused_by_override" || String.eqb (eState e) "cancelled" ||
     String.eqb (eState e) "completed" || (now <? ePrequeueAt e) then ("", eState e) else
  if negb (now <? eDrainAt e) then ("DRAINING", "running") else
  if negb (now <? eAdmitAt e) then ("AUTO", "running") else ("HOLD", "running").

(** ** Route lemmas *)

(** A path and a canonical prefix as segment lists, closed by a slash. *)
Definition closed (s : string) : list ascii := chars s ++ ["/"%char].

Lemma chars_app a b : chars (a +:+ b) = chars a ++ chars b.
Proof. induction a as [|x a IH]; [done|]. change (x :: chars (a +:+ b) = x :: (chars a ++ chars b)). by rewrite IH. Qed.

Lemma chars_inj a b : chars a = chars b -> a = b.
Proof.
  unfold chars. intros E. rewrite <- (string_of_list_ascii_of_string a), E. apply string_of_list_ascii_of_string.
Qed.

Lemma prefix_chars a b : String.prefix a b = true <-> chars a `prefix_of` chars b.
Proof.
  revert b. induction a as [|x a IH]; intros b; simpl.
  { split; [intros _; apply prefix_nil | by destruct b]. }
  destruct b as [|y b]; simpl.
  - split; [done|]. intros H. by apply prefix_nil_not in H.
  - destruct (ascii_dec x y) as [->|Hne].
    + rewrite IH. split; [apply prefix_cons | apply prefix_cons_inv_2].
    + split; [done|]. intros H. by apply prefix_cons_inv_1 in H.
Qed.

Lemma trim_slash_cases s : s = trim_slash s \/ s = trim_slash s +:+ "/".
Proof.
  induction s as [|a s IH]; [by left|]. destruct s as [|b s].
  - simpl. destruct (Ascii.eqb_spec a "/") as [->|]; auto.
  - change (trim_slash (String a (String b s))) with (String a (trim_slash (String b s))).
    destruct IH as [IH|IH]; [left | right].
    + by rewrite <- IH.
    + change (String a (trim_slash (String b s)) +:+ "/") with (String a (trim_slash (String b s) +:+ "/")).
      by rewrite <- IH.
Qed.

Lemma trim_slash_closed s : closed (trim_slash s) `prefix_of` closed s.
Proof.
  unfold closed. destruct (trim_slash_cases s) as [E|E].
  - by rewrite <- E.
  - rewrite E at 2. rewrite chars_app. by apply prefix_app_r.
Qed.

Definition rooted (s : string) : bool := match s with String a _ => Ascii.eqb a "/" | EmptyString => false end.

(** Segment-wise prefix matching is the prefix order on closed paths. *)
Lemma PrefixMatches_spec p path :
  rooted path = true -> (PrefixMatches p path = true <-> closed (trim_slash p) `prefix_of` closed path).
Proof.
  intros Hr. unfold PrefixMatches, strs.HasPrefix, closed. rewrite !orb_true_iff, prefix_chars, !String.eqb_eq, chars_app.
  split.
  - intros [[E|E]|E].
    + rewrite E. destruct path as [|a path]; [done|]. simpl in *. apply Ascii.eqb_eq in Hr as ->.
      apply prefix_cons, prefix_nil.
    + by rewrite E.
    + by apply prefix_app_r.
  - intros [k Hk]. destruct k as [|x k _] using rev_ind.
    + left. right. rewrite app_nil_r in Hk. apply chars_inj. by apply app_inj_tail in Hk as [? _].
    + right. rewrite app_assoc in Hk. apply app_inj_tail in Hk as [Hk _]. by exists k.
Qed.

(** Two prefixes of one path are related, so a conflict is seen. *)
Lemma related_prefixes a b path :
  rooted path = true -> rooted a = true -> rooted b = true ->
  PrefixMatches a path = true -> PrefixMatches b path = true ->
  PrefixMatches a b = true \/ PrefixMatches b a = true.
Proof.
  intros Hp Ha Hb. rewrite !PrefixMatches_spec by done. intros H1 H2.
  destruct (prefix_weak_total _ _ _ H1 H2) as [H|H]; [left | right];
    (etrans; [exact H | apply trim_slash_closed]).
Qed.

Lemma ValidPath_rooted p : ValidPath p = true -> rooted p = true.
Proof. destruct p as [|a p]; simpl; [done|]. intros H. by to_prop. Qed.

Lemma prefixes_ok_valid seen ps p : prefixes_ok seen ps = true -> p ∈ ps -> ValidPath p = true.
Proof.
  revert seen. induction ps as [|q ps IH]; intros seen H Hp; [by apply elem_of_nil in Hp|].
  cbn [prefixes_ok] in H. apply andb_true_iff in H as [H Hps].
  repeat (apply andb_true_iff in H as [H _]). apply elem_of_cons in Hp as [-> |Hp]; [done | by eapply IH].
Qed.

Section validated.
Context (url_Parse : string -> option URL) (logo_ok : string -> bool).

(** What a validated room guarantees to the other components. *)
Record room_ok (profile : string) (r : Room) : Prop := {
  ro_protect : forall p, p ∈ ProtectPrefixes r -> ValidPath p = true;
  ro_policy : policy_ok (QPolicy r) = true;
  ro_limits : Limits_Validate (RLimits r) profile = Ok tt;
  ro_host : ValidHostname (Hostname r) = true
}.

Lemma Room_Validate_ok r profile : Room_Validate url_Parse logo_ok r profile = Ok tt -> room_ok profile r.
Proof.
  unfold Room_Validate. case_if as E1; [done|]. destruct (validOrigin url_Parse (Origin r)) as [o|]; [|done].
  case_if as E2; [done|]. destruct (validOrigin url_Parse (HealthURL r)) as [h|]; [|done].
  case_if as E3; [done|]. destruct (ExcludePrefixes r) as [ex|]; [|done]. cbv zeta.
  case_if as E4; [done|]. case_if as E5; [done|]. case_if as E6; [done|]. case_if as E7; [done|].
  intros _. to_prop. constructor; [| done | | done].
  - intros p Hp. by apply (prefixes_ok_valid [] (ProtectPrefixes r)).
  - by destruct (Limits_Validate (RLimits r) profile) as [[]|].
Qed.

Lemma rooms_ok_all profile before rs :
  rooms_ok url_Parse logo_ok profile before rs = Ok tt -> Forall (room_ok profile) rs.
Proof.
  revert before. induction rs as [|r rs IH]; intros before; cbn [rooms_ok]; [constructor|].
  case_if as E1; [done|]. case_if as E2; [done|]. intros H. constructor; [|by eapply IH].
  apply orb_false_iff in E1 as [E1 _]. apply orb_false_iff in E1 as [E1 _]. apply negb_false_iff in E1.
  apply Room_Validate_ok. by destruct (Room_Validate url_Parse logo_ok r profile) as [[]|].
Qed.

(** No active room conflicts with an earlier one. *)
Lemma rooms_ok_conflict profile before rs i j r r' :
  rooms_ok url_Parse logo_ok profile before rs = Ok tt ->
  (before ++ rs) !! i = Some r -> (before ++ rs) !! j = Some r' ->
  (i < j)%nat -> (List.length before <= j)%nat -> Active r' = true -> conflict r' r = false.
Proof.
  revert before. induction rs as [|r0 rs IH]; intros before H Hi Hj Hij Hb Ha.
  { rewrite app_nil_r in Hj. apply lookup_lt_Some in Hj. lia. }
  cbn [rooms_ok] in H. destruct (negb _ || _ || _); [done|].
  destruct (Active r0 && existsb (conflict r0) before) eqn:E2; [done|].
  destruct (decide (j = List.length before)) as [->|Hne].
  - rewrite lookup_app_r, Nat.sub_diag in Hj by lia. injection Hj as ->. rewrite Ha in E2. simpl in E2.
    rewrite lookup_app_l in Hi by lia. destruct (conflict r' r) eqn:Ec; [|done].
    rewrite <- E2. symmetry. apply existsb_exists. exists r. split; [|done].
    apply list_elem_of_In, list_elem_of_lookup. eauto.
  - eapply (IH (before ++ [r0])); rewrite <- ?app_assoc; eauto. rewrite length_app. simpl. lia.
Qed.

Lemma Validate_rooms c :
  Validate url_Parse logo_ok c = Ok tt -> rooms_ok url_Parse logo_ok (Profile c) [] (rooms c) = Ok tt.
Proof. unfold Validate, rooms. destruct (Rooms c) as [rs|]; [|done]. by case_if as E. Qed.

Lemma Limits_range l profile :
  Limits_Validate l profile = Ok tt ->
  (profile = "standard-10k" \/ profile = "high-scale-100k") /\
  1 <= MaxActiveAdmissionLeases l <= (if String.eqb profile "high-scale-100k" then 100000 else 10000) /\
  1 <= AdmissionsPerMinute l /\ 60 <= AdmissionTTLSeconds l <= 3600.
Proof.
  unfold Limits_Validate. destruct (String.eqb_spec profile "high-scale-100k"); cbv zeta.
  - case_if as E; [done|]. intros _. to_prop. split_and!; [by right | lia..].
  - destruct (String.eqb_spec profile "standard-10k"); [|done]. simpl. case_if as E; [done|]. intros _.
    to_prop. split_and!; [by left | lia..].
Qed.

Lemma policy_range p :
  policy_ok p = true ->
  60 <= TicketIdleTTLSeconds p <= 600 /\ 600 <= TicketMaxTTLSeconds p <= 86400 /\
  TicketIdleTTLSeconds p <= TicketMaxTTLSeconds p /\ 1 <= ReadyTTLSeconds p <= 120.
Proof. unfold policy_ok. intros H. to_prop. lia. Qed.

Lemma Runtime_limits r profile : Runtime_Validate r profile = Ok tt -> Limits_Validate (rtLimits r) profile = Ok tt.
Proof.
  unfold Runtime_Validate. case_if as E; [done|]. intros _. to_prop.
  by destruct (Limits_Validate (rtLimits r) profile) as [[]|].
Qed.

(** The room and runtime found by identifier are validated together. *)
Lemma find_pair_ok profile id rs vs room rt :
  find_pair id rs vs = Some (room, rt) -> runtimes_ok profile rs vs = true -> Forall (room_ok profile) rs ->
  ID room = id /\ room_ok profile room /\ Runtime_Validate rt profile = Ok tt /\
  (Active room = false -> rtMode rt = "OFF").
Proof.
  revert vs. induction rs as [|r rs IH]; intros [|v vs] HF Hok Hall; try done.
  cbn [find_pair] in HF. cbn [runtimes_ok] in Hok. apply andb_true_iff in Hok as [Hok Hrest].
  apply Forall_cons in Hall as [Hr Hall]. destruct (String.eqb_spec (ID r) id); [|by eapply IH].
  injection HF as <- <-. apply andb_true_iff in Hok as [Hok Hoff]. to_prop. split_and!; try done.
  - by destruct (Runtime_Validate (rrRuntime v) profile) as [[]|].
  - intros Ha. rewrite Ha in Hoff. simpl in Hoff. by to_prop.
Qed.

Definition protects (host path : string) (r : Room) : bool :=
  Active r && String.eqb (Hostname r) host && existsb (fun p => PrefixMatches p path) (ProtectPrefixes r).

Lemma protects_conflict profile host path r r' :
  room_ok profile r -> room_ok profile r' -> rooted path = true ->
  protects host path r = true -> protects host path r' = true -> conflict r' r = true.
Proof.
  unfold protects, conflict. intros Hr Hr' Hp H1 H2.
  apply andb_true_iff in H1 as [H1 X1], H2 as [H2 X2]. to_prop.
  apply existsb_exists in X1 as (p & Hpin & Hpm), X2 as (q & Hqin & Hqm).
  apply list_elem_of_In in Hpin, Hqin.
  rewrite (proj2 (String.eqb_eq (Hostname r) (Hostname r'))) by congruence.
  assert (Active r = true) as -> by done. simpl.
  apply existsb_exists. exists q. split; [by apply list_elem_of_In|].
  apply existsb_exists. exists p. split; [by apply list_elem_of_In|]. apply orb_true_iff.
  eapply related_prefixes; eauto using ValidPath_rooted, ro_protect.
Qed.

Lemma protects_unique c host path i j r r' :
  Validate url_Parse logo_ok c = Ok tt -> rooted path = true ->
  rooms c !! i = Some r -> rooms c !! j = Some r' ->
  protects host path r = true -> protects host path r' = true -> i = j.
Proof.
  intros HV Hp Hi Hj H1 H2. apply Validate_rooms in HV. pose proof (rooms_ok_all _ _ _ HV) as Hall.
  rewrite Forall_lookup in Hall.
  assert (forall i j r r', rooms c !! i = Some r -> rooms c !! j = Some r' -> protects host path r = true ->
            protects host path r' = true -> ~ (i < j)%nat) as Hlt.
  { clear i j r r' Hi Hj H1 H2. intros i j r r' Hi Hj H1 H2 Hij.
    pose proof (protects_conflict _ host path r r' (Hall _ _ Hi) (Hall _ _ Hj) Hp H1 H2) as Hc.
    rewrite (rooms_ok_conflict _ [] _ i j r r' HV Hi Hj Hij) in Hc; [done | simpl; lia |].
    unfold protects in H2. by to_prop. }
  destruct (Nat.lt_trichotomy i j) as [?|[?|?]]; [exfalso; by apply (Hlt i j r r') | done | exfalso; by apply (Hlt j i r' r)].
Qed.
End validated.

(** ** Properties *)

(** Routing is unambiguous. In a validated configuration, when a request
    is matched as protected, the room named is an active room of the host
    with a prefix of the path, it is the only active room of the host that
    protects the path, and no room of the host excludes it; so adding,
    ordering or renaming rooms cannot move a visitor to another queue. *)
Lemma protected_route_unique url_Parse logo_ok c host u id why :
  Validate url_Parse logo_ok c = Ok tt -> MatchURL c host (Some u) = mkMatch "protected" id why ->
  exists r, r ∈ rooms c /\ ID r = id /\ protects host (Path u) r = true /\
    (forall r', r' ∈ rooms c -> protects host (Path u) r' = true -> r' = r) /\
    find_room excludes host (Path u) (rooms c) = None.
Proof.
  intros HV. unfold MatchURL. case_if as E1; [done|]. case_if as E2; [done|].
  destruct (find_room excludes host (Path u) (rooms c)); [done|].
  destruct (find_room ProtectPrefixes host (Path u) (rooms c)) as [r|] eqn:Ef; [|done].
  intros E3. injection E3 as Eid _.
  unfold find_room in Ef. apply List.find_some in Ef as [Hin Hm]. apply list_elem_of_In in Hin.
  exists r. split_and!; try done. intros r' Hin' Hm'.
  apply list_elem_of_lookup in Hin as [i Hi], Hin' as [j Hj].
  assert (rooted (Path u) = true) as Hr by (apply ValidPath_rooted; by to_prop).
  assert (i = j) as <- by (by eapply protects_unique). congruence.
Qed.

(** C39: every validated delivery configures a queue the model accepts. For a
    room and its runtime of a validated delivery, the queue configuration
    derived from them passes the range checks of the queue, reserves the
    30 seconds of verifier leeway the gateway uses, and its lifetimes are
    those of the operator in milliseconds. *)
Theorem queue_config_valid url_Parse logo_ok d id room rt :
  Delivery_Validate url_Parse logo_ok d = Ok tt -> Find d id = Some (room, rt) ->
  let q := QueueConfig rt (Profile (dConfig d)) room in
  is_ok (model.New q) = true /\ model.ClockSkew q = 30000 /\
  model.AdmissionTTL q = AdmissionTTLSeconds (rtLimits rt) * 1000 /\
  model.IdleTTL q = TicketIdleTTLSeconds (QPolicy room) * 1000 /\
  model.LeaseCap q = MaxActiveAdmissionLeases (rtLimits rt) /\
  ID room = id /\ (Active room = false -> rtMode rt = "OFF").
Proof.
  unfold Delivery_Validate. case_if as E1; [done|]. case_if as E2; [done|]. intros _ HF. to_prop.
  set (q := QueueConfig rt (Profile (dConfig d)) room).
  assert (Validate url_Parse logo_ok (dConfig d) = Ok tt) as HV
    by (by destruct (Validate url_Parse logo_ok (dConfig d)) as [[]|]).
  apply Validate_rooms in HV. pose proof (rooms_ok_all url_Parse logo_ok _ _ _ HV) as Hall. unfold Find in HF.
  destruct (find_pair_ok _ _ _ _ _ _ HF E2 Hall) as (Hid & Hroom & Hrt & Hoff).
  destruct (Limits_range _ _ (Runtime_limits _ _ Hrt)) as (Hp & Hl).
  destruct (policy_range _ (ro_policy _ _ Hroom)) as (P1 & P2 & P3 & P4).
  assert (model.AdmissionTTL q = AdmissionTTLSeconds (rtLimits rt) * 1000 /\
          model.IdleTTL q = TicketIdleTTLSeconds (QPolicy room) * 1000 /\
          model.TicketTTL q = TicketMaxTTLSeconds (QPolicy room) * 1000 /\
          model.ReadyTTL q = ReadyTTLSeconds (QPolicy room) * 1000) as (Q1 & Q2 & Q3 & Q4).
  { unfold q, QueueConfig. simpl. split_and!; apply i64_id; unfold in_i64; lia. }
  split_and!; try done. unfold model.New. enough (model.valid_config q = true) as -> by done.
  unfold model.valid_config. rewrite Q1, Q2, Q3, Q4. unfold q. simpl. unfold model.Minute.
  destruct (String.eqb (Profile (dConfig d)) "high-scale-100k");
    (apply negb_true_iff; repeat (apply orb_false_iff; split); (apply Z.leb_gt || apply Z.ltb_ge); lia).
Qed.

(** A schedule moves a room forward only and one event at a time. While
    an event is not paused, cancelled or completed the mode due is HOLD from
    the pre-queue, AUTO from the admission and DRAINING from the drain on,
    whatever was missed in between; and two events of which neither overlaps
    the other are never both between pre-queue and drain. *)
Lemma event_schedule e other now :
  ePrequeueAt e < eAdmitAt e < eDrainAt e ->
  (eState e = "scheduled" \/ eState e = "running") ->
  fst (NextEventMode e now) =
    (if now <? ePrequeueAt e then "" else if now <? eAdmitAt e then "HOLD"
     else if now <? eDrainAt e then "AUTO" else "DRAINING") /\
  (Overlaps e other = false -> ~ (ePrequeueAt e <= now < eDrainAt e /\ iPrequeueAt other <= now < iDrainAt other)).
Proof.
  intros Ht Hs. split.
  - unfold NextEventMode.
    assert (String.eqb (eState e) "paused_by_override" || String.eqb (eState e) "cancelled" ||
            String.eqb (eState e) "completed" = false) as -> by (by destruct Hs as [-> | ->]).
    simpl. destruct (Z.ltb_spec now (ePrequeueAt e)); [done|].
    destruct (Z.ltb_spec now (eDrainAt e)), (Z.ltb_spec now (eAdmitAt e)); simpl; (done || lia).
  - unfold Overlaps. intros Ho [H1 H2].
    assert (String.eqb (eState e) "cancelled" = false /\ String.eqb (eState e) "completed" = false) as [E1 E2]
      by (by destruct Hs as [-> | ->]).
    rewrite E1, E2 in Ho. simpl in Ho. apply andb_false_iff in Ho as [Ho|Ho]; to_prop; lia.
Qed.

(** ** A concrete configuration for the witnesses *)

Definition wit_url (host path : string) : URL := mkURL "https" false host host "" path "" "" false "" "".
Definition wit_Parse (raw : string) : option URL :=
  if String.eqb raw "https://origin.example" then Some (wit_url "origin.example" "")
  else if String.eqb raw "https://origin.example/health" then Some (wit_url "origin.example" "/health")
  else if String.eqb raw "https://coordinator:19446" then Some (wit_url "coordinator:19446" "") else None.
Definition wit_logo (s : string) : bool := String.eqb s "".

Definition wit_room (id public prefix : string) : Room :=
  mkRoom id public "Shop" "shop.example" "https://origin.example" "https://origin.example/health"
    [prefix] (Some ["/shop/help/"]) (mkPolicy "fifo" 600 86400 120) (mkLimits 1000 600 900)
    (mkTheme "calm" "Wait" "Please wait" "#0a1B2c" "en" true "") true.
Definition wit_config : Config :=
  mkConfig 1 3 "standard-10k" "seoul"
    (Some [wit_room "shop" "abcdefghijklmnopqrst" "/shop"; wit_room "shops" "bbcdefghijklmnopqrst" "/shops/"]).
Definition wit_delivery : Delivery :=
  mkDelivery wit_config (((fun r => mkRoomRuntime (ID r) (InitialRuntime r)) <$> rooms wit_config)).

Lemma queue_config_valid_witness :
  exists room rt, Find wit_delivery "shop" = Some (room, rt) /\
    is_ok (model.New (QueueConfig rt "standard-10k" room)) = true.
Proof.
  exists (wit_room "shop" "abcdefghijklmnopqrst" "/shop"),
    (InitialRuntime (wit_room "shop" "abcdefghijklmnopqrst" "/shop")).
  split; [by vm_compute|].
  apply (queue_config_valid wit_Parse wit_logo wit_delivery "shop"); by vm_compute.
Defined.

End control.
