(* ===== verification/AdminAuth.v ===== *)
(** * Backoffice authorization: [src/internal/adminauth]

    Module [adminauth] translates the role policy ([policy.go]), session checks
    ([session.go]), origin and CSRF checks ([csrf.go]), time-based one-time
    passwords ([totp.go]) and the calibration loop ([calibration.go]).
    Instants are in nanoseconds. HMAC-SHA1 is an interface; the counter store
    is the interface [CounterStore] with the contract its Go comment states. *)

From S2P Require Import Prelude GoStd.
From stdpp Require Import base list strings sorting sets.
From Stdlib Require Import ZArith Lia Ascii String.

Module adminauth.
Local Open Scope Z_scope.

(** ** [policy.go] *)

(** [type Role string]: the three roles and any other text. *)
Inductive Role := Admin | Operator | Viewer | OtherRole (text : string).

Inductive Action :=
  | ReadDashboard | ReadConfig | WriteConfig | ReadRuntime | OperateRuntime | InstantOff | NewEpoch
  | ReadEvents | WriteEvents | ReadLab | RunLab | ReadUsers | WriteUsers | ReadSecurity
  | WriteTOTPPolicy | ResetUserTOTP | RotateKeys | ReadAudit | ReadInstall.

#[global] Instance Role_eq_dec : EqDecision Role.
Proof. solve_decision. Defined.
#[global] Instance Action_eq_dec : EqDecision Action.
Proof. solve_decision. Defined.

Record Capability := mkCapability { cAction : Action; RequiresReauthentication : bool }.
Record rule := mkRule { rAction : Action; rRoles : Z; rReauth : bool }.

Definition adminBit : Z := 1.
Definition operatorBit : Z := 2.
Definition viewerBit : Z := 4.
Definition allRoles : Z := Z.lor adminBit (Z.lor operatorBit viewerBit).

Definition rules : list rule :=
  [ mkRule ReadDashboard allRoles false; mkRule ReadConfig allRoles false;
    mkRule WriteConfig adminBit false; mkRule ReadRuntime allRoles false;
    mkRule OperateRuntime (Z.lor adminBit operatorBit) false; mkRule InstantOff adminBit true;
    mkRule NewEpoch adminBit true; mkRule ReadEvents allRoles false;
    mkRule WriteEvents (Z.lor adminBit operatorBit) false; mkRule ReadLab allRoles false;
    mkRule RunLab (Z.lor adminBit operatorBit) false; mkRule ReadUsers adminBit false;
    mkRule WriteUsers adminBit true; mkRule ReadSecurity adminBit false;
    mkRule WriteTOTPPolicy adminBit true; mkRule ResetUserTOTP adminBit true;
    mkRule RotateKeys adminBit true; mkRule ReadAudit allRoles false; mkRule ReadInstall allRoles false ].

Definition roleBit (r : Role) : Z :=
  match r with Admin => adminBit | Operator => operatorBit | Viewer => viewerBit | OtherRole _ => 0 end.

Definition Requirement (r : Role) (a : Action) : option Capability :=
  match List.find (fun ru => bool_decide (rAction ru = a) && negb (Z.land (rRoles ru) (roleBit r) =? 0)) rules with
  | Some ru => Some (mkCapability a (rReauth ru))
  | None => None
  end.

Definition Capabilities (r : Role) : list Capability :=
  omap (fun ru => if bool_decide (rAction ru = RotateKeys) then None else Requirement r (rAction ru)) rules.

(** ** [session.go] *)

Inductive error :=
  | ErrUnauthenticated | ErrForbidden | ErrReauthenticationRequired | ErrPolicyLocked | ErrInvalidPolicy
  | ErrInvalidOrReplayed | ErrAuthUnavailable.

Inductive PolicyMode := Configurable | ForcedOn | OtherMode (text : string).

Definition Minute : Z := 60000000000.
Definition SessionIdleTTL : Z := 30 * Minute.
Definition SessionAbsoluteTTL : Z := 480 * Minute.

Record AuthPolicy := mkAuthPolicy { Mode : PolicyMode; TOTPEnabled : bool; Version : Z }.
Definition DefaultPolicy : AuthPolicy := mkAuthPolicy Configurable true 1.

Definition Validate (p : AuthPolicy) : result error unit :=
  if (Version p =? 0) || match Mode p with OtherMode _ => true | _ => false end then Err ErrInvalidPolicy else
  if match Mode p with ForcedOn => negb (TOTPEnabled p) | _ => false end then Err ErrPolicyLocked else Ok tt.

Record Account := mkAccount {
  aID : string; aRole : Role; aEnabled : bool; aSessionVersion : Z; aTOTPEnrolled : bool
}.
(** A zero [time.Time] is [None]. *)
Record Session := mkSession {
  sUserID : string; sAuthPolicyVersion : Z; sUserSessionVersion : Z; sMFAVerified : bool;
  sCreatedAt : option Z; sLastSeenAt : Z
}.

(** The identity, role and version tests of [CheckSession]. *)
Definition session_bound (a : Account) (s : Session) (p : AuthPolicy) : bool :=
  is_ok (Validate p) && negb (String.eqb (aID a) "") && aEnabled a && negb (roleBit (aRole a) =? 0) &&
  negb (aSessionVersion a =? 0) && String.eqb (sUserID s) (aID a) &&
  (sAuthPolicyVersion s =? Version p) && (sUserSessionVersion s =? aSessionVersion a).

Definition CheckSession (a : Account) (s : Session) (p : AuthPolicy) (now : Z) : result error unit :=
  if negb (session_bound a s p) ||
     match sCreatedAt s with
     | None => true
     | Some created =>
         (sLastSeenAt s <? created) || (now <? sLastSeenAt s) ||
         negb (now <? created + SessionAbsoluteTTL) || negb (now <? sLastSeenAt s + SessionIdleTTL)
     end then Err ErrUnauthenticated else
  if TOTPEnabled p && (negb (aTOTPEnrolled a) || negb (sMFAVerified s)) then Err ErrUnauthenticated else Ok tt.

Definition CheckOrdinaryAction (a : Account) (s : Session) (p : AuthPolicy) (act : Action) (now : Z)
    : result error unit :=
  match CheckSession a s p now with
  | Err e => Err e
  | Ok _ =>
      match Requirement (aRole a) act with
      | None => Err ErrForbidden
      | Some c => if RequiresReauthentication c then Err ErrReauthenticationRequired else Ok tt
      end
  end.

(** ** [csrf.go] *)

(** A request: its method and the values of each header. *)
Record request := mkRequest { Method : string; Header : string -> list string }.
Definition Get (r : request) (h : string) : string := match Header r h with v :: _ => v | [] => "" end.

Section csrf.
Context `{Sha256}.

(** The token and its stored hash, from 32 random bytes. *)
Definition NewCSRFToken (random : string) : string * string :=
  let token := base64.EncodeToString random in (token, sha256 token).

Definition zero_hash : string := string_of_list_ascii (replicate 32 (ascii_of 0)).

Definition mutation (m : string) : bool :=
  String.eqb m "POST" || String.eqb m "PUT" || String.eqb m "PATCH" || String.eqb m "DELETE".

Definition CheckMutation (origin : string) (r : request) (sessionTokenHash : string) : result error unit :=
  if String.eqb origin "" || String.eqb sessionTokenHash zero_hash then Err ErrForbidden else
  if negb (mutation (Method r)) then Err ErrForbidden else
  if negb (List.length (Header r "Origin") =? 1)%nat || negb (String.eqb (Get r "Origin") origin) ||
     negb (List.length (Header r "X-CSRF-Token") =? 1)%nat then Err ErrForbidden else
  let token := Get r "X-CSRF-Token" in
  if negb (len token =? 43) then Err ErrForbidden else
  match base64.StrictDecodeString token with
  | None => Err ErrForbidden
  | Some decoded =>
      if negb (len decoded =? 32) then Err ErrForbidden else
      if negb (String.eqb (sha256 token) sessionTokenHash) then Err ErrForbidden else Ok tt
  end.
End csrf.

(** ** [totp.go] *)

Definition totpPeriod : Z := 30.
Definition totpDigits : Z := 6.
Definition Second : Z := 1000000000.
Definition Unix (now : Z) : Z := now / Second.

Record Secret := mkSecret { key : string; valid : bool }.
Record CredentialRef := mkRef { UserID : string; RVersion : Z }.

#[global] Instance CredentialRef_eq_dec : EqDecision CredentialRef.
Proof. solve_decision. Defined.

Definition ref_byte (a : ascii) : bool :=
  let b := byte_of a in
  ((97 <=? b) && (b <=? 122)) || ((65 <=? b) && (b <=? 90)) || ((48 <=? b) && (b <=? 57)) || (b =? 45) || (b =? 95).
Definition ref_valid (r : CredentialRef) : bool :=
  negb ((len (UserID r) =? 0) || (128 <? len (UserID r)) || (RVersion r =? 0)) &&
  forallb ref_byte (list_ascii_of_string (UserID r)).

(** [crypto/hmac] over SHA-1: the digest has 20 bytes. *)
Class HmacSha1 := hmac_sha1 : string -> list Z -> list Z.
Class HmacSha1Laws `{HmacSha1} : Prop :=
  hmac_sha1_bytes : forall k m, List.length (hmac_sha1 k m) = 20%nat /\ Forall is_byte (hmac_sha1 k m).

Section totp.
Context `{HmacSha1}.

(** [binary.BigEndian.PutUint64] and [Uint32]. *)
Fixpoint big_endian (n : nat) (z : Z) : list Z :=
  match n with O => [] | S n' => big_endian n' (z / 256) ++ [z mod 256] end.
Definition Uint32 (l : list Z) : Z := fold_left (fun v b => v * 256 + b) l 0.

(** [fmt.Sprintf("%0*d", digits, v)] for [v < 10^digits]. *)
Fixpoint zero_padded (digits : nat) (v : Z) : string :=
  match digits with
  | O => EmptyString
  | S n => zero_padded n (v / 10) +:+ String (ascii_of (48 + v mod 10)) EmptyString
  end.

Definition hotp (k : string) (counter : Z) (digits : Z) : string :=
  let digest := hmac_sha1 k (big_endian 8 counter) in
  let offset := Z.land (default 0 (last digest)) 15 in
  let value := Z.land (Uint32 (take 4 (drop (Z.to_nat offset) digest))) 2147483647 in
  let modulus := if digits =? 8 then 100000000 else 1000000 in
  zero_padded (Z.to_nat digits) (value mod modulus).

Definition is_digit (a : ascii) : bool := (48 <=? byte_of a) && (byte_of a <=? 57).

(** One step of the loop over the deltas. *)
Definition try_delta (s : Secret) (code : string) (current : Z) (acc : Z * bool) (delta : Z) : Z * bool :=
  if (current =? 0) && (delta =? -1) then acc else
  let counter := u64 (current + delta) in
  if String.eqb (hotp (key s) counter totpDigits) code then (counter, true) else acc.

Definition matchCounter (s : Secret) (code : string) (now : Z) : Z * bool :=
  if negb (valid s) || negb (len code =? totpDigits) || (Unix now <? 0) then (0, false) else
  if negb (forallb is_digit (list_ascii_of_string code)) then (0, false) else
  let current := Unix now ÷ totpPeriod in
  fold_left (try_delta s code current) [-1; 0; 1] (0, false).

(** [type CounterStore interface]. *)
Class CounterStore (St : Type) := {
  ConsumeCounter : St -> CredentialRef -> Z -> St * result error bool;
  lastAccepted : St -> CredentialRef -> Z
}.

(** Its contract: a counter is accepted only above the last accepted one of the
    credential, which it becomes; an error may or may not have recorded it. *)
Class CounterStoreLaws (St : Type) `{CounterStore St} : Prop := {
  consume_true : forall st ref c st', ConsumeCounter st ref c = (st', Ok true) ->
    lastAccepted st ref < c /\ lastAccepted st' ref = c;
  consume_mono : forall st ref c st' res ref', ConsumeCounter st ref c = (st', res) ->
    lastAccepted st ref' <= lastAccepted st' ref'
}.

Context {St : Type} `{CounterStore St}.

Definition VerifyAndConsume (cancelled : bool) (ref : CredentialRef) (s : Secret) (code : string) (now : Z) (st : St)
    : St * result error unit :=
  if cancelled then (st, Err ErrAuthUnavailable) else
  if negb (ref_valid ref) then (st, Err ErrInvalidOrReplayed) else
  match matchCounter s code now with
  | (counter, true) =>
      match ConsumeCounter st ref counter with
      | (st', Err _) => (st', Err ErrAuthUnavailable)
      | (st', Ok false) => (st', Err ErrInvalidOrReplayed)
      | (st', Ok true) => (st', Ok tt)
      end
  | (_, false) => (st, Err ErrInvalidOrReplayed)
  end.

(** A history of attempts, with the counters that were accepted. *)
Record attempt := mkAttempt { tCancelled : bool; tRef : CredentialRef; tSecret : Secret; tCode : string; tNow : Z }.

Definition attempt_step (y : St * list (CredentialRef * Z)) (t : attempt) : St * list (CredentialRef * Z) :=
  let (st, log) := y in
  match VerifyAndConsume (tCancelled t) (tRef t) (tSecret t) (tCode t) (tNow t) st with
  | (st', Ok _) => (st', log ++ [(tRef t, fst (matchCounter (tSecret t) (tCode t) (tNow t)))])
  | (st', Err _) => (st', log)
  end.

Definition attempts (st : St) (ts : list attempt) : St * list (CredentialRef * Z) :=
  fold_left attempt_step ts (st, []).
End totp.

(** ** [calibration.go] *)

Definition Millisecond : Z := 1000000.
Record CalibrationSample := mkSample { smIterations : Z; smMedianMS : Z }.
Record Calibration := mkCalibration {
  cVersion : Z; cMemoryKiB : Z; cParallelism : Z; cIterations : Z; cTargetMet : bool; cSamples : list CalibrationSample
}.

Section calibration.
(** The [k]-th measurement, for [n] iterations, and whether the deadline had
    passed before it. *)
Context (measure : nat -> Z -> result error Z) (expired : nat -> bool).

(** The three measurements of a candidate. *)
Fixpoint measures (k : nat) (n : Z) (count : nat) : result error (list Z) :=
  match count with
  | O => Ok []
  | S c =>
      if expired k then Err ErrAuthUnavailable else
      match measure k n with
      | Err e => Err e
      | Ok t => match measures (S k) n c with Err e => Err e | Ok ts => Ok (t :: ts) end
      end
  end.

Definition median (ts : list Z) : Z := default 0 (merge_sort Z.le ts !! 1%nat).

(** The loop over the candidates from [n]; [left] bounds the iterations. *)
Fixpoint calibrate (left : nat) (k : nat) (n : Z) (out : Calibration) : result error Calibration :=
  match left with
  | O => Ok out
  | S left' =>
      match measure k n with
      | Err e => Err e
      | Ok _ =>
          match measures (S k) n 3 with
          | Err e => Err e
          | Ok ts =>
              let m := median ts in
              let out := mkCalibration (cVersion out) (cMemoryKiB out) (cParallelism out) (cIterations out)
                (cTargetMet out) (cSamples out ++ [mkSample n (m ÷ Millisecond)]) in
              if (250 * Millisecond <=? m) && (m <=? 500 * Millisecond)
              then Ok (mkCalibration (cVersion out) (cMemoryKiB out) (cParallelism out) n true (cSamples out))
              else if 500 * Millisecond <? m then Ok out
              else calibrate left' (k + 4) (n + 1) out
          end
      end
  end.

(** [for n := 2; n <= 10; n++]. *)
Definition calibratePassword : result error Calibration :=
  calibrate 9 0 2 (mkCalibration 1 65536 1 0 false []).
End calibration.

(** ** Lemmas and properties *)

Definition reads (a : Action) : bool :=
  match a with
  | ReadDashboard | ReadConfig | ReadRuntime | ReadEvents | ReadLab | ReadAudit | ReadInstall => true
  | _ => false
  end.

Lemma Requirement_action r a c : Requirement r a = Some c -> cAction c = a.
Proof. unfold Requirement. destruct (List.find _ rules); [|done]. by intros [= <-]. Qed.

(** The role policy is a hierarchy of least privilege. An unknown role may
    do nothing; a viewer may only read; whatever a viewer may do an operator
    may, and whatever an operator may do an administrator may; every action
    that needs a fresh authentication is reserved to administrators; and the
    capabilities projected to clients are the policy's, less the reserved
    key rotation. *)
Lemma role_hierarchy a r text :
  Requirement (OtherRole text) a = None /\
  (forall c, Requirement Viewer a = Some c -> reads a = true /\ Requirement Operator a = Some c) /\
  (forall c, Requirement Operator a = Some c -> Requirement Admin a = Some c /\ RequiresReauthentication c = false) /\
  (forall c, c ∈ Capabilities r <-> Requirement r (cAction c) = Some c /\ cAction c <> RotateKeys).
Proof.
  split_and!.
  - by destruct a.
  - destruct a; vm_compute; naive_solver.
  - destruct a; vm_compute; naive_solver.
  - intros c. unfold Capabilities. rewrite list_elem_of_omap. split.
    + intros (ru & _ & Hc). case_bool_decide as Hn; [done|].
      by rewrite (Requirement_action _ _ _ Hc).
    + intros [Hc Hn]. assert (exists ru, ru ∈ rules /\ rAction ru = cAction c) as (ru & Hin & E).
      { unfold Requirement in Hc. destruct (List.find _ rules) as [ru|] eqn:E; [|done].
        apply List.find_some in E as [Hin Ha]. exists ru. split; [by apply list_elem_of_In|]. by to_prop. }
      exists ru. split; [done|]. rewrite bool_decide_eq_false_2 by congruence. by rewrite E.
Qed.

(** An ordinary action is authorized only for a live, current session. If
    the check passes, the account is enabled and has the role the policy
    needs, the action needs no fresh authentication, the session belongs to
    the account and was issued under the current session and policy versions,
    so that a revocation or policy change ends it, a second factor was
    verified when the policy asks for one, and the time is within 30 minutes
    of the last use and 8 hours of the login. *)
Lemma ordinary_action_sound a s p act now :
  CheckOrdinaryAction a s p act now = Ok tt ->
  aEnabled a = true /\ sUserID s = aID a /\ sUserSessionVersion s = aSessionVersion a /\
  sAuthPolicyVersion s = Version p /\ (TOTPEnabled p = true -> aTOTPEnrolled a = true /\ sMFAVerified s = true) /\
  (exists created, sCreatedAt s = Some created /\ created <= sLastSeenAt s <= now /\
     now < created + SessionAbsoluteTTL /\ now < sLastSeenAt s + SessionIdleTTL) /\
  Requirement (aRole a) act = Some (mkCapability act false) /\
  act <> InstantOff /\ act <> NewEpoch /\ act <> WriteUsers /\ act <> RotateKeys.
Proof.
  unfold CheckOrdinaryAction, CheckSession. destruct (session_bound a s p) eqn:Eb; [|done].
  destruct (sCreatedAt s) as [created|]; [|done]. simpl. case_if as E1; [done|]. case_if as E2; [done|].
  destruct (Requirement (aRole a) act) as [c|] eqn:Er; [|done].
  destruct (RequiresReauthentication c) eqn:Ec; [done|]. intros _. unfold session_bound in Eb. to_prop.
  assert (c = mkCapability act false) as ->.
  { unfold Requirement in Er. destruct (List.find _ rules); [|done]. injection Er as <-. simpl in Ec. by rewrite Ec. }
  split_and!; try done.
  - intros Ht. rewrite Ht in E2. simpl in E2. by to_prop.
  - exists created. split_and!; try done; lia.
  - intros ->. destruct (aRole a); by vm_compute in Er.
  - intros ->. destruct (aRole a); by vm_compute in Er.
  - intros ->. destruct (aRole a); by vm_compute in Er.
  - intros ->. destruct (aRole a); by vm_compute in Er.
Qed.

Section csrf_properties.
Context `{Sha256}.

(** The CSRF token a session is given passes the mutation check. For any
    32 random bytes, a mutating request from the pinned origin that carries
    the token once is accepted against the stored hash, and any request that
    is accepted carries a token with that hash from that origin. *)
Lemma csrf_token_accepted random origin r :
  len random = 32 -> snd (NewCSRFToken random) <> zero_hash -> origin <> "" ->
  (Header r "X-CSRF-Token" = [fst (NewCSRFToken random)] -> Header r "Origin" = [origin] -> mutation (Method r) = true ->
   CheckMutation origin r (snd (NewCSRFToken random)) = Ok tt) /\
  (CheckMutation origin r (snd (NewCSRFToken random)) = Ok tt ->
   mutation (Method r) = true /\ Header r "Origin" = [origin] /\
   exists token, Header r "X-CSRF-Token" = [token] /\ sha256 token = sha256 (fst (NewCSRFToken random))).
Proof.
  intros Hr Hz Ho. simpl in *. unfold CheckMutation, Get. split.
  - intros -> -> ->. simpl.
    rewrite (proj2 (String.eqb_neq _ _) Hz), (proj2 (String.eqb_neq _ _) Ho). simpl.
    rewrite String.eqb_refl. simpl. unfold base64.EncodeToString at 1. rewrite base64.encode_length, Hr. simpl.
    unfold base64.StrictDecodeString, base64.EncodeToString at 1. rewrite base64.decode_encode, Hr. simpl.
    by rewrite String.eqb_refl.
  - case_if as E1; [done|]. case_if as E2; [done|]. case_if as E3; [done|]. cbv zeta. case_if as E4; [done|].
    destruct (base64.StrictDecodeString _) as [d|]; [|done]. case_if as E5; [done|]. case_if as E6; [done|].
    intros _. to_prop. repeat match goal with E : (_ =? _)%nat = true |- _ => apply Nat.eqb_eq in E end.
    destruct (Header r "Origin") as [|o [|? ?]]; try done.
    destruct (Header r "X-CSRF-Token") as [|t [|? ?]]; try done. simpl in *. subst.
    split_and!; try done. by exists t.
Qed.
End csrf_properties.

(** ** One-time passwords *)

Section totp_lemmas.
Context `{HmacSha1}.

(** What a match is: the newest of the adjacent counters with the code. *)
Lemma try_delta_found s code current l acc c :
  0 <= current <= 9223372036854775806 -> Forall (fun d => d = -1 \/ d = 0 \/ d = 1) l ->
  fold_left (try_delta s code current) l acc = (c, true) ->
  (acc = (c, true)) \/ (exists d, d ∈ l /\ c = current + d /\ 0 <= c /\ hotp (key s) c totpDigits = code).
Proof.
  intros Hc. revert acc. induction l as [|d l IH]; intros acc Hl Hf; [by left|].
  apply Forall_cons in Hl as [Hd Hl]. cbn [fold_left] in Hf. destruct (IH _ Hl Hf) as [E|(d' & Hin & ?)].
  - unfold try_delta in E. destruct (_ && _) eqn:Eg in E; [by left|].
    destruct (String.eqb_spec (hotp (key s) (u64 (current + d)) totpDigits) code) as [Ec|]; [|by left].
    right. injection E as E. exists d. split; [left|].
    assert (0 <= current + d) as Hn.
    { apply andb_false_iff in Eg as [Eg|Eg]; to_prop; lia. }
    rewrite u64_id in * by (unfold in_u64; lia). subst c. done.
  - right. exists d'. split; [by right | done].
Qed.

Lemma matchCounter_sound s code now c :
  matchCounter s code now = (c, true) -> now <= 4611686018427387904 ->
  valid s = true /\ hotp (key s) c totpDigits = code /\ Unix now ÷ totpPeriod - 1 <= c <= Unix now ÷ totpPeriod + 1 /\ 0 <= c.
Proof.
  unfold matchCounter. case_if as E1; [done|]. case_if as E2; [done|]. intros Hf Hn. to_prop.
  assert (0 <= Unix now ÷ totpPeriod <= 9223372036854775806) as Hc
    by (unfold Unix, totpPeriod, Second in *; Z.to_euclidean_division_equations; lia).
  destruct (try_delta_found s code _ [-1; 0; 1] (0, false) c Hc) as [?|(d & Hd & -> & ? & ?)]; try done.
  { repeat (apply Forall_cons; split; [lia|]). by apply Forall_nil. }
  split_and!; try done; try lia; set_unfold; destruct Hd as [->|[->|[->|[]]]]; lia.
Qed.

Context {St : Type} `{CounterStoreLaws St}.

(** The last accepted counter of each credential bounds the log. *)
Definition log_ok (y : St * list (CredentialRef * Z)) : Prop :=
  (forall e, e ∈ snd y -> snd e <= lastAccepted (fst y) (fst e)) /\
  StronglySorted (fun a b => fst a = fst b -> snd a < snd b) (snd y).

Lemma attempt_step_ok y t : log_ok y -> log_ok (attempt_step y t).
Proof.
  destruct y as [st log]. intros [Hl Hs]. unfold attempt_step, VerifyAndConsume.
  destruct (tCancelled t); [done|]. destruct (ref_valid (tRef t)); [|done]. simpl negb. cbv iota.
  destruct (matchCounter (tSecret t) (tCode t) (tNow t)) as [c [|]]; [|done].
  destruct (ConsumeCounter st (tRef t) c) as [st' [[|]|e]] eqn:Ec; simpl in *;
    pose proof (fun ref' => consume_mono _ _ _ _ _ ref' Ec) as Hm.
  - destruct (consume_true _ _ _ _ Ec) as [Hlt Heq]. split; simpl.
    + intros e. rewrite elem_of_app, list_elem_of_singleton. intros [He| ->]; simpl; [|lia].
      specialize (Hl e He). specialize (Hm (fst e)). lia.
    + apply StronglySorted_app_2; [|done|repeat constructor]. intros a b Ha Hb.
      apply list_elem_of_singleton in Hb as ->. simpl. intros E. specialize (Hl a Ha). rewrite E in Hl. lia.
  - split; [|done]. simpl. intros e He. specialize (Hl e He). specialize (Hm (fst e)). lia.
  - split; [|done]. simpl. intros e' He. specialize (Hl e' He). specialize (Hm (fst e')). lia.
Qed.

(** A one-time password is used once. Over any store that keeps the
    contract, and whatever the order of attempts and their failures, the
    counters accepted for a credential are strictly increasing: no code, and
    no older code of the window, is accepted twice. *)
Lemma totp_not_replayed st ts :
  StronglySorted (fun a b => fst a = fst b -> snd a < snd b) (snd (attempts (St:=St) st ts)).
Proof.
  enough (log_ok (attempts st ts)) as [_ ?] by done. unfold attempts. apply fold_left_ind.
  - split; simpl; [intros e He; by apply elem_of_nil in He | constructor].
  - intros. by apply attempt_step_ok.
Qed.

Lemma Uint32_bound l : Forall is_byte l -> 0 <= Uint32 l < 256 ^ Z.of_nat (List.length l).
Proof.
  unfold Uint32. intros Hl. induction l as [|b l IH] using rev_ind; [simpl; lia|].
  apply Forall_app in Hl as [Hl Hb]. apply Forall_cons in Hb as [Hb _]. unfold is_byte in Hb.
  rewrite fold_left_app. simpl. specialize (IH Hl). rewrite length_app. simpl.
  replace (Z.of_nat (List.length l + 1)) with (Z.succ (Z.of_nat (List.length l))) by lia.
  rewrite Z.pow_succ_r by lia. lia.
Qed.

Lemma zero_padded_digits n v :
  0 <= v -> String.length (zero_padded n v) = n /\ forallb is_digit (list_ascii_of_string (zero_padded n v)) = true.
Proof.
  revert v. induction n as [|n IH]; intros v Hv; [done|].
  cbn [zero_padded]. destruct (IH (v / 10)) as [H1' H2']; [apply Z.div_pos; lia|].
  assert (forall a b, list_ascii_of_string (a +:+ b) = list_ascii_of_string a ++ list_ascii_of_string b) as Happ.
  { induction a as [|x a IHa]; intros b; [done|]. 
    change (x :: list_ascii_of_string (a +:+ b) = x :: (list_ascii_of_string a ++ list_ascii_of_string b)). by rewrite IHa. }
  rewrite str_length_app, H1', Happ, forallb_app, H2'. split; [simpl; lia|]. simpl.
  rewrite andb_true_r. unfold is_digit, ascii_of, byte_of.
  rewrite N_ascii_embedding by (Z.to_euclidean_division_equations; lia).
  apply andb_true_iff. rewrite Z2N.id by (Z.to_euclidean_division_equations; lia).
  split; apply Z.leb_le; Z.to_euclidean_division_equations; lia.
Qed.

(** The code computed for a counter is always well formed: the dynamic
    truncation reads four bytes inside the digest, and the result has exactly
    the digits asked for, so it can equal a submitted code of six digits. *)
Lemma hotp_well_formed `{!HmacSha1Laws} k counter :
  let digest := hmac_sha1 k (big_endian 8 counter) in
  let offset := Z.land (default 0 (last digest)) 15 in
  0 <= offset /\ offset + 4 <= Z.of_nat (List.length digest) /\
  len (hotp k counter totpDigits) = 6 /\
  forallb is_digit (list_ascii_of_string (hotp k counter totpDigits)) = true.
Proof.
  intros digest offset. destruct (hmac_sha1_bytes k (big_endian 8 counter)) as [Hlen Hb]. fold digest in Hlen, Hb.
  assert (0 <= offset <= 15) as Ho.
  { assert (offset = default 0 (last digest) mod 16) as -> by (apply (Z.land_ones _ 4); lia).
    pose proof (Z.mod_pos_bound (default 0 (last digest)) 16). lia. }
  rewrite Hlen. destruct (zero_padded_digits 6 (Z.land (Uint32 (take 4 (drop (Z.to_nat offset) digest))) 2147483647 mod 1000000))
    as [H1' H2']; [apply Z.mod_pos_bound; lia|].
  unfold hotp, len. fold digest. fold offset. change (Z.to_nat totpDigits) with 6%nat. change (totpDigits =? 8) with false.
  cbv iota. rewrite H1', H2'. split_and!; lia || done.
Qed.
End totp_lemmas.

(** ** Calibration *)

(** What the loop appends to the samples and decides. *)
Definition calibrated (n : Z) (left : nat) (out out' : Calibration) : Prop :=
  exists ss, cSamples out' = cSamples out ++ ss /\ (List.length ss <= left)%nat /\
    smIterations <$> ss = seqZ n (Z.of_nat (List.length ss)) /\
    ((cTargetMet out' = false /\ cIterations out' = cIterations out) \/
     (cTargetMet out' = true /\ exists s, last ss = Some s /\ smIterations s = cIterations out' /\
        250 <= smMedianMS s <= 500)).

Lemma calibrate_spec measure expired left k n out out' :
  cTargetMet out = false -> calibrate measure expired left k n out = Ok out' -> calibrated n left out out'.
Proof.
  revert k n out. induction left as [|left IH]; intros k n out Ht HC; cbn [calibrate] in HC.
  { injection HC as <-. exists []. rewrite app_nil_r. split_and!; try done. by left. }
  destruct (measure k n); [|done]. destruct (measures measure expired (S k) n 3) as [ts|]; [|done].
  set (sm := mkSample n (median ts ÷ Millisecond)) in *.
  destruct ((250 * Millisecond <=? median ts) && (median ts <=? 500 * Millisecond)) eqn:E1.
  - injection HC as <-. to_prop. exists [sm]. simpl. split_and!; try done; [lia|]. right. split; [done|].
    exists sm. split_and!; try done; unfold sm, Millisecond in *; simpl; Z.to_euclidean_division_equations; lia.
  - destruct (500 * Millisecond <? median ts).
    + injection HC as <-. exists [sm]. simpl. split_and!; try done; [lia|]. by left.
    + apply IH in HC as (ss & Hs & Hl & Hi & Hd); [|done]. simpl in Hs. exists (sm :: ss).
      rewrite Hs, <- app_assoc. split_and!; [done | simpl; lia | |].
      * csimpl. rewrite Hi. simpl List.length. rewrite Nat2Z.inj_succ, (seqZ_cons n) by lia.
        do 2 f_equal; lia.
      * destruct Hd as [Hd|(Hm & s & Hlast & Hd)]; [by left|]. right. split; [done|]. exists s.
        split; [|done]. destruct ss; [done|]. done.
Qed.

Lemma calibratePassword_eq measure expired :
  calibratePassword measure expired = calibrate measure expired 9 0 2 (mkCalibration 1 65536 1 0 false []).
Proof. reflexivity. Qed.

Lemma calibrate_from_start measure expired left out : calibrate measure expired left 0 2 (mkCalibration 1 65536 1 0 false []) = Ok out ->
  smIterations <$> cSamples out = seqZ 2 (Z.of_nat (List.length (cSamples out))) /\
  (List.length (cSamples out) <= left)%nat /\
  (cTargetMet out = false -> cIterations out = 0) /\
  (cTargetMet out = true -> 2 <= cIterations out < 2 + Z.of_nat left /\
     exists s, last (cSamples out) = Some s /\ smIterations s = cIterations out /\ 250 <= smMedianMS s <= 500).
Proof.
  intros HC.
  apply calibrate_spec in HC as (ss & Hs & Hl & Hi & Hd); [|done]. simpl in *.
  rewrite Hs. split_and!; try done.
  - intros Ht. destruct Hd as [[_ ?]|[? _]]; [done | congruence].
  - intros Ht. destruct Hd as [[? _]|(_ & s & Hlast & Hit & Hm)]; [congruence|].
    split; [|by exists s]. rewrite <- Hit.
    assert (smIterations s ∈ (smIterations <$> ss)) as Hin.
    { apply list_elem_of_fmap_2. by apply last_Some_elem_of. }
    rewrite Hi in Hin. apply elem_of_seqZ in Hin. lia.
Qed.

(** Calibration stops after at most nine candidates, tried in order from
    two iterations up, and reports a number of iterations only if the median
    of its three measurements is between 250 and 500 milliseconds, in which
    case it is the last candidate tried; a missed target is reported as such
    and never downgraded to a cheaper setting. *)
Lemma calibration_sound measure expired out :
  calibratePassword measure expired = Ok out ->
  smIterations <$> cSamples out = seqZ 2 (Z.of_nat (List.length (cSamples out))) /\
  (List.length (cSamples out) <= 9)%nat /\
  (cTargetMet out = false -> cIterations out = 0) /\
  (cTargetMet out = true -> 2 <= cIterations out <= 10 /\
     exists s, last (cSamples out) = Some s /\ smIterations s = cIterations out /\ 250 <= smMedianMS s <= 500).
Proof.
  rewrite calibratePassword_eq. intros HC. destruct (calibrate_from_start _ _ _ _ HC) as (H1 & H2 & H3 & H4).
  split_and!; try assumption. intros Ht. destruct (H4 Ht) as [Hb Hs]. split; [lia | exact Hs].
Qed.

(** ** Witnesses *)

Definition wit_hmac : HmacSha1 := fun k m => replicate 20 7.

(** A store that keeps the last counter of every credential. *)
Definition wit_counters : CounterStore (CredentialRef -> Z) :=
  {| ConsumeCounter st ref c :=
       if st ref <? c then ((fun r => if decide (r = ref) then c else st r), Ok true) else (st, Ok false);
     lastAccepted st ref := st ref |}.

Lemma wit_counters_laws : @CounterStoreLaws (CredentialRef -> Z) wit_counters.
Proof.
  constructor; simpl.
  - intros st ref c st'. destruct (Z.ltb_spec (st ref) c); [|done]. intros [= <-].
    split; [done|]. by rewrite decide_True.
  - intros st ref c st' res ref'. destruct (Z.ltb_spec (st ref) c); intros [= <- _]; [|done].
    destruct (decide (ref' = ref)) as [->|]; lia.
Qed.

Definition wit_attempt (now : Z) : attempt :=
  mkAttempt false (mkRef "u1" 1) (mkSecret "secret" true) (@hotp wit_hmac "secret" 0 6) (now * Second).

End adminauth.
