(* ===== verification/Vault.v ===== *)
(** * Encrypted TOTP secrets: [src/internal/adminauth/pgstore/vault.go]

    Module [vault] translates the storage of second-factor secrets: the base32
    text of a secret ([src/internal/adminauth/totp.go]) sealed with AES-GCM
    under data that names the credential, and for a pending enrolment also the
    token. Nonces are arguments. *)

From S2P Require Import Prelude GoStd Keyring AdminAuth.
From stdpp Require Import base list gmap strings pretty.
From Stdlib Require Import ZArith Lia Ascii String.

Module vault.
Local Open Scope Z_scope.

(** ** Digits *)

(** The [n] digits of a number to a base, the most significant first. *)
Fixpoint to_digits (b : Z) (n : nat) (z : Z) : list Z :=
  match n with O => [] | S n' => to_digits b n' (z / b) ++ [z mod b] end.
Definition of_digits (b : Z) (l : list Z) : Z := fold_left (fun v d => v * b + d) l 0.

Lemma of_digits_app b l d : of_digits b (l ++ [d]) = of_digits b l * b + d.
Proof. unfold of_digits. by rewrite fold_left_app. Qed.
Lemma of_to_digits b n z : 0 < b -> 0 <= z < b ^ Z.of_nat n -> of_digits b (to_digits b n z) = z.
Proof.
  intros Hb. revert z. induction n as [|n IH]; intros z Hz; simpl to_digits; [simpl in Hz; unfold of_digits; simpl; lia|].
  rewrite of_digits_app, IH.
  - pose proof (Z.div_mod z b). lia.
  - rewrite Nat2Z.inj_succ, Z.pow_succ_r in Hz by lia. split; [apply Z.div_pos; lia | apply Z.div_lt_upper_bound; lia].
Qed.
Lemma of_digits_bound b l : 0 < b -> Forall (fun d => 0 <= d < b) l -> 0 <= of_digits b l < b ^ Z.of_nat (List.length l).
Proof.
  intros Hb. induction l as [|d l IH] using rev_ind; intros Hl; [unfold of_digits; simpl; lia|].
  apply Forall_app in Hl as [Hl [Hd _]%Forall_cons]. specialize (IH Hl). rewrite of_digits_app, length_app, Nat2Z.inj_add. simpl.
  rewrite Z.pow_add_r, Z.pow_1_r by lia. nia.
Qed.
Lemma to_of_digits b l : 0 < b -> Forall (fun d => 0 <= d < b) l -> to_digits b (List.length l) (of_digits b l) = l.
Proof.
  intros Hb. induction l as [|d l IH] using rev_ind; intros Hl; [done|]. apply Forall_app in Hl as [Hl [Hd _]%Forall_cons].
  rewrite length_app, Nat.add_comm, of_digits_app. cbn [List.length Nat.add to_digits].
  rewrite Z.div_add_l, (Z.div_small d b) by lia. rewrite Z.add_0_r, IH by done. f_equal. f_equal.
  rewrite Z.add_comm, Z.mod_add, Z.mod_small by lia. done.
Qed.
Lemma to_digits_range b n z : 0 < b -> Forall (fun d => 0 <= d < b) (to_digits b n z).
Proof.
  intros Hb. revert z. induction n as [|n IH]; intros z; simpl; [constructor|]. apply Forall_app. split; [apply IH|].
  apply Forall_singleton. apply Z.mod_pos_bound. lia.
Qed.
Lemma to_digits_length b n z : List.length (to_digits b n z) = n.
Proof. revert z. induction n as [|n IH]; intros z; [done|]. cbn [to_digits]. rewrite length_app, IH. simpl. lia. Qed.

(** ** Base32 without padding *)

(** A text of 160 bits is 32 digits of 5 bits: its groups of 40 bits are aligned. *)
Definition b32_char (d : Z) : ascii := if d <? 26 then ascii_of (65 + d) else ascii_of (24 + d).
Definition b32_digit (a : ascii) : option Z :=
  let c := byte_of a in
  if (65 <=? c) && (c <=? 90) then Some (c - 65) else if (50 <=? c) && (c <=? 55) then Some (c - 24) else None.
Definition upper (a : ascii) : ascii := if (97 <=? byte_of a) && (byte_of a <=? 122) then ascii_of (byte_of a - 32) else a.

Lemma b32_digit_char d : 0 <= d < 32 -> b32_digit (b32_char d) = Some d.
Proof.
  intros Hd. assert (Forall (fun i => b32_digit (b32_char (Z.of_nat i)) = Some (Z.of_nat i)) (seq 0 32)) as Hall
    by (vm_compute; repeat constructor).
  rewrite Forall_forall in Hall. specialize (Hall (Z.to_nat d)). rewrite Z2Nat.id in Hall by lia. apply Hall. apply elem_of_seq. lia.
Qed.
Lemma upper_char d : 0 <= d < 32 -> upper (b32_char d) = b32_char d.
Proof.
  intros Hd. assert (Forall (fun i => upper (b32_char (Z.of_nat i)) = b32_char (Z.of_nat i)) (seq 0 32)) as Hall
    by (vm_compute; repeat constructor).
  rewrite Forall_forall in Hall. specialize (Hall (Z.to_nat d)). rewrite Z2Nat.id in Hall by lia. apply Hall. apply elem_of_seq. lia.
Qed.

(** [ProvisioningBase32] and [ParseSecret]. *)
Definition ProvisioningBase32 (s : adminauth.Secret) : result adminauth.error string :=
  if negb (adminauth.valid s) then Err adminauth.ErrInvalidOrReplayed
  else Ok (string_of_list_ascii (b32_char <$> to_digits 32 32 (of_digits 256 (bytes (adminauth.key s))))).
Definition ParseSecret (value : string) : result adminauth.error adminauth.Secret :=
  if negb (len value =? 32) then Err adminauth.ErrInvalidOrReplayed else
  match mapM b32_digit (upper <$> list_ascii_of_string value) with
  | Some ds => Ok (adminauth.mkSecret (of_bytes (to_digits 256 20 (of_digits 32 ds))) true)
  | None => Err adminauth.ErrInvalidOrReplayed
  end.
(** [NewSecret]: 20 random bytes. *)
Definition NewSecret (random : string) : adminauth.Secret := adminauth.mkSecret random true.

(** A secret has a key of 20 bytes. *)
Definition secret_ok (s : adminauth.Secret) : Prop := adminauth.valid s = true /\ len (adminauth.key s) = 20.

Lemma parse_provisioned s text : secret_ok s -> ProvisioningBase32 s = Ok text -> len text = 32 /\ ParseSecret text = Ok s.
Proof.
  destruct s as [key valid]. intros [Hv Hk]. unfold ProvisioningBase32. cbn [adminauth.valid adminauth.key] in *. rewrite Hv. cbn [negb]. intros Ht.
  apply (f_equal (fun r => match r with Ok x => x | Err _ => "" end)) in Ht. cbv iota in Ht. subst text.
  set (z := of_digits 256 (bytes key)). set (ds := to_digits 32 32 z).
  assert (List.length ds = 32%nat) as Hl by apply to_digits_length.
  assert (len (string_of_list_ascii (b32_char <$> ds)) = 32) as Hlen.
  { unfold len. rewrite length_string_of_list_ascii, length_fmap, Hl. done. }
  split; [done|]. unfold ParseSecret. rewrite Hlen. cbn [Z.eqb Pos.eqb negb]. rewrite list_ascii_of_string_of_list_ascii.
  assert (Forall (fun d => 0 <= d < 32) ds) as Hr by (apply to_digits_range; lia).
  assert (mapM b32_digit (upper <$> (b32_char <$> ds)) = Some ds) as ->.
  { apply mapM_Some_2. clear -Hr. induction Hr as [|d ds Hd _ IH]; csimpl; constructor; [|done]. by rewrite upper_char, b32_digit_char. }
  assert (Forall (fun d => 0 <= d < 256) (bytes key)) as Hb by apply bytes_range.
  assert (List.length (bytes key) = 20%nat) as Hkl.
  { unfold bytes, len in *. rewrite length_fmap, <- length_string_of_list_ascii, string_of_list_ascii_of_string. lia. }
  assert (of_digits 32 ds = z) as ->.
  { apply of_to_digits; [lia|]. pose proof (of_digits_bound 256 _ ltac:(lia) Hb) as Hz. rewrite Hkl in Hz. fold z in Hz. exact Hz. }
  unfold z. rewrite <- Hkl, to_of_digits by (lia || done). rewrite of_bytes_bytes. by subst valid.
Qed.

(** ** [vault.go] *)

(** The expressions [safeID] and [safeKeyID]: letters, digits, [_] and [-]. *)
Definition safeID (s : string) : bool :=
  (1 <=? len s) && (len s <=? 128) && forallb adminauth.ref_byte (list_ascii_of_string s).
Definition safeKeyID (s : string) : bool :=
  (1 <=? len s) && (len s <=? 64) && forallb adminauth.ref_byte (list_ascii_of_string s).

Section vault.
Context `{AEAD}.

(** A vault is its keys by name; a nil one is [None]. *)
Definition Vault : Type := gmap string string.

Definition NewVault (keys : gmap string string) : result adminauth.error Vault :=
  if (size keys =? 0)%nat then Err adminauth.ErrAuthUnavailable else
  if forallb (fun k => safeKeyID k.1 && (len k.2 =? 32) && aes_key k.2) (map_to_list keys) then Ok keys
  else Err adminauth.ErrAuthUnavailable.

Definition associatedData (ref : adminauth.CredentialRef) (kid : string) : result adminauth.error string :=
  if negb (safeID (adminauth.UserID ref)) || (adminauth.RVersion ref =? 0) || negb (safeKeyID kid)
  then Err adminauth.ErrAuthUnavailable
  else Ok ("wr/admin/totp/v1:" +:+ adminauth.UserID ref +:+ ":" +:+ pretty (adminauth.RVersion ref) +:+ ":" +:+ kid).

(** [nonce] is what [rand.Read] gives. *)
Definition sealAAD (v : option Vault) (nonce aad kid : string) (secret : adminauth.Secret) : result adminauth.error string :=
  match v with
  | None => Err adminauth.ErrAuthUnavailable
  | Some keys =>
      match keys !! kid with
      | None => Err adminauth.ErrAuthUnavailable
      | Some key =>
          match ProvisioningBase32 secret with
          | Err _ => Err adminauth.ErrAuthUnavailable
          | Ok raw => Ok (nonce +:+ gcm_seal key nonce raw aad)
          end
      end
  end.
Definition openAAD (v : option Vault) (aad kid sealed : string) : result adminauth.error adminauth.Secret :=
  match v with
  | None => Err adminauth.ErrAuthUnavailable
  | Some keys =>
      match keys !! kid with
      | None => Err adminauth.ErrAuthUnavailable
      | Some key =>
          if negb (len sealed =? 60) then Err adminauth.ErrAuthUnavailable else
          match gcm_open key (str_take NonceSize sealed) (str_drop NonceSize sealed) aad with
          | None => Err adminauth.ErrAuthUnavailable
          | Some raw =>
              match ParseSecret raw with Err _ => Err adminauth.ErrAuthUnavailable | Ok secret => Ok secret end
          end
      end
  end.

Definition enrollment_suffix (token : string) : string := ":enrollment:" +:+ hex_EncodeToString token.

Definition Seal (v : option Vault) (nonce : string) (ref : adminauth.CredentialRef) (kid : string) (secret : adminauth.Secret)
    : result adminauth.error string :=
  match associatedData ref kid with Err e => Err e | Ok aad => sealAAD v nonce aad kid secret end.
Definition sealEnrollment (v : option Vault) (nonce : string) (ref : adminauth.CredentialRef) (kid token : string)
    (secret : adminauth.Secret) : result adminauth.error string :=
  match associatedData ref kid with Err e => Err e | Ok aad => sealAAD v nonce (aad +:+ enrollment_suffix token) kid secret end.
Definition openEnrollment (v : option Vault) (ref : adminauth.CredentialRef) (kid token sealed : string)
    : result adminauth.error adminauth.Secret :=
  match associatedData ref kid with Err e => Err e | Ok aad => openAAD v (aad +:+ enrollment_suffix token) kid sealed end.
Definition open (v : option Vault) (ref : adminauth.CredentialRef) (kid sealed : string) : result adminauth.error adminauth.Secret :=
  match associatedData ref kid with Err e => Err e | Ok aad => openAAD v aad kid sealed end.

(** ** Round trips *)

Lemma open_sealed_aad `{!AEADLaws} v nonce aad kid secret sealed :
  secret_ok secret -> String.length nonce = NonceSize -> sealAAD v nonce aad kid secret = Ok sealed ->
  len sealed = 60 /\ openAAD v aad kid sealed = Ok secret.
Proof.
  intros Hs Hn. unfold sealAAD, openAAD. destruct v as [keys|]; [|done]. destruct (keys !! kid) as [key|]; [|done].
  destruct (ProvisioningBase32 secret) as [raw|] eqn:Er; [|done]. destruct (parse_provisioned _ _ Hs Er) as [Hl Hp].
  intros Hd. apply (f_equal (fun r => match r with Ok x => x | Err _ => "" end)) in Hd. cbv iota in Hd. subst sealed.
  assert (len (nonce +:+ gcm_seal key nonce raw aad) = 60) as Hlen.
  { unfold len in *. rewrite str_length_app, gcm_length, Hn. unfold NonceSize, Overhead. lia. }
  split; [done|]. rewrite Hlen. cbn [Z.eqb Pos.eqb negb]. rewrite <- Hn, str_take_app, str_drop_app, gcm_roundtrip, Hp. done.
Qed.
End vault.
End vault.
