(* ===== verification/Password.v ===== *)
(** * Password records: [src/internal/adminauth/password.go]

    Module [password] translates the stored encoding, its parser, hashing and
    verification. Argon2id is a parameter: [golang.org/x/crypto] is not part of
    the repository. A derivation takes one of two process-wide slots and fails
    when none is free; each operation returns the derivations it ran, so that
    their cost can be stated. *)

From S2P Require Import Prelude GoStd.
From stdpp Require Import base list strings pretty.
From Stdlib Require Import ZArith Lia Ascii String.

Module password.
Local Open Scope Z_scope.

Inductive error := ErrUnauthenticated | ErrAuthUnavailable.

Definition PasswordMemoryKiB : Z := 65536.
Definition MaxPasswordBytes : Z := 1024.
Definition Slots : Z := 2.

Definition ValidLoginPassword (p : string) : bool :=
  (0 <? len p) && (len p <=? MaxPasswordBytes) && match utf8.runes p with Some _ => true | None => false end.

Definition rune_count (p : string) : Z :=
  match utf8.runes p with Some cs => Z.of_nat (List.length cs) | None => 0 end.

Definition passwordEncoding (iterations : Z) (salt hash : string) : string :=
  "wrp1$argon2id$v=19$m=65536,t=" +:+ pretty (Z.to_N iterations) +:+ ",p=1$" +:+
  base64.StdEncodeToString salt +:+ "$" +:+ base64.StdEncodeToString hash.

(** [strings.TrimPrefix] and [strings.TrimSuffix]. *)
Definition TrimPrefix (s p : string) : string :=
  if strs.HasPrefix s p then str_drop (String.length p) s else s.
Definition TrimSuffix (s p : string) : string :=
  if strs.HasSuffix s p then str_take (String.length s - String.length p) s else s.

(** [strconv.ParseUint(s, 10, 32)]. *)
Definition ParseUint (s : string) : option Z :=
  let cs := list_ascii_of_string s in
  if (len s =? 0) || negb (forallb (fun a => (48 <=? byte_of a) && (byte_of a <=? 57)) cs) then None else
  let v := fold_left (fun n a => n * 10 + (byte_of a - 48)) cs 0 in
  if 4294967295 <? v then None else Some v.

Definition parsePassword (value : string) : option (Z * string * string) :=
  if 160 <? len value then None else
  match strs.split_byte "$" value with
  | [p0; p1; p2; p3; p4; p5] =>
      if negb (String.eqb p0 "wrp1" && String.eqb p1 "argon2id" && String.eqb p2 "v=19") then None else
      match ParseUint (TrimSuffix (TrimPrefix p3 "m=65536,t=") ",p=1") with
      | None => None
      | Some parsed =>
          if (parsed <? 2) || (10 <? parsed) then None else
          match base64.StdStrictDecodeString p4 with
          | None => None
          | Some salt =>
              if negb (len salt =? 16) then None else
              match base64.StdStrictDecodeString p5 with
              | None => None
              | Some key =>
                  if negb (len key =? 32) then None else
                  if negb (String.eqb (passwordEncoding parsed salt key) value) then None
                  else Some (parsed, salt, key)
              end
          end
      end
  | _ => None
  end.

Section hasher.
(** [argon2.IDKey(password, salt, iterations, 65536, 1, 32)]. *)
Context (IDKey : string -> string -> Z -> string).

(** What the environment does to a call: the context's state before and after
    the derivation and the slots other calls hold. *)
Record env := mkEnv { cancelledBefore : bool; cancelledAfter : bool; slotsInUse : Z }.

(** The derivations run: salt and iterations. *)
Definition trace : Type := list (string * Z).

Definition derivePassword (e : env) (p salt : string) (iterations : Z) : trace * result error string :=
  if cancelledBefore e then ([], Err ErrAuthUnavailable) else
  if Slots <=? slotsInUse e then ([], Err ErrAuthUnavailable) else
  let r := IDKey p salt iterations in
  ([(salt, iterations)], if cancelledAfter e then Err ErrAuthUnavailable else Ok r).

(** A static hasher; a nil one is [None]. *)
Record PasswordHasher := mkHasher { iterations : Z; dummy : string }.

Definition out_of_range (n : Z) : bool := (n <? 2) || (10 <? n).

Definition Hash (h : option PasswordHasher) (e : env) (p salt : string) : trace * result error string :=
  match h with
  | None => ([], Err ErrAuthUnavailable)
  | Some h =>
      if out_of_range (iterations h) then ([], Err ErrAuthUnavailable) else
      if negb (ValidLoginPassword p) || (rune_count p <? 15) then ([], Err ErrUnauthenticated) else
      match derivePassword e p salt (iterations h) with
      | (t, Err x) => (t, Err x)
      | (t, Ok key) => (t, Ok (passwordEncoding (iterations h) salt key))
      end
  end.

(** [random] is the token of [NewCSRFToken], [salt] the salt of the dummy. *)
Definition NewPasswordHasher (e : env) (n : Z) (random salt : string) : result error PasswordHasher :=
  if out_of_range n then Err ErrAuthUnavailable else
  match Hash (Some (mkHasher n "")) e random salt with
  | (_, Err x) => Err x
  | (_, Ok d) => Ok (mkHasher n d)
  end.

Definition Verify (h : option PasswordHasher) (e : env) (p stored : string) : trace * result error bool :=
  match h with
  | None => ([], Err ErrAuthUnavailable)
  | Some h =>
      if out_of_range (iterations h) || String.eqb (dummy h) "" then ([], Err ErrAuthUnavailable) else
      if negb (ValidLoginPassword p) then ([], Err ErrUnauthenticated) else
      let parsed := parsePassword stored in
      let valid := match parsed with Some (n, _, _) => n =? iterations h | None => false end in
      let '(n, salt, key) := default (0, "", "") (if valid then parsed else parsePassword (dummy h)) in
      match derivePassword e p salt n with
      | (t, Err x) => (t, Err x)
      | (t, Ok actual) =>
          let equal := String.eqb actual key in
          if negb (String.eqb stored "") && negb valid then (t, Err ErrAuthUnavailable)
          else (t, Ok (valid && equal))
      end
  end.

(** ** Lemmas *)

Lemma parse_canonical v n salt key :
  parsePassword v = Some (n, salt, key) ->
  v = passwordEncoding n salt key /\ 2 <= n <= 10 /\ len salt = 16 /\ len key = 32.
Proof.
  unfold parsePassword. case_if as E1; [done|].
  destruct (strs.split_byte "$" v) as [|p0 [|p1 [|p2 [|p3 [|p4 [|p5 [|? ?]]]]]]]; try done.
  case_if as E2; [done|]. destruct (ParseUint _) as [m|]; [|done]. case_if as E3; [done|].
  destruct (base64.StdStrictDecodeString p4) as [s|]; [|done]. case_if as E4; [done|].
  destruct (base64.StdStrictDecodeString p5) as [k|]; [|done]. case_if as E5; [done|].
  case_if as E6; [done|]. intros [= -> -> ->]. to_prop. split_and!; (done || lia).
Qed.

(** The parameter field of a record for the permitted iterations. *)
Definition params (n : Z) : string := "m=65536,t=" +:+ pretty (Z.to_N n) +:+ ",p=1".

Lemma params_parse n :
  2 <= n <= 10 ->
  strs.contains_byte "$" (params n) = false /\ len (params n) <= 20 /\
  ParseUint (TrimSuffix (TrimPrefix (params n) "m=65536,t=") ",p=1") = Some n.
Proof.
  intros Hn.
  assert (n = 2 \/ n = 3 \/ n = 4 \/ n = 5 \/ n = 6 \/ n = 7 \/ n = 8 \/ n = 9 \/ n = 10) as Hc by lia.
  repeat destruct Hc as [-> | Hc]; try subst n; split_and!; by vm_compute.
Qed.

Lemma split_tail p3 salt key :
  strs.contains_byte "$" p3 = false ->
  strs.split_byte "$" (p3 +:+ ("$" +:+ (base64.StdEncodeToString salt +:+ ("$" +:+ base64.StdEncodeToString key))))
    = [p3; base64.StdEncodeToString salt; base64.StdEncodeToString key].
Proof.
  intros Hd. set (s := base64.StdEncodeToString salt). set (k := base64.StdEncodeToString key).
  transitivity (strs.split_byte "$" (p3 +:+ String "$" (s +:+ String "$" k))); [reflexivity|].
  rewrite (strs.split_cons _ p3 _ Hd), strs.split_cons by (apply base64.encode_no_sep; by right).
  by rewrite strs.split_none by (apply base64.encode_no_sep; by right).
Qed.

Lemma parse_encoding n salt key :
  2 <= n <= 10 -> len salt = 16 -> len key = 32 ->
  parsePassword (passwordEncoding n salt key) = Some (n, salt, key).
Proof.
  intros Hn Hs Hk. set (v := passwordEncoding n salt key).
  destruct (params_parse n Hn) as (Hd & Hl & Hu). set (p3 := params n) in *.
  assert (v = "wrp1$argon2id$v=19$" +:+ (p3 +:+ ("$" +:+ (base64.StdEncodeToString salt +:+ ("$" +:+
    base64.StdEncodeToString key))))) as Ev.
  { unfold v, passwordEncoding, p3, params.
    change "wrp1$argon2id$v=19$m=65536,t=" with ("wrp1$argon2id$v=19$" +:+ "m=65536,t=").
    change ",p=1$" with (",p=1" +:+ "$"). by rewrite !str_app_assoc. }
  unfold parsePassword.
  assert (len v <= 160) as Hlen.
  { rewrite Ev. unfold len in *. rewrite !str_length_app, !Nat2Z.inj_add.
    pose proof (base64.encode_length false salt) as E1. pose proof (base64.encode_length false key) as E2.
    unfold len in E1, E2. rewrite Hs in E1. rewrite Hk in E2.
    unfold base64.StdEncodeToString. rewrite E1, E2. change (Z.of_nat (String.length "wrp1$argon2id$v=19$")) with 19.
    change (Z.of_nat (String.length "$")) with 1. change ((4 * 16 + 2) / 3) with 22. change ((4 * 32 + 2) / 3) with 43. lia. }
  rewrite (proj2 (Z.ltb_ge _ _) Hlen).
  assert (strs.split_byte "$" v = ["wrp1"; "argon2id"; "v=19"; p3; base64.StdEncodeToString salt;
    base64.StdEncodeToString key]) as ->.
  { rewrite Ev. generalize (split_tail p3 salt key Hd). set (rest := p3 +:+ _). intros Hrest.
    transitivity (strs.split_byte "$" ("wrp1" +:+ String "$" ("argon2id" +:+ String "$" ("v=19" +:+ String "$" rest)))).
    { reflexivity. }
    rewrite !strs.split_cons by done. by rewrite Hrest. }
  simpl String.eqb. cbn [negb andb]. rewrite Hu.
  rewrite (proj2 (Z.ltb_ge n 2)), (proj2 (Z.ltb_ge 10 n)) by lia. simpl orb. cbv iota.
  unfold base64.StdStrictDecodeString, base64.StdEncodeToString. rewrite !base64.decode_encode, Hs, Hk.
  simpl negb. cbv iota. fold v. by rewrite String.eqb_refl.
Qed.

(** A derivation that runs uses the arguments it was given. *)
Lemma derive_ok e p salt n t r :
  derivePassword e p salt n = (t, Ok r) -> t = [(salt, n)] /\ r = IDKey p salt n.
Proof.
  unfold derivePassword. case_if as E1; [done|]. case_if as E2; [done|]. case_if as E3; [done|].
  by intros [= <- <-].
Qed.

(** The dummy record of a hasher made by [NewPasswordHasher]. *)
Definition hasher_ok (h : PasswordHasher) : Prop :=
  2 <= iterations h <= 10 /\ exists salt key, parsePassword (dummy h) = Some (iterations h, salt, key).

Lemma NewPasswordHasher_ok e n random salt h :
  NewPasswordHasher e n random salt = Ok h -> len salt = 16 ->
  (forall p s k, len (IDKey p s k) = 32) -> hasher_ok h /\ iterations h = n /\ dummy h <> "".
Proof.
  unfold NewPasswordHasher, Hash. case_if as E1; [done|]. simpl. rewrite E1. case_if as E2; [done|].
  destruct (derivePassword e random salt n) as [t [k|x]] eqn:Ed; [|done]. intros [= <-] Hs Hk.
  destruct (derive_ok _ _ _ _ _ _ Ed) as [_ ->]. unfold out_of_range in E1. to_prop.
  split_and!; try done. split; [simpl; lia|]. exists salt, (IDKey random salt n). simpl. apply parse_encoding; [lia | done | done].
Qed.

(** A stored password verifies, and only with the text that was hashed up
    to a collision of the derivation. The record written by [Hash] parses back
    to its parameters; verifying with the same hasher succeeds with [true]
    exactly when the derivation of the submitted password with the record's
    salt equals the stored key, whenever a slot is free and the context
    alive. *)
Lemma password_roundtrip h e e' p salt t stored q :
  (forall p s k, len (IDKey p s k) = 32) -> hasher_ok h -> len salt = 16 ->
  Hash (Some h) e p salt = (t, Ok stored) -> ValidLoginPassword q = true ->
  cancelledBefore e' = false -> cancelledAfter e' = false -> slotsInUse e' < Slots ->
  parsePassword stored = Some (iterations h, salt, IDKey p salt (iterations h)) /\
  snd (Verify (Some h) e' q stored) = Ok (String.eqb (IDKey q salt (iterations h)) (IDKey p salt (iterations h))) /\
  snd (Verify (Some h) e' p stored) = Ok true.
Proof.
  intros Hk [Hn (ds & dk & Hd)] Hs HH Hq Hc1 Hc2 Hsl. unfold Hash in HH.
  destruct (out_of_range (iterations h)) eqn:Eo; [done|].
  destruct (negb (ValidLoginPassword p) || (rune_count p <? 15)) eqn:Ep; [done|]. to_prop.
  destruct (derivePassword e p salt (iterations h)) as [t' [k|x]] eqn:Ed; [|done]. injection HH as <- <-.
  destruct (derive_ok _ _ _ _ _ _ Ed) as [_ ->].
  pose proof (parse_encoding (iterations h) salt (IDKey p salt (iterations h)) Hn Hs (Hk _ _ _)) as Hparse.
  assert (dummy h <> "") as Hdm by (intros E; rewrite E in Hd; by vm_compute in Hd).
  assert (forall x, ValidLoginPassword x = true ->
    snd (Verify (Some h) e' x (passwordEncoding (iterations h) salt (IDKey p salt (iterations h))))
      = Ok (String.eqb (IDKey x salt (iterations h)) (IDKey p salt (iterations h)))) as HV.
  { intros x Hx. unfold Verify. rewrite Eo, (proj2 (String.eqb_neq _ _) Hdm), Hx. cbn [orb negb]. cbv zeta.
    rewrite Hparse, Z.eqb_refl. cbn [default]. unfold derivePassword.
    rewrite Hc1, Hc2, (proj2 (Z.leb_gt _ _) Hsl). cbn [negb]. by rewrite andb_false_r. }
  split_and!; [done | by apply HV |]. rewrite HV by done. by rewrite String.eqb_refl.
Qed.

(** Verification does not reveal by its cost whether an account exists.
    With a hasher the installation made, whatever is stored (a record of this
    installation, one with other parameters, garbage, or nothing), a check of
    a well-formed password with a free slot runs exactly one derivation with
    the installation's iterations, and an absent record never verifies. *)
Lemma verify_constant_cost h e p stored :
  hasher_ok h -> dummy h <> "" -> ValidLoginPassword p = true -> cancelledBefore e = false -> slotsInUse e < Slots ->
  (exists salt, fst (Verify (Some h) e p stored) = [(salt, iterations h)] /\ len salt = 16) /\
  snd (Verify (Some h) e p "") <> Ok true.
Proof.
  intros [Hn (ds & dk & Hd)] Hdm Hp Hc Hs.
  assert (out_of_range (iterations h) = false) as Eo.
  { unfold out_of_range. apply orb_false_iff. split; apply Z.ltb_ge; lia. }
  unfold Verify. rewrite Eo, (proj2 (String.eqb_neq _ _) Hdm), Hp. cbn [orb negb]. cbv zeta. split.
  - assert (exists salt key, (if match parsePassword stored with Some (n, _, _) => n =? iterations h | None => false end
              then parsePassword stored else parsePassword (dummy h)) = Some (iterations h, salt, key) /\ len salt = 16)
      as (salt & key & E & Hl).
    { destruct (parsePassword stored) as [[[n s] k]|] eqn:Ep.
      - destruct (Z.eqb_spec n (iterations h)) as [->|].
        + exists s, k. split; [done|]. by destruct (parse_canonical _ _ _ _ Ep) as (_ & _ & ? & _).
        + exists ds, dk. split; [done|]. by destruct (parse_canonical _ _ _ _ Hd) as (_ & _ & ? & _).
      - exists ds, dk. split; [done|]. by destruct (parse_canonical _ _ _ _ Hd) as (_ & _ & ? & _). }
    exists salt. split; [|done]. rewrite E. cbn [default]. unfold derivePassword.
    rewrite Hc, (proj2 (Z.leb_gt _ _) Hs). destruct (cancelledAfter e); [done|]. by case_if as E1.
  - change (parsePassword "") with (@None (Z * string * string)). rewrite Hd. cbn [default]. unfold derivePassword.
    rewrite Hc, (proj2 (Z.leb_gt _ _) Hs). by destruct (cancelledAfter e).
Qed.
End hasher.

(** ** A concrete derivation for the witnesses *)

Definition wit_IDKey (p salt : string) (n : Z) : string :=
  str_take 32 (p +:+ salt +:+ "0123456789abcdef0123456789abcdef").
Definition wit_env : env := mkEnv false false 1.
Definition wit_salt : string := "0123456789abcdef".
Definition wit_password : string := "correct horse battery".
Definition wit_hasher : PasswordHasher :=
  mkHasher 3 (passwordEncoding 3 wit_salt "abcdefghijklmnopqrstuvwxyz012345").
Definition wit_stored : string :=
  match snd (Hash wit_IDKey (Some wit_hasher) wit_env wit_password wit_salt) with Ok s => s | Err _ => "" end.

Lemma str_take_length n s : (n <= String.length s)%nat -> String.length (str_take n s) = n.
Proof.
  revert s. induction n as [|n IH]; intros [|a s] Hl; simpl in *; [done | done | lia | f_equal; apply IH; lia].
Qed.

Lemma wit_IDKey_length p s n : len (wit_IDKey p s n) = 32.
Proof.
  unfold len, wit_IDKey. rewrite str_take_length; [done|]. rewrite !str_length_app. simpl. lia.
Qed.

Lemma wit_hasher_ok : hasher_ok wit_hasher.
Proof.
  split; [simpl; lia|]. exists wit_salt, "abcdefghijklmnopqrstuvwxyz012345". apply parse_encoding; [simpl; lia | done | done].
Qed.

End password.
