(* ===== verification/Windows.v ===== *)
(** * Sliding counters of a data node: [src/internal/runtimeplane]

    Module [windows] translates [arrivalWindow] ([node.go]) and
    [httpErrorWindow] ([http_metrics.go]): rings of one-second buckets under a
    mutex. Each is refined to a log of the observed seconds: a snapshot counts
    the observations of the window, whatever the interleaving of observations
    and snapshots and however the clock moves. Times are in seconds, the value
    of [time.Time.Unix]. [syncDiagnostic] ([diagnostics.go]) limits repeated
    diagnostics. *)

From S2P Require Import Prelude GoStd.
From stdpp Require Import base list strings sets.
From Stdlib Require Import ZArith Lia Ascii String.

Module windows.
Local Open Scope Z_scope.

(** A bucket: the second it counts and the count, [seconds[i]] and [counts[i]]. *)
Definition empty (n : nat) : list (Z * Z) := replicate n (0, 0).

Definition slot (l : list (Z * Z)) (i : Z) : Z * Z := default (0, 0) (l !! Z.to_nat i).

(** The bucket update of [observe], with the bound on a bucket, if any. *)
Definition bump (cap : option Z) (l : list (Z * Z)) (i sec : Z) : list (Z * Z) :=
  let '(s, c) := slot l i in
  let c := if negb (s =? sec) then 0 else c in
  let c := match cap with Some m => if c <? m then c + 1 else c | None => c + 1 end in
  <[Z.to_nat i := (sec, c)]> l.

(** The loop of [snapshot] over the buckets. *)
Definition total (n : Z) (l : list (Z * Z)) (sec : Z) : Z :=
  fold_right (fun b t => (if (sec - n <? fst b) && (fst b <=? sec) then snd b else 0) + t) 0 l.

(** ** [httpErrorWindow] *)

Record httpErrorWindow := mkHttp { hStarted : Z; hLast : Z; hRing : list (Z * Z) }.

Definition http_new (now : Z) : httpErrorWindow := mkHttp now now (empty 60).

Definition http_advance (a : httpErrorWindow) (sec : Z) : httpErrorWindow :=
  if (sec <? hLast a) || (hStarted a =? 0) then mkHttp sec sec (empty 60)
  else mkHttp (hStarted a) sec (hRing a).

(** [(sec%60 + 60) % 60] with Go's truncated remainder. *)
Definition http_index (sec : Z) : Z := Z.rem (Z.rem sec 60 + 60) 60.

Definition http_observe (a : httpErrorWindow) (sec : Z) : httpErrorWindow :=
  let a := http_advance a sec in mkHttp (hStarted a) (hLast a) (bump None (hRing a) (http_index sec) sec).

Definition http_snapshot (a : httpErrorWindow) (sec : Z) : httpErrorWindow * (Z * bool) :=
  let a := http_advance a sec in (a, (total 60 (hRing a) sec, 60 <=? sec - hStarted a)).

(** [httpErrorWriter]: the status of a response is observed once, when final. *)
Record httpErrorWriter := mkWriter { wFinal : bool; wWindow : option httpErrorWindow }.

Definition WriteHeader (w : httpErrorWriter) (status now : Z) : httpErrorWriter :=
  if negb (wFinal w) && ((200 <=? status) || (status =? 101)) then
    mkWriter true (if (500 <=? status) && (status <=? 599) then (fun a => http_observe a now) <$> wWindow w else wWindow w)
  else w.
(** [Write] and [FlushError] send an implicit 200 first. *)
Definition Write (w : httpErrorWriter) (now : Z) : httpErrorWriter :=
  if negb (wFinal w) then WriteHeader w 200 now else w.

(** ** [arrivalWindow] *)

Record arrivalWindow := mkArrivals { aStarted : Z; aLast : Z; aRing : list (Z * Z) }.

Definition arrivals_new (now : Z) : arrivalWindow := mkArrivals now 0 (empty 300).

Definition arrival_observe (a : arrivalWindow) (sec : Z) : arrivalWindow :=
  let a := if sec <? aLast a then mkArrivals sec (aLast a) (empty 300) else a in
  let started := if aStarted a =? 0 then sec else aStarted a in
  mkArrivals started sec (bump (Some 333333) (aRing a) (Z.rem sec 300) sec).

Definition arrival_snapshot (a : arrivalWindow) (sec : Z) : Z * bool :=
  if sec <? aLast a then (0, false)
  else (total 300 (aRing a) sec, (0 <? aStarted a) && (300 <=? sec - aStarted a)).

(** ** [syncDiagnostic] *)

Record syncDiagnostic := mkDiagnostic { dLast : string; dAt : Z }.
Inductive report := Silent | Recovered | Pending.

(** [observe]; instants in nanoseconds, the report without its text. *)
Definition diag_observe (d : syncDiagnostic) (stage code : string) (now : Z) : syncDiagnostic * report :=
  if String.eqb stage "" then
    if String.eqb (dLast d) "" then (d, Silent) else (mkDiagnostic "" now, Recovered)
  else
    let key := stage +:+ ":" +:+ code in
    if String.eqb key (dLast d) && (0 <=? now - dAt d) && (now - dAt d <? 60000000000) then (d, Silent)
    else (mkDiagnostic key now, Pending).

(** ** The ring refines a log of seconds *)

(** Observations of residue [i], and of one second. *)
Definition count_res (n i : Z) (log : list Z) : Z := Z.of_nat (countb (fun o => o mod n =? i) log).
Definition count_sec (s : Z) (log : list Z) : Z := Z.of_nat (countb (fun o => o =? s) log).
Definition in_last (n sec o : Z) : bool := (sec - n <? o) && (o <=? sec).

Definition capped (cap : option Z) (z : Z) : Z := match cap with Some m => Z.min m z | None => z end.

(** A bucket holds the newest observed second of its residue and its count. *)
Definition bucket_ok (n : Z) (cap : option Z) (log : list Z) (i : Z) (b : Z * Z) : Prop :=
  (count_res n i log = 0 /\ snd b = 0) \/
  (fst b ∈ log /\ fst b mod n = i /\ (forall o, o ∈ log -> o mod n = i -> o <= fst b) /\
   snd b = capped cap (count_sec (fst b) log)).

Definition ring_ok (n : Z) (cap : option Z) (log : list Z) (l : list (Z * Z)) : Prop :=
  Z.of_nat (List.length l) = n /\ forall i, 0 <= i < n -> bucket_ok n cap log i (slot l i).

Lemma countb_snoc {A} (p : A -> bool) l x : countb p (l ++ [x]) = (countb p l + if p x then 1 else 0)%nat.
Proof. rewrite countb_app. unfold countb at 2. simpl. by destruct (p x). Qed.

Lemma countb_pos {A} (p : A -> bool) l x : x ∈ l -> p x = true -> (0 < countb p l)%nat.
Proof.
  intros Hx Hp. unfold countb. assert (x ∈ List.filter p l) as Hin
    by (apply list_elem_of_In, List.filter_In; split; [by apply list_elem_of_In | done]).
  destruct (List.filter p l); [by apply elem_of_nil in Hin | simpl; lia].
Qed.

Lemma count_res_zero n i log o : count_res n i log = 0 -> o ∈ log -> o mod n <> i.
Proof.
  intros Hz Ho E. pose proof (countb_pos (fun o => o mod n =? i) log o Ho (proj2 (Z.eqb_eq _ _) E)).
  unfold count_res in Hz. lia.
Qed.

Lemma empty_ok n cap : 0 <= n -> ring_ok n cap [] (empty (Z.to_nat n)).
Proof.
  intros Hn. unfold ring_ok, empty. rewrite length_replicate. split; [lia|]. intros i Hi. left.
  unfold slot. rewrite lookup_replicate_2 by lia. done.
Qed.

Lemma slot_bump cap l i j sec :
  0 <= i < Z.of_nat (List.length l) -> 0 <= j ->
  slot (bump cap l i sec) j =
    if j =? i then
      (sec, let c := if negb (fst (slot l i) =? sec) then 0 else snd (slot l i) in
            match cap with Some m => if c <? m then c + 1 else c | None => c + 1 end)
    else slot l j.
Proof.
  intros Hi Hj. unfold bump. destruct (slot l i) as [s c] eqn:E. unfold slot at 1.
  destruct (Z.eqb_spec j i) as [->|Hne].
  - rewrite list_lookup_insert_eq by lia. done.
  - rewrite list_lookup_insert_ne by lia. done.
Qed.

Lemma capped_step cap z :
  0 <= z -> (match cap with Some m => 0 < m | None => True end) ->
  (match cap with Some m => if capped cap z <? m then capped cap z + 1 else capped cap z | None => capped cap z + 1 end)
    = capped cap (z + 1).
Proof. intros Hz Hm. destruct cap as [m|]; simpl in *; [|done]. destruct (Z.ltb_spec (Z.min m z) m); lia. Qed.

(** Observing a second not older than the log keeps the refinement. *)
Lemma bump_ok n cap log l sec :
  0 < n -> (match cap with Some m => 0 < m | None => True end) ->
  ring_ok n cap log l -> (forall o, o ∈ log -> o <= sec) ->
  ring_ok n cap (log ++ [sec]) (bump cap l (sec mod n) sec).
Proof.
  intros Hn Hcap [Hlen Hb] Hlast. pose proof (Z.mod_pos_bound sec n Hn) as Hi. split.
  { unfold bump. destruct (slot l (sec mod n)). by rewrite length_insert. }
  intros j Hj. rewrite slot_bump by lia. destruct (Z.eqb_spec j (sec mod n)) as [->|Hne].
  - right. simpl. split_and!; [set_solver | done | set_solver |].
    unfold count_sec. rewrite countb_snoc, Z.eqb_refl, Nat2Z.inj_add. fold (count_sec sec log).
    rewrite <- capped_step by (unfold count_sec; (lia || done)).
    assert ((if negb (fst (slot l (sec mod n)) =? sec) then 0 else snd (slot l (sec mod n)))
            = capped cap (count_sec sec log)) as ->; [|done].
    destruct (Hb _ Hi) as [[Hz Hc]|(Hin & Hmod & Hmax & Hc)].
    + assert (count_sec sec log = 0) as ->.
      { unfold count_sec. rewrite countb_none; [done|]. apply Forall_forall. intros o Ho. apply Z.eqb_neq.
        intros ->. by apply (count_res_zero n (sec mod n) log sec). }
      rewrite Hc. destruct cap; simpl in *; (case_if as E; lia).
    + destruct (Z.eqb_spec (fst (slot l (sec mod n))) sec) as [E|E]; simpl; [by rewrite Hc, E|].
      assert (count_sec sec log = 0) as ->; [|destruct cap; simpl in *; lia].
      unfold count_sec. rewrite countb_none; [done|]. apply Forall_forall. intros o Ho. apply Z.eqb_neq.
      intros ->. specialize (Hmax sec Ho eq_refl). specialize (Hlast _ Hin). lia.
  - assert (sec mod n <> j) as Hne' by done.
    assert (count_res n j (log ++ [sec]) = count_res n j log) as Er.
    { unfold count_res. rewrite countb_snoc, (proj2 (Z.eqb_neq _ _) Hne'). lia. }
    destruct (Hb j Hj) as [[Hz Hc]|(Hin & Hmod & Hmax & Hc)]; [left; by rewrite Er|].
    right. split_and!; [set_solver | done | |].
    + intros o Ho Eo. apply elem_of_app in Ho as [Ho|Ho]; [by apply Hmax|]. apply list_elem_of_singleton in Ho. congruence.
    + rewrite Hc. f_equal. unfold count_sec. rewrite countb_snoc.
      destruct (Z.eqb_spec sec (fst (slot l j))) as [E|]; [|lia]. rewrite <- E in Hmod. done.
Qed.

(** The second of the window that ends at [sec] with residue [i]. *)
Definition window_sec (n sec i : Z) : Z := sec - (sec - i) mod n.

Lemma window_sec_mod n sec i : 0 <= i < n -> window_sec n sec i mod n = i.
Proof.
  intros Hi. unfold window_sec. rewrite Zminus_mod_idemp_r.
  replace (sec - (sec - i)) with i by lia. by apply Z.mod_small.
Qed.

Lemma window_sec_unique n sec i o :
  0 < n -> sec - n < o <= sec -> o mod n = i -> o = window_sec n sec i.
Proof.
  intros Hn Ho <-. unfold window_sec. rewrite Zminus_mod_idemp_r, Z.mod_small; lia.
Qed.

(** The contribution of a bucket is what the log has of its second of the window. *)
Lemma bucket_count n cap log i b sec :
  0 < n -> 0 <= i < n -> (match cap with Some m => 0 < m | None => True end) ->
  bucket_ok n cap log i b -> (forall o, o ∈ log -> o <= sec) ->
  (if (sec - n <? fst b) && (fst b <=? sec) then snd b else 0) = capped cap (count_sec (window_sec n sec i) log).
Proof.
  intros Hn Hi Hcap Hb Hlast.
  assert (forall s, s ∉ log -> capped cap (count_sec s log) = 0) as Hno.
  { intros s Hs. unfold count_sec. rewrite countb_none; [destruct cap; simpl; lia|].
    apply Forall_forall. intros o Ho. apply Z.eqb_neq. by intros ->. }
  destruct Hb as [[Hz Hc]|(Hin & Hmod & Hmax & Hc)].
  - rewrite Hc, Hno; [by case_if as E|]. intros Hx.
    apply (count_res_zero _ _ _ _ Hz Hx). by apply window_sec_mod.
  - pose proof (Hlast _ Hin). rewrite (proj2 (Z.leb_le _ _)), andb_true_r by done.
    destruct (Z.ltb_spec (sec - n) (fst b)).
    + by rewrite Hc, <- (window_sec_unique n sec i (fst b)).
    + rewrite Hno; [done|]. intros Hx. specialize (Hmax _ Hx (window_sec_mod n sec i Hi)).
      unfold window_sec in Hmax. pose proof (Z.mod_pos_bound (sec - i) n Hn). lia.
Qed.

(** The sum of [f] over a list of seconds. *)
Definition sumZ {A} (f : A -> Z) (l : list A) : Z := fold_right (fun x t => f x + t) 0 l.

Lemma sumZ_perm {A} (f : A -> Z) l k : l ≡ₚ k -> sumZ f l = sumZ f k.
Proof. induction 1; simpl; lia. Qed.

Lemma sumZ_map {A B} (g : A -> B) (f : B -> Z) l : sumZ f (g <$> l) = sumZ (fun x => f (g x)) l.
Proof. induction l as [|x l IH]; [done|]. unfold sumZ in *. simpl. rewrite <- IH. done. Qed.

Lemma sumZ_ext {A} (f g : A -> Z) l : (forall x, x ∈ l -> f x = g x) -> sumZ f l = sumZ g l.
Proof.
  induction l as [|x l IH]; intros H; [done|]. unfold sumZ in *. simpl.
  rewrite (H x) by left. rewrite IH; [done|]. intros y Hy. apply H. by right.
Qed.

Lemma window_perm n sec : 0 < n -> window_sec n sec <$> seqZ 0 n ≡ₚ seqZ (sec - n + 1) n.
Proof.
  intros Hn. apply NoDup_Permutation.
  - apply NoDup_fmap_2_strong; [|apply NoDup_seqZ]. intros i j Hi Hj E.
    apply elem_of_seqZ in Hi, Hj.
    rewrite <- (window_sec_mod n sec i), <- (window_sec_mod n sec j) by lia. by rewrite E.
  - apply NoDup_seqZ.
  - intros o. rewrite list_elem_of_fmap, elem_of_seqZ. split.
    + intros (i & -> & Hi). unfold window_sec. pose proof (Z.mod_pos_bound (sec - i) n Hn). lia.
    + intros Ho. exists (o mod n). rewrite elem_of_seqZ. split; [apply window_sec_unique; lia|].
      pose proof (Z.mod_pos_bound o n Hn). lia.
Qed.

Lemma ring_seq l : l = slot l <$> seqZ 0 (Z.of_nat (List.length l)).
Proof.
  apply list_eq. intros k. rewrite list_lookup_fmap. destruct (decide (k < List.length l)%nat) as [Hk|Hk].
  - rewrite lookup_seqZ_lt by lia. cbn [fmap option_fmap option_map]. unfold slot. replace (Z.to_nat (0 + Z.of_nat k)) with k by lia.
    destruct (l !! k) eqn:E; [done|]. apply lookup_ge_None in E. lia.
  - rewrite lookup_seqZ_ge by lia. simpl. apply lookup_ge_None. lia.
Qed.

(** What a snapshot promises: the observations of each second of the window,
    each second up to the bound of a bucket. *)
Definition in_window (n : Z) (cap : option Z) (log : list Z) (sec : Z) : Z :=
  sumZ (fun s => capped cap (count_sec s log)) (seqZ (sec - n + 1) n).

Lemma total_ok n cap log l sec :
  0 < n -> (match cap with Some m => 0 < m | None => True end) ->
  ring_ok n cap log l -> (forall o, o ∈ log -> o <= sec) -> total n l sec = in_window n cap log sec.
Proof.
  intros Hn Hcap [Hlen Hb] Hlast. unfold in_window. rewrite <- (sumZ_perm _ _ _ (window_perm n sec Hn)), sumZ_map.
  unfold total. change (sumZ (fun b => if (sec - n <? fst b) && (fst b <=? sec) then snd b else 0) l = 
    sumZ (fun x => capped cap (count_sec (window_sec n sec x) log)) (seqZ 0 n)).
  rewrite (ring_seq l), sumZ_map, Hlen. apply sumZ_ext. intros i Hi. apply elem_of_seqZ in Hi.
  apply bucket_count; (done || lia || (apply Hb; lia)).
Qed.

(** Without a bound, the count of the logged seconds of the window. *)
Lemma in_window_count n log sec : in_window n None log sec = Z.of_nat (countb (in_last n sec) log).
Proof.
  unfold in_window. simpl. induction log as [|o log IH].
  - unfold countb. simpl. induction (seqZ _ n); [done | by simpl].
  - assert (forall k, NoDup k -> sumZ (fun s => count_sec s (o :: log)) k =
      sumZ (fun s => count_sec s log) k + if decide (o ∈ k) then 1 else 0) as Hk.
    { clear IH. induction k as [|s k IHk]; intros Hd; [done|]. apply NoDup_cons in Hd as [Hs Hd].
      simpl. rewrite IHk by done. unfold count_sec, countb. simpl.
      destruct (Z.eqb_spec o s) as [->|Hne]; simpl; repeat case_decide; set_solver by lia. }
    rewrite Hk by apply NoDup_seqZ. rewrite IH. unfold countb, in_last. simpl.
    case_decide as E; rewrite elem_of_seqZ in E.
    + rewrite (proj2 (Z.ltb_lt _ _)), (proj2 (Z.leb_le _ _)) by lia. simpl. lia.
    + destruct ((sec - n <? o) && (o <=? sec)) eqn:E'; [to_prop; lia | lia].
Qed.
(** ** Sequences of calls *)

Inductive wop := Observe (sec : Z) | SnapshotAt (sec : Z).

Definition op_sec (o : wop) : Z := match o with Observe s | SnapshotAt s => s end.

Section Run.
Context {S O : Type} (step : S -> wop -> S * option O).
(** The answers of the snapshots of a sequence of calls. *)
Fixpoint answers (s : S) (ops : list wop) : list O :=
  match ops with
  | [] => []
  | o :: ops => let '(s', out) := step s o in
                match out with Some x => x :: answers s' ops | None => answers s' ops end
  end.
End Run.

Definition http_step (a : httpErrorWindow) (o : wop) : httpErrorWindow * option (Z * bool) :=
  match o with
  | Observe sec => (http_observe a sec, None)
  | SnapshotAt sec => let '(a', out) := http_snapshot a sec in (a', Some out)
  end.

Definition arrival_step (a : arrivalWindow) (o : wop) : arrivalWindow * option (Z * bool) :=
  match o with
  | Observe sec => (arrival_observe a sec, None)
  | SnapshotAt sec => (a, Some (arrival_snapshot a sec))
  end.

(** The specification keeps every observation since the last restart. *)
Record wlog := mkLog { since : Z; latest : Z; entries : list Z }.

(** HTTP errors: a clock that moves back restarts the log. *)
Definition http_spec (w : wlog) (o : wop) : wlog * option (Z * bool) :=
  let sec := op_sec o in
  let w := if (sec <? latest w) || (since w =? 0) then mkLog sec sec [] else mkLog (since w) sec (entries w) in
  match o with
  | Observe _ => (mkLog (since w) sec (entries w ++ [sec]), None)
  | SnapshotAt _ => (w, Some (Z.of_nat (countb (in_last 60 sec) (entries w)), 60 <=? sec - since w))
  end.

(** Arrivals: only an observation restarts the log; a snapshot of an older
    instant reports nothing. *)
Definition arrival_spec (w : wlog) (o : wop) : wlog * option (Z * bool) :=
  match o with
  | Observe sec =>
      let w := if sec <? latest w then mkLog sec sec [] else w in
      (mkLog (if since w =? 0 then sec else since w) sec (entries w ++ [sec]), None)
  | SnapshotAt sec =>
      (w, Some (if sec <? latest w then (0, false)
                else (in_window 300 (Some 333333) (entries w) sec, (0 <? since w) && (300 <=? sec - since w))))
  end.

(** The simulation relations. *)
Definition http_sim (a : httpErrorWindow) (w : wlog) : Prop :=
  hStarted a = since w /\ hLast a = latest w /\ ring_ok 60 None (entries w) (hRing a) /\
  (forall o, o ∈ entries w -> o <= latest w).

Definition arrival_sim (a : arrivalWindow) (w : wlog) : Prop :=
  aStarted a = since w /\ aLast a = latest w /\ ring_ok 300 (Some 333333) (entries w) (aRing a) /\
  (forall o, o ∈ entries w -> o <= latest w).

Lemma http_index_mod sec : http_index sec = sec mod 60.
Proof.
  unfold http_index. pose proof (Z.rem_bound_abs sec 60 ltac:(lia)).
  rewrite Z.rem_mod_nonneg by lia. pose proof (Z.quot_rem' sec 60).
  replace sec with (60 * Z.quot sec 60 + Z.rem sec 60) at 2 by lia.
  replace (60 * Z.quot sec 60 + Z.rem sec 60) with (Z.rem sec 60 + 60 + (Z.quot sec 60 - 1) * 60) by lia.
  by rewrite Z_mod_plus_full.
Qed.

Lemma http_step_sim a w o :
  http_sim a w -> http_sim (http_step a o).1 (http_spec w o).1 /\ (http_step a o).2 = (http_spec w o).2.
Proof.
  intros (Es & El & Hr & Hl).
  assert (http_sim (http_advance a (op_sec o))
            (if (op_sec o <? latest w) || (since w =? 0) then mkLog (op_sec o) (op_sec o) []
             else mkLog (since w) (op_sec o) (entries w))) as Hadv.
  { unfold http_advance. rewrite El, Es. case_if as E; split_and!; simpl; try done.
    - by apply (empty_ok 60).
    - set_solver.
    - apply orb_false_iff in E as [E _]. to_prop. intros x Hx. specialize (Hl x Hx). lia. }
  revert Hadv. unfold http_spec. cbv zeta.
  set (w' := if _ : bool then _ else _). intros (Es' & El' & Hr' & Hl').
  assert (latest w' = op_sec o) as El'' by (unfold w'; by case_if as E).
  destruct o as [sec|sec]; cbn [op_sec] in *; simpl.
  - split; [|done]. unfold http_sim, http_observe. simpl. rewrite http_index_mod. split_and!; [done | congruence | |].
    + apply bump_ok; [lia | done | done |]. intros x Hx. specialize (Hl' x Hx). lia.
    + intros x Hx. apply elem_of_app in Hx as [Hx| ->%list_elem_of_singleton]; [|lia]. specialize (Hl' x Hx). lia.
  - split; [done|]. rewrite Es'. do 2 f_equal. rewrite <- in_window_count. apply total_ok; [lia | done | done |].
    intros x Hx. specialize (Hl' x Hx). lia.
Qed.

Lemma arrival_step_sim a w o :
  0 <= op_sec o -> arrival_sim a w ->
  arrival_sim (arrival_step a o).1 (arrival_spec w o).1 /\ (arrival_step a o).2 = (arrival_spec w o).2.
Proof.
  intros Ho (Es & El & Hr & Hl). destruct o as [sec|sec]; cbn [op_sec] in *; simpl.
  - split; [|done]. unfold arrival_observe, arrival_sim. rewrite El, Z.rem_mod_nonneg by lia.
    destruct (Z.ltb_spec sec (latest w)) as [E|E]; simpl; rewrite ?Es; split_and!; try done.
    + apply (bump_ok 300 (Some 333333) []); [lia | lia | by apply (empty_ok 300) | set_solver].
    + intros x Hx. apply list_elem_of_singleton in Hx. lia.
    + apply bump_ok; [lia | lia | done |]. intros x Hx. specialize (Hl x Hx). lia.
    + intros x Hx. apply elem_of_app in Hx as [Hx| ->%list_elem_of_singleton]; [|lia]. specialize (Hl x Hx). lia.
  - split; [done|]. unfold arrival_snapshot. rewrite El, Es. f_equal. destruct (Z.ltb_spec sec (latest w)); [done|].
    f_equal. apply total_ok; [lia | lia | done |]. intros x Hx. specialize (Hl x Hx). lia.
Qed.

(** The HTTP error window implements its log. Starting from a new window,
    for every sequence of observations and snapshots at any instants, every
    snapshot answers the number of errors observed in the last 60 seconds
    since the clock last moved back, and whether 60 seconds have been
    covered; a ring of 60 buckets loses and double counts none. *)
Lemma http_window_refines_log (now : Z) (ops : list wop) :
  answers http_step (http_new now) ops = answers http_spec (mkLog now now []) ops.
Proof.
  assert (http_sim (http_new now) (mkLog now now [])) as Hs.
  { split_and!; simpl; [done | done | by apply (empty_ok 60) | set_solver]. }
  revert Hs. generalize (http_new now), (mkLog now now []). induction ops as [|o ops IH]; intros a w Hs; [done|].
  destruct (http_step_sim a w o Hs) as [Hs' Eo]. simpl.
  destruct (http_step a o), (http_spec w o). simpl in *. subst. by rewrite (IH _ _ Hs').
Qed.

(** The arrival window implements its log. For every sequence of
    observations and snapshots at instants after 1970, every snapshot answers
    the arrivals of each of the last 300 seconds, each second counted up to
    333,333, since an observation last found the clock moved back; it answers
    nothing for an instant older than the last arrival. *)
Lemma arrival_window_refines_log (now : Z) (ops : list wop) (Hops : Forall (fun o => 0 <= op_sec o) ops) :
  answers arrival_step (arrivals_new now) ops = answers arrival_spec (mkLog now 0 []) ops.
Proof.
  assert (arrival_sim (arrivals_new now) (mkLog now 0 [])) as Hs.
  { split_and!; simpl; [done | done | by apply (empty_ok 300) | set_solver]. }
  revert Hs. generalize (arrivals_new now), (mkLog now 0 []). induction Hops as [|o ops Ho _ IH]; intros a w Hs; [done|].
  destruct (arrival_step_sim a w o Ho Hs) as [Hs' Eo]. simpl.
  destruct (arrival_step a o), (arrival_spec w o). simpl in *. subst. by rewrite (IH _ _ Hs').
Qed.

(** ** The response writer *)

(** What a handler does with the response, and when. *)
Inductive wact := Header (status now : Z) | Body (now : Z).

Definition act (w : httpErrorWriter) (x : wact) : httpErrorWriter :=
  match x with Header s now => WriteHeader w s now | Body now => Write w now end.

Definition act_status (x : wact) : Z * Z := match x with Header s now => (s, now) | Body now => (200, now) end.

Definition is_final (x : wact) : bool := (200 <=? fst (act_status x)) || (fst (act_status x) =? 101).

Definition final_act (acts : list wact) : option wact := List.find is_final acts.

Lemma acts_done acts a : fold_left act acts (mkWriter true a) = mkWriter true a.
Proof. induction acts as [|[s now|now] acts IH]; simpl; done. Qed.

(** A response is counted at most once. Whatever status lines and body
    writes a handler makes, informational responses included, the window
    records an error exactly when the first final status is a 5xx, at that
    instant. *)
Lemma response_counted_once (a : httpErrorWindow) (acts : list wact) :
  wWindow (fold_left act acts (mkWriter false (Some a))) =
    match final_act acts with
    | Some x => if (500 <=? fst (act_status x)) && (fst (act_status x) <=? 599) then Some (http_observe a (snd (act_status x)))
                else Some a
    | None => Some a
    end.
Proof.
  unfold final_act. induction acts as [|x acts IH]; [done|]. simpl.
  destruct (is_final x) eqn:E.
  - destruct x as [s now|now]; unfold is_final in E; simpl in *.
    + unfold WriteHeader. simpl. rewrite E. rewrite acts_done. simpl. by case_if as E'.
    + unfold Write, WriteHeader. simpl. by rewrite acts_done.
  - destruct x as [s now|now]; unfold is_final in E; simpl in *; [|done].
    unfold WriteHeader at 1. simpl. rewrite E. done.
Qed.
End windows.
