(* ===== verification/StoreClient.v ===== *)
(** * The Valkey store client: [src/internal/queue/valkeystore]

    Module [valkeystore] translates the client side of the shared queue store:
    the classification of server errors, the recovery snapshot, the fenced
    call [runtimeCall], the shared recovery step [MaintainRecovery], the legacy
    latch and the sweep retry of [call] ([store.go], [recovery.go],
    [read_failure.go]). The server is an interface ([Server]): the answer of
    one [FCALL] and of [INFO], for an arbitrary server state. Module [fence] is
    the interleaving of concurrent calls with the recovery step, at the
    granularity of the atomic loads and stores of the code. *)

From S2P Require Import Prelude GoStd QueueModel.
From stdpp Require Import base list gmap strings pretty.
From Stdlib Require Import ZArith Lia Ascii String.

Module valkeystore.
Local Open Scope Z_scope.

(** ** Errors *)

(** What [errors.Is] and [errors.As] tell about an error of the client library. *)
Inductive kind :=
  | EOF | UnexpectedEOF | NetClosed | Closing | Canceled | DeadlineExceeded | NetError | OtherKind.

Record rpc_error := mkRpc { text : string; ekind : kind }.

Inductive error :=
  | EModel (e : model.error) | ErrSweep | ErrSchema | ErrBatch | ErrContext | ERaw (e : rpc_error).

#[global] Instance kind_eq_dec : EqDecision kind.
Proof. solve_decision. Defined.
#[global] Instance rpc_error_eq_dec : EqDecision rpc_error.
Proof. solve_decision. Defined.
#[global] Instance model_error_eq_dec : EqDecision model.error.
Proof. solve_decision. Defined.
#[global] Instance error_eq_dec : EqDecision error.
Proof. solve_decision. Defined.

Definition readTransportFailure (e : rpc_error) : bool :=
  match ekind e with
  | EOF | UnexpectedEOF | NetClosed | Closing | Canceled | DeadlineExceeded => true
  | NetError => true
  | OtherKind => false
  end.

(** [strings.Contains]. *)
Fixpoint Contains (s sub : string) : bool :=
  strs.HasPrefix s sub || match s with EmptyString => false | String _ s' => Contains s' sub end.

Definition classes : list (string * error) :=
  [("WR_CAPACITY", EModel model.ErrCapacity); ("WR_CONFLICT", EModel model.ErrConflict);
   ("WR_EXPIRED", EModel model.ErrExpired); ("WR_DRAIN", EModel model.ErrDrain);
   ("WR_NOT_READY", EModel model.ErrNotReady); ("WR_UNAVAILABLE", EModel model.ErrUnavailable);
   ("WR_SWEEP_REQUIRED", ErrSweep); ("WR_SCHEMA", ErrSchema)].

(** [classify]. Go iterates over the table, a map, in any order: [order]. *)
Definition classify (order : list (string * error)) (e : rpc_error) : error :=
  match List.find (fun kv => Contains (text e) (fst kv)) order with
  | Some kv => snd kv
  | None => ERaw e
  end.

(** [known == err]: the error was not recognised. *)
Definition unrecognised (k : error) : bool := match k with ERaw _ => true | _ => false end.

(** An error that may follow a partial write. *)
Definition unknown_outcome (k : error) : bool :=
  unrecognised k || bool_decide (k = ErrSchema) || bool_decide (k = EModel model.ErrUnavailable).

(** ** Data *)

Record JoinSnapshot := mkJoin { jTicket : model.Ticket; jIdleTTL : Z }.
Record Capacity := mkCapacity {
  cVisitors : Z; cIdempotency : Z; cVisitorCap : Z; cIdempotencyCap : Z;
  RetainedVisitors : Z; RetainedIdempotency : Z; Warning : bool
}.
Record Metrics := mkMetrics {
  mWaiting : Z; mReady : Z; mLeases : Z; mRate : Z; mMode : string; mRevision : Z; mEpoch : Z;
  RecoveryUntil : Z; RecoveryFence : Z; RecoveryReason : string; RecoveryValidation : string
}.
Record Result := mkResult {
  MaintenanceNeeded : option bool; rJoin : option JoinSnapshot; rNow : Z; rTicket : option model.Ticket;
  rTickets : list model.Ticket; rReplay : string; rCapacity : option Capacity; rMetrics : option Metrics
}.

(** The wire struct of [UnmarshalJSON]; [wTickets] is the raw array. *)
Record wire := mkWire {
  wMaintenance : option bool; wJoin : option JoinSnapshot; wNow : Z; wTicket : option model.Ticket;
  wTickets : string; wReplay : string; wCapacity : option Capacity; wMetrics : option Metrics
}.

Record RecoveryState := mkRecovery {
  Now : Z; Primary : string; Fence : Z; Mode : string; UnsafeUntil : Z; Reason : string; ValidationError : string
}.
Definition RecoveryState_zero : RecoveryState := mkRecovery 0 "" 0 "" 0 "" "".

Record Store := mkStore {
  runtimeVersion : Z; primary : string; failed : bool; installation : bool; runtime : bool;
  recovery : RecoveryState; recoverySnapshot : option RecoveryState;
  uncertainty : Z; acknowledgedUncertainty : Z
}.

Definition set_failed (s : Store) : Store :=
  mkStore (runtimeVersion s) (primary s) true (installation s) (runtime s) (recovery s) (recoverySnapshot s)
    (uncertainty s) (acknowledgedUncertainty s).
Definition publishRecovery (s : Store) (r : RecoveryState) : Store :=
  mkStore (runtimeVersion s) (primary s) (failed s) (installation s) (runtime s) r (Some r)
    (uncertainty s) (acknowledgedUncertainty s).
(** [s.uncertainty.Add(1)] and [s.acknowledgedUncertainty.Store(incident)]. *)
Definition add_uncertainty (s : Store) : Store :=
  mkStore (runtimeVersion s) (primary s) (failed s) (installation s) (runtime s) (recovery s) (recoverySnapshot s)
    (u64 (uncertainty s + 1)) (acknowledgedUncertainty s).
Definition acknowledge (s : Store) (incident : Z) : Store :=
  mkStore (runtimeVersion s) (primary s) (failed s) (installation s) (runtime s) (recovery s) (recoverySnapshot s)
    (uncertainty s) incident.

(** The test of both [runtimeCall] and [MaintainRecovery]. *)
Definition unacknowledged (u a : Z) : bool := a <? u.

(** ** The server *)

Record request := mkRequest { function : string; readonly : bool; arguments : list string }.

Inductive answer := Text (raw : string) | Failure (e : rpc_error).

Class Server (Srv : Type) := {
  Do : request -> Srv -> Srv * answer;
  Info : Srv -> Srv * answer
}.

Section client.
Context {Srv : Type} `{Server Srv}.
(** [encoding/json]: the wire struct, the array of tickets, the recovery state. *)
Context (json_wire : string -> option wire) (json_tickets : string -> option (list model.Ticket))
        (json_recovery : string -> option RecoveryState).
Context (order : list (string * error)).

Definition UnmarshalJSON (raw : string) : option Result :=
  match json_wire raw with
  | None => None
  | Some w =>
      let r ts := mkResult (wMaintenance w) (wJoin w) (wNow w) (wTicket w) ts (wReplay w) (wCapacity w) (wMetrics w) in
      if (0 <? len (wTickets w)) && negb (String.eqb (wTickets w) "{}")
      then match json_tickets (wTickets w) with Some ts => Some (r ts) | None => None end
      else Some (r [])
  end.

(** [strings.Split(info, CRLF)]. *)
Definition crlf : string := String (ascii_of 13) (String (ascii_of 10) EmptyString).
Fixpoint split_crlf (s : string) : list string :=
  match s with
  | EmptyString => [EmptyString]
  | String a s' =>
      match s' with
      | String b s'' =>
          if Ascii.eqb a (ascii_of 13) && Ascii.eqb b (ascii_of 10) then EmptyString :: split_crlf s''
          else match split_crlf s' with p :: ps => String a p :: ps | [] => [String a EmptyString] end
      | EmptyString => [String a EmptyString]
      end
  end.

Definition primaryID (w : Srv) : Srv * result error string :=
  match Info w with
  | (w', Failure e) => (w', Err (ERaw e))
  | (w', Text info) =>
      match List.find (fun l => strs.HasPrefix l "run_id:") (split_crlf info) with
      | Some l => (w', Ok (str_drop 7 l))
      | None => (w', Err ErrSchema)
      end
  end.

Definition runtimeFunction (s : Store) (operation : string) : string :=
  if 5 <=? runtimeVersion s
  then "wr_r" +:+ pretty (Z.to_N (runtimeVersion s)) +:+ "_" +:+ operation
  else "wr_r4_" +:+ operation.

Definition FormatUint (z : Z) : string := pretty (Z.to_N z).

(** ** [recovery.go] *)

Definition decodeRecovery (raw : string) : result error RecoveryState :=
  match json_recovery raw with
  | None => Err ErrSchema
  | Some st =>
      if (Now st <=? 0) || negb (len (Primary st) =? 40) || (Fence st <? 1) || (9007199254740990 <=? Fence st) ||
         (negb (String.eqb (Mode st) "ACTIVE") && negb (String.eqb (Mode st) "RECOVERY_HOLD")) ||
         (String.eqb (Mode st) "RECOVERY_HOLD" && (UnsafeUntil st <=? 0))
      then Err ErrSchema else Ok st
  end.

(** The request of the recovery step, with its reason. *)
Definition recover_reason (incident acknowledged : Z) : string :=
  if unacknowledged incident acknowledged then "uncertain" else "observe".
Definition recover_request (s : Store) (p reason : string) : request :=
  mkRequest (runtimeFunction s "recover") false [p; reason].
Definition validate_request (s : Store) (st : RecoveryState) : request :=
  mkRequest (runtimeFunction s "validate") false [Primary st; FormatUint (Fence st)].

(** The step after an acknowledged recovery: validation once the hold is over. *)
Definition maintain_validate (s : Store) (st : RecoveryState) (w : Srv) : Store * Srv * result error RecoveryState :=
  if String.eqb (Mode st) "RECOVERY_HOLD" && (UnsafeUntil st <=? Now st) && String.eqb (ValidationError st) "" then
    match Do (validate_request s st) w with
    | (w', Failure _) => (s, w', Err (EModel model.ErrUnavailable))
    | (w', Text raw) =>
        match decodeRecovery raw with
        | Err e => (s, w', Err e)
        | Ok st' => (publishRecovery s st', w', Ok st')
        end
    end
  else (s, w, Ok st).

(** [MaintainRecovery]; on an error the code also returns the last state, which
    every caller drops. *)
Definition MaintainRecovery (cancelled : bool) (s : Store) (w : Srv) : Store * Srv * result error RecoveryState :=
  if negb (runtime s) then (s, w, Err ErrSchema) else
  if cancelled then (s, w, Err ErrContext) else
  match primaryID w with
  | (w, Err _) => (s, w, Err (EModel model.ErrUnavailable))
  | (w, Ok p) =>
      let incident := uncertainty s in
      match Do (recover_request s p (recover_reason incident (acknowledgedUncertainty s))) w with
      | (w, Failure _) => (s, w, Err (EModel model.ErrUnavailable))
      | (w, Text raw) =>
          match decodeRecovery raw with
          | Err e => (s, w, Err e)
          | Ok st => maintain_validate (acknowledge (publishRecovery s st) incident) st w
          end
      end
  end.

(** [ctx.Err() != nil] where a call looks: on entry, after a failed identity
    check (the legacy path), before the submission,
    after a failed read, and when the repair of an uncertain call starts. *)
Record ctx := mkCtx { onEntry : bool; afterInfo : bool; beforeSubmit : bool; afterReply : bool; repairCancelled : bool }.

Definition is_arg (args : list string) (a : string) : bool :=
  match args with [x] => String.eqb x a | _ => false end.

(** Lines 106-130 of [runtimeCall]: what is submitted in a published state. *)
Definition submission (s : Store) (st : RecoveryState) (read : bool) (args : list string) : option request :=
  let metrics := read && is_arg args "metrics" in
  let maintenance := read && is_arg args "promotion-needed" in
  let heldConfig := (5 <=? runtimeVersion s) && String.eqb (Mode st) "RECOVERY_HOLD" &&
    String.eqb (Reason st) "epoch_reset" && negb read && (Z.of_nat (List.length args) =? 5) &&
    match args with a :: _ => String.eqb a "configure" | [] => false end in
  if negb (String.eqb (Mode st) "ACTIVE") && negb metrics && negb heldConfig then None else
  let tail := [Primary st; FormatUint (Fence st)] in
  if read then
    if maintenance then Some (mkRequest "wr_qm1_needed" true tail)
    else if metrics then Some (mkRequest (runtimeFunction s "metrics") true tail)
    else Some (mkRequest (runtimeFunction s (match args with [] => "capacity" | _ => "status" end)) true (args ++ tail))
  else Some (mkRequest (runtimeFunction s (if heldConfig then "configure_held" else "command")) false (args ++ tail)).

Definition with_recovery (st : RecoveryState) (r : Result) : Result :=
  mkResult (MaintenanceNeeded r) (rJoin r) (rNow r) (rTicket r) (rTickets r) (rReplay r) (rCapacity r)
    (match rMetrics r with
     | Some x => Some (mkMetrics (mWaiting x) (mReady x) (mLeases x) (mRate x) (mMode x) (mRevision x) (mEpoch x)
                         (RecoveryUntil x) (Fence st) (Reason st) (ValidationError st))
     | None => None end).

(** What an answer means for the caller: a value, a refusal known not to have
    written, or an uncertain outcome. *)
Inductive verdict := Value (r : Result) | Refused (e : error) | UncertainReply (repair : bool).

Definition settle (c : ctx) (st : RecoveryState) (read : bool) (args : list string) (a : answer) : verdict :=
  match a with
  | Failure e =>
      if Contains (text e) "WR_FENCED" then Refused (EModel model.ErrUnavailable) else
      if read && afterReply c then Refused ErrContext else
      if read && readTransportFailure e then Refused (EModel model.ErrUnavailable) else
      let known := classify order e in
      if negb (unknown_outcome known) then Refused known else UncertainReply true
  | Text raw =>
      match UnmarshalJSON raw with
      | None => UncertainReply false
      | Some r =>
          if (read && is_arg args "promotion-needed") &&
             (match MaintenanceNeeded r with None => true | Some _ => false end || (rNow r <=? 0))
          then UncertainReply false
          else Value (if read && is_arg args "metrics" then with_recovery st r else r)
      end
  end.

Definition runtimeCall (c : ctx) (read : bool) (args : list string) (s : Store) (w : Srv)
    : Store * Srv * result error Result :=
  if onEntry c then (s, w, Err ErrContext) else
  if unacknowledged (uncertainty s) (acknowledgedUncertainty s) then (s, w, Err (EModel model.ErrUnavailable)) else
  match recoverySnapshot s with
  | None => (s, w, Err (EModel model.ErrUnavailable))
  | Some st =>
      if beforeSubmit c then (s, w, Err ErrContext) else
      match submission s st read args with
      | None => (s, w, Err (EModel model.ErrUnavailable))
      | Some q =>
          let '(w, a) := Do q w in
          match settle c st read args a with
          | Value r => (s, w, Ok r)
          | Refused e => (s, w, Err e)
          | UncertainReply repair =>
              let s := add_uncertainty s in
              let '(s, w, _) := if repair then MaintainRecovery (repairCancelled c) s w
                                else (s, w, Ok RecoveryState_zero) in
              (s, w, Err (EModel model.ErrUnavailable))
          end
      end
  end.

(** ** [store.go] *)

Definition is_sweep (r : result error Result) : bool :=
  match r with Err ErrSweep => true | _ => false end.

(** The loop of [call] over the attempts; attempt [i] runs under [cs i]. *)
Fixpoint attempt (n i : nat) (cs : nat -> ctx) (read : bool) (args : list string) (s : Store) (w : Srv)
    : Store * Srv * result error Result :=
  let '(s, w, r) := runtimeCall (cs i) read args s w in
  match n with
  | O | 1%nat => (s, w, r)
  | S n' => if is_sweep r then attempt n' (S i) cs read args s w else (s, w, r)
  end.

Definition attempts (s : Store) (read : bool) (args : list string) : nat :=
  if (6 <=? runtimeVersion s) && negb read && match args with a :: _ => negb (String.eqb a "sweep") | [] => false end
  then 8 else 1.

(** The function the legacy path submits. *)
Definition legacy_request (s : Store) (read : bool) (args : list string) : request :=
  let prefix := if installation s then "wr_i2_" else "wr_v1_" in
  if read
  then mkRequest (prefix +:+ (if installation s && match args with [] => true | _ => false end then "capacity" else "status"))
         true args
  else mkRequest (prefix +:+ "command") false args.

(** The legacy path of [call], before installation-wide recovery: one latch. *)
Definition legacy_call (c : ctx) (read : bool) (args : list string) (s : Store) (w : Srv)
    : Store * Srv * result error Result :=
  let unavailable := Err (EModel model.ErrUnavailable) in
  if failed s then (s, w, unavailable) else
  if onEntry c then (s, w, Err ErrContext) else
  let '(w, p) := primaryID w in
  let latch := match p with Ok p => negb (String.eqb p (primary s)) | Err _ => true end in
  if match p with Err _ => afterInfo c | Ok _ => false end then (s, w, Err ErrContext) else
  if match p with Err (ERaw e) => readTransportFailure e | _ => false end then (s, w, unavailable) else
  if latch then (set_failed s, w, unavailable) else
  if beforeSubmit c then (s, w, Err ErrContext) else
  let '(w, a) := Do (legacy_request s read args) w in
  match a with
  | Failure e =>
      if read && afterReply c then (s, w, Err ErrContext) else
      if read && readTransportFailure e then (s, w, unavailable) else
      let known := classify order e in
      if unknown_outcome known then (set_failed s, w, unavailable) else (s, w, Err known)
  | Text raw =>
      match UnmarshalJSON raw with
      | None => (set_failed s, w, unavailable)
      | Some r => (s, w, Ok r)
      end
  end.

Definition call (cs : nat -> ctx) (read : bool) (args : list string) (s : Store) (w : Srv)
    : Store * Srv * result error Result :=
  if runtime s then attempt (attempts s read args) 0 cs read args s w
  else legacy_call (cs 0%nat) read args s w.

Definition Join_ `{Sha256} (cs : nat -> ctx) (key fingerprint ticketHash replay : string) (s : Store) (w : Srv) :=
  let Hash v := hex_EncodeToString (sha256 v) in
  call cs false ["join"; Hash key; Hash fingerprint; ticketHash; replay] s w.
Definition Status (cs : nat -> ctx) (id : string) (s : Store) (w : Srv) := call cs true [id] s w.
Definition Claim (cs : nat -> ctx) (id : string) (s : Store) (w : Srv) := call cs false ["claim"; id] s w.
Definition Heartbeat (cs : nat -> ctx) (id : string) (s : Store) (w : Srv) := call cs false ["heartbeat"; id] s w.
Definition Sweep (cs : nat -> ctx) (s : Store) (w : Srv) := call cs false ["sweep"] s w.
Definition Mode_ (cs : nat -> ctx) (mode : string) (s : Store) (w : Srv) : Store * Srv * result error Result :=
  if negb (String.eqb mode "hold") && negb (String.eqb mode "auto") && negb (String.eqb mode "drain")
  then (s, w, Err ErrSchema) else call cs false [mode] s w.

(** [Promote]: since version 6 a read-only probe avoids an empty write. The
    pointer the probe dereferences is present in every accepted probe. *)
Definition Promote (c : ctx) (cs : nat -> ctx) (n : Z) (s : Store) (w : Srv) : Store * Srv * result error Result :=
  if (n <? 1) || (128 <? n) then (s, w, Err ErrBatch) else
  if runtime s && (6 <=? runtimeVersion s) then
    match runtimeCall c true ["promotion-needed"] s w with
    | (s, w, Err e) => (s, w, Err e)
    | (s, w, Ok probe) =>
        if negb (default false (MaintenanceNeeded probe))
        then (s, w, Ok (mkResult None None (rNow probe) None [] "" None None))
        else call cs false ["promote"; FormatUint n] s w
    end
  else call cs false ["promote"; FormatUint n] s w.
End client.

(** ** Histories of calls *)

(** A server that records what it was asked and what it answered. *)
Record entry := mkEntry { eRequest : request; eAnswer : answer }.

#[global] Instance logged {Srv} `{Server Srv} : Server (Srv * list entry) := {|
  Do q y := let '(w, a) := Do q (fst y) in ((w, snd y ++ [mkEntry q a]), a);
  Info y := let '(w, a) := Info (fst y) in ((w, snd y), a)
|}.

Section histories.
Context {Srv : Type} `{Server Srv}.
Context (json_wire : string -> option wire) (json_tickets : string -> option (list model.Ticket))
        (json_recovery : string -> option RecoveryState).
Context (order : list (string * error)).

#[local] Abbreviation Y := (Srv * list entry)%type.

Inductive sop :=
  | SCall (cs : nat -> ctx) (read : bool) (args : list string)
  | SPromote (c : ctx) (cs : nat -> ctx) (n : Z)
  | SMaintain (cancelled : bool).

Definition sstep (y : Store * Y) (o : sop) : Store * Y :=
  match o with
  | SCall cs read args => fst (call json_wire json_tickets json_recovery order cs read args (fst y) (snd y))
  | SPromote c cs n => fst (Promote json_wire json_tickets json_recovery order c cs n (fst y) (snd y))
  | SMaintain b => fst (MaintainRecovery json_recovery b (fst y) (snd y))
  end.

Definition srun (y : Store * Y) (ops : list sop) : Store * Y := fold_left sstep ops y.

(** Entries of the recovery protocol; every other entry is a visitor's call. *)
Definition is_recover (v : Store) (e : entry) : bool := String.eqb (function (eRequest e)) (runtimeFunction v "recover").
Definition is_validate (v : Store) (e : entry) : bool := String.eqb (function (eRequest e)) (runtimeFunction v "validate").
Definition is_call (v : Store) (e : entry) : bool := negb (is_recover v e) && negb (is_validate v e).

(** A write whose answer does not tell whether it ran. *)
Definition unknown_write (e : entry) : bool :=
  negb (readonly (eRequest e)) &&
  match eAnswer e with
  | Failure x => negb (Contains (text x) "WR_FENCED") && unknown_outcome (classify order x)
  | Text raw => match UnmarshalJSON json_wire json_tickets raw with None => true | Some _ => false end
  end.

(** The server has acknowledged that the outcome of a write is unknown. *)
Definition fenced (v : Store) (e : entry) : bool :=
  is_recover v e &&
  match arguments (eRequest e) with [_; reason] => String.eqb reason "uncertain" | _ => false end &&
  match eAnswer e with Text raw => is_ok (decodeRecovery json_recovery raw) | Failure _ => false end.

(** An unknown write the server has not been told of. *)
Definition incident_step (v : Store) (b : bool) (e : entry) : bool :=
  if fenced v e then false else (is_call v e && unknown_write e) || b.
Definition open_incident (v : Store) (l : list entry) : bool := fold_left (incident_step v) l false.

Definition safe_log (v : Store) (l : list entry) : Prop :=
  forall l1 e l2, l = l1 ++ e :: l2 -> is_call v e = true -> open_incident v l1 = false.

Lemma runtimeFunction_inj (v : Store) a b : runtimeFunction v a = runtimeFunction v b -> a = b.
Proof.
  unfold runtimeFunction. by case_if as E; intros Hf; simplify_eq.
Qed.

Lemma runtimeFunction_version (v s : Store) a : runtimeVersion s = runtimeVersion v -> runtimeFunction s a = runtimeFunction v a.
Proof. unfold runtimeFunction. by intros ->. Qed.

Definition log_of (y : Store * Y) : list entry := snd (snd y).

Record call_inv (v : Store) (y : Store * Y) : Prop := {
  ci_version : runtimeVersion (fst y) = runtimeVersion v;
  ci_runtime : runtime (fst y) = true;
  ci_bounds : 0 <= acknowledgedUncertainty (fst y) <= uncertainty (fst y) /\
              uncertainty (fst y) <= Z.of_nat (List.length (log_of y));
  ci_open : open_incident v (log_of y) = true ->
            unacknowledged (uncertainty (fst y)) (acknowledgedUncertainty (fst y)) = true;
  ci_safe : safe_log v (log_of y)
}.

(** The log only grows, and the invariant is kept while the counters fit. *)
Definition post (v : Store) (y y' : Store * Y) : Prop :=
  log_of y `prefix_of` log_of y' /\ runtime (fst y') = runtime (fst y) /\
  (Z.of_nat (List.length (log_of y')) < 2 ^ 64 -> call_inv v y -> call_inv v y').

Lemma post_refl v y : post v y y.
Proof. done. Qed.

Lemma post_trans v y1 y2 y3 : post v y1 y2 -> post v y2 y3 -> post v y1 y3.
Proof.
  intros (P1 & R1 & I1) (P2 & R2 & I2). split; [by etrans|]. split; [congruence|]. intros Hl Hi. apply I2; [done|]. apply I1; [|done].
  apply prefix_length in P2. lia.
Qed.

Lemma open_snoc v l e : open_incident v (l ++ [e]) = incident_step v (open_incident v l) e.
Proof. unfold open_incident. by rewrite fold_left_app. Qed.

Lemma safe_snoc v l e :
  safe_log v l -> (is_call v e = true -> open_incident v l = false) -> safe_log v (l ++ [e]).
Proof.
  intros Hs He l1 x l2 E Hx. destruct l2 as [|z l2 _] using rev_ind.
  - apply app_inj_tail in E as [-> ->]. by apply He.
  - rewrite app_comm_cons, app_assoc in E. apply app_inj_tail in E as [-> _]. by apply (Hs l1 x l2).
Qed.

(** An entry of the recovery protocol opens no incident. *)
Lemma incident_protocol v b e : is_call v e = false -> incident_step v b e = true -> b = true /\ fenced v e = false.
Proof. unfold incident_step. intros ->. destruct (fenced v e); simpl; [done | by destruct b]. Qed.

Lemma maintain_validate_post v s st w :
  runtimeVersion s = runtimeVersion v ->
  post v (s, w) (fst (maintain_validate json_recovery s st w)).
Proof.
  intros Hv. unfold maintain_validate. case_if as E; [|apply post_refl].
  cbn [Do logged]. set (q := validate_request s st).
  destruct (Do q (fst w)) as [w' a] eqn:Ed.
  assert (forall s', runtimeVersion s' = runtimeVersion s -> runtime s' = runtime s -> uncertainty s' = uncertainty s ->
    acknowledgedUncertainty s' = acknowledgedUncertainty s -> post v (s, w) (s', (w', snd w ++ [mkEntry q a]))) as Hpost.
  { intros s' E1 E2 E3 E4. split; [by apply prefix_app_r|]. split; [done|]. intros Hl [C1 C2 C3 C4 C5]. unfold log_of in *. simpl in *.
    assert (is_call v (mkEntry q a) = false) as Hc.
    { unfold is_call, is_validate, q, validate_request. simpl. by rewrite (runtimeFunction_version v s), String.eqb_refl, andb_false_r. }
    split; unfold log_of in *; simpl in *; rewrite ?E1, ?E2, ?E3, ?E4, ?length_app; simpl; try done; try lia.
    - rewrite open_snoc. intros Ho. by apply C4, (incident_protocol v _ (mkEntry q a)).
    - apply safe_snoc; [done|]. by rewrite Hc. }
  destruct a as [raw|x]; [|by apply Hpost]. destruct (decodeRecovery json_recovery raw); by apply Hpost.
Qed.

Lemma MaintainRecovery_post v b s w : post v (s, w) (fst (MaintainRecovery json_recovery b s w)).
Proof.
  unfold MaintainRecovery. case_if as Er; [apply post_refl|]. case_if as Eb; [apply post_refl|].
  assert (forall w' p, primaryID w = (w', p) -> snd w' = snd w) as Hinfo.
  { intros w' p. unfold primaryID. cbn [Info logged]. destruct (Info (fst w)) as [z [info|x]]; intros; simplify_eq; [|done].
    destruct (List.find _ _); by simplify_eq. }
  destruct (primaryID w) as [w1 [p|e]] eqn:Ep; specialize (Hinfo _ _ eq_refl).
  2: { split; unfold log_of; simpl; [by rewrite Hinfo|]. split; [done|]. intros Hl [C1 C2 C3 C4 C5]. unfold log_of in *; simpl in *. split; unfold log_of in *; simpl in *; by rewrite ?Hinfo. }
  cbn [Do logged]. set (reason := recover_reason _ _). set (q := recover_request s p reason).
  destruct (Do q (fst w1)) as [w' a] eqn:Ed. rewrite Hinfo.
  assert (forall s', runtimeVersion s' = runtimeVersion s -> runtime s' = runtime s -> uncertainty s' = uncertainty s ->
    acknowledgedUncertainty s' = acknowledgedUncertainty s \/
      (acknowledgedUncertainty s' = uncertainty s /\
       match a with Text raw => is_ok (decodeRecovery json_recovery raw) = true | Failure _ => False end) ->
    post v (s, w) (s', (w', snd w ++ [mkEntry q a]))) as Hpost.
  { intros s' E1 E2 E3 E4. split; [by apply prefix_app_r|]. split; [done|]. intros Hl [C1 C2 C3 C4 C5]. unfold log_of in *. simpl in *.
    assert (is_recover v (mkEntry q a) = true) as Hr.
    { unfold is_recover, q, recover_request. simpl. by rewrite (runtimeFunction_version v s), String.eqb_refl. }
    assert (is_call v (mkEntry q a) = false) as Hc by (unfold is_call; by rewrite Hr).
    split; unfold log_of in *; simpl in *; rewrite ?E1, ?E2, ?E3, ?length_app; simpl; try done; try lia.
    - rewrite open_snoc. intros Ho. apply (incident_protocol v _ (mkEntry q a)) in Ho as [Ho Hf]; [|done].
      destruct E4 as [->|[E4 Ha]]; [by apply C4|]. exfalso.
      unfold fenced in Hf. rewrite Hr in Hf. unfold q, recover_request, reason, recover_reason in Hf.
      rewrite (C4 Ho) in Hf. simpl in Hf. destruct a as [raw|]; [|done]. by rewrite Ha in Hf.
    - apply safe_snoc; [done|]. by rewrite Hc. }
  destruct a as [raw|x]; [|apply Hpost; (done || by left)].
  destruct (decodeRecovery json_recovery raw) as [st|e] eqn:Edec; [|apply Hpost; (done || by left)].
  destruct (decide (runtimeVersion s = runtimeVersion v)) as [Hv|Hv].
  - eapply post_trans; [apply Hpost|apply maintain_validate_post]; simpl; try done. right. by rewrite ?Edec.
  - (* the invariant does not hold before, and the log grows *)
    split; [|split; [|intros _ [C1 _ _ _ _]; done]];
      unfold maintain_validate; (case_if as E; simpl; [|try done; by apply prefix_app_r]);
      unfold log_of; simpl; destruct (Do _ w') as [w'' [raw'|]]; simpl; rewrite <- ?app_assoc; try done;
      try (by apply prefix_app_r); destruct (decodeRecovery json_recovery raw'); simpl; rewrite <- ?app_assoc;
      try done; by apply prefix_app_r.
Qed.

Lemma not_protocol (v s : Store) op a q :
  runtimeVersion s = runtimeVersion v -> op <> "recover" -> op <> "validate" ->
  function q = runtimeFunction s op -> is_call v (mkEntry q a) = true.
Proof.
  intros Hv H1 H2 Hq. unfold is_call, is_recover, is_validate. simpl. rewrite Hq, (runtimeFunction_version v s) by done.
  rewrite !(proj2 (String.eqb_neq _ _)); [done| |]; intros E; by apply runtimeFunction_inj in E.
Qed.

Lemma submission_call (v s : Store) st read args q a :
  runtimeVersion s = runtimeVersion v -> submission s st read args = Some q ->
  is_call v (mkEntry q a) = true /\ readonly q = read.
Proof.
  intros Hv. unfold submission. set (held := _ && match args with a :: _ => _ | [] => _ end). clearbody held.
  case_if as E1; [done|]. destruct read; cbn [andb].
  - case_if as E2; [|case_if as E3]; intros [= <-]; (split; [|done]).
    + unfold is_call, is_recover, is_validate, runtimeFunction. simpl. by case_if as E.
    + by eapply (not_protocol v s "metrics").
    + destruct args; [by eapply (not_protocol v s "capacity") | by eapply (not_protocol v s "status")].
  - intros [= <-]. split; [|done].
    destruct held; [by eapply (not_protocol v s "configure_held") | by eapply (not_protocol v s "command")].
Qed.

(** A write that settles has no unknown outcome. *)
Lemma settle_unknown c st q args a :
  readonly q = false -> unknown_write (mkEntry q a) = true ->
  exists repair, settle json_wire json_tickets order c st false args a = UncertainReply repair.
Proof.
  intros Hq. unfold unknown_write, settle. simpl. rewrite Hq. simpl. destruct a as [raw|x].
  - destruct (UnmarshalJSON json_wire json_tickets raw); [done|]. by eexists.
  - intros [Hf Hu]%andb_true_iff. apply negb_true_iff in Hf. rewrite Hf, Hu. simpl. by eexists.
Qed.

Lemma runtimeCall_post v c read args s w :
  post v (s, w) (fst (runtimeCall json_wire json_tickets json_recovery order c read args s w)).
Proof.
  unfold runtimeCall. case_if as E1; [apply post_refl|]. case_if as E2; [apply post_refl|].
  destruct (recoverySnapshot s) as [st|]; [|apply post_refl]. case_if as E3; [apply post_refl|].
  destruct (submission s st read args) as [q|] eqn:Eq; [|apply post_refl].
  cbn [Do logged]. destruct (Do q (fst w)) as [w' a] eqn:Ed.
  assert (forall s', (s' = s /\ (read = false -> unknown_write (mkEntry q a) = false)) \/ s' = add_uncertainty s ->
            post v (s, w) (s', (w', snd w ++ [mkEntry q a]))) as Hpost.
  { intros s' Hs'. split; [by apply prefix_app_r|]. split; [by destruct Hs' as [[-> _]| ->]|]. unfold log_of. simpl. rewrite length_app. simpl. intros Hl [C1 C2 C3 C4 C5].
    unfold log_of in *. simpl in *. destruct (submission_call v s st read args q a C1 Eq) as [Hc Hro].
    assert (open_incident v (snd w) = false) as Ho.
    { destruct (open_incident v (snd w)); [|done]. by rewrite C4 in E2. }
    assert (fenced v (mkEntry q a) = false) as Hf.
    { unfold is_call in Hc. apply andb_true_iff in Hc as [Hc _]. apply negb_true_iff in Hc. unfold fenced. by rewrite Hc. }
    assert (safe_log v (snd w ++ [mkEntry q a])) as Hsafe by (apply safe_snoc; done).
    destruct Hs' as [[-> Hk]| ->]; split; unfold log_of; simpl; rewrite ?length_app; simpl; try done; try lia.
    - rewrite open_snoc. unfold incident_step. rewrite Hf, Ho, Hc, orb_false_r. simpl. intros Hu. destruct read.
      + unfold unknown_write in Hu. simpl in Hu. by rewrite Hro in Hu.
      + by rewrite Hk in Hu.
    - unfold u64. rewrite Z.mod_small by lia. lia.
    - intros _. unfold unacknowledged, u64. rewrite Z.mod_small by lia. apply Z.ltb_lt. lia. }
  destruct (settle _ _ _ c st read args a) as [r|e|repair] eqn:Es.
  1,2: apply Hpost; left; split; [done|]; intros ->; destruct (unknown_write (mkEntry q a)) eqn:Hu; [|done];
       (destruct (submission_call s s st false args q a eq_refl Eq) as [_ Hro]);
       destruct (settle_unknown c st q args a Hro Hu); congruence.
  destruct repair; [|apply Hpost; by right].
  pose proof (MaintainRecovery_post v (repairCancelled c) (add_uncertainty s) (w', snd w ++ [mkEntry q a])) as Hm.
  destruct (MaintainRecovery json_recovery (repairCancelled c) (add_uncertainty s) (w', snd w ++ [mkEntry q a]))
    as [[s'' w''] r] eqn:Em. simpl in *. eapply post_trans; [apply Hpost; by right | done].
Qed.

Lemma attempt_post v n i cs read args s w :
  post v (s, w) (fst (attempt json_wire json_tickets json_recovery order n i cs read args s w)).
Proof.
  revert i s w. induction n as [|n IH]; intros i s w; simpl; pose proof (runtimeCall_post v (cs i) read args s w) as Hp;
    destruct (runtimeCall _ _ _ _ (cs i) read args s w) as [[s' w'] r]; [done|].
  destruct n; [done|]. case_if as E; [|done]. eapply post_trans; [exact Hp | apply IH].
Qed.

Lemma call_post v cs read args s w :
  runtime s = true -> post v (s, w) (fst (call json_wire json_tickets json_recovery order cs read args s w)).
Proof. intros Hr. unfold call. rewrite Hr. apply attempt_post. Qed.

Lemma sstep_post v y o : runtime (fst y) = true -> post v y (sstep y o).
Proof.
  destruct y as [s w]. intros Hr. simpl in Hr. destruct o as [cs read args|c cs n|b]; simpl.
  - by apply call_post.
  - unfold Promote. case_if as E1; [apply post_refl|]. rewrite Hr. simpl. case_if as E2; [|by apply call_post].
    pose proof (runtimeCall_post v c true ["promotion-needed"] s w) as Hp.
    destruct (runtimeCall _ _ _ _ c true ["promotion-needed"] s w) as [[s' w'] [probe|e]]; [|done].
    case_if as E3; [done|]. eapply post_trans; [exact Hp | apply call_post]. destruct Hp as (_ & Hr' & _). simpl in Hr'. congruence.
  - apply MaintainRecovery_post.
Qed.

Lemma srun_post v y ops : runtime (fst y) = true -> post v y (srun y ops).
Proof.
  revert y. induction ops as [|o ops IH]; intros y Hr; [apply post_refl|]. simpl.
  pose proof (sstep_post v y o Hr) as Hp. eapply post_trans; [exact Hp|]. apply IH. destruct Hp as (_ & Hr' & _). congruence.
Qed.

(** No call after an unknown write before the server is told. For every
    sequence of calls, promotions and recovery steps of a store on any server,
    whatever the server, the network and the cancellations do, a request of a
    visitor or a promotion reaches the server only when every earlier write
    whose outcome was unknown (a lost or unrecognised answer, a schema or
    availability error, an undecodable body) has been followed by an
    acknowledged recovery request that reports it. *)
Lemma unknown_write_is_fenced (s : Store) (w : Srv) (ops : list sop)
    (Hruntime : runtime s = true) (Hfresh : uncertainty s = 0 /\ acknowledgedUncertainty s = 0)
    (Hlog : Z.of_nat (List.length (log_of (srun (s, (w, [])) ops))) < 2 ^ 64) :
  safe_log s (log_of (srun (s, (w, [])) ops)).
Proof.
  destruct (srun_post s (s, (w, [])) ops Hruntime) as (_ & _ & Hpost).
  apply ci_safe, Hpost; [done|]. destruct Hfresh as [Hu Ha].
  split; unfold log_of; simpl; rewrite ?Hu, ?Ha; try done. intros l1 e l2 E. by destruct l1.
Qed.

(** ** The sweep retry *)

Definition answered_sweep (e : entry) : bool :=
  match eAnswer e with Failure x => bool_decide (classify order x = ErrSweep) | Text _ => false end.

Definition calls_of (v : Store) (l : list entry) : list entry := List.filter (is_call v) l.

Lemma calls_app v l k : calls_of v (l ++ k) = calls_of v l ++ calls_of v k.
Proof. apply List.filter_app. Qed.

Lemma protocol_entry (v s : Store) op q a :
  runtimeVersion s = runtimeVersion v -> op = "recover" \/ op = "validate" ->
  function q = runtimeFunction s op -> calls_of v [mkEntry q a] = [].
Proof.
  intros Hv Hop Hq. unfold calls_of, is_call, is_recover, is_validate. simpl. rewrite Hq, (runtimeFunction_version v s) by done.
  destruct Hop as [-> | ->]; rewrite String.eqb_refl; simpl; [done | by rewrite andb_false_r].
Qed.

(** The recovery step submits no visitor's call. *)
Lemma MaintainRecovery_calls (v : Store) b s w :
  runtimeVersion s = runtimeVersion v ->
  exists new, snd (snd (fst (MaintainRecovery json_recovery b s w))) = snd w ++ new /\ calls_of v new = [].
Proof.
  intros Hv. assert (forall w' p, primaryID w = (w', p) -> snd w' = snd w) as Hinfo.
  { intros w' p. unfold primaryID. cbn [Info logged]. destruct (Info (fst w)) as [z [info|x]]; intros; simplify_eq; [|done].
    destruct (List.find _ _); by simplify_eq. }
  unfold MaintainRecovery. case_if as E1; [exists []; by rewrite app_nil_r|]. case_if as E2; [exists []; by rewrite app_nil_r|].
  destruct (primaryID w) as [w1 [p|e]] eqn:Ep; specialize (Hinfo _ _ eq_refl); simpl.
  2: { exists []. by rewrite app_nil_r. }
  destruct (Do _ (fst w1)) as [w' a] eqn:Ed. rewrite Hinfo.
  assert (forall q (z : list entry), function q = runtimeFunction s "recover" ->
    exists new, z ++ [mkEntry q a] = z ++ new /\ calls_of v new = []) as Hone.
  { intros q z Hq. exists [mkEntry q a]. split; [done|]. by apply (protocol_entry v s "recover"); [|left|]. }
  destruct a as [raw|x]; [|by apply Hone]. destruct (decodeRecovery json_recovery raw) as [st|e]; [|by apply Hone].
  unfold maintain_validate. case_if as E3; [|by apply Hone]. simpl. destruct (Do _ w') as [w'' a'] eqn:Ed'.
  assert (forall q, function q = runtimeFunction s "recover" -> forall q', function q' = runtimeFunction s "validate" ->
    exists new, (snd w ++ [mkEntry q (Text raw)]) ++ [mkEntry q' a'] = snd w ++ new /\ calls_of v new = []) as Htwo.
  { intros q Hq q' Hq'. exists [mkEntry q (Text raw); mkEntry q' a']. rewrite <- app_assoc. split; [done|].
    change [mkEntry q (Text raw); mkEntry q' a'] with ([mkEntry q (Text raw)] ++ [mkEntry q' a']). rewrite calls_app.
    rewrite (protocol_entry v s "recover"), (protocol_entry v s "validate") by auto. done. }
  destruct a' as [raw'|x]; [|by apply Htwo]. destruct (decodeRecovery json_recovery raw'); by apply Htwo.
Qed.

(** One fenced call submits its request at most once; a sweep answer leaves
    the store as it was. *)
Lemma runtimeCall_calls c read args s w :
  let out := runtimeCall json_wire json_tickets json_recovery order c read args s w in
  exists new, snd (snd (fst out)) = snd w ++ new /\
    (is_sweep (snd out) = true -> fst (fst out) = s) /\
    (calls_of s new = [] /\ is_sweep (snd out) = false \/
     exists st q a, recoverySnapshot s = Some st /\ submission s st read args = Some q /\
       calls_of s new = [mkEntry q a] /\ (is_sweep (snd out) = true -> answered_sweep (mkEntry q a) = true)).
Proof.
  unfold runtimeCall.
  assert (forall e, e <> ErrSweep -> exists new, snd w = snd w ++ new /\
    (is_sweep (Err e : result error Result) = true -> s = s) /\
    (calls_of s new = [] /\ is_sweep (Err e : result error Result) = false \/
     exists st q a, recoverySnapshot s = Some st /\ submission s st read args = Some q /\
       calls_of s new = [mkEntry q a] /\ (is_sweep (Err e : result error Result) = true -> answered_sweep (mkEntry q a) = true))) as Hnone.
  { intros e He. exists []. rewrite app_nil_r. split_and!; [done | done |]. left. by destruct e. }
  case_if as E1; [by apply Hnone|]. case_if as E2; [by apply Hnone|].
  destruct (recoverySnapshot s) as [st|] eqn:Est; [|by apply Hnone]. case_if as E3; [by apply Hnone|].
  destruct (submission s st read args) as [q|] eqn:Eq; [|by apply Hnone]. clear Hnone.
  cbn [Do logged]. destruct (Do q (fst w)) as [w' a] eqn:Ed.
  pose proof (submission_call s s st read args q a eq_refl Eq) as [Hc _].
  assert (calls_of s [mkEntry q a] = [mkEntry q a]) as Hone by (unfold calls_of; simpl; by rewrite Hc).
  destruct (settle _ _ _ c st read args a) as [r|e|repair] eqn:Es; simpl.
  - exists [mkEntry q a]. split_and!; [done | done |]. right. by exists st, q, a.
  - exists [mkEntry q a]. split_and!; [done | done |]. right. exists st, q, a. split_and!; try done.
    destruct e; try done. intros _. unfold answered_sweep. simpl. unfold settle in Es. destruct a as [raw|x].
    + by repeat (case_match; simplify_eq).
    + repeat (case_match; simplify_eq). by apply bool_decide_eq_true.
  - assert (exists new, snd (snd (fst (if repair then MaintainRecovery json_recovery (repairCancelled c) (add_uncertainty s)
              (w', snd w ++ [mkEntry q a]) else (add_uncertainty s, (w', snd w ++ [mkEntry q a]), Ok RecoveryState_zero))))
              = (snd w ++ [mkEntry q a]) ++ new /\ calls_of s new = []) as (new & En & Hn).
    { destruct repair; [|exists []; by rewrite app_nil_r].
      by apply (MaintainRecovery_calls s (repairCancelled c) (add_uncertainty s) (w', snd w ++ [mkEntry q a])). }
    destruct (if repair then _ else _) as [[s2 w2] r2]. simpl in *. exists ([mkEntry q a] ++ new).
    rewrite En, app_assoc. split_and!; [done | done |]. right. exists st, q, a. rewrite calls_app, Hn, app_nil_r. done.
Qed.

(** The calls of a retry loop of [n] attempts: one request, swept but for the last. *)
Definition retried (s : Store) (read : bool) (args : list string) (n : nat) (calls : list entry) : Prop :=
  (List.length calls <= Nat.max 1 n)%nat /\
  (forall e, e ∈ calls -> exists st, recoverySnapshot s = Some st /\ submission s st read args = Some (eRequest e)) /\
  Forall (fun e => answered_sweep e = true) (removelast calls).

Lemma retried_nil s read args n : retried s read args n [].
Proof. split_and!; simpl; [lia | set_solver | done]. Qed.

Lemma retried_cons s read args n st q a calls :
  recoverySnapshot s = Some st -> submission s st read args = Some q ->
  calls = [] \/ (answered_sweep (mkEntry q a) = true /\ n <> O) -> retried s read args n calls ->
  retried s read args (S n) (mkEntry q a :: calls).
Proof.
  intros Hst Hq Ha (Hl & Hr & Hall). split_and!.
  - destruct Ha as [->|[_ Hn]]; simpl in *; lia.
  - intros e [->|He]%elem_of_cons; [by exists st | by apply Hr].
  - destruct calls; [by constructor|]. destruct Ha as [?|[Ha _]]; [done|]. by constructor.
Qed.

Lemma attempt_calls n : forall i cs read args s w, exists new,
  snd (snd (fst (attempt json_wire json_tickets json_recovery order n i cs read args s w))) = snd w ++ new /\
  retried s read args n (calls_of s new).
Proof.
  induction n as [|n IH]; intros i cs read args s w; simpl;
    destruct (runtimeCall_calls (cs i) read args s w) as (new & En & Hs & Hnew);
    destruct (runtimeCall _ _ _ _ (cs i) read args s w) as [[s1 w1] r1] eqn:Er; simpl in *.
  - exists new. split; [done|]. destruct Hnew as [[-> _]|(st & q & a & Hst & Hq & -> & _)]; [apply retried_nil|].
    assert (retried s read args 1 [mkEntry q a]) as (? & ? & ?); [|done].
    eapply retried_cons; [done | done | by left | apply retried_nil].
  - assert (exists new0, snd w1 = snd w ++ new0 /\ retried s read args (S n) (calls_of s new0)) as Hstop.
    { exists new. split; [done|]. destruct Hnew as [[-> _]|(st & q & a & Hst & Hq & -> & _)]; [apply retried_nil|].
      eapply retried_cons; [done | done | by left | apply retried_nil]. }
    destruct n; [done|]. destruct (is_sweep r1) eqn:Esw; [|done]. clear Hstop.
    rewrite (Hs eq_refl) in *. destruct (IH (S i) cs read args s w1) as (rest & Erest & Hrest).
    destruct Hnew as [[_ ?]|(st & q & a & Hst & Hq & Hcall & Hans)]; [done|].
    exists (new ++ rest). rewrite calls_app, Hcall, Erest, En, app_assoc. split; [done|].
    eapply retried_cons; [done | done | right; split; [by apply Hans | done] | done].
Qed.

(** The sweep retry repeats only calls that did not run. A call submits
    its request at most eight times, always the same request under the same
    fence, and each submission but the last was answered with
    [WR_SWEEP_REQUIRED], the server's word that the operation has not run. *)
Lemma sweep_retry_is_safe (cs : nat -> ctx) (read : bool) (args : list string) (s : Store) (w : Y)
    (Hruntime : runtime s = true) :
  exists new, snd (snd (fst (call json_wire json_tickets json_recovery order cs read args s w))) = snd w ++ new /\
    (List.length (calls_of s new) <= 8)%nat /\
    (forall e e', e ∈ calls_of s new -> e' ∈ calls_of s new -> eRequest e = eRequest e') /\
    Forall (fun e => answered_sweep e = true) (removelast (calls_of s new)).
Proof.
  unfold call. rewrite Hruntime. destruct (attempt_calls (attempts s read args) 0%nat cs read args s w) as (new & E & Hl & Hr & Hall).
  exists new. split_and!; [done | | | done].
  - revert Hl. unfold attempts. case_if as Ea; lia.
  - intros e e' He He'. destruct (Hr e He) as (st & Hst & Hq), (Hr e' He') as (st' & Hst' & Hq'). congruence.
Qed.
End histories.

(** ** A scripted server *)

(** Answers the calls with a list of replies, then fails. *)
Definition wit_server : Server (list answer) := {|
  Do q w := match w with x :: w' => (w', x) | [] => ([], Failure (mkRpc "gone" EOF)) end;
  Info w := (w, Text ("role:master" +:+ crlf +:+ "run_id:0123456789012345678901234567890123456789" +:+ crlf))
|}.

Definition wit_active : RecoveryState :=
  mkRecovery 1000 "0123456789012345678901234567890123456789" 7 "ACTIVE" 0 "" "".
Definition wit_store : Store := mkStore 6 "" false true true wit_active (Some wit_active) 0 0.
Definition wit_wire (raw : string) : option wire :=
  if String.eqb raw "ok" then Some (mkWire None None 5 None "{}" "" None None) else None.
Definition wit_tickets (raw : string) : option (list model.Ticket) := None.
Definition wit_recovery (raw : string) : option RecoveryState :=
  if String.eqb raw "active" then Some wit_active else None.
Definition wit_ctx : ctx := mkCtx false false false false false.

(** A lost answer, a failed report, a refused call, a report, an accepted call. *)
Definition wit_script : list answer :=
  [Failure (mkRpc "EOF" EOF); Failure (mkRpc "EOF" EOF); Text "active"; Text "ok"].
Definition wit_ops : list sop :=
  [SCall (fun _ => wit_ctx) false ["claim"; "t"]; SCall (fun _ => wit_ctx) false ["claim"; "t"];
   SMaintain false; SCall (fun _ => wit_ctx) false ["claim"; "t"]].

Definition wit_log : list entry :=
  log_of (@srun _ wit_server wit_wire wit_tickets wit_recovery classes (wit_store, (wit_script, [])) wit_ops).

(** Two sweeps, then the answer. *)
Definition wit_sweeps : list answer :=
  [Failure (mkRpc "WR_SWEEP_REQUIRED" OtherKind); Failure (mkRpc "WR_SWEEP_REQUIRED" OtherKind); Text "ok"].

End valkeystore.

(** ** Concurrent calls

    Any number of calls run beside the recovery step. Each transition is one
    atomic action of the code on the two counters or one message to the server;
    the recovery step holds [recoveryMu] from its first load on. *)
Module fence.
Import valkeystore.
Local Open Scope Z_scope.

Inductive event :=
  | Began (t : nat)              (* a call loads [uncertainty] *)
  | Passed (t : nat)             (* it loads [acknowledgedUncertainty] and goes on *)
  | Incident                     (* a call's outcome is unknown: [uncertainty.Add(1)] *)
  | RecoverSent (reason : string)
  | Acknowledged.                (* the server's record is stored, then the counter *)

(** The holder of [recoveryMu]: nobody, a step that has loaded its incident, or
    one whose request is with the server. *)
Inductive holder := Free | Loaded (incident : Z) (reason : string) | Sent (incident : Z).

Record state := mkState {
  u : Z; a : Z; lock : holder; loads : gmap nat Z; events : list event
}.

Inductive step : state -> state -> Prop :=
  | step_begin s t :
      loads s !! t = None ->
      step s (mkState (u s) (a s) (lock s) (<[t := u s]> (loads s)) (events s ++ [Began t]))
  | step_pass s t u0 :
      loads s !! t = Some u0 -> unacknowledged u0 (a s) = false ->
      step s (mkState (u s) (a s) (lock s) (delete t (loads s)) (events s ++ [Passed t]))
  | step_refuse s t u0 :
      loads s !! t = Some u0 -> unacknowledged u0 (a s) = true ->
      step s (mkState (u s) (a s) (lock s) (delete t (loads s)) (events s))
  | step_incident s :
      step s (mkState (u64 (u s + 1)) (a s) (lock s) (loads s) (events s ++ [Incident]))
  | step_load s :
      lock s = Free ->
      step s (mkState (u s) (a s) (Loaded (u s) (recover_reason (u s) (a s))) (loads s) (events s))
  | step_send s i r :
      lock s = Loaded i r ->
      step s (mkState (u s) (a s) (Sent i) (loads s) (events s ++ [RecoverSent r]))
  | step_fail s i :
      lock s = Sent i -> step s (mkState (u s) (a s) Free (loads s) (events s))
  | step_acknowledge s i :
      lock s = Sent i -> step s (mkState (u s) i Free (loads s) (events s ++ [Acknowledged])).

Definition start : state := mkState 0 0 Free ∅ [].

Definition is_incident (e : event) : bool := match e with Incident => true | _ => false end.
Definition incidents (l : list event) : Z := Z.of_nat (countb is_incident l).

(** A reported and acknowledged recovery within a list of events. *)
Definition reported (l : list event) : Prop :=
  exists l1 l2 l3, l = l1 ++ RecoverSent "uncertain" :: l2 ++ Acknowledged :: l3.

(** The first [n] incidents of the log are each followed by such a recovery. *)
Definition covered (n : Z) (l : list event) : Prop :=
  forall l1 l2, l = l1 ++ Incident :: l2 -> incidents l1 < n -> reported l2.

(** The recovery request sent last covers the first [n] incidents. *)
Definition sent_for (n : Z) (l : list event) : Prop :=
  forall l1 l2, l = l1 ++ Incident :: l2 -> incidents l1 < n ->
    reported l2 \/ exists k1 k2, l2 = k1 ++ RecoverSent "uncertain" :: k2.

Lemma snoc_split {A} (l l1 l2 : list A) (e x : A) :
  l ++ [e] = l1 ++ x :: l2 -> (l2 = [] /\ x = e /\ l = l1) \/ exists l2', l2 = l2' ++ [e] /\ l = l1 ++ x :: l2'.
Proof.
  intros E. destruct l2 as [|z l2 _] using rev_ind.
  - apply app_inj_tail in E as [-> ->]. by left.
  - right. rewrite app_comm_cons, app_assoc in E. apply app_inj_tail in E as [-> ->]. by exists l2.
Qed.

Lemma incidents_snoc l e : incidents (l ++ [e]) = incidents l + if is_incident e then 1 else 0.
Proof. unfold incidents. rewrite countb_app. unfold countb at 2. simpl. destruct (is_incident e); simpl; lia. Qed.

Lemma incidents_app l k : incidents (l ++ k) = incidents l + incidents k.
Proof. unfold incidents. rewrite countb_app. lia. Qed.

Lemma incidents_nonneg l : 0 <= incidents l.
Proof. unfold incidents. lia. Qed.

Lemma incidents_length l : incidents l <= Z.of_nat (List.length l).
Proof. unfold incidents, countb. pose proof (List.filter_length_le is_incident l). lia. Qed.

Lemma reported_snoc l e : reported l -> reported (l ++ [e]).
Proof.
  intros (l1 & l2 & l3 & ->). exists l1, l2, (l3 ++ [e]). by rewrite <- !app_assoc, <- !app_comm_cons, <- app_assoc.
Qed.

Lemma covered_snoc n l e : n <= incidents l -> covered n l -> covered n (l ++ [e]).
Proof.
  intros Hn Hc l1 l2 E Hl. apply snoc_split in E as [(-> & <- & ->)|(l2' & -> & ->)]; [lia|].
  by apply reported_snoc, (Hc l1).
Qed.

Lemma sent_for_snoc n l e : n <= incidents l -> sent_for n l -> sent_for n (l ++ [e]).
Proof.
  intros Hn Hc l1 l2 E Hl. apply snoc_split in E as [(-> & <- & ->)|(l2' & -> & ->)]; [lia|].
  destruct (Hc l1 l2' eq_refl Hl) as [Hr|(k1 & k2 & ->)]; [left; by apply reported_snoc|].
  right. exists k1, (k2 ++ [e]). by rewrite <- app_assoc.
Qed.

(** Events other than a call's own keep what is known of the loads. *)
Definition loads_ok (s : gmap nat Z) (l : list event) : Prop :=
  forall t u0, s !! t = Some u0 ->
    0 <= u0 /\ forall l1 l2, l = l1 ++ Began t :: l2 -> Passed t ∉ l2 -> incidents l1 <= u0.
Definition passed_ok (l : list event) : Prop :=
  forall t l1 l2 l3 l4, l = l1 ++ Incident :: l2 ++ Began t :: l3 ++ Passed t :: l4 ->
    Passed t ∉ l3 -> reported (l2 ++ Began t :: l3).

Lemma loads_snoc s l e : (forall t, e <> Began t) -> loads_ok s l -> loads_ok s (l ++ [e]).
Proof.
  intros He Hs t u0 Ht. destruct (Hs t u0 Ht) as [H0 Hl]. split; [done|]. intros l1 l2 E Hp.
  apply snoc_split in E as [(_ & E & _)|(l2' & -> & ->)]; [by destruct (He t)|]. apply (Hl l1 l2'); [done|]. set_solver.
Qed.

Lemma loads_delete s l t : loads_ok s l -> loads_ok (delete t s) l.
Proof. intros Hs t' u0 [_ Ht]%lookup_delete_Some. by apply Hs. Qed.

Lemma passed_snoc l e : (forall t, e <> Passed t) -> passed_ok l -> passed_ok (l ++ [e]).
Proof.
  intros He Hp t l1 l2 l3 l4 E Hn.
  replace (l1 ++ Incident :: l2 ++ Began t :: l3 ++ Passed t :: l4)
    with ((l1 ++ Incident :: l2 ++ Began t :: l3) ++ Passed t :: l4) in E by (rewrite <- !app_assoc; simpl; by rewrite <- !app_assoc).
  apply snoc_split in E as [(_ & E & _)|(l4' & -> & ->)]; [by destruct (He t)|].
  apply (Hp t l1 l2 l3 l4'); [|done]. rewrite <- !app_assoc. simpl. by rewrite <- !app_assoc.
Qed.

Lemma passed_pass s l t n u0 :
  loads_ok s l -> s !! t = Some u0 -> u0 <= n -> covered n l -> passed_ok l -> passed_ok (l ++ [Passed t]).
Proof.
  intros Hs Ht Hu Hc Hp t' l1 l2 l3 l4 E Hn.
  replace (l1 ++ Incident :: l2 ++ Began t' :: l3 ++ Passed t' :: l4)
    with ((l1 ++ Incident :: l2 ++ Began t' :: l3) ++ Passed t' :: l4) in E by (rewrite <- !app_assoc; simpl; by rewrite <- !app_assoc).
  apply snoc_split in E as [(-> & [= ->] & ->)|(l4' & -> & ->)].
  - apply (Hc l1); [done|]. destruct (Hs t u0 Ht) as [_ Hl]. specialize (Hl (l1 ++ Incident :: l2) l3).
    rewrite <- app_assoc in Hl. specialize (Hl eq_refl Hn). rewrite incidents_app in Hl.
    change (Incident :: l2) with ([Incident] ++ l2) in Hl. rewrite incidents_app in Hl.
    pose proof (incidents_nonneg l2). change (incidents [Incident]) with 1 in Hl. lia.
  - apply (Hp t' l1 l2 l3 l4'); [|done]. rewrite <- !app_assoc. simpl. by rewrite <- !app_assoc.
Qed.

Record inv (s : state) : Prop := {
  iv_count : u s = incidents (events s);
  iv_bounds : 0 <= a s <= u s;
  iv_covered : covered (a s) (events s);
  iv_lock : match lock s with
            | Free => True
            | Loaded i r => a s <= i <= u s /\ (a s < i -> r = "uncertain")
            | Sent i => a s <= i <= u s /\ sent_for i (events s)
            end;
  iv_loads : loads_ok (loads s) (events s);
  iv_passed : passed_ok (events s)
}.

Lemma lock_snoc s e : inv s -> is_incident e = false ->
  match lock s with
  | Free => True
  | Loaded i r => a s <= i <= u s /\ (a s < i -> r = "uncertain")
  | Sent i => a s <= i <= u s /\ sent_for i (events s ++ [e])
  end.
Proof.
  intros [Hu Hb Hc Hl _ _] He. destruct (lock s); [done | done |]. destruct Hl as [Hi Hf]. split; [done|].
  apply sent_for_snoc; [lia | done].
Qed.

Lemma inv_step s s' : step s s' -> Z.of_nat (List.length (events s')) < 2 ^ 64 -> inv s -> inv s'.
Proof.
  intros Hs Hlen Hi. pose proof (lock_snoc s) as Hlock. pose proof Hi as [Hu Hb Hc Hl Hld Hp].
  destruct Hs as [s t Ht|s t u0 Ht Ha|s t u0 Ht Ha|s|s Hf|s i r Hf|s i Hf|s i Hf]; simpl in *.
  - split; simpl; rewrite ?incidents_snoc; simpl; try lia.
    + apply covered_snoc; [lia | done].
    + by apply Hlock.
    + intros t' u' [[<- <-]|[Hne Ht']]%lookup_insert_Some.
      * split; [lia|]. intros l1 l2 E Hn. rewrite Hu.
        apply snoc_split in E as [(_ & _ & ->)|(l2' & -> & ->)]; [lia|]. rewrite incidents_app. pose proof (incidents_nonneg (Began t :: l2')). lia.
      * destruct (Hld t' u' Ht') as [H0 Hl'].
        split; [done|]. intros l1 l2 E Hn.
        apply snoc_split in E as [(_ & [= <-] & _)|(l2' & -> & E)]; [done|]. apply (Hl' l1 l2'); [done|]. set_solver.
    + by apply passed_snoc.
  - unfold unacknowledged in Ha. to_prop. split; simpl; rewrite ?incidents_snoc; simpl; try lia.
    + apply covered_snoc; [lia | done].
    + by apply Hlock.
    + apply loads_delete. by apply loads_snoc.
    + by eapply passed_pass.
  - split; simpl; try done. by apply loads_delete.
  - rewrite length_app in Hlen. simpl in Hlen. pose proof (incidents_length (events s)).
    assert (u64 (u s + 1) = u s + 1) as Eu by (unfold u64; apply Z.mod_small; lia).
    split; simpl; rewrite ?incidents_snoc, ?Eu; simpl; try lia.
    + apply covered_snoc; [lia | done].
    + destruct (lock s) as [|i r|i]; [done | | ]; destruct Hl as [Hi' Hl]; (split; [lia|]); [done|].
      apply sent_for_snoc; [lia | done].
    + by apply loads_snoc.
    + by apply passed_snoc.
  - split; simpl; try done. split; [lia|]. unfold recover_reason, unacknowledged. intros Hlt.
    by rewrite (proj2 (Z.ltb_lt _ _) Hlt).
  - rewrite Hf in Hl. destruct Hl as [Hi' Hr]. split; simpl; rewrite ?incidents_snoc; simpl; try lia.
    + apply covered_snoc; [lia | done].
    + split; [done|]. intros l1 l2 E Hn. apply snoc_split in E as [(_ & ? & _)|(l2' & -> & E)]; [done|].
      destruct (Z.ltb_spec (incidents l1) (a s)) as [Hlt|Hge]; [left; by apply reported_snoc, (Hc l1)|].
      right. exists l2', []. rewrite Hr by lia. done.
    + by apply loads_snoc.
    + by apply passed_snoc.
  - by split.
  - rewrite Hf in Hl. destruct Hl as [Hi' Hr]. split; simpl; rewrite ?incidents_snoc; simpl; try lia; try done.
    + intros l1 l2 E Hn. apply snoc_split in E as [(_ & ? & _)|(l2' & -> & E)]; [done|].
      destruct (Hr l1 l2' E Hn) as [Hrep|(k1 & k2 & ->)]; [by apply reported_snoc|].
      exists k1, k2, []. by rewrite <- app_assoc.
    + by apply loads_snoc.
    + by apply passed_snoc.
Qed.

Lemma reachable_inv s : rtc step start s -> Z.of_nat (List.length (events s)) < 2 ^ 64 -> inv s.
Proof.
  revert s. apply (rtc_ind_r (fun s => Z.of_nat (List.length (events s)) < 2 ^ 64 -> inv s) start).
  2: intros s s' _ Hs IH. all: intros Hlen.
  - split; simpl; try done. intros l1 l2 E. by destruct l1. intros t l1 l2 l3 l4 E. by destruct l1.
  - eapply inv_step; [done | done |]. apply IH. destruct Hs; simpl in *; rewrite ?length_app in Hlen; simpl in *; lia.
Qed.

(** C10: under any interleaving of calls and recovery steps, a call passes the
    uncertainty check only if every incident that happened before it began was
    reported to the server as uncertain after it happened, and acknowledged
    before the call passed: a recovery that was already under way when the
    incident happened does not count, and a later incident is never hidden by
    the acknowledgement of an earlier one. *)
Theorem concurrent_calls_are_fenced (s : state) (t : nat) (l1 l2 l3 l4 : list event)
    (Hreach : rtc step start s) (Hlen : Z.of_nat (List.length (events s)) < 2 ^ 64)
    (Hevents : events s = l1 ++ Incident :: l2 ++ Began t :: l3 ++ Passed t :: l4) (Hfirst : Passed t ∉ l3) :
  reported (l2 ++ Began t :: l3).
Proof. by apply (iv_passed s (reachable_inv s Hreach Hlen) t l1 l2 l3 l4). Qed.

Lemma concurrent_calls_are_fenced_witness :
  let s := mkState 1 1 Free ∅ [Incident; Began 1; RecoverSent "uncertain"; Acknowledged; Passed 1] in
  rtc step start s /\ reported [Began 1; RecoverSent "uncertain"; Acknowledged].
Proof.
  intros s. assert (rtc step start s) as Hr.
  { eapply rtc_l; [apply step_incident|]. eapply rtc_l; [apply (step_begin _ 1); reflexivity|]. simpl.
    eapply rtc_l; [apply step_load; reflexivity|]. eapply rtc_l; [eapply step_send; reflexivity|].
    eapply rtc_l; [eapply step_acknowledge; reflexivity|]. eapply rtc_l; [eapply (step_pass _ 1); reflexivity|].
    simpl. vm_compute u64. apply rtc_refl. }
  split; [exact Hr|].
  apply (concurrent_calls_are_fenced s 1 [] [] [RecoverSent "uncertain"; Acknowledged] []); [exact Hr | vm_compute; reflexivity | reflexivity |].
  set_solver.
Defined.
End fence.
