(* ===== verification/Coordinator.v ===== *)
(** * The coordinator's public API: [src/internal/lab]

    Module [lab] translates the coordinator: the binding of a room
    ([binding.go]), the request checks ([input.go]) and the handlers
    ([coordinator.go]) that join the queue, poll, heartbeat and claim. The
    queue and the request guard are interfaces ([Queue], with the contract
    [QueueLaws] of idempotent joins). Randomness is an argument. A response
    keeps the instants its JSON text renders as numbers. *)

From S2P Require Import Prelude GoStd Admission Keyring Control QueueModel StoreClient.
From stdpp Require Import base list gmap strings pretty.
From Stdlib Require Import ZArith Lia Ascii String.

Module lab.
Import valkeystore.
Local Open Scope Z_scope.

(** ** HTTP *)

Record Request := mkHttpRequest {
  Method : string; Host : string; HasTLS : bool; RemoteAddr : string; Path : string; RawQuery : string; RequestURI : string;
  QueryReturn : list string;                 (* [r.URL.Query()["return"]] *)
  Values : string -> list string;            (* header values by canonical name *)
  Cookies : list (string * string);
  Body : option string                       (* [None]: unreadable or too large *)
}.

Definition Get (r : Request) (h : string) : string := match Values r h with v :: _ => v | [] => "" end.
Definition one (l : list string) : bool := match l with [_] => true | _ => false end.

(** [strings.Fields]: maximal runs of bytes that decode to no space. *)
Definition flush (cur : list Z) (rest : list string) : list string :=
  match cur with [] => rest | _ => of_bytes (rev cur) :: rest end.
Fixpoint fields_fuel (fuel : nat) (l cur : list Z) : list string :=
  match fuel, l with
  | O, _ | _, [] => flush cur []
  | S n, b :: l' =>
      match utf8.decode_rune l with
      | Some (c, rest) =>
          if utf8.IsSpace c then flush cur (fields_fuel n rest [])
          else fields_fuel n rest (rev (take (List.length l - List.length rest) l) ++ cur)
      | None => fields_fuel n l' (b :: cur)
      end
  end.
Definition Fields (s : string) : list string := fields_fuel (String.length s) (bytes s) [].

(** [strings.EqualFold] with an ASCII text in lower case. *)
Definition lower (a : ascii) : ascii :=
  if (65 <=? byte_of a) && (byte_of a <=? 90) then ascii_of (byte_of a + 32) else a.
Definition ToLower (s : string) : string := string_of_list_ascii (lower <$> list_ascii_of_string s).

(** ** [binding.go] *)

Record Binding := mkBinding {
  Keys : option keyring.KeySet; SourceKey : string; Room : string; Audience : string; Kid : string;
  Epoch : Z; ValidTarget : string -> bool
}.

Definition base (b : Binding) : string := "/_wr/v1/rooms/" +:+ Room b.

(** [^[a-zA-Z0-9_-]{1,64}$]. *)
Definition kidPattern (s : string) : bool :=
  (1 <=? len s) && (len s <=? 64) &&
  forallb (fun a => let b := byte_of a in
    ((97 <=? b) && (b <=? 122)) || ((65 <=? b) && (b <=? 90)) || ((48 <=? b) && (b <=? 57)) || (b =? 95) || (b =? 45))
    (list_ascii_of_string s).

Definition binding_ok (b : Binding) : bool :=
  control.publicIDPattern (Room b) && (1 <=? Epoch b) && negb (len (Audience b) =? 0) && (len (Audience b) <=? 256) &&
  kidPattern (Kid b).

(** ** The queue and the guard *)

Record WaitEstimate := mkEstimate { eMin : Z; eMax : Z }.
Record Progress := mkProgress { UsersAhead : Z; pMode : string; Estimate : option WaitEstimate }.
Record Decision := mkDecision { Allowed : bool; dNow : Z; RetryAfterMs : Z; PollAfterMs : Z }.

(** [type Queue interface] and [publicguard.CheckFunc] over a shared state. *)
Class Queue (Q : Type) := {
  queue_Join : string -> string -> string -> string -> Q -> Q * result error Result;
  queue_Status : string -> Q -> Q * result error (Result * option Progress);
  queue_Claim : string -> Q -> Q * result error Result;
  queue_Heartbeat : string -> Q -> Q * result error Result;
  guard_Check : string -> string -> string -> Q -> Q * option Decision
}.

(** ** Responses *)

Record queuedBody := mkQueued {
  qRoom : string; qPollAfterMs : Z; qHeartbeatAfterMs : Z; qUsersAhead : option Z;
  qEstimate : option WaitEstimate; qExpiresAt : Z; qStatusUrl : string; qToken : option string;
  qPaused : option bool
}.

Inductive response :=
  | Problem (status : Z) (code : string) (retryAfter : option Z)
  | NotAllowed (allow : string)
  | Queued (absolute : Z) (body : queuedBody)
  | AdmittedBody (absolute : Z) (room token : string) (expires : Z)
  | StateBody (absolute : Z) (state room : string) (claimUrl : option string) (expiresAt : Z)
  | NoContent
  | Panic.                                   (* a nil dereference, recovered by the server *)

Definition problem (status : Z) (code : string) : response :=
  Problem status code (if (status =? 429) || (status =? 503) then Some 3 else None).

Definition queueError (e : error) : response :=
  match e with
  | EModel model.ErrExpired => problem 410 "TICKET_EXPIRED"
  | EModel model.ErrConflict => problem 409 "IDEMPOTENCY_CONFLICT"
  | EModel model.ErrCapacity => problem 503 "QUEUE_CAPACITY_EXCEEDED"
  | EModel model.ErrDrain => problem 503 "QUEUE_DRAINING"
  | EModel model.ErrNotReady => problem 409 "TICKET_NOT_READY"
  | _ => problem 503 "QUEUE_UNAVAILABLE"
  end.

Section coordinator.
Context {Q : Type} `{Queue Q}.
Context `{Codec admission.Claims} `{Ed25519} `{Sha256} `{AEAD}.
(** [mime.ParseMediaType], and the fields of a JSON object in order, each with
    its value if that decodes to a string. *)
Context (ParseMediaType : string -> option (string * list (string * string)))
        (json_object : string -> option (list (string * option string))).

Record Coordinator := mkCoordinator {
  Guarded : bool; config : model.Config; private : string; ServiceKey : string; replay : string; binding : Binding
}.

(** [NewBoundCoordinator]. *)
Definition NewBoundCoordinator (guard : bool) (c : model.Config) (b : Binding) (key replayKey service : string)
    : option Coordinator :=
  if match Keys b with Some ks => negb (is_ok (keyring.Validate ks "coordinator")) | None => false end ||
     negb (binding_ok b) || negb (len key =? PrivateKeySize) || negb (len replayKey =? 32) ||
     (len service <? 32) || negb (model.ClockSkew c =? 30000)
  then None
  else if negb (is_ok (model.New c)) then None
  else Some (mkCoordinator guard c key service replayKey b).

Definition Hash (v : string) : string := hex_EncodeToString (sha256 v).

(** ** [input.go] *)

Definition jsonContentType (r : Request) : bool :=
  one (Values r "Content-Type") &&
  match ParseMediaType (Get r "Content-Type") with
  | None => false
  | Some (media, params) =>
      String.eqb media "application/json" &&
      forallb (fun kv => String.eqb (fst kv) "charset" && String.eqb (ToLower (snd kv)) "utf-8") params
  end.

(** The loop over the fields: the one field [target], once. *)
Fixpoint target_fields (seen : bool) (target : string) (fs : list (string * option string)) : option string :=
  match fs with
  | [] => if seen then Some target else None
  | (name, value) :: fs' =>
      if negb (String.eqb name "target") || seen then None else
      match value with None => None | Some v => target_fields true v fs' end
  end.

Definition joinTargetFor (r : Request) (valid : string -> bool) : option string :=
  match Body r with
  | None => None
  | Some raw =>
      if (4096 <? len raw) || negb (match utf8.runes raw with Some _ => true | None => false end) then None else
      match json_object raw with
      | None => None
      | Some fs => match target_fields false "" fs with
                   | Some t => if valid t then Some t else None
                   | None => None
                   end
      end
  end.

(** ** [coordinator.go] *)

(** [checkPublic]: the refusal, if any, and the decision. *)
Definition checkPublic (c : Coordinator) (r : Request) (op id : string) (q : Q) : Q * sum response Decision :=
  if negb (Guarded c) then (q, inr (mkDecision false 0 0 0)) else
  if negb (one (Values r "X-WR-Source")) then (q, inl (problem 400 "INVALID_REQUEST")) else
  match guard_Check (Get r "X-WR-Source") op id q with
  | (q, None) => (q, inl (problem 503 "QUEUE_UNAVAILABLE"))
  | (q, Some d) =>
      if negb (Allowed d)
      then (q, inl (Problem 429 "API_RATE_LIMITED" (Some (Z.max 1 ((RetryAfterMs d + 999) ÷ 1000)))))
      else (q, inr d)
  end.

Definition queuedWithTTL (c : Coordinator) (t : model.Ticket) (token : string) (idleTTL : Z) : queuedBody :=
  mkQueued (Room (binding c)) 3000 (Z.max 1 (Z.min 300000 (idleTTL ÷ 2))) None None
    (i64 (model.JoinedAt t + idleTTL)) (base (binding c) +:+ "/status")
    (if negb (String.eqb token "") then Some token else None) None.
Definition queued (c : Coordinator) (t : model.Ticket) (token : string) : queuedBody :=
  queuedWithTTL c t token (model.IdleTTL (config c)).

Definition join_aad (key target : string) : string := Hash key +:+ ":" +:+ Hash target.
Definition bound_join_aad (c : Coordinator) (aad : string) : string :=
  Room (binding c) +:+ ":" +:+ FormatUint (Epoch (binding c)) +:+ ":" +:+ aad.

(** The sealed token of a join and its opening. *)
Definition seal_token (c : Coordinator) (token aad nonce : string) : option string :=
  match Keys (binding c) with
  | Some ks => match keyring.Seal (keyring.Current ks) "replay" token (bound_join_aad c aad) nonce with
               | Ok s => Some s | Err _ => None end
  | None => Some (base64.EncodeToString (nonce +:+ gcm_seal (replay c) nonce token aad))
  end.
Definition open_token (c : Coordinator) (sealed aad : string) : option string :=
  match Keys (binding c) with
  | Some ks => match keyring.Open ks "replay" sealed (bound_join_aad c aad) aad with Ok p => Some p | Err _ => None end
  | None =>
      match base64.DecodeString sealed with
      | Some data => if Z.of_nat NonceSize <=? len data
                     then gcm_open (replay c) (str_take NonceSize data) (str_drop NonceSize data) aad
                     else None
      | None => None
      end
  end.

(** [join]: [random] are the 32 bytes of the new token, [nonce] of the seal. *)
Definition join (c : Coordinator) (r : Request) (random nonce : string) (q : Q) : Q * response :=
  if negb (jsonContentType r) then (q, problem 400 "INVALID_REQUEST") else
  let key := Get r "Idempotency-Key" in
  if negb (one (Values r "Idempotency-Key")) || (len key <? 16) || (128 <? len key)
  then (q, problem 400 "INVALID_REQUEST") else
  match joinTargetFor r (ValidTarget (binding c)) with
  | None => (q, problem 400 "INVALID_REQUEST")
  | Some target =>
      match checkPublic c r "join" (Hash key) q with
      | (q, inl p) => (q, p)
      | (q, inr _) =>
          let token := base64.EncodeToString random in
          let aad := join_aad key target in
          match seal_token c token aad nonce with
          | None => (q, problem 503 "QUEUE_UNAVAILABLE")
          | Some sealed =>
              match queue_Join key target (Hash token) sealed q with
              | (q, Err e) => (q, queueError e)
              | (q, Ok res) =>
                  match open_token c (rReplay res) aad, rTicket res with
                  | Some plain, Some t =>
                      if negb (String.eqb (Hash plain) (model.ID t)) then (q, problem 503 "QUEUE_UNAVAILABLE") else
                      let q := if Guarded c then fst (guard_Check (Get r "X-WR-Source") "register" (model.ID t) q) else q in
                      let out := match rJoin res with
                                 | Some j => queuedWithTTL c (jTicket j) plain (jIdleTTL j)
                                 | None => queued c t plain
                                 end in
                      (q, Queued (model.AbsoluteUntil t) out)
                  | _, _ => (q, problem 503 "QUEUE_UNAVAILABLE")
                  end
              end
          end
      end
  end.

Definition state_text (s : model.State) : string :=
  match s with
  | model.NoState => "" | model.Waiting => "waiting" | model.Ready => "ready"
  | model.AdmittedState => "admitted" | model.Expired => "expired"
  end.

(** The claims of an admission and their signature. *)
Definition issued_at (c : Coordinator) (t : model.Ticket) : Z :=
  if model.PromotedAt t =? 0 then i64 (model.AdmissionUntil t - model.AdmissionTTL (config c)) else model.PromotedAt t.

Definition signing_key (c : Coordinator) (issued : Z) : string * string :=
  match Keys (binding c) with
  | Some ks => let k := keyring.AdmissionAt ks issued in (keyring.AdmissionPrivate k, keyring.AdmissionKid k)
  | None => (private c, Kid (binding c))
  end.

Definition claims_of (c : Coordinator) (t : model.Ticket) : admission.Claims :=
  let issued := issued_at c t in
  admission.mkClaims (snd (signing_key c issued)) (Room (binding c)) (model.Epoch t) (model.JTI t)
    (issued ÷ 1000) (issued ÷ 1000) (model.AdmissionUntil t ÷ 1000) (Audience (binding c)).

Definition issue_admission (c : Coordinator) (t : model.Ticket) : response :=
  match admission.Sign (fst (signing_key c (issued_at c t))) (claims_of c t) with
  | Err _ => problem 503 "QUEUE_UNAVAILABLE"
  | Ok token => AdmittedBody (model.AbsoluteUntil t) (Room (binding c)) token (admission.Expires (claims_of c t))
  end.

(** The body of a status answer. *)
Definition status_body (c : Coordinator) (t : model.Ticket) (p : option Progress) (d : Decision) : response :=
  if bool_decide (model.TState t = model.Waiting) then
    let b := queued c t "" in
    Queued (model.AbsoluteUntil t)
      (mkQueued (qRoom b) (if Guarded c then PollAfterMs d else qPollAfterMs b) (qHeartbeatAfterMs b)
         (match p with Some p => Some (UsersAhead p) | None => None end)
         (match p with Some p => Estimate p | None => None end)
         (model.IdleUntil t) (qStatusUrl b) (qToken b)
         (match p with Some p => Some (String.eqb (pMode p) "HOLD" || String.eqb (pMode p) "OFF") | None => None end))
  else if bool_decide (model.TState t = model.Ready) then
    StateBody (model.AbsoluteUntil t) (state_text (model.TState t)) (Room (binding c))
      (Some (base (binding c) +:+ "/admissions")) (model.ReadyUntil t)
  else
    StateBody (model.AbsoluteUntil t) (state_text (model.TState t)) (Room (binding c)) None (model.AdmissionUntil t).

Inductive ticket_op := OpStatus | OpClaim | OpHeartbeat.
Definition op_name (o : ticket_op) : string :=
  match o with OpStatus => "status" | OpClaim => "claim" | OpHeartbeat => "heartbeat" end.

(** The credential of a ticket request: the identifier of its ticket. *)
Definition bearer (r : Request) : sum response string :=
  if negb (String.eqb (Get r "Cookie") "") then inl (problem 400 "INVALID_REQUEST") else
  if (1 <? Z.of_nat (List.length (Values r "Authorization"))) then inl (problem 400 "INVALID_REQUEST") else
  match Fields (Get r "Authorization") with
  | [scheme; token] =>
      if negb (String.eqb scheme "Bearer") then inl (problem 401 "UNAUTHENTICATED") else
      match base64.DecodeString token with
      | Some decoded => if negb (len decoded =? 32) then inl (problem 401 "UNAUTHENTICATED") else inr (Hash token)
      | None => inl (problem 401 "UNAUTHENTICATED")
      end
  | _ => inl (problem 401 "UNAUTHENTICATED")
  end.

Definition ticket (c : Coordinator) (o : ticket_op) (r : Request) (q : Q) : Q * response :=
  match bearer r with
  | inl p => (q, p)
  | inr id =>
      match checkPublic c r (op_name o) id q with
      | (q, inl p) => (q, p)
      | (q, inr d) =>
          match o with
          | OpStatus =>
              match queue_Status id q with
              | (q, Err e) => (q, queueError e)
              | (q, Ok (res, p)) => (q, match rTicket res with Some t => status_body c t p d | None => Panic end)
              end
          | OpHeartbeat =>
              match queue_Heartbeat id q with
              | (q, Err e) => (q, queueError e)
              | (q, Ok _) => (q, NoContent)
              end
          | OpClaim =>
              match queue_Claim id q with
              | (q, Err e) => (q, queueError e)
              | (q, Ok res) => (q, match rTicket res with Some t => issue_admission c t | None => Panic end)
              end
          end
      end
  end.

(** [Handler]: the service credential, the routes and their methods. *)
Definition route (c : Coordinator) (path : string) : option (string * option ticket_op) :=
  if String.eqb path "/_wr/v1/tickets" then Some ("POST", None)
  else if String.eqb path (base (binding c) +:+ "/status") then Some ("GET", Some OpStatus)
  else if String.eqb path (base (binding c) +:+ "/admissions") then Some ("POST", Some OpClaim)
  else if String.eqb path (base (binding c) +:+ "/heartbeat") then Some ("POST", Some OpHeartbeat)
  else None.

Definition Handler (c : Coordinator) (r : Request) (random nonce : string) (q : Q) : Q * response :=
  if negb (one (Values r "X-WR-Service")) || negb (String.eqb (Get r "X-WR-Service") (ServiceKey c))
  then (q, problem 401 "UNAUTHENTICATED") else
  match route c (Path r) with
  | None => (q, problem 404 "NOT_FOUND")
  | Some (method, o) =>
      if negb (String.eqb (Method r) method) then (q, NotAllowed method) else
      match o with None => join c r random nonce q | Some o => ticket c o r q end
  end.
End coordinator.

(** ** Joins are replayed exactly *)

(** What the queue keeps of a join under its idempotency key. *)
Record memo := mkMemo { mReplay : string; mJoin : option JoinSnapshot; mID : string; mAbsolute : Z; mJoined : Z }.

Definition agrees (x : memo) (res : Result) : Prop :=
  rReplay res = mReplay x /\ rJoin res = mJoin x /\
  exists t, rTicket res = Some t /\ model.ID t = mID x /\ model.AbsoluteUntil t = mAbsolute x /\ model.JoinedAt t = mJoined x.

(** The contract of an idempotent join: a successful join leaves a record; while
    the record is there, a join under the same key and target answers from it. *)
Class QueueLaws (Q : Type) `{Queue Q} := {
  remembers : Q -> string -> string -> memo -> Prop;
  join_remembers : forall q k f h r q' res, queue_Join k f h r q = (q', Ok res) -> exists x, remembers q' k f x /\ agrees x res;
  join_replays : forall q k f h r q' res x, remembers q k f x -> queue_Join k f h r q = (q', Ok res) -> agrees x res;
  join_fresh : forall q k f h r q' res, (forall f' x, ~ remembers q k f' x) -> queue_Join k f h r q = (q', Ok res) ->
    rReplay res = r /\ exists t, rTicket res = Some t /\ model.ID t = h;
  check_remembers : forall q s o i k f x, remembers (fst (guard_Check s o i q)) k f x <-> remembers q k f x
}.

Section join_properties.
Context {Q : Type} `{!Queue Q} `{!QueueLaws Q}.
Context `{Sha256} `{AEAD}.
Context (ParseMediaType : string -> option (string * list (string * string)))
        (json_object : string -> option (list (string * option string))).

#[local] Abbreviation do_join := (join ParseMediaType json_object).

Lemma checkPublic_remembers c r op id (q q' : Q) d k f x :
  checkPublic c r op id q = (q', d) -> remembers q' k f x <-> remembers q k f x.
Proof.
  unfold checkPublic. case_if as E1; [by intros [= <- _]|]. case_if as E2; [by intros [= <- _]|].
  pose proof (check_remembers q (Get r "X-WR-Source") op id k f x) as Hc.
  destruct (guard_Check _ op id q) as [q1 [dec|]]; simpl in Hc; [case_if as E3|]; intros Eq; by simplify_eq.
Qed.

(** A queued answer to a join, taken apart. *)
Lemma join_inv c r rnd nonce (q q' : Q) a b :
  do_join c r rnd nonce q = (q', Queued a b) ->
  exists target q0 q1 d sealed res plain t,
    joinTargetFor json_object r (ValidTarget (binding c)) = Some target /\
    checkPublic c r "join" (Hash (Get r "Idempotency-Key")) q = (q0, inr d) /\
    seal_token c (base64.EncodeToString rnd) (join_aad (Get r "Idempotency-Key") target) nonce = Some sealed /\
    queue_Join (Get r "Idempotency-Key") target (Hash (base64.EncodeToString rnd)) sealed q0 = (q1, Ok res) /\
    open_token c (rReplay res) (join_aad (Get r "Idempotency-Key") target) = Some plain /\
    rTicket res = Some t /\ Hash plain = model.ID t /\ a = model.AbsoluteUntil t /\
    b = match rJoin res with Some j => queuedWithTTL c (jTicket j) plain (jIdleTTL j) | None => queued c t plain end /\
    q' = (if Guarded c then fst (guard_Check (Get r "X-WR-Source") "register" (model.ID t) q1) else q1).
Proof.
  unfold join. case_if as E1; [done|]. cbv zeta. case_if as E2; [done|].
  destruct (joinTargetFor json_object r (ValidTarget (binding c))) as [target|]; [|done].
  destruct (checkPublic c r "join" _ q) as [q0 [p|d]] eqn:Ec.
  { intros [= _ ->]. exfalso. unfold checkPublic in Ec. repeat (case_match; simplify_eq). }
  destruct (seal_token c _ _ nonce) as [sealed|] eqn:Es; [|done].
  destruct (queue_Join _ target _ sealed q0) as [q1 [res|e]] eqn:Ej.
  2: { intros [= _ He]. exfalso. unfold queueError in He. repeat (case_match; simplify_eq). }
  destruct (open_token c (rReplay res) _) as [plain|] eqn:Eo; [|done].
  destruct (rTicket res) as [t|] eqn:Et; [|done].
  destruct (String.eqb_spec (Hash plain) (model.ID t)) as [Eh|]; [|done]. simpl.
  intros [= <- <- <-]. exists target, q0, q1, d, sealed, res, plain, t. split_and!; done.
Qed.

Lemma queued_memo c t t' plain : model.JoinedAt t = model.JoinedAt t' -> queued c t plain = queued c t' plain.
Proof. intros E. unfold queued, queuedWithTTL. by rewrite E. Qed.

Lemma id_length (k : keyring.Key) `{Ed25519} role : keyring.key_ok role k = true -> len (keyring.ID k) <= 32.
Proof.
  unfold keyring.key_ok, keyring.idPattern. intros Hk.
  repeat match goal with E : (_ && _)%bool = true |- _ => apply andb_true_iff in E as [? ?] end.
  match goal with E : (String.eqb _ _ || _)%bool = true |- _ => apply orb_true_iff in E as [E|E] end; to_prop.
  - match goal with E : keyring.ID k = _ |- _ => rewrite E end. vm_compute. congruence.
  - lia.
Qed.

(** The key set of a coordinator is valid for its role. *)
Definition keys_valid `{Ed25519} (c : Coordinator) : Prop :=
  match Keys (binding c) with Some ks => keyring.Validate ks "coordinator" = Ok tt | None => True end.

(** The token a coordinator seals is the token it opens. *)
Lemma open_seal_token `{Ed25519} `{!AEADLaws} c rnd aad nonce sealed :
  keys_valid c -> String.length rnd = 32%nat -> String.length nonce = NonceSize ->
  seal_token c (base64.EncodeToString rnd) aad nonce = Some sealed ->
  open_token c sealed aad = Some (base64.EncodeToString rnd).
Proof.
  unfold keys_valid, seal_token, open_token. intros Hv Hr Hn. destruct (Keys (binding c)) as [ks|].
  - destruct (keyring.Seal _ _ _ _ _) as [s|] eqn:Es; [|done]. intros [= ->].
    assert (keyring.Current ks ∈ keyring.Keys ks) as Hin by (unfold keyring.Keys; left).
    rewrite (keyring.Open_Seal ks "coordinator" (keyring.Current ks) "replay" _ _ aad nonce sealed Hv Hin Es Hn); [done|].
    apply keyring.Validate_ok in Hv as (_ & Hks & _ & _).
    pose proof (id_length _ _ (keyring.keys_ok_key _ _ _ _ Hks Hin)) as Hid.
    unfold keyring.Seal in Es. destruct (keyring.secret_for _ _) as [key|]; [|done].
    destruct (aes_key key); [|done]. injection Es as <-. unfold len in *. rewrite !str_length_app.
    pose proof (base64.encode_length true (nonce +:+ gcm_seal key nonce (base64.EncodeToString rnd)
      (keyring.bound_aad "replay" (keyring.ID (keyring.Current ks)) (bound_join_aad c aad)))) as El.
    pose proof (base64.encode_length true rnd) as Er. unfold len in El, Er.
    rewrite str_length_app, gcm_length, Hn in El. rewrite Hr in Er. unfold base64.EncodeToString in *.
    change ((4 * Z.of_nat 32 + 2) / 3) with 43 in Er. rewrite !Nat2Z.inj_add, El, !Nat2Z.inj_add, Er. vm_compute (Z.of_nat NonceSize).
    vm_compute (Z.of_nat Overhead). vm_compute (Z.of_nat (String.length ".")). change ((4 * (12 + (43 + 16)) + 2) / 3) with 95. lia.
  - intros [= <-]. rewrite base64.Decode_Encode. unfold len. rewrite str_length_app, Hn.
    rewrite (proj2 (Z.leb_le _ _)) by lia. rewrite <- Hn. by rewrite str_take_app, str_drop_app, gcm_roundtrip.
Qed.

Lemma queued_token c res t plain :
  qToken (match rJoin res with Some j => queuedWithTTL c (jTicket j) plain (jIdleTTL j) | None => queued c t plain end)
    = if negb (String.eqb plain "") then Some plain else None.
Proof. by destruct (rJoin res). Qed.

(** A join is replayed exactly. When a join answers that the visitor is
    queued, the answer carries a token that hashes to the ticket's identifier,
    and the queue keeps a record such that, as long as it is kept, every later
    join with the same idempotency key and target that is answered as queued,
    whatever random token and nonce it drew, gets the same token, the same
    deadlines and the same body; and the first join of a key gets the token it
    drew. *)
Lemma join_replayed_exactly `{Ed25519} `{!AEADLaws} (c : Coordinator) (r : Request) (rnd nonce : string) (q q' : Q) (a : Z) (b : queuedBody)
    (Hkeys : keys_valid c) (Hrandom : String.length rnd = 32%nat /\ String.length nonce = NonceSize)
    (Hjoin : do_join c r rnd nonce q = (q', Queued a b)) :
  exists x target, remembers q' (Get r "Idempotency-Key") target x /\
    joinTargetFor json_object r (ValidTarget (binding c)) = Some target /\
    (exists token, (token <> "" -> qToken b = Some token) /\ Hash token = mID x) /\
    ((forall f y, ~ remembers q (Get r "Idempotency-Key") f y) -> qToken b = Some (base64.EncodeToString rnd)) /\
    forall r2 rnd2 nonce2 q2 q3 a2 b2,
      Get r2 "Idempotency-Key" = Get r "Idempotency-Key" ->
      joinTargetFor json_object r2 (ValidTarget (binding c)) = Some target ->
      remembers q2 (Get r "Idempotency-Key") target x ->
      do_join c r2 rnd2 nonce2 q2 = (q3, Queued a2 b2) -> a2 = a /\ b2 = b.
Proof.
  destruct (join_inv _ _ _ _ _ _ _ _ Hjoin)
    as (target & q0 & q1 & d & sealed & res & plain & t & Ht & Hc & Hs & Hj & Ho & Hti & Hh & -> & -> & ->).
  destruct (join_remembers _ _ _ _ _ _ _ Hj) as (x & Hx & (Hr & Hjn & t' & Ht' & Hid & Habs & Hjo)). simplify_eq.
  exists x, target. split_and!.
  - case_if as Eg; [|done]. by apply check_remembers.
  - done.
  - exists plain. split; [|congruence]. intros Hne. apply String.eqb_neq in Hne.
    by rewrite queued_token, Hne.
  - intros Hfresh. assert (rReplay res = sealed) as Hrep.
    { eapply join_fresh; [|exact Hj]. intros f y Hy. apply (Hfresh f y).
      by apply (checkPublic_remembers _ _ _ _ _ _ _ _ _ _ Hc). }
    rewrite Hrep, (open_seal_token c rnd _ nonce sealed) in Ho by (done || apply Hrandom). injection Ho as <-.
    rewrite queued_token. destruct (String.eqb_spec (base64.EncodeToString rnd) "") as [E|]; [|done].
    pose proof (base64.encode_length true rnd) as El. unfold base64.EncodeToString in E. rewrite E in El.
    unfold len in El. destruct Hrandom as [Hr32 _]. rewrite Hr32 in El. done.
  - intros r2 rnd2 nonce2 q2 q3 a2 b2 Ek Ht2 Hx2 Hjoin2.
    destruct (join_inv _ _ _ _ _ _ _ _ Hjoin2)
      as (target2 & q02 & q12 & d2 & sealed2 & res2 & plain2 & t2 & Htt & Hc2 & Hs2 & Hj2 & Ho2 & Hti2 & Hh2 & -> & -> & ->).
    rewrite Ek in *. rewrite Ht2 in Htt. injection Htt as <-.
    apply (checkPublic_remembers _ _ _ _ _ _ _ _ _ _ Hc2) in Hx2.
    destruct (join_replays _ _ _ _ _ _ _ _ Hx2 Hj2) as (Hr2 & Hjn2 & t2' & Ht2' & Hid2 & Habs2 & Hjo2).
    rewrite Ht2' in Hti2. injection Hti2 as <-. rewrite Hr2, <- Hr, Ho in Ho2. injection Ho2 as <-.
    split; [congruence|]. rewrite Hjn2, Hjn. destruct (mJoin x); [done|]. apply queued_memo. congruence.
Qed.
End join_properties.

(** ** A queue that keeps its joins *)

Definition wit_queue : Type := gmap string (string * (string * string)).

Definition wit_ticket (h : string) : model.Ticket := model.mkTicket h 1 model.Waiting 1 5000 605000 86405000 0 0 "" 0.
Definition wit_result (h r : string) : Result :=
  mkResult None (Some (mkJoin (wit_ticket h) 600000)) 5000 (Some (wit_ticket h)) [] r None None.
Definition wit_memo (h r : string) : memo := mkMemo r (Some (mkJoin (wit_ticket h) 600000)) h 86405000 5000.

Definition wit_ops : Queue wit_queue := {|
  queue_Join k f h r q :=
    match q !! k with
    | Some (f0, (h0, r0)) => if String.eqb f f0 then (q, Ok (wit_result h0 r0)) else (q, Err (EModel model.ErrConflict))
    | None => (<[k := (f, (h, r))]> q, Ok (wit_result h r))
    end;
  queue_Status id q := (q, Err (EModel model.ErrExpired));
  queue_Claim id q := (q, Err (EModel model.ErrExpired));
  queue_Heartbeat id q := (q, Err (EModel model.ErrExpired));
  guard_Check s o i q := (q, Some (mkDecision true 1 0 3000))
|}.

Lemma wit_agrees h r : agrees (wit_memo h r) (wit_result h r).
Proof. split_and!; [done | done |]. by exists (wit_ticket h). Qed.

Definition wit_laws : @QueueLaws wit_queue wit_ops.
Proof.
  refine (@Build_QueueLaws wit_queue wit_ops
    (fun q k f x => exists h r, q !! k = Some (f, (h, r)) /\ x = wit_memo h r) _ _ _ _); simpl.
  - intros q k f h r q' res. destruct (q !! k) as [[f0 [h0 r0]]|] eqn:E.
    + destruct (String.eqb_spec f f0) as [->|]; intros [= <- <-]. exists (wit_memo h0 r0).
      split; [by exists h0, r0 | apply wit_agrees].
    + intros [= <- <-]. exists (wit_memo h r). split; [|apply wit_agrees]. exists h, r. split; [apply lookup_insert_eq | done].
  - intros q k f h r q' res x (h0 & r0 & E & ->). rewrite E, String.eqb_refl. intros [= <- <-]. apply wit_agrees.
  - intros q k f h r q' res Hno. destruct (q !! k) as [[f0 [h0 r0]]|] eqn:E.
    + exfalso. apply (Hno f0 (wit_memo h0 r0)). by exists h0, r0.
    + intros [= <- <-]. split; [done|]. by exists (wit_ticket h).
  - done.
Defined.

Definition wit_media (s : string) : option (string * list (string * string)) := Some (s, []).
Definition wit_json (s : string) : option (list (string * option string)) := Some [("target", Some s)].
Definition wit_binding : Binding :=
  mkBinding None "" "abcdefghijklmnopqrst" "aud" "kid" 1 (fun t => strs.HasPrefix t "/shop").
Definition wit_coordinator : Coordinator :=
  mkCoordinator true model.DefaultConfig "" "service" "0123456789abcdef0123456789abcdef" wit_binding.
Definition wit_header (h : string) : list string :=
  if String.eqb h "Content-Type" then ["application/json"]
  else if String.eqb h "Idempotency-Key" then ["0123456789abcdef"]
  else if String.eqb h "X-WR-Source" then ["source"] else [].
Definition wit_request : Request :=
  mkHttpRequest "POST" "shop.example" true "192.0.2.1:4000" "/_wr/v1/tickets" "" "/_wr/v1/tickets" [] wit_header [] (Some "/shop/1").

Definition wit_do_join (random : string) (q : wit_queue) : wit_queue * response :=
  @join wit_queue wit_ops (fun s => s) keyring.wit_aead wit_media wit_json wit_coordinator wit_request random "abcdefghijkl" q.
Definition wit_first : wit_queue * response := wit_do_join (keyring.wit_seed "r") ∅.
Definition wit_body (x : response) : queuedBody :=
  match x with Queued _ b => b | _ => mkQueued "" 0 0 None None 0 "" None None end.

End lab.
