(* ===== verification/PublicGuard.v ===== *)
(** * The request guard: [src/internal/publicguard/guard.go]

    Module [publicguard] translates the client of the counters that limit
    public requests: installing and verifying their library, opening a guard for
    a room and checking a request. The library itself is Lua; what the server
    answers is an argument, and the client accepts only bounded answers. *)

From S2P Require Import Prelude GoStd Control StoreClient Coordinator.
From stdpp Require Import base list gmap strings pretty.
From Stdlib Require Import ZArith Lia Ascii String.

Module publicguard.
Import lab.
Local Open Scope Z_scope.

(** ** Installing and opening *)

(** What the server answers to [FUNCTION LOAD] (the text of its error), to
    [FUNCTION LIST] (the code of each library, if it is text) and to [FCALL]. *)
Section library.
Variable library : string.
Definition verify (listed : option (list (option string))) : bool :=
  match listed with Some [Some code] => String.eqb code library | _ => false end.
Definition Install (load : option string) (listed : option (list (option string))) : bool :=
  match load with
  | Some e => if negb (valkeystore.Contains e "already exists") then false else verify listed
  | None => verify listed
  end.

Record Guard := mkGuard { lastDiagnostic : Z; inFlight : Z; keys : list string; room : string; epoch : string; cap : string }.
Definition name_char (c : ascii) : bool :=
  control.is_lower c || control.in_range 65 90 c || control.is_digit c || control.in_range 95 95 c || control.in_range 45 45 c.
Definition namespacePattern (s : string) : bool :=
  existsb (fun prefix => strs.HasPrefix s prefix &&
    (let rest := str_drop (String.length prefix) s in (1 <=? len rest) && (len rest <=? 80) && forallb name_char (list_ascii_of_string rest)))
    ["wr:runtime:"; "wr:lab:"].
(** [connected] is whether the client could be made. *)
Definition Open (namespace room : string) (epoch cap : Z) (connected : bool) (listed : option (list (option string))) : option Guard :=
  if negb (namespacePattern namespace) || negb (control.publicIDPattern room) || (epoch <? 1) || (9007199254740990 <=? epoch) ||
     (negb (cap =? 10000) && negb (cap =? 100000)) then None else
  if negb connected then None else
  if negb (verify listed) then None else
  let prefix := namespace +:+ "{public-guard:1}:" in
  Some (mkGuard 0 0 [prefix +:+ "records"; prefix +:+ "expiry"; prefix +:+ "meta"] room (pretty epoch) (pretty cap)).
End library.

(** ** Checking *)

(** The error of a call: its text and whether it is one of the context. *)
Record failure := mkFailure { text : string; DeadlineExceeded : bool; Canceled : bool }.
Record line := mkLine { code : string; operation : string; elapsed_ms : Z; budget_ms : Z; in_flight_at_start : Z }.
Definition known : list (string * string) := [("WR_GUARD_CLOCK", "clock_rollback"); ("WR_GUARD_SCHEMA", "schema")].
Definition diagnosis (err : option failure) : string :=
  match err with
  | None => "response_invalid"
  | Some f =>
      if Canceled f then "cancelled" else if DeadlineExceeded f then "deadline" else
      match List.find (fun k => valkeystore.Contains (text f) (fst k)) known with Some (_, c) => c | None => "unavailable" end
  end.
Definition operations : list string := ["join"; "status"; "claim"; "heartbeat"; "register"].
(** [report] at the second [now]; [swapped] is whether no other request reported
    in between. Durations are nanoseconds. *)
Definition report (g : Guard) (now : Z) (swapped : bool) (err : option failure) (operation : string) (elapsed budget inFlight_ : Z) : Guard * option line :=
  let last := lastDiagnostic g in
  if (negb (last =? 0) && (now - last <? 60)) || negb swapped then (g, None) else
  (mkGuard now (inFlight g) (keys g) (room g) (epoch g) (cap g),
   Some (mkLine (diagnosis err) (if bool_decide (operation ∈ operations) then operation else "unknown") (elapsed ÷ 1000000) (budget ÷ 1000000) inFlight_)).

(** The arguments of the call. *)
Definition arguments (g : Guard) (source op credential : string) : list string := keys g ++ [room g; epoch g; source; op; credential; cap g].
Definition bounded (d : Decision) : bool :=
  negb ((dNow d <=? 0) || (RetryAfterMs d <? 0) || (60000 <? RetryAfterMs d) || (PollAfterMs d <? 3000) || (20000 <? PollAfterMs d)).

Section check.
(** [json.Unmarshal] of an answer. *)
Variable Unmarshal : string -> option Decision.
Definition accepted (raw : result failure string) : option Decision :=
  match raw with
  | Err _ => None
  | Ok s => match Unmarshal s with Some d => if bounded d then Some d else None | None => None end
  end.
(** [Check]; the requests in flight are back where they were at the end. *)
Definition Check (g : Guard) (op : string) (raw : result failure string) (now elapsed budget : Z) (swapped : bool) : Guard * option line * option Decision :=
  match accepted raw with
  | Some d => (g, None, Some d)
  | None =>
      let '(g, l) := report g now swapped (match raw with Err f => Some f | Ok _ => None end) op elapsed budget (inFlight g + 1) in
      (g, l, None)
  end.

(** ** What the coordinator gets *)

Lemma accepted_bounded raw d : accepted raw = Some d -> 0 < dNow d /\ 0 <= RetryAfterMs d <= 60000 /\ 3000 <= PollAfterMs d <= 20000.
Proof.
  unfold accepted. destruct raw as [s|f]; [|done]. destruct (Unmarshal s) as [d'|]; [|done]. case_if as E; [|done]. intros [= <-].
  unfold bounded in E. to_prop. lia.
Qed.
Lemma Check_bounded g op raw now elapsed budget swapped g' l d : Check g op raw now elapsed budget swapped = (g', l, Some d) ->
  0 < dNow d /\ 0 <= RetryAfterMs d <= 60000 /\ 3000 <= PollAfterMs d <= 20000.
Proof.
  unfold Check. destruct (accepted raw) as [d'|] eqn:Ea; [intros [= _ _ <-]; by apply accepted_bounded in Ea|].
  destruct (report _ _ _ _ _ _ _ _). done.
Qed.
(** A refusal by a guard of this kind tells the visitor to come back in one to
    sixty seconds. *)
Lemma refusals_are_bounded {Q} `{Queue Q} (c : Coordinator) (r : Request) op id (q q' : Q) p :
  (forall s o i x x' d, guard_Check s o i x = (x', Some d) -> exists raw, accepted raw = Some d) ->
  checkPublic c r op id q = (q', inl p) ->
  p = problem 400 "INVALID_REQUEST" \/ exists status code retry, p = Problem status code (Some retry) /\ 1 <= retry <= 60.
Proof.
  intros Hg. unfold checkPublic. case_if as E1; [done|]. case_if as E2; [intros [= _ <-]; by left|].
  destruct (guard_Check _ _ _ q) as [q1 [d|]] eqn:Ec.
  - case_if as Ea; [|done]. intros [= _ <-]. apply Hg in Ec as [raw Hr]. apply accepted_bounded in Hr as (_ & Hr & _).
    right. do 3 eexists. split; [reflexivity|]. assert (0 <= (RetryAfterMs d + 999) ÷ 1000 <= 60); [|lia].
    split; [apply Z.quot_pos; lia|]. rewrite Z.quot_div_nonneg by lia. apply Z.lt_succ_r, Z.div_lt_upper_bound; lia.
  - intros [= _ <-]. right. do 3 eexists. split; [reflexivity|lia].
Qed.
End check.

(** A guard writes at most one line in a minute: one that follows another is at
    least sixty seconds later. *)
Lemma reports_are_spaced g now swapped e op t b n g' l : report g now swapped e op t b n = (g', Some l) ->
  lastDiagnostic g' = now /\ (lastDiagnostic g <> 0 -> 60 <= now - lastDiagnostic g) /\ operation l ∈ "unknown"%string :: operations.
Proof.
  unfold report. case_if as E; [done|]. intros [= <- <-]. apply orb_false_iff in E as [E _]. cbn. split; [done|]. split.
  - intros Hn. apply andb_false_iff in E as [E|E]; [|lia]. apply negb_false_iff, Z.eqb_eq in E. done.
  - case_bool_decide; set_solver.
Qed.
End publicguard.
