(* ===== verification/Gateway.v ===== *)
(** * The browser gateway: [src/internal/lab/gateway.go], [browser.go], [browser_join.go]

    Module [gateway] translates the gateway in front of a protected origin: the
    verification of admissions, the sealed return and intent envelopes, the
    browser's join with its retries, the cookie API and the routing of a
    request to the origin, the coordinator or the waiting page. The transport
    to the coordinator is an interface; instants are in nanoseconds. *)

From S2P Require Import Prelude GoStd Admission Keyring Control QueueModel StoreClient Coordinator.
From stdpp Require Import base list gmap strings pretty.
From Stdlib Require Import ZArith Lia Ascii String.

Module gateway.
Import lab.
Local Open Scope Z_scope.

Definition UnixMilli (now : Z) : Z := now / 1000000.
Definition Day : Z := 86400000.

Record returnData := mkReturn { rHost : string; rTicketHash : string; rTarget : string; rIssued : Z; rExpires : Z }.
Record browserIntent := mkIntent {
  iHost : string; iNonce : string; iTarget : string; iPrior : string; iIssued : Z; iExpires : Z
}.

(** The gateway's configuration; [hostCheck] is fixed by its constructor. *)
Record browserGateway := mkGateway {
  service : string; public : string; sealKey : string; gBinding : Binding; secure : bool; sourceKey : string;
  hostCheck : Request -> bool
}.

Record cookie := mkCookie { cName : string; cValue : string; cExpires : Z }.

(** What the gateway does with a request. *)
Inductive outcome :=
  | GProblem (status : Z) (code : string) (page : bool)
  | Redirect (location : string) (cookies : list cookie)
  | Forward (x : response)                   (* the coordinator's answer *)
  | Proxy (r : Request)                      (* the request, to the coordinator *)
  | Origin (r : Request)                     (* the request, to the origin *)
  | PreparePage | WaitPage (d : returnData) | Asset | Done (cookies : list cookie) | Live.

Definition navigation (r : Request) : bool :=
  (String.eqb (Method r) "GET" || String.eqb (Method r) "HEAD") &&
  (String.eqb (Get r "Sec-Fetch-Dest") "document" || valkeystore.Contains (Get r "Accept") "text/html").

Definition gproblem (status : Z) (code : string) : outcome := GProblem status code false.
Definition navigationProblem (r : Request) (status : Z) (code : string) : outcome :=
  GProblem status code (navigation r && ((status =? 429) || (status =? 503))).

(** The last value of the cookie, refused when it is there twice. *)
Definition uniqueCookie (r : Request) (name : string) : option string :=
  match List.filter (fun c => String.eqb (fst c) name) (Cookies r) with
  | [] => Some ""
  | [c] => Some (snd c)
  | _ => None
  end.

Definition cookie_name (b : browserGateway) (kind : string) : string :=
  (if secure b then "__Host-wr" +:+ kind +:+ "_" else "wr_dev_" +:+ kind +:+ "_") +:+ Room (gBinding b).
Definition queueCookie (b : browserGateway) : string := cookie_name b "q".
Definition admissionCookie (b : browserGateway) : string := cookie_name b "a".
Definition returnCookie (b : browserGateway) : string := cookie_name b "r".
Definition intentCookie (b : browserGateway) : string := cookie_name b "i".
Definition waitPath (b : browserGateway) : string := "/_wr/wait/" +:+ Room (gBinding b).
Definition scheme (b : browserGateway) : string := if secure b then "https" else "http".

(** [strip] and [stripCookies]: what the origin must not see. *)
Definition stripped (header : string) : bool :=
  let l := ToLower header in
  strs.HasPrefix l "x-wr-" || strs.HasPrefix l "x-waiting-room-" || strs.HasPrefix l "x-forwarded-" || String.eqb l "forwarded".
Definition strip (r : Request) : Request :=
  mkHttpRequest (Method r) (Host r) (HasTLS r) (RemoteAddr r) (Path r) (RawQuery r) (RequestURI r) (QueryReturn r)
    (fun h => if stripped h then [] else Values r h) (Cookies r) (Body r).
Definition own_cookie (name : string) : bool := strs.HasPrefix name "__Host-wr" || strs.HasPrefix name "wr_dev_".
Definition stripCookies (r : Request) : Request :=
  mkHttpRequest (Method r) (Host r) (HasTLS r) (RemoteAddr r) (Path r) (RawQuery r) (RequestURI r) (QueryReturn r)
    (Values r) (List.filter (fun c => negb (own_cookie (fst c))) (Cookies r)) (Body r).

Section browser.
Context `{Codec admission.Claims} `{Codec returnData} `{Codec browserIntent} `{Ed25519} `{Sha256} `{AEAD} `{HmacSha256}.
(** The transport peer as a source: the address, or its /64 for IPv6 ([net/netip]). *)
Context (source_of : string -> option string).
(** The body of a prepare request: target, confirm, restart ([encoding/json]). *)
Context (json_prepare : string -> option (string * bool * bool)).
Context (QueryEscape : string -> string).

Definition verifyAdmission (b : browserGateway) (token : string) (now : Z) : result admission.error admission.Claims :=
  let check pub kid := admission.Verify pub token kid (Room (gBinding b)) (Audience (gBinding b)) (Epoch (gBinding b)) now
                         (30 * admission.Second) in
  match Keys (gBinding b) with
  | Some ks =>
      fold_right (fun k rest => match check (keyring.AdmissionPublic k) (keyring.AdmissionKid k) with
                                | Ok c => Ok c | Err _ => rest end)
        (Err admission.ErrInvalid) (keyring.Keys ks)
  | None => check (public b) (Kid (gBinding b))
  end.

Definition sourceFingerprint (b : browserGateway) (r : Request) (now : Z) : string :=
  match source_of (RemoteAddr r) with
  | None => ""
  | Some source =>
      hex_EncodeToString (hmac_sha256 (sourceKey b)
        ("waiting-room/source/v1/" +:+ valkeystore.FormatUint (admission.Unix now ÷ 900) +:+ "/" +:+ source))
  end.

(** ** Sealed envelopes *)

Definition room_epoch (b : browserGateway) : string :=
  Room (gBinding b) +:+ ":" +:+ valkeystore.FormatUint (Epoch (gBinding b)).

Definition seal_with (b : browserGateway) (purpose plain aad legacy nonce : string) : option string :=
  match Keys (gBinding b) with
  | Some ks => match keyring.Seal (keyring.Current ks) purpose plain aad nonce with Ok s => Some s | Err _ => None end
  | None => Some (base64.EncodeToString (nonce +:+ gcm_seal (sealKey b) nonce plain legacy))
  end.

Definition sealReturn (b : browserGateway) (d : returnData) (nonce : string) : option string :=
  seal_with b "return" (marshal d) (room_epoch b) ("wr-return/v1/" +:+ Kid (gBinding b) +:+ "/" +:+ Room (gBinding b)) nonce.

Definition open_plain (b : browserGateway) (sealed legacy : string) (min : nat) : option string :=
  match base64.DecodeString sealed with
  | Some data => if len data <? Z.of_nat min then None
                 else gcm_open (sealKey b) (str_take NonceSize data) (str_drop NonceSize data) legacy
  | None => None
  end.

(** The final test of [openReturn]. *)
Definition return_ok (b : browserGateway) (d : returnData) (host ticket : string) (now : Z) : bool :=
  negb (negb (String.eqb (rHost d) host) || negb (String.eqb (rTicketHash d) (Hash ticket)) ||
        negb (ValidTarget (gBinding b) (rTarget d)) || (UnixMilli now <? rIssued d) || (rExpires d <=? UnixMilli now) ||
        (rExpires d <=? rIssued d) || (Day <? i64 (rExpires d - rIssued d))).

Definition openReturn (b : browserGateway) (sealed host ticket : string) (now : Z) : option returnData :=
  if 4096 <? len sealed then None else
  let plain := match Keys (gBinding b) with
               | Some ks => match keyring.Open ks "return" sealed (room_epoch b)
                                    ("wr-return/v1/admission-v1/" +:+ Room (gBinding b)) with
                            | Ok p => Some p | Err _ => None end
               | None => open_plain b sealed
                           ("wr-return/v1/" +:+ Kid (gBinding b) +:+ "/" +:+ Room (gBinding b)) NonceSize
               end in
  match plain with
  | None => None
  | Some p =>
      match decode_strict (A := returnData) p with
      | None => None
      | Some d => if return_ok b d host ticket now then Some d else None
      end
  end.

Definition intentAAD (b : browserGateway) : string :=
  "wr-browser-join/v1/" +:+ Room (gBinding b) +:+ "/" +:+ valkeystore.FormatUint (Epoch (gBinding b)).

Definition sealIntent (b : browserGateway) (d : browserIntent) (nonce : string) : option string :=
  seal_with b "browser-join" (marshal d) (intentAAD b) (intentAAD b) nonce.

Definition intent_ok (b : browserGateway) (d : browserIntent) (host : string) (now : Z) : bool :=
  negb (negb (String.eqb (iHost d) host) || negb (len (iNonce d) =? 43) || negb (ValidTarget (gBinding b) (iTarget d)) ||
        (UnixMilli now <? iIssued d) || (iExpires d <=? UnixMilli now) || negb (i64 (iExpires d - iIssued d) =? 600000)).

Definition intent (b : browserGateway) (r : Request) (now : Z) : option browserIntent :=
  match uniqueCookie r (intentCookie b) with
  | None => None
  | Some sealed =>
      if (len sealed =? 0) || (4096 <? len sealed) then None else
      let plain := match Keys (gBinding b) with
                   | Some ks => match keyring.Open ks "browser-join" sealed (intentAAD b) (intentAAD b) with
                                | Ok p => Some p | Err _ => None end
                   | None => open_plain b sealed (intentAAD b) (NonceSize + Overhead)
                   end in
      match plain with
      | None => None
      | Some p =>
          match decode_strict (A := browserIntent) p with
          | None => None
          | Some d => if intent_ok b d (Host r) now then Some d else None
          end
      end
  end.

(** ** Calls to the coordinator *)

(** The transport: [None] is a failed or unusable exchange. *)
Context {W : Type} (send : Request -> W -> W * option response).
(** The JSON object of a join body. *)
Context (json_target : string -> string).

Definition header_of (hs : list (string * string)) (h : string) : list string :=
  snd <$> List.filter (fun kv => String.eqb (fst kv) h) hs.

(** [callKeyed]: the request it builds; [payload] is the body with its key. *)
Definition internal_request (b : browserGateway) (r : Request) (method path ticket : string)
    (payload : option (string * string)) (now : Z) : Request :=
  mkHttpRequest method "" true "" path "" path []
    (header_of ([("X-WR-Service", service b); ("X-WR-Room", Room (gBinding b));
                 ("X-WR-Source", sourceFingerprint b r now)] ++
                (if negb (String.eqb ticket "") then [("Authorization", "Bearer " +:+ ticket)] else []) ++
                match payload with
                | Some (_, key) => [("Content-Type", "application/json"); ("Idempotency-Key", key)]
                | None => []
                end))
    [] (Some (from_option fst "" payload)).

Definition status_of (x : response) : Z :=
  match x with
  | Problem status _ _ => status | NotAllowed _ => 405 | Queued _ _ => 202
  | AdmittedBody _ _ _ _ | StateBody _ _ _ _ _ => 200 | NoContent => 204 | Panic => 500
  end.
(** [strconv.ParseInt] of the header [X-WR-Absolute-Expires]. *)
Definition absolute_of (x : response) : option Z :=
  match x with
  | Queued z _ | AdmittedBody z _ _ _ | StateBody z _ _ _ _ => Some z
  | _ => None
  end.
(** The [ticketToken] of a body. *)
Definition token_of (x : response) : string :=
  match x with Queued _ body => default "" (qToken body) | _ => "" end.

Definition forwardNavigationResult (r : Request) (x : response) : outcome :=
  match x with
  | Problem status code _ =>
      if navigation r && ((status =? 429) || (status =? 503)) then GProblem status code true else Forward x
  | _ => Forward x
  end.

(** ** The browser join *)

Definition redirectWaiting (b : browserGateway) (r : Request) (ticket : string) (expires : Z) (setTicket : bool)
    (now : Z) (nonce : string) : outcome :=
  let issued := UnixMilli now in
  let returnExpires := Z.min expires (i64 (issued + Day)) in
  match sealReturn b (mkReturn (Host r) (Hash ticket) (RequestURI r) issued returnExpires) nonce with
  | None => navigationProblem r 503 "QUEUE_UNAVAILABLE"
  | Some sealed =>
      Redirect (waitPath b +:+ "?return=" +:+ sealed)
        ((if setTicket then [mkCookie (queueCookie b) ticket expires] else []) ++
         [mkCookie (returnCookie b) sealed returnExpires])
  end.

(** The end of [join]: the ticket is known and the coordinator answered. *)
Definition finish_join (b : browserGateway) (r : Request) (ticket : string) (x : response) (now : Z) (nonce : string) : outcome :=
  match absolute_of x with
  | None => navigationProblem r 503 "QUEUE_UNAVAILABLE"
  | Some expires =>
      if expires <=? UnixMilli now then navigationProblem r 503 "QUEUE_UNAVAILABLE"
      else redirectWaiting b r ticket expires true now nonce
  end.

(** The allocation of a ticket, under the intent's idempotency key. *)
Definition allocate (b : browserGateway) (r : Request) (prior : string) (it : option browserIntent) (now : Z)
    (nonce : string) (w : W) : W * outcome :=
  match it with
  | None => (w, PreparePage)
  | Some i =>
      if negb (String.eqb (iPrior i) prior) then (w, PreparePage) else
      match send (internal_request b r "POST" "/_wr/v1/tickets" "" (Some (json_target (iTarget i), iNonce i)) now) w with
      | (w, None) => (w, navigationProblem r 503 "QUEUE_UNAVAILABLE")
      | (w, Some x) =>
          if negb (status_of x =? 202) then (w, forwardNavigationResult r x) else
          if String.eqb (token_of x) "" then (w, navigationProblem r 503 "QUEUE_UNAVAILABLE")
          else (w, finish_join b r (token_of x) x now nonce)
      end
  end.

(** [join]; every clock reading of the call is [now]. *)
Definition join (b : browserGateway) (r : Request) (now : Z) (nonce : string) (w : W) : W * outcome :=
  if negb (hostCheck b r) then (w, gproblem 400 "INVALID_REQUEST") else
  match uniqueCookie r (queueCookie b) with
  | None => (w, gproblem 400 "INVALID_REQUEST")
  | Some ticket =>
      let it := intent b r now in
      let prior := Hash ticket in
      if String.eqb ticket "" then allocate b r prior it now nonce w else
      match uniqueCookie r (returnCookie b) with
      | None => (w, gproblem 400 "INVALID_REQUEST")
      | Some sealed =>
          let fresh := match it with Some i => String.eqb (iPrior i) prior | None => false end in
          match openReturn b sealed (Host r) ticket now, fresh with
          | Some d, false => (w, redirectWaiting b r ticket (rExpires d) false now nonce)
          | _, _ =>
              match send (internal_request b r "GET" (base (gBinding b) +:+ "/status") ticket None now) w with
              | (w, None) => (w, navigationProblem r 503 "QUEUE_UNAVAILABLE")
              | (w, Some x) =>
                  if status_of x =? 410 then allocate b r prior it now nonce w
                  else if negb (status_of x =? 200) && negb (status_of x =? 202) then (w, forwardNavigationResult r x)
                  else (w, finish_join b r ticket x now nonce)
              end
          end
      end
  end.

(** [prepare]: an intent before the first queue mutation. *)
Definition prepare (b : browserGateway) (r : Request) (random : string) (now : Z) (nonce : string) : outcome :=
  if negb (String.eqb (Method r) "POST") then gproblem 405 "INVALID_REQUEST" else
  if negb (hostCheck b r) || negb (one (Values r "Origin")) || negb (one (Values r "Content-Type")) ||
     negb (String.eqb (Get r "Origin") (scheme b +:+ "://" +:+ Host r)) || negb (String.eqb (Get r "Authorization") "") ||
     negb (String.eqb (Get r "Content-Type") "application/json") || negb (String.eqb (RawQuery r) "")
  then gproblem 403 "INVALID_REQUEST" else
  match (match Body r with Some raw => if 4096 <? len raw then None else json_prepare raw | None => None end) with
  | None => gproblem 400 "INVALID_REQUEST"
  | Some (target, confirm, restart) =>
      if negb (ValidTarget (gBinding b) target) then gproblem 400 "INVALID_REQUEST" else
      match uniqueCookie r (queueCookie b) with
      | None => gproblem 400 "INVALID_REQUEST"
      | Some q =>
          let resumes := negb restart && negb (String.eqb q "") &&
            match uniqueCookie r (returnCookie b) with
            | Some sealed => match openReturn b sealed (Host r) q now with Some _ => true | None => false end
            | None => false
            end in
          if resumes then Done [] else
          if match intent b r now with Some i => String.eqb (iPrior i) (Hash q) | None => false end then Done [] else
          if confirm then gproblem 428 "BROWSER_STORAGE_REQUIRED" else
          let i := mkIntent (Host r) (base64.EncodeToString random) target (Hash q) (UnixMilli now)
                     (i64 (UnixMilli now + 600000)) in
          match sealIntent b i nonce with
          | None => gproblem 503 "QUEUE_UNAVAILABLE"
          | Some sealed => Done [mkCookie (intentCookie b) sealed (iExpires i)]
          end
      end
  end.

(** [page]: the waiting page of a sealed return. *)
Definition page (b : browserGateway) (r : Request) (now : Z) : outcome :=
  if negb (hostCheck b r) || (negb (String.eqb (Method r) "GET") && negb (String.eqb (Method r) "HEAD"))
  then gproblem 400 "INVALID_REQUEST" else
  match uniqueCookie r (queueCookie b), QueryReturn r with
  | Some ticket, [sealed] =>
      if String.eqb ticket "" || negb (String.eqb (Get r "Authorization") "") then gproblem 400 "INVALID_REQUEST" else
      match openReturn b sealed (Host r) ticket now with
      | None => gproblem 400 "INVALID_REQUEST"
      | Some d => WaitPage d
      end
  | _, _ => gproblem 400 "INVALID_REQUEST"
  end.

(** [cookieAPI]: [None] for a pure app request. *)
Definition cookie_method (b : browserGateway) (path : string) : option string :=
  if String.eqb path (base (gBinding b) +:+ "/status") then Some "GET"
  else if String.eqb path (base (gBinding b) +:+ "/admissions") || String.eqb path (base (gBinding b) +:+ "/heartbeat")
  then Some "POST" else None.

(** The target of a state-changing request: its origin and sealed return. *)
Definition check_post (b : browserGateway) (r : Request) (ticket : string) (now : Z) : option (string * string) :=
  if negb (String.eqb (Get r "Origin") (scheme b +:+ "://" +:+ Host r)) then None else
  let sealed := if String.eqb (Path r) (base (gBinding b) +:+ "/admissions")
                then match QueryReturn r with [v] => Some v | _ => None end
                else Some (Get r "X-Waiting-Room-CSRF") in
  match sealed with
  | None => None
  | Some s => match openReturn b s (Host r) ticket now with Some d => Some (rTarget d, s) | None => None end
  end.

Definition cookieAPI (b : browserGateway) (r : Request) (now : Z) (w : W) : W * option outcome :=
  match uniqueCookie r (queueCookie b) with
  | Some "" => (w, None)
  | None => (w, Some (gproblem 400 "INVALID_REQUEST"))
  | Some ticket =>
      if negb (hostCheck b r) || negb (String.eqb (Get r "Authorization") "")
      then (w, Some (gproblem 400 "INVALID_REQUEST")) else
      match cookie_method b (Path r) with
      | None => (w, Some (gproblem 404 "NOT_FOUND"))
      | Some method =>
          if negb (String.eqb (Method r) method) then (w, Some (gproblem 405 "METHOD_NOT_ALLOWED")) else
          match (if String.eqb (Method r) "POST" then check_post b r ticket now else Some ("", "")) with
          | None => (w, Some (gproblem 403 "INVALID_REQUEST"))
          | Some (target, sealed) =>
              match send (internal_request b r (Method r) (Path r) ticket None now) w with
              | (w, None) => (w, Some (gproblem 503 "QUEUE_UNAVAILABLE"))
              | (w, Some x) =>
                  if negb (String.eqb (Path r) (base (gBinding b) +:+ "/admissions")) then (w, Some (Forward x)) else
                  if negb (status_of x =? 200)
                  then (w, Some (Redirect (waitPath b +:+ "?return=" +:+ QueryEscape sealed) [])) else
                  let token := match x with AdmittedBody _ _ t _ => t | _ => "" end in
                  match verifyAdmission b token now with
                  | Err _ => (w, Some (gproblem 503 "QUEUE_UNAVAILABLE"))
                  | Ok claims => (w, Some (Redirect target
                      [mkCookie (admissionCookie b) token (admission.Expires claims * 1000)]))
                  end
              end
          end
      end
  end.

(** ** [gatewayHandler] *)

(** The rewriting of the two reverse proxies. *)
Definition to_origin (r : Request) : Request := stripCookies (strip r).
Definition to_coordinator (b : browserGateway) (r : Request) (now : Z) : Request :=
  let r' := strip r in
  mkHttpRequest (Method r) (Host r) (HasTLS r) (RemoteAddr r) (Path r) (RawQuery r) (RequestURI r) (QueryReturn r)
    (fun h => if String.eqb h "X-WR-Service" then [service b]
              else if String.eqb h "X-WR-Room" then [Room (gBinding b)]
              else if String.eqb h "X-WR-Source" then [sourceFingerprint b r now]
              else if String.eqb h "Cookie" then [] else Values r' h)
    [] (Body r).

(** The presented admission: a header or a cookie, not both. *)
Definition presented (b : browserGateway) (r : Request) : option string :=
  if 1 <? Z.of_nat (List.length (Values r "X-Waiting-Room-Admission")) then None else
  match uniqueCookie r (admissionCookie b) with
  | None => None
  | Some c =>
      let token := Get r "X-Waiting-Room-Admission" in
      if negb (String.eqb c "") && negb (String.eqb token "") then None
      else Some (if negb (String.eqb c "") then c else token)
  end.

Definition gatewayHandler (b : browserGateway) (off : bool) (mode : string) (r : Request) (random : string) (now : Z)
    (nonce : string) (w : W) : W * outcome :=
  if String.eqb (Path r) "/livez" && String.eqb (Method r) "GET" then (w, Live) else
  if String.eqb (Path r) (base (gBinding b) +:+ "/browser-prepare") then (w, prepare b r random now nonce) else
  if strs.HasPrefix (Path r) "/_wr/v1/" then
    match cookieAPI b r now w with
    | (w, Some o) => (w, o)
    | (w, None) => (w, Proxy (to_coordinator b r now))
    end else
  if String.eqb (Path r) (waitPath b) then (w, page b r now) else
  if strs.HasPrefix (Path r) "/_wr/assets/" then (w, Asset) else
  if negb (ValidTarget (gBinding b) (RequestURI r)) then (w, gproblem 404 "NOT_FOUND") else
  if off then (w, Origin (to_origin r)) else
  match presented b r with
  | None => (w, gproblem 400 "INVALID_REQUEST")
  | Some token =>
      match verifyAdmission b token now with
      | Ok _ => (w, Origin (to_origin r))
      | Err _ =>
          let q := default "" (uniqueCookie r (queueCookie b)) in
          if String.eqb mode "DRAINING" && (String.eqb q "" || negb (navigation r))
          then (w, navigationProblem r 503 "QUEUE_DRAINING") else
          if navigation r then join b r now nonce w
          else (w, gproblem 429 "WAITING_ROOM_REQUIRED")
      end
  end.

(** ** Lemmas *)

Definition reaches_origin (o : outcome) : bool := match o with Origin _ => true | _ => false end.

Lemma redirectWaiting_kept b r ticket expires set now nonce :
  reaches_origin (redirectWaiting b r ticket expires set now nonce) = false.
Proof. unfold redirectWaiting. by destruct (sealReturn _ _ _). Qed.

Lemma finish_join_kept b r ticket x now nonce : reaches_origin (finish_join b r ticket x now nonce) = false.
Proof.
  unfold finish_join. destruct (absolute_of x); [|done]. case_if as E; [done|]. apply redirectWaiting_kept.
Qed.

Lemma forward_kept r x : reaches_origin (forwardNavigationResult r x) = false.
Proof. destruct x; simpl; try done. by case_if as E. Qed.

Lemma allocate_kept b r prior it now nonce w : reaches_origin (snd (allocate b r prior it now nonce w)) = false.
Proof.
  unfold allocate. destruct it as [i|]; [|done]. case_if as E1; [done|].
  destruct (send _ w) as [w' [x|]]; [|done]. case_if as E2; [apply forward_kept|]. case_if as E3; [done|].
  apply finish_join_kept.
Qed.

Lemma join_kept b r now nonce w : reaches_origin (snd (join b r now nonce w)) = false.
Proof.
  unfold join. case_if as E1; [done|]. destruct (uniqueCookie r (queueCookie b)) as [ticket|]; [|done].
  case_if as E2; [apply allocate_kept|]. destruct (uniqueCookie r (returnCookie b)) as [sealed|]; [|done].
  set (fresh := match intent b r now with Some _ => _ | None => _ end). clearbody fresh.
  destruct (openReturn b sealed (Host r) ticket now) as [d|]; destruct fresh; simpl; rewrite ?redirectWaiting_kept; try done;
    (destruct (send _ w) as [w' [x|]]; [|done]; case_if as E4; [apply allocate_kept|];
     case_if as E5; [apply forward_kept | apply finish_join_kept]).
Qed.

Lemma cookieAPI_kept b r now w w' o : cookieAPI b r now w = (w', Some o) -> reaches_origin o = false.
Proof.
  unfold cookieAPI. destruct (uniqueCookie r (queueCookie b)) as [[|a ticket]|]; [done| |by intros [= _ <-]].
  case_if as E1; [by intros [= _ <-]|]. destruct (cookie_method b (Path r)); [|by intros [= _ <-]].
  case_if as E2; [by intros [= _ <-]|]. destruct (if _ : bool then _ else _) as [[target sealed]|]; [|by intros [= _ <-]].
  destruct (send _ w) as [w1 [x|]]; [|by intros [= _ <-]]. case_if as E3; [by intros [= _ <-]|].
  case_if as E4; [by intros [= _ <-]|]. destruct (verifyAdmission b _ now); by intros [= _ <-].
Qed.

Lemma prepare_kept b r random now nonce : reaches_origin (prepare b r random now nonce) = false.
Proof. unfold prepare. by repeat case_match. Qed.

Lemma page_kept b r now : reaches_origin (page b r now) = false.
Proof. unfold page. by repeat case_match. Qed.

(** Whatever reaches the origin was let through and is stripped. *)
Lemma gatewayHandler_origin (b : browserGateway) (off : bool) (mode : string) (r r' : Request) (random : string) (now : Z)
    (nonce : string) (w w' : W)
    (Hpass : gatewayHandler b off mode r random now nonce w = (w', Origin r')) :
  (off = true \/ exists token c, presented b r = Some token /\ verifyAdmission b token now = Ok c) /\
  ValidTarget (gBinding b) (RequestURI r) = true /\
  (forall h, stripped h = true -> Values r' h = []) /\
  (forall name value, (name, value) ∈ Cookies r' -> own_cookie name = false) /\ w' = w.
Proof.
  assert (forall y, Origin r' = Origin (to_origin y) -> (forall h, stripped h = true -> Values r' h = []) /\
            (forall name value, (name, value) ∈ Cookies r' -> own_cookie name = false)) as Hstrip.
  { intros y [= ->]. split; simpl; [by intros h ->|]. intros name value Hin.
    apply list_elem_of_In, List.filter_In in Hin as [_ Hin]. simpl in Hin. by apply negb_true_iff in Hin. }
  revert Hpass. unfold gatewayHandler. case_if as E1; [done|]. case_if as E2.
  { intros [= _ Hp]. pose proof (prepare_kept b r random now nonce) as Hk. by rewrite Hp in Hk. }
  case_if as E3.
  { destruct (cookieAPI b r now w) as [w1 [o|]] eqn:Ec; [|done]. intros [= -> ->]. by apply cookieAPI_kept in Ec. }
  case_if as E4. { intros [= _ Hp]. pose proof (page_kept b r now) as Hk. by rewrite Hp in Hk. }
  case_if as E5; [done|]. case_if as E6; [done|]. apply negb_false_iff in E6. case_if as Eo.
  { intros [= <- Hr]. destruct (Hstrip r) as [Hh Hc]; [by rewrite <- Hr|]. split_and!; auto. }
  destruct (presented b r) as [token|] eqn:Ep; [|done]. destruct (verifyAdmission b token now) as [c|e] eqn:Ev.
  - intros [= <- Hr]. destruct (Hstrip r) as [Hh Hc]; [by rewrite <- Hr|]. split_and!; try done. right. by exists token, c.
  - case_if as E7; [done|]. case_if as E8; [|done]. intros Hj. pose proof (join_kept b r now nonce w) as Hk. by rewrite Hj in Hk.
Qed.

(** ** [NewBoundGateway] and its handler *)

Context (url_Parse : string -> option control.URL).
(** [control.LogoBytes]: [None] is its error. *)
Context (LogoBytes : string -> option string).

(** A constructed gateway: the inner handler's settings and the theme files. *)
Record boundGateway := mkBound {
  bBrowser : browserGateway; bOff : bool; bMode : string; bColor : string; bLogo : string
}.

(** [waiting.NewRenderer] knows the templates of its registry. *)
Definition template_known (id : string) : bool := String.eqb id "calm".

(** [newBrowserGatewayWithKey]: the checks of the key and the template. *)
Definition browser_ok (key templateID : string) : bool :=
  (len key =? 32) && negb (String.eqb key (string_of_list_ascii (replicate 32 "000"%char))) && template_known templateID.

(** The coordinator and the origin are plain HTTPS authorities. *)
Definition https_ok (raw : string) : bool :=
  match url_Parse raw with
  | Some u => String.eqb (control.Scheme u) "https" && negb (control.User u) && negb (String.eqb (control.Host u) "")
  | None => false
  end.

Definition runtime_mode (off : bool) (runtimeMode : list string) : option string :=
  match runtimeMode with
  | [] => Some (if off then "OFF" else "HOLD")
  | [m] => if String.eqb m "AUTO" || String.eqb m "HOLD" || String.eqb m "DRAINING" || String.eqb m "OFF" then Some m else None
  | _ => None
  end.

Definition NewBoundGateway (coordinator origin service public : string) (theme : control.Theme) (key : string)
    (bd : Binding) (authority : string) (coordinatorTransport originTransport : bool) (off : bool)
    (runtimeMode : list string) : option boundGateway :=
  if match Keys bd with Some ks => negb (is_ok (keyring.Validate ks "gateway")) | None => false end ||
     negb (binding_ok bd) || negb (https_ok coordinator) || negb (https_ok origin) ||
     negb coordinatorTransport || negb originTransport || String.eqb authority "" || (len service <? 32) ||
     negb (len public =? PublicKeySize)
  then None else
  if negb (control.colorPattern (control.PrimaryColor theme)) then None else
  if negb (browser_ok key (control.TemplateID theme)) then None else
  if (0 <? len (SourceKey bd)) && negb (len (SourceKey bd) =? 32) then None else
  match LogoBytes (control.LogoImage theme), runtime_mode off runtimeMode with
  | Some logo, Some mode =>
      Some (mkBound (mkGateway service public key bd true (if 0 <? len (SourceKey bd) then SourceKey bd else key)
                       (fun r => HasTLS r && String.eqb (Host r) authority))
              off mode (control.PrimaryColor theme) logo)
  | _, _ => None
  end.

(** What the outer handler answers itself, or the inner outcome. *)
Inductive bound_outcome :=
  | Misdirected                              (* 421 *)
  | Refused (allow : string)                 (* 405 *)
  | ThemeFile (contentType : string) (body : option string)
  | Inner (o : outcome).

Definition theme_file (r : Request) (allow contentType body : string) : bound_outcome :=
  if negb (String.eqb (Method r) "GET") && negb (String.eqb (Method r) "HEAD") then Refused allow
  else ThemeFile contentType (if String.eqb (Method r) "GET" then Some body else None).

Definition boundHandler (g : boundGateway) (r : Request) (random : string) (now : Z) (nonce : string) (w : W)
    : W * bound_outcome :=
  let b := bBrowser g in
  let themeURL := "/_wr/theme/" +:+ Room (gBinding b) in
  if negb (hostCheck b r) then (w, Misdirected) else
  if (0 <? len (bLogo g)) && String.eqb (Path r) (themeURL +:+ "/logo.png")
  then (w, theme_file r "GET, HEAD" "image/png" (bLogo g)) else
  if secure b && String.eqb (Path r) (themeURL +:+ ".css")
  then (w, theme_file r "" "text/css; charset=utf-8"
             (":root{--accent:" +:+ bColor g +:+ "}.description{white-space:pre-line}")) else
  let (w, o) := gatewayHandler b (bOff g) (bMode g) r random now nonce w in (w, Inner o).

(** The gateway guards the origin. At a constructed gateway, a request is
    passed on only if it came over TLS to the room's own authority, the URL is
    a valid target, and the room is switched off or the request presents
    exactly one admission, as a header or as a cookie, that verifies now for
    this room, audience and epoch; and what the origin receives carries none
    of the waiting room's credentials: no [X-WR-], [X-Waiting-Room-] or
    forwarding header and none of its cookies. *)
Lemma gateway_guards_origin coordinator origin svc pub theme key bd authority ct ot off modes g
    (r r' : Request) (random : string) (now : Z) (nonce : string) (w w' : W) :
  NewBoundGateway coordinator origin svc pub theme key bd authority ct ot off modes = Some g ->
  boundHandler g r random now nonce w = (w', Inner (Origin r')) ->
  HasTLS r = true /\ Host r = authority /\ ValidTarget bd (RequestURI r) = true /\
  (off = true \/ exists token c, presented (bBrowser g) r = Some token /\ verifyAdmission (bBrowser g) token now = Ok c) /\
  (forall h, stripped h = true -> Values r' h = []) /\
  (forall name value, (name, value) ∈ Cookies r' -> own_cookie name = false) /\ w' = w.
Proof.
  unfold NewBoundGateway. case_if as E1; [done|]. case_if as E2; [done|]. case_if as E3; [done|]. case_if as E4; [done|].
  destruct (LogoBytes (control.LogoImage theme)), (runtime_mode off modes); try done. intros [= <-]. unfold boundHandler.
  cbn [bBrowser bOff bMode bLogo bColor hostCheck secure gBinding].
  destruct (HasTLS r) eqn:Htls; [|done]. destruct (String.eqb_spec (Host r) authority) as [Eh|]; [|done]. cbn [negb andb].
  case_if as E5; [by unfold theme_file; repeat case_match|]. case_if as E6; [by unfold theme_file; repeat case_match|].
  destruct (gatewayHandler _ _ _ _ _ _ _ _) as [w1 o] eqn:Eg. intros [= -> ->].
  destruct (gatewayHandler_origin _ _ _ _ _ _ _ _ _ _ Eg) as (Ho & Hv & Hs & Hc & Hw). by split_and!.
Qed.
End browser.

(** ** What a browser's navigation asks of the coordinator *)

Definition exchange : Type := Request * option response.

(** A transport that records its exchanges. *)
Definition logging {W} (send : Request -> W -> W * option response) (q : Request) (y : W * list exchange)
    : (W * list exchange) * option response :=
  let '(w, x) := send q (fst y) in ((w, snd y ++ [(q, x)]), x).

Definition allocates (q : Request) : bool := String.eqb (Path q) "/_wr/v1/tickets".

Section allocation.
Context `{Codec returnData} `{Codec browserIntent} `{Ed25519} `{Sha256} `{AEAD} `{HmacSha256}.
Context (source_of : string -> option string) {W : Type} (send : Request -> W -> W * option response)
        (json_target : string -> string).

#[local] Abbreviation Y := (W * list exchange)%type.
#[local] Abbreviation do_join := (join source_of (logging send) json_target).
#[local] Abbreviation do_allocate := (allocate source_of (logging send) json_target).

(** The allocation of a ticket under an intent. *)
Definition allocation (b : browserGateway) (r : Request) (ticket : string) (now : Z) (q : Request) : Prop :=
  exists i, intent b r now = Some i /\ iPrior i = Hash ticket /\ Values q "Idempotency-Key" = [iNonce i] /\ allocates q = true.

Lemma allocate_exchanges b r ticket now nonce (y : Y) :
  exists new, snd (fst (do_allocate b r (Hash ticket) (intent b r now) now nonce y)) = snd y ++ new /\
    (new = [] \/ exists q x, new = [(q, x)] /\ allocation b r ticket now q).
Proof.
  assert (exists new, snd y = snd y ++ new /\ (new = [] \/ exists q x, new = [(q, x)] /\ allocation b r ticket now q)) as Hnone
    by (exists []; rewrite app_nil_r; auto).
  unfold allocate. destruct (intent b r now) as [i|] eqn:Ei; [|done]. destruct (String.eqb_spec (iPrior i) (Hash ticket)) as [Ep|]; [|done].
  simpl negb. cbv iota. unfold logging at 1. set (q := internal_request _ _ _ _ _ _ _ _).
  destruct (send q (fst y)) as [w x] eqn:Es.
  assert (allocation b r ticket now q) as Ha by (exists i; split_and!; [done | done | reflexivity | reflexivity]).
  exists [(q, x)]. split; [|right; by exists q, x].
  destruct x as [x|]; [|done]. case_if as E1; [done|]. by case_if as E2.
Qed.

(** The exchanges of a navigation: an allocation comes last, under the intent for
    the present ticket, and after the answer that the ticket has expired. *)
Definition lawful (b : browserGateway) (r : Request) (now : Z) (new : list exchange) : Prop :=
  forall pre q x post, new = pre ++ (q, x) :: post -> allocates q = true ->
    post = [] /\ exists ticket, uniqueCookie r (queueCookie b) = Some ticket /\ allocation b r ticket now q /\
      ((ticket = "" /\ pre = []) \/
       exists q0 x0, pre = [(q0, Some x0)] /\ Path q0 = base (gBinding b) +:+ "/status" /\
         Values q0 "Authorization" = ["Bearer " +:+ ticket] /\ status_of x0 = 410).

Lemma lawful_nil b r now : lawful b r now [].
Proof. intros pre q x post E. by destruct pre. Qed.

Lemma lawful_poll b r now q0 x0 : allocates q0 = false -> lawful b r now [(q0, x0)].
Proof. intros Hq [|p pre] q x post E Ha; [injection E as <- _ _; congruence | by destruct pre]. Qed.

Lemma lawful_first b r now q x :
  uniqueCookie r (queueCookie b) = Some "" -> allocation b r "" now q -> lawful b r now [(q, x)].
Proof.
  intros Hc Ha [|p pre] q' x' post E _; [|by destruct pre]. injection E as <- <- <-. split; [done|].
  exists "". by auto.
Qed.

Lemma lawful_again b r now ticket q0 x0 q x :
  uniqueCookie r (queueCookie b) = Some ticket -> allocates q0 = false -> Path q0 = base (gBinding b) +:+ "/status" ->
  Values q0 "Authorization" = ["Bearer " +:+ ticket] -> status_of x0 = 410 -> allocation b r ticket now q ->
  lawful b r now [(q0, Some x0); (q, x)].
Proof.
  intros Hc Hq0 Hp Hv Hs Ha [|p pre] q' x' post E Hal; [injection E as <- _ _; congruence|]. injection E as <- E.
  destruct pre as [|p' pre]; [|by destruct pre]. injection E as <- <- <-. split; [done|].
  exists ticket. split_and!; [done | done |]. right. by exists q0, x0.
Qed.

(** A poll of the ticket's state, then what its answer allows. *)
Lemma poll_exchanges b r ticket now nonce (y : Y) (rest : Y -> response -> Y * outcome) :
  uniqueCookie r (queueCookie b) = Some ticket -> ticket <> "" ->
  (forall y x, rest y x = if status_of x =? 410 then do_allocate b r (Hash ticket) (intent b r now) now nonce y
                          else if negb (status_of x =? 200) && negb (status_of x =? 202) then (y, forwardNavigationResult r x)
                          else (y, finish_join b r ticket x now nonce)) ->
  exists new, lawful b r now new /\
    snd (fst (match logging send (internal_request source_of b r "GET" (base (gBinding b) +:+ "/status") ticket None now) y with
              | (y, None) => (y, navigationProblem r 503 "QUEUE_UNAVAILABLE")
              | (y, Some x) => rest y x
              end)) = snd y ++ new.
Proof.
  intros Hc Hne Hrest. unfold logging at 1. set (q0 := internal_request _ _ _ _ _ _ _ _).
  destruct (send q0 (fst y)) as [w x0] eqn:Es. assert (allocates q0 = false) as Hq0 by reflexivity.
  assert (Values q0 "Authorization" = ["Bearer " +:+ ticket]) as Hauth
    by (unfold q0, internal_request; apply String.eqb_neq in Hne; rewrite Hne; reflexivity).
  assert (Path q0 = base (gBinding b) +:+ "/status") as Hpath by reflexivity. clearbody q0.
  destruct x0 as [x0|]; [|exists [(q0, None)]; split; [by apply lawful_poll | done]]. rewrite Hrest.
  destruct (Z.eqb_spec (status_of x0) 410) as [E410|_].
  - destruct (allocate_exchanges b r ticket now nonce (w, snd y ++ [(q0, Some x0)])) as (new & En & Hnew).
    exists ((q0, Some x0) :: new). rewrite En. simpl. rewrite <- app_assoc. split; [|done].
    destruct Hnew as [->|(q' & x' & -> & Hal)]; [by apply lawful_poll | by eapply lawful_again].
  - exists [(q0, Some x0)]. split; [by apply lawful_poll | by case_if as E5].
Qed.

(** C36: a browser's navigation never takes a second place in the queue.
    Whatever the coordinator and the network answer, a navigation asks for a
    new ticket at most once, last, under the idempotency key of an intent the
    browser already holds for its present ticket; and with a ticket cookie
    only after the coordinator answered that this very ticket has expired. An
    unknown state never allocates. *)
Theorem browser_join_allocates_safely (b : browserGateway) (r : Request) (now : Z) (nonce : string) (y : Y) :
  exists new, lawful b r now new /\ snd (fst (do_join b r now nonce y)) = snd y ++ new.
Proof.
  assert (exists new, lawful b r now new /\ snd y = snd y ++ new) as Hnone
    by (exists []; split; [apply lawful_nil | by rewrite app_nil_r]).
  unfold join. case_if as E1; [done|]. destruct (uniqueCookie r (queueCookie b)) as [ticket|] eqn:Eq; [|done].
  destruct (String.eqb_spec ticket "") as [->|Hne].
  { destruct (allocate_exchanges b r "" now nonce y) as (new & En & Hnew). exists new. split; [|done].
    destruct Hnew as [->|(q' & x' & -> & Hal)]; [apply lawful_nil | by apply lawful_first]. }
  destruct (uniqueCookie r (returnCookie b)) as [sealed|]; [|done].
  set (fresh := match intent b r now with Some _ => _ | None => _ end). clearbody fresh.
  destruct (openReturn b sealed (Host r) ticket now) as [d|]; destruct fresh; try exact Hnone.
  all: by apply (poll_exchanges b r ticket now nonce y (fun y x =>
    if status_of x =? 410 then do_allocate b r (Hash ticket) (intent b r now) now nonce y
    else if negb (status_of x =? 200) && negb (status_of x =? 202) then (y, forwardNavigationResult r x)
    else (y, finish_join b r ticket x now nonce))).
Qed.
End allocation.

(** ** Sealed returns *)

Section returns.
Context `{Codec returnData} `{Ed25519} `{Sha256} `{AEAD}.

Definition gateway_keys (b : browserGateway) : Prop :=
  match Keys (gBinding b) with Some ks => keyring.Validate ks "gateway" = Ok tt | None => True end.

(** A sealed return is read back by the gateway that sealed it, and by any
    gateway with the same keys and binding: it opens, for the host and ticket
    it names, exactly from its issue until its expiry, and for no other host,
    ticket, target or instant. *)
Lemma sealed_return_opens (carried : returnData -> Prop) `{!CodecLaws returnData carried} `{!AEADLaws}
    (b : browserGateway) (d : returnData) (nonce sealed host ticket : string) (now : Z)
    (Hkeys : gateway_keys b) (Hcarried : carried d) (Hnonce : String.length nonce = NonceSize)
    (Hseal : sealReturn b d nonce = Some sealed) (Hlen : len sealed <= 4096) :
  openReturn b sealed host ticket now = if return_ok b d host ticket now then Some d else None.
Proof.
  unfold openReturn. rewrite (proj2 (Z.ltb_ge _ _) Hlen). unfold sealReturn, seal_with, gateway_keys in *.
  destruct (Keys (gBinding b)) as [ks|].
  - destruct (keyring.Seal _ _ _ _ _) as [x|] eqn:Es; [|done]. injection Hseal as ->.
    assert (keyring.Current ks ∈ keyring.Keys ks) as Hin by (unfold keyring.Keys; left).
    rewrite (keyring.Open_Seal ks "gateway" (keyring.Current ks) "return" _ _ _ nonce sealed Hkeys Hin Es Hnonce) by lia.
    by rewrite (decode_strict_marshal d Hcarried).
  - injection Hseal as <-. unfold open_plain. rewrite base64.Decode_Encode. unfold len. rewrite str_length_app, Hnonce.
    rewrite (proj2 (Z.ltb_ge _ _)) by lia. rewrite <- Hnonce at 1 2. rewrite str_take_app, str_drop_app, gcm_roundtrip.
    by rewrite (decode_strict_marshal d Hcarried).
Qed.
End returns.

(** ** A concrete gateway *)

Definition wit_return : returnData := mkReturn "shop.example" "74" "/shop/1" 1000000 2000000.
Definition wit_return_codec : Codec returnData :=
  Build_Codec returnData (fun _ => "r") (fun s => if String.eqb s "r" then Some (wit_return, "") else None).
Definition wit_intent_codec : Codec browserIntent := Build_Codec browserIntent (fun _ => "i") (fun s => None).

Lemma wit_return_laws : @CodecLaws returnData wit_return_codec (fun d => d = wit_return).
Proof. intros d ->. reflexivity. Qed.

Definition wit_gateway : browserGateway :=
  mkGateway "service" (PublicOf admission.wit_key) "0123456789abcdef0123456789abcdef"
    (mkBinding None "" "room" "aud" "k1" 1 (fun t => strs.HasPrefix t "/shop")) true "" (fun _ => true).

Definition wit_sealed : string :=
  default "" (@sealReturn wit_return_codec keyring.wit_aead wit_gateway wit_return "abcdefghijkl").
Definition wit_open (ticket : string) : option returnData :=
  @openReturn wit_return_codec (fun s => s) keyring.wit_aead wit_gateway wit_sealed "shop.example" ticket (1500 * admission.Second).

(** A constructed gateway. *)
Definition wit_parse (raw : string) : option control.URL :=
  Some (control.mkURL "https" false raw raw "" "" "" "" false "" "").
Definition wit_room : Binding :=
  mkBinding None "" "abcdefghijklmnopqrst" "aud" "k1" 1 (fun t => strs.HasPrefix t "/shop").
Definition wit_new : option boundGateway :=
  @NewBoundGateway admission.wit_ed wit_parse (fun _ => Some "") "coordinator" "origin" "0123456789abcdef0123456789abcdef"
    (PublicOf admission.wit_key) (control.mkTheme "calm" "" "" "#00aaff" "" false "") "0123456789abcdef0123456789abcdef"
    wit_room "shop.example" true true false ["AUTO"].
Definition wit_bound : boundGateway := default (mkBound wit_gateway true "" "" "") wit_new.
End gateway.
