(* ===== verification/EndToEnd.v ===== *)
(** * Coordinator, gateway and queue together

    Theorems across components: an admission the coordinator signs for a
    claimed ticket opens every gateway of the installation, through a key
    rotation too; and the visitors the gateways let through at an instant
    never exceed the room's lease capacity. *)

From S2P Require Import Prelude GoStd Admission Keyring Control Policy QueueModel QueueBase QueueHistory StoreClient QueueProps Coordinator Gateway.
From stdpp Require Import base list gmap strings pretty.
From Stdlib Require Import ZArith Lia Ascii String.
Import lab gateway.
Local Open Scope Z_scope.

(** ** A claimed ticket keeps its admission *)

(** In its epoch a claimed ticket stays admitted until its window, with the
    verifiers' leeway, is over. *)
Definition claim_kept (id : string) (e until : Z) (m : model.Model) : Prop :=
  e < model.epoch m \/
  (model.epoch m = e /\ exists t, model.tickets m !! id = Some t /\ model.AdmissionUntil t = until /\
     (model.TState t = model.AdmittedState \/
      (model.TState t = model.Expired /\ until + model.ClockSkew (model.config m) <= model.now m))).

Lemma claim_kept_ext id e until m m' :
  model.config m' = model.config m -> model.epoch m' = model.epoch m -> model.now m' = model.now m ->
  (forall t, model.tickets m !! id = Some t -> model.TState t = model.AdmittedState \/ model.TState t = model.Expired ->
     model.tickets m' !! id = Some t) ->
  claim_kept id e until m -> claim_kept id e until m'.
Proof.
  intros Ec Ee En Ht [Hlt|(He & t & Hk & Hu & Hs)]; unfold claim_kept; rewrite Ec, Ee, En; [by left|].
  right. split; [done|]. exists t. split_and!; try done. apply Ht; [done | tauto].
Qed.

Lemma Advance_kept n id e until m to :
  hist_inv n m -> claim_kept id e until m -> claim_kept id e until (fst (model.Advance m to)).
Proof.
  intros Hh Hc. unfold model.Advance. destruct (Z.ltb_spec to (model.now m)); [done|].
  destruct Hc as [Hlt|(He & t & Hk & Hu & Hs)]; [by left|]. right. split; [done|]. simpl.
  exists (model.expire to (model.config m) t). rewrite lookup_fmap, Hk. split; [done|].
  destruct Hs as [Ha|[Hx Hn]].
  - pose proof (t_admitted _ _ (h_ticket _ _ Hh id t Hk) Ha) as [Hlo Hle]. time_facts Hh.
    unfold model.expire. rewrite Ha. rewrite i64_id by (unfold in_i64; lia).
    destruct (Z.leb_spec (model.AdmissionUntil t + model.ClockSkew (model.config m)) to); simpl; split; try done; [|by left].
    right. split; [done|]. lia.
  - unfold model.expire. rewrite Hx. split; [done|]. right. split; [done | lia].
Qed.

Lemma exec_kept n id e until m o :
  hist_inv n m -> n < 18446744073709551614 -> claim_kept id e until m -> claim_kept id e until (model.exec m o).
Proof.
  intros Hh Hn Hc. pose proof (h_base _ _ Hh) as Hb. destruct o; simpl.
  - by eapply Advance_kept.
  - unfold model.Join. split_if; [done|]. destruct (model.idempotency m !! key); [by split_if|].
    do 3 (split_if; [done|]). apply (claim_kept_ext _ _ _ m); try done. simpl. intros t Hk _.
    rewrite lookup_insert_ne; [done|]. intros <-. pose proof (t_seq _ _ (h_ticket _ _ Hh _ _ Hk)) as Hs.
    destruct (b_keyed _ Hb _ _ Hk) as (_ & Ek & Hin & _). pose proof (h_seq _ _ Hh).
    rewrite u64_id in Ek by (unfold in_u64; lia). apply ticket_id_inj in Ek; unfold in_u64 in *; lia.
  - done.
  - unfold model.Heartbeat. destruct (model.Status m id0) as [t|] eqn:E; [|done]. apply Status_ok in E as [Hk _].
    split_if; [done|]. split_if; [|done]. to_prop. apply (claim_kept_ext _ _ _ m); try done. simpl. intros u Hu Hs.
    rewrite lookup_insert_ne; [done|]. intros ->. rewrite Hk in Hu. injection Hu as <-. destruct Hs; congruence.
  - destruct (Promote_spec m limit Hb) as (ts & Hch & -> & _). simpl.
    apply (claim_kept_ext _ _ _ m); try done. intros t Hk Hs. simpl. rewrite promote_tickets_other; [done|].
    intros (u & -> & Hu)%list_elem_of_fmap. pose proof (chosen_lookup _ _ _ Hch) as Hlk. rewrite Forall_forall in Hlk.
    rewrite (Hlk u Hu) in Hk. injection Hk as <-. pose proof (ch_live _ _ _ Hch) as Hlv. rewrite Forall_forall in Hlv.
    pose proof (live_candidate_waiting _ _ (Hlv u Hu)). destruct Hs; congruence.
  - unfold model.Claim. destruct (model.Status m id0) as [t|] eqn:E; [|done]. apply Status_ok in E as [Hk _].
    split_if; [done|]. destruct (bool_decide (model.TState t = model.AdmittedState)); [by split_if|].
    destruct (bool_decide (model.TState t = model.Ready)) eqn:Hr; simpl; [|done]. to_prop.
    apply (claim_kept_ext _ _ _ m); try done. simpl. intros u Hu Hs.
    rewrite lookup_insert_ne; [done|]. intros ->. rewrite Hk in Hu. injection Hu as <-. destruct Hs; congruence.
  - unfold model.SetHold. split_if; [done|]. by apply (claim_kept_ext _ _ _ m).
  - unfold model.Drain. split_if; [done|]. by apply (claim_kept_ext _ _ _ m).
  - by apply (claim_kept_ext _ _ _ m).
  - unfold model.Resume. split_if; [done|]. by apply (claim_kept_ext _ _ _ m).
  - left. simpl. pose proof (h_epoch _ _ Hh). rewrite u64_id by (unfold in_u64; lia).
    destruct Hc as [Hlt|[He _]]; lia.
Qed.

Lemma run_kept n id e until m ops :
  hist_inv n m -> Forall (op_ok (model.config m)) ops -> n + Z.of_nat (List.length ops) < 18446744073709551615 ->
  claim_kept id e until m -> claim_kept id e until (model.run m ops).
Proof.
  revert n m. induction ops as [|o ops IH]; intros n m Hh Hok Hn Hc; [done|].
  apply Forall_cons in Hok as [Ho Hok]. simpl in *. apply (IH (n + 1)).
  - apply exec_hist; [done | done | lia].
  - by rewrite (exec_config m o (h_base n m Hh)).
  - lia.
  - eapply exec_kept; [done | lia | done].
Qed.

Lemma history_config cfg m0 ops : model.New cfg = Ok m0 -> model.config (model.run m0 ops) = cfg.
Proof. intros HN. rewrite run_config by (by eapply New_base). by eapply New_config. Qed.

(** What a claim of a history answers: the claim of a promotion at an instant
    of the room's clock, for the whole admission lifetime. *)
Lemma claimed_ticket cfg m0 ops id s t :
  model.New cfg = Ok m0 -> history_ok cfg ops -> model.Claim (model.run m0 ops) id = (s, Ok t) ->
  let m := model.run m0 ops in
  model.JTI t = "admission:" +:+ id /\ model.PromotedAt t = 0 /\ model.Epoch t = model.epoch m /\
  0 <= model.AdmissionUntil t - model.AdmissionTTL cfg <= model.now m /\
  model.now m + horizon cfg <= max_i64 /\ 60000 <= model.AdmissionTTL cfg <= 3600000.
Proof.
  intros HN Hok HC m. pose proof (history_hist cfg m0 ops HN Hok : hist_inv _ m) as Hh.
  pose proof (run_logged cfg m0 ops HN : leases_logged m) as Hl.
  pose proof (history_config cfg m0 ops HN : model.config m = cfg) as Hc.
  destruct (Claim_ok _ _ _ _ HC) as (_ & _ & _ & _ & _ & u & Hu & Hlu & -> & _). fold m in Hu.
  destruct (Hl id u Hu Hlu) as (p & Hp & _ & _ & _ & E4). rewrite Hc in E4.
  pose proof (h_promo _ _ Hh) as Hpr. rewrite Forall_forall in Hpr. destruct (Hpr p Hp) as (_ & Hat & _).
  destruct (b_keyed _ (h_base _ _ Hh) _ _ Hu) as (_ & _ & _ & He & _ & Hpa & Hj).
  pose proof (b_config _ (h_base _ _ Hh)) as Hv. unfold model.valid_config in Hv. rewrite Hc in Hv. to_prop.
  pose proof (h_now _ _ Hh) as [_ Hnow]. rewrite Hc in Hnow. time_facts Hh. rewrite Hc in *. unfold model.Minute in *. unwrap.
  simpl. split_and!; auto; try lia.
Qed.

(** From its claim on, whatever follows, the ticket is kept. *)
Lemma kept_after_claim cfg m0 before id after s t :
  model.New cfg = Ok m0 -> history_ok cfg (before ++ model.OClaim id :: after) ->
  model.Claim (model.run m0 before) id = (s, Ok t) ->
  claim_kept id (model.epoch (model.run m0 before)) (model.AdmissionUntil t)
    (model.run m0 (before ++ model.OClaim id :: after)).
Proof.
  intros HN (Hz & Hall & Hlen) HC. apply Forall_app in Hall as [Hall1 Hall2].
  apply Forall_cons in Hall2 as [Ho Hall2]. rewrite length_app in Hlen. simpl in Hlen.
  assert (history_ok cfg before) as Hb by (split_and!; [done | done | lia]).
  pose proof (history_hist _ _ _ HN Hb) as Hh. pose proof (history_config _ _ before HN) as Hc.
  unfold model.run in *. rewrite fold_left_app. simpl. set (m := fold_left model.exec before m0) in *.
  apply (run_kept (Z.of_nat (List.length before) + 1) id _ _ (model.exec m (model.OClaim id)) after).
  - apply exec_hist; [done | done | lia].
  - by rewrite exec_config, Hc by apply (h_base _ _ Hh).
  - lia.
  - simpl. rewrite HC. simpl. destruct (Claim_ok _ _ _ _ HC) as (_ & Hks & Hst & _).
    destruct (Claim_frame _ _ _ _ HC) as (_ & _ & Ee). right. split; [done|]. exists t. auto.
Qed.

(** ** Admissions at the gateways *)

Section admissions.
Context `{Codec admission.Claims} (carried : admission.Claims -> Prop) `{!CodecLaws admission.Claims carried}.
Context `{Ed25519} `{!Ed25519Laws}.

(** A coordinator and a gateway of one installation: the same room, and the
    projections of one key set of the owner. *)
Record installed (c : Coordinator) (b : browserGateway) : Prop := {
  in_room : Room (gBinding b) = Room (binding c);
  in_audience : Audience (gBinding b) = Audience (binding c);
  in_keys : exists ks, keyring.Validate ks "owner" = Ok tt /\
    Keys (binding c) = Some (keyring.ForRole ks "coordinator") /\ Keys (gBinding b) = Some (keyring.ForRole ks "gateway")
}.

(** A signed token is refused under another key's name. *)
Lemma Verify_other_kid key cl tok pub kid room aud epoch now leeway :
  admission.Sign key cl = Ok tok -> carried cl -> admission.Kid cl <> kid ->
  admission.Verify pub tok kid room aud epoch now leeway = Err admission.ErrInvalid.
Proof.
  intros Hs Hc Hk. destruct (admission.Verify pub tok kid room aud epoch now leeway) as [cl'|[]] eqn:E; [|done]. exfalso.
  destruct (admission.Verify_inv _ _ _ _ _ _ _ _ _ E) as (p0 & p1 & sig & raw & Hsp & _ & _ & Hraw & Hdec & Ha & _).
  unfold admission.Sign in Hs. destruct (negb _); [done|]. injection Hs as <-.
  rewrite (strs.split_join "."%char) in Hsp by apply base64.Encode_no_dot. injection Hsp as <- _.
  rewrite base64.Decode_Encode in Hraw. injection Hraw as <-. rewrite (decode_strict_marshal cl Hc) in Hdec. injection Hdec as <-.
  unfold admission.acceptable in Ha. to_prop. done.
Qed.

(** Trying the keys in turn finds the one that signed. *)
Lemma fold_check {A} (f : keyring.Key -> result admission.error A) (L : list keyring.Key) (x : result admission.error A) k0 :
  (forall k, k ∈ L -> f k = if decide (keyring.ID k = keyring.ID k0) then x else Err admission.ErrInvalid) ->
  (exists k, k ∈ L /\ keyring.ID k = keyring.ID k0) ->
  fold_right (fun k rest => match f k with Ok c => Ok c | Err _ => rest end) (Err admission.ErrInvalid) L = x.
Proof.
  induction L as [|k L IH]; intros Hf (k1 & Hin & Hid); [by apply elem_of_nil in Hin|]. simpl.
  pose proof (Hf k (list_elem_of_here _ _)) as Hk. rewrite Hk.
  assert (forall k', k' ∈ L -> f k' = if decide (keyring.ID k' = keyring.ID k0) then x else Err admission.ErrInvalid) as HL
    by (intros k' Hk'; apply Hf; by right).
  destruct x as [y|[]]; destruct (decide (keyring.ID k = keyring.ID k0)) as [E|E]; try done.
  - apply IH; [done|]. exists k1. apply elem_of_cons in Hin as [->|Hin]; done.
  - clear -HL. induction L as [|k' L IH]; [done|]. simpl. rewrite HL by left. case_decide; (apply IH; intros; apply HL; by right).
  - clear -HL. induction L as [|k' L IH]; [done|]. simpl. rewrite HL by left. case_decide; (apply IH; intros; apply HL; by right).
Qed.

Lemma AdmissionAt_in ks z : keyring.AdmissionAt ks z ∈ keyring.Keys ks.
Proof.
  unfold keyring.AdmissionAt, keyring.Keys. destruct (keyring.Previous ks) as [p|]; [case_if as E|]; set_solver.
Qed.

Lemma AdmissionAt_ForRole ks role z :
  keyring.AdmissionAt (keyring.ForRole ks role) z = keyring.sanitize role (keyring.AdmissionAt ks z).
Proof.
  unfold keyring.AdmissionAt, keyring.ForRole. simpl. destruct (keyring.Previous ks); [by case_if as E | done].
Qed.

(** What every gateway decides about an admission of the coordinator. *)
Lemma issued_verdict c b t a room token x now :
  installed c b -> issue_admission c t = AdmittedBody a room token x -> carried (claims_of c t) -> len token <= 2048 ->
  verifyAdmission b token now =
    if admission.acceptable (claims_of c t) (admission.Kid (claims_of c t)) (Room (binding c)) (Audience (binding c))
         (Epoch (gBinding b)) (admission.Unix now) 30
    then Ok (claims_of c t) else Err admission.ErrInvalid.
Proof.
  intros [Hr Ha (ks & Hv & Hkc & Hkg)] Hi Hc Hl. unfold issue_admission in Hi.
  destruct (admission.Sign _ _) as [tok|] eqn:Hs; [|done]. injection Hi as <- <- <- <-.
  unfold verifyAdmission. rewrite Hkg, Hr, Ha. set (z := issued_at c t) in *. set (k0 := keyring.AdmissionAt ks z).
  assert (signing_key c z = (keyring.AdmissionPrivate k0, keyring.AdmissionKid k0)) as Esk.
  { unfold signing_key. rewrite Hkc, AdmissionAt_ForRole. done. }
  assert (admission.Kid (claims_of c t) = keyring.AdmissionKid k0) as Ekid by (unfold claims_of; fold z; by rewrite Esk).
  rewrite Esk in Hs. simpl fst in Hs. pose proof (AdmissionAt_in ks z : k0 ∈ _) as Hin0.
  pose proof Hv as Hv'. apply keyring.Validate_ok in Hv' as (_ & Hks & _ & _).
  apply (fold_check _ _ _ (keyring.sanitize "gateway" k0)).
  - intros k Hk. rewrite keyring.Keys_ForRole in Hk. apply list_elem_of_fmap in Hk as (k' & -> & Hk').
    change (keyring.ID (keyring.sanitize "gateway" k')) with (keyring.ID k').
    change (keyring.ID (keyring.sanitize "gateway" k0)) with (keyring.ID k0).
    change (keyring.AdmissionPublic (keyring.sanitize "gateway" k')) with (keyring.AdmissionPublic k').
    change (keyring.AdmissionKid (keyring.sanitize "gateway" k')) with (keyring.AdmissionKid k').
    case_decide as Eid.
    + assert (k' = k0) as ->.
      { pose proof (keyring.find_key "owner" [] _ k' Hks Hk') as F1. pose proof (keyring.find_key "owner" [] _ k0 Hks Hin0) as F2.
        rewrite Eid in F1. congruence. }
      assert (keyring.AdmissionPublic k0 = PublicOf (keyring.AdmissionPrivate k0)) as ->.
      { pose proof (keyring.keys_ok_key _ _ _ _ Hks Hin0) as Hok. unfold keyring.key_ok, keyring.pair_ok in Hok.
        simpl in Hok. to_prop. congruence. }
      rewrite (admission.Verify_Sign carried _ _ _ _ _ _ _ _ _ Hs Hc Hl), Ekid by (unfold admission.Second; lia). done.
    + eapply Verify_other_kid; [exact Hs | done |]. rewrite Ekid. unfold keyring.AdmissionKid. intros E.
      apply Eid. by simplify_eq.
  - exists (keyring.sanitize "gateway" k0). split; [|done]. rewrite keyring.Keys_ForRole. by apply list_elem_of_fmap_2.
Qed.

(** C4: an admission opens the gateways. In every history of a room, when the
    queue answers a claim, the admission that the coordinator signs for it is
    accepted by every gateway of the installation, and with exactly the
    signed claims, at every instant from 30 seconds before its issue until 30
    seconds after its expiry; this holds during a key rotation too, because
    the gateways hold the keys of both generations. *)
Theorem claimed_admission_opens_gateways c b cfg m0 ops id s t a room token x now :
  model.New cfg = Ok m0 -> history_ok cfg ops -> model.Claim (model.run m0 ops) id = (s, Ok t) ->
  installed c b -> config c = cfg -> Epoch (gBinding b) = model.epoch (model.run m0 ops) ->
  issue_admission c t = AdmittedBody a room token x -> carried (claims_of c t) -> len token <= 2048 ->
  (issued_at c t ÷ 1000 - 30) <= admission.Unix now < model.AdmissionUntil t ÷ 1000 + 30 ->
  verifyAdmission b token now = Ok (claims_of c t).
Proof.
  intros HN Hok HC Hin Hcfg He Hi Hcar Hl Hnow.
  destruct (claimed_ticket _ _ _ _ _ _ HN Hok HC) as (Ej & Ep & Et & Hat & Hh & Httl).
  rewrite (issued_verdict c b t a room token x now Hin Hi Hcar Hl), He.
  assert (issued_at c t = model.AdmissionUntil t - model.AdmissionTTL cfg) as Ei.
  { unfold issued_at. rewrite Ep, Hcfg. simpl. unfold horizon, max_i64 in *. apply i64_id. unfold in_i64. lia. }
  rewrite Ei in Hnow. unfold admission.acceptable, claims_of. rewrite Ei, Ej, Et. simpl.
  rewrite !String.eqb_refl, !Z.eqb_refl. simpl. unfold horizon, max_i64 in *.
  rewrite !Z.quot_div_nonneg in * by lia.
  set (u := model.AdmissionUntil t) in *. set (d := model.AdmissionTTL cfg) in *.
  pose proof (Z.div_mod u 1000 ltac:(lia)). pose proof (Z.mod_pos_bound u 1000 ltac:(lia)).
  pose proof (Z.div_mod (u - d) 1000 ltac:(lia)). pose proof (Z.mod_pos_bound (u - d) 1000 ltac:(lia)).
  rewrite !i64_id by (unfold in_i64; lia).
  rewrite (proj2 (Z.leb_gt _ _)), !(proj2 (Z.ltb_ge _ _)), (proj2 (Z.leb_gt _ _)) by lia. done.
Qed.

(** An admission of a claim, and the instant it is presented at a gateway. *)
Definition accepted_claim (c : Coordinator) (b : browserGateway) (m0 : model.Model) (ops : list model.op) (now : Z)
    (id : string) : Prop :=
  exists before after s t a room token x cl,
    ops = before ++ model.OClaim id :: after /\ model.Claim (model.run m0 before) id = (s, Ok t) /\
   issue_admission c t = AdmittedBody a room token x /\ carried (claims_of c t) /\ len token <= 2048 /\
   verifyAdmission b token now = Ok cl.

(** A visitor whose claim a gateway accepts holds a lease. *)
Lemma accepted_lease c b cfg m0 ops now id :
  model.New cfg = Ok m0 -> history_ok cfg ops -> model.ClockSkew cfg = 30000 -> installed c b ->
  Epoch (gBinding b) = model.epoch (model.run m0 ops) -> model.now (model.run m0 ops) <= UnixMilli now ->
  accepted_claim c b m0 ops now id ->
  exists t, model.tickets (model.run m0 ops) !! id = Some t /\ model.is_lease t = true.
Proof.
  intros HN Hok Hsk Hin He Hnow (before & after & s & t & a & room & token & x & cl & -> & HC & Hi & Hcar & Hl & Hv).
  assert (history_ok cfg before) as Hb.
  { destruct Hok as (Hz & Hall & Hlen). apply Forall_app in Hall as [Hall _]. rewrite length_app in Hlen.
    split_and!; [done | done | lia]. }
  pose proof (history_hist _ _ _ HN Hb) as Hh. destruct (claimed_ticket _ _ _ _ _ _ HN Hb HC) as (Ej & Ep & Et & Hat & Hz & Httl).
  rewrite (issued_verdict c b t a room token x now Hin Hi Hcar Hl) in Hv.
  destruct (admission.acceptable _ _ _ _ _ _ _) eqn:Ha; [|done]. clear Hv.
  unfold admission.acceptable, claims_of in Ha. simpl in Ha. to_prop.
  pose proof (kept_after_claim _ _ _ _ _ _ _ HN Hok HC) as [Hlt|(Ee & u & Hu & Eu & Hs)]; [lia|].
  exists u. split; [done|]. unfold model.is_lease. destruct Hs as [->|[_ Hx]]; [done|]. exfalso.
  rewrite (history_config _ _ _ HN), Hsk in Hx. unfold UnixMilli, admission.Unix, admission.Second, horizon, max_i64 in *.
  rewrite i64_id in * by (unfold in_i64; rewrite ?Z.quot_div_nonneg by lia; Z.to_euclidean_division_equations; lia).
  rewrite Z.quot_div_nonneg in * by lia. Z.to_euclidean_division_equations. lia.
Qed.

(** C3: the gateways never let in more visitors than the room may hold. In
    every history, take any visitors whose tickets were claimed in it; if
    each of them presents its admission to some gateway of the installation,
    which runs on the room's epoch and whose clock is not behind the queue's,
    and is accepted, then there are at most [LeaseCap] of them. *)
Theorem gateway_admissions_within_capacity c cfg m0 ops ids :
  model.New cfg = Ok m0 -> history_ok cfg ops -> model.ClockSkew cfg = 30000 -> NoDup ids ->
  (forall id, id ∈ ids -> exists b now, installed c b /\ Epoch (gBinding b) = model.epoch (model.run m0 ops) /\
     model.now (model.run m0 ops) <= UnixMilli now /\ accepted_claim c b m0 ops now id) ->
  Z.of_nat (List.length ids) <= model.LeaseCap cfg.
Proof.
  intros HN Hok Hsk Hnd Hids. rewrite <- (history_config cfg m0 ops HN).
  etrans; [|apply b_leases, (h_base _ _ (history_hist cfg m0 ops HN Hok))].
  apply map_count_keys; [done|]. intros id Hid. destruct (Hids id Hid) as (b & now & Hin & He & Hnow & Ha).
  by eapply accepted_lease.
Qed.
End admissions.

(** ** A concrete installation, in the middle of a rotation *)

Definition wit_ticket : model.Ticket :=
  model.mkTicket "1:1" 1 model.AdmittedState 1 1000 601000 86401000 121000 901000 "admission:1:1" 0.
Definition wit_binding (role : string) : Binding :=
  mkBinding (Some (keyring.ForRole keyring.wit_set role)) "" "room" "aud" "k1" 1 (fun _ => true).
Definition wit_coordinator : Coordinator := mkCoordinator true small_config "" "service" "" (wit_binding "coordinator").
Definition wit_gateway : browserGateway := mkGateway "service" "" "" (wit_binding "gateway") true "" (fun _ => true).
Definition wit_claims : admission.Claims := claims_of wit_coordinator wit_ticket.
Definition wit_codec : Codec admission.Claims :=
  Build_Codec admission.Claims (fun _ => "c") (fun s => if String.eqb s "c" then Some (wit_claims, "") else None).
Definition wit_token : string :=
  match @issue_admission wit_codec keyring.wit_ed wit_coordinator wit_ticket with AdmittedBody _ _ t _ => t | _ => "" end.

Lemma wit_claims_laws : @CodecLaws admission.Claims wit_codec (fun c => c = wit_claims).
Proof. intros c ->. reflexivity. Qed.

Lemma wit_keyring_ed_laws : @Ed25519Laws keyring.wit_ed.
Proof. intros key msg _. apply String.eqb_refl. Qed.

Lemma wit_installed : @installed keyring.wit_ed wit_coordinator wit_gateway.
Proof. constructor; [done | done |]. exists keyring.wit_set. split_and!; [by vm_compute | done | done]. Qed.

Lemma claimed_admission_opens_gateways_witness :
  @verifyAdmission wit_codec keyring.wit_ed wit_gateway wit_token (930 * admission.Second) = Ok wit_claims.
Proof.
  apply (@claimed_admission_opens_gateways wit_codec (fun c => c = wit_claims) wit_claims_laws keyring.wit_ed
    wit_keyring_ed_laws wit_coordinator wit_gateway small_config small_model (take 5 small_ops) "1:1"
    (fst (model.Claim (model.run small_model (take 5 small_ops)) "1:1")) wit_ticket 86401000 "room" wit_token 901).
  - exact small_new.
  - by apply (bool_decide_unpack _); vm_compute.
  - by vm_compute.
  - exact wit_installed.
  - reflexivity.
  - by vm_compute.
  - by vm_compute.
  - reflexivity.
  - by vm_compute.
  - by vm_compute.
Defined.

Lemma gateway_admissions_within_capacity_witness :
  @accepted_claim wit_codec (fun c => c = wit_claims) keyring.wit_ed wit_coordinator wit_gateway small_model small_ops
    (930 * admission.Second) "1:1" /\
  Z.of_nat (List.length ["1:1"]) <= model.LeaseCap small_config.
Proof.
  assert (@accepted_claim wit_codec (fun c => c = wit_claims) keyring.wit_ed wit_coordinator wit_gateway small_model
    small_ops (930 * admission.Second) "1:1") as Ha.
  { exists (take 5 small_ops), [], (fst (model.Claim (model.run small_model (take 5 small_ops)) "1:1")), wit_ticket,
      86401000, "room", wit_token, 901, wit_claims. split_and!; by vm_compute. }
  split; [exact Ha|].
  apply (@gateway_admissions_within_capacity wit_codec (fun c => c = wit_claims) wit_claims_laws keyring.wit_ed
    wit_keyring_ed_laws wit_coordinator small_config small_model small_ops ["1:1"] small_new small_history eq_refl).
  - apply NoDup_singleton.
  - intros id ->%list_elem_of_singleton. exists wit_gateway, (930 * admission.Second).
    split_and!; [exact wit_installed | reflexivity | by vm_compute | exact Ha].
Defined.
