(* ===== verification/Publication.v ===== *)
(** * The control plane's store: [src/internal/adminauth/pgstore]

    Module [pgstore] translates the operator commands of the control plane and
    the publication of signed configurations: sessions and fresh
    authentications ([sessions.go], [reauth.go]), the command wrapper with its
    durable replay ([commands.go]), drafts ([control.go]), publication,
    operation and refresh ([publication.go]), events ([events.go]), delivery
    acknowledgements ([delivery.go]) and clock recovery ([clock_recovery.go]).

    A transaction is a function of the database: every mutation takes the lock
    of the configuration row first, so that transactions are steps. A [jsonb]
    column holds its document; JSON and the exact decoder are parameters.
    Instants are in nanoseconds; each reading of the database clock is an
    argument. A transaction can be broken by the database, with no effect, or
    commit while its answer is lost. *)

From S2P Require Import Prelude GoStd Keyring Control ConfigTrust AdminAuth.
From stdpp Require Import base list gmap strings sorting pretty.
From Stdlib Require Import ZArith Lia Ascii String.

Module pgstore.
Local Open Scope Z_scope.

#[global] Instance Limits_eq_dec : EqDecision control.Limits.
Proof. solve_decision. Defined.
#[global] Instance QueuePolicy_eq_dec : EqDecision control.QueuePolicy.
Proof. solve_decision. Defined.
#[global] Instance Runtime_eq_dec : EqDecision control.Runtime.
Proof. solve_decision. Defined.

(** ** Errors and tables *)

(** The errors of [adminauth] and [control], and those the package declares, by their text. *)
Inductive error := EAuth (e : adminauth.error) | EControl (e : control.error) | ENamed (text : string).
Definition unavailable : error := EAuth adminauth.ErrAuthUnavailable.

Record account_row := mkAccountRow { ac_role : adminauth.Role; ac_enabled : bool; ac_version : Z; ac_deleted : bool }.
Record totp_row := mkTOTPRow { to_version : Z; to_kid : string; to_sealed : string; to_last : Z }.
Record session_row := mkSessionRow {
  se_user : string; se_policy : Z; se_version : Z; se_mfa : bool; se_created : Z; se_seen : Z; se_csrf : string
}.
Record proof_row := mkProofRow {
  pr_session : string; pr_action : string; pr_target : string; pr_digest : string;
  pr_created : Z; pr_expires : Z; pr_consumed : bool
}.
Record command_row := mkCommandRow {
  co_request : string; co_created : Z; co_expires : Z; co_status : Z; co_response : string; co_etag : string
}.
Record audit_row := mkAuditRow {
  au_actor : string; au_role : string; au_action : string; au_target : string;
  au_before : string; au_after : string; au_result : string; au_request : string; au_revision : Z
}.
(** [envelope], [issued_at] and [expires_at] are null together. *)
Record publication := mkPublication { pb_envelope : string; pb_issued : Z; pb_expires : Z }.
Record delivery_row := mkDeliveryRow {
  de_document : control.Delivery; de_generation : Z; de_publication : option publication
}.

Record RoomMetrics := mkMetrics {
  mRoomID : string; mRevision : Z; mEpoch : Z; mMode : string; mWaiting : Z; mReady : Z; mLeases : Z; mRate : Z;
  mOriginHealthy : bool; mArrivalWindowReady : bool; mArrivalsFiveMinutes : Z;
  mHTTP5xxLastMinute : option Z; mHTTP5xxWindowReady : bool;
  mRecoveryUntil : Z; mRecoveryFence : Z; mRecoveryReason : string; mRecoveryValidation : string
}.
Record NodeAck := mkAck {
  nKeyGeneration : Z; nKeyDigest : string; nGeneration : Z; nDigest : string; nRooms : list RoomMetrics
}.
Record node_row := mkNodeRow { no_generation : Z; no_digest : string; no_observed : Z; no_metrics : list RoomMetrics }.
Record key_row := mkKeyRow { ke_generation : Z; ke_digest : string; ke_observed : Z }.

(** The tables of login and enrolment. *)
Record password_row := mkPasswordRow { pw_version : Z; pw_hash : string }.
Record challenge_row := mkChallengeRow {
  ch_user : string; ch_credential : Z; ch_policy : Z; ch_version : Z; ch_created : Z; ch_expires : Z;
  ch_attempts : Z; ch_consumed : bool
}.
(** [key_id] and [sealed_secret] are null together. *)
Record enrollment_row := mkEnrollmentRow {
  en_user : string; en_policy : Z; en_version : Z; en_created : Z; en_expires : Z; en_attempts : Z; en_consumed : bool;
  en_secret : option (string * string)
}.
Record code_row := mkCodeRow { rc_hash : string; rc_consumed : bool }.
Record bucket_row := mkBucketRow { bk_started : Z; bk_expires : Z; bk_used : Z }.
(** [token_hash] and [token_expires_at] are null together. *)
Record bootstrap_row := mkBootstrapRow { bo_completed : bool; bo_generation : Z; bo_token : option (string * Z) }.
Record logout_row := mkLogoutRow { lo_csrf : string; lo_key : string; lo_created : Z; lo_expires : Z }.
Record auth_tables := mkAuth {
  t_passwords : gmap string password_row; t_challenges : gmap string challenge_row;
  t_enrollments : gmap string enrollment_row; t_policy_enrollments : gmap string string;
  t_codes : gmap (string * Z * Z) code_row; t_buckets : gmap string bucket_row; t_bootstrap : bootstrap_row;
  t_logouts : gmap string logout_row; t_applied : bool
}.

Record DB := mkDB {
  db_policy : adminauth.AuthPolicy; db_accounts : gmap string account_row; db_totp : gmap string totp_row;
  db_sessions : gmap string session_row; db_proofs : gmap string proof_row;
  db_config : option (Z * control.Config); db_commands : gmap (string * string) command_row;
  db_audit : list audit_row; db_delivery : delivery_row; db_nodes : gmap string node_row;
  db_keys : gmap string key_row; db_events : gmap string control.Event; db_auth : auth_tables
}.

Definition set_policy (db : DB) (x : adminauth.AuthPolicy) : DB :=
  mkDB x (db_accounts db) (db_totp db) (db_sessions db) (db_proofs db) (db_config db) (db_commands db)
    (db_audit db) (db_delivery db) (db_nodes db) (db_keys db) (db_events db) (db_auth db).
Definition set_accounts (db : DB) (x : gmap string account_row) : DB :=
  mkDB (db_policy db) x (db_totp db) (db_sessions db) (db_proofs db) (db_config db) (db_commands db)
    (db_audit db) (db_delivery db) (db_nodes db) (db_keys db) (db_events db) (db_auth db).
Definition set_totp (db : DB) (x : gmap string totp_row) : DB :=
  mkDB (db_policy db) (db_accounts db) x (db_sessions db) (db_proofs db) (db_config db)
    (db_commands db) (db_audit db) (db_delivery db) (db_nodes db) (db_keys db) (db_events db) (db_auth db).
Definition set_sessions (db : DB) (x : gmap string session_row) : DB :=
  mkDB (db_policy db) (db_accounts db) (db_totp db) x (db_proofs db) (db_config db) (db_commands db)
    (db_audit db) (db_delivery db) (db_nodes db) (db_keys db) (db_events db) (db_auth db).
Definition set_proofs (db : DB) (x : gmap string proof_row) : DB :=
  mkDB (db_policy db) (db_accounts db) (db_totp db) (db_sessions db) x (db_config db) (db_commands db)
    (db_audit db) (db_delivery db) (db_nodes db) (db_keys db) (db_events db) (db_auth db).
Definition set_config (db : DB) (x : Z * control.Config) : DB :=
  mkDB (db_policy db) (db_accounts db) (db_totp db) (db_sessions db) (db_proofs db) (Some x)
    (db_commands db) (db_audit db) (db_delivery db) (db_nodes db) (db_keys db) (db_events db) (db_auth db).
Definition set_commands (db : DB) (x : gmap (string * string) command_row) : DB :=
  mkDB (db_policy db) (db_accounts db) (db_totp db) (db_sessions db) (db_proofs db) (db_config db) x
    (db_audit db) (db_delivery db) (db_nodes db) (db_keys db) (db_events db) (db_auth db).
Definition log_audit (db : DB) (x : audit_row) : DB :=
  mkDB (db_policy db) (db_accounts db) (db_totp db) (db_sessions db) (db_proofs db) (db_config db)
    (db_commands db) (db_audit db ++ [x]) (db_delivery db) (db_nodes db) (db_keys db) (db_events db) (db_auth db).
Definition set_delivery (db : DB) (x : delivery_row) : DB :=
  mkDB (db_policy db) (db_accounts db) (db_totp db) (db_sessions db) (db_proofs db) (db_config db)
    (db_commands db) (db_audit db) x (db_nodes db) (db_keys db) (db_events db) (db_auth db).
Definition set_nodes (db : DB) (x : gmap string node_row) (k : gmap string key_row) : DB :=
  mkDB (db_policy db) (db_accounts db) (db_totp db) (db_sessions db) (db_proofs db) (db_config db)
    (db_commands db) (db_audit db) (db_delivery db) x k (db_events db) (db_auth db).
Definition set_events (db : DB) (x : gmap string control.Event) : DB :=
  mkDB (db_policy db) (db_accounts db) (db_totp db) (db_sessions db) (db_proofs db) (db_config db)
    (db_commands db) (db_audit db) (db_delivery db) (db_nodes db) (db_keys db) x (db_auth db).
Definition set_auth (db : DB) (x : auth_tables) : DB :=
  mkDB (db_policy db) (db_accounts db) (db_totp db) (db_sessions db) (db_proofs db) (db_config db)
    (db_commands db) (db_audit db) (db_delivery db) (db_nodes db) (db_keys db) (db_events db) x.

(** ** Transactions *)

(** A transaction fails, answers without a commit, or commits. *)
Inductive outcome (A : Type) := Fail (e : error) | Rollback (a : A) | Commit (db : DB) (a : A).
Arguments Fail {A} e.
Arguments Rollback {A} a.
Arguments Commit {A} db a.

(** What the database does: nothing wrong, a failed statement or commit, or a
    commit whose answer is lost. *)
Inductive fault := NoFault | Broken | Lost.

Definition finish {A} (f : fault) (db : DB) (o : outcome A) : DB * result error A :=
  match f, o with
  | Broken, _ => (db, Err unavailable)
  | _, Fail e => (db, Err e)
  | _, Rollback a => (db, Ok a)
  | NoFault, Commit db' a => (db', Ok a)
  | Lost, Commit db' a => (db', Err unavailable)
  end.

(** ** Texts *)

Definition role_text (r : adminauth.Role) : string :=
  match r with
  | adminauth.Admin => "admin" | adminauth.Operator => "operator" | adminauth.Viewer => "viewer"
  | adminauth.OtherRole t => t
  end.
Definition action_text (a : adminauth.Action) : string :=
  match a with
  | adminauth.ReadDashboard => "dashboard.read" | adminauth.ReadConfig => "config.read"
  | adminauth.WriteConfig => "config.write" | adminauth.ReadRuntime => "runtime.read"
  | adminauth.OperateRuntime => "runtime.operate" | adminauth.InstantOff => "runtime.instant_off"
  | adminauth.NewEpoch => "runtime.new_epoch" | adminauth.ReadEvents => "events.read"
  | adminauth.WriteEvents => "events.write" | adminauth.ReadLab => "lab.read" | adminauth.RunLab => "lab.run"
  | adminauth.ReadUsers => "users.read" | adminauth.WriteUsers => "users.write"
  | adminauth.ReadSecurity => "security.read" | adminauth.WriteTOTPPolicy => "security.totp.write"
  | adminauth.ResetUserTOTP => "security.totp.reset" | adminauth.RotateKeys => "security.keys.rotate"
  | adminauth.ReadAudit => "audit.read" | adminauth.ReadInstall => "install.read"
  end.

Definition quote : string := String (ascii_of 34) EmptyString.
Definition configETag (revision : Z) : string := quote +:+ "config-" +:+ pretty revision +:+ quote.
Definition runtimeETag (r : control.Runtime) : string := quote +:+ "runtime-" +:+ pretty (control.rtRevision r) +:+ quote.

Definition safeCommandKey (key : string) : bool :=
  negb ((len key <? 16) || (128 <? len key)) &&
  forallb (fun a => negb ((byte_of a <? 33) || (126 <? byte_of a))) (list_ascii_of_string key).

Definition nul : string := String (ascii_of 0) EmptyString.
Definition newline : string := String (ascii_of 10) EmptyString.
Definition maxControlCommands : Z := 10000.
Definition MaxConfigBytes : Z := 65536.
Definition Second : Z := 1000000000.
Definition Minute : Z := 60 * Second.
Definition Hour : Z := 60 * Minute.

Record ControlReply := mkReply { Status : Z; Body : string; ETag : string; Replay : bool }.
Record commandResult := mkResult { reply : ControlReply; before : string; after : string; revision : Z }.
Record sessionSnapshot := mkSnapshot {
  account : adminauth.Account; session : adminauth.Session; policy : adminauth.AuthPolicy; csrf : string; now : Z
}.

Record RuntimeCommand := mkCommand {
  cAction : string; cLimits : option control.Limits; cScope : string; cGeneration : option Z
}.
Record PublicationService := mkService {
  kid : string; keyGeneration : Z; keyDigest : string; origin : string; key : string; installation : string
}.

(** The readings of the database clock in a command, and its random tokens. *)
Record clock := mkClock { t_session : Z; t_command : Z; t_proof : Z }.
Record tokens := mkTokens { k_reply : string; k_request : string; k_event : string }.

(** ** The wire formats *)

Record recoveryObservation := mkObservation {
  oRoomID : string; oEpoch : Z; oFence : Z; oHold : bool; oUntil : Z; oReason : string; oValidation : string
}.
#[global] Instance recoveryObservation_eq_dec : EqDecision recoveryObservation.
Proof. solve_decision. Defined.

(** What the code takes from [encoding/json], [net/url] and the image check:
    [json.Valid], [url.Parse], [control.LogoBytes] succeeding, [json.Marshal]
    of the answers, [control.DecodeExact] at its types, and
    [control.SanitizeLogo]. *)
Class Wire := {
  json_Valid : string -> bool;
  url_Parse : string -> option control.URL;
  logo_ok : string -> bool;
  json_problem : Z -> string -> string -> string;
  json_runtime : control.Runtime -> string;
  json_published : Z -> Z -> string;
  json_event : control.Event -> string;
  json_observation : recoveryObservation -> string;
  decode_config : string -> option control.Config;
  decode_command : string -> option RuntimeCommand;
  decode_event : string -> option control.EventInput;
  decode_empty : string -> bool;
  SanitizeLogo : string -> option string
}.

Section store.
Context `{Sha256} `{Codec control.Config} `{Codec control.Delivery} `{Codec configtrust.Snapshot}
  `{Codec configtrust.envelope} `{Ed25519}.
Context `{Wire}.

Definition digest (raw : string) : string := hex_EncodeToString (sha256 raw).
Definition delivery_valid (d : control.Delivery) : bool := is_ok (control.Delivery_Validate url_Parse logo_ok d).

Definition replyProblem (status : Z) (code id : string) : ControlReply :=
  mkReply status (json_problem status code id) "" false.

(** ** Sessions *)

Definition tokenHash (raw : string) : option string :=
  if negb (len raw =? 43) then None else
  match base64.StrictDecodeString raw with
  | Some decoded => if negb (len decoded =? 32) then None else Some (sha256 raw)
  | None => None
  end.

Definition loadSession (hash : string) (t : Z) (db : DB) : result error sessionSnapshot :=
  if negb (is_ok (adminauth.Validate (db_policy db))) then Err unavailable else
  match db_sessions db !! hash with
  | None => Err (EAuth adminauth.ErrUnauthenticated)
  | Some s =>
      match db_accounts db !! se_user s with
      | None => Err (EAuth adminauth.ErrUnauthenticated)
      | Some a =>
          if negb (len (se_csrf s) =? 32) then Err unavailable else
          let acc := adminauth.mkAccount (se_user s) (ac_role a) (ac_enabled a) (ac_version a)
                       (bool_decide (is_Some (db_totp db !! se_user s))) in
          let ses := adminauth.mkSession (se_user s) (se_policy s) (se_version s) (se_mfa s) (Some (se_created s)) (se_seen s) in
          match adminauth.CheckSession acc ses (db_policy db) t with
          | Err e => Err (EAuth e)
          | Ok _ => Ok (mkSnapshot acc ses (db_policy db) (se_csrf s) t)
          end
      end
  end.

Definition beginCommand (s : PublicationService) (token : string) (action : adminauth.Action)
    (request : option adminauth.request) (sensitive : bool) (t : Z) (db : DB) : result error sessionSnapshot :=
  match tokenHash token with
  | None => Err (EAuth adminauth.ErrUnauthenticated)
  | Some hash =>
      match loadSession hash t db with
      | Err e => Err e
      | Ok state =>
          match adminauth.Requirement (adminauth.aRole (account state)) action with
          | None => Err (EAuth adminauth.ErrForbidden)
          | Some req =>
              if adminauth.RequiresReauthentication req && negb sensitive then Err (EAuth adminauth.ErrForbidden) else
              match request with
              | None => Ok state
              | Some r =>
                  match adminauth.CheckMutation (origin s) r (csrf state) with
                  | Err e => Err (EAuth e)
                  | Ok _ => Ok state
                  end
              end
          end
      end
  end.

(** ** Fresh authentications *)

Definition ActionRequestDigest (method target etag raw : string) : string :=
  digest ("wr-action/v1" +:+ newline +:+ method +:+ newline +:+ target +:+ newline +:+ etag +:+ newline +:+ raw).

(** The [WHERE] clause of the update in [consumeReauth]. *)
Definition proof_matches (session action target dig : string) (t : Z) (p : proof_row) : bool :=
  String.eqb (pr_session p) session && String.eqb (pr_action p) action && String.eqb (pr_target p) target &&
  String.eqb (pr_digest p) dig && negb (pr_consumed p) && (pr_created p <=? t) && (t <? pr_expires p).

Definition consumed (p : proof_row) : proof_row :=
  mkProofRow (pr_session p) (pr_action p) (pr_target p) (pr_digest p) (pr_created p) (pr_expires p) true.

Definition consumeReauth (token : string) (r : adminauth.request) (action : adminauth.Action) (target raw : string)
    (t : Z) (db : DB) : result error DB :=
  let forbidden := Err (EAuth adminauth.ErrForbidden) in
  if negb (List.length (adminauth.Header r "X-Reauth-Token") =? 1)%nat then forbidden else
  match tokenHash (adminauth.Get r "X-Reauth-Token") with
  | None => forbidden
  | Some hash =>
      match db_proofs db !! hash with
      | None => forbidden
      | Some p =>
          if proof_matches (default "" (tokenHash token)) (action_text action) target
               (ActionRequestDigest (adminauth.Method r) target (adminauth.Get r "If-Match") raw) t p
          then Ok (set_proofs db (<[hash := consumed p]> (db_proofs db)))
          else forbidden
      end
  end.

(** ** Commands *)

Definition readConfig (db : DB) : result error control.Config :=
  match db_config db with
  | None => Err unavailable
  | Some (rev, c) =>
      if negb (is_ok (control.Validate url_Parse logo_ok c)) || negb (control.Revision c =? rev)
      then Err unavailable else Ok c
  end.

Definition older (a b : (string * string) * command_row) : Prop := co_expires (snd a) <= co_expires (snd b).
#[local] Instance older_dec : RelDecision older.
Proof. intros a b. unfold older. apply _. Defined.

(** The oldest expired commands, at most 128, leave the table. *)
Definition expired_commands (t : Z) (cs : gmap (string * string) command_row) : list (string * string) :=
  let due := List.filter (fun kv => co_expires (snd kv) <=? t) (map_to_list cs) in
  take 128 (fst <$> merge_sort older due).
Definition housekeep (t : Z) (cs : gmap (string * string) command_row) : gmap (string * string) command_row :=
  foldr delete cs (expired_commands t cs).

(** The answer of a stored command: [None] runs the command. *)
Definition replayed (row : option command_row) (fingerprint : string) (t : Z) (conflict : ControlReply)
    : option (result error (bool * ControlReply)) :=
  match row with
  | None => None
  | Some c =>
      if t <? co_created c then Some (Err unavailable) else
      if t <? co_expires c then
        if negb (String.eqb (co_request c) fingerprint) then Some (Ok (false, conflict))
        else Some (Ok (true, mkReply (co_status c) (co_response c) (co_etag c) true))
      else None
  end.

(** [UPDATE auth_sessions SET last_seen_at]. *)
Definition touch (token : string) (t : Z) (db : DB) : DB :=
  match tokenHash token with
  | None => db
  | Some h =>
      match db_sessions db !! h with
      | None => db
      | Some s => set_sessions db (<[h := mkSessionRow (se_user s) (se_policy s) (se_version s) (se_mfa s)
                                            (se_created s) t (se_csrf s)]> (db_sessions db))
      end
  end.

(** The [INSERT] of [control_commands], which has no row of the key. *)
Definition remember (actor key fingerprint : string) (t : Z) (r : ControlReply) (db : DB) : DB :=
  set_commands db (<[(actor, key) := mkCommandRow fingerprint t (t + 24 * Hour) (Status r) (Body r) (ETag r)]> (db_commands db)).

Definition headers_ok (r : adminauth.request) (raw : string) : bool :=
  negb ((MaxConfigBytes <? len raw) || negb (List.length (adminauth.Header r "Idempotency-Key") =? 1)%nat ||
        negb (safeCommandKey (adminauth.Get r "Idempotency-Key"))).

(** [command]: [body] runs in the transaction. *)
Definition command (s : PublicationService) (token : string) (r : adminauth.request) (raw : string)
    (action : adminauth.Action) (target : string) (etag : bool)
    (body : DB -> sessionSnapshot -> control.Config -> result error (DB * commandResult))
    (ck : clock) (tk : tokens) (db : DB) : outcome ControlReply :=
  let problem status code := replyProblem status code (k_reply tk) in
  if negb (headers_ok r raw) then Rollback (problem 400 "INVALID_REQUEST") else
  let matches := adminauth.Header r "If-Match" in
  if etag && (List.length matches =? 0)%nat then Rollback (problem 428 "PRECONDITION_REQUIRED") else
  if (1 <? Z.of_nat (List.length matches)) || (64 <? len (adminauth.Get r "If-Match"))
  then Rollback (problem 400 "INVALID_REQUEST") else
  let reauth := match adminauth.Requirement adminauth.Admin action with
                | Some c => adminauth.RequiresReauthentication c | None => false end in
  match beginCommand s token action (Some r) reauth (t_session ck) db with
  | Err e => Fail e
  | Ok state =>
      match readConfig db with
      | Err e => Fail e
      | Ok current =>
          let state := mkSnapshot (account state) (session state) (policy state) (csrf state) (t_command ck) in
          match adminauth.CheckSession (account state) (session state) (policy state) (now state) with
          | Err e => Fail (EAuth e)
          | Ok _ =>
              let actor := adminauth.aID (account state) in
              let key := sha256 (adminauth.Get r "Idempotency-Key") in
              let fingerprint := sha256 ("control.command.v1" +:+ nul +:+ adminauth.Method r +:+ nul +:+ action_text action +:+
                nul +:+ target +:+ nul +:+ adminauth.Get r "If-Match" +:+ nul +:+ raw) in
              match replayed (db_commands db !! (actor, key)) fingerprint (now state) (problem 409 "IDEMPOTENCY_CONFLICT") with
              | Some (Err e) => Fail e
              | Some (Ok (false, a)) => Rollback a
              | Some (Ok (true, a)) => Commit db a
              | None =>
                  let db1 := set_commands db (housekeep (now state) (delete (actor, key) (db_commands db))) in
                  if maxControlCommands <=? Z.of_nat (size (db_commands db1))
                  then Rollback (problem 503 "COMMAND_CAPACITY_EXCEEDED") else
                  match (if reauth then consumeReauth token r action target raw (t_proof ck) db1 else Ok db1) with
                  | Err e => Fail e
                  | Ok db2 =>
                      match body db2 state current with
                      | Err e => Fail e
                      | Ok (db3, res) =>
                          let bef := if String.eqb (before res) "" then digest (marshal current) else before res in
                          let aft := if String.eqb (after res) "" then bef else after res in
                          let rev := if revision res =? 0 then control.Revision current else revision res in
                          let a := reply res in
                          if (Status a <? 200) || (len (Body a) =? 0) || (MaxConfigBytes <? len (Body a))
                          then Fail unavailable else
                          let row := mkAuditRow actor (role_text (adminauth.aRole (account state))) (action_text action) target
                            bef aft (if 400 <=? Status a then "rejected" else "accepted") (k_request tk) rev in
                          Commit (touch token (now state) (remember actor key fingerprint (now state) a (log_audit db3 row))) a
                      end
                  end
              end
          end
      end
  end.

(** ** Drafts *)

(** [FitsDeliveryBudget]: the largest runtimes and envelope of the draft fit. *)
Definition with_revision (c : control.Config) (rev : Z) : control.Config :=
  control.mkConfig (control.SchemaVersion c) rev (control.Profile c) (control.RegionID c) (control.Rooms c).

Definition FitsDeliveryBudget (c : control.Config) : bool :=
  let c := with_revision c 9007199254740989 in
  let runtime := control.mkRuntime 9007199254740989 "RECOVERY_HOLD" (control.mkLimits 100000 60000 3600) 9007199254740989
                   "paused_by_override" 9007199254740989 in
  let d := control.mkDelivery c ((fun room => control.mkRoomRuntime (control.ID room) runtime) <$> control.rooms c) in
  let fill a n := string_of_list_ascii (replicate n a) in
  let snapshot := marshal (configtrust.mkSnapshot 1 (fill "i"%char 80%nat) 9007199254740991 (control.Revision c) 253402127999
                    253402214399 (fill "k"%char 80%nat) (marshal d)) in
  let envelope := marshal (configtrust.mkEnvelope snapshot (fill "s"%char 86%nat)) in
  (len (marshal d) <=? MaxConfigBytes) && (len envelope <=? configtrust.MaxSnapshotBytes).

(** [NormalizeThemeImages]: every logo in its canonical form. *)
Definition with_logo (r : control.Room) (logo : string) : control.Room :=
  let t := control.RTheme r in
  control.mkRoom (control.ID r) (control.PublicID r) (control.Name r) (control.Hostname r) (control.Origin r) (control.HealthURL r)
    (control.ProtectPrefixes r) (control.ExcludePrefixes r) (control.QPolicy r) (control.RLimits r)
    (control.mkTheme (control.TemplateID t) (control.Title t) (control.Message t) (control.PrimaryColor t) (control.Locale t)
       (control.ShowEstimatedWait t) logo) (control.Active r).
Fixpoint normalize_rooms (rs : list control.Room) : option (list control.Room) :=
  match rs with
  | [] => Some []
  | r :: rs' =>
      match SanitizeLogo (control.LogoImage (control.RTheme r)) with
      | None => None
      | Some logo => match normalize_rooms rs' with Some l => Some (with_logo r logo :: l) | None => None end
      end
  end.
Definition NormalizeThemeImages (c : control.Config) : option control.Config :=
  match control.Rooms c with
  | None => Some c
  | Some rs =>
      match normalize_rooms rs with
      | None => None
      | Some rs' => Some (control.mkConfig (control.SchemaVersion c) (control.Revision c) (control.Profile c) (control.RegionID c) (Some rs'))
      end
  end.

(** The cases of the switch: the draft to save, or the answer that refuses it. *)
Definition check_draft (r : adminauth.request) (raw : string) (current : control.Config) (tk : tokens)
    : result ControlReply control.Config :=
  let problem status code := Err (replyProblem status code (k_reply tk)) in
  if negb (String.eqb (adminauth.Get r "If-Match") (configETag (control.Revision current))) then problem 412 "REVISION_MISMATCH" else
  match decode_config raw with
  | None => problem 400 "INVALID_REQUEST"
  | Some next =>
      if negb (control.Revision next =? control.Revision current) || negb (String.eqb (control.Profile next) (control.Profile current)) ||
         negb (String.eqb (control.RegionID next) (control.RegionID current)) then problem 422 "UNSUPPORTED_CAPABILITY" else
      match NormalizeThemeImages next with
      | None => problem 422 "INVALID_THEME_IMAGE"
      | Some next =>
          match control.Validate url_Parse logo_ok next with
          | Err control.ErrConflict => problem 409 "ROUTE_CONFLICT"
          | Err _ => problem 422 "INVALID_CONFIG"
          | Ok _ => if FitsDeliveryBudget next then Ok next else problem 422 "CONFIG_CAPACITY_EXCEEDED"
          end
      end
  end.

Definition ReplaceDraft (s : PublicationService) (token : string) (r : adminauth.request) (raw : string)
    (ck : clock) (tk : tokens) (db : DB) : outcome ControlReply :=
  let problem status code := replyProblem status code (k_reply tk) in
  if negb (String.eqb (adminauth.Method r) "PUT") || (MaxConfigBytes <? len raw) then Rollback (problem 400 "INVALID_REQUEST") else
  if negb (List.length (adminauth.Header r "Idempotency-Key") =? 1)%nat || negb (safeCommandKey (adminauth.Get r "Idempotency-Key"))
  then Rollback (problem 400 "INVALID_REQUEST") else
  let matches := adminauth.Header r "If-Match" in
  if (List.length matches =? 0)%nat then Rollback (problem 428 "PRECONDITION_REQUIRED") else
  if negb (List.length matches =? 1)%nat || (64 <? len (adminauth.Get r "If-Match")) then Rollback (problem 400 "INVALID_REQUEST") else
  match beginCommand s token adminauth.WriteConfig (Some r) false (t_session ck) db with
  | Err e => Fail e
  | Ok state =>
      match readConfig db with
      | Err e => Fail e
      | Ok current =>
          let t := t_command ck in
          match adminauth.CheckSession (account state) (session state) (policy state) t with
          | Err e => Fail (EAuth e)
          | Ok _ =>
              let actor := adminauth.aID (account state) in
              let key := sha256 (adminauth.Get r "Idempotency-Key") in
              let fingerprint := sha256 ("control.replace-draft.v1" +:+ nul +:+ adminauth.Get r "If-Match" +:+ nul +:+ raw) in
              match replayed (db_commands db !! (actor, key)) fingerprint t (problem 409 "IDEMPOTENCY_CONFLICT") with
              | Some (Err e) => Fail e
              | Some (Ok (false, a)) => Rollback a
              | Some (Ok (true, a)) => Commit db a
              | None =>
                  let db1 := set_commands db (housekeep t (delete (actor, key) (db_commands db))) in
                  if maxControlCommands <=? Z.of_nat (size (db_commands db1))
                  then Rollback (problem 503 "COMMAND_CAPACITY_EXCEEDED") else
                  let bef := digest (marshal current) in
                  let close db2 aft outcome rev a :=
                    let row := mkAuditRow actor (role_text (adminauth.aRole (account state))) "config.save_draft" "installation"
                      bef aft outcome (k_request tk) rev in
                    Commit (touch token t (remember actor key fingerprint t a (log_audit db2 row))) a in
                  match check_draft r raw current tk with
                  | Err a => close db1 bef "rejected" (control.Revision current) a
                  | Ok next =>
                      let next := with_revision next (control.Revision next + 1) in
                      let body := marshal next in
                      if MaxConfigBytes <? len body then Rollback (problem 422 "INVALID_CONFIG") else
                      (* the check of the column *)
                      if 9007199254740990 <=? control.Revision next then Fail unavailable else
                      close (set_config db1 (control.Revision next, next)) (digest body) "saved_draft" (control.Revision next)
                        (mkReply 200 body (configETag (control.Revision next)) false)
                  end
              end
          end
      end
  end.

(** ** Publication *)

Definition readDelivery (db : DB) : result error (control.Delivery * Z) :=
  let d := de_document (db_delivery db) in
  if delivery_valid d then Ok (d, de_generation (db_delivery db)) else Err unavailable.

Definition snapshot_for (s : PublicationService) (d : control.Delivery) (generation t : Z) : configtrust.Snapshot :=
  configtrust.mkSnapshot 1 (installation s) (generation + 1) (control.Revision (control.dConfig d)) (t / Second)
    ((t + 24 * Hour) / Second) (kid s) (marshal d).

(** [sign]: one complete envelope, under the checks of its row. *)
Definition sign (s : PublicationService) (d : control.Delivery) (generation t : Z) (db : DB) : result error DB :=
  if negb (delivery_valid d) then Err (EControl control.ErrInvalid) else
  match configtrust.Sign json_Valid (key s) (snapshot_for s d generation t) with
  | Err _ => Err (EControl control.ErrInvalid)
  | Ok raw =>
      if (9007199254740990 <=? generation + 1) || (len raw =? 0) then Err unavailable else
      Ok (set_delivery db (mkDeliveryRow d (generation + 1) (Some (mkPublication raw t (t + 24 * Hour)))))
  end.

(** The loop over the rooms published before: none may vanish or be renamed. *)
Definition room_kept (current : list control.Room) (old : control.Room) : option string :=
  if existsb (fun r => String.eqb (control.ID r) (control.ID old) && negb (String.eqb (control.PublicID r) (control.PublicID old))) current
  then Some "ROUTE_CONFLICT"
  else if existsb (fun r => String.eqb (control.ID r) (control.ID old)) current then None
  else Some "ROOM_REMOVAL_REQUIRES_ARCHIVE".
Fixpoint rooms_kept (current olds : list control.Room) : option string :=
  match olds with
  | [] => None
  | old :: olds' => match room_kept current old with Some code => Some code | None => rooms_kept current olds' end
  end.

Definition set_mode (r : control.Runtime) (m : string) : control.Runtime :=
  control.mkRuntime (control.rtRevision r) m (control.rtLimits r) (control.rtEpoch r) (control.rtEventState r) (control.rtRecoveryUntil r).
Definition set_limits (r : control.Runtime) (l : control.Limits) : control.Runtime :=
  control.mkRuntime (control.rtRevision r) (control.rtMode r) l (control.rtEpoch r) (control.rtEventState r) (control.rtRecoveryUntil r).
Definition set_event (r : control.Runtime) (e : string) : control.Runtime :=
  control.mkRuntime (control.rtRevision r) (control.rtMode r) (control.rtLimits r) (control.rtEpoch r) e (control.rtRecoveryUntil r).
Definition bump (r : control.Runtime) : control.Runtime :=
  control.mkRuntime (i64 (control.rtRevision r + 1)) (control.rtMode r) (control.rtLimits r) (control.rtEpoch r) (control.rtEventState r)
    (control.rtRecoveryUntil r).

(** An active room's routing cannot change under its queue. *)
Definition routing_changed (old room : control.Room) : bool :=
  negb (control.Active room) || negb (String.eqb (control.Origin old) (control.Origin room)) ||
  negb (String.eqb (control.Hostname old) (control.Hostname room)) || bool_decide (control.QPolicy old <> control.QPolicy room) ||
  bool_decide (control.ProtectPrefixes old <> control.ProtectPrefixes room) || bool_decide (control.excludes old <> control.excludes room).

(** The runtime of a room in the next delivery. *)
Definition next_runtime (previous : control.Delivery) (room : control.Room) : option control.Runtime :=
  match control.Find previous (control.ID room) with
  | Some (old, prior) =>
      if negb (String.eqb (control.rtMode prior) "OFF") && routing_changed old room then None else
      let runtime := set_limits (bump prior) (control.RLimits room) in
      let runtime := if negb (control.Active old) && control.Active room then set_mode runtime "HOLD" else runtime in
      Some (if negb (control.Active room) then set_mode runtime "OFF" else runtime)
  | None =>
      let runtime := control.InitialRuntime room in
      Some (match control.dRuntimes previous with
            | first :: _ =>
                control.mkRuntime (control.rtRevision runtime) (control.rtMode runtime) (control.rtLimits runtime)
                  (control.rtEpoch (control.rrRuntime first)) (control.rtEventState runtime)
                  (control.rtRecoveryUntil (control.rrRuntime first))
            | [] => runtime
            end)
  end.
Fixpoint next_runtimes (previous : control.Delivery) (rs : list control.Room) : option (list control.RoomRuntime) :=
  match rs with
  | [] => Some []
  | room :: rs' =>
      match next_runtime previous room with
      | None => None
      | Some v => match next_runtimes previous rs' with
                  | None => None
                  | Some vs => Some (control.mkRoomRuntime (control.ID room) v :: vs)
                  end
      end
  end.

Definition publish_body (s : PublicationService) (r : adminauth.request) (raw : string) (tk : tokens)
    (db : DB) (state : sessionSnapshot) (current : control.Config) : result error (DB * commandResult) :=
  let refuse bef status code := Ok (db, mkResult (replyProblem status code (k_reply tk)) bef "" 0) in
  if negb (String.eqb (adminauth.Method r) "POST") || negb (String.eqb raw "{}") then refuse "" 400 "INVALID_REQUEST" else
  if negb (String.eqb (adminauth.Get r "If-Match") (configETag (control.Revision current))) then refuse "" 412 "REVISION_MISMATCH" else
  match readDelivery db with
  | Err e => Err e
  | Ok (previous, generation) =>
      let bef := digest (marshal previous) in
      match rooms_kept (control.rooms current) (control.rooms (control.dConfig previous)) with
      | Some code => refuse bef 409 code
      | None =>
          match next_runtimes previous (control.rooms current) with
          | None => refuse bef 409 "ACTIVE_ROOM_CHANGE_REQUIRES_DRAIN"
          | Some vs =>
              let next := control.mkDelivery current vs in
              match sign s next generation (now state) db with
              | Err (EControl control.ErrInvalid) => refuse bef 422 "INVALID_CONFIG"
              | Err e => Err e
              | Ok db' =>
                  Ok (db', mkResult (mkReply 202 (json_published (generation + 1) (control.Revision current))
                                       (configETag (control.Revision current)) false)
                             bef (digest (marshal next)) (control.Revision current))
              end
          end
      end
  end.

Definition Publish (s : PublicationService) (token : string) (r : adminauth.request) (raw : string)
    (ck : clock) (tk : tokens) (db : DB) : outcome ControlReply :=
  command s token r raw adminauth.WriteConfig "config.publish" true (publish_body s r raw tk) ck tk db.

(** ** Operation *)

(** [UPDATE control_events SET state='paused_by_override' WHERE ...]. *)
Definition pending (e : control.Event) : bool :=
  String.eqb (control.eState e) "scheduled" || String.eqb (control.eState e) "running".
Definition set_state (e : control.Event) (st : string) : control.Event :=
  control.mkEvent (control.eID e) (control.eRoomID e) (control.ePrequeueAt e) (control.eAdmitAt e) (control.eDrainAt e) st.
Definition pause_events (sel : control.Event -> bool) (es : gmap string control.Event) : gmap string control.Event :=
  (fun e => if sel e && pending e then set_state e "paused_by_override" else e) <$> es.

(** Every runtime of the installation enters the next epoch, on hold. *)
Definition epoch_runtime (until : Z) (room : control.Room) (v : control.RoomRuntime) : control.RoomRuntime :=
  let r := control.rrRuntime v in
  control.mkRoomRuntime (control.rrRoomID v)
    (control.mkRuntime (i64 (control.rtRevision r + 1)) (if control.Active room then "HOLD" else "OFF") (control.rtLimits r)
       (u64 (control.rtEpoch r + 1))
       (if String.eqb (control.rtEventState r) "scheduled" || String.eqb (control.rtEventState r) "running"
        then "paused_by_override" else control.rtEventState r) until).
Definition new_epoch (until : Z) (d : control.Delivery) : control.Delivery :=
  control.mkDelivery (control.dConfig d) (zip_with (epoch_runtime until) (control.rooms (control.dConfig d)) (control.dRuntimes d)).

(** The loop that stores a room's runtime. *)
Definition set_runtime (d : control.Delivery) (id : string) (v : control.Runtime) : control.Delivery :=
  control.mkDelivery (control.dConfig d)
    ((fun x => if String.eqb (control.rrRoomID x) id then control.mkRoomRuntime (control.rrRoomID x) v else x) <$> control.dRuntimes d).

(** The switch over the actions of one room. *)
Definition operated (c : RuntimeCommand) (profile : string) (r : control.Runtime) : result (Z * string) control.Runtime :=
  if String.eqb (cAction c) "instant-off" then Ok (set_mode r "OFF")
  else if String.eqb (cAction c) "auto" then Ok (set_mode r "AUTO")
  else if String.eqb (cAction c) "hold" then Ok (set_mode r "HOLD")
  else if String.eqb (cAction c) "safe-drain" then Ok (set_mode r "DRAINING")
  else if String.eqb (cAction c) "set-limits" then
    match cLimits c with
    | Some l => if is_ok (control.Limits_Validate l profile) then Ok (set_limits r l) else Err (422, "INVALID_CONFIG")
    | None => Err (422, "INVALID_CONFIG")
    end
  else Err (403, "FORBIDDEN").

Definition operate_body (s : PublicationService) (id : string) (r : adminauth.request) (raw : string) (tk : tokens)
    (db : DB) (state : sessionSnapshot) (current : control.Config) : result error (DB * commandResult) :=
  let refuse db bef status code := Ok (db, mkResult (replyProblem status code (k_reply tk)) bef "" 0) in
  match (if String.eqb (adminauth.Method r) "PATCH" then decode_command raw else None) with
  | None => refuse db "" 400 "INVALID_REQUEST"
  | Some c =>
      match readDelivery db with
      | Err e => Err e
      | Ok (d, generation) =>
          let bef := digest (marshal d) in
          match control.Find d id with
          | None => refuse db bef 404 "NOT_FOUND"
          | Some (room, runtime) =>
              let answer db' (v : control.Runtime) d' :=
                Ok (db', mkResult (mkReply 200 (json_runtime v) (runtimeETag v) false) bef (digest (marshal d')) (control.rtRevision v)) in
              if negb (String.eqb (adminauth.Get r "If-Match") (runtimeETag runtime)) then refuse db bef 412 "REVISION_MISMATCH" else
              if String.eqb (cAction c) "new-epoch" then
                match cGeneration c with
                | Some g =>
                    if negb (String.eqb (cScope c) "installation") || bool_decide (is_Some (cLimits c)) || (g <? 1)
                    then refuse db bef 400 "INVALID_REQUEST" else
                    if negb (g =? generation) then refuse db bef 412 "REVISION_MISMATCH" else
                    if existsb (fun v => negb (control.rtEpoch (control.rrRuntime v) =? control.rtEpoch runtime)) (control.dRuntimes d)
                    then Err unavailable else
                    if 9007199254740989 <=? control.rtEpoch runtime then refuse db bef 409 "REVISION_MISMATCH" else
                    let d' := new_epoch ((now state + 3630 * Second) / 1000000) d in
                    match sign s d' generation (now state) (set_events db (pause_events (fun _ => true) (db_events db))) with
                    | Err e => Err e
                    | Ok db' => answer db' (from_option snd runtime (control.Find d' id)) d'
                    end
                | None => refuse db bef 400 "INVALID_REQUEST"
                end
              else
              if negb (String.eqb (cScope c) "") || bool_decide (is_Some (cGeneration c)) then refuse db bef 400 "INVALID_REQUEST" else
              if negb (control.Active room) then refuse db bef 409 "ROOM_INACTIVE" else
              if negb (String.eqb (cAction c) "set-limits") && bool_decide (is_Some (cLimits c))
              then refuse db bef 400 "INVALID_REQUEST" else
              match operated c (control.Profile current) runtime with
              | Err (status, code) => refuse db bef status code
              | Ok v =>
                  let mine e := String.eqb (control.eRoomID e) id in
                  let affected := existsb (fun kv => mine (snd kv) && pending (snd kv)) (map_to_list (db_events db)) in
                  let v := bump (if affected then set_event v "paused_by_override" else v) in
                  let d' := set_runtime d id v in
                  match sign s d' generation (now state) (set_events db (pause_events mine (db_events db))) with
                  | Err e => Err e
                  | Ok db' => answer db' v d'
                  end
              end
          end
      end
  end.

Definition Operate (s : PublicationService) (token id : string) (r : adminauth.request) (raw : string)
    (ck : clock) (tk : tokens) (db : DB) : outcome ControlReply :=
  match (if String.eqb (adminauth.Method r) "PATCH" then decode_command raw else None) with
  | None => Rollback (replyProblem 400 "INVALID_REQUEST" (k_reply tk))
  | Some input =>
      let action := if String.eqb (cAction input) "new-epoch" then adminauth.NewEpoch
                    else if String.eqb (cAction input) "instant-off" then adminauth.InstantOff else adminauth.OperateRuntime in
      command s token r raw action id true (operate_body s id r raw tk) ck tk db
  end.

(** ** Refresh, delivery and clock recovery *)

(** The kid in a stored envelope ([json.Unmarshal]). *)
Definition envelope_kid (raw : string) : option string :=
  match decode_strict (A := configtrust.envelope) raw with
  | None => None
  | Some e => match decode_strict (A := configtrust.Snapshot) (configtrust.eSnapshot e) with
              | None => None
              | Some s => Some (configtrust.Kid s)
              end
  end.

Definition Refresh (s : PublicationService) (t : Z) (db : DB) : outcome unit :=
  match readConfig db with
  | Err e => Fail e
  | Ok _ =>
      match readDelivery db with
      | Err e => Fail e
      | Ok (d, generation) =>
          let renew := match sign s d generation t db with Err e => Fail e | Ok db' => Commit db' tt end in
          match de_publication (db_delivery db) with
          | None => renew
          | Some p =>
              if t <? pb_issued p then Fail unavailable else
              match envelope_kid (pb_envelope p) with
              | None => Fail unavailable
              | Some k => if (t - pb_issued p <? 5 * Minute) && String.eqb k (kid s) then Commit db tt else renew
              end
          end
      end
  end.

(** [Envelope]: what a node is given. *)
Definition Envelope (t : Z) (db : DB) : result error string :=
  match de_publication (db_delivery db) with
  | Some p => if (t <? pb_expires p) && (pb_issued p <=? t) && negb (len (pb_envelope p) =? 0)
              then Ok (pb_envelope p) else Err unavailable
  | None => Err unavailable
  end.

(** [^[a-f0-9]{64}$]. *)
Definition hexDigest (s : string) : bool :=
  (len s =? 64) && forallb (fun a => control.in_range 97 102 a || control.is_digit a) (list_ascii_of_string s).

Definition data_role (node : string) : bool := String.eqb node "gateway" || String.eqb node "coordinator".

(** [request] is [json.Marshal] of the input. *)
Definition RecoverClock (s : PublicationService) (node : string) (i : configtrust.ClockRecovery) (request : string)
    (t : Z) (db : DB) : outcome string :=
  if negb (data_role node) then Fail (EAuth adminauth.ErrForbidden) else
  if (configtrust.rGeneration i =? 0) || (9007199254740990 <=? configtrust.rGeneration i) || (configtrust.rNotBefore i <=? 0) ||
     (253402214399 <? configtrust.rNotBefore i) || negb (hexDigest (configtrust.rDigest i)) then Fail (EControl control.ErrInvalid) else
  match readConfig db with
  | Err e => Fail e
  | Ok _ =>
      match readDelivery db with
      | Err e => Fail e
      | Ok (d, generation) =>
          match de_publication (db_delivery db) with
          | None => Fail unavailable
          | Some p =>
              if (t / Second <? configtrust.rNotBefore i) || (t <? pb_issued p) || negb (t <? pb_expires p) ||
                 (generation <? configtrust.rGeneration i) then Fail (EControl control.ErrConflict) else
              if (configtrust.rGeneration i <? generation) && (configtrust.rNotBefore i <=? pb_issued p / Second)
              then Commit db (pb_envelope p) else
              if ((generation =? configtrust.rGeneration i) && negb (String.eqb (digest (pb_envelope p)) (configtrust.rDigest i))) ||
                 (configtrust.rNotBefore i <? pb_issued p / Second) then Fail (EControl control.ErrConflict) else
              match sign s d generation t db with
              | Err e => Fail e
              | Ok db' =>
                  let raw := from_option pb_envelope "" (de_publication (db_delivery db')) in
                  Commit (log_audit db' (mkAuditRow ("system:" +:+ node) "system" "config.clock_recovery" "installation"
                            (digest (pb_envelope p)) (digest raw) "accepted" (digest request)
                            (control.Revision (control.dConfig d)))) raw
              end
          end
      end
  end.

(** ** Events *)

Definition event_before (a b : control.Event) : Prop :=
  control.ePrequeueAt a < control.ePrequeueAt b \/
  (control.ePrequeueAt a = control.ePrequeueAt b /\ String.leb (control.eID a) (control.eID b) = true).
#[local] Instance event_before_dec : RelDecision event_before.
Proof. intros a b. unfold event_before. apply _. Defined.

(** [SELECT ... WHERE room_id=$1 ORDER BY prequeue_at,id LIMIT 1001]. *)
Definition room_events (room : string) (es : gmap string control.Event) : list control.Event :=
  merge_sort event_before (List.filter (fun e => String.eqb (control.eRoomID e) room) (snd <$> map_to_list es)).
Definition readEvents (room : string) (db : DB) : result error (list control.Event) :=
  let es := take 1001 (room_events room (db_events db)) in
  if 1000 <? Z.of_nat (List.length es) then Err unavailable else Ok es.

Definition live (e : control.Event) : bool :=
  negb (String.eqb (control.eState e) "cancelled") && negb (String.eqb (control.eState e) "completed").

(** The event state of a room: the first paused or running event decides. *)
Fixpoint event_state (acc : string) (es : list control.Event) : string :=
  match es with
  | [] => acc
  | e :: es' =>
      if String.eqb (control.eState e) "paused_by_override" then "paused_by_override"
      else if String.eqb (control.eState e) "running" then "running"
      else event_state (if String.eqb (control.eState e) "scheduled" then "scheduled" else acc) es'
  end.

(** The event to write: a refusal, or the event. *)
Definition change (r : adminauth.request) (raw roomID eventID : string) (room : control.Room) (es : list control.Event)
    (t : Z) (fresh : string) : result (Z * string) control.Event :=
  let found := last (List.filter (fun e => String.eqb (control.eID e) eventID) es) in
  let inactive := match found with Some e => negb (live e) | None => true end in
  if negb (String.eqb eventID "") && inactive then Err (409, "EVENT_INACTIVE") else
  let base := default (control.mkEvent "" "" 0 0 0 "") found in
  if String.eqb (adminauth.Method r) "DELETE" then
    if negb (len raw =? 0) && negb (decode_empty raw) then Err (400, "INVALID_REQUEST")
    else Ok (set_state base "cancelled")
  else if negb (control.Active room) then Err (409, "ROOM_INACTIVE")
  else if negb (String.eqb eventID "") && String.eqb (adminauth.Method r) "POST" then
    if negb (decode_empty raw) then Err (400, "INVALID_REQUEST") else
    if negb (String.eqb (control.eState base) "paused_by_override") || negb (t <? control.eDrainAt base)
    then Err (409, "EVENT_INACTIVE") else Ok (set_state base "scheduled")
  else
    match decode_event raw with
    | None => Err (400, "INVALID_REQUEST")
    | Some input =>
        if negb (is_ok (control.EventInput_Validate input t)) then Err (422, "INVALID_EVENT") else
        if existsb (fun e => negb (String.eqb (control.eID e) eventID) && control.Overlaps e input) es then Err (409, "EVENT_OVERLAP") else
        if String.eqb eventID "" && (1000 <=? Z.of_nat (List.length es)) then Err (422, "EVENT_CAPACITY_EXCEEDED") else
        Ok (control.mkEvent (if String.eqb eventID "" then fresh else eventID) roomID (control.iPrequeueAt input)
              (control.iAdmitAt input) (control.iDrainAt input) "scheduled")
    end.

(** [INSERT ... ON CONFLICT(id) DO UPDATE]: the room of a row is kept. *)
Definition upsert_event (e : control.Event) (es : gmap string control.Event) : gmap string control.Event :=
  let room := from_option control.eRoomID (control.eRoomID e) (es !! control.eID e) in
  <[control.eID e := control.mkEvent (control.eID e) room (control.ePrequeueAt e) (control.eAdmitAt e) (control.eDrainAt e)
                       (control.eState e)]> es.

Definition event_body (s : PublicationService) (roomID eventID : string) (r : adminauth.request) (raw : string) (tk : tokens)
    (db : DB) (state : sessionSnapshot) (current : control.Config) : result error (DB * commandResult) :=
  let refuse bef status code := Ok (db, mkResult (replyProblem status code (k_reply tk)) bef "" 0) in
  let m := adminauth.Method r in
  if (String.eqb eventID "" && negb (String.eqb m "POST")) ||
     (negb (String.eqb eventID "") && negb (String.eqb m "PUT") && negb (String.eqb m "DELETE") && negb (String.eqb m "POST"))
  then refuse "" 405 "INVALID_REQUEST" else
  match readDelivery db with
  | Err e => Err e
  | Ok (d, generation) =>
      let bef := digest (marshal d) in
      match (if String.eqb eventID "" then Some roomID else control.eRoomID <$> db_events db !! eventID) with
      | None => refuse bef 404 "NOT_FOUND"
      | Some roomID =>
          match control.Find d roomID with
          | None => refuse bef 404 "NOT_FOUND"
          | Some (room, runtime) =>
              if negb (String.eqb (adminauth.Get r "If-Match") (runtimeETag runtime)) then refuse bef 412 "REVISION_MISMATCH" else
              match readEvents roomID db with
              | Err e => Err e
              | Ok es =>
                  match change r raw roomID eventID room es (now state) (k_event tk) with
                  | Err (status, code) => refuse bef status code
                  | Ok next =>
                      let db1 := set_events db (upsert_event next (db_events db)) in
                      match readEvents roomID db1 with
                      | Err e => Err e
                      | Ok es' =>
                          let v := bump (set_event runtime (event_state "none" es')) in
                          let d' := set_runtime d roomID v in
                          match sign s d' generation (now state) db1 with
                          | Err e => Err e
                          | Ok db' =>
                              Ok (db', mkResult (mkReply 200 (json_event next) (runtimeETag v) false) bef
                                         (digest (marshal d' +:+ json_event next)) (control.rtRevision v))
                          end
                      end
                  end
              end
          end
      end
  end.

Definition ChangeEvent (s : PublicationService) (token roomID eventID : string) (r : adminauth.request) (raw : string)
    (ck : clock) (tk : tokens) (db : DB) : outcome ControlReply :=
  let target := if String.eqb eventID "" then roomID +:+ "/events" else "events/" +:+ eventID in
  command s token r raw adminauth.WriteEvents target true (event_body s roomID eventID r raw tk) ck tk db.

(** ** Acknowledgements and the scheduler *)

Record NodeView := mkNodeView { vID : string; vNodeGeneration : Z; vObservedAt : Z; vFresh : bool; vRooms : list RoomMetrics }.
Record DeliveryView := mkView {
  vGeneration : Z; vRevision : Z; vState : string; vConfig : control.Config; vRuntimes : list control.RoomRuntime;
  vNodes : list NodeView
}.

(** The rows of [control_nodes], in the order of the two identifiers. *)
Definition node_view (t : Z) (kv : string * node_row) : NodeView :=
  let (id, n) := kv in
  mkNodeView id (no_generation n) (no_observed n) ((t - 15 * Second <? no_observed n) && (no_observed n <=? t)) (no_metrics n).
Definition node_rows (nodes : gmap string node_row) : list (string * node_row) :=
  omap (fun id => (fun n => (id, n)) <$> nodes !! id) ["coordinator"; "gateway"].

Definition deliveryView (d : control.Delivery) (generation t : Z) (db : DB) : DeliveryView :=
  let nodes := node_view t <$> node_rows (db_nodes db) in
  let applied := (List.length nodes =? 2)%nat && (0 <? generation) &&
                 forallb (fun n => (vNodeGeneration n =? generation) && vFresh n) nodes in
  mkView generation (control.Revision (control.dConfig d)) (if applied then "applied" else "pending") (control.dConfig d)
    (control.dRuntimes d) nodes.

(** The loops of [safeDrain]: the last matching metrics of each node decide. *)
Definition drain_step (room : string) (runtime : control.Runtime) (node : NodeView) (acc : bool * bool) (m : RoomMetrics)
    : bool * bool :=
  if negb (String.eqb (mRoomID m) room) || negb (String.eqb (mMode m) "DRAINING") ||
     negb (mRevision m =? control.rtRevision runtime) || negb (mEpoch m =? control.rtEpoch runtime) then acc else
  (if String.eqb (vID node) "coordinator" then (mWaiting m =? 0) && (mReady m =? 0) && (mRecoveryUntil m =? 0) else fst acc,
   if String.eqb (vID node) "gateway"
   then mOriginHealthy m && mArrivalWindowReady m &&
        (mArrivalsFiveMinutes m <=? control.AdmissionsPerMinute (control.rtLimits runtime) * 5) else snd acc).
Definition safeDrain (v : DeliveryView) (room : string) (runtime : control.Runtime) : bool :=
  if negb (String.eqb (vState v) "applied") then false else
  let '(q, o) := fold_left (fun acc node => fold_left (drain_step room runtime node) (vRooms node) acc) (vNodes v) (false, false) in
  q && o.

(** One room of [Tick]: the runtime and the events after it. *)
Definition tick_room (v : DeliveryView) (t : Z) (room : control.Room) (runtime : control.Runtime) (es : list control.Event)
    (events : gmap string control.Event) : control.Runtime * gmap string control.Event :=
  let active := List.find live es in
  let '(runtime, events) :=
    match active with
    | None => (runtime, events)
    | Some e =>
        let '(mode, st) := control.NextEventMode e t in
        if negb (String.eqb mode "") &&
           (negb (String.eqb mode (control.rtMode runtime)) || negb (String.eqb (control.eState e) st) ||
            negb (String.eqb (control.rtEventState runtime) st))
        then (set_event (set_mode runtime mode) st, alter (fun x => set_state x st) (control.eID e) events)
        else (runtime, events)
    end in
  if String.eqb (control.rtMode runtime) "DRAINING" && safeDrain v (control.ID room) runtime then
    let paused := match active with Some e => String.eqb (control.eState e) "paused_by_override" | None => false end in
    (set_event (set_mode runtime "OFF") (if paused then "paused_by_override" else "none"),
     match active with
     | Some e => if paused then events else alter (fun x => set_state x "completed") (control.eID e) events
     | None => events
     end)
  else (runtime, events).

(** The loop over the rooms: [i] is the index, [ids] the request tokens. *)
Fixpoint tick_rooms (v : DeliveryView) (t : Z) (ids : nat -> string) (i : nat) (rs : list control.Room) (d : control.Delivery)
    (changed : bool) (db : DB) : result error (DB * control.Delivery * bool) :=
  match rs with
  | [] => Ok (db, d, changed)
  | room :: rs' =>
      if negb (control.Active room) then tick_rooms v t ids (S i) rs' d changed db else
      match control.dRuntimes d !! i with
      | None => Err unavailable
      | Some old =>
          match readEvents (control.ID room) db with
          | Err e => Err e
          | Ok es =>
              let (runtime, events) := tick_room v t room (control.rrRuntime old) es (db_events db) in
              let db1 := set_events db events in
              if decide (runtime = control.rrRuntime old) then tick_rooms v t ids (S i) rs' d changed db1 else
              let runtime := bump runtime in
              let d' := control.mkDelivery (control.dConfig d)
                          (<[i := control.mkRoomRuntime (control.rrRoomID old) runtime]> (control.dRuntimes d)) in
              tick_rooms v t ids (S i) rs' d' true
                (log_audit db1 (mkAuditRow "system:scheduler" "system" "events.transition" (control.ID room) (digest (marshal d))
                                  (digest (marshal d')) "accepted" (ids i) (control.rtRevision runtime)))
          end
      end
  end.

(** [view] is the database clock when the view of the nodes is read. *)
Definition Tick (s : PublicationService) (t view : Z) (ids : nat -> string) (db : DB) : outcome unit :=
  match readConfig db with
  | Err e => Fail e
  | Ok _ =>
      match readDelivery db with
      | Err e => Fail e
      | Ok (d, generation) =>
          match tick_rooms (deliveryView d generation view db) t ids 0 (control.rooms (control.dConfig d)) d false db with
          | Err e => Fail e
          | Ok (db', d', changed) =>
              if negb changed then Commit db' tt else
              match sign s d' generation t db' with Err e => Fail e | Ok db'' => Commit db'' tt end
          end
      end
  end.

(** ** [Acknowledge] *)

Definition validHTTPErrorMetrics (nodeID : string) (m : RoomMetrics) : bool :=
  match mHTTP5xxLastMinute m with
  | None => negb (mHTTP5xxWindowReady m)
  | Some n => String.eqb nodeID "gateway" && (0 <=? n) && (n <=? 9007199254740989)
  end.
Definition recoveryReason (s : string) : bool :=
  bool_decide (s ∈ [""; "schema_migration"; "epoch_reset"; "primary_changed"; "uncertain_write"; "state_uncertain";
                    "clock_rollback"; "initialization_uncertainty"]).
Definition recoveryValidation (s : string) : bool :=
  bool_decide (s ∈ [""; "room_schema"; "room_cardinality"; "ticket_shape"; "waiting_index"; "admission_state"; "lease_index";
                    "expiry_owner_index"; "ticket_state"; "reservation_cardinality"; "idempotency_index"; "rate_window";
                    "validation_phase"; "installation_metadata"; "installation_cardinality"]).

(** The body of the loop over the acknowledged rooms; [expected] is the room of the index. *)
Definition metrics_ok (nodeID : string) (d : control.Delivery) (expected : control.Room) (m : RoomMetrics) : bool :=
  validHTTPErrorMetrics nodeID m &&
  match control.Find d (mRoomID m) with
  | None => false
  | Some (room, runtime) =>
      String.eqb (mRoomID m) (control.ID expected) && (mRevision m =? control.rtRevision runtime) &&
      (mEpoch m =? control.rtEpoch runtime) && (0 <=? mWaiting m) && (0 <=? mReady m) && (0 <=? mLeases m) && (0 <=? mRate m) &&
      (mWaiting m <=? 100000) && (mReady m <=? 100000) && (mLeases m <=? 100000) && (mRate m <=? 60000) &&
      (0 <=? mArrivalsFiveMinutes m) && (mArrivalsFiveMinutes m <=? 100000000) && (0 <=? mRecoveryUntil m) &&
      (String.eqb (mMode m) (control.rtMode runtime) || String.eqb (mMode m) "RECOVERY_HOLD") &&
      (control.Active room || String.eqb (mMode m) "OFF" || String.eqb (mMode m) "RECOVERY_HOLD") &&
      (mRecoveryFence m <? 9007199254740990) && recoveryReason (mRecoveryReason m) && recoveryValidation (mRecoveryValidation m)
  end.
Fixpoint rooms_acked (nodeID : string) (d : control.Delivery) (rs : list control.Room) (ms : list RoomMetrics) : bool :=
  match rs, ms with
  | r :: rs', m :: ms' => metrics_ok nodeID d r m && rooms_acked nodeID d rs' ms'
  | _, _ => true
  end.

Definition recoveryObserved (m : RoomMetrics) : recoveryObservation :=
  mkObservation (mRoomID m) (mEpoch m) (mRecoveryFence m) (String.eqb (mMode m) "RECOVERY_HOLD") (mRecoveryUntil m)
    (mRecoveryReason m) (mRecoveryValidation m).
Definition metrics_zero : RoomMetrics := mkMetrics "" 0 0 "" 0 0 0 0 false false 0 None false 0 0 "" "".

(** One room of [auditRecovery]. *)
Definition audit_room (olds : list RoomMetrics) (ids : string -> string) (m : RoomMetrics) (db : DB) : DB :=
  let b := recoveryObserved (default metrics_zero (last (List.filter (fun o => String.eqb (mRoomID o) (mRoomID m)) olds))) in
  let a := recoveryObserved m in
  let completed := negb (oHold b) && negb (oHold a) && (oFence b <? oFence a) && negb (String.eqb (oReason a) "") in
  if bool_decide (b = a) || (negb (oHold b) && negb (oHold a) && String.eqb (oValidation b) (oValidation a) && negb completed) then db else
  let outcome := if negb (String.eqb (oValidation a) "") then "validation_failed" else if oHold a then "held"
                 else if completed then "recovered_before_observation" else "resumed" in
  log_audit db (mkAuditRow "system:coordinator" "system" "runtime.recovery" (mRoomID m) (digest (json_observation b))
    (digest (json_observation a)) outcome (ids (mRoomID m)) (mRevision m)).
Definition auditRecovery (node : string) (ms : list RoomMetrics) (ids : string -> string) (db : DB) : DB :=
  if negb (String.eqb node "coordinator") then db else
  let olds := from_option no_metrics [] (db_nodes db !! node) in
  fold_left (fun db m => audit_room olds ids m db) ms db.

(** [ON CONFLICT ... WHERE generation <= EXCLUDED.generation]. *)
Definition upsert_node (node : string) (n : node_row) (nodes : gmap string node_row) : gmap string node_row :=
  match nodes !! node with
  | Some old => if no_generation old <=? no_generation n then <[node := n]> nodes else nodes
  | None => <[node := n]> nodes
  end.
Definition upsert_key (node : string) (n : key_row) (ks : gmap string key_row) : gmap string key_row :=
  match ks !! node with
  | Some old => if ke_generation old <=? ke_generation n then <[node := n]> ks else ks
  | None => <[node := n]> ks
  end.

(** Each statement reads the clock of the database. *)
Record ack_clock := mkAckClock { t_valid : Z; t_node : Z; t_key : Z }.

Definition Acknowledge (s : PublicationService) (node : string) (a : NodeAck) (ids : string -> string) (t : ack_clock) (db : DB)
    : outcome unit :=
  if negb (nKeyGeneration a =? keyGeneration s) || negb (String.eqb (nKeyDigest a) (keyDigest s))
  then Fail (EControl control.ErrConflict) else
  if negb (data_role node) then Fail (EAuth adminauth.ErrForbidden) else
  match readDelivery db with
  | Err e => Fail e
  | Ok (d, generation) =>
      match de_publication (db_delivery db) with
      | None => Fail unavailable
      | Some p =>
          if negb ((t_valid t <? pb_expires p) && (pb_issued p <=? t_valid t)) then Fail unavailable else
          if negb (generation =? nGeneration a) || negb (String.eqb (digest (pb_envelope p)) (nDigest a)) ||
             negb (List.length (nRooms a) =? List.length (control.rooms (control.dConfig d)))%nat
          then Fail (EControl control.ErrConflict) else
          if negb (rooms_acked node d (control.rooms (control.dConfig d)) (nRooms a)) then Fail (EControl control.ErrInvalid) else
          let db1 := auditRecovery node (nRooms a) ids db in
          Commit (set_nodes db1 (upsert_node node (mkNodeRow generation (nDigest a) (t_node t) (nRooms a)) (db_nodes db1))
                    (if 0 <? nKeyGeneration a then upsert_key node (mkKeyRow (nKeyGeneration a) (nKeyDigest a) (t_key t)) (db_keys db1)
                     else db_keys db1)) tt
      end
  end.

(** ** Histories *)

(** The transactions of the control plane. *)
Inductive pop :=
  | PReplaceDraft (token : string) (r : adminauth.request) (raw : string) (ck : clock) (tk : tokens)
  | PPublish (token : string) (r : adminauth.request) (raw : string) (ck : clock) (tk : tokens)
  | POperate (token id : string) (r : adminauth.request) (raw : string) (ck : clock) (tk : tokens)
  | PChangeEvent (token roomID eventID : string) (r : adminauth.request) (raw : string) (ck : clock) (tk : tokens)
  | PRefresh (t : Z)
  | PTick (t view : Z) (ids : nat -> string)
  | PAcknowledge (node : string) (a : NodeAck) (ids : string -> string) (t : ack_clock)
  | PRecoverClock (node : string) (i : configtrust.ClockRecovery) (request : string) (t : Z).

(** A transaction under a key of the deployment; the service may change with a key rotation. *)
Definition pexec (s : PublicationService) (o : pop) (f : fault) (db : DB) : DB :=
  match o with
  | PReplaceDraft token r raw ck tk => fst (finish f db (ReplaceDraft s token r raw ck tk db))
  | PPublish token r raw ck tk => fst (finish f db (Publish s token r raw ck tk db))
  | POperate token id r raw ck tk => fst (finish f db (Operate s token id r raw ck tk db))
  | PChangeEvent token room ev r raw ck tk => fst (finish f db (ChangeEvent s token room ev r raw ck tk db))
  | PRefresh t => fst (finish f db (Refresh s t db))
  | PTick t view ids => fst (finish f db (Tick s t view ids db))
  | PAcknowledge node a ids t => fst (finish f db (Acknowledge s node a ids t db))
  | PRecoverClock node i request t => fst (finish f db (RecoverClock s node i request t db))
  end.

Definition prun (db : DB) (ops : list (PublicationService * pop * fault)) : DB :=
  fold_left (fun db x => pexec (fst (fst x)) (snd (fst x)) (snd x) db) ops db.
End store.

(** [NewPublicationService] and [WithDeploymentKeys]; [NewOriginPolicy] accepted the origin. *)
Definition NewPublicationService (origin_ok : bool) (orig inst k : string) : option PublicationService :=
  if negb origin_ok || negb (len k =? PrivateKeySize) || negb (control.IDPattern inst) then None
  else Some (mkService "config-v1" 0 "" orig k inst).
Definition WithDeploymentKeys `{Codec keyring.KeySet} `{Sha256} `{Ed25519} (s : PublicationService) (keys : option keyring.KeySet)
    : option PublicationService :=
  match keys with
  | None => Some s
  | Some ks =>
      if negb (is_ok (keyring.Validate ks "control")) then None
      else Some (mkService (keyring.ConfigKid (keyring.Current ks)) (keyring.Generation ks) (keyring.Digest ks) (origin s)
                   (keyring.ConfigPrivate (keyring.Current ks)) (installation s))
  end.
End pgstore.
