(* ===== verification/PublicationExample.v ===== *)
(** * A concrete control plane

    An installation with two rooms, an administrator with a session and a
    fresh authentication, and executable stand-ins for the parameters of
    [Publication]: the witnesses of its theorems run on it. *)

From S2P Require Import Prelude GoStd Keyring Control ConfigTrust AdminAuth Publication.
From stdpp Require Import base list gmap strings sorting pretty.
From Stdlib Require Import ZArith Lia Ascii String.
Import pgstore.
Local Open Scope Z_scope.

Module example.

(** A digest of 32 characters. *)
Definition ex_sha256 : Sha256 := fun s =>
  adminauth.zero_padded 32 (fold_left (fun h b => (h * 257 + b + 1) mod 10 ^ 32) (bytes s) 7).

(** Each type has its text; the deliveries differ in their runtimes. *)
Definition ex_config_codec : Codec control.Config :=
  {| marshal c := "{config:" +:+ pretty (control.Revision c) +:+ "}"; GoStd.decode _ := None |}.
Definition runtime_text (v : control.RoomRuntime) : string :=
  let r := control.rrRuntime v in
  control.rrRoomID v +:+ ":" +:+ pretty (control.rtRevision r) +:+ control.rtMode r +:+ control.rtEventState r +:+ ";".
Definition ex_delivery_codec : Codec control.Delivery :=
  {| marshal d := "{" +:+ pretty (control.Revision (control.dConfig d)) +:+ ":" +:+
       fold_right String.append "}" (runtime_text <$> control.dRuntimes d);
     GoStd.decode _ := None |}.

Definition ex_service : PublicationService :=
  mkService "config-v1" 0 "" "https://admin.example" configtrust.wit_key "local".

Definition at_ (s : Z) : Z := s * Second.

(** The deliveries the examples publish: the first one, and the one in which
    the room "shop" was set to AUTO. *)
Definition ex_auto : control.Delivery :=
  match control.Find control.wit_delivery "shop" with
  | Some (_, v) => set_runtime control.wit_delivery "shop" (bump (set_mode v "AUTO"))
  | None => control.wit_delivery
  end.
Definition snapshot1 : configtrust.Snapshot := @snapshot_for ex_delivery_codec ex_service control.wit_delivery 0 (at_ 1000).
Definition snapshot2 : configtrust.Snapshot := @snapshot_for ex_delivery_codec ex_service ex_auto 1 (at_ 1100).
Definition snapshot3 : configtrust.Snapshot := @snapshot_for ex_delivery_codec ex_service control.wit_delivery 1 (at_ 1200).
Definition ex_carried (s : configtrust.Snapshot) : Prop := s = snapshot1 \/ s = snapshot2 \/ s = snapshot3.

Definition ex_snapshot_codec : Codec configtrust.Snapshot :=
  {| marshal s := if decide (s = snapshot1) then "1" else if decide (s = snapshot2) then "2"
                  else if decide (s = snapshot3) then "3" else "0";
     GoStd.decode r := if String.eqb r "1" then Some (snapshot1, "") else if String.eqb r "2" then Some (snapshot2, "")
                       else if String.eqb r "3" then Some (snapshot3, "") else None |}.
Lemma ex_snapshot_laws : @CodecLaws configtrust.Snapshot ex_snapshot_codec ex_carried.
Proof. intros s [->|[->| ->]]; vm_compute; reflexivity. Qed.

(** Bodies are their own decoding. *)
Definition ex_wire : Wire := {|
  json_Valid _ := true; url_Parse := control.wit_Parse; logo_ok := control.wit_logo;
  json_problem status code id := code; json_runtime v := "{runtime}"; json_published g r := "{published}";
  json_event e := "{event}"; json_observation o := "{observation}";
  decode_config _ := None;
  decode_command raw := Some (mkCommand raw None "" None);
  decode_event raw := if String.eqb raw "late" then Some (control.mkInput (at_ 5000) (at_ 6000) (at_ 7000))
                      else Some (control.mkInput (at_ 2000) (at_ 3000) (at_ 4000));
  decode_empty raw := String.eqb raw "{}"; SanitizeLogo s := Some s
|}.

#[export] Existing Instances ex_sha256 ex_config_codec ex_delivery_codec ex_snapshot_codec ex_wire
  configtrust.wit_envelope_codec configtrust.wit_ed ex_snapshot_laws configtrust.wit_envelope_laws configtrust.wit_gate_ed_laws.

(** ** The tables *)

Definition secret_of (c : ascii) : string := base64.EncodeToString (string_of_list_ascii (replicate 32 c)).
Definition ex_token : string := secret_of "s".
Definition ex_csrf : string := secret_of "c".
Definition ex_proof : string := secret_of "p".

(** A request of the administrator; [etag] is the revision of the runtime. *)
Definition ex_request (method etag : string) (key : string) : adminauth.request :=
  adminauth.mkRequest method (fun h =>
    if String.eqb h "Origin" then ["https://admin.example"]
    else if String.eqb h "X-CSRF-Token" then [ex_csrf]
    else if String.eqb h "Idempotency-Key" then [key]
    else if String.eqb h "If-Match" then [etag]
    else if String.eqb h "X-Reauth-Token" then [ex_proof] else []).
Definition rt_etag (n : Z) : string := quote +:+ "runtime-" +:+ pretty n +:+ quote.
Definition ex_operate : adminauth.request := ex_request "PATCH" (rt_etag 1) "operate-000000001".

Definition ex_clock (s : Z) : clock := mkClock (at_ s) (at_ s) (at_ s).
Definition ex_tokens : tokens := mkTokens "reply" "request" "event-1".

(** No account but the administrator's exists, and nobody has logged in. *)
Definition ex_auth : auth_tables := mkAuth ∅ ∅ ∅ ∅ ∅ ∅ (mkBootstrapRow true 1 None) ∅ true.
Definition ex_db : DB :=
  mkDB (adminauth.mkAuthPolicy adminauth.Configurable false 1) {["admin" := mkAccountRow adminauth.Admin true 1 false]} ∅
    {[sha256 ex_token := mkSessionRow "admin" 1 1 false (at_ 900) (at_ 950) (sha256 ex_csrf)]}
    {[sha256 ex_proof := mkProofRow (sha256 ex_token) "runtime.instant_off" "shop"
        (ActionRequestDigest "PATCH" "shop" (rt_etag 1) "instant-off") (at_ 990) (at_ 1290) false]}
    (Some (3, control.wit_config)) ∅ [] (mkDeliveryRow control.wit_delivery 0 None) ∅ ∅ ∅ ex_auth.
End example.
