(* ===== verification/PublicationProps.v ===== *)
(** * The control plane's store: properties

    Theorems on every history of the transactions of [Publication]: the
    published generations advance, a data node always accepts the next one,
    and a clock recovery reopens a quarantined node. *)

From S2P Require Import Prelude GoStd Keyring Control ConfigTrust AdminAuth Publication PublicationExample.
From stdpp Require Import base list gmap strings sorting pretty.
From Stdlib Require Import ZArith Lia Ascii String.
Import pgstore example.
Local Open Scope Z_scope.

Section props.
Context `{Sha256} `{Codec control.Config} `{Codec control.Delivery} `{Codec configtrust.Snapshot}
  `{Codec configtrust.envelope} `{Ed25519} `{Wire}.

(** ** What a transaction changes *)

(** The tables that decide what is published. *)
Definition core (db : DB) : option (Z * control.Config) * delivery_row * gmap string control.Event * gmap string node_row :=
  (db_config db, db_delivery db, db_events db, db_nodes db).

Lemma finish_step {A} (P : DB -> Prop) f db (o : outcome A) :
  P db -> (forall db' a, o = Commit db' a -> P db') -> P (fst (finish f db o)).
Proof. intros H0' Hc. destruct f, o; simpl; eauto. Qed.

Lemma touch_core token t db : core (touch token t db) = core db.
Proof. unfold touch. destruct (tokenHash token) as [h|]; [|done]. by destruct (db_sessions db !! h). Qed.

Lemma consumeReauth_core token r action target raw t db db' :
  consumeReauth token r action target raw t db = Ok db' -> core db' = core db.
Proof.
  unfold consumeReauth. case_if as E1; [done|]. destruct (tokenHash _) as [h|]; [|done].
  destruct (db_proofs db !! h) as [p|]; [|done]. case_if as E2; [|done]. by intros [= <-].
Qed.

(** A command that commits answered a replay or ran its body. *)
Lemma command_commit s token r raw action target etag body ck tk db db' a :
  command s token r raw action target etag body ck tk db = Commit db' a ->
  db' = db \/
  exists db2 state current db3 res, core db2 = core db /\ readConfig db = Ok current /\ now state = t_command ck /\
    body db2 state current = Ok (db3, res) /\ core db' = core db3.
Proof.
  unfold command. case_if as E1; [done|]. case_if as E2; [done|]. case_if as E3; [done|].
  destruct (beginCommand _ _ _ _ _ _ _) as [state|]; [|done]. destruct (readConfig db) as [current|] eqn:Ec; [|done].
  destruct (adminauth.CheckSession _ _ _ _); [|done]. set (rp := replayed _ _ _ _). clearbody rp.
  destruct rp as [[[[] ?]|]|]; [intros [= <- _]; by left | done | done |]. case_if as E4; [done|].
  destruct (if _ : bool then consumeReauth _ _ _ _ _ _ _ else _) as [db2|] eqn:E5; [|done].
  destruct (body db2 _ current) as [[db3 res]|] eqn:Eb; [|done]. case_if as E6; [done|]. intros [= <- _]. right.
  eexists db2, _, current, db3, res. split_and!; [| done | | exact Eb | by rewrite touch_core]; [|done].
  split_if; [by apply consumeReauth_core in E5 as -> | by injection E5 as <-].
Qed.

Lemma sign_ok s d g t db db' :
  sign s d g t db = Ok db' ->
  delivery_valid d = true /\ g + 1 < 9007199254740990 /\
  exists raw, configtrust.Sign json_Valid (key s) (snapshot_for s d g t) = Ok raw /\ len raw <> 0 /\
    db' = set_delivery db (mkDeliveryRow d (g + 1) (Some (mkPublication raw t (t + 24 * Hour)))).
Proof.
  unfold sign. destruct (delivery_valid d) eqn:Ed; [|done]. simpl. destruct (configtrust.Sign _ _ _) as [raw|]; [|done].
  case_if as E; [done|]. intros [= <-]. to_prop. split_and!; [done | lia |]. by exists raw.
Qed.

Lemma readDelivery_ok db d g :
  readDelivery db = Ok (d, g) -> d = de_document (db_delivery db) /\ g = de_generation (db_delivery db) /\ delivery_valid d = true.
Proof. unfold readDelivery. destruct (delivery_valid _) eqn:E; [|done]. by intros [= <- <-]. Qed.

(** ** The published generations *)

Definition draft_revision (db : DB) : Z := from_option fst 0 (db_config db).
Definition doc_revision (db : DB) : Z := control.Revision (control.dConfig (de_document (db_delivery db))).

(** The delivery is unchanged, or signed as the next generation. *)
Definition signed_next (db db' : DB) : Prop :=
  exists s d t raw, configtrust.Sign json_Valid (key s) (snapshot_for s d (de_generation (db_delivery db)) t) = Ok raw /\
    len raw <> 0 /\ delivery_valid d = true /\ doc_revision db <= control.Revision (control.dConfig d) <= draft_revision db' /\
    db_delivery db' = mkDeliveryRow d (de_generation (db_delivery db) + 1) (Some (mkPublication raw t (t + 24 * Hour))).

Record pub_step (db db' : DB) : Prop := {
  ps_draft : draft_revision db <= draft_revision db';
  ps_delivery : db_delivery db' = db_delivery db \/ signed_next db db'
}.

(** The published revision never overtakes the draft. *)
Definition pub_inv (db : DB) : Prop := 0 <= de_generation (db_delivery db) /\ doc_revision db <= draft_revision db.

Lemma pub_step_refl db : pub_step db db.
Proof. constructor; [done | by left]. Qed.
#[local] Hint Resolve pub_step_refl : core.

Lemma pub_step_core db db1 db2 : core db1 = core db -> pub_step db db2 -> pub_step db1 db2.
Proof.
  intros [= Ec Ed Ee En] [H1' H2']. constructor; unfold signed_next, draft_revision, doc_revision in *; by rewrite ?Ec, ?Ed.
Qed.
Lemma pub_step_core_r db db1 db2 : core db2 = core db1 -> pub_step db db1 -> pub_step db db2.
Proof.
  intros [= Ec Ed Ee En] [H1' H2']. constructor; unfold signed_next, draft_revision, doc_revision in *; by rewrite ?Ec, ?Ed.
Qed.

(** Signing a delivery of the stored configuration, on other events. *)
Lemma sign_same_config s d g t db1 db db' :
  db_config db1 = db_config db -> db_delivery db1 = db_delivery db -> pub_inv db ->
  readDelivery db = Ok (d, g) -> forall d', control.dConfig d' = control.dConfig d ->
  sign s d' g t db1 = Ok db' -> pub_step db db'.
Proof.
  intros Ec Ed [Hg Hr] (-> & -> & Hv)%readDelivery_ok d' Ed' (Hd & Hb & raw & Hs & Hl & ->)%sign_ok. constructor; simpl.
  - unfold draft_revision. simpl. by rewrite Ec.
  - right. exists s, d', t, raw. unfold doc_revision, draft_revision in *. simpl. rewrite Ed', Ec. split_and!; done || lia.
Qed.

Lemma readConfig_ok db c : readConfig db = Ok c -> draft_revision db = control.Revision c /\ db_config db = Some (control.Revision c, c).
Proof.
  unfold readConfig, draft_revision. destruct (db_config db) as [[rev c']|]; [|done]. case_if as E; [done|]. intros [= ->].
  to_prop. by subst.
Qed.
Lemma readConfig_core db db' : core db' = core db -> readConfig db' = readConfig db.
Proof. intros [= Ec _ _ _]. unfold readConfig. by rewrite Ec. Qed.
Lemma pub_inv_core db db' : core db' = core db -> pub_inv db -> pub_inv db'.
Proof. intros [= Ec Ed _ _]. unfold pub_inv, doc_revision, draft_revision. by rewrite Ec, Ed. Qed.

Lemma publish_body_step s r raw tk db state current db' res :
  pub_inv db -> readConfig db = Ok current -> publish_body s r raw tk db state current = Ok (db', res) -> pub_step db db'.
Proof.
  intros Hi [Hc Hcf]%readConfig_ok. unfold publish_body. case_if as E1; [by intros [= <- _]|]. case_if as E2; [by intros [= <- _]|].
  destruct (readDelivery db) as [[d g]|] eqn:Er; [|done]. apply readDelivery_ok in Er as (-> & -> & Hv).
  destruct (rooms_kept _ _); [by intros [= <- _]|]. destruct (next_runtimes _ _) as [vs|]; [|by intros [= <- _]].
  destruct (sign _ _ _ _ _) as [db1|[|[]|]] eqn:Es; try done; [|by intros [= <- _]]. intros [= <- _].
  apply sign_ok in Es as (Hd & Hb & raw' & Hs & Hl & ->). destruct Hi as [Hg Hr]. constructor; [done|]. right.
  exists s, (control.mkDelivery current vs), (now state), raw'. unfold doc_revision in *. simpl.
  split_and!; try done; [|unfold draft_revision; simpl; fold (draft_revision db)]; lia.
Qed.

Lemma operate_body_step s id r raw tk db state current db' res :
  pub_inv db -> operate_body s id r raw tk db state current = Ok (db', res) -> pub_step db db'.
Proof.
  intros Hi. unfold operate_body. destruct (if _ : bool then _ else _) as [c|]; [|by intros [= <- _]].
  destruct (readDelivery db) as [[d g]|] eqn:Er; [|done]. destruct (control.Find d id) as [[room v]|]; [|by intros [= <- _]].
  case_if as E1; [by intros [= <- _]|]. case_if as E2.
  - destruct (cGeneration c) as [g'|]; [|by intros [= <- _]]. do 2 (case_if as E3; [by intros [= <- _]|]; clear E3).
    case_if as E5; [done|]. case_if as E6; [by intros [= <- _]|].
    destruct (sign _ _ _ _ _) as [db1|] eqn:Es; [|done]. intros [= <- _].
    by eapply sign_same_config in Es; [| | | exact Hi | exact Er |].
  - case_if as E3; [by intros [= <- _]|]. case_if as E4; [by intros [= <- _]|]. case_if as E5; [by intros [= <- _]|].
    destruct (operated _ _ _) as [v'|[]]; [|by intros [= <- _]].
    destruct (sign _ _ _ _ _) as [db1|] eqn:Es; [|done]. intros [= <- _].
    by eapply sign_same_config in Es; [| | | exact Hi | exact Er |].
Qed.

Lemma event_body_step s room ev r raw tk db state current db' res :
  pub_inv db -> event_body s room ev r raw tk db state current = Ok (db', res) -> pub_step db db'.
Proof.
  intros Hi. unfold event_body. case_if as E1; [by intros [= <- _]|].
  destruct (readDelivery db) as [[d g]|] eqn:Er; [|done]. destruct (if _ : bool then _ else _) as [room'|]; [|by intros [= <- _]].
  destruct (control.Find d room') as [[rm v]|]; [|by intros [= <- _]]. case_if as E2; [by intros [= <- _]|].
  destruct (readEvents room' db) as [es|]; [|done]. destruct (change _ _ _ _ _ _ _ _) as [next|[]]; [|by intros [= <- _]].
  destruct (readEvents room' _) as [es'|]; [|done]. destruct (sign _ _ _ _ _) as [db1|] eqn:Es; [|done]. intros [= <- _].
  by eapply sign_same_config in Es; [| | | exact Hi | exact Er |].
Qed.

Lemma tick_rooms_core v t ids i rs d ch db db' d' ch' :
  tick_rooms v t ids i rs d ch db = Ok (db', d', ch') ->
  db_config db' = db_config db /\ db_delivery db' = db_delivery db /\ db_nodes db' = db_nodes db /\
  control.dConfig d' = control.dConfig d.
Proof.
  revert i d ch db. induction rs as [|room rs IH]; intros i d ch db; simpl; [by intros [= <- <- _]|].
  case_if as E1; [by apply IH|]. destruct (control.dRuntimes d !! i) as [old|]; [|done].
  destruct (readEvents _ db) as [es|]; [|done]. destruct (tick_room _ _ _ _ _ _) as [v' evs].
  case_decide as E2; intros Ht; apply IH in Ht as (-> & -> & -> & ->); done.
Qed.

Lemma NormalizeThemeImages_revision c c' : NormalizeThemeImages c = Some c' -> control.Revision c' = control.Revision c.
Proof.
  unfold NormalizeThemeImages. destruct (control.Rooms c) as [rs|]; [|by intros [= <-]].
  destruct (normalize_rooms rs); [|done]. by intros [= <-].
Qed.

Lemma check_draft_ok r raw current tk next :
  check_draft r raw current tk = Ok next ->
  control.Revision next = control.Revision current /\ control.Validate url_Parse logo_ok next = Ok tt.
Proof.
  unfold check_draft. case_if as E1; [done|]. destruct (decode_config raw) as [n|]; [|done]. case_if as E2; [done|].
  destruct (NormalizeThemeImages n) as [n'|] eqn:En; [|done]. apply NormalizeThemeImages_revision in En.
  destruct (control.Validate _ _ n') as [[]|[]] eqn:Ev; try done. case_if as E3; [|done]. intros [= <-]. to_prop.
  split; [congruence | done].
Qed.

(** Saving a draft touches neither the delivery nor the events. *)
Lemma ReplaceDraft_tables s token r raw ck tk db db' a :
  ReplaceDraft s token r raw ck tk db = Commit db' a ->
  draft_revision db <= draft_revision db' /\ db_delivery db' = db_delivery db /\ db_events db' = db_events db.
Proof.
  assert (forall db1 db2, core db2 = core db1 -> draft_revision db <= draft_revision db1 /\ db_delivery db1 = db_delivery db /\
    db_events db1 = db_events db -> draft_revision db <= draft_revision db2 /\ db_delivery db2 = db_delivery db /\ db_events db2 = db_events db) as Hcore.
  { intros db1 db2 [= Ec Ed Ee _]. unfold draft_revision. by rewrite Ec, Ed, Ee. }
  unfold ReplaceDraft. case_if as E1; [done|]. case_if as E2; [done|]. case_if as E3; [done|]. case_if as E4; [done|].
  destruct (beginCommand _ _ _ _ _ _ _) as [state|]; [|done]. destruct (readConfig db) as [current|] eqn:Ec; [|done].
  destruct (adminauth.CheckSession _ _ _ _); [|done]. set (rp := replayed _ _ _ _). clearbody rp.
  destruct rp as [[[[] ?]|]|]; [by intros [= <- _] | done | done |]. case_if as E5; [done|].
  apply readConfig_ok in Ec as [Hc Hcf].
  destruct (check_draft _ _ _ _) as [next|] eqn:En.
  - apply check_draft_ok in En as [En _]. case_if as E6; [done|]. case_if as E7; [done|]. intros [= <- _].
    eapply Hcore; [by rewrite touch_core|]. simpl. split_and!; [|done|done]. unfold draft_revision in *. simpl. lia.
  - intros [= <- _]. by apply (Hcore db); [rewrite touch_core|].
Qed.

Lemma auditRecovery_core node ms ids db : core (auditRecovery node ms ids db) = core db.
Proof.
  unfold auditRecovery. case_if as E; [done|]. set (olds := from_option _ _ _). clearbody olds.
  apply (fold_left_ind (fun db' => core db' = core db)); [done|]. intros db1 m _ IH. rewrite <- IH.
  unfold audit_room. by case_if as E1.
Qed.

Lemma pexec_step s o f db : pub_inv db -> pub_step db (pexec s o f db).
Proof.
  intros Hi. assert (forall body db' token r raw action target ck tk a,
    (forall db2 state current db3 res, pub_inv db2 -> readConfig db2 = Ok current -> body db2 state current = Ok (db3, res) -> pub_step db2 db3) ->
    command s token r raw action target true body ck tk db = Commit db' a -> pub_step db db') as Hcmd.
  { intros body db' token r raw action target ck tk a Hbody Hcm.
    apply command_commit in Hcm as [->|(db2 & state & current & db3 & res & E2 & Ec & _ & Hb & E3)]; [done|].
    eapply pub_step_core_r; [exact E3|]. eapply pub_step_core; [symmetry; exact E2|].
    eapply Hbody; [by eapply pub_inv_core | by rewrite (readConfig_core _ _ E2) | exact Hb]. }
  destruct o; simpl; apply (finish_step (pub_step db)); try done; intros db' a'.
  - intros (Hd & Ed & _)%ReplaceDraft_tables. constructor; [done | by left].
  - apply Hcmd. intros *. apply publish_body_step.
  - unfold Operate. destruct (if _ : bool then _ else _); [|done]. apply Hcmd. intros * ? _. by apply operate_body_step.
  - apply Hcmd. intros * ? _. by apply event_body_step.
  - unfold Refresh. destruct (readConfig db); [|done]. destruct (readDelivery db) as [[d g]|] eqn:Er; [|done].
    assert (forall o, (match sign s d g t db with Err e => Fail e | Ok db' => Commit db' tt end) = o -> o = Commit db' a' -> pub_step db db')
      as Hs. { intros o <-. destruct (sign _ _ _ _ _) as [db1|] eqn:Es; [|done]. intros [= <- _]. by eapply sign_same_config in Es. }
    destruct (de_publication _) as [p|]; [|by apply Hs]. case_if as E1; [done|]. destruct (envelope_kid _); [|done].
    case_if as E2; [by intros [= <- _] | by apply Hs].
  - unfold Tick. destruct (readConfig db); [|done]. destruct (readDelivery db) as [[d g]|] eqn:Er; [|done].
    destruct (tick_rooms _ _ _ _ _ _ _ _) as [[[db1 d1] ch]|] eqn:Et; [|done].
    apply tick_rooms_core in Et as (Ec & Ed & En & Ecf). case_if as E1.
    + intros [= <- _]. constructor; [unfold draft_revision; by rewrite Ec | by left].
    + destruct (sign _ _ _ _ _) as [db2|] eqn:Es; [|done]. intros [= <- _]. by eapply sign_same_config in Es.
  - unfold Acknowledge. case_if as E1; [done|]. case_if as E2; [done|]. destruct (readDelivery db) as [[d g]|]; [|done].
    destruct (de_publication _) as [p|]; [|done]. case_if as E3; [done|]. case_if as E4; [done|]. case_if as E5; [done|].
    intros [= <- _]. pose proof (auditRecovery_core node (nRooms a) ids db) as [= Ec Ed _ _].
    constructor; simpl; [unfold draft_revision; simpl; by rewrite Ec | left; by rewrite Ed].
  - unfold RecoverClock. case_if as E1; [done|]. case_if as E2; [done|]. destruct (readConfig db); [|done].
    destruct (readDelivery db) as [[d g]|] eqn:Er; [|done]. destruct (de_publication _) as [p|]; [|done].
    case_if as E3; [done|]. case_if as E4; [by intros [= <- _]|]. case_if as E5; [done|].
    destruct (sign _ _ _ _ _) as [db1|] eqn:Es; [|done]. intros [= <- _]. eapply sign_same_config in Es; try done.
    by eapply pub_step_core_r; [|exact Es].
Qed.

Definition snapshot_of (db : DB) (p : publication) (s : PublicationService) : configtrust.Snapshot :=
  snapshot_for s (de_document (db_delivery db)) (de_generation (db_delivery db) - 1) (pb_issued p).

(** What is published is signed for the stored document and generation. *)
Definition published (db : DB) (p : publication) (s : PublicationService) : Prop :=
  de_publication (db_delivery db) = Some p /\ pb_expires p = pb_issued p + 24 * Hour /\ len (pb_envelope p) <> 0 /\
  configtrust.Sign json_Valid (key s) (snapshot_of db p s) = Ok (pb_envelope p) /\
  delivery_valid (de_document (db_delivery db)) = true.

Definition pub_ok (db : DB) : Prop :=
  pub_inv db /\ forall p, de_publication (db_delivery db) = Some p -> exists s, published db p s.

Lemma pub_step_inv db db' : pub_step db db' -> pub_ok db -> pub_ok db'.
Proof.
  intros [Hd Hs] [[Hg Hr] Hp]. destruct Hs as [E|(s & d & t & raw & Hsig & Hl & Hv & Hrev & E)].
  - split; [unfold pub_inv, doc_revision in *; rewrite E; split; [done | lia]|]. intros p. unfold published, snapshot_of. rewrite E. apply Hp.
  - split; [unfold pub_inv, doc_revision in *; rewrite E; simpl; lia|]. intros p. unfold published, snapshot_of. rewrite E. simpl. intros [= <-].
    exists s. rewrite Z.add_simpl_r. by split_and!.
Qed.

Lemma prun_ok db ops : pub_ok db -> pub_ok (prun db ops).
Proof.
  intros Hok. unfold prun. apply (fold_left_ind pub_ok); [done|]. intros db1 x _ H1'. eapply pub_step_inv; [|exact H1'].
  apply pexec_step, H1'.
Qed.

(** A later database publishes a later snapshot. *)
Definition later (db db' : DB) : Prop :=
  de_generation (db_delivery db) <= de_generation (db_delivery db') /\ doc_revision db <= doc_revision db' /\
  (de_generation (db_delivery db) = de_generation (db_delivery db') -> db_delivery db = db_delivery db').

Lemma pub_step_later db db' : pub_step db db' -> later db db'.
Proof.
  intros [_ [E|(s & d & t & raw & _ & _ & _ & Hrev & E)]]; unfold later, doc_revision in *; rewrite E; simpl; split_and!; done || lia.
Qed.

#[local] Instance later_preorder : PreOrder later.
Proof.
  split; [done|]. intros a b c (? & ? & E1) (? & ? & E2). split_and!; [lia | lia |]. intros E. rewrite E1 by lia. apply E2. lia.
Qed.

Lemma prun_later db ops : pub_ok db -> later db (prun db ops).
Proof.
  revert db. induction ops as [|x ops IH]; intros db Hok; [done|]. simpl.
  pose proof (pexec_step (fst (fst x)) (snd (fst x)) (snd x) db (proj1 Hok)) as Hs.
  etrans; [by apply pub_step_later|]. apply IH. by eapply pub_step_inv.
Qed.

(** ** The data nodes *)

(** A gate takes a newer snapshot that verifies, or the one it has. *)
Lemma apply_accepts (validate : string -> bool) {St Fault} `{configtrust.Store St Fault} g (st : St) r t (f : Fault) sn :
  configtrust.failed g = false -> configtrust.lastClock g <= configtrust.Unix t ->
  configtrust.verify json_Valid validate g r = Ok sn -> configtrust.IssuedAt sn <= configtrust.Unix t < configtrust.ExpiresAt sn ->
  (configtrust.Generation (configtrust.current g) < configtrust.Generation sn \/
   (configtrust.Generation (configtrust.current g) = configtrust.Generation sn /\ r = configtrust.raw g /\
    configtrust.clockHold g = false)) ->
  configtrust.Revision (configtrust.current g) <= configtrust.Revision sn ->
  (configtrust.clockHold g = true -> configtrust.recoveryAfter g <= configtrust.IssuedAt sn) ->
  snd (configtrust.Save st r f) = Ok tt ->
  exists g' st', configtrust.applyLocked json_Valid validate g st r t f = (g', st', Ok tt) /\
    (configtrust.current g' = sn \/ configtrust.current g' = configtrust.current g /\
       configtrust.Generation (configtrust.current g) = configtrust.Generation sn) /\
    configtrust.raw g' = r /\ configtrust.clockHold g' = false /\ configtrust.failed g' = false /\
    configtrust.lastClock g' = configtrust.Unix t.
Proof.
  intros Hf Hc Hv Ht Hg Hr Hh Hs. unfold configtrust.applyLocked. rewrite Hf. unfold configtrust.clock.
  rewrite (proj2 (Z.ltb_ge _ _) Hc). cbn [negb].
  change (configtrust.verify json_Valid validate (configtrust.mkGate _ _ _ _ _ _ _ _ _ _) r) with
    (configtrust.verify json_Valid validate g r). rewrite Hv. cbn [configtrust.current configtrust.clockHold configtrust.raw configtrust.recoveryAfter].
  rewrite (proj2 (Z.ltb_ge (configtrust.Unix t) _)), (proj2 (Z.leb_gt (configtrust.ExpiresAt sn) _)) by lia. cbn [orb].
  destruct Hg as [Hg|(Hg & -> & Hh')].
  - rewrite !(proj2 (Z.ltb_ge _ _)) by lia. cbn [orb]. rewrite (proj2 (Z.leb_gt _ _) Hg). cbn [orb].
    assert (configtrust.clockHold g && (configtrust.IssuedAt sn <? configtrust.recoveryAfter g) = false) as ->.
    { destruct (configtrust.clockHold g); [|done]. simpl. apply Z.ltb_ge. by apply Hh. }
    rewrite (proj2 (Z.eqb_neq _ _)) by lia. destruct (configtrust.Save st r f) as [st' [[]|]]; [|done].
    eexists _, st'. split_and!; try done. by left.
  - rewrite Hg, Z.ltb_irrefl, (proj2 (Z.ltb_ge _ _) Hr), Hh', Z.eqb_refl, String.eqb_refl. simpl. eexists _, st.
    split_and!; try done. by right.
Qed.

Lemma RecoverClock_ok s node i request t db db' raw :
  RecoverClock s node i request t db = Commit db' raw ->
  exists p, de_publication (db_delivery db') = Some p /\ raw = pb_envelope p /\
    configtrust.rGeneration i < de_generation (db_delivery db') /\ configtrust.rNotBefore i <= pb_issued p / Second.
Proof.
  unfold RecoverClock. case_if as E1; [done|]. case_if as E2; [done|]. destruct (readConfig db); [|done].
  destruct (readDelivery db) as [[d g]|] eqn:Er; [|done]. apply readDelivery_ok in Er as (-> & -> & _).
  destruct (de_publication (db_delivery db)) as [p|] eqn:Ep; [|done]. case_if as E3; [done|]. to_prop. case_if as E4.
  { intros [= <- <-]. to_prop. exists p. by split_and!. }
  case_if as E5; [done|]. destruct (sign _ _ _ _ _) as [db1|] eqn:Es; [|done]. intros [= <- <-].
  apply sign_ok in Es as (_ & _ & raw' & _ & _ & ->). simpl. eexists. split_and!; [done | done | lia | done].
Qed.

Lemma RecoveryRequest_ok g i :
  configtrust.RecoveryRequest (Some g) = Some i ->
  configtrust.rGeneration i = configtrust.Generation (configtrust.current g) /\ configtrust.rNotBefore i = configtrust.recoveryAfter g.
Proof. unfold configtrust.RecoveryRequest. case_if as E; [done|]. by intros [= <-]. Qed.

Section nodes.
Context (cs : configtrust.Snapshot -> Prop) (ce : configtrust.envelope -> Prop)
  `{!CodecLaws configtrust.Snapshot cs} `{!CodecLaws configtrust.envelope ce} `{!Ed25519Laws}.
(** The validator of the gates, [control.ValidateDelivery], takes the bytes of a valid delivery. *)
Context (validate : string -> bool).
Context {St Fault : Type} `{configtrust.Store St Fault}.

(** JSON carries the snapshot and its envelope. *)
Definition carried (sn : configtrust.Snapshot) : Prop := cs sn /\ forall sig, ce (configtrust.mkEnvelope (marshal sn) sig).

(** A gate of the installation that trusts the publisher. *)
Record node_of (s : PublicationService) (g : configtrust.Gate) : Prop := {
  n_key : configtrust.keys g !! kid s = Some (PublicOf (key s));
  n_installation : configtrust.installation g = installation s;
  n_minimum : configtrust.minimum g = 1;
  n_failed : configtrust.failed g = false
}.

(** What the gate holds: nothing yet, or what the database published. *)
Definition holds_publication (g : configtrust.Gate) (db : DB) : Prop :=
  configtrust.current g = configtrust.Snapshot_zero \/
  exists p s, published db p s /\ configtrust.current g = snapshot_of db p s /\ configtrust.raw g = pb_envelope p.

Lemma published_verifies db p s g :
  0 < de_generation (db_delivery db) -> published db p s -> node_of s g -> carried (snapshot_of db p s) ->
  validate (marshal (de_document (db_delivery db))) = true ->
  configtrust.verify json_Valid validate g (pb_envelope p) = Ok (snapshot_of db p s).
Proof.
  intros Hg (_ & _ & Hl & Hs & _) [Hk Hi Hm _] [Hcs Hce] Hv.
  eapply (configtrust.verify_Sign cs ce); eauto; simpl; lia || congruence.
Qed.

Lemma delivery_revision d : delivery_valid d = true -> 0 <= control.Revision (control.dConfig d).
Proof.
  unfold delivery_valid, control.Delivery_Validate.
  destruct (control.Validate url_Parse logo_ok (control.dConfig d)) as [[]|] eqn:Ev; [|done]. intros _.
  unfold control.Validate in Ev. destruct (control.Rooms _); [|done].
  match type of Ev with (if ?b then _ else _) = _ => destruct b eqn:E; [done|] end. by to_prop.
Qed.

(** Later databases are never behind for a gate that holds an earlier one. *)
Lemma held_before db1 db2 p s g :
  later db1 db2 -> published db2 p s -> 0 < de_generation (db_delivery db2) -> holds_publication g db1 ->
  configtrust.Revision (configtrust.current g) <= configtrust.Revision (snapshot_of db2 p s) /\
  (configtrust.Generation (configtrust.current g) < configtrust.Generation (snapshot_of db2 p s) \/
   (configtrust.Generation (configtrust.current g) = configtrust.Generation (snapshot_of db2 p s) /\
    pb_envelope p = configtrust.raw g /\ holds_publication g db2)).
Proof.
  intros (Hg & Hr & He) (Hp & _ & _ & _ & Hv) Hpos [->|(p1 & s1 & Hp1 & Ec & Er)]; simpl.
  { split; [|left; lia]. by apply delivery_revision. }
  rewrite Ec. simpl. split; [exact Hr|]. destruct (decide (de_generation (db_delivery db1) = de_generation (db_delivery db2))) as [E|];
    [right | left; lia].
  apply He in E. assert (p1 = p) as -> by (destruct Hp1 as (Hp1 & _); rewrite E in Hp1; congruence).
  split_and!; [by rewrite E | done |]. right. exists p, s1. unfold published, snapshot_of in *. by rewrite <- E.
Qed.

Lemma published_unique db p1 s1 p2 s2 : published db p1 s1 -> published db p2 s2 -> p1 = p2.
Proof. intros [E1 _] [E2 _]. congruence. Qed.

Lemma published_generation db p s : published db p s -> 0 < de_generation (db_delivery db).
Proof.
  intros (_ & _ & _ & Hs & _). unfold configtrust.Sign in Hs. destruct (configtrust.structural json_Valid (snapshot_of db p s)) eqn:E;
    [|by rewrite orb_true_r in Hs].
  pose proof (configtrust.structural_gen json_Valid _ E) as Hg. simpl in Hg. lia.
Qed.

(** A gate that accepted serves what it accepted. *)
Lemma served_after g' t sn :
  configtrust.current g' = sn ->
  configtrust.clockHold g' = false -> configtrust.failed g' = false -> configtrust.lastClock g' = configtrust.Unix t ->
  0 < configtrust.Generation sn -> configtrust.IssuedAt sn <= configtrust.Unix t < configtrust.ExpiresAt sn ->
  snd (configtrust.currentLocked g' t) = Ok sn.
Proof.
  intros <- Hh Hf Hl Hg Ht. unfold configtrust.currentLocked, configtrust.clock. rewrite Hf, Hl, Z.ltb_irrefl. simpl.
  rewrite Hh, (proj2 (Z.eqb_neq _ _)), (proj2 (Z.ltb_ge _ _)), (proj2 (Z.leb_gt _ _)) by lia. done.
Qed.

(** The instant [t] is in the validity of the publication. *)
Definition in_validity (p : publication) (t : Z) : Prop :=
  pb_issued p <= t /\ configtrust.Unix t < (pb_issued p + 24 * Hour) / Second.

Lemma in_validity_snapshot db p s t :
  in_validity p t ->
  configtrust.IssuedAt (snapshot_of db p s) <= configtrust.Unix t < configtrust.ExpiresAt (snapshot_of db p s).
Proof.
  intros [Hi Ht]. simpl. split; [|exact Ht]. unfold configtrust.Unix, configtrust.Second, Second. by apply Z.div_le_mono.
Qed.


(** A clock recovery reopens a quarantined node. When a node whose clock
    moved back asks for recovery and the control plane answers, then, whatever
    happened in between, the node accepts the answer as soon as its own clock
    is past its high-water mark and in the answer's validity: the quarantine
    ends and the node serves the snapshot, which is newer than the one it held
    and issued after the mark. *)
Lemma clock_recovery_reopens db0 ops1 ops2 sv node i request tc g (st : St) t (f : Fault) db3 raw p s :
  pub_ok db0 -> let db1 := prun db0 ops1 in let db2 := prun db1 ops2 in
  holds_publication g db1 -> configtrust.RecoveryRequest (Some g) = Some i ->
  RecoverClock sv node i request tc db2 = Commit db3 raw -> published db3 p s -> node_of s g ->
  carried (snapshot_of db3 p s) -> validate (marshal (de_document (db_delivery db3))) = true ->
  configtrust.lastClock g <= configtrust.Unix t -> in_validity p t -> snd (configtrust.Save st raw f) = Ok tt ->
  exists g' st', configtrust.applyLocked json_Valid validate g st raw t f = (g', st', Ok tt) /\
    configtrust.clockHold g' = false /\ holds_publication g' db3 /\
    configtrust.Generation (configtrust.current g) < configtrust.Generation (configtrust.current g') /\
    configtrust.recoveryAfter g <= configtrust.IssuedAt (configtrust.current g') /\
    snd (configtrust.currentLocked g' t) = Ok (configtrust.current g').
Proof.
  intros Hok db1 db2 Hh Hi Hrec Hp Hn Hcar Hval Hc Ht Hs. pose proof (prun_ok db0 ops1 Hok) as Hok1.
  pose proof (prun_ok db1 ops2 Hok1) as Hok2.
  pose proof (prun_later db1 ops2 Hok1) as Hlat. fold db2 in Hok2, Hlat. clearbody db2 db1.
  pose proof (published_generation _ _ _ Hp) as Hpos.
  assert (later db1 db3) as Hlat3.
  { etrans; [exact Hlat|]. apply pub_step_later.
    pose proof (pexec_step sv (PRecoverClock node i request tc) NoFault db2 (proj1 Hok2)) as Hst. simpl in Hst.
    by rewrite Hrec in Hst. }
  destruct (RecoverClock_ok _ _ _ _ _ _ _ _ Hrec) as (p' & Hp' & -> & Hgen & Hiss).
  assert (p' = p) as -> by (destruct Hp; congruence).
  destruct (RecoveryRequest_ok _ _ Hi) as (Eg & En).
  destruct (held_before _ _ _ _ _ Hlat3 Hp Hpos Hh) as [Hr _].
  assert (configtrust.Generation (configtrust.current g) < configtrust.Generation (snapshot_of db3 p s)) as Hlt by (simpl; lia).
  destruct (apply_accepts validate g st (pb_envelope p) t f (snapshot_of db3 p s)) as (g' & st' & Ea & Ecur & Eraw & Ehold & Ef & El);
    eauto using in_validity_snapshot, published_verifies, n_failed. { intros _. simpl. lia. }
  exists g', st'. assert (configtrust.current g' = snapshot_of db3 p s) as E' by (destruct Ecur as [E|[_ E]]; [done | lia]).
  split_and!; [done | done | right; by exists p, s | by rewrite E' | rewrite E'; simpl; lia |].
  rewrite E'. apply served_after; [done | done | done | done | simpl; lia | by apply in_validity_snapshot].
Qed.
End nodes.
End props.

(** ** Witnesses *)

Definition pub_ops1 : list (PublicationService * pop * fault) := [(ex_service, PRefresh (at_ 1000), NoFault)].
Definition pub_ops2 : list (PublicationService * pop * fault) :=
  [(ex_service, POperate ex_token "shop" ex_operate "auto" (ex_clock 1100) ex_tokens, Lost)].
Definition pub_db1 : DB := prun ex_db pub_ops1.
Definition pub_db2 : DB := prun pub_db1 pub_ops2.
Definition pub_row (db : DB) : publication := default (mkPublication "" 0 0) (de_publication (db_delivery db)).
Definition pub_keys : gmap string string := {["config-v1" := PublicOf configtrust.wit_key]}.

(** A node that applied the first publication; [hold]: its clock then moved back. *)
Definition pub_gate (hold : bool) : configtrust.Gate :=
  configtrust.mkGate pub_keys "local" 1 snapshot1 (pb_envelope (pub_row pub_db1)) 1050 hold 1050 false "".

Lemma pub_ok_example : pub_ok ex_db.
Proof. split; [split; by vm_compute | done]. Qed.
Lemma pub_db1_published : published pub_db1 (pub_row pub_db1) ex_service.
Proof. split_and!; vm_compute; reflexivity || discriminate. Qed.
Lemma pub_db2_published : published pub_db2 (pub_row pub_db2) ex_service.
Proof. split_and!; vm_compute; reflexivity || discriminate. Qed.
Lemma pub_gate_holds hold : holds_publication (pub_gate hold) pub_db1.
Proof.
  right. exists (pub_row pub_db1), ex_service. split; [exact pub_db1_published|]. split; vm_compute; reflexivity.
Qed.
Lemma pub_gate_node hold : node_of ex_service (pub_gate hold).
Proof. split; by vm_compute. Qed.
Lemma pub_carried sn : ex_carried sn -> carried ex_carried (fun e => String.length (configtrust.eSnapshot e) = 1%nat) sn.
Proof. intros Hs. split; [done|]. intros sig. by destruct Hs as [->|[->| ->]]; vm_compute. Qed.


Definition pub_recovery : configtrust.ClockRecovery :=
  default (configtrust.mkRecovery 0 0 "") (configtrust.RecoveryRequest (Some (pub_gate true))).
Definition pub_recovered : DB * string :=
  match RecoverClock ex_service "gateway" pub_recovery "" (at_ 1200) pub_db1 with Commit db raw => (db, raw) | _ => (pub_db1, "") end.

