(* ===== verification/CommandProps.v ===== *)
(** * The control plane's commands: properties

    Theorems on the operator commands of [Publication]: a repeated command is
    answered and not run again, and a sensitive command spends a proof of
    fresh authentication that was made for it and can be spent once. *)

From S2P Require Import Prelude GoStd Keyring Control ConfigTrust AdminAuth Publication PublicationExample.
From stdpp Require Import base list gmap strings sorting pretty.
From Stdlib Require Import ZArith Lia Ascii String.
Import pgstore example.
Local Open Scope Z_scope.

Section props.
Context `{Sha256} `{Codec control.Config} `{Codec control.Delivery} `{Codec configtrust.Snapshot}
  `{Codec configtrust.envelope} `{Ed25519} `{Wire}.

(** ** Stored commands *)

Lemma housekeep_live t cs k c : cs !! k = Some c -> t < co_expires c -> housekeep t cs !! k = Some c.
Proof.
  intros Hk Ht. unfold housekeep.
  assert (k ∉ expired_commands t cs) as Hnot.
  { unfold expired_commands. intros Hin. apply (subseteq_take 128) in Hin. apply list_elem_of_fmap in Hin as ([k' c'] & -> & Hin).
    rewrite merge_sort_Permutation in Hin. apply list_elem_of_In, List.filter_In in Hin as [Hin Hd]. simpl in *.
    apply list_elem_of_In, elem_of_map_to_list in Hin. rewrite Hk in Hin. injection Hin as <-. to_prop. lia. }
  induction (expired_commands t cs) as [|k' l IH]; [done|]. simpl. rewrite lookup_delete_ne; [apply IH|]; set_solver.
Qed.

(** What authenticates a command's actor. *)
Definition actor_of (token : string) (db : DB) : option string :=
  h ← tokenHash token; se_user <$> db_sessions db !! h.

Definition command_key (r : adminauth.request) : string := sha256 (adminauth.Get r "Idempotency-Key").
Definition fingerprint (r : adminauth.request) (raw : string) (action : adminauth.Action) (target : string) : string :=
  sha256 ("control.command.v1" +:+ nul +:+ adminauth.Method r +:+ nul +:+ action_text action +:+ nul +:+ target +:+ nul +:+
    adminauth.Get r "If-Match" +:+ nul +:+ raw).

Lemma loadSession_ok hash t db state :
  loadSession hash t db = Ok state ->
  exists row a, db_sessions db !! hash = Some row /\ db_accounts db !! se_user row = Some a /\
    adminauth.aID (account state) = se_user row /\ adminauth.aRole (account state) = ac_role a /\ ac_enabled a = true /\
    csrf state = se_csrf row /\ adminauth.CheckSession (account state) (session state) (policy state) t = Ok tt.
Proof.
  unfold loadSession. case_if as E1; [done|]. destruct (db_sessions db !! hash) as [row|]; [|done].
  destruct (db_accounts db !! se_user row) as [a|] eqn:Ea; [|done]. case_if as E2; [done|].
  destruct (adminauth.CheckSession _ _ _ _) as [[]|] eqn:Ec; [|done]. intros [= <-]. exists row, a. split_and!; try done.
  unfold adminauth.CheckSession in Ec. destruct (adminauth.session_bound _ _ _) eqn:Eb; [|done].
  unfold adminauth.session_bound in Eb. simpl in Eb. by to_prop.
Qed.

Definition needs_proof (action : adminauth.Action) : bool :=
  match adminauth.Requirement adminauth.Admin action with Some c => adminauth.RequiresReauthentication c | None => false end.

(** What a command that commits did. *)
Record authorized (s : PublicationService) (token : string) (r : adminauth.request) (action : adminauth.Action) (ck : clock)
    (db : DB) (actor : string) : Prop := {
  a_actor : actor_of token db = Some actor;
  a_session : exists h row a, tokenHash token = Some h /\ db_sessions db !! h = Some row /\ db_accounts db !! actor = Some a /\
    ac_enabled a = true /\ is_Some (adminauth.Requirement (ac_role a) action) /\
    adminauth.CheckMutation (origin s) r (se_csrf row) = Ok tt
}.

Lemma command_inv s token r raw action target etag body ck tk db db' a :
  command s token r raw action target etag body ck tk db = Commit db' a ->
  exists actor, authorized s token r action ck db actor /\
    let k := (actor, command_key r) in let fp := fingerprint r raw action target in
    (exists c, db' = db /\ db_commands db !! k = Some c /\ co_created c <= t_command ck < co_expires c /\ co_request c = fp /\
       a = mkReply (co_status c) (co_response c) (co_etag c) true) \/
    (exists db1 db2 state current db3 res row,
       (forall c, db_commands db !! k = Some c -> co_expires c <= t_command ck) /\
       db1 = set_commands db (housekeep (t_command ck) (delete k (db_commands db))) /\
       (if needs_proof action then consumeReauth token r action target raw (t_proof ck) db1 = Ok db2 else db2 = db1) /\
       body db2 state current = Ok (db3, res) /\ a = reply res /\
       db' = touch token (t_command ck) (remember actor (command_key r) fp (t_command ck) a (log_audit db3 row))).
Proof.
  unfold command. case_if as E1; [done|]. case_if as E2; [done|]. case_if as E3; [done|].
  destruct (beginCommand _ _ _ _ _ _ _) as [state|] eqn:Eb; [|done]. destruct (readConfig db) as [current|]; [|done].
  destruct (adminauth.CheckSession _ _ _ _); [|done]. cbn [account now].
  intros Hc. exists (adminauth.aID (account state)). split.
  { unfold beginCommand in Eb. destruct (tokenHash token) as [h|] eqn:Eh; [|done].
    destruct (loadSession h _ db) as [st|] eqn:El; [|done]. apply loadSession_ok in El as (row & ac & Hrow & Hac & EID & Erole & Hen & Ecsrf & _).
    destruct (adminauth.Requirement _ _) as [req|] eqn:Er; [|done].
    destruct (adminauth.RequiresReauthentication req && _); [done|].
    destruct (adminauth.CheckMutation _ _ _) as [[]|] eqn:Em; [|done]. injection Eb as <-. rewrite EID. constructor.
    - unfold actor_of. rewrite Eh. simpl. by rewrite Hrow.
    - exists h, row, ac. split_and!; try done; [by rewrite <- Erole, Er | by rewrite <- Ecsrf]. }
  fold (command_key r) (fingerprint r raw action target) in Hc. cbv zeta.
  set (k := (adminauth.aID (account state), command_key r)) in *. set (fp := fingerprint r raw action target) in *.
  destruct (replayed (db_commands db !! k) fp (t_command ck) _) as [[[[] x]|e]|] eqn:Er; try done.
  - left. injection Hc as <- <-. unfold replayed in Er. destruct (db_commands db !! k) as [c|]; [|done].
    destruct (Z.ltb_spec (t_command ck) (co_created c)); [done|]. destruct (Z.ltb_spec (t_command ck) (co_expires c)); [|done].
    destruct (String.eqb_spec (co_request c) fp); [|done]. injection Er as <-. exists c. by split_and!.
  - right. revert Hc. case_if as E4; [done|]. fold (needs_proof action).
    destruct (if needs_proof action then _ else _) as [db2|] eqn:E5; [|done].
    destruct (body db2 _ current) as [[db3 res]|] eqn:Ebd; [|done]. case_if as E6; [done|]. intros [= <- <-].
    eexists _, db2, _, current, db3, res, _. split_and!; [| reflexivity | | exact Ebd | reflexivity | reflexivity].
    + intros c Ec. unfold replayed in Er. rewrite Ec in Er. destruct (Z.ltb_spec (t_command ck) (co_created c)); [done|].
      destruct (Z.ltb_spec (t_command ck) (co_expires c)); [|done]. by destruct (negb (String.eqb (co_request c) fp)).
    + destruct (needs_proof action); [exact E5 | by injection E5].
Qed.

(** ** What a transaction leaves alone *)

(** The tables of the command wrapper, which no body touches. *)
Definition side (db : DB) :=
  (db_commands db, db_proofs db, db_sessions db, (db_accounts db, db_policy db, db_totp db, db_auth db)).

Lemma sign_side s d g t db db' : sign s d g t db = Ok db' -> side db' = side db.
Proof.
  unfold sign. case_if as E1; [done|]. destruct (configtrust.Sign _ _ _); [|done]. case_if as E2; [done|]. by intros [= <-].
Qed.

Lemma publish_body_side s r raw tk db state current db' res :
  publish_body s r raw tk db state current = Ok (db', res) -> side db' = side db.
Proof.
  unfold publish_body. case_if as E1; [by intros [= <- _]|]. case_if as E2; [by intros [= <- _]|].
  destruct (readDelivery db) as [[d g]|]; [|done]. destruct (rooms_kept _ _); [by intros [= <- _]|].
  destruct (next_runtimes _ _) as [vs|]; [|by intros [= <- _]].
  destruct (sign _ _ _ _ _) as [db1|[|[]|]] eqn:Es; try done; [|by intros [= <- _]]. intros [= <- _]. by apply sign_side in Es.
Qed.

Lemma operate_body_side s id r raw tk db state current db' res :
  operate_body s id r raw tk db state current = Ok (db', res) -> side db' = side db.
Proof.
  unfold operate_body. destruct (if _ : bool then _ else _) as [c|]; [|by intros [= <- _]].
  destruct (readDelivery db) as [[d g]|]; [|done]. destruct (control.Find d id) as [[room v]|]; [|by intros [= <- _]].
  case_if as E1; [by intros [= <- _]|]. case_if as E2.
  - destruct (cGeneration c) as [g'|]; [|by intros [= <- _]]. do 2 (case_if as E3; [by intros [= <- _]|]; clear E3).
    case_if as E5; [done|]. case_if as E6; [by intros [= <- _]|].
    destruct (sign _ _ _ _ _) as [db1|] eqn:Es; [|done]. intros [= <- _]. by apply sign_side in Es.
  - case_if as E3; [by intros [= <- _]|]. case_if as E4; [by intros [= <- _]|]. case_if as E5; [by intros [= <- _]|].
    destruct (operated _ _ _) as [v'|[]]; [|by intros [= <- _]].
    destruct (sign _ _ _ _ _) as [db1|] eqn:Es; [|done]. intros [= <- _]. by apply sign_side in Es.
Qed.

Lemma event_body_side s room ev r raw tk db state current db' res :
  event_body s room ev r raw tk db state current = Ok (db', res) -> side db' = side db.
Proof.
  unfold event_body. case_if as E1; [by intros [= <- _]|].
  destruct (readDelivery db) as [[d g]|]; [|done]. destruct (if _ : bool then _ else _) as [room'|]; [|by intros [= <- _]].
  destruct (control.Find d room') as [[rm v]|]; [|by intros [= <- _]]. case_if as E2; [by intros [= <- _]|].
  destruct (readEvents room' db) as [es|]; [|done]. destruct (change _ _ _ _ _ _ _ _) as [next|[]]; [|by intros [= <- _]].
  destruct (readEvents room' _) as [es'|]; [|done]. destruct (sign _ _ _ _ _) as [db1|] eqn:Es; [|done]. intros [= <- _].
  by apply sign_side in Es.
Qed.

Lemma tick_rooms_side v t ids i rs d ch db db' d' ch' :
  tick_rooms v t ids i rs d ch db = Ok (db', d', ch') -> side db' = side db.
Proof.
  revert i d ch db. induction rs as [|room rs IH]; intros i d ch db; simpl; [by intros [= <- _ _]|].
  case_if as E1; [by apply IH|]. destruct (control.dRuntimes d !! i) as [old|]; [|done].
  destruct (readEvents _ db) as [es|]; [|done]. destruct (tick_room _ _ _ _ _ _) as [v' evs].
  case_decide as E2; intros Ht; by apply IH in Ht as ->.
Qed.

Lemma auditRecovery_side node ms ids db : side (auditRecovery node ms ids db) = side db.
Proof.
  unfold auditRecovery. case_if as E; [done|]. set (olds := from_option _ _ _). clearbody olds.
  apply (fold_left_ind (fun db' => side db' = side db)); [done|]. intros db1 m _ IH. rewrite <- IH.
  unfold audit_room. by case_if as E1.
Qed.

(** What a transaction at [t] leaves: live commands, spent proofs and the actors of sessions. *)
Record kept (t : Z) (db db' : DB) : Prop := {
  k_command : forall k c, db_commands db !! k = Some c -> t < co_expires c -> db_commands db' !! k = Some c;
  k_proof : forall h p, db_proofs db !! h = Some p -> pr_consumed p = true ->
    exists p', db_proofs db' !! h = Some p' /\ pr_consumed p' = true;
  k_actor : forall token, actor_of token db' = actor_of token db
}.

Lemma kept_side t db db' : side db' = side db -> kept t db db'.
Proof.
  intros [= E1 E2 E3 _ _ _ _]. constructor; [by rewrite E1 | rewrite E2; eauto |]. intros token. unfold actor_of. by rewrite E3.
Qed.

Lemma touch_actor token' token t db : actor_of token' (touch token t db) = actor_of token' db.
Proof.
  unfold touch. destruct (tokenHash token) as [h|]; [|done]. destruct (db_sessions db !! h) as [row|] eqn:E; [|done].
  unfold actor_of. destruct (tokenHash token') as [h'|]; [|done]. simpl. destruct (decide (h = h')) as [->|Hne].
  - by rewrite lookup_insert_eq, E.
  - by rewrite lookup_insert_ne.
Qed.
Lemma touch_tables token t db : db_commands (touch token t db) = db_commands db /\ db_proofs (touch token t db) = db_proofs db.
Proof. unfold touch. destruct (tokenHash token) as [h|]; [|done]. by destruct (db_sessions db !! h). Qed.

(** The end of a command that ran. *)
Lemma kept_run t db db1 db3 token actor key fp a row :
  (forall c, db_commands db !! (actor, key) = Some c -> co_expires c <= t) ->
  db_commands db3 = housekeep t (delete (actor, key) (db_commands db)) ->
  db_proofs db1 = db_proofs db -> (forall h p, db_proofs db1 !! h = Some p -> pr_consumed p = true ->
    exists p', db_proofs db3 !! h = Some p' /\ pr_consumed p' = true) ->
  db_sessions db3 = db_sessions db ->
  kept t db (touch token t (remember actor key fp t a (log_audit db3 row))).
Proof.
  intros Hk Ec Ep Hp Es. constructor.
  - intros k c Hc Ht. rewrite (proj1 (touch_tables _ _ _)). simpl. rewrite Ec. destruct (decide (k = (actor, key))) as [->|Hne].
    { apply Hk in Hc. lia. }
    rewrite lookup_insert_ne by done. apply housekeep_live; [|done]. by rewrite lookup_delete_ne.
  - intros h p Hh Hcons. rewrite (proj2 (touch_tables _ _ _)). simpl. rewrite <- Ep in Hh. eauto.
  - intros token'. rewrite touch_actor. unfold actor_of. simpl. by rewrite Es.
Qed.

Lemma consumeReauth_ok token r action target raw t db db' :
  consumeReauth token r action target raw t db = Ok db' ->
  exists hash p, tokenHash (adminauth.Get r "X-Reauth-Token") = Some hash /\ db_proofs db !! hash = Some p /\
    proof_matches (default "" (tokenHash token)) (action_text action) target
      (ActionRequestDigest (adminauth.Method r) target (adminauth.Get r "If-Match") raw) t p = true /\
    db' = set_proofs db (<[hash := consumed p]> (db_proofs db)).
Proof.
  unfold consumeReauth. case_if as E1; [done|]. destruct (tokenHash (adminauth.Get _ _)) as [hash|]; [|done].
  destruct (db_proofs db !! hash) as [p|] eqn:Ep; [|done]. case_if as E2; [|done]. intros [= <-]. exists hash, p. by split_and!.
Qed.

Lemma command_kept s token r raw action target etag body ck tk db db' a :
  (forall db st cur db' res, body db st cur = Ok (db', res) -> side db' = side db) ->
  command s token r raw action target etag body ck tk db = Commit db' a -> kept (t_command ck) db db'.
Proof.
  intros Hbody (actor & _ & [(c & -> & _)|(db1 & db2 & st & cur & db3 & res & row & Hexp & E1 & E2 & Hb & _ & ->)])%command_inv;
    [by apply kept_side|].
  apply Hbody in Hb as [= Ec Ep Es _ _ _ _]. assert (db_commands db2 = db_commands db1 /\ db_sessions db2 = db_sessions db1 /\
    (forall h p, db_proofs db1 !! h = Some p -> pr_consumed p = true -> exists p', db_proofs db2 !! h = Some p' /\ pr_consumed p' = true))
    as (Ec2 & Es2 & Hp2).
  { destruct (needs_proof action); [|subst; eauto]. apply consumeReauth_ok in E2 as (hash & p & _ & Hp & Hm & ->).
    split_and!; [done | done |]. intros h p' Hh Hcons. simpl. destruct (decide (hash = h)) as [->|Hne].
    - rewrite lookup_insert_eq. eauto.
    - rewrite lookup_insert_ne by done. eauto. }
  apply (kept_run (t_command ck) db db1); [done | by rewrite Ec, Ec2, E1 | by rewrite E1 | by rewrite Ep | by rewrite Es, Es2, E1].
Qed.

Lemma ReplaceDraft_kept s token r raw ck tk db db' a :
  ReplaceDraft s token r raw ck tk db = Commit db' a -> kept (t_command ck) db db'.
Proof.
  unfold ReplaceDraft. case_if as E1; [done|]. case_if as E2; [done|]. case_if as E3; [done|]. case_if as E4; [done|].
  destruct (beginCommand _ _ _ _ _ _ _) as [state|]; [|done]. destruct (readConfig db) as [current|]; [|done].
  destruct (adminauth.CheckSession _ _ _ _); [|done]. set (k := (adminauth.aID (account state), _)).
  destruct (replayed (db_commands db !! k) _ _ _) as [[[[] ?]|]|] eqn:Er; try done; [intros [= <- _]; by apply kept_side|].
  case_if as E5; [done|]. assert (forall c, db_commands db !! k = Some c -> co_expires c <= t_command ck) as Hexp.
  { intros c Ec. unfold replayed in Er. rewrite Ec in Er. destruct (Z.ltb_spec (t_command ck) (co_created c)); [done|].
    destruct (Z.ltb_spec (t_command ck) (co_expires c)); [|done]. by repeat case_match. }
  destruct (check_draft _ _ _ _) as [next|]; [case_if as E6; [done|]; case_if as E7; [done|]|];
    intros [= <- _]; apply (kept_run (t_command ck) db db); eauto.
Qed.

(** The reading of the clock that decides for the stored commands. *)
Definition pop_time (o : pop) : Z :=
  match o with
  | PReplaceDraft _ _ _ ck _ | PPublish _ _ _ ck _ | POperate _ _ _ _ ck _ | PChangeEvent _ _ _ _ _ ck _ => t_command ck
  | PRefresh t | PTick t _ _ | PRecoverClock _ _ _ t => t
  | PAcknowledge _ _ _ t => t_node t
  end.

Lemma finish_kept {A} t f db (o : outcome A) :
  (forall db' a, o = Commit db' a -> kept t db db') -> kept t db (fst (finish f db o)).
Proof. intros Hc. assert (kept t db db) by (by apply kept_side). destruct f, o; simpl; eauto. Qed.

Lemma pexec_kept s o f db : kept (pop_time o) db (pexec s o f db).
Proof.
  destruct o; simpl; apply finish_kept; intros db' a'.
  - apply ReplaceDraft_kept.
  - apply command_kept. intros *. apply publish_body_side.
  - unfold Operate. destruct (if _ : bool then _ else _); [|done]. apply command_kept. intros *. apply operate_body_side.
  - apply command_kept. intros *. apply event_body_side.
  - unfold Refresh. destruct (readConfig db); [|done]. destruct (readDelivery db) as [[d g]|]; [|done].
    assert ((match sign s d g t db with Err e => Fail e | Ok db' => Commit db' tt end) = Commit db' a' -> kept t db db') as Hs.
    { destruct (sign _ _ _ _ _) as [db1|] eqn:Es; [|done]. intros [= <- _]. by eapply kept_side, sign_side. }
    destruct (de_publication _) as [p|]; [|done]. case_if as E1; [done|]. destruct (envelope_kid _); [|done].
    case_if as E2; [intros [= <- _]; by apply kept_side | done].
  - unfold Tick. destruct (readConfig db); [|done]. destruct (readDelivery db) as [[d g]|]; [|done].
    destruct (tick_rooms _ _ _ _ _ _ _ _) as [[[db1 d1] ch]|] eqn:Et; [|done]. apply tick_rooms_side in Et. case_if as E1.
    + intros [= <- _]. by apply kept_side.
    + destruct (sign _ _ _ _ _) as [db2|] eqn:Es; [|done]. intros [= <- _]. apply sign_side in Es. apply kept_side. congruence.
  - unfold Acknowledge. case_if as E1; [done|]. case_if as E2; [done|]. destruct (readDelivery db) as [[d g]|]; [|done].
    destruct (de_publication _) as [p|]; [|done]. case_if as E3; [done|]. case_if as E4; [done|]. case_if as E5; [done|].
    intros [= <- _]. apply kept_side. apply (auditRecovery_side node (nRooms a) ids db).
  - unfold RecoverClock. case_if as E1; [done|]. case_if as E2; [done|]. destruct (readConfig db); [|done].
    destruct (readDelivery db) as [[d g]|]; [|done]. destruct (de_publication _) as [p|]; [|done].
    case_if as E3; [done|]. case_if as E4; [intros [= <- _]; by apply kept_side|]. case_if as E5; [done|].
    destruct (sign _ _ _ _ _) as [db1|] eqn:Es; [|done]. intros [= <- _]. apply sign_side in Es. by apply kept_side.
Qed.

Lemma prun_commands t db ops k c :
  Forall (fun x => pop_time (snd (fst x)) < t) ops -> db_commands db !! k = Some c -> t <= co_expires c ->
  db_commands (prun db ops) !! k = Some c.
Proof.
  revert db. induction ops as [|x ops IH]; intros db Hops Hk Ht; simpl; [done|]. apply Forall_cons in Hops as [Hx Hops].
  apply IH; [done | | done]. apply (k_command _ _ _ (pexec_kept _ _ _ _) _ _ Hk). lia.
Qed.
Lemma prun_proofs db ops h p :
  db_proofs db !! h = Some p -> pr_consumed p = true -> exists p', db_proofs (prun db ops) !! h = Some p' /\ pr_consumed p' = true.
Proof.
  revert db p. induction ops as [|x ops IH]; intros db p Hh Hc; simpl; [eauto|].
  destruct (k_proof _ _ _ (pexec_kept (fst (fst x)) (snd (fst x)) (snd x) db) _ _ Hh Hc) as (p' & Hp' & Hc'). eauto.
Qed.
Lemma prun_actor db ops token : actor_of token (prun db ops) = actor_of token db.
Proof.
  revert db. induction ops as [|x ops IH]; intros db; simpl; [done|]. by rewrite IH, (k_actor _ _ _ (pexec_kept _ _ _ _)).
Qed.

(** ** The operator commands *)

Inductive cmd := CPublish | COperate (id : string) | CEvent (roomID eventID : string).

Definition issue (c : cmd) (s : PublicationService) (token : string) (r : adminauth.request) (raw : string) (ck : clock) (tk : tokens)
    (db : DB) : outcome ControlReply :=
  match c with
  | CPublish => Publish s token r raw ck tk db
  | COperate id => Operate s token id r raw ck tk db
  | CEvent room ev => ChangeEvent s token room ev r raw ck tk db
  end.

(** The action and the target that the command names. *)
Definition named (c : cmd) (r : adminauth.request) (raw : string) : option (adminauth.Action * string) :=
  match c with
  | CPublish => Some (adminauth.WriteConfig, "config.publish")
  | COperate id =>
      match (if String.eqb (adminauth.Method r) "PATCH" then decode_command raw else None) with
      | None => None
      | Some input =>
          Some (if String.eqb (cAction input) "new-epoch" then adminauth.NewEpoch
                else if String.eqb (cAction input) "instant-off" then adminauth.InstantOff else adminauth.OperateRuntime, id)
      end
  | CEvent room ev => Some (adminauth.WriteEvents, if String.eqb ev "" then room +:+ "/events" else "events/" +:+ ev)
  end.

Lemma issue_command c s token r raw ck tk db action target :
  named c r raw = Some (action, target) ->
  exists body, issue c s token r raw ck tk db = command s token r raw action target true body ck tk db /\
    forall db st cur db' res, body db st cur = Ok (db', res) -> side db' = side db.
Proof.
  destruct c; simpl.
  - intros [= <- <-]. eexists. split; [reflexivity|]. intros *. apply publish_body_side.
  - unfold Operate. destruct (if _ : bool then _ else _) as [i|]; [|done]. intros [= <- <-]. eexists. split; [reflexivity|].
    intros *. apply operate_body_side.
  - intros [= <- <-]. eexists. split; [reflexivity|]. intros *. apply event_body_side.
Qed.

Lemma issue_named c s token r raw ck tk db db' a :
  issue c s token r raw ck tk db = Commit db' a -> exists action target, named c r raw = Some (action, target).
Proof. destruct c; simpl; unfold Operate; [eauto| |eauto]. destruct (if _ : bool then _ else _); [eauto | done]. Qed.

(** A command whose actor has the row of this request. *)
Lemma command_stored s token r raw action target body ck tk db actor c :
  headers_ok r raw = true -> (1 = List.length (adminauth.Header r "If-Match"))%nat -> len (adminauth.Get r "If-Match") <= 64 ->
  actor_of token db = Some actor -> db_commands db !! (actor, command_key r) = Some c ->
  co_request c = fingerprint r raw action target -> co_created c <= t_command ck < co_expires c ->
  command s token r raw action target true body ck tk db = Commit db (mkReply (co_status c) (co_response c) (co_etag c) true) \/
  exists e, command s token r raw action target true body ck tk db = Fail e.
Proof.
  intros Hh Hm Hl Hact Hc Hf Ht. unfold command. rewrite Hh. simpl negb. cbv iota. rewrite <- Hm. simpl.
  rewrite (proj2 (Z.ltb_ge _ _) Hl). cbv iota.
  destruct (beginCommand _ _ _ _ _ _ _) as [state|e] eqn:Eb; [|eauto]. destruct (readConfig db); [|eauto].
  destruct (adminauth.CheckSession _ _ _ _); [|eauto]. cbn [account now].
  assert (adminauth.aID (account state) = actor) as ->.
  { unfold beginCommand in Eb. unfold actor_of in Hact. destruct (tokenHash token) as [h|]; [|done]. simpl in Hact.
    destruct (loadSession h _ db) as [st|] eqn:El; [|done]. apply loadSession_ok in El as (row & ac & Hrow & _ & EID & _).
    rewrite Hrow in Hact. injection Hact as <-. destruct (adminauth.Requirement _ _); [|done].
    destruct (adminauth.RequiresReauthentication _ && _); [done|]. destruct (adminauth.CheckMutation _ _ _); [|done].
    by injection Eb as <-. }
  fold (command_key r) (fingerprint r raw action target). rewrite Hc. unfold replayed.
  rewrite (proj2 (Z.ltb_ge _ _)), (proj2 (Z.ltb_lt _ _)), Hf, String.eqb_refl by lia. by left.
Qed.

Lemma command_headers s token r raw action target body ck tk db db' a :
  command s token r raw action target true body ck tk db = Commit db' a ->
  headers_ok r raw = true /\ (1 = List.length (adminauth.Header r "If-Match"))%nat /\ len (adminauth.Get r "If-Match") <= 64.
Proof.
  unfold command. destruct (headers_ok r raw); [|done]. simpl negb. cbv iota. case_if as E1; [done|]. case_if as E2; [done|].
  intros _. to_prop. split_and!; [done | | done]. destruct (adminauth.Header r "If-Match") as [|x [|y l]]; simpl in *; [done | done | lia].
Qed.

(** The first run of a command leaves its row. *)
Lemma command_first s token r raw action target body ck tk db db' a actor :
  command s token r raw action target true body ck tk db = Commit db' a -> actor_of token db = Some actor ->
  db_commands db !! (actor, command_key r) = None ->
  db_commands db' !! (actor, command_key r) =
    Some (mkCommandRow (fingerprint r raw action target) (t_command ck) (t_command ck + 24 * Hour) (Status a) (Body a) (ETag a)).
Proof.
  intros Hcmd Hact Hnone. apply command_inv in Hcmd as (actor' & Hau & Hc). rewrite (a_actor _ _ _ _ _ _ _ Hau) in Hact.
  injection Hact as ->. destruct Hc as [(c & _ & Hc & _)|(db1 & db2 & st & cur & db3 & res & row & _ & _ & _ & _ & -> & ->)].
  - by rewrite Hnone in Hc.
  - rewrite (proj1 (touch_tables _ _ _)). simpl. by rewrite lookup_insert_eq.
Qed.

(** C30: an operator command runs once. When a command ran, even if the answer
    was lost, a repetition of it within a day, after any other transactions
    under any faults and service keys, changes nothing: it gets the first
    answer, marked as a replay, or is refused before it is looked up (the
    session ended, or the stored configuration cannot be read). *)
Theorem commands_run_once c s s' token r raw ck ck' tk tk' db db1 a actor f ops :
  issue c s token r raw ck tk db = Commit db1 a -> actor_of token db = Some actor ->
  db_commands db !! (actor, command_key r) = None -> f <> Broken ->
  Forall (fun x => pop_time (snd (fst x)) < t_command ck + 24 * Hour) ops ->
  t_command ck <= t_command ck' < t_command ck + 24 * Hour ->
  let db2 := prun (fst (finish f db (issue c s token r raw ck tk db))) ops in
  issue c s' token r raw ck' tk' db2 = Commit db2 (mkReply (Status a) (Body a) (ETag a) true) \/
  exists e, issue c s' token r raw ck' tk' db2 = Fail e.
Proof.
  intros Hc Hact Hnone Hf Hops Ht db2. assert (db2 = prun db1 ops) as -> by (unfold db2; rewrite Hc; by destruct f).
  destruct (issue_named _ _ _ _ _ _ _ _ _ _ Hc) as (action & target & Hn).
  destruct (issue_command c s token r raw ck tk db _ _ Hn) as (body & E & Hside). rewrite E in Hc.
  destruct (issue_command c s' token r raw ck' tk' (prun db1 ops) _ _ Hn) as (body' & -> & _).
  destruct (command_headers _ _ _ _ _ _ _ _ _ _ _ _ Hc) as (Hh & Hm & Hl).
  pose proof (command_first _ _ _ _ _ _ _ _ _ _ _ _ _ Hc Hact Hnone) as Hrow.
  pose proof (command_kept _ _ _ _ _ _ _ _ _ _ _ _ _ Hside Hc) as [_ _ Hk].
  assert (db_commands (prun db1 ops) !! (actor, command_key r) = _) as Hrow' by (by eapply prun_commands).
  apply (command_stored s' token r raw action target body' ck' tk' (prun db1 ops) actor _ Hh Hm Hl) in Hrow'; try done.
  by rewrite prun_actor, Hk.
Qed.

(** C31: a sensitive command spends a fresh authentication that was made for
    it. When a command that needs one ran, its proof existed, unspent and
    unexpired, bound to this session, action, target and request; and in
    every later state no command, of any session, runs again with that proof:
    what commits with it is a replay. *)
Theorem sensitive_command_proof_once c s token r raw ck tk db db1 a action target :
  issue c s token r raw ck tk db = Commit db1 a -> named c r raw = Some (action, target) ->
  needs_proof action = true -> Replay a = false ->
  (exists h p, tokenHash (adminauth.Get r "X-Reauth-Token") = Some h /\ db_proofs db !! h = Some p /\ pr_consumed p = false /\
     pr_session p = default "" (tokenHash token) /\ pr_action p = action_text action /\ pr_target p = target /\
     pr_digest p = ActionRequestDigest (adminauth.Method r) target (adminauth.Get r "If-Match") raw /\
     pr_created p <= t_proof ck < pr_expires p) /\
  (forall f ops c' s' token' r' raw' ck' tk' action' target' db3 a', f <> Broken ->
     adminauth.Get r' "X-Reauth-Token" = adminauth.Get r "X-Reauth-Token" -> named c' r' raw' = Some (action', target') ->
     needs_proof action' = true ->
     issue c' s' token' r' raw' ck' tk' (prun (fst (finish f db (issue c s token r raw ck tk db))) ops) = Commit db3 a' ->
     Replay a' = true).
Proof.
  intros Hc Hn Hneed Hr. destruct (issue_command c s token r raw ck tk db _ _ Hn) as (body & E & Hside).
  pose proof Hc as Hc0. rewrite E in Hc.
  apply command_inv in Hc as (actor & _ & [(row & _ & _ & _ & _ & ->)|(db0 & db2 & st & cur & db3 & res & row & _ & E0 & E2 & Hb & _ & E1)]);
    [done|]. rewrite Hneed in E2. apply consumeReauth_ok in E2 as (h & p & Hh & Hp & Hm & E2). rewrite E0 in Hp. simpl in Hp.
  unfold proof_matches in Hm. to_prop. split; [exists h, p; by split_and!|].
  intros f ops c' s' token' r' raw' ck' tk' action' target' db4 a' Hf Hr' Hn' Hneed' Hc'.
  assert (fst (finish f db (issue c s token r raw ck tk db)) = db1) as E3 by (rewrite Hc0; by destruct f). rewrite E3 in Hc'.
  assert (exists p', db_proofs db1 !! h = Some p' /\ pr_consumed p' = true) as (p1 & Hp1 & Hcons1).
  { exists (consumed p). split; [|done]. rewrite E1, (proj2 (touch_tables _ _ _)). simpl. apply Hside in Hb as [= _ -> _ _ _ _ _].
    rewrite E2. simpl. by rewrite lookup_insert_eq. }
  destruct (prun_proofs db1 ops h p1 Hp1 Hcons1) as (p2 & Hp2 & Hcons2).
  destruct (issue_command c' s' token' r' raw' ck' tk' (prun db1 ops) _ _ Hn') as (body' & E' & _). rewrite E' in Hc'.
  apply command_inv in Hc' as (actor' & _ & [(row' & _ & _ & _ & _ & ->)|(db0' & db2' & st' & cur' & db3' & res' & row' & _ & E0' & E2' & _)]);
    [done|]. exfalso. rewrite Hneed' in E2'. apply consumeReauth_ok in E2' as (h' & p' & Hh' & Hp' & Hm' & _).
  rewrite Hr' in Hh'. rewrite Hh in Hh'. injection Hh' as <-. rewrite E0' in Hp'. simpl in Hp'. rewrite Hp2 in Hp'. injection Hp' as <-.
  unfold proof_matches in Hm'. rewrite Hcons2 in Hm'. to_prop. done.
Qed.
End props.

(** ** Witnesses *)

Definition instant_off := COperate "shop".
Definition ran (o : outcome ControlReply) : DB * ControlReply :=
  match o with Commit db a => (db, a) | Rollback a => (ex_db, a) | Fail _ => (ex_db, mkReply 0 "" "" false) end.
Definition first_run := issue instant_off ex_service ex_token ex_operate "instant-off" (ex_clock 1100) ex_tokens ex_db.

(** The answer of an instant OFF is lost; the scheduler runs; the retry replays. *)
Lemma commands_run_once_witness :
  let db2 := prun (fst (finish Lost ex_db first_run)) [(ex_service, PTick (at_ 1150) (at_ 1150) (fun _ => "id"), NoFault)] in
  issue instant_off ex_service ex_token ex_operate "instant-off" (ex_clock 1200) ex_tokens db2 =
    Commit db2 (mkReply 200 "{runtime}" (rt_etag 2) true).
Proof.
  intros db2. assert (first_run = Commit (fst (ran first_run)) (mkReply 200 "{runtime}" (rt_etag 2) false)) as E by (vm_compute; reflexivity).
  destruct (commands_run_once instant_off ex_service ex_service ex_token ex_operate "instant-off" (ex_clock 1100) (ex_clock 1200)
    ex_tokens ex_tokens ex_db _ _ "admin" Lost [(ex_service, PTick (at_ 1150) (at_ 1150) (fun _ => "id"), NoFault)] E) as [Hr|[e He]].
  - vm_compute. reflexivity.
  - vm_compute. reflexivity.
  - done.
  - repeat constructor.
  - vm_compute. split; congruence.
  - exact Hr.
  - exfalso. vm_compute in He. discriminate.
Defined.

Lemma sensitive_command_proof_once_witness :
  exists h p, tokenHash ex_proof = Some h /\ db_proofs ex_db !! h = Some p /\ pr_consumed p = false /\
    pr_target p = "shop".
Proof.
  assert (first_run = Commit (fst (ran first_run)) (mkReply 200 "{runtime}" (rt_etag 2) false)) as E by (vm_compute; reflexivity).
  destruct (sensitive_command_proof_once instant_off ex_service ex_token ex_operate "instant-off" (ex_clock 1100) ex_tokens ex_db
    _ _ adminauth.InstantOff "shop" E) as [(h & p & H1 & H2 & H3 & _ & _ & H4 & _) _]; [vm_compute; reflexivity.. |].
  exists h, p. split_and!; [exact H1 | exact H2 | exact H3 | exact H4].
Defined.
