(* ===== verification/ScheduleProps.v ===== *)
(** * The control plane's schedule: properties

    Theorems on the events and the runtimes of [Publication] in every history
    of its transactions: the live events of a room never overlap, a drain ends
    only on fresh evidence of both nodes, and the runtime of a room only
    advances. *)

From S2P Require Import Prelude GoStd Keyring Control ConfigTrust AdminAuth Publication PublicationExample PublicationProps.
From stdpp Require Import base list gmap strings sorting pretty.
From Stdlib Require Import ZArith Lia Ascii String.
Import pgstore example.
Local Open Scope Z_scope.

Section props.
Context `{Sha256} `{Codec control.Config} `{Codec control.Delivery} `{Codec configtrust.Snapshot}
  `{Codec configtrust.envelope} `{Ed25519} `{Wire}.

(** ** Events *)

(** Rows are kept under their identifier, which is not empty. *)
Definition events_keyed (es : gmap string control.Event) : Prop :=
  map_Forall (fun k e => control.eID e = k /\ k <> "") es.

(** Of two live events of a room one ends before the other begins. *)
Definition apart (a b : control.Event) : Prop :=
  control.eDrainAt a <= control.ePrequeueAt b \/ control.eDrainAt b <= control.ePrequeueAt a.
Definition events_apart (es : gmap string control.Event) : Prop :=
  forall k1 k2 e1 e2, es !! k1 = Some e1 -> es !! k2 = Some e2 -> k1 <> k2 -> control.eRoomID e1 = control.eRoomID e2 ->
    live e1 = true -> live e2 = true -> apart e1 e2.
Definition events_ok (es : gmap string control.Event) : Prop := events_keyed es /\ events_apart es.

(** Every event is an old one that was live if it is now. *)
Definition settled (e e' : control.Event) : Prop :=
  control.eID e' = control.eID e /\ control.eRoomID e' = control.eRoomID e /\ control.ePrequeueAt e' = control.ePrequeueAt e /\
  control.eDrainAt e' = control.eDrainAt e /\ (live e' = true -> live e = true).
Definition narrowed (es es' : gmap string control.Event) : Prop :=
  forall k e', es' !! k = Some e' -> exists e, es !! k = Some e /\ settled e e'.

Lemma settled_refl e : settled e e.
Proof. by split_and!. Qed.
Lemma settled_state e st : (negb (String.eqb st "cancelled") && negb (String.eqb st "completed") = true -> live e = true) ->
  settled e (set_state e st).
Proof. intros Hl. by split_and!. Qed.
#[local] Hint Resolve settled_refl : core.

#[local] Instance narrowed_preorder : PreOrder narrowed.
Proof.
  split; [intros es k e; eauto|]. intros es1 es2 es3 H12 H23 k e3 Hk. destruct (H23 _ _ Hk) as (e2 & Hk2 & S2).
  destruct (H12 _ _ Hk2) as (e1 & Hk1 & S1). exists e1. split; [done|]. unfold settled in *. intuition congruence.
Qed.

Lemma narrowed_ok es es' : narrowed es es' -> events_ok es -> events_ok es'.
Proof.
  intros Hn [Hk Ha]. split.
  - intros k e' He'. destruct (Hn _ _ He') as (e & He & E1 & _). destruct (Hk _ _ He) as [Ek Hne]. by rewrite E1.
  - intros k1 k2 e1 e2 H1' H2' Hne Hroom L1 L2. destruct (Hn _ _ H1') as (x1 & Hx1 & _ & R1 & P1 & D1 & V1).
    destruct (Hn _ _ H2') as (x2 & Hx2 & _ & R2 & P2 & D2 & V2). unfold apart. rewrite P1, P2, D1, D2.
    apply (Ha k1 k2); eauto; congruence.
Qed.

Lemma pause_narrowed sel es : narrowed es (pause_events sel es).
Proof.
  intros k e' Hk. unfold pause_events in Hk. apply lookup_fmap_Some in Hk as (e & <- & He). exists e. split; [done|].
  case_if as E; [|done]. apply settled_state. intros _. apply andb_true_iff in E as [_ E]. unfold pending, live in *.
  apply orb_true_iff in E as [E|E]; apply String.eqb_eq in E; by rewrite E.
Qed.
Lemma alter_narrowed f k es : (forall e, es !! k = Some e -> settled e (f e)) -> narrowed es (alter f k es).
Proof.
  intros Hf k' e' Hk'. destruct (decide (k = k')) as [->|Hne].
  - rewrite lookup_alter_eq in Hk'. apply fmap_Some in Hk' as (e & He & ->). exists e. split; [done | by apply Hf].
  - rewrite lookup_alter_ne in Hk' by done. eauto.
Qed.

(** ** What [readEvents] reads *)

Lemma readEvents_ok room db es :
  readEvents room db = Ok es -> forall k e, db_events db !! k = Some e -> control.eRoomID e = room -> e ∈ es.
Proof.
  unfold readEvents. case_if as E; [done|]. to_prop. intros [= <-] k e Hk Hroom.
  rewrite take_ge by (rewrite length_take in E; lia). unfold room_events. rewrite merge_sort_Permutation.
  apply list_elem_of_In, List.filter_In. split; [|by rewrite Hroom, String.eqb_refl].
  apply list_elem_of_In, list_elem_of_fmap. exists (k, e). split; [done | by apply elem_of_map_to_list].
Qed.
Lemma readEvents_sound room db es e :
  readEvents room db = Ok es -> e ∈ es -> exists k, db_events db !! k = Some e /\ control.eRoomID e = room.
Proof.
  unfold readEvents. case_if as E; [done|]. intros [= <-] He. apply subseteq_take in He. unfold room_events in He.
  rewrite merge_sort_Permutation in He. apply list_elem_of_In, List.filter_In in He as [He Hr]. to_prop.
  apply list_elem_of_In, list_elem_of_fmap in He as ([k e'] & -> & He). apply elem_of_map_to_list in He. eauto.
Qed.

Lemma last_filter_elem {A} (p : A -> bool) l x : last (List.filter p l) = Some x -> x ∈ l /\ p x = true.
Proof. intros Hl. apply last_Some_elem_of, list_elem_of_In, List.filter_In in Hl as [Hl Hp]. split; [by apply list_elem_of_In | done]. Qed.

Lemma insert_apart k e es :
  events_ok es -> control.eID e = k -> k <> "" ->
  (forall k2 e2, es !! k2 = Some e2 -> k2 <> k -> control.eRoomID e2 = control.eRoomID e -> live e2 = true -> apart e e2) ->
  events_ok (<[k := e]> es).
Proof.
  intros [Hk Ha] Ek Hne He. split; [by apply map_Forall_insert_2|].
  intros k1 k2 e1 e2. destruct (decide (k = k1)) as [<-|N1], (decide (k = k2)) as [<-|N2];
    rewrite ?lookup_insert_eq, ?lookup_insert_ne by done; intros E1 E2 Hd Hroom L1 L2; simplify_eq; try done.
  - by eapply He.
  - destruct (He k1 e1) as [?|?]; [done | done | done | done | by right | by left].
  - by eapply Ha.
Qed.

(** What a command writes over the events of its room. *)
Lemma change_ok r raw roomID eventID room es t fresh next db :
  readEvents roomID db = Ok es -> events_ok (db_events db) ->
  (if String.eqb eventID "" then adminauth.Method r = "POST" /\ fresh <> "" /\ db_events db !! fresh = None
   else control.eRoomID <$> db_events db !! eventID = Some roomID) ->
  change r raw roomID eventID room es t fresh = Ok next -> events_ok (upsert_event next (db_events db)).
Proof.
  intros Hes Hok Hid. pose proof (readEvents_ok _ _ _ Hes) as Hall. unfold change. set (found := last _).
  case_if as E1; [done|].
  assert (forall st, eventID <> "" -> events_ok (upsert_event (set_state (default (control.mkEvent "" "" 0 0 0 "") found) st) (db_events db))) as Hset.
  { intros st Hne. rewrite (proj2 (String.eqb_neq _ _) Hne) in E1. simpl in E1. destruct found as [e|] eqn:Ef; [|done].
    apply last_filter_elem in Ef as [He Eid]. apply String.eqb_eq in Eid. apply negb_false_iff in E1. simpl.
    destruct (readEvents_sound _ _ _ _ Hes He) as (k & Hk & Hroom).
    destruct (proj1 Hok _ _ Hk) as [Ek _]. apply (narrowed_ok (db_events db)); [|done].
    unfold upsert_event. simpl. rewrite Ek, Hk. simpl. intros k' e'. destruct (decide (k = k')) as [<-|Hd].
    - rewrite lookup_insert_eq. intros [= <-]. exists e. split; [done|]. by split_and!.
    - rewrite lookup_insert_ne by done. eauto. }
  case_if as E2.
  { case_if as E3; [done|]. intros [= <-]. apply Hset. intros ->. simpl in Hid. destruct Hid as [Hm _]. by rewrite Hm in E2. }
  case_if as E3; [done|]. case_if as E4.
  { case_if as E5; [done|]. case_if as E6; [done|]. intros [= <-]. apply Hset. intros ->. done. }
  destruct (decode_event raw) as [input|]; [|done]. case_if as E5; [done|]. case_if as E6; [done|]. case_if as E7; [done|].
  intros [= <-]. unfold upsert_event. simpl. set (id := if String.eqb eventID "" then fresh else eventID).
  assert (id <> "" /\ from_option control.eRoomID roomID (db_events db !! id) = roomID) as [Hne ->].
  { unfold id. destruct (String.eqb_spec eventID "") as [->|]; [destruct Hid as (_ & Hf & ->); done|].
    split; [done|]. destruct (db_events db !! eventID); [by injection Hid | done]. }
  apply insert_apart; [done | done | done |]. intros k2 e2 Hk2 Hd Hroom Hl. simpl in Hroom.
  pose proof (Hall _ _ Hk2 Hroom) as He2. destruct (proj1 Hok _ _ Hk2) as [Ek2 Hne2].
  assert (negb (String.eqb (control.eID e2) eventID) = true) as Hother.
  { rewrite Ek2. unfold id in Hd. apply negb_true_iff, String.eqb_neq. by destruct (String.eqb_spec eventID "") as [->|]. }
  destruct (control.Overlaps e2 input) eqn:Eo.
  { exfalso. rewrite (proj2 (List.existsb_exists _ _)) in E6; [done|]. exists e2. split; [by apply list_elem_of_In | by rewrite Hother, Eo]. }
  unfold control.Overlaps in Eo. unfold live in Hl. rewrite Hl in Eo. unfold apart. simpl.
  apply andb_false_iff in Eo as [Eo|Eo]; simpl in Eo; to_prop; auto.
Qed.

(** ** The transactions and the events *)

(** The random identifier of a new event is new, wherever it is used. *)
Definition fresh_event (o : pop) (db : DB) : Prop :=
  match o with
  | PChangeEvent _ _ _ _ _ _ tk => k_event tk <> "" /\ db_events db !! k_event tk = None
  | _ => True
  end.
Fixpoint fresh_events (db : DB) (ops : list (PublicationService * pop * fault)) : Prop :=
  match ops with
  | [] => True
  | (s, o, f) :: ops' => fresh_event o db /\ fresh_events (pexec s o f db) ops'
  end.

Lemma sign_events s d g t db db' : sign s d g t db = Ok db' -> db_events db' = db_events db.
Proof. intros (_ & _ & raw & _ & _ & ->)%sign_ok. done. Qed.

Lemma publish_body_events s r raw tk db state current db' res :
  publish_body s r raw tk db state current = Ok (db', res) -> db_events db' = db_events db.
Proof.
  unfold publish_body. case_if as E1; [by intros [= <- _]|]. case_if as E2; [by intros [= <- _]|].
  destruct (readDelivery db) as [[d g]|]; [|done]. destruct (rooms_kept _ _); [by intros [= <- _]|].
  destruct (next_runtimes _ _) as [vs|]; [|by intros [= <- _]].
  destruct (sign _ _ _ _ _) as [db1|[|[]|]] eqn:Es; try done; [|by intros [= <- _]]. intros [= <- _]. by apply sign_events in Es.
Qed.

Lemma operate_body_events s id r raw tk db state current db' res :
  operate_body s id r raw tk db state current = Ok (db', res) -> narrowed (db_events db) (db_events db').
Proof.
  unfold operate_body. destruct (if _ : bool then _ else _) as [c|]; [|by intros [= <- _]].
  destruct (readDelivery db) as [[d g]|]; [|done]. destruct (control.Find d id) as [[room v]|]; [|by intros [= <- _]].
  case_if as E1; [by intros [= <- _]|]. case_if as E2.
  - destruct (cGeneration c) as [g'|]; [|by intros [= <- _]]. do 2 (case_if as E3; [by intros [= <- _]|]; clear E3).
    case_if as E5; [done|]. case_if as E6; [by intros [= <- _]|].
    destruct (sign _ _ _ _ _) as [db1|] eqn:Es; [|done]. intros [= <- _]. apply sign_events in Es as ->. apply pause_narrowed.
  - case_if as E3; [by intros [= <- _]|]. case_if as E4; [by intros [= <- _]|]. case_if as E5; [by intros [= <- _]|].
    destruct (operated _ _ _) as [v'|[]]; [|by intros [= <- _]].
    destruct (sign _ _ _ _ _) as [db1|] eqn:Es; [|done]. intros [= <- _]. apply sign_events in Es as ->. apply pause_narrowed.
Qed.

Lemma event_body_events s room ev r raw tk db state current db' res :
  events_ok (db_events db) -> k_event tk <> "" -> db_events db !! k_event tk = None ->
  event_body s room ev r raw tk db state current = Ok (db', res) -> events_ok (db_events db').
Proof.
  intros Hok Hne Hfresh. unfold event_body. case_if as E1; [by intros [= <- _]|].
  destruct (readDelivery db) as [[d g]|]; [|done]. destruct (if _ : bool then _ else _) as [room'|] eqn:Er; [|by intros [= <- _]].
  destruct (control.Find d room') as [[rm v]|]; [|by intros [= <- _]]. case_if as E2; [by intros [= <- _]|].
  destruct (readEvents room' db) as [es|] eqn:Ees; [|done].
  destruct (change _ _ _ _ _ _ _ _) as [next|[]] eqn:Ec; [|by intros [= <- _]].
  destruct (readEvents room' (set_events _ _)) as [es'|]; [|done]. destruct (sign _ _ _ _ _) as [db1|] eqn:Es; [|done]. intros [= <- _].
  apply sign_events in Es as ->. simpl. eapply change_ok; [exact Ees | done | | exact Ec].
  destruct (String.eqb ev "") eqn:Eev; [|done]. simpl in E1. apply orb_false_iff in E1 as [E1 _]. to_prop. done.
Qed.

Lemma tick_room_events v t room runtime es events runtime' events' :
  (forall e, e ∈ es -> live e = true -> events !! control.eID e = Some e) ->
  tick_room v t room runtime es events = (runtime', events') -> narrowed events events'.
Proof.
  intros Hes. unfold tick_room. destruct (List.find live es) as [e|] eqn:Ef.
  2: { case_if as E; by intros [= _ <-]. }
  apply List.find_some in Ef as [He Hl]. apply list_elem_of_In in He. pose proof (Hes e He Hl) as Hk.
  set (q := match control.NextEventMode e t with (mode, st) => _ end).
  assert (narrowed events (snd q)) as Hq.
  { unfold q. destruct (control.NextEventMode e t) as [mode st]. case_if as E; [|done]. apply alter_narrowed. rewrite Hk.
    intros e' [= <-]. by apply settled_state. }
  destruct q as [r1 ev1]. simpl in Hq. case_if as E; [|by intros [= _ <-]]. intros [= _ <-]. case_if as E'; [done|].
  etrans; [exact Hq|]. apply alter_narrowed. intros e' _. by apply settled_state.
Qed.

Lemma tick_rooms_events v t ids i rs d ch db db' d' ch' :
  events_ok (db_events db) -> tick_rooms v t ids i rs d ch db = Ok (db', d', ch') -> events_ok (db_events db').
Proof.
  revert i d ch db. induction rs as [|room rs IH]; intros i d ch db Hok; simpl; [by intros [= <- _ _]|].
  case_if as E1; [by apply IH|]. destruct (control.dRuntimes d !! i) as [old|]; [|done].
  destruct (readEvents _ db) as [es|] eqn:Ees; [|done]. destruct (tick_room _ _ _ _ _ _) as [v' evs] eqn:Et.
  assert (events_ok evs) as Hevs.
  { eapply narrowed_ok; [|exact Hok]. eapply tick_room_events; [|exact Et]. intros e He _.
    destruct (readEvents_sound _ _ _ _ Ees He) as (k & Hk & _). by destruct (proj1 Hok _ _ Hk) as [-> _]. }
  case_decide as E2; intros Ht; by apply IH in Ht.
Qed.

Lemma pexec_events s o f db : events_ok (db_events db) -> fresh_event o db -> events_ok (db_events (pexec s o f db)).
Proof.
  intros Hok Hfresh. assert (forall body db' token r raw action target ck tk a,
    (forall db2 state current db3 res, db_events db2 = db_events db -> body db2 state current = Ok (db3, res) -> events_ok (db_events db3)) ->
    command s token r raw action target true body ck tk db = Commit db' a -> events_ok (db_events db')) as Hcmd.
  { intros body db' token r raw action target ck tk a Hbody Hcm.
    apply command_commit in Hcm as [->|(db2 & state & current & db3 & res & [= _ _ E2 _] & _ & _ & Hb & [= _ _ E3 _])]; [done|].
    rewrite E3. by eapply Hbody. }
  destruct o; simpl; apply (finish_step (fun db' => events_ok (db_events db'))); try done; intros db' a'.
  - by intros (_ & _ & ->)%ReplaceDraft_tables.
  - apply Hcmd. intros * E Hb. by rewrite (publish_body_events _ _ _ _ _ _ _ _ _ Hb), E.
  - unfold Operate. destruct (if _ : bool then _ else _); [|done]. apply Hcmd. intros * E Hb.
    eapply narrowed_ok; [by eapply operate_body_events | by rewrite E].
  - apply Hcmd. intros * E Hb. destruct Hfresh. eapply event_body_events; [..|exact Hb]; by rewrite ?E.
  - unfold Refresh. destruct (readConfig db); [|done]. destruct (readDelivery db) as [[d g]|]; [|done].
    assert ((match sign s d g t db with Err e => Fail e | Ok db' => Commit db' tt end) = Commit db' a' -> events_ok (db_events db')) as Hs.
    { destruct (sign _ _ _ _ _) as [db1|] eqn:Es; [|done]. intros [= <- _]. by rewrite (sign_events _ _ _ _ _ _ Es). }
    destruct (de_publication _) as [p|]; [|done]. case_if as E1; [done|]. destruct (envelope_kid _); [|done].
    case_if as E2; [by intros [= <- _] | done].
  - unfold Tick. destruct (readConfig db); [|done]. destruct (readDelivery db) as [[d g]|]; [|done].
    destruct (tick_rooms _ _ _ _ _ _ _ _) as [[[db1 d1] ch]|] eqn:Et; [|done]. apply tick_rooms_events in Et; [|done]. case_if as E1.
    + by intros [= <- _].
    + destruct (sign _ _ _ _ _) as [db2|] eqn:Es; [|done]. intros [= <- _]. by rewrite (sign_events _ _ _ _ _ _ Es).
  - unfold Acknowledge. repeat (case_if as E; [done|]; clear E). destruct (readDelivery db) as [[d g]|]; [|done].
    destruct (de_publication _) as [p|]; [|done]. repeat (case_if as E; [done|]; clear E). intros [= <- _].
    pose proof (auditRecovery_core node (nRooms a) ids db) as [= _ _ Ee _]. simpl. by rewrite Ee.
  - unfold RecoverClock. repeat (case_if as E; [done|]; clear E). destruct (readConfig db); [|done].
    destruct (readDelivery db) as [[d g]|]; [|done]. destruct (de_publication _) as [p|]; [|done].
    case_if as E3; [done|]. case_if as E4; [by intros [= <- _]|]. case_if as E5; [done|].
    destruct (sign _ _ _ _ _) as [db1|] eqn:Es; [|done]. intros [= <- _]. simpl. by rewrite (sign_events _ _ _ _ _ _ Es).
Qed.

Lemma prun_events db ops : events_ok (db_events db) -> fresh_events db ops -> events_ok (db_events (prun db ops)).
Proof.
  revert db. induction ops as [|[[s o] f] ops IH]; intros db Hok; [done|]. intros [Hf Hr]. simpl. apply IH; [|done]. by apply pexec_events.
Qed.

(** C33: the schedule of a room is never ambiguous. Whatever operators create,
    move, cancel or resume, whatever the scheduler and the overrides do, and
    under any faults of the database: of two events of a room that are neither
    cancelled nor completed, one ends before the other begins, so that at no
    instant two of them are in force. *)
Theorem events_never_overlap db0 ops k1 k2 e1 e2 t :
  events_ok (db_events db0) -> fresh_events db0 ops -> let es := db_events (prun db0 ops) in
  es !! k1 = Some e1 -> es !! k2 = Some e2 -> control.eRoomID e1 = control.eRoomID e2 -> live e1 = true -> live e2 = true ->
  control.ePrequeueAt e1 <= t < control.eDrainAt e1 -> control.ePrequeueAt e2 <= t < control.eDrainAt e2 -> k1 = k2.
Proof.
  intros Hok Hfresh es H1' H2' Hroom L1 L2 T1 T2. destruct (decide (k1 = k2)) as [|Hne]; [done|]. exfalso.
  destruct (proj2 (prun_events _ _ Hok Hfresh) k1 k2 e1 e2); [done.. | lia | lia].
Qed.

(** ** Rooms of a delivery *)

Lemma find_pair_index id rs vs room v :
  control.find_pair id rs vs = Some (room, v) ->
  exists i x, rs !! i = Some room /\ vs !! i = Some x /\ control.rrRuntime x = v /\ control.ID room = id /\
    forall j r, (j < i)%nat -> rs !! j = Some r -> control.ID r <> id.
Proof.
  revert vs. induction rs as [|r rs IH]; intros [|x vs]; simpl; try done. destruct (String.eqb_spec (control.ID r) id) as [E|E].
  - intros [= -> <-]. exists 0%nat, x. split_and!; try done. intros j r' Hj. lia.
  - intros Hf. apply IH in Hf as (i & x' & H1' & H2' & H3' & H4' & H5'). exists (S i), x'. split_and!; try done.
    intros [|j] r' Hj; simpl; [by intros [= ->]|]. apply H5'. lia.
Qed.
Lemma find_pair_first id rs vs i room x :
  rs !! i = Some room -> vs !! i = Some x -> control.ID room = id ->
  (forall j r, (j < i)%nat -> rs !! j = Some r -> control.ID r <> id) ->
  control.find_pair id rs vs = Some (room, control.rrRuntime x).
Proof.
  revert vs i. induction rs as [|r rs IH]; intros [|y vs] [|i]; simpl; try done.
  - intros [= ->] [= ->] -> _. by rewrite String.eqb_refl.
  - intros Hr Hx Hid Hj. destruct (String.eqb_spec (control.ID r) id) as [E|E]; [by destruct (Hj 0%nat r); [lia | |]|].
    apply (IH vs i); try done. intros j r' Hlt Hj'. apply (Hj (S j)); [lia | done].
Qed.

(** ** The end of a drain *)

Definition reports (m : RoomMetrics) (id : string) (v : control.Runtime) : Prop :=
  mRoomID m = id /\ mMode m = "DRAINING" /\ mRevision m = control.rtRevision v /\ mEpoch m = control.rtEpoch v.
Definition queue_empty (m : RoomMetrics) : Prop := mWaiting m = 0 /\ mReady m = 0 /\ mRecoveryUntil m = 0.
Definition origin_quiet (v : control.Runtime) (m : RoomMetrics) : Prop :=
  mOriginHealthy m = true /\ mArrivalWindowReady m = true /\
  mArrivalsFiveMinutes m <= control.AdmissionsPerMinute (control.rtLimits v) * 5.

(** A node acknowledged the generation within 15 seconds and reports on the drain. *)
Definition node_evidence (node : string) (P : RoomMetrics -> Prop) (id : string) (v : control.Runtime) (t : Z) (db : DB) : Prop :=
  exists n m, db_nodes db !! node = Some n /\ no_generation n = de_generation (db_delivery db) /\
    t - 15 * Second < no_observed n <= t /\ m ∈ no_metrics n /\ reports m id v /\ P m.

(** What the loop over the metrics of a node found. *)
Lemma drain_fold room v node ms acc :
  let acc' := fold_left (drain_step room v node) ms acc in
  (fst acc' = true -> fst acc = true \/ vID node = "coordinator" /\ exists m, m ∈ ms /\ reports m room v /\ queue_empty m) /\
  (snd acc' = true -> snd acc = true \/ vID node = "gateway" /\ exists m, m ∈ ms /\ reports m room v /\ origin_quiet v m).
Proof.
  revert acc. induction ms as [|m ms IH]; intros acc; simpl; [auto|].
  destruct (IH (drain_step room v node acc m)) as [IH1 IH2]. clear IH. unfold drain_step in IH1, IH2 |- *.
  destruct (_ || _) eqn:E.
  { split; intros Ht; [destruct (IH1 Ht) as [?|(? & x & ? & ?)] | destruct (IH2 Ht) as [?|(? & x & ? & ?)]]; auto;
      right; (split; [done|]); exists x; set_solver. }
  assert (reports m room v) as Hm by (to_prop; by split_and!). simpl in IH1, IH2.
  split; intros Ht; [destruct (IH1 Ht) as [Hq|(? & x & ? & ?)] | destruct (IH2 Ht) as [Hq|(? & x & ? & ?)]];
    try (right; split; [done|]; exists x; set_solver).
  - destruct (String.eqb_spec (vID node) "coordinator"); [|by left]. right. split; [done|]. exists m. to_prop.
    split; [set_solver|]. by split_and!.
  - destruct (String.eqb_spec (vID node) "gateway"); [|by left]. right. split; [done|]. exists m. to_prop.
    split; [set_solver|]. by split_and!.
Qed.

Lemma safeDrain_evidence db d t id v :
  safeDrain (deliveryView d (de_generation (db_delivery db)) t db) id v = true ->
  node_evidence "coordinator" queue_empty id v t db /\ node_evidence "gateway" (origin_quiet v) id v t db.
Proof.
  unfold safeDrain, deliveryView. simpl. set (applied := _ && _ && _). destruct applied eqn:Ea; [|done]. simpl.
  unfold applied in Ea. clear applied. unfold node_rows in *. simpl in *.
  destruct (db_nodes db !! "coordinator") as [nc|] eqn:Ec, (db_nodes db !! "gateway") as [ng|] eqn:Eg; simpl in *; try done.
  set (c := mkNodeView "coordinator" _ _ _ _) in *. set (g := mkNodeView "gateway" _ _ _ _) in *. intros Hs.
  set (acc1 := fold_left (drain_step id v c) (no_metrics nc) (false, false)) in Hs.
  set (acc2 := fold_left (drain_step id v g) (no_metrics ng) acc1) in Hs.
  assert (fst acc2 = true /\ snd acc2 = true) as [Hq Ho] by (destruct acc2; by to_prop).
  destruct (drain_fold id v g (no_metrics ng) acc1) as [Q2 O2], (drain_fold id v c (no_metrics nc) (false, false)) as [Q1 O1].
  fold acc1 acc2 in Q1, Q2, O1, O2. to_prop. split.
  - destruct (Q2 Hq) as [Hq1|[? _]]; [|done]. destruct (Q1 Hq1) as [|(_ & m & Hm & Hr & Hp)]; [done|].
    exists nc, m. by split_and!.
  - destruct (O2 Ho) as [Ho1|(_ & m & Hm & Hr & Hp)]; [destruct (O1 Ho1) as [|[? _]]; done|]. exists ng, m. by split_and!.
Qed.

(** Each runtime after a run of the scheduler is the old one, or what
    [tick_room] makes of it. *)
Lemma tick_rooms_index v t ids i rs d ch db db' d' ch' j x x' :
  tick_rooms v t ids i rs d ch db = Ok (db', d', ch') ->
  control.dRuntimes d !! j = Some x -> control.dRuntimes d' !! j = Some x' ->
  x' = x \/ exists room es evs, (i <= j)%nat /\ rs !! (j - i)%nat = Some room /\
    x' = control.mkRoomRuntime (control.rrRoomID x) (bump (fst (tick_room v t room (control.rrRuntime x) es evs))).
Proof.
  revert i d ch db x. induction rs as [|room rs IH]; intros i d ch db x; simpl.
  { intros [= _ <- _] -> [= ->]. by left. }
  assert (forall d1 ch1 db1, tick_rooms v t ids (S i) rs d1 ch1 db1 = Ok (db', d', ch') -> control.dRuntimes d1 !! j = Some x ->
    control.dRuntimes d' !! j = Some x' -> x' = x \/ exists room' es evs, (i <= j)%nat /\ (room :: rs) !! (j - i)%nat = Some room' /\
    x' = control.mkRoomRuntime (control.rrRoomID x) (bump (fst (tick_room v t room' (control.rrRuntime x) es evs)))) as Hnext.
  { intros d1 ch1 db1 Ht Hx Hx'. destruct (IH _ _ _ _ _ Ht Hx Hx') as [->|(r & es & evs & Hle & Hr & E)]; [by left|]. right.
    exists r, es, evs. split_and!; [lia | | done]. by replace (j - i)%nat with (S (j - S i)) by lia. }
  case_if as E1; [by apply Hnext|]. destruct (control.dRuntimes d !! i) as [old|] eqn:Ei; [|done].
  destruct (readEvents _ db) as [es|]; [|done]. destruct (tick_room _ _ _ _ _ _) as [v' evs] eqn:Et.
  case_decide as E2; [apply Hnext|]. intros Ht Hx Hx'. destruct (decide (i = j)) as [<-|Hne].
  - rewrite Ei in Hx. injection Hx as ->. assert (i < List.length (control.dRuntimes d))%nat by (by eapply lookup_lt_Some).
    assert (x' = control.mkRoomRuntime (control.rrRoomID x) (bump v')) as ->.
    { eapply IH in Ht as [E|(r & es' & evs' & Hle & _)]; [exact E | lia | simpl; by rewrite list_lookup_insert_eq | done]. }
    right. exists room, es, (db_events db). rewrite Nat.sub_diag, Et. split_and!; done.
  - eapply Hnext in Ht; [exact Ht | simpl; by rewrite list_lookup_insert_ne | done].
Qed.

Lemma tick_room_same v t room r es evs :
  let r' := fst (tick_room v t room r es evs) in
  control.rtRevision r' = control.rtRevision r /\ control.rtEpoch r' = control.rtEpoch r.
Proof.
  unfold tick_room. destruct (List.find live es) as [e|]; [destruct (control.NextEventMode e t) as [mode st]; case_if as E|];
    simpl; case_if as E'; done.
Qed.

(** The scheduler turns a room off only from DRAINING, on evidence. *)
Lemma tick_room_off v t room r es evs :
  control.rtMode r <> "OFF" -> control.rtMode (fst (tick_room v t room r es evs)) = "OFF" ->
  exists r', control.rtRevision r' = control.rtRevision r /\ control.rtEpoch r' = control.rtEpoch r /\
    control.rtLimits r' = control.rtLimits r /\ safeDrain v (control.ID room) r' = true.
Proof.
  intros Hoff. unfold tick_room.
  assert (forall r1 (evs1 : gmap string control.Event) a, control.rtRevision r1 = control.rtRevision r /\ control.rtEpoch r1 = control.rtEpoch r /\
      control.rtLimits r1 = control.rtLimits r -> control.rtMode r1 <> "OFF" ->
    control.rtMode (fst (if String.eqb (control.rtMode r1) "DRAINING" && safeDrain v (control.ID room) r1 then a else (r1, evs1))) = "OFF" ->
    exists r', control.rtRevision r' = control.rtRevision r /\ control.rtEpoch r' = control.rtEpoch r /\
      control.rtLimits r' = control.rtLimits r /\ safeDrain v (control.ID room) r' = true) as Hlast.
  { intros r1 evs1 a (? & ? & ?) Hr1. case_if as E; [|done]. to_prop. exists r1. by split_and!. }
  destruct (List.find live es) as [e|]; [destruct (control.NextEventMode e t) as [mode st] eqn:En; case_if as E|];
    apply Hlast; try done. simpl. unfold control.NextEventMode in En.
  repeat match type of En with (if ?b then _ else _) = _ => destruct b end; injection En as <- <-; done.
Qed.

(** C34: a drain ends on evidence. When the scheduler turns a room off, its
    coordinator and its gateway both acknowledged the published generation
    within the last 15 seconds and reported on this revision and epoch while
    draining: the queue is empty, no visitor holds an unclaimed admission, no
    recovery is due, the origin is healthy and a full window of arrivals is
    within the room's rate. *)
Theorem drain_ends_on_evidence s t view ids db db' id room room' v v' :
  Tick s t view ids db = Commit db' tt ->
  control.Find (de_document (db_delivery db)) id = Some (room, v) ->
  control.Find (de_document (db_delivery db')) id = Some (room', v') ->
  control.rtMode v <> "OFF" -> control.rtMode v' = "OFF" ->
  node_evidence "coordinator" queue_empty id v view db /\ node_evidence "gateway" (origin_quiet v) id v view db.
Proof.
  unfold Tick. destruct (readConfig db); [|done]. destruct (readDelivery db) as [[d g]|] eqn:Er; [|done].
  apply readDelivery_ok in Er as (-> & -> & _). set (d := de_document (db_delivery db)).
  destruct (tick_rooms _ _ _ _ _ _ _ _) as [[[db1 d1] ch]|] eqn:Et; [|done].
  destruct (tick_rooms_core _ _ _ _ _ _ _ _ _ _ _ Et) as (_ & Ed & _ & Ecfg). case_if as E1.
  { intros [= <-]. rewrite Ed. fold d. intros -> [= -> ->]. done. }
  destruct (sign _ _ _ _ _) as [db2|] eqn:Es; [|done]. intros [= <-]. apply sign_ok in Es as (_ & _ & raw & _ & _ & ->). simpl.
  intros (i & x & Hr & Hx & <- & Hid & Hfirst)%find_pair_index (i' & x' & Hr' & Hx' & <- & Hid' & Hfirst')%find_pair_index Hm Hm'.
  rewrite Ecfg in Hr', Hfirst'. fold d in Hr, Hfirst. assert (i' = i) as ->.
  { destruct (lt_eq_lt_dec i i') as [[Hlt| ->]|Hlt]; [by destruct (Hfirst' i room Hlt) | done | by destruct (Hfirst i' room' Hlt)]. }
  rewrite Hr in Hr'. injection Hr' as <-.
  destruct (tick_rooms_index _ _ _ _ _ _ _ _ _ _ _ _ _ _ Et Hx Hx') as [->|(rm & es & evs & _ & Hrm & ->)]; [done|].
  rewrite Nat.sub_0_r, Hr in Hrm. injection Hrm as <-. simpl in Hm'.
  apply tick_room_off in Hm' as (r' & E1' & E2' & E3' & Hsafe); [|done]. rewrite Hid in Hsafe.
  apply safeDrain_evidence in Hsafe. unfold node_evidence, reports, origin_quiet in *. by rewrite E1', E2', E3' in Hsafe.
Qed.

(** ** Versions *)

(** A runtime with its revision is never reused for another. *)
Definition rt_advances (v v' : control.Runtime) : Prop :=
  control.rtRevision v <= control.rtRevision v' /\ control.rtEpoch v <= control.rtEpoch v' /\
  (control.rtRevision v = control.rtRevision v' -> v' = v).
Definition advances (d d' : control.Delivery) : Prop :=
  forall id room v, control.Find d id = Some (room, v) ->
    exists room' v', control.Find d' id = Some (room', v') /\ control.PublicID room' = control.PublicID room /\ rt_advances v v'.

#[local] Instance rt_advances_preorder : PreOrder rt_advances.
Proof.
  split; [by intros v; split_and!|]. intros a b c (? & ? & E1) (? & ? & E2). split_and!; [lia | lia |].
  intros E. rewrite E2 by lia. apply E1. lia.
Qed.
#[local] Instance advances_preorder : PreOrder advances.
Proof.
  split; [intros d id room v Hf; by exists room, v|]. intros a b c H1' H2' id room v Hf.
  destruct (H1' _ _ _ Hf) as (r1 & v1 & F1 & P1 & A1). destruct (H2' _ _ _ F1) as (r2 & v2 & F2 & P2 & A2).
  exists r2, v2. split_and!; [done | congruence | by etrans].
Qed.

Definition rt_range (x : control.RoomRuntime) : Prop :=
  1 <= control.rtRevision (control.rrRuntime x) < 9007199254740990 /\ 1 <= control.rtEpoch (control.rrRuntime x) < 9007199254740990.

Lemma runtimes_ok_range profile rs vs :
  List.length vs = List.length rs -> control.runtimes_ok profile rs vs = true ->
  Forall2 (fun r x => control.rrRoomID x = control.ID r /\ rt_range x) rs vs.
Proof.
  revert vs. induction rs as [|r rs IH]; intros [|x vs] Hl; simpl; try done. intros Hok. to_prop.
  constructor; [|apply IH; [by injection Hl | done]]. split; [done|].
  destruct (control.Runtime_Validate (control.rrRuntime x) profile) as [[]|] eqn:Ev; [|done].
  unfold control.Runtime_Validate in Ev. match type of Ev with (if ?b then _ else _) = _ => destruct b eqn:E; [done|] end.
  to_prop. split; lia.
Qed.

Lemma valid_runtimes d :
  delivery_valid d = true -> Forall2 (fun r x => control.rrRoomID x = control.ID r /\ rt_range x) (control.rooms (control.dConfig d)) (control.dRuntimes d) /\
    control.rooms_ok url_Parse logo_ok (control.Profile (control.dConfig d)) [] (control.rooms (control.dConfig d)) = Ok tt.
Proof.
  unfold delivery_valid, control.Delivery_Validate. case_if as E1; [done|]. case_if as E2; [done|]. intros _. to_prop. split.
  - apply (runtimes_ok_range (control.Profile (control.dConfig d))); [by apply Nat.eqb_eq | done].
  - apply control.Validate_rooms. by destruct (control.Validate _ _ _) as [[]|].
Qed.

Lemma rooms_ok_ids profile before rs :
  NoDup (control.ID <$> before) -> control.rooms_ok url_Parse logo_ok profile before rs = Ok tt -> NoDup (control.ID <$> (before ++ rs)).
Proof.
  revert before. induction rs as [|r rs IH]; intros before Hb; cbn [control.rooms_ok]; [by rewrite app_nil_r|].
  case_if as E1; [done|]. case_if as E2; [done|]. intros Hok. apply IH in Hok; [by rewrite <- app_assoc in Hok|].
  to_prop. rewrite fmap_app. apply NoDup_app. split_and!; [done | | apply NoDup_singleton]. intros x Hx ->%list_elem_of_singleton. done.
Qed.

(** The runtime of a room is where its identifier is. *)
Lemma valid_unique d id room v x :
  delivery_valid d = true -> control.Find d id = Some (room, v) -> x ∈ control.dRuntimes d -> control.rrRoomID x = id ->
  control.rrRuntime x = v.
Proof.
  intros [Hall Hok]%valid_runtimes (i & y & Hr & Hy & <- & Hid & _)%find_pair_index Hx E.
  apply list_elem_of_lookup in Hx as [j Hx]. apply (rooms_ok_ids _ []) in Hok; [|constructor].
  destruct (Forall2_lookup_r _ _ _ _ _ Hall Hx) as (r & Hj & E' & _).
  assert (j = i) as ->. { apply (NoDup_lookup _ _ _ id Hok); simpl; rewrite list_lookup_fmap, ?Hj, ?Hr; simpl; congruence. }
  rewrite Hy in Hx. by injection Hx as ->.
Qed.

Lemma bump_advances v v' : 1 <= control.rtRevision v < 9007199254740990 ->
  control.rtRevision v' = control.rtRevision v -> control.rtEpoch v' = control.rtEpoch v -> rt_advances v (bump v').
Proof.
  intros Hr E1 E2. unfold rt_advances, bump. simpl. rewrite E1, E2, i64_id by (unfold in_i64; lia). split_and!; lia.
Qed.

Lemma advances_pointwise d d' :
  control.dConfig d' = control.dConfig d ->
  Forall2 (fun x x' => rt_advances (control.rrRuntime x) (control.rrRuntime x')) (control.dRuntimes d) (control.dRuntimes d') ->
  advances d d'.
Proof.
  intros Ec Hall id room v (i & x & Hr & Hx & <- & Hid & Hfirst)%find_pair_index.
  destruct (Forall2_lookup_l _ _ _ _ _ Hall Hx) as (x' & Hx' & Ha). exists room, (control.rrRuntime x'). split_and!; [|done|done].
  unfold control.Find. rewrite Ec. by eapply find_pair_first.
Qed.

Lemma set_runtime_advances d id room v v' :
  delivery_valid d = true -> control.Find d id = Some (room, v) ->
  control.rtRevision v' = control.rtRevision v -> control.rtEpoch v' = control.rtEpoch v -> advances d (set_runtime d id (bump v')).
Proof.
  intros Hv Hf E1 E2. apply advances_pointwise; [done|]. simpl. apply Forall2_fmap_r, Forall_Forall2_diag, Forall_forall.
  intros x Hx. unfold compose. destruct (String.eqb_spec (control.rrRoomID x) id) as [E|E]; [|reflexivity]. simpl.
  pose proof (valid_unique _ _ _ _ _ Hv Hf Hx E) as Ex. rewrite Ex. apply bump_advances; [|done|done].
  apply valid_runtimes in Hv as [Hall _]. apply list_elem_of_lookup in Hx as [j Hx].
  destruct (Forall2_lookup_r _ _ _ _ _ Hall Hx) as (r & _ & _ & [Hrange _]). by rewrite <- Ex.
Qed.

Lemma new_epoch_advances until d : delivery_valid d = true -> advances d (new_epoch until d).
Proof.
  intros [Hall _]%valid_runtimes. apply advances_pointwise; [done|]. simpl.
  induction Hall as [|r x rs vs [_ [Hr He]] _ IH]; simpl; constructor; [|exact IH]. unfold rt_advances. simpl.
  rewrite i64_id, u64_id by (unfold in_i64, in_u64; lia). split_and!; lia.
Qed.

Lemma tick_rooms_length v t ids i rs d ch db db' d' ch' :
  tick_rooms v t ids i rs d ch db = Ok (db', d', ch') -> List.length (control.dRuntimes d') = List.length (control.dRuntimes d).
Proof.
  revert i ch d db. induction rs as [|r rs IH]; intros i ch d db; simpl; [by intros [= _ <- _]|].
  case_if as E1; [apply IH|]. destruct (control.dRuntimes d !! i) as [old|]; [|done]. destruct (readEvents _ db) as [es|]; [|done].
  destruct (tick_room _ _ _ _ _ _) as [v' evs]. case_decide as E2; intros Ht; apply IH in Ht as ->; simpl; by rewrite ?length_insert.
Qed.

Lemma tick_advances v t ids d db db' d' ch' :
  delivery_valid d = true -> tick_rooms v t ids 0 (control.rooms (control.dConfig d)) d false db = Ok (db', d', ch') -> advances d d'.
Proof.
  intros [Hall _]%valid_runtimes Ht. apply advances_pointwise; [by eapply tick_rooms_core|].
  apply Forall2_same_length_lookup_2; [symmetry; by eapply tick_rooms_length|]. intros i x x' Hx Hx'.
  destruct (tick_rooms_index _ _ _ _ _ _ _ _ _ _ _ _ _ _ Ht Hx Hx') as [->|(rm & es & evs & _ & _ & ->)]; [reflexivity|]. simpl.
  destruct (tick_room_same v t rm (control.rrRuntime x) es evs). destruct (Forall2_lookup_r _ _ _ _ _ Hall Hx) as (r & _ & _ & [Hrange _]).
  by apply bump_advances.
Qed.

Lemma next_runtimes_index previous rs vs i r :
  next_runtimes previous rs = Some vs -> rs !! i = Some r ->
  exists v, vs !! i = Some (control.mkRoomRuntime (control.ID r) v) /\ next_runtime previous r = Some v.
Proof.
  revert vs i. induction rs as [|r0 rs IH]; intros vs i; simpl; [done|]. destruct (next_runtime previous r0) as [v0|] eqn:E0; [|done].
  destruct (next_runtimes previous rs) as [vs'|]; [|done]. intros [= <-]. destruct i as [|i]; simpl; [intros [= ->]; eauto | by apply IH].
Qed.

Lemma first_index (p : control.Room -> bool) rs : existsb p rs = true ->
  exists i r, rs !! i = Some r /\ p r = true /\ forall j r', (j < i)%nat -> rs !! j = Some r' -> p r' = false.
Proof.
  induction rs as [|r rs IH]; simpl; [done|]. destruct (p r) eqn:Ep; intros Hex.
  - exists 0%nat, r. split_and!; try done. intros j r' Hj. lia.
  - apply IH in Hex as (i & r1 & Hi & Hp & Hj). exists (S i), r1. split_and!; try done. intros [|j] r' Hlt; simpl; [by intros [= <-]|].
    apply Hj. lia.
Qed.

Lemma publish_advances previous current vs :
  delivery_valid previous = true -> rooms_kept (control.rooms current) (control.rooms (control.dConfig previous)) = None ->
  next_runtimes previous (control.rooms current) = Some vs -> advances previous (control.mkDelivery current vs).
Proof.
  intros Hv Hkept Hnext id room v Hf. pose proof Hf as (i & x & Hr & Hx & <- & Hid & _)%find_pair_index.
  assert (room_kept (control.rooms current) room = None) as Hk.
  { revert Hkept. clear -Hr. revert i Hr. induction (control.rooms (control.dConfig previous)) as [|r rs IH]; intros [|i]; simpl; try done.
    - intros [= ->]. by destruct (room_kept _ room).
    - destruct (room_kept _ r); [done|]. apply IH. }
  unfold room_kept in Hk. destruct (existsb _ _) eqn:Epub in Hk; [done|]. destruct (existsb _ _) eqn:Eid in Hk; [|done]. clear Hk.
  apply first_index in Eid as (k & r & Hk & Eid & Hfirst). apply String.eqb_eq in Eid.
  destruct (next_runtimes_index _ _ _ _ _ Hnext Hk) as (v' & Hv' & Hn). exists r, v'.
  unfold next_runtime in Hn. rewrite Eid, Hid, Hf in Hn.
  destruct (negb _ && _); [done|]. apply valid_runtimes in Hv as [Hall _].
  destruct (Forall2_lookup_r _ _ _ _ _ Hall Hx) as (r' & _ & _ & [Hrange _]). split_and!.
  - unfold control.Find. simpl. apply (find_pair_first id _ _ k r _ Hk Hv'); [congruence|]. intros j r'' Hlt Hj E.
    pose proof (Hfirst _ _ Hlt Hj) as Hne. simpl in Hne. apply String.eqb_neq in Hne. congruence.
  - destruct (String.eqb_spec (control.PublicID r) (control.PublicID room)) as [|Hne]; [done|]. exfalso.
    enough (existsb (fun r => String.eqb (control.ID r) (control.ID room) && negb (String.eqb (control.PublicID r) (control.PublicID room)))
      (control.rooms current) = true) by congruence.
    apply List.existsb_exists. exists r. split; [by eapply list_elem_of_In, list_elem_of_lookup_2|].
    by rewrite Eid, String.eqb_refl, (proj2 (String.eqb_neq _ _) Hne).
  - injection Hn as <-. unfold rt_advances. destruct (negb (control.Active room) && control.Active r), (negb (control.Active r)); simpl;
      rewrite i64_id by (unfold in_i64; lia); split_and!; lia.
Qed.

(** The document of the delivery only advances. *)
Definition doc (db : DB) : control.Delivery := de_document (db_delivery db).

Lemma sign_doc s d g t db db' : sign s d g t db = Ok db' -> doc db' = d.
Proof. by intros (_ & _ & raw & _ & _ & ->)%sign_ok. Qed.

Lemma publish_body_doc s r raw tk db state current db' res :
  publish_body s r raw tk db state current = Ok (db', res) -> advances (doc db) (doc db').
Proof.
  unfold publish_body. case_if as E1; [by intros [= <- _]|]. case_if as E2; [by intros [= <- _]|].
  destruct (readDelivery db) as [[d g]|] eqn:Er; [|done]. apply readDelivery_ok in Er as (-> & -> & Hv).
  destruct (rooms_kept _ _) eqn:Ek; [by intros [= <- _]|]. destruct (next_runtimes _ _) as [vs|] eqn:En; [|by intros [= <- _]].
  destruct (sign _ _ _ _ _) as [db1|[|[]|]] eqn:Es; try done; [|by intros [= <- _]]. intros [= <- _].
  rewrite (sign_doc _ _ _ _ _ _ Es). by apply publish_advances.
Qed.

Lemma operated_versions c profile v v' : operated c profile v = Ok v' ->
  control.rtRevision v' = control.rtRevision v /\ control.rtEpoch v' = control.rtEpoch v.
Proof.
  unfold operated. repeat (case_if as E; [by intros [= <-]|]; clear E). case_if as E; [|done].
  destruct (cLimits c) as [l|]; [|done]. case_if as E'; [|done]. by intros [= <-].
Qed.

Lemma operate_body_doc s id r raw tk db state current db' res :
  operate_body s id r raw tk db state current = Ok (db', res) -> advances (doc db) (doc db').
Proof.
  unfold operate_body. destruct (if _ : bool then _ else _) as [c|]; [|by intros [= <- _]].
  destruct (readDelivery db) as [[d g]|] eqn:Er; [|done]. apply readDelivery_ok in Er as (-> & -> & Hv). fold (doc db) in *.
  destruct (control.Find (doc db) id) as [[room v]|] eqn:Ef; [|by intros [= <- _]].
  case_if as E1; [by intros [= <- _]|]. case_if as E2.
  - destruct (cGeneration c) as [g'|]; [|by intros [= <- _]]. do 2 (case_if as E3; [by intros [= <- _]|]; clear E3).
    case_if as E5; [done|]. case_if as E6; [by intros [= <- _]|].
    destruct (sign _ _ _ _ _) as [db1|] eqn:Es; [|done]. intros [= <- _]. rewrite (sign_doc _ _ _ _ _ _ Es). by apply new_epoch_advances.
  - case_if as E3; [by intros [= <- _]|]. case_if as E4; [by intros [= <- _]|]. case_if as E5; [by intros [= <- _]|].
    destruct (operated _ _ _) as [v'|[]] eqn:Eo; [|by intros [= <- _]]. apply operated_versions in Eo as [Ev1 Ev2].
    destruct (sign _ _ _ _ _) as [db1|] eqn:Es; [|done]. intros [= <- _]. rewrite (sign_doc _ _ _ _ _ _ Es).
    eapply set_runtime_advances; [done | done | |]; by case_if as E6.
Qed.

Lemma event_body_doc s room ev r raw tk db state current db' res :
  event_body s room ev r raw tk db state current = Ok (db', res) -> advances (doc db) (doc db').
Proof.
  unfold event_body. case_if as E1; [by intros [= <- _]|].
  destruct (readDelivery db) as [[d g]|] eqn:Er; [|done]. apply readDelivery_ok in Er as (-> & -> & Hv). fold (doc db) in *.
  destruct (if _ : bool then _ else _) as [room'|]; [|by intros [= <- _]].
  destruct (control.Find (doc db) room') as [[rm v]|] eqn:Ef; [|by intros [= <- _]]. case_if as E2; [by intros [= <- _]|].
  destruct (readEvents room' db) as [es|]; [|done]. destruct (change _ _ _ _ _ _ _ _) as [next|[]]; [|by intros [= <- _]].
  destruct (readEvents room' (set_events _ _)) as [es'|]; [|done]. destruct (sign _ _ _ _ _) as [db1|] eqn:Es; [|done]. intros [= <- _].
  rewrite (sign_doc _ _ _ _ _ _ Es). by eapply set_runtime_advances.
Qed.

Lemma pexec_doc s o f db : advances (doc db) (doc (pexec s o f db)).
Proof.
  assert (forall db1, core db1 = core db -> doc db1 = doc db) as Hcore by (intros db1 [= _ E _ _]; unfold doc; by rewrite E).
  assert (forall body db' token r raw action target ck tk a,
    (forall db2 state current db3 res, body db2 state current = Ok (db3, res) -> advances (doc db2) (doc db3)) ->
    command s token r raw action target true body ck tk db = Commit db' a -> advances (doc db) (doc db')) as Hcmd.
  { intros body db' token r raw action target ck tk a Hbody Hcm.
    apply command_commit in Hcm as [->|(db2 & state & current & db3 & res & E2 & _ & _ & Hb & [= _ E3 _ _])]; [done|].
    unfold doc at 2. rewrite E3. fold (doc db3). rewrite <- (Hcore _ E2). by eapply Hbody. }
  destruct o; simpl; apply (finish_step (fun db' => advances (doc db) (doc db'))); try done; intros db' a'.
  - intros (_ & Ed & _)%ReplaceDraft_tables. unfold doc. by rewrite Ed.
  - apply Hcmd. intros *. apply publish_body_doc.
  - unfold Operate. destruct (if _ : bool then _ else _); [|done]. apply Hcmd. intros *. apply operate_body_doc.
  - apply Hcmd. intros *. apply event_body_doc.
  - unfold Refresh. destruct (readConfig db); [|done]. destruct (readDelivery db) as [[d g]|] eqn:Er; [|done].
    apply readDelivery_ok in Er as (-> & -> & _).
    assert ((match sign s (doc db) (de_generation (db_delivery db)) t db with Err e => Fail e | Ok db' => Commit db' tt end) = Commit db' a' ->
      advances (doc db) (doc db')) as Hs.
    { destruct (sign _ _ _ _ _) as [db1|] eqn:Es; [|done]. intros [= <- _]. by rewrite (sign_doc _ _ _ _ _ _ Es). }
    destruct (de_publication _) as [p|]; [|done]. case_if as E1; [done|]. destruct (envelope_kid _); [|done].
    case_if as E2; [by intros [= <- _] | done].
  - unfold Tick. destruct (readConfig db); [|done]. destruct (readDelivery db) as [[d g]|] eqn:Er; [|done].
    apply readDelivery_ok in Er as (-> & -> & Hv).
    destruct (tick_rooms _ _ _ _ _ _ _ _) as [[[db1 d1] ch]|] eqn:Et; [|done]. case_if as E1.
    + intros [= <- _]. apply tick_rooms_core in Et as (_ & Ed & _). unfold doc. by rewrite Ed.
    + destruct (sign _ _ _ _ _) as [db2|] eqn:Es; [|done]. intros [= <- _]. rewrite (sign_doc _ _ _ _ _ _ Es). by eapply tick_advances.
  - unfold Acknowledge. repeat (case_if as E; [done|]; clear E). destruct (readDelivery db) as [[d g]|]; [|done].
    destruct (de_publication _) as [p|]; [|done]. repeat (case_if as E; [done|]; clear E). intros [= <- _].
    unfold doc at 2. simpl. fold (doc (auditRecovery node (nRooms a) ids db)). by rewrite (Hcore _ (auditRecovery_core _ _ _ _)).
  - unfold RecoverClock. repeat (case_if as E; [done|]; clear E). destruct (readConfig db); [|done].
    destruct (readDelivery db) as [[d g]|] eqn:Er; [|done]. apply readDelivery_ok in Er as (-> & -> & _). destruct (de_publication _) as [p|]; [|done].
    case_if as E3; [done|]. case_if as E4; [by intros [= <- _]|]. case_if as E5; [done|].
    destruct (sign _ _ _ _ _) as [db1|] eqn:Es; [|done]. intros [= <- _]. change (advances (doc db) (doc db1)).
    by rewrite (sign_doc _ _ _ _ _ _ Es).
Qed.

(** The versions of a room only advance. In every history, under any
    faults: a published room never disappears or changes its public
    identifier, its revision and epoch never decrease, and two publications of
    the same revision carry the same mode, limits, epoch, event state and
    recovery time, so that a node may order runtimes by their revision. *)
Lemma runtime_versions_advance db ops id room v :
  control.Find (de_document (db_delivery db)) id = Some (room, v) ->
  exists room' v', control.Find (de_document (db_delivery (prun db ops))) id = Some (room', v') /\
    control.PublicID room' = control.PublicID room /\ control.rtRevision v <= control.rtRevision v' /\
    control.rtEpoch v <= control.rtEpoch v' /\ (control.rtRevision v = control.rtRevision v' -> v' = v).
Proof.
  assert (advances (doc db) (doc (prun db ops))) as Ha; [|apply Ha].
  revert db. induction ops as [|x ops IH]; intros db; simpl; [done|]. etrans; [apply pexec_doc | apply IH].
Qed.
End props.

(** ** Witnesses *)

Definition sch_event (key raw : string) : PublicationService * pop * fault :=
  (ex_service, PChangeEvent ex_token "shop" "" (ex_request "POST" (rt_etag 1) key) raw (ex_clock 1100) ex_tokens, NoFault).
Definition sch_ops : list (PublicationService * pop * fault) := [sch_event "event-0000000001" "early"].

Lemma sch_empty_ok : events_ok (db_events ex_db).
Proof. split; [apply map_Forall_empty|]. intros k1 k2 e1 e2 Hk. change ((∅ : gmap string control.Event) !! k1 = Some e1) in Hk. by rewrite lookup_empty in Hk. Qed.

Lemma events_never_overlap_witness :
  exists e, db_events (prun ex_db sch_ops) !! "event-1" = Some e /\ live e = true /\
    forall k e', db_events (prun ex_db sch_ops) !! k = Some e' -> control.eRoomID e' = "shop" -> live e' = true ->
      control.ePrequeueAt e' <= at_ 2500 < control.eDrainAt e' -> "event-1" = k.
Proof.
  exists (control.mkEvent "event-1" "shop" (at_ 2000) (at_ 3000) (at_ 4000) "scheduled").
  assert (db_events (prun ex_db sch_ops) !! "event-1" = Some (control.mkEvent "event-1" "shop" (at_ 2000) (at_ 3000) (at_ 4000) "scheduled"))
    as E by (vm_compute; reflexivity).
  split_and!; [exact E | done |]. intros k e' Hk Hroom Hl Ht.
  apply (events_never_overlap ex_db sch_ops "event-1" k
    (control.mkEvent "event-1" "shop" (at_ 2000) (at_ 3000) (at_ 4000) "scheduled") e' (at_ 2500) sch_empty_ok);
    [| exact E | exact Hk | symmetry; exact Hroom | reflexivity | exact Hl | | exact Ht]; vm_compute; repeat split; discriminate.
Defined.

(** A room that drains, with the reports of its nodes at 1190 s. *)
Definition sch_metrics (waiting : Z) : RoomMetrics :=
  mkMetrics "shop" 2 1 "DRAINING" waiting 0 3 0 true true 100 None false 0 0 "" "".
Definition sch_node (waiting : Z) : node_row := mkNodeRow 1 "" (at_ 1190) [sch_metrics waiting].
Definition sch_draining (waiting : Z) (events : gmap string control.Event) : DB :=
  let d := match control.Find control.wit_delivery "shop" with
           | Some (_, v) => set_runtime control.wit_delivery "shop" (bump (set_mode v "DRAINING")) | None => control.wit_delivery end in
  mkDB (db_policy ex_db) (db_accounts ex_db) ∅ (db_sessions ex_db) ∅ (db_config ex_db) ∅ [] (mkDeliveryRow d 1 None)
    {["coordinator" := sch_node waiting; "gateway" := sch_node waiting]} ∅ events (db_auth ex_db).
Definition sch_tick (db : DB) : DB := match Tick ex_service (at_ 1200) (at_ 1201) (fun _ => "id") db with Commit db' _ => db' | _ => db end.

Lemma drain_ends_on_evidence_witness :
  node_evidence "coordinator" queue_empty "shop"
    (control.mkRuntime 2 "DRAINING" (control.mkLimits 1000 600 900) 1 "none" 0) (at_ 1201) (sch_draining 0 ∅).
Proof.
  destruct (control.Find (de_document (db_delivery (sch_draining 0 ∅))) "shop") as [[room v]|] eqn:E; [|by vm_compute in E].
  destruct (control.Find (de_document (db_delivery (sch_tick (sch_draining 0 ∅)))) "shop") as [[room' v']|] eqn:E'; [|by vm_compute in E'].
  assert (v = control.mkRuntime 2 "DRAINING" (control.mkLimits 1000 600 900) 1 "none" 0) as -> by (vm_compute in E; by injection E as _ <-).
  apply (drain_ends_on_evidence ex_service (at_ 1200) (at_ 1201) (fun _ => "id") (sch_draining 0 ∅) (sch_tick (sch_draining 0 ∅)) "shop" room room'
    _ v'); [by vm_compute | exact E | exact E' | done |].
  vm_compute in E'. by injection E' as _ <-.
Defined.

(** An operator drains a room at 1100 s and then schedules its next event, from
    5000 s on; the nodes report the drain done, and the scheduler runs at 1200 s. *)
Definition sch_drained : DB :=
  let before := prun ex_db
    [(ex_service, PRefresh (at_ 1000), NoFault);
     (ex_service, POperate ex_token "shop" ex_operate "safe-drain" (ex_clock 1100) ex_tokens, NoFault);
     (ex_service, PChangeEvent ex_token "shop" "" (ex_request "POST" (rt_etag 2) "event-0000000001") "late" (ex_clock 1110) ex_tokens,
      NoFault)] in
  let report := mkAck 0 "" (de_generation (db_delivery before)) (digest (pb_envelope (from_option id (mkPublication "" 0 0) (de_publication (db_delivery before)))))
    [mkMetrics "shop" 3 1 "DRAINING" 0 0 0 0 true true 10 None false 0 0 "" "";
     mkMetrics "shops" 1 1 "HOLD" 0 0 0 0 true true 10 None false 0 0 "" ""] in
  prun before
    [(ex_service, PAcknowledge "coordinator" report (fun _ => "id") (mkAckClock (at_ 1190) (at_ 1190) (at_ 1190)), NoFault);
     (ex_service, PAcknowledge "gateway" report (fun _ => "id") (mkAckClock (at_ 1190) (at_ 1190) (at_ 1190)), NoFault);
     (ex_service, PTick (at_ 1200) (at_ 1201) (fun _ => "id"), NoFault)].

