(* ===== verification/DataNode.v ===== *)
(** * The data node: [src/internal/runtimeplane/node.go], [origin.go], [http_metrics.go], [control.go]

    Module [runtimeplane] translates a gateway or coordinator process: it
    fetches the signed configuration, verifies and persists it through the
    gate of [configtrust], builds a handler for every room, routes requests and
    acknowledges what it applied. The shared store of a coordinator, its
    request guard and the health probes are an interface ([NodeWorld]); the
    answers of the control plane are arguments. Go iterates over the map of
    rooms in any order: the order is an argument too. A lock of the node makes
    each operation a step; instants of the gate are in nanoseconds, those of
    the counters in seconds. *)

From S2P Require Import Prelude GoStd Admission Keyring Rotation ConfigTrust Control AdminAuth Password Windows QueueModel StoreClient Coordinator Gateway Publication.
From stdpp Require Import base list gmap strings pretty.
From Stdlib Require Import ZArith Lia Ascii String.
Import lab gateway.

Module runtimeplane.
Local Open Scope Z_scope.

(** ** Addresses *)

(** The text before and after the last occurrence of a byte. *)
Fixpoint split_last (sep : ascii) (s : string) : option (string * string) :=
  match s with
  | EmptyString => None
  | String a s' =>
      match split_last sep s' with
      | Some (x, y) => Some (String a x, y)
      | None => if Ascii.eqb a sep then Some (EmptyString, s') else None
      end
  end.
(** The text before and after the first occurrence of a byte. *)
Fixpoint split_first (sep : ascii) (s : string) : option (string * string) :=
  match s with
  | EmptyString => None
  | String a s' => if Ascii.eqb a sep then Some (EmptyString, s')
                   else match split_first sep s' with Some (x, y) => Some (String a x, y) | None => None end
  end.

(** [net.SplitHostPort]. *)
Definition SplitHostPort (s : string) : option (string * string) :=
  match split_last ":" s with
  | None => None
  | Some (before, port) =>
      match s with
      | String "[" rest =>
          match split_first "]" rest with
          | Some (host, String ":" port') =>
              if strs.contains_byte ":" port' || strs.contains_byte "[" (host +:+ "]:" +:+ port') || strs.contains_byte "]" port'
              then None else Some (host, port')
          | _ => None
          end
      | _ => if strs.contains_byte ":" before || strs.contains_byte "[" s || strs.contains_byte "]" s then None else Some (before, port)
      end
  end.

(** [net.JoinHostPort]. *)
Definition JoinHostPort (host port : string) : string :=
  if strs.contains_byte ":" host || strs.contains_byte "%" host then "[" +:+ host +:+ "]:" +:+ port else host +:+ ":" +:+ port.

(** ** Requests *)

(** A request with what the outer handler reads besides: the verified peer and
    the parts of the URL. *)
Record NodeRequest := mkNodeRequest { req : Request; Peer : string; RawPath : string; ROpaque : string }.

(** [r.URL] as [MatchURL] reads it. *)
Definition request_url (r : NodeRequest) : control.URL :=
  control.mkURL "" false "" "" "" (Path (req r)) (RawPath r) (RawQuery (req r)) false "" (ROpaque r).

(** ** The shared store, the guard and the probes *)

Class NodeWorld (W : Type) := {
  OpenRecoveryRoom : string -> model.Config -> bool -> Z -> Z -> W -> W * option valkeystore.error;
  Configure : string -> model.Config -> Z -> control.Runtime -> W -> W * option valkeystore.error;
  StoreMetrics : string -> W -> W * result valkeystore.error valkeystore.Result;
  PromoteRoom : string -> Z -> W -> W;
  MaintainRoom : string -> W -> W;
  OpenGuard : string -> Z -> Z -> W -> W * bool;
  healthy : string -> W -> W * bool
}.

(** The texts the node decodes: [control.DecodeExact] of a delivery and of a
    join, and [url.ParseRequestURI]. *)
Class NodeWire := {
  decode_delivery : string -> option control.Delivery;
  decode_target : string -> option string;
  ParseRequestURI : string -> option control.URL;
  node_logo : string -> option string        (* [control.LogoBytes] *)
}.

Section node.
Context `{Codec control.Delivery} `{Codec configtrust.Snapshot} `{Codec configtrust.envelope} `{Codec keyring.KeySet}.
Context `{Ed25519} `{Sha256} `{pgstore.Wire} `{NodeWire}.
Context {W : Type} `{NodeWorld W}.
Context {St Fault : Type} `{configtrust.Store St Fault}.
(** [localcontrol.NodeIdentity.TLS] succeeding. *)
Context (tls_ok : bool).

(** The handler of a room: the coordinator's or the gateway's. *)
Inductive handler := HCoordinator (c : Coordinator) | HGateway (g : boundGateway).

Record roomHandler := mkRoomHandler {
  hRoom : control.Room; hRuntime : control.Runtime; hHandler : handler;
  hArrivals : option windows.arrivalWindow; hErrors : option windows.httpErrorWindow
}.

Record Node := mkNode {
  identity : localcontrol.NodeIdentity; nGate : configtrust.Gate; disk : St; generation : Z; delivery : control.Delivery;
  rooms : gmap string roomHandler; stores : gset string; guards : gset string; nRaw : string;
  diagnostics : windows.syncDiagnostic
}.

Definition set_gate (n : Node) (g : configtrust.Gate) : Node :=
  mkNode (identity n) g (disk n) (generation n) (delivery n) (rooms n) (stores n) (guards n) (nRaw n) (diagnostics n).

(** [control.ValidateDelivery]. *)
Definition ValidateDelivery (raw : string) : bool :=
  match decode_delivery raw with
  | Some d => pgstore.delivery_valid d && String.eqb (marshal d) raw
  | None => false
  end.

Definition delivery_zero : control.Delivery := control.mkDelivery (control.mkConfig 0 0 "" "" None) [].

(** [OpenNode]; the diagnostics start empty. *)
Definition trust_of (id : localcontrol.NodeIdentity) : gmap string string :=
  match localcontrol.nKeys id with
  | Some ks => list_to_map (rev (keyring.ConfigTrust ks))
  | None => {["config-v1" := localcontrol.nConfigPublic id]}
  end.
Definition OpenNode (id : localcontrol.NodeIdentity) (st : St) (f : Fault) : option Node :=
  if negb (pgstore.data_role (localcontrol.nNode id)) then None else
  match configtrust.Open pgstore.json_Valid ValidateDelivery (trust_of id) (localcontrol.nInstallation id) 1 st f with
  | (Some g, Ok _) =>
      if tls_ok then Some (mkNode id g st 0 delivery_zero ∅ ∅ ∅ "" (windows.mkDiagnostic "" 0)) else None
  | _ => None
  end.

(** [validLocked]: the gate serves the generation that was applied. *)
Definition validLocked (n : Node) (now : Z) : Node * bool :=
  let (g, res) := configtrust.currentLocked (nGate n) now in
  (set_gate n g, match res with Ok s => (configtrust.Generation s =? generation n) && (0 <? generation n) | Err _ => false end).
Definition Ready (n : Node) (now : Z) : Node * bool := validLocked n now.

(** ** [apply] *)

Definition targetFor (c : control.Config) (room : control.Room) (target : string) : bool :=
  if (len target =? 0) || (2048 <? len target) || strs.HasPrefix target "//" then false else
  if existsb (fun b => (b <? 32) || (b =? 127) || (b =? 92)) (bytes target) then false else
  match ParseRequestURI target with
  | None => false
  | Some u =>
      if negb (String.eqb (control.Scheme u) "") || negb (String.eqb (control.Host u) "") || negb (String.eqb (control.Fragment u) "")
      then false else
      let m := control.MatchURL c (control.Hostname room) (Some u) in
      String.eqb (control.Decision m) "protected" && String.eqb (control.RoomID m) (control.ID room)
  end.

Inductive node_error := NInvalid | NStore (e : valkeystore.error) | NOther.

Definition store_key (room : control.Room) (v : control.Runtime) : string :=
  control.PublicID room +:+ ":" +:+ pretty (control.rtEpoch v).

Definition binding_for (id : localcontrol.NodeIdentity) (c : control.Config) (room : control.Room) (v : control.Runtime) : Binding :=
  mkBinding (localcontrol.nKeys id) (localcontrol.nSourceKey id) (control.PublicID room)
    (localcontrol.nInstallation id +:+ ":" +:+ control.PublicID room) "admission-v1" (control.rtEpoch v) (targetFor c room).

(** [originDial] accepts the origin. *)
Definition origin_ok (raw : string) : bool :=
  match pgstore.url_Parse raw with
  | None => false
  | Some u =>
      String.eqb (control.Scheme u) "https" && negb (String.eqb (control.UHostname u) "") && negb (control.User u) &&
      String.eqb (control.RawQuery u) "" && negb (control.ForceQuery u) && String.eqb (control.Fragment u) "" &&
      (String.eqb (control.Path u) "" || String.eqb (control.Path u) "/") && String.eqb (control.RawPath u) ""
  end.
Definition OriginTransport (raw : string) : bool :=
  origin_ok raw && (negb (String.eqb raw "https://demo-origin:20445") || tls_ok).

Definition httpErrorsFor (old : option roomHandler) (room : control.Room) (now : Z) : windows.httpErrorWindow :=
  match old with
  | Some o =>
      match hErrors o with
      | Some w =>
          if String.eqb (control.Origin (hRoom o)) (control.Origin room) && String.eqb (control.Hostname (hRoom o)) (control.Hostname room) &&
             bool_decide (control.ProtectPrefixes (hRoom o) = control.ProtectPrefixes room) &&
             bool_decide (control.excludes (hRoom o) = control.excludes room) then w else windows.http_new now
      | None => windows.http_new now
      end
  | None => windows.http_new now
  end.

Definition arrivalsFor (old : option roomHandler) (room : control.Room) (now : Z) : option windows.arrivalWindow :=
  match old with
  | Some o =>
      if String.eqb (control.Origin (hRoom o)) (control.Origin room) && String.eqb (control.Hostname (hRoom o)) (control.Hostname room)
      then hArrivals o else Some (windows.arrivals_new now)
  | None => Some (windows.arrivals_new now)
  end.

(** One room of a coordinator. *)
Definition coordinator_room (n : Node) (c : control.Config) (room : control.Room) (v : control.Runtime)
    (ss gs : gset string) (w : W) : W * gset string * gset string * result node_error roomHandler :=
  let qc := control.QueueConfig v (control.Profile c) room in
  let key := store_key room v in
  let id := identity n in
  let high := String.eqb (control.Profile c) "high-scale-100k" in
  let '(w, opened) := if decide (key ∈ ss) then (w, None)
                      else OpenRecoveryRoom (control.PublicID room) qc high (control.rtEpoch v) (control.rtRecoveryUntil v) w in
  match opened with
  | Some e => (w, ss, gs, Err (NStore e))
  | None =>
      let ss := {[key]} ∪ ss in
      let '(w, configured) := Configure key qc (control.Revision c) v w in
      match configured with
      | Some e => (w, ss, gs, Err (NStore e))
      | None =>
          match NewBoundCoordinator true qc (binding_for id c room v) (localcontrol.nAdmissionPrivate id) (localcontrol.nReplayKey id)
                  (localcontrol.nService id) with
          | None => (w, ss, gs, Err NOther)
          | Some co =>
              let '(w, ok) := if decide (key ∈ gs) then (w, true)
                              else OpenGuard (control.PublicID room) (control.rtEpoch v) (if high then 100000 else 10000) w in
              if negb ok then (w, ss, gs, Err NOther)
              else (w, ss, {[key]} ∪ gs, Ok (mkRoomHandler room v (HCoordinator co) None None))
          end
      end
  end.

(** One room of a gateway. *)
Definition gateway_room (n : Node) (c : control.Config) (room : control.Room) (v : control.Runtime) (now : Z)
    : result node_error roomHandler :=
  let id := identity n in
  let old := rooms n !! control.PublicID room in
  if negb (OriginTransport (control.Origin room)) then Err NOther else
  match NewBoundGateway pgstore.url_Parse node_logo "https://coordinator:19446" (control.Origin room) (localcontrol.nService id)
          (localcontrol.nAdmissionPublic id) (control.RTheme room) (localcontrol.nReturnKey id) (binding_for id c room v)
          (JoinHostPort (control.Hostname room) "20443") true true (String.eqb (control.rtMode v) "OFF") [control.rtMode v] with
  | None => Err NOther
  | Some g => Ok (mkRoomHandler room v (HGateway g) (arrivalsFor old room now) (Some (httpErrorsFor old room now)))
  end.

Fixpoint apply_rooms (n : Node) (c : control.Config) (now : Z) (l : list (control.Room * control.RoomRuntime))
    (ss gs : gset string) (next : gmap string roomHandler) (w : W)
    : W * gset string * gset string * result node_error (gmap string roomHandler) :=
  match l with
  | [] => (w, ss, gs, Ok next)
  | (room, x) :: l' =>
      let v := control.rrRuntime x in
      let '(w, ss, gs, res) :=
        if String.eqb (localcontrol.nNode (identity n)) "coordinator" then coordinator_room n c room v ss gs w
        else (w, ss, gs, gateway_room n c room v now) in
      match res with
      | Err e => (w, ss, gs, Err e)
      | Ok h => apply_rooms n c now l' ss gs (<[control.PublicID room := h]> next) w
      end
  end.

(** The stores and guards of rooms that are no longer delivered are closed. *)
Definition active_keys (d : control.Delivery) : gset string :=
  list_to_set (zip_with (fun room x => store_key room (control.rrRuntime x)) (control.rooms (control.dConfig d)) (control.dRuntimes d)).

Definition apply (n : Node) (s : configtrust.Snapshot) (now : Z) (w : W) : W * Node * result node_error unit :=
  match decode_delivery (configtrust.Payload s) with
  | None => (w, n, Err NInvalid)
  | Some d =>
      if negb (pgstore.delivery_valid d) then (w, n, Err NInvalid) else
      if configtrust.Generation s =? generation n then (w, n, Ok tt) else
      let '(w, ss, gs, res) :=
        apply_rooms n (control.dConfig d) now (zip (control.rooms (control.dConfig d)) (control.dRuntimes d)) (stores n) (guards n) ∅ w in
      match res with
      | Err e => (w, mkNode (identity n) (nGate n) (disk n) (generation n) (delivery n) (rooms n) ss gs (nRaw n) (diagnostics n), Err e)
      | Ok next =>
          (w, mkNode (identity n) (nGate n) (disk n) (configtrust.Generation s) d next (ss ∩ active_keys d) (gs ∩ active_keys d)
                (nRaw n) (diagnostics n), Ok tt)
      end
  end.

(** ** Metrics and [sync] *)

(** One job of [probeGatewayRooms]: [expired] is the context, [now] the readings of the clock. *)
Definition probe_room (expired : bool) (now : Z) (h : roomHandler) (w : W) : W * pgstore.RoomMetrics :=
  let v := hRuntime h in
  let '(w, ok) := if expired then (w, false) else healthy (control.HealthURL (hRoom h)) w in
  let '(arrivals, ready) := match hArrivals h with Some a => windows.arrival_snapshot a now | None => (0, false) end in
  let '(errors, errors_ready) :=
    match hErrors h with
    | Some e => let '(_, (count, r)) := windows.http_snapshot e now in (Some count, r)
    | None => (None, false)
    end in
  (w, pgstore.mkMetrics (control.ID (hRoom h)) (control.rtRevision v) (control.rtEpoch v) (control.rtMode v) 0 0 0 0 ok ready arrivals
        errors errors_ready 0 0 "" "").
Fixpoint probeGatewayRooms (expired : nat -> bool) (now : Z) (i : nat) (hs : list roomHandler) (w : W) : W * list pgstore.RoomMetrics :=
  match hs with
  | [] => (w, [])
  | h :: hs' =>
      let '(w, m) := probe_room (expired i) now h w in
      let '(w, ms) := probeGatewayRooms expired now (S i) hs' w in (w, m :: ms)
  end.

(** The error window of a room moves its clock when it is read. *)
Definition read_errors (now : Z) (h : roomHandler) : roomHandler :=
  mkRoomHandler (hRoom h) (hRuntime h) (hHandler h) (hArrivals h)
    (match hErrors h with Some e => Some (fst (windows.http_snapshot e now)) | None => None end).
Definition set_rooms (n : Node) (rs : gmap string roomHandler) : Node :=
  mkNode (identity n) (nGate n) (disk n) (generation n) (delivery n) rs (stores n) (guards n) (nRaw n) (diagnostics n).

(** [gatewayMetrics]: the handlers of the delivered rooms, in order. *)
Definition gatewayMetrics (n : Node) (g : Z) (expired : nat -> bool) (t now : Z) (w : W) : W * Node * option (list pgstore.RoomMetrics) :=
  let '(n, valid) := validLocked n t in
  if negb valid || negb (generation n =? g) then (w, n, None) else
  let hs := omap (fun room => rooms n !! control.PublicID room) (control.rooms (control.dConfig (delivery n))) in
  let '(w, ms) := probeGatewayRooms expired now 0 hs w in
  (w, set_rooms n (read_errors now <$> rooms n), Some ms).

Fixpoint store_metrics (l : list (control.Room * control.RoomRuntime)) (w : W) : W * option (list pgstore.RoomMetrics) :=
  match l with
  | [] => (w, Some [])
  | (room, x) :: l' =>
      match StoreMetrics (store_key room (control.rrRuntime x)) w with
      | (w, Ok res) =>
          match valkeystore.rMetrics res with
          | None => (w, None)
          | Some q =>
              let m := pgstore.mkMetrics (control.ID room) (valkeystore.mRevision q) (valkeystore.mEpoch q) (valkeystore.mMode q)
                (valkeystore.mWaiting q) (valkeystore.mReady q) (valkeystore.mLeases q) (valkeystore.mRate q) false false 0 None false
                (valkeystore.RecoveryUntil q) (valkeystore.RecoveryFence q) (valkeystore.RecoveryReason q)
                (valkeystore.RecoveryValidation q) in
              match store_metrics l' w with
              | (w, Some ms) => (w, Some (m :: ms))
              | (w, None) => (w, None)
              end
          end
      | (w, Err _) => (w, None)
      end
  end.
Definition coordinatorMetrics (n : Node) (t : Z) (w : W) : W * Node * option (list pgstore.RoomMetrics) :=
  let '(n, valid) := validLocked n t in
  if negb valid then (w, n, None) else
  let '(w, ms) := store_metrics (zip (control.rooms (control.dConfig (delivery n))) (control.dRuntimes (delivery n))) w in (w, n, ms).

(** [syncErrorCode] on the errors of the gate and of [apply]; a transport error
    that is a context's has its own code. *)
Definition trust_code (e : configtrust.error) : string :=
  match e with
  | configtrust.ErrInvalid => "snapshot_invalid" | configtrust.ErrRollback => "snapshot_rollback"
  | configtrust.ErrPersistence => "snapshot_persistence" | configtrust.ErrUnavailable => "snapshot_unavailable"
  | configtrust.ErrEmpty => "unavailable"
  end.
Definition apply_code (e : node_error) : string :=
  match e with
  | NInvalid => "config_invalid"
  | NStore valkeystore.ErrSchema => "queue_schema"
  | NStore (valkeystore.EModel model.ErrConflict) => "queue_conflict"
  | NStore (valkeystore.EModel model.ErrDrain) => "queue_drain"
  | NStore valkeystore.ErrSweep => "queue_sweep"
  | NStore (valkeystore.ERaw e) =>
      match valkeystore.ekind e with
      | valkeystore.DeadlineExceeded => "deadline" | valkeystore.Canceled => "cancelled" | _ => "unavailable" end
  | _ => "unavailable"
  end.

(** What the control plane's endpoint answers: a transport error with its code,
    or a status and a body; a body that could not be read has the code of its error. *)
Inductive answer := Unreachable (code : string) | Answered (status : Z) (body : result string string).
Definition syncHTTPCode (status : Z) (err : option string) : string :=
  match err with
  | Some code => code
  | None =>
      if (100 <=? status) && (status <=? 599) && negb (status =? 200) then "http_" +:+ pretty status else "invalid_response"
  end.

(** The readings of the clock of one [sync]; [t_now] is in seconds. *)
Record sync_clock := mkSyncClock { t_apply : Z; t_current : Z; t_valid : Z; t_now : Z; t_report : Z }.

(** The configuration of an answer goes to the gate. *)
Definition receive (n : Node) (a : answer) (t : Z) (f : Fault) : Node * (string * string) :=
  match a with
  | Unreachable code => (n, ("fetch", code))
  | Answered status body =>
      match body with
      | Ok raw =>
          if (status =? 200) && (len raw <=? 65536) then
            match configtrust.applyLocked pgstore.json_Valid ValidateDelivery (nGate n) (disk n) raw t f with
            | (g, st, Ok _) =>
                (mkNode (identity n) g st (generation n) (delivery n) (rooms n) (stores n) (guards n) raw (diagnostics n), ("", ""))
            | (g, st, Err e) =>
                (mkNode (identity n) g st (generation n) (delivery n) (rooms n) (stores n) (guards n) (nRaw n) (diagnostics n),
                 ("verify", trust_code e))
            end
          else (n, ("fetch", syncHTTPCode status None))
      | Err code => (n, ("fetch", syncHTTPCode status (Some code)))
      end
  end.

Definition set_raw (n : Node) (raw : string) : Node :=
  mkNode (identity n) (nGate n) (disk n) (generation n) (delivery n) (rooms n) (stores n) (guards n) raw (diagnostics n).

(** The acknowledgement of an applied snapshot. *)
Definition ack_of (n : Node) (s : configtrust.Snapshot) (ms : list pgstore.RoomMetrics) : pgstore.NodeAck :=
  let keys := localcontrol.nKeys (identity n) in
  pgstore.mkAck (from_option keyring.Generation 0 keys) (from_option keyring.Digest "" keys) (configtrust.Generation s)
    (hex_EncodeToString (sha256 (nRaw n))) ms.

(** [sync]: [fetch] is the answer to the request for the configuration, a clock
    recovery when the gate needs one; [post] the answer to the acknowledgement.
    The result carries the acknowledgement that was sent. *)
Definition sync (n : Node) (fetch : option configtrust.ClockRecovery -> answer) (post : pgstore.NodeAck -> answer)
    (expired : nat -> bool) (ck : sync_clock) (f fl : Fault) (w : W) : W * Node * option pgstore.NodeAck :=
  let finish w n (sc : string * string) sent :=
    (w, mkNode (identity n) (nGate n) (disk n) (generation n) (delivery n) (rooms n) (stores n) (guards n) (nRaw n)
          (fst (windows.diag_observe (diagnostics n) (fst sc) (snd sc) (t_report ck))), sent) in
  let '(n, sc) := receive n (fetch (configtrust.RecoveryRequest (Some (nGate n)))) (t_apply ck) f in
  let (g, cur) := configtrust.currentLocked (nGate n) (t_current ck) in
  let n := set_gate n g in
  match cur with
  | Err e =>
      let reason := configtrust.failureReason g in
      finish w n ("current", if String.eqb reason "" then trust_code e else reason) None
  | Ok s =>
      match apply n s (t_now ck) w with
      | (w, n, Err e) => finish w n ("apply", apply_code e) None
      | (w, n, Ok _) =>
          let n := if len (nRaw n) =? 0 then set_raw n (match configtrust.Load (disk n) fl with Ok raw => raw | Err _ => "" end) else n in
          let '(w, n, ms) :=
            if String.eqb (localcontrol.nNode (identity n)) "gateway"
            then gatewayMetrics n (configtrust.Generation s) expired (t_valid ck) (t_now ck) w
            else coordinatorMetrics n (t_valid ck) w in
          match ms with
          | None => finish w n ("metrics", "unavailable") None
          | Some ms =>
              let a := ack_of n s ms in
              let sc := match post a with
                        | Unreachable code => ("ack", code)
                        | Answered status _ =>
                            if (status <? 200) || (300 <=? status) then ("ack", syncHTTPCode status None) else sc
                        end in
              finish w n sc (Some a)
          end
      end
  end.

(** [maintainRecovery] runs whether or not the node is valid; the stores come in
    any order. [stop] is the context before each call. *)
Fixpoint maintain (keys : list string) (stop : nat -> bool) (i : nat) (w : W) : W :=
  match keys with
  | [] => w
  | k :: keys' => if stop i then w else maintain keys' stop (S i) (MaintainRoom k w)
  end.
Definition maintainRecovery (order : list string) (stop : nat -> bool) (w : W) : W := maintain order stop 0 w.

Fixpoint promote_rooms (l : list (control.Room * control.RoomRuntime)) (stop : nat -> bool) (i : nat) (w : W) : W :=
  match l with
  | [] => w
  | (room, x) :: l' => if stop i then w else promote_rooms l' stop (S i) (PromoteRoom (store_key room (control.rrRuntime x)) 128 w)
  end.
Definition promote (n : Node) (stop : nat -> bool) (t : Z) (w : W) : W * Node :=
  let '(n, valid) := validLocked n t in
  if negb valid then (w, n)
  else (promote_rooms (zip (control.rooms (control.dConfig (delivery n))) (control.dRuntimes (delivery n))) stop 0 w, n).

(** ** [ServeHTTP] *)

(** What the node does with a request. *)
Inductive served :=
  | Traffic                                                   (* [serveTraffic] *)
  | NProblem (status : Z) (code : string) (page : bool)
  | NMethod (allow : string)                                  (* 405 *)
  | NAsset                                                    (* [waiting.Asset] *)
  | ToRoom (h : roomHandler) (r : Request)                    (* the handler of the room *)
  | ToOrigin (h : roomHandler) (measured : bool) (r : Request).   (* the origin itself *)

(** The rewriting of the proxy in front of the origin: [stripOriginHeaders] and the cookies. *)
Definition origin_request (r : Request) : Request := stripCookies (strip r).

Definition TrimPrefix := password.TrimPrefix.
Definition TrimSuffix := password.TrimSuffix.

(** The branches that select a room by the path; [order] is the order of the map of rooms. *)
Definition select_internal (n : Node) (order : list roomHandler) (host : string) (r : Request) : served + option roomHandler :=
  let p := Path r in
  if strs.HasPrefix p "/_wr/theme/" && strs.HasSuffix p ".css"
  then inr (rooms n !! TrimSuffix (TrimPrefix p "/_wr/theme/") ".css")
  else if strs.HasPrefix p "/_wr/theme/" && strs.HasSuffix p "/logo.png"
  then inr (rooms n !! TrimSuffix (TrimPrefix p "/_wr/theme/") "/logo.png")
  else if String.eqb p "/_wr/v1/tickets" then
    if negb (String.eqb (Method r) "POST") then inl (NMethod "POST") else
    match Body r with
    | None => inl (NProblem 400 "INVALID_REQUEST" false)
    | Some raw =>
        if 4096 <? len raw then inl (NProblem 400 "INVALID_REQUEST" false) else
        match decode_target raw with
        | None => inl (NProblem 400 "INVALID_REQUEST" false)
        | Some target =>
            inr (List.find (fun h => String.eqb (control.Hostname (hRoom h)) host &&
                                     targetFor (control.dConfig (delivery n)) (hRoom h) target) order)
        end
    end
  else
    let parts := strs.split_byte "/" p in
    inr (match parts !! (if strs.HasPrefix p "/_wr/wait/" then 3 else 4)%nat with Some id => rooms n !! id | None => None end).

Definition internal_path (p : string) : bool :=
  (strs.HasPrefix p "/_wr/theme/" && (strs.HasSuffix p ".css" || strs.HasSuffix p "/logo.png")) ||
  String.eqb p "/_wr/v1/tickets" || strs.HasPrefix p "/_wr/v1/rooms/" || strs.HasPrefix p "/_wr/wait/".

(** The loop over the rooms of the host of an unprotected URL: [None] on two origins. *)
Fixpoint host_room (host : string) (origin : string) (selected : option roomHandler) (order : list roomHandler)
    : option (option roomHandler) :=
  match order with
  | [] => Some selected
  | h :: order' =>
      if String.eqb (control.Hostname (hRoom h)) host then
        if negb (String.eqb origin "") && negb (String.eqb origin (control.Origin (hRoom h))) then None
        else host_room host (control.Origin (hRoom h)) (Some h) order'
      else host_room host origin selected order'
  end.

Definition not_found : served := NProblem 404 "NOT_FOUND" false.

(** The end of the function: the handler of a selected room of the host. *)
Definition to_selected (host : string) (selected : option roomHandler) (r : Request) : served :=
  match selected with
  | Some h => if String.eqb (control.Hostname (hRoom h)) host then ToRoom h r else not_found
  | None => not_found
  end.

Definition route_gateway (n : Node) (order : list roomHandler) (host : string) (r : NodeRequest) : served :=
  if internal_path (Path (req r)) then
    match select_internal n order host (req r) with
    | inl x => x
    | inr selected => to_selected host selected (req r)
    end
  else
    let m := control.MatchURL (control.dConfig (delivery n)) host (Some (request_url r)) in
    if String.eqb (control.Decision m) "invalid" || String.eqb (control.Decision m) "reserved" then not_found else
    let selected := List.find (fun h => String.eqb (control.ID (hRoom h)) (control.RoomID m)) order in
    match selected with
    | Some h => if String.eqb (control.Decision m) "excluded" then ToOrigin h true (origin_request (req r)) else
                if String.eqb (control.Decision m) "unprotected" then
                  match host_room host "" selected order with
                  | None => not_found
                  | Some (Some h') => ToOrigin h' false (origin_request (req r))
                  | Some None => not_found
                  end
                else to_selected host selected (req r)
    | None => if String.eqb (control.Decision m) "unprotected" then
                match host_room host "" None order with
                | None => not_found
                | Some (Some h') => ToOrigin h' false (origin_request (req r))
                | Some None => not_found
                end
              else not_found
    end.

Definition ServeHTTP (n : Node) (order : list roomHandler) (r : NodeRequest) (t : Z) : Node * served :=
  if String.eqb (Path (req r)) "/internal/v1/traffic-lab" then (n, Traffic) else
  let '(n, valid) := validLocked n t in
  if negb valid then (n, NProblem 503 "CONFIG_UNAVAILABLE" (navigation (req r))) else
  (n,
   if String.eqb (localcontrol.nNode (identity n)) "coordinator" then
     if negb (String.eqb (Peer r) "gateway") || negb (String.eqb (Host (req r)) "coordinator:19446") ||
        negb (one (Values (req r) "X-WR-Room")) then NProblem 403 "FORBIDDEN" false else
     match rooms n !! Get (req r) "X-WR-Room" with
     | None => not_found
     | Some h => ToRoom h (req r)
     end
   else
     match SplitHostPort (Host (req r)) with
     | None => NProblem 400 "INVALID_REQUEST" false
     | Some (host, port) =>
         if negb (String.eqb port "20443") || negb (HasTLS (req r)) || negb (control.ValidHostname host) ||
            negb (String.eqb (RawPath r) "") || negb (control.ValidPath (Path (req r))) then NProblem 400 "INVALID_REQUEST" false else
         if strs.HasPrefix (Path (req r)) "/_wr/assets/" then
           if existsb (fun h => String.eqb (control.Hostname (hRoom h)) host) order then NAsset else not_found
         else route_gateway n order host r
     end).

(** ** [control.go]: the endpoint of the control plane *)

(** A request of a node, as the endpoint reads it: the mutual TLS peer, the
    canonical URL check and the body within its limit. *)
Record internal_request := mkInternal {
  iPeer : string; iMethod : string; iHost : string; iPath : string; iCanonical : bool; iContentTypes : list string;
  iBody : Z -> option string
}.
Context (decode_recovery : string -> option configtrust.ClockRecovery) (decode_ack : string -> option pgstore.NodeAck)
        (marshal_recovery : configtrust.ClockRecovery -> string).
Context `{Codec control.Config}.

Definition ok_answer (o : result pgstore.error string) (status : Z) : answer :=
  match o with Ok raw => Answered 200 (Ok raw) | Err _ => Answered status (Ok "") end.

(** [t] is the clock of the database, [ta] that of the acknowledgement, [flt] its fault. *)
Definition InternalControl (s : pgstore.PublicationService) (r : internal_request) (ids : string -> string) (t : Z)
    (ta : pgstore.ack_clock) (flt : pgstore.fault) (db : pgstore.DB) : pgstore.DB * answer :=
  if negb (pgstore.data_role (iPeer r)) then (db, Answered 403 (Ok "")) else
  if negb (String.eqb (iHost r) "control:19445") || negb (iCanonical r) then (db, Answered 400 (Ok "")) else
  if String.eqb (iMethod r) "GET" && String.eqb (iPath r) "/internal/v1/config" then
    (db, match flt with
         | pgstore.NoFault => ok_answer (pgstore.Envelope t db) 503
         | _ => Answered 503 (Ok "")
         end) else
  if String.eqb (iMethod r) "POST" && String.eqb (iPath r) "/internal/v1/config/clock-recovery" then
    match iContentTypes r, iBody r 512 with
    | ["application/json"], Some raw =>
        match decode_recovery raw with
        | None => (db, Answered 400 (Ok ""))
        | Some i =>
            let '(db', res) := pgstore.finish flt db (pgstore.RecoverClock s (iPeer r) i (marshal_recovery i) t db) in
            (db', ok_answer res 409)
        end
    | _, _ => (db, Answered 400 (Ok ""))
    end else
  if String.eqb (iMethod r) "POST" && String.eqb (iPath r) "/internal/v1/ack" then
    match iContentTypes r, iBody r 65536 with
    | "application/json" :: _, Some raw =>
        match decode_ack raw with
        | None => (db, Answered 400 (Ok ""))
        | Some a =>
            let '(db', res) := pgstore.finish flt db (pgstore.Acknowledge s (iPeer r) a ids ta db) in
            (db', Answered (if is_ok res then 204 else 409) (Ok ""))
        end
    | _, _ => (db, Answered 400 (Ok ""))
    end
  else (db, Answered 404 (Ok "")).

(** One turn of [Worker]. *)
Definition Worker (s : pgstore.PublicationService) (tr t view : Z) (ids : nat -> string) (f1 f2 : pgstore.fault) (db : pgstore.DB)
    : pgstore.DB :=
  let db := fst (pgstore.finish f1 db (pgstore.Refresh s tr db)) in
  fst (pgstore.finish f2 db (pgstore.Tick s t view ids db)).
End node.
End runtimeplane.
