(* ===== verification/Origin.v ===== *)
(** * Connections to origins: [src/internal/runtimeplane/origin.go]

    Module [origin] translates the dialer of a room's origin: the authority it
    accepts, the addresses it denies and the attempts it makes. Addresses are
    those of [net/netip]: a value of 32 or 128 bits, with the zone of an IPv6
    address. The answer of the resolver and the outcome of each attempt are
    arguments. The theorem gives the set of addresses a connection may go to. *)

From S2P Require Import Prelude GoStd ConfigTrust Control Publication PublicationExample DataNode.
From stdpp Require Import base list strings.
From Stdlib Require Import ZArith Lia Ascii String.

Module origin.
Local Open Scope Z_scope.

(** ** [net/netip] *)

Inductive Addr := Invalid | V4 (n : Z) | V6 (n : Z) (zone : string).

(** An address holds 32 or 128 bits. *)
Definition wide (a : Addr) : Prop := match a with Invalid => True | V4 n => 0 <= n < 2 ^ 32 | V6 n _ => 0 <= n < 2 ^ 128 end.

Definition Is4In6 (a : Addr) : bool := match a with V6 n _ => Z.shiftr n 32 =? 65535 | _ => false end.
Definition Unmap (a : Addr) : Addr := match a with V6 n z => if Is4In6 a then V4 (Z.land n (Z.ones 32)) else a | _ => a end.
Definition IsValid (a : Addr) : bool := match a with Invalid => false | _ => true end.
Definition Is6 (a : Addr) : bool := match a with V6 _ _ => true | _ => false end.
Definition Zone (a : Addr) : string := match a with V6 _ z => z | _ => "" end.

(** The high bits of an address: [n >> (width - bits)]. *)
Definition top4 (bits n : Z) : Z := Z.shiftr n (32 - bits).
Definition top6 (bits n : Z) : Z := Z.shiftr n (128 - bits).

Definition IsLoopback (a : Addr) : bool :=
  match a with V4 n => top4 8 n =? 127 | V6 n _ => n =? 1 | Invalid => false end.
Definition IsMulticast (a : Addr) : bool :=
  match a with V4 n => top4 4 n =? 14 | V6 n _ => top6 8 n =? 255 | Invalid => false end.
Definition IsLinkLocalUnicast (a : Addr) : bool :=
  match a with V4 n => top4 16 n =? 43518 | V6 n _ => top6 10 n =? 1018 | Invalid => false end.
Definition IsPrivate (a : Addr) : bool :=
  match a with
  | V4 n => (top4 8 n =? 10) || (top4 12 n =? 2753) || (top4 16 n =? 49320)
  | V6 n _ => top6 7 n =? 126
  | Invalid => false
  end.
Definition IsGlobalUnicast (a : Addr) : bool :=
  match a with
  | Invalid => false
  | V4 n => negb (n =? 0) && negb (n =? 2 ^ 32 - 1) && negb (IsLoopback a) && negb (IsMulticast a) && negb (IsLinkLocalUnicast a)
  | V6 n z => negb ((n =? 0) && String.eqb z "") && negb (IsLoopback a) && negb (IsMulticast a) && negb (IsLinkLocalUnicast a)
  end.

(** A prefix, and whether it contains an address. *)
Inductive Prefix := P4 (n bits : Z) | P6 (n bits : Z).
Definition Contains (p : Prefix) (a : Addr) : bool :=
  match p, a with
  | P4 q bits, V4 n => Z.shiftr (Z.lxor n q) (32 - bits) =? 0
  | P6 q bits, V6 n z => String.eqb z "" && (Z.shiftr (Z.lxor n q) (128 - bits) =? 0)
  | _, _ => false
  end.

(** ** [publicAddress] *)

Definition quad (a b c d : Z) : Z := a * 2 ^ 24 + b * 2 ^ 16 + c * 2 ^ 8 + d.
(** The first two groups of an IPv6 address. *)
Definition groups (a b : Z) : Z := (a * 2 ^ 16 + b) * 2 ^ 96.

Definition blockedPrefixes : list Prefix :=
  [P4 (quad 0 0 0 0) 8; P4 (quad 10 0 0 0) 8; P4 (quad 100 64 0 0) 10; P4 (quad 127 0 0 0) 8; P4 (quad 169 254 0 0) 16;
   P4 (quad 172 16 0 0) 12; P4 (quad 192 0 0 0) 24; P4 (quad 192 0 2 0) 24; P4 (quad 192 168 0 0) 16; P4 (quad 198 18 0 0) 15;
   P4 (quad 198 51 100 0) 24; P4 (quad 203 0 113 0) 24; P4 (quad 224 0 0 0) 3;
   P6 (groups 8193 0) 32; P6 (groups 8193 3512) 32; P6 (groups 8194 0) 16].

Definition publicAddress (ip : Addr) : bool :=
  let ip := Unmap ip in
  if negb (IsValid ip) || negb (String.eqb (Zone ip) "") || negb (IsGlobalUnicast ip) || IsPrivate ip || IsLoopback ip || IsLinkLocalUnicast ip
  then false else
  if Is6 ip && negb (Contains (P6 (groups 8192 0) 3) ip) then false else
  negb (existsb (fun p => Contains p ip) blockedPrefixes).

(** ** [originDial] *)

Section dial.
Context `{pgstore.Wire}.
(** The resolver's answer for a host, [None] an error; whether an attempt
    connects; whether the context ended after attempt [i]. *)
Context (LookupNetIP : string -> option (list Addr)) (connects : Addr -> string -> bool) (ended : nat -> bool).

Definition demo_origin : string := "https://demo-origin:20445".

Inductive error := InvalidOrigin | Mismatch | Unresolved | Denied | Unconnected.

(** The loop over the addresses: those attempted, and the one that connected. *)
Fixpoint dial_each (port : string) (i : nat) (ips : list Addr) : list Addr * option Addr :=
  match ips with
  | [] => ([], None)
  | ip :: ips' =>
      if connects ip port then ([ip], Some ip)
      else if ended i then ([ip], None)
      else let '(tried, c) := dial_each port (S i) ips' in (ip :: tried, c)
  end.

(** The returned function applied to the network and address of the transport. *)
Definition originDial (raw network address : string) : list Addr * result error Addr :=
  if negb (runtimeplane.origin_ok raw) then ([], Err InvalidOrigin) else
  match pgstore.url_Parse raw with
  | None => ([], Err InvalidOrigin)
  | Some u =>
      let port := if String.eqb (control.Port u) "" then "443" else control.Port u in
      if negb (String.eqb network "tcp") || negb (String.eqb address (runtimeplane.JoinHostPort (control.UHostname u) port))
      then ([], Err Mismatch) else
      match LookupNetIP (control.UHostname u) with
      | None => ([], Err Unresolved)
      | Some ips =>
          if (List.length ips =? 0)%nat || (32 <? List.length ips)%nat then ([], Err Unresolved) else
          if existsb (fun ip => negb (publicAddress ip) && negb (String.eqb raw demo_origin)) ips then ([], Err Denied) else
          match dial_each port 0 ips with
          | (tried, Some ip) => (tried, Ok ip)
          | (tried, None) => (tried, Err Unconnected)
          end
      end
  end.
End dial.

(** ** The addresses a connection may go to *)

(** First and last address of the IPv4 blocks that are no public unicast space. *)
Definition special4 : list (Z * Z) :=
  [(quad 0 0 0 0, quad 0 255 255 255); (quad 10 0 0 0, quad 10 255 255 255); (quad 100 64 0 0, quad 100 127 255 255);
   (quad 127 0 0 0, quad 127 255 255 255); (quad 169 254 0 0, quad 169 254 255 255); (quad 172 16 0 0, quad 172 31 255 255);
   (quad 192 0 0 0, quad 192 0 0 255); (quad 192 0 2 0, quad 192 0 2 255); (quad 192 168 0 0, quad 192 168 255 255);
   (quad 198 18 0 0, quad 198 19 255 255); (quad 198 51 100 0, quad 198 51 100 255); (quad 203 0 113 0, quad 203 0 113 255);
   (quad 224 0 0 0, quad 255 255 255 255)].

(** Of IPv6, 2000::/3 without Teredo, documentation and 6to4. *)
Definition public6 (n : Z) : Prop :=
  groups 8192 0 <= n < groups 16384 0 /\ ~ (groups 8193 0 <= n < groups 8193 1) /\ ~ (groups 8193 3512 <= n < groups 8193 3513) /\
  ~ (groups 8194 0 <= n < groups 8195 0).

(** A mapped address counts as the IPv4 address in it. *)
Definition public (a : Addr) : Prop :=
  match a with
  | Invalid => False
  | V4 n => Forall (fun b => n < fst b \/ snd b < n) special4
  | V6 n z => if decide (n / 2 ^ 32 = 65535) then Forall (fun b => n mod 2 ^ 32 < fst b \/ snd b < n mod 2 ^ 32) special4
              else z = "" /\ public6 n
  end.

(** The high bits of a number, and a prefix whose base is aligned, are an interval. *)
Lemma top_interval n b k : 0 <= k -> (Z.shiftr n k =? b) = (b * 2 ^ k <=? n) && (n <? (b + 1) * 2 ^ k).
Proof.
  intros Hk. rewrite Z.shiftr_div_pow2 by done. assert (0 < 2 ^ k) as Hp by lia.
  pose proof (Z.mul_div_le n (2 ^ k) Hp). pose proof (Z.mul_succ_div_gt n (2 ^ k) Hp).
  apply eq_bool_prop_intro. rewrite andb_True, !Is_true_true, Z.eqb_eq, Z.leb_le, Z.ltb_lt. split; intros Hn; [subst b; lia | nia].
Qed.
Lemma prefix_interval n q k : 0 <= k -> (2 ^ k | q) -> (Z.shiftr (Z.lxor n q) k =? 0) = (q <=? n) && (n <? q + 2 ^ k).
Proof.
  intros Hk [b ->]. replace (b * 2 ^ k + 2 ^ k) with ((b + 1) * 2 ^ k) by lia. rewrite <- top_interval by done.
  rewrite Z.shiftr_lxor, (Z.shiftr_div_pow2 (b * 2 ^ k)), Z.div_mul by lia.
  apply eq_bool_prop_intro. by rewrite !Is_true_true, !Z.eqb_eq, Z.lxor_eq_0_iff.
Qed.

Lemma Contains4 q bits n : 0 <= 32 - bits -> q mod 2 ^ (32 - bits) = 0 ->
  Contains (P4 q bits) (V4 n) = (q <=? n) && (n <? q + 2 ^ (32 - bits)).
Proof. intros Hb Hq. apply prefix_interval; [done|]. apply Z.mod_divide; [lia | done]. Qed.
Lemma Contains6 q bits n : 0 <= 128 - bits -> q mod 2 ^ (128 - bits) = 0 ->
  Contains (P6 q bits) (V6 n "") = (q <=? n) && (n <? q + 2 ^ (128 - bits)).
Proof. intros Hb Hq. apply prefix_interval; [done|]. apply Z.mod_divide; [lia | done]. Qed.

(** ** [publicAddress] decides [public] *)

Lemma guard_true (c d : bool) : (if c then false else d) = true <-> c = false /\ d = true.
Proof. destruct c; naive_solver. Qed.

Lemma publicAddress4 n : 0 <= n < 2 ^ 32 -> publicAddress (V4 n) = true <-> Forall (fun b => n < fst b \/ snd b < n) special4.
Proof.
  intros Hn. unfold publicAddress, special4, blockedPrefixes. cbn [Unmap IsValid Zone Is6 negb orb andb existsb].
  rewrite !Contains4 by (vm_compute; congruence).
  unfold IsGlobalUnicast, IsPrivate, IsLoopback, IsMulticast, IsLinkLocalUnicast, top4. rewrite !top_interval by lia.
  rewrite !Forall_cons, Forall_nil, guard_true. cbn [fst snd Contains String.eqb negb orb]. unfold quad. (split; intros Hp; [split_and!; lia | lia]).
Qed.

Lemma publicAddress6 n : 0 <= n < 2 ^ 128 -> n / 2 ^ 32 <> 65535 -> publicAddress (V6 n "") = true <-> public6 n.
Proof.
  intros Hn Hm. unfold publicAddress, public6, blockedPrefixes. unfold Unmap, Is4In6. rewrite Z.shiftr_div_pow2, (proj2 (Z.eqb_neq _ _) Hm) by lia.
  cbn [IsValid Zone Is6 negb orb andb existsb]. rewrite !Contains6 by (vm_compute; congruence).
  unfold IsGlobalUnicast, IsPrivate, IsLoopback, IsMulticast, IsLinkLocalUnicast, top6. rewrite !top_interval by lia.
  rewrite !guard_true. cbn [Contains String.eqb negb orb]. unfold groups. (split; intros Hp; [lia | split_and!; lia]).
Qed.

Lemma publicAddress_spec a : wide a -> publicAddress a = true <-> public a.
Proof.
  destruct a as [|n|n z]; intros Hw; [done | by apply publicAddress4|]. unfold public. simpl in Hw. case_decide as Hm.
  - rewrite <- publicAddress4 by (apply Z.mod_pos_bound; lia). unfold publicAddress at 1. unfold Unmap, Is4In6.
    rewrite Z.shiftr_div_pow2, (proj2 (Z.eqb_eq _ _) Hm), Z.land_ones by lia. done.
  - destruct (String.eqb_spec z "") as [->|Hz]; [rewrite publicAddress6 by done; naive_solver|].
    unfold publicAddress, Unmap, Is4In6. rewrite Z.shiftr_div_pow2, (proj2 (Z.eqb_neq _ _) Hm) by lia.
    cbn [IsValid Zone negb orb]. rewrite (proj2 (String.eqb_neq _ _) Hz). simpl. naive_solver.
Qed.

(** ** Properties *)

Section properties.
Context `{pgstore.Wire}.
Context (LookupNetIP : string -> option (list Addr)) (connects : Addr -> string -> bool) (ended : nat -> bool).

Lemma dial_each_ok port i ips tried c :
  dial_each connects ended port i ips = (tried, c) ->
  (forall ip, ip ∈ tried -> ip ∈ ips) /\ (forall ip, c = Some ip -> ip ∈ tried /\ connects ip port = true) /\
  (c = None -> (forall j, ended j = false) -> forall ip, ip ∈ ips -> connects ip port = false).
Proof.
  revert i tried c. induction ips as [|ip ips IH]; intros i tried c; simpl.
  { intros [= <- <-]. split_and!; [done | done | intros _ _ ip Hin; by apply elem_of_nil in Hin]. }
  destruct (connects ip port) eqn:Ec; [intros [= <- <-]; split_and!; [|intros ? [= <-]; by split; [left|] | done]|].
  { intros x ->%list_elem_of_singleton. by left. }
  destruct (ended i) eqn:Ee; [intros [= <- <-]; split_and!; [|done | intros _ Hn; by rewrite Hn in Ee]|].
  { intros x ->%list_elem_of_singleton. by left. }
  destruct (dial_each connects ended port (S i) ips) as [tried' c'] eqn:Ed. intros [= <- <-]. apply IH in Ed as (Ht & Hc & Hn). split_and!.
  - intros x [->|Hx]%elem_of_cons; [by left | right; by apply Ht].
  - intros x Hx. destruct (Hc x Hx). split; [by right | done].
  - intros Hx He x [->|Hin]%elem_of_cons; [done | by apply Hn].
Qed.

(** C8: a room's origin is never an internal address. For every origin but the
    compiled-in example, whatever the resolver answers, every address the
    dialer so much as attempts is one of the addresses it resolved and is
    public unicast space: outside the private, shared, loopback, link-local,
    documentation, benchmark, multicast and reserved blocks, an IPv4 address in
    an IPv6 one included, and of the host and port that the origin names. One
    internal address among several denies them all. And when all are public
    and one of at most 32 answers, the dialer connects. *)
Theorem origin_connections_are_public raw network address tried res :
  originDial LookupNetIP connects ended raw network address = (tried, res) -> raw <> demo_origin ->
  (forall host ips ip, LookupNetIP host = Some ips -> ip ∈ ips -> wide ip) ->
  (forall ip, ip ∈ tried \/ res = Ok ip -> public ip /\ network = "tcp" /\
     exists u ips port, pgstore.url_Parse raw = Some u /\ port = (if String.eqb (control.Port u) "" then "443" else control.Port u) /\
       address = runtimeplane.JoinHostPort (control.UHostname u) port /\ LookupNetIP (control.UHostname u) = Some ips /\ ip ∈ ips /\
       Forall public ips /\ (res = Ok ip -> connects ip port = true)) /\
  (forall u ips ip port, pgstore.url_Parse raw = Some u -> runtimeplane.origin_ok raw = true -> network = "tcp" ->
     port = (if String.eqb (control.Port u) "" then "443" else control.Port u) ->
     address = runtimeplane.JoinHostPort (control.UHostname u) port -> LookupNetIP (control.UHostname u) = Some ips ->
     (List.length ips <= 32)%nat -> Forall public ips -> ip ∈ ips -> connects ip port = true -> (forall j, ended j = false) ->
     exists ip', res = Ok ip').
Proof.
  unfold originDial. intros Hd Hdemo Hw. rewrite (proj2 (String.eqb_neq _ _) Hdemo) in Hd.
  assert (forall ips, existsb (fun ip => negb (publicAddress ip) && true) ips = false <-> Forall (fun ip => publicAddress ip = true) ips)
    as Hall by (intros ips; induction ips as [|a ips IH]; simpl; [naive_solver|]; rewrite Forall_cons; destruct (publicAddress a); naive_solver).
  assert (forall host ips, LookupNetIP host = Some ips -> Forall (fun ip => publicAddress ip = true) ips <-> Forall public ips) as Hspec.
  { intros host ips Hl. rewrite !Forall_forall. split; intros Hf ip Hin; apply publicAddress_spec; eauto. }
  destruct (runtimeplane.origin_ok raw) eqn:Eo; [|injection Hd as <- <-; split; [intros ip [?%elem_of_nil|?]; done | done]]. simpl in Hd.
  destruct (pgstore.url_Parse raw) as [u|]; [|injection Hd as <- <-; split; [intros ip [?%elem_of_nil|?]; done | done]].
  set (port := if String.eqb (control.Port u) "" then "443" else control.Port u) in *. split.
  - intros ip Hip. destruct (_ || _) eqn:E1 in Hd; [injection Hd as <- <-; by destruct Hip as [?%elem_of_nil|?]|]. to_prop.
    destruct (LookupNetIP _) as [ips|] eqn:El; [|injection Hd as <- <-; by destruct Hip as [?%elem_of_nil|?]].
    destruct (_ || _) eqn:E2 in Hd; [injection Hd as <- <-; by destruct Hip as [?%elem_of_nil|?]|].
    destruct (existsb _ _) eqn:E3; [injection Hd as <- <-; by destruct Hip as [?%elem_of_nil|?]|].
    apply Hall, (Hspec _ _ El) in E3. destruct (dial_each _ _ _ _ _) as [tried' c] eqn:Ed.
    destruct (dial_each_ok _ _ _ _ _ Ed) as (Ht & Hc & _).
    assert (tried = tried' /\ forall x, res = Ok x -> c = Some x) as [-> Hr] by (destruct c; injection Hd as <- <-; naive_solver).
    assert (ip ∈ ips) as Hin by (destruct Hip as [?|Hip]; [by apply Ht | by apply Ht, Hc, Hr]).
    split; [by eapply Forall_forall|]. split; [done|]. exists u, ips, port. split_and!; try done. intros ->. by apply Hc, Hr.
  - intros u' ips ip port' [= <-] _ -> -> -> El Hlen Hpub Hin Hcon Hend. fold port in Hd, Hcon. rewrite !String.eqb_refl, El in Hd. simpl in Hd.
    assert ((List.length ips =? 0)%nat || (32 <? List.length ips)%nat = false) as E2.
    { destruct ips; [by apply elem_of_nil in Hin|]. simpl in *. apply Nat.ltb_ge. lia. }
    rewrite E2, (proj2 (Hall ips) (proj2 (Hspec _ _ El) Hpub)) in Hd. destruct (dial_each _ _ _ _ _) as [tried' [c|]] eqn:Ed; [exists c; congruence|].
    destruct (dial_each_ok _ _ _ _ _ Ed) as (_ & _ & Hn). by rewrite (Hn eq_refl Hend ip Hin) in Hcon.
Qed.
End properties.

Import example.

(** The origin of the examples, whose name also resolves to a mapped private address. *)
Definition ex_public : Addr := V4 (quad 93 184 216 34).
Definition ex_mapped : Addr := V6 (65535 * 2 ^ 32 + quad 10 0 0 1) "".
Definition ex_lookup (ips : list Addr) (host : string) : option (list Addr) := if String.eqb host "origin.example" then Some ips else None.

Lemma origin_connections_are_public_witness :
  (exists ip, snd (originDial (ex_lookup [ex_public]) (fun _ _ => true) (fun _ => false) "https://origin.example" "tcp" "origin.example:443") = Ok ip /\
     public ip) /\
  originDial (ex_lookup [ex_public; ex_mapped]) (fun _ _ => true) (fun _ => false) "https://origin.example" "tcp" "origin.example:443" =
    ([], Err Denied).
Proof.
  split; [|vm_compute; reflexivity]. exists ex_public. split; [vm_compute; reflexivity|].
  destruct (origin_connections_are_public (ex_lookup [ex_public]) (fun _ _ => true) (fun _ => false) "https://origin.example" "tcp" "origin.example:443"
    [ex_public] (Ok ex_public)) as [Hp _].
  - vm_compute. reflexivity.
  - discriminate.
  - intros host ips ip. unfold ex_lookup. destruct (String.eqb host "origin.example"); [|discriminate]. intros [= <-] Hin.
    apply list_elem_of_singleton in Hin. subst ip. split; vm_compute; [discriminate | reflexivity].
  - destruct (Hp ex_public) as [Hpub _]; [right; reflexivity | exact Hpub].
Defined.
End origin.
