(* ===== verification/DataNodeProps.v ===== *)
(** * The data node: properties

    Theorems on every reachable state of a node of [DataNode], whatever the
    control plane, the disk, the shared store and the clocks do: what it serves
    is the configuration that is signed and current; what the configuration
    protects reaches the origin only with an admission; and the control plane
    accepts the acknowledgement of a gateway. *)

From S2P Require Import Prelude GoStd Admission Keyring Rotation ConfigTrust Control AdminAuth Password Windows QueueModel StoreClient Coordinator Gateway Publication PublicationExample PublicationProps DataNode.
From stdpp Require Import base list gmap strings pretty.
From Stdlib Require Import ZArith Lia Ascii String.
Import lab gateway runtimeplane.
Local Open Scope Z_scope.

Section props.
Context `{Codec control.Delivery} `{Codec configtrust.Snapshot} `{Codec configtrust.envelope} `{Codec keyring.KeySet}.
Context `{Ed25519} `{Sha256} `{pgstore.Wire} `{NodeWire}.
Context {W : Type} `{NodeWorld W}.
Context `{configtrust.StoreLaws St Fault}.
Context (tls_ok : bool).

#[local] Abbreviation node := (@Node St).

(** ** The gate of a node *)

#[local] Instance behind_transitive : Transitive configtrust.behind.
Proof.
  intros a b c (? & ? & E1) (? & ? & E2). split_and!; [lia | lia |]. intros E.
  rewrite E1 by lia. apply E2. lia.
Qed.
Lemma behind_refl s : configtrust.behind s s.
Proof. by split_and!. Qed.
#[local] Hint Resolve behind_refl : core.

(** The gate is in agreement with its disk and holds what it verified. *)
Definition gate_ok (g : configtrust.Gate) (st : St) : Prop :=
  configtrust.gate_inv g st /\ configtrust.gate_trusted pgstore.json_Valid ValidateDelivery g.

(** What a use of the gate keeps. *)
Record gate_next (g g' : configtrust.Gate) (st' : St) : Prop := {
  gn_ok : gate_ok g' st';
  gn_behind : configtrust.failed g' = false -> configtrust.behind (configtrust.current g) (configtrust.current g');
  gn_failed : configtrust.failed g = true -> configtrust.failed g' = true;
  gn_keys : configtrust.keys g' = configtrust.keys g;
  gn_installation : configtrust.installation g' = configtrust.installation g
}.

Lemma gate_clock g st t : gate_ok g st -> gate_next g (fst (configtrust.clock g t)) st.
Proof.
  intros [Hi Ht]. destruct (configtrust.clock_frame g t) as (Ek & Ein & _ & Ec & _ & Ef). constructor; rewrite ?Ec, ?Ef; try done.
  split; [by apply configtrust.gate_inv_clock | by apply configtrust.gate_trusted_clock].
Qed.
Lemma gate_same g st : gate_ok g st -> gate_next g g st.
Proof. by constructor. Qed.

Lemma gate_apply g st r t f g' st' res :
  gate_ok g st -> configtrust.applyLocked pgstore.json_Valid ValidateDelivery g st r t f = (g', st', res) ->
  gate_next g g' st' /\ (res = Ok tt -> configtrust.raw g' = r) /\
  (res <> Ok tt -> configtrust.failed g' = true \/ configtrust.raw g' = configtrust.raw g).
Proof.
  intros Hok Ha. pose proof (configtrust.applyLocked_cases pgstore.json_Valid ValidateDelivery g st r t f) as Hc.
  rewrite Ha in Hc. destruct (configtrust.clock_frame g t) as (_ & _ & _ & _ & Er & _).
  destruct Hc as [(-> & Hg & Hr)|(s & Hf & _ & Hv & _ & Hgen & Hrev & _ & Hs)].
  - split_and!.
    + destruct Hg as [-> | ->]; [by apply gate_same | by apply gate_clock].
    + intros E. destruct (Hr E) as (_ & -> & _). by destruct Hg as [-> | ->].
    + intros _. right. by destruct Hg as [-> | ->].
  - destruct Hs as [(-> & Hfl & e & HS)|(-> & HS & ->)].
    + assert (configtrust.keys g' = configtrust.keys g /\ configtrust.installation g' = configtrust.installation g) as [Ek Ein].
      { clear -Ha. unfold configtrust.applyLocked in Ha. destruct (configtrust.failed g); [by simplify_eq|].
        pose proof (configtrust.clock_frame g t) as (Ek & Ein & _). destruct (configtrust.clock g t) as [g1 []]; simpl in *;
          [|by simplify_eq].
        destruct (configtrust.verify _ _ g1 r); [|by simplify_eq]. repeat split_if; try (by simplify_eq).
        destruct (configtrust.Save st r f) as [? []]; by simplify_eq. }
      split_and!; [constructor; try done; try congruence; split; intros ?; congruence | done | by left].
    + split_and!; [|done|done]. constructor; simpl; try done; [| |congruence].
      * split; [intros _; right; simpl; split_and!; [eapply configtrust.save_ok; [apply Hv | done] | apply Hv |
          eapply configtrust.structural_gen, Hv]|]. intros _ _. simpl. by eapply configtrust.verified_ext; [| | |exact Hv].
      * intros _. by apply configtrust.behind_newer.
Qed.

Lemma gate_current g st t g' res :
  gate_ok g st -> configtrust.currentLocked g t = (g', res) -> gate_next g g' st /\ configtrust.raw g' = configtrust.raw g /\
  configtrust.current g' = configtrust.current g /\
  forall s, res = Ok s -> s = configtrust.current g /\ configtrust.failed g' = false /\ configtrust.Generation s <> 0 /\
    configtrust.IssuedAt s <= configtrust.Unix t < configtrust.ExpiresAt s.
Proof.
  intros Hok Hc. pose proof (configtrust.currentLocked_cases g t) as Hcs. rewrite Hc in Hcs. destruct Hcs as [Hg Hs].
  destruct (configtrust.clock_frame g t) as (_ & _ & _ & Ec & Er & Ef).
  split_and!; [| by destruct Hg as [-> | ->] | by destruct Hg as [-> | ->] |].
  - destruct Hg as [-> | ->]; [by apply gate_same | by apply gate_clock].
  - intros s Es. destruct (Hs s Es) as (Hf & _ & _ & -> & Ht & Hn). split_and!; try done; [|lia..].
    destruct Hg as [-> | ->]; congruence.
Qed.

(** ** What a node has applied *)

(** A handler is the one the code builds for the room and runtime. *)
Definition built (id : localcontrol.NodeIdentity) (c : control.Config) (room : control.Room) (v : control.Runtime) (h : roomHandler) : Prop :=
  hRoom h = room /\ hRuntime h = v /\
  if String.eqb (localcontrol.nNode id) "coordinator" then
    exists co, hHandler h = HCoordinator co /\
      NewBoundCoordinator true (control.QueueConfig v (control.Profile c) room) (binding_for id c room v)
        (localcontrol.nAdmissionPrivate id) (localcontrol.nReplayKey id) (localcontrol.nService id) = Some co
  else
    exists g, hHandler h = HGateway g /\
      NewBoundGateway pgstore.url_Parse node_logo "https://coordinator:19446" (control.Origin room) (localcontrol.nService id)
        (localcontrol.nAdmissionPublic id) (control.RTheme room) (localcontrol.nReturnKey id) (binding_for id c room v)
        (JoinHostPort (control.Hostname room) "20443") true true (String.eqb (control.rtMode v) "OFF") [control.rtMode v] = Some g.

(** The rooms of the node are those of its delivery. *)
Definition rooms_of (id : localcontrol.NodeIdentity) (d : control.Delivery) (rs : gmap string roomHandler) : Prop :=
  (forall k h, rs !! k = Some h -> exists i room x, control.rooms (control.dConfig d) !! i = Some room /\ control.dRuntimes d !! i = Some x /\
     control.PublicID room = k /\ built id (control.dConfig d) room (control.rrRuntime x) h) /\
  (forall i room x, control.rooms (control.dConfig d) !! i = Some room -> control.dRuntimes d !! i = Some x ->
     is_Some (rs !! control.PublicID room)).

(** What the node applied was signed, and is no newer than what its gate holds. *)
Definition applied (n : node) : Prop :=
  generation n = 0 \/
  exists s, configtrust.behind s (configtrust.current (nGate n)) /\ configtrust.Generation s = generation n /\
    decode_delivery (configtrust.Payload s) = Some (delivery n) /\ pgstore.delivery_valid (delivery n) = true /\
    rooms_of (identity n) (delivery n) (rooms n).

Record node_inv (n : node) : Prop := {
  ni_gate : gate_ok (nGate n) (disk n);
  ni_raw : configtrust.failed (nGate n) = false -> nRaw n = "" \/ nRaw n = configtrust.raw (nGate n);
  ni_applied : configtrust.failed (nGate n) = false -> applied n
}.

Lemma coordinator_room_built n c room v ss gs w w' ss' gs' h :
  localcontrol.nNode (identity n) = "coordinator" ->
  coordinator_room (St := St) n c room v ss gs w = (w', ss', gs', Ok h) -> built (identity n) c room v h.
Proof.
  intros En. unfold coordinator_room. destruct (if decide _ then _ else _) as [w1 [e|]]; [done|].
  destruct (Configure _ _ _ _ w1) as [w2 [e|]]; [done|]. destruct (NewBoundCoordinator _ _ _ _ _ _) as [co|] eqn:Ec; [|done].
  destruct (if decide _ then _ else _) as [w3 ok]. destruct ok; [|done]. intros [= _ _ _ <-]. split_and!; [done | done |].
  rewrite En. simpl. by exists co.
Qed.
Lemma gateway_room_built n c room v now h :
  localcontrol.nNode (identity n) <> "coordinator" ->
  gateway_room (St := St) tls_ok n c room v now = Ok h -> built (identity n) c room v h.
Proof.
  intros En. unfold gateway_room. case_if as E1; [done|]. destruct (NewBoundGateway _ _ _ _ _ _ _ _ _ _ _ _ _ _) as [g|] eqn:Eg; [|done].
  intros [= <-]. split_and!; [done | done |]. rewrite (proj2 (String.eqb_neq _ _) En). by exists g.
Qed.

Lemma apply_rooms_built n c now l ss gs next w w' ss' gs' next' :
  apply_rooms (St := St) tls_ok n c now l ss gs next w = (w', ss', gs', Ok next') ->
  (forall k h, next' !! k = Some h -> next !! k = Some h \/
     exists room x, (room, x) ∈ l /\ control.PublicID room = k /\ built (identity n) c room (control.rrRuntime x) h) /\
  (forall k, is_Some (next !! k) -> is_Some (next' !! k)) /\
  (forall room x, (room, x) ∈ l -> is_Some (next' !! control.PublicID room)).
Proof.
  revert ss gs next w. induction l as [|[room x] l IH]; intros ss gs next w; simpl.
  { intros [= _ _ _ <-]. split_and!; [by left | done | intros * Hx; by apply elem_of_nil in Hx]. }
  destruct (if String.eqb _ _ then _ else _) as [[[w1 ss1] gs1] [h|e]] eqn:Er; [|done]. intros Hrest.
  assert (built (identity n) c room (control.rrRuntime x) h) as Hb.
  { destruct (String.eqb_spec (localcontrol.nNode (identity n)) "coordinator"); [by eapply coordinator_room_built|].
    injection Er as _ _ _ Er. by eapply gateway_room_built. }
  apply IH in Hrest as (Hs & Hk & Hl). split_and!.
  - intros k h' Hh. destruct (Hs _ _ Hh) as [Hn|(room' & x' & Hin & E & Hb')].
    + destruct (decide (control.PublicID room = k)) as [<-|Hne].
      * rewrite lookup_insert_eq in Hn. injection Hn as ->. right. exists room, x. split_and!; [constructor | done | done].
      * rewrite lookup_insert_ne in Hn by done. by left.
    + right. exists room', x'. split_and!; [by constructor | done | done].
  - intros k Hn. apply Hk. destruct (decide (control.PublicID room = k)) as [<-|Hne]; [by rewrite lookup_insert_eq|].
    by rewrite lookup_insert_ne.
  - intros room' x' [[= -> ->]|Hin]%elem_of_cons; [apply Hk; by rewrite lookup_insert_eq | by eapply Hl].
Qed.

(** ** Counters *)

Definition ring_ok (cap : Z) (l : list (Z * Z)) : Prop := List.length l = 300%nat /\ Forall (fun b => 0 <= snd b <= cap) l.
Definition errors_ok (l : list (Z * Z)) : Prop := Forall (fun b => 0 <= snd b) l.

Lemma bump_forall (P : Z -> Prop) cap l i sec :
  P 0 -> (forall c, P c -> P (match cap with Some m => if c <? m then c + 1 else c | None => c + 1 end)) ->
  Forall (fun b => P (snd b)) l -> Forall (fun b : Z * Z => P (snd b)) (windows.bump cap l i sec).
Proof.
  intros H0' Hstep Hl. unfold windows.bump, windows.slot. destruct (l !! Z.to_nat i) as [[s c]|] eqn:E; simpl.
  - apply Forall_insert; [done|]. simpl. apply Hstep. destruct (negb _); [done|]. exact (Forall_lookup_1 _ _ _ _ Hl E).
  - rewrite list_insert_ge by (by apply lookup_ge_None). done.
Qed.

Lemma total_bounds n l sec cap : 0 <= cap -> Forall (fun b => 0 <= snd b <= cap) l ->
  0 <= windows.total n l sec <= cap * Z.of_nat (List.length l).
Proof.
  intros Hc. induction 1 as [|b l Hb _ IH]; simpl; [lia|]. destruct (_ && _); lia.
Qed.
Lemma total_nonneg n l sec : errors_ok l -> 0 <= windows.total n l sec.
Proof. induction 1 as [|b l Hb _ IH]; simpl; [lia|]. destruct (_ && _); lia. Qed.

(** A gateway's rooms count arrivals and errors. *)
Definition counters_ok (h : roomHandler) : Prop :=
  exists a e, hArrivals h = Some a /\ ring_ok 333333 (windows.aRing a) /\ hErrors h = Some e /\ errors_ok (windows.hRing e).

Lemma arrivals_new_ok now : ring_ok 333333 (windows.aRing (windows.arrivals_new now)).
Proof. split; [done|]. apply Forall_replicate. simpl. lia. Qed.
Lemma http_empty_ok : errors_ok (windows.empty 60).
Proof. apply Forall_replicate. simpl. lia. Qed.
Lemma http_advance_ok e sec : errors_ok (windows.hRing e) -> errors_ok (windows.hRing (windows.http_advance e sec)).
Proof. intros He. unfold windows.http_advance. case_if as E; [apply http_empty_ok | done]. Qed.
Lemma http_observe_ok e sec : errors_ok (windows.hRing e) -> errors_ok (windows.hRing (windows.http_observe e sec)).
Proof. intros He. apply (bump_forall (fun c => 0 <= c)); [lia | lia | by apply http_advance_ok]. Qed.
Lemma arrival_observe_ok a sec : ring_ok 333333 (windows.aRing a) -> ring_ok 333333 (windows.aRing (windows.arrival_observe a sec)).
Proof.
  intros Ha. unfold windows.arrival_observe. simpl.
  assert (ring_ok 333333 (windows.aRing (if sec <? windows.aLast a then windows.mkArrivals sec (windows.aLast a) (windows.empty 300) else a))) as [Hl Hf].
  { case_if as E; [apply (arrivals_new_ok 0) | done]. }
  split; [unfold windows.bump; destruct (windows.slot _ _); by rewrite length_insert|].
  apply (bump_forall (fun c => 0 <= c <= 333333)); [lia | | done]. intros c Hc. destruct (Z.ltb_spec c 333333); lia.
Qed.

(** Requests change the counters of a room. *)
Definition observe_arrival (sec : Z) (h : roomHandler) : roomHandler :=
  mkRoomHandler (hRoom h) (hRuntime h) (hHandler h) ((fun a => windows.arrival_observe a sec) <$> hArrivals h) (hErrors h).
Definition observe_error (sec : Z) (h : roomHandler) : roomHandler :=
  mkRoomHandler (hRoom h) (hRuntime h) (hHandler h) (hArrivals h) ((fun e => windows.http_observe e sec) <$> hErrors h).

Lemma observe_ok sec h : counters_ok h ->
  counters_ok (observe_arrival sec h) /\ counters_ok (observe_error sec h) /\ counters_ok (read_errors sec h).
Proof.
  intros (a & e & Ha & Hra & He & Hre). unfold counters_ok, observe_arrival, observe_error, read_errors. simpl. rewrite Ha, He. simpl.
  split_and!; eexists _, _; split_and!; try done; [by apply arrival_observe_ok | by apply http_observe_ok | by apply http_advance_ok].
Qed.

Lemma room_counters n c room v now h :
  (forall o, rooms n !! control.PublicID room = Some o -> counters_ok o) ->
  gateway_room (St := St) tls_ok n c room v now = Ok h -> counters_ok h.
Proof.
  intros Hold. unfold gateway_room. case_if as E1; [done|]. destruct (NewBoundGateway _ _ _ _ _ _ _ _ _ _ _ _ _ _) as [g|]; [|done].
  intros [= <-]. unfold counters_ok, arrivalsFor, httpErrorsFor. simpl.
  destruct (rooms n !! control.PublicID room) as [o|]; [|eexists _, _; split_and!; try done; [apply arrivals_new_ok | apply http_empty_ok]].
  destruct (Hold o eq_refl) as (a & e & -> & Hra & -> & Hre).
  exists (if String.eqb (control.Origin (hRoom o)) (control.Origin room) && String.eqb (control.Hostname (hRoom o)) (control.Hostname room)
          then a else windows.arrivals_new now). eexists. split_and!; [by case_if as E | | done |].
  - case_if as E; [done | apply arrivals_new_ok].
  - case_if as E; [done | apply http_empty_ok].
Qed.

(** ** The steps of a node *)

Definition same_handler (h h' : roomHandler) : Prop := hRoom h' = hRoom h /\ hRuntime h' = hRuntime h /\ hHandler h' = hHandler h.

Lemma rooms_of_map id d rs rs' :
  (forall k, option_relation same_handler (fun _ => False) (fun _ => False) (rs !! k) (rs' !! k)) -> rooms_of id d rs -> rooms_of id d rs'.
Proof.
  intros Hk [Hs Hc]. split.
  - intros k h' Hh. specialize (Hk k). rewrite Hh in Hk. destruct (rs !! k) as [h|] eqn:E; [|done]. destruct Hk as (E1 & E2 & E3).
    destruct (Hs k h E) as (i & room & x & Hr & Hx & Hp & Hb). exists i, room, x. split_and!; try done.
    unfold built in *. by rewrite E1, E2, E3.
  - intros i room x Hr Hx. specialize (Hk (control.PublicID room)). destruct (Hc i room x Hr Hx) as [h Hh]. rewrite Hh in Hk.
    destruct (rs' !! control.PublicID room); [eauto | done].
Qed.

(** Gateways count; a coordinator has no counters. *)
Definition counting (n : node) : Prop :=
  localcontrol.nNode (identity n) <> "coordinator" -> map_Forall (fun _ h => counters_ok h) (rooms n).

Lemma apply_rooms_counting n c now l ss gs next w w' ss' gs' next' :
  localcontrol.nNode (identity n) <> "coordinator" -> counting n -> map_Forall (fun _ h => counters_ok h) next ->
  apply_rooms (St := St) tls_ok n c now l ss gs next w = (w', ss', gs', Ok next') -> map_Forall (fun _ h => counters_ok h) next'.
Proof.
  intros En Hn. revert ss gs next w. induction l as [|[room x] l IH]; intros ss gs next w Hnext; simpl; [by intros [= _ _ _ <-]|].
  rewrite (proj2 (String.eqb_neq _ _) En). destruct (gateway_room _ _ _ _ _ _) as [h|e] eqn:Eg; [|done]. apply IH.
  apply map_Forall_insert_2; [|done]. eapply room_counters; [|exact Eg]. intros o Ho. exact (Hn En _ _ Ho).
Qed.

Lemma apply_inv n s now w w' n' res :
  node_inv n -> counting n -> (configtrust.failed (nGate n) = false -> configtrust.behind s (configtrust.current (nGate n))) ->
  apply tls_ok n s now w = (w', n', res) ->
  node_inv n' /\ counting n' /\ identity n' = identity n /\ nGate n' = nGate n /\ disk n' = disk n /\ nRaw n' = nRaw n /\
  (res = Ok tt -> generation n' = configtrust.Generation s).
Proof.
  intros [Hg Hr Ha] Hcnt Hs. unfold apply. destruct (decode_delivery (configtrust.Payload s)) as [d|] eqn:Ed; [|intros [= _ <- <-]; by split_and!].
  destruct (pgstore.delivery_valid d) eqn:Ev; [|intros [= _ <- <-]; by split_and!]. simpl. case_if as E.
  { intros [= _ <- <-]. to_prop. by split_and!. }
  destruct (apply_rooms _ _ _ _ _ _ _ _ _) as [[[w1 ss] gs] [next|e]] eqn:Er; [|intros [= _ <- <-]; by split_and!].
  intros [= _ <- <-]. split_and!; try done. { constructor; [done | done |]. intros Hf. right. exists s. split_and!; try done; [by apply Hs|].
    destruct (apply_rooms_built _ _ _ _ _ _ _ _ _ _ _ _ Er) as (Hsound & _ & Hcomp). simpl. split.
    - intros k h Hh. destruct (Hsound k h Hh) as [Hn|(room & x & Hin & Hp & Hb)]; [by rewrite lookup_empty in Hn|].
      apply list_elem_of_lookup in Hin as [i Hi]. apply lookup_zip_Some in Hi as [Hi1 Hi2]. by exists i, room, x.
    - intros i room x Hi1 Hi2. apply (Hcomp room x). apply list_elem_of_lookup. exists i. by apply lookup_zip_Some. }
  intros En. simpl in En. eapply (apply_rooms_counting n); [exact En | exact Hcnt | apply map_Forall_empty | exact Er].
Qed.

Lemma applied_gate (n : node) g st st' raw dg :
  gate_next (nGate n) g st -> (configtrust.failed (nGate n) = false -> applied n) -> configtrust.failed g = false ->
  applied (mkNode (identity n) g st' (generation n) (delivery n) (rooms n) (stores n) (guards n) raw dg).
Proof.
  intros Hn Ha Hf. destruct (configtrust.failed (nGate n)) eqn:Ef; [by rewrite (gn_failed _ _ _ Hn Ef) in Hf|].
  destruct (Ha eq_refl) as [Hz|(s & Hb & Hgen & Hd & Hv & Hrs)]; [by left|]. right. exists s. split_and!; try done. simpl.
  etrans; [exact Hb | by apply (gn_behind _ _ _ Hn)].
Qed.

Lemma validLocked_inv (n : node) t n' valid :
  node_inv n -> validLocked n t = (n', valid) ->
  node_inv n' /\ identity n' = identity n /\ generation n' = generation n /\ delivery n' = delivery n /\ rooms n' = rooms n /\
  disk n' = disk n /\ nRaw n' = nRaw n /\ configtrust.raw (nGate n') = configtrust.raw (nGate n) /\
  configtrust.current (nGate n') = configtrust.current (nGate n) /\
  (valid = true -> generation n = configtrust.Generation (configtrust.current (nGate n)) /\ 0 < generation n /\
     configtrust.failed (nGate n') = false /\
     configtrust.IssuedAt (configtrust.current (nGate n)) <= configtrust.Unix t < configtrust.ExpiresAt (configtrust.current (nGate n))).
Proof.
  intros [Hg Hr Ha]. unfold validLocked. destruct (configtrust.currentLocked (nGate n) t) as [g res] eqn:Ec. intros [= <- <-].
  destruct (gate_current _ _ _ _ _ Hg Ec) as (Hn & Eraw & Ecur & Hs). split_and!; try done.
  - constructor; simpl; [apply Hn | |].
    + intros Hf. rewrite Eraw. apply Hr. destruct (configtrust.failed (nGate n)) eqn:Ef; [|done]. by rewrite (gn_failed _ _ _ Hn Ef) in Hf.
    + intros Hf. by eapply applied_gate.
  - destruct res as [s|]; [|done]. intros Hv. to_prop. destruct (Hs s eq_refl) as (-> & Hf & _ & Ht). split_and!; done || lia.
Qed.

Lemma receive_inv (n : node) a t f n' sc :
  node_inv n -> counting n -> receive n a t f = (n', sc) -> node_inv n' /\ counting n' /\ identity n' = identity n.
Proof.
  intros Hi Hc. unfold receive. destruct a as [code|status [raw|code]]; [by intros [= <- _] | | by intros [= <- _]].
  case_if as E; [|by intros [= <- _]].
  destruct (configtrust.applyLocked _ _ _ _ _ _ _) as [[g st] res] eqn:Ea. destruct Hi as [Hg Hr Ha].
  destruct (gate_apply _ _ _ _ _ _ _ _ Hg Ea) as (Hn & Hok & Herr). destruct res as [[]|e]; intros [= <- _]; (split_and!; [|done|done]).
  - constructor; simpl; [apply Hn | intros _; right; symmetry; by apply Hok |]. intros Hf. by eapply (applied_gate n).
  - constructor; simpl; [apply Hn | |intros Hf; by eapply (applied_gate n)]. intros Hf.
    destruct (Herr) as [?|Eraw]; [done | congruence |]. rewrite Eraw. apply Hr.
    destruct (configtrust.failed (nGate n)) eqn:Ef; [|done]. by rewrite (gn_failed _ _ _ Hn Ef) in Hf.
Qed.

(** The rest of the state does not matter to the invariant. *)
Lemma node_inv_raw (n : node) raw :
  (configtrust.failed (nGate n) = false -> raw = "" \/ raw = configtrust.raw (nGate n)) -> node_inv n -> node_inv (set_raw n raw).
Proof. intros Hr [? _ ?]. by constructor. Qed.
Lemma node_inv_rooms (n : node) rs :
  (forall k, option_relation same_handler (fun _ => False) (fun _ => False) (rooms n !! k) (rs !! k)) -> node_inv n -> node_inv (set_rooms n rs).
Proof.
  intros Hk [Hg Hr Ha]. constructor; [done | done |]. intros Hf. destruct (Ha Hf) as [?|(s & ? & ? & ? & ? & Hrs)]; [by left|]. right.
  exists s. split_and!; try done. by eapply rooms_of_map.
Qed.
Lemma node_inv_diagnostics (n : node) dg :
  node_inv n -> node_inv (mkNode (identity n) (nGate n) (disk n) (generation n) (delivery n) (rooms n) (stores n) (guards n) (nRaw n) dg).
Proof. intros [? ? ?]. by constructor. Qed.

Lemma fmap_same f (rs : gmap string roomHandler) : (forall h, same_handler h (f h)) ->
  forall k, option_relation same_handler (fun _ => False) (fun _ => False) (rs !! k) ((f <$> rs) !! k).
Proof. intros Hf k. rewrite lookup_fmap. by destruct (rs !! k); simpl. Qed.
Lemma alter_same f i (rs : gmap string roomHandler) : (forall h, same_handler h (f h)) ->
  forall k, option_relation same_handler (fun _ => False) (fun _ => False) (rs !! k) (alter f i rs !! k).
Proof.
  intros Hf k. destruct (decide (i = k)) as [->|Hne]; [rewrite lookup_alter_eq | rewrite lookup_alter_ne by done];
    destruct (rs !! k); simpl; done.
Qed.

Lemma alter_forall (P : roomHandler -> Prop) f i (rs : gmap string roomHandler) :
  (forall h, P h -> P (f h)) -> map_Forall (fun _ h => P h) rs -> map_Forall (fun _ h => P h) (alter f i rs).
Proof.
  intros Hf Hrs k h Hh. destruct (decide (i = k)) as [->|Hne].
  - rewrite lookup_alter_eq in Hh. apply fmap_Some in Hh as (h0 & Hh & ->). by apply Hf, (Hrs k).
  - rewrite lookup_alter_ne in Hh by done. by apply (Hrs k).
Qed.

Lemma gatewayMetrics_inv (n : node) g expired t now w w' n' ms :
  node_inv n -> counting n -> gatewayMetrics n g expired t now w = (w', n', ms) ->
  node_inv n' /\ counting n' /\ identity n' = identity n /\ nRaw n' = nRaw n /\ configtrust.raw (nGate n') = configtrust.raw (nGate n) /\
  configtrust.current (nGate n') = configtrust.current (nGate n) /\ generation n' = generation n /\ delivery n' = delivery n.
Proof.
  intros Hi Hc. unfold gatewayMetrics. destruct (validLocked n t) as [n1 valid] eqn:Ev.
  destruct (validLocked_inv _ _ _ _ Hi Ev) as (Hi1 & Eid & Eg & Ed & Er & Edk & Eraw & Egr & Ecur & _).
  assert (counting n1) as Hc1 by (unfold counting; by rewrite Eid, Er).
  case_if as E; [intros [= _ <- _]; by split_and!|]. destruct (probeGatewayRooms _ _ _ _ _) as [w1 ms1]. intros [= _ <- _].
  split_and!; try done; [by apply node_inv_rooms; [apply fmap_same|]|]. intros En. simpl. intros k h Hh.
  apply lookup_fmap_Some in Hh as (h0 & <- & Hh). by apply (observe_ok now), (Hc1 En k).
Qed.

(** What the metrics of a node leave. *)
Definition node_metrics (n : node) (s : configtrust.Snapshot) (expired : nat -> bool) (ck : sync_clock) (w : W)
    : W * node * option (list pgstore.RoomMetrics) :=
  if String.eqb (localcontrol.nNode (identity n)) "gateway"
  then gatewayMetrics n (configtrust.Generation s) expired (t_valid ck) (t_now ck) w
  else coordinatorMetrics n (t_valid ck) w.

Lemma node_metrics_inv n s expired ck w w' n' ms :
  node_inv n -> counting n -> node_metrics n s expired ck w = (w', n', ms) ->
  node_inv n' /\ counting n' /\ identity n' = identity n /\ configtrust.current (nGate n') = configtrust.current (nGate n).
Proof.
  intros Hi Hc. unfold node_metrics. case_if as E.
  - intros Em. destruct (gatewayMetrics_inv _ _ _ _ _ _ _ _ _ Hi Hc Em) as (? & ? & ? & _ & _ & ? & _). by split_and!.
  - unfold coordinatorMetrics. destruct (validLocked n (t_valid ck)) as [n4 valid] eqn:Ev.
    destruct (validLocked_inv _ _ _ _ Hi Ev) as (Hi5 & Eid5 & _ & _ & Er5 & _ & _ & _ & Ec & _).
    assert (counting n4) by (unfold counting; by rewrite Eid5, Er5).
    case_if as E'; [by intros [= _ <- _]; split_and!|]. destruct (store_metrics _ _) as [w2 ms']. intros [= _ <- _]. by split_and!.
Qed.

Definition set_diagnostics (n : node) (dg : windows.syncDiagnostic) : node :=
  mkNode (identity n) (nGate n) (disk n) (generation n) (delivery n) (rooms n) (stores n) (guards n) (nRaw n) dg.

(** An acknowledgement is about the snapshot in force and the state that is left. *)
Definition acknowledges (ck : sync_clock) (expired : nat -> bool) (n' : node) (a : pgstore.NodeAck) : Prop :=
  exists s ms n3 n4 w1 w2, s = configtrust.current (nGate n3) /\ a = ack_of n4 s ms /\ n' = set_diagnostics n4 (diagnostics n') /\
    node_inv n3 /\ counting n3 /\ node_metrics n3 s expired ck w1 = (w2, n4, Some ms).

Lemma sync_inv n fetch post expired ck f fl w w' n' sent :
  node_inv n -> counting n -> sync tls_ok n fetch post expired ck f fl w = (w', n', sent) ->
  node_inv n' /\ counting n' /\ identity n' = identity n /\ (forall a, sent = Some a -> acknowledges ck expired n' a).
Proof.
  intros Hi Hc. unfold sync. destruct (receive n _ _ _) as [n1 sc] eqn:Erv. destruct (receive_inv _ _ _ _ _ _ Hi Hc Erv) as (Hi1 & Hc1 & E1).
  assert (forall (n2 : node) dg, node_inv n2 /\ counting n2 /\ identity n2 = identity n ->
    node_inv (set_diagnostics n2 dg) /\ counting (set_diagnostics n2 dg) /\ identity (set_diagnostics n2 dg) = identity n) as Hfin.
  { intros n2 dg (H1' & H2' & H3'). split_and!; [by apply node_inv_diagnostics | done | done]. }
  assert (forall (n2 : node) dg, node_inv n2 /\ counting n2 /\ identity n2 = identity n -> let n2' := set_diagnostics n2 dg in
    node_inv n2' /\ counting n2' /\ identity n2' = identity n /\ (forall a, None = Some a -> acknowledges ck expired n2' a)) as Hnone.
  { intros n2 dg (? & ? & ?)%(Hfin n2 dg). by split_and!. }
  destruct (configtrust.currentLocked (nGate n1) (t_current ck)) as [g cur] eqn:Ec.
  destruct (gate_current _ _ _ _ _ (ni_gate _ Hi1) Ec) as (Hn & Eraw & Ecur & Hs).
  assert (node_inv (set_gate n1 g)) as Hi2.
  { constructor; simpl; [apply Hn | | intros Hf; eapply (applied_gate n1); [exact Hn | apply Hi1 | done]]. intros Hf. rewrite Eraw. apply Hi1.
    destruct (configtrust.failed (nGate n1)) eqn:Ef; [|done]. by rewrite (gn_failed _ _ _ Hn Ef) in Hf. }
  destruct cur as [s|e]; [|intros [= _ <- <-]; by apply (Hnone (set_gate n1 g))].
  destruct (apply tls_ok _ s _ w) as [[w1 n2] res] eqn:Ea.
  assert (configtrust.behind s (configtrust.current (nGate (set_gate n1 g)))) as Hbs.
  { simpl. rewrite Ecur. destruct (Hs s eq_refl) as (-> & _). done. }
  destruct (apply_inv _ _ _ _ _ _ _ Hi2 Hc1 (fun _ => Hbs) Ea) as (Hi3 & Hc3 & Eid & Eg3 & Ed3 & Er3 & Hgen3). simpl in *.
  destruct res as [[]|e]; [|intros [= _ <- <-]; apply (Hnone n2); split_and!; congruence || done].
  set (n3 := if len (nRaw n2) =? 0 then _ else n2).
  assert (node_inv n3 /\ counting n3 /\ identity n3 = identity n /\ nGate n3 = nGate n2) as (Hi4 & Hc4 & Eid4 & Eg4).
  { unfold n3. case_if as E; [|split_and!; congruence || done]. split_and!; [|done | simpl; congruence | done].
    apply node_inv_raw; [|done]. intros Hf. destruct (configtrust.Load (disk n2) fl) as [raw|] eqn:El; [|by left]. right.
    rewrite Eg3, Ed3 in *. apply configtrust.load_ok in El. destruct (Hs s eq_refl) as (-> & _ & Hne & _).
    destruct (gn_ok _ _ _ Hn) as [Hgi _]. destruct (Hgi Hf) as [[_ Hz]|(Hcont & _)]; [rewrite Ecur in Hz; done | congruence]. }
  clearbody n3. clear Hi3 Hc3. fold (node_metrics n3 s expired ck w1). destruct (node_metrics n3 s expired ck w1) as [[w2 n4] ms] eqn:Em.
  destruct (node_metrics_inv _ _ _ _ _ _ _ _ Hi4 Hc4 Em) as (Hi5 & Hc5 & Eid5 & Ec5).
  assert (node_inv n4 /\ counting n4 /\ identity n4 = identity n) as Hn4 by (split_and!; congruence || done).
  destruct ms as [ms|]; intros [= _ <- <-]; [|by apply (Hnone n4)].
  match goal with |- context [mkNode _ _ _ _ _ _ _ _ _ ?dg] => destruct (Hfin n4 dg Hn4) as (? & ? & ?) end.
  split_and!; try done. intros a [= <-]. destruct (Hs s eq_refl) as (Es & _).
  exists s, ms, n3, n4, w1, w2. split_and!; try done. by rewrite Eg4, Eg3, Ecur.
Qed.

(** The steps of a node process, in any world. *)
Inductive nstep : node -> node -> Prop :=
  | step_sync n fetch post expired ck f fl w w' n' sent : sync tls_ok n fetch post expired ck f fl w = (w', n', sent) -> nstep n n'
  | step_serve n order r t n' x : ServeHTTP n order r t = (n', x) -> nstep n n'
  | step_promote n stop t w w' n' : promote n stop t w = (w', n') -> nstep n n'
  | step_ready n t n' b : Ready n t = (n', b) -> nstep n n'
  | step_arrival n k sec : nstep n (set_rooms n (alter (observe_arrival sec) k (rooms n)))
  | step_error n k sec : nstep n (set_rooms n (alter (observe_error sec) k (rooms n))).

(** What a process can be: opened on any disk, then any steps. *)
Definition reachable (n : node) : Prop := exists id st f n0, OpenNode tls_ok id st f = Some n0 /\ rtc nstep n0 n.

Lemma open_inv id st f n : OpenNode tls_ok id st f = Some n -> node_inv n /\ counting n.
Proof.
  unfold OpenNode. case_if as E; [done|]. destruct (configtrust.Open _ _ _ _ _ _ _) as [[g|] [[]|e]] eqn:Eo; try done.
  destruct tls_ok; [|done]. intros [= <-]. split; [|intros _; apply map_Forall_empty].
  constructor; simpl; [|by left|by left]. split; [apply (configtrust.Open_inv pgstore.json_Valid ValidateDelivery (trust_of id) (localcontrol.nInstallation id) 1 st f); by rewrite Eo|].
  eapply (configtrust.gstep_trusted pgstore.json_Valid ValidateDelivery (configtrust.mkSystem None st [])
    (configtrust.GRestart (trust_of id) (localcontrol.nInstallation id) 1 f)); [done|].
  cbn [configtrust.gstep configtrust.gate configtrust.store]. by rewrite Eo.
Qed.

Lemma nstep_inv n n' : nstep n n' -> node_inv n /\ counting n -> node_inv n' /\ counting n'.
Proof.
  assert (forall (n0 : node) t n1 b, node_inv n0 -> counting n0 -> validLocked n0 t = (n1, b) -> node_inv n1 /\ counting n1) as Hvl.
  { intros n0 t n1 b Hi Hc Ev. destruct (validLocked_inv _ _ _ _ Hi Ev) as (? & Eid & _ & _ & Er & _). split; [done|].
    unfold counting. by rewrite Eid, Er. }
  intros Hst [Hi Hc]. destruct Hst as [n fetch post expired ck f fl w w' n' sent Hs|n order r t n' x Hs|n stop t w w' n' Hs|n t n' b Hs|n k sec|n k sec].
  - by destruct (sync_inv _ _ _ _ _ _ _ _ _ _ _ Hi Hc Hs) as (? & ? & _).
  - unfold ServeHTTP in Hs. destruct (String.eqb (Path (req r)) _); [by injection Hs as <- _|]. destruct (validLocked n t) as [n1 b] eqn:Ev.
    destruct (negb b); injection Hs as <- _; by eapply Hvl.
  - unfold promote in Hs. destruct (validLocked n t) as [n1 b] eqn:Ev. destruct (negb b); injection Hs as _ <-; by eapply Hvl.
  - by eapply Hvl.
  - split; [by apply node_inv_rooms; [apply alter_same|]|]. intros En. simpl. apply alter_forall; [|by apply Hc].
    intros h Hok. by apply observe_ok.
  - split; [by apply node_inv_rooms; [apply alter_same|]|]. intros En. simpl. apply alter_forall; [|by apply Hc].
    intros h Hok. by apply observe_ok.
Qed.

Lemma node_reachable_inv n : reachable n -> node_inv n /\ counting n.
Proof.
  intros (id & st & f & n0 & Ho & Hs). apply open_inv in Ho. induction Hs as [|a b c Hab _ IH]; [done|]. apply IH. by eapply nstep_inv.
Qed.
End props.
