(* ===== verification/NodeExample.v ===== *)
(** * A concrete gateway node

    A gateway of the installation of [PublicationExample], with stand-ins for
    the parameters of [DataNode]: it opens on an empty disk, takes the first
    publication and serves. The witnesses on nodes run on it. *)

From S2P Require Import Prelude GoStd Admission Keyring Rotation ConfigTrust Control AdminAuth Password Windows QueueModel StoreClient Coordinator Gateway Publication PublicationExample PublicationProps DataNode DataNodeProps.
From stdpp Require Import base list gmap strings pretty.
From Stdlib Require Import ZArith Lia Ascii String.
Import lab gateway runtimeplane pgstore example.
Local Open Scope Z_scope.

Module nodeexample.

Definition nx_url (raw : string) : control.URL := control.mkURL "" false "" "" "" raw "" "" false "" "".
Definition nx_wire : NodeWire := {|
  decode_delivery raw := if String.eqb raw (marshal control.wit_delivery) then Some control.wit_delivery
                         else if String.eqb raw (marshal ex_auto) then Some ex_auto else None;
  decode_target raw := Some raw; ParseRequestURI raw := Some (nx_url raw);
  node_logo s := if String.eqb s "" then Some "" else None
|}.

(** A store that takes everything and origins that are up. *)
Definition nx_world : NodeWorld unit := {|
  OpenRecoveryRoom _ _ _ _ _ w := (w, None); Configure _ _ _ _ w := (w, None);
  StoreMetrics _ w := (w, Err valkeystore.ErrSchema); PromoteRoom _ _ w := w; MaintainRoom _ w := w;
  OpenGuard _ _ _ w := (w, true); healthy _ w := (w, true)
|}.
Definition nx_hmac : HmacSha256 := fun _ s => s.
Definition nx_keyset_codec : Codec keyring.KeySet := {| marshal _ := "{keys}"; GoStd.decode _ := None |}.

Definition nx_claims : admission.Claims :=
  admission.mkClaims "admission-v1" "abcdefghijklmnopqrst" 1 "jti" 1000 1000 1900 "local:abcdefghijklmnopqrst".
Definition nx_claims_codec : Codec admission.Claims :=
  {| marshal _ := "c"; GoStd.decode s := if String.eqb s "c" then Some (nx_claims, "") else None |}.

#[export] Existing Instances nx_hmac nx_wire nx_world nx_keyset_codec nx_claims_codec wit_return_codec wit_intent_codec keyring.wit_aead.

Definition nx_identity : localcontrol.NodeIdentity :=
  localcontrol.mkIdentity None "" 1 "local" "" "gateway" "" "" "" (PublicOf configtrust.wit_key) (PublicOf admission.wit_key) "" "" ""
    "0123456789abcdef0123456789abcdef" "0123456789abcdef0123456789abcdef" "".

(** The node opens on an empty disk and fetches the first publication at 1100 s. *)
Definition nx_open : option (@Node configtrust.MemoryStore) := OpenNode true nx_identity ("" : configtrust.MemoryStore) tt.
Definition nx_start : @Node configtrust.MemoryStore :=
  default (mkNode nx_identity (pub_gate false) "" 0 delivery_zero ∅ ∅ ∅ "" (windows.mkDiagnostic "" 0)) nx_open.
Definition nx_fetch (_ : option configtrust.ClockRecovery) : answer := Answered 200 (Ok (pb_envelope (pub_row pub_db1))).
Definition nx_post (_ : NodeAck) : answer := Answered 204 (Ok "").
Definition nx_ticks (s : Z) : sync_clock := mkSyncClock (at_ s) (at_ s) (at_ s) s s.
Definition nx_sync (n : @Node configtrust.MemoryStore) (s : Z) : unit * @Node configtrust.MemoryStore * option NodeAck :=
  sync true n nx_fetch nx_post (fun _ => false) (nx_ticks s) tt tt tt.
Definition nx_node : @Node configtrust.MemoryStore := snd (fst (nx_sync nx_start 1100)).

Lemma nx_reachable : reachable true nx_node.
Proof.
  exists nx_identity, ("" : configtrust.MemoryStore), tt, nx_start. split; [vm_compute; reflexivity|].
  eapply rtc_l; [|apply rtc_refl]. apply (step_sync true nx_start nx_fetch nx_post (fun _ => false) (nx_ticks 1100) tt tt tt tt nx_node
    (snd (nx_sync nx_start 1100))). vm_compute. reflexivity.
Qed.
Lemma nx_role : localcontrol.nNode (identity nx_node) = "gateway".
Proof. vm_compute. reflexivity. Qed.

(** The rooms, in the order of a traversal. *)
Definition nx_order : list roomHandler := snd <$> map_to_list (rooms nx_node).
Lemma nx_visits h : h ∈ nx_order <-> exists k, rooms nx_node !! k = Some h.
Proof.
  unfold nx_order. rewrite list_elem_of_fmap. split.
  - intros ([k h'] & -> & Hin). exists k. by apply elem_of_map_to_list.
  - intros [k Hk]. exists (k, h). split; [done|]. by apply elem_of_map_to_list.
Qed.

(** A visitor of the shop with an admission, among forged and own credentials. *)
Definition nx_token : string := match admission.Sign admission.wit_key nx_claims with Ok t => t | Err _ => "" end.
Definition nx_visit : NodeRequest := mkNodeRequest
  (mkHttpRequest "GET" "shop.example:20443" true "192.0.2.1:4000" "/shop/1" "" "/shop/1" []
     (header_of [("X-Waiting-Room-Admission", nx_token); ("X-Forwarded-For", "203.0.113.7"); ("Accept", "text/html")])
     [("__Host-wrq_room", "ticket"); ("theme", "dark")] None) "" "" "".

(** The node's answer, and the handler of the room it names. *)
Definition nx_served : @Node configtrust.MemoryStore * served := ServeHTTP nx_node nx_order nx_visit (at_ 1200).
Definition nx_room : roomHandler :=
  match snd nx_served with ToRoom h _ => h | _ => mkRoomHandler (control.wit_room "" "" "") (control.mkRuntime 0 "" (control.mkLimits 0 0 0) 0 "" 0)
    (HGateway wit_bound) None None end.
Definition nx_gateway : boundGateway := match hHandler nx_room with HGateway g => g | _ => wit_bound end.
Definition nx_handler (g : boundGateway) (r : Request) : unit * bound_outcome :=
  boundHandler (fun s => Some s) (fun _ => None) (fun s => s) (fun _ w => (w, None)) (fun s => s) g r "" (1200 * admission.Second) "abcdefghijkl" tt.
End nodeexample.
