(* ===== verification/NodeGuard.v ===== *)
(** * What a gateway node lets through to an origin

    On every reachable state of a gateway node: a protected request goes to the
    handler of its room, and what reaches an origin is unprotected under the
    signed configuration in force, or was admitted to its room. *)

From S2P Require Import Prelude GoStd Admission Keyring Rotation ConfigTrust Control AdminAuth Password Windows QueueModel StoreClient Coordinator Gateway Publication PublicationExample PublicationProps DataNode DataNodeProps NodeExample.
From stdpp Require Import base list gmap strings pretty.
From Stdlib Require Import ZArith Lia Ascii String.
Import lab gateway runtimeplane.
Local Open Scope Z_scope.

Section guard.
Context `{Codec control.Delivery} `{Codec configtrust.Snapshot} `{Codec configtrust.envelope} `{Codec keyring.KeySet}.
Context `{Codec admission.Claims} `{Codec returnData} `{Codec browserIntent} `{AEAD} `{HmacSha256}.
Context `{Ed25519} `{Sha256} `{pgstore.Wire} `{NodeWire}.
Context {W : Type} `{NodeWorld W} `{configtrust.StoreLaws St Fault}.
Context (tls_ok : bool).
(** The parameters of the handler of a gateway and its connection to the coordinator. *)
Context (source_of : string -> option string) (json_prepare : string -> option (string * bool * bool)) (QueryEscape : string -> string).
Context {C : Type} (send : Request -> C -> C * option response) (json_target : string -> string).

#[local] Abbreviation node := (@Node St).

(** The keys a node of the identity verifies admissions with. *)
Definition admission_keys (id : localcontrol.NodeIdentity) : list (string * string) :=
  match localcontrol.nKeys id with
  | Some ks => (fun k => (keyring.AdmissionKid k, keyring.AdmissionPublic k)) <$> keyring.Keys ks
  | None => [("admission-v1", localcontrol.nAdmissionPublic id)]
  end.

(** An admission for the room and its epoch that verifies at an instant. *)
Definition admitted (id : localcontrol.NodeIdentity) (room : control.Room) (v : control.Runtime) (token : string) (now : Z) : Prop :=
  exists kid key c, (kid, key) ∈ admission_keys id /\
    admission.Verify key token kid (control.PublicID room) (localcontrol.nInstallation id +:+ ":" +:+ control.PublicID room)
      (control.rtEpoch v) now (30 * admission.Second) = Ok c.

(** What reaches an origin: a request the node forwards, or one the handler of its room lets through at [now]. *)
Inductive reaches (now : Z) : served -> roomHandler -> Request -> Prop :=
  | reaches_direct h m r : reaches now (ToOrigin h m r) h r
  | reaches_through h q g r random nonce w w' : hHandler h = HGateway g ->
      boundHandler source_of json_prepare QueryEscape send json_target g q random now nonce w = (w', Inner (Origin r)) ->
      reaches now (ToRoom h q) h r.

Lemma verifyAdmission_key b token now c : verifyAdmission b token now = Ok c ->
  exists kid key, (kid, key) ∈ match Keys (gBinding b) with
                               | Some ks => (fun k => (keyring.AdmissionKid k, keyring.AdmissionPublic k)) <$> keyring.Keys ks
                               | None => [(Kid (gBinding b), public b)] end /\
    admission.Verify key token kid (Room (gBinding b)) (Audience (gBinding b)) (Epoch (gBinding b)) now (30 * admission.Second) = Ok c.
Proof.
  unfold verifyAdmission. destruct (Keys (gBinding b)) as [ks|].
  - induction (keyring.Keys ks) as [|k l IH]; simpl; [done|]. destruct (admission.Verify _ _ _ _ _ _ _ _) as [c'|] eqn:Ev.
    + intros [= <-]. eexists _, _. split; [by left | exact Ev].
    + intros Hl. destruct (IH Hl) as (kid & key & Hin & Hv). exists kid, key. split; [by right | done].
  - intros Hv. eexists _, _. split; [by left | exact Hv].
Qed.

(** A handler of a room lets through what [gateway_guards_origin] says, in the terms of the room. *)
Lemma built_guards id c room v h g q random now nonce (w w' : C) r :
  localcontrol.nNode id = "gateway" -> built id c room v h -> hHandler h = HGateway g ->
  boundHandler source_of json_prepare QueryEscape send json_target g q random now nonce w = (w', Inner (Origin r)) ->
  HasTLS q = true /\ targetFor c room (RequestURI q) = true /\
  (control.rtMode v = "OFF" \/ exists token, presented (bBrowser g) q = Some token /\ Room (gBinding (bBrowser g)) = control.PublicID room /\
     admitted id room v token now) /\
  (forall k, stripped k = true -> Values r k = []) /\ (forall name value, (name, value) ∈ Cookies r -> own_cookie name = false).
Proof.
  intros En (_ & _ & Hb) Hg Hh. rewrite En in Hb. destruct Hb as (g' & Hg' & Hnew). rewrite Hg in Hg'. injection Hg' as <-.
  destruct (gateway_guards_origin _ _ _ _ _ _ _ _ _ _ _ _ _ _ _ _ _ _ _ _ _ _ _ _ _ _ _ Hnew Hh) as (Ht & _ & Hv & Ha & Hs & Hc & _).
  split_and!; try done. destruct Ha as [Hoff|(token & cl & Hp & Hver)]; [left; by apply String.eqb_eq|]. right. exists token.
  assert (gBinding (bBrowser g) = binding_for id c room v /\ public (bBrowser g) = localcontrol.nAdmissionPublic id) as [Eb Ep].
  { clear -Hnew. revert Hnew. unfold NewBoundGateway. case_if as E1; [done|]. case_if as E2; [done|]. case_if as E3; [done|].
    case_if as E4; [done|]. repeat case_match; try done; by intros [= <-]. }
  destruct (verifyAdmission_key _ _ _ _ Hver) as (kid & key & Hin & Hv'). rewrite Eb, Ep in *.
  split_and!; [done | done |]. by exists kid, key, cl.
Qed.

(** The decision of a route. *)
Lemma MatchURL_cases c host u :
  let m := control.MatchURL c host (Some u) in
  control.Decision m = "invalid" \/ control.Decision m = "reserved" \/ control.Decision m = "unprotected" /\ control.RoomID m = "" \/
  exists room, room ∈ control.rooms c /\ control.RoomID m = control.ID room /\ control.Hostname room = host /\
    (control.Decision m = "excluded" \/ control.Decision m = "protected").
Proof.
  unfold control.MatchURL. case_if as E1; [by left|]. case_if as E2; [right; by left|].
  assert (forall sel room, control.find_room sel host (control.Path u) (control.rooms c) = Some room ->
    room ∈ control.rooms c /\ control.Hostname room = host) as Hf.
  { intros sel room Ef. apply List.find_some in Ef as [Hin Hm]. apply list_elem_of_In in Hin. by to_prop. }
  destruct (control.find_room control.excludes _ _ _) as [room|] eqn:Ee.
  { right. right. right. exists room. destruct (Hf _ _ Ee). split_and!; auto. }
  destruct (control.find_room control.ProtectPrefixes _ _ _) as [room|] eqn:Ep; [|right; right; by left].
  right. right. right. exists room. destruct (Hf _ _ Ep). split_and!; auto.
Qed.

Lemma host_room_ok host order origin sel h :
  host_room host origin sel order = Some (Some h) -> sel = Some h \/ h ∈ order /\ control.Hostname (hRoom h) = host.
Proof.
  revert origin sel. induction order as [|h0 order IH]; intros origin sel; simpl; [by intros [= ->]; left|].
  destruct (String.eqb_spec (control.Hostname (hRoom h0)) host) as [Eh|_].
  - case_if as E; [done|]. intros Hr. apply IH in Hr as [[= ->]|[Hin Hh]]; right; (split; [|done]); by constructor.
  - intros Hr. apply IH in Hr as [?|[Hin Hh]]; [by left|]. right. split; [by constructor | done].
Qed.

(** The order in which the map of rooms is visited. *)
Definition visits (n : node) (order : list roomHandler) : Prop := forall h, h ∈ order <-> exists k, rooms n !! k = Some h.

Lemma delivery_validated d : pgstore.delivery_valid d = true ->
  control.Validate pgstore.url_Parse pgstore.logo_ok (control.dConfig d) = Ok tt.
Proof.
  unfold pgstore.delivery_valid, control.Delivery_Validate. case_if as E1; [done|]. intros _.
  to_prop. by destruct (control.Validate _ _ _) as [[]|].
Qed.
Lemma delivery_rooms d : pgstore.delivery_valid d = true ->
  control.rooms_ok pgstore.url_Parse pgstore.logo_ok (control.Profile (control.dConfig d)) [] (control.rooms (control.dConfig d)) = Ok tt.
Proof. intros Hd. by apply control.Validate_rooms, delivery_validated. Qed.

(** The identifiers of the rooms are not empty; they and the public ones are distinct. *)
Definition ids_ok (rs : list control.Room) : Prop :=
  NoDup (control.ID <$> rs) /\ NoDup (control.PublicID <$> rs) /\ Forall (fun room => control.ID room <> "") rs.

Lemma rooms_ok_distinct profile rs before :
  control.rooms_ok pgstore.url_Parse pgstore.logo_ok profile before rs = Ok tt -> ids_ok before -> ids_ok (before ++ rs).
Proof.
  revert before. induction rs as [|room rs IH]; intros before; cbn [control.rooms_ok]; [by rewrite app_nil_r|].
  destruct (is_ok (control.Room_Validate pgstore.url_Parse pgstore.logo_ok room profile)) eqn:Ev; [|done].
  case_if as E2; [done|]. case_if as E3; [done|]. intros Hr (Hn & Hp & Hf). rewrite (cons_middle room). rewrite (app_assoc before [room] rs).
  to_prop. apply IH; [done|].
  assert (forall (f : control.Room -> string), NoDup (f <$> before) -> f room ∉ f <$> before -> NoDup (f <$> before ++ [room])) as Hadd.
  { intros f Hnd Hni. rewrite fmap_app. apply NoDup_app. split_and!; [done | | apply NoDup_singleton].
    intros id Hin Hid. apply list_elem_of_singleton in Hid. by subst id. }
  split_and!; [by apply Hadd | by apply Hadd |]. apply Forall_app. split; [done|]. apply Forall_singleton.
  intros E. unfold control.Room_Validate in Ev. by rewrite E in Ev.
Qed.

Lemma distinct_eq (f : control.Room -> string) rs room room' :
  NoDup (f <$> rs) -> room ∈ rs -> room' ∈ rs -> f room = f room' -> room = room'.
Proof.
  intros Hn [i Hi]%list_elem_of_lookup [j Hj]%list_elem_of_lookup E.
  assert (i = j) as <-; [|congruence]. eapply NoDup_lookup; [exact Hn | |]; rewrite list_lookup_fmap, ?Hi, ?Hj; simpl; [done | by rewrite E].
Qed.

Lemma delivery_ids d : pgstore.delivery_valid d = true -> ids_ok (control.rooms (control.dConfig d)).
Proof. intros Hd%delivery_rooms. apply (rooms_ok_distinct _ _ [] Hd). split_and!; constructor. Qed.

Lemma rooms_of_in id d rs : rooms_of id d rs -> forall k h, rs !! k = Some h -> hRoom h ∈ control.rooms (control.dConfig d).
Proof. intros Hrs k h Hh. destruct (proj1 Hrs k h Hh) as (i & room & x & Hi & _ & _ & (-> & _)). by eapply list_elem_of_lookup_2. Qed.

(** The paths of the waiting room itself are reserved. *)
Lemma internal_reserved p : internal_path p = true -> control.reserved p = true.
Proof.
  assert (forall s q, control.chars "/_wr/" `prefix_of` control.chars s -> strs.HasPrefix q s = true -> control.reserved q = true) as Hp.
  { intros s q Hs Hq%control.prefix_chars. unfold control.reserved. apply orb_true_iff. left. unfold control.PrefixMatches.
    apply orb_true_iff. right. apply control.prefix_chars. by etrans. }
  unfold internal_path. intros Hi. destruct (String.eqb_spec p "/_wr/v1/tickets") as [->|Hne]; [reflexivity|].
  rewrite orb_false_r in Hi. repeat (apply orb_true_iff in Hi as [Hi|Hi]).
  - apply andb_true_iff in Hi as [Hi _]. eapply Hp; [|exact Hi]. by eexists.
  - eapply Hp; [|exact Hi]. by eexists.
  - eapply Hp; [|exact Hi]. by eexists.
Qed.

(** What the router of a node may answer. *)
Definition routed (n : node) (host : string) (r : NodeRequest) (x : served) : Prop :=
  match x with
  | ToRoom h q => q = req r /\ control.Hostname (hRoom h) = host /\ exists k, rooms n !! k = Some h
  | ToOrigin h m q => q = origin_request (req r) /\ control.Hostname (hRoom h) = host /\ (exists k, rooms n !! k = Some h) /\
      control.Decision (control.MatchURL (control.dConfig (delivery n)) host (Some (request_url r))) ∈ ["excluded"; "unprotected"]
  | _ => True
  end.

Lemma to_selected_routed n host r sel : (forall h, sel = Some h -> exists k, rooms n !! k = Some h) -> routed n host r (to_selected host sel (req r)).
Proof.
  intros Hs. destruct sel as [h|]; [|done]. simpl. destruct (String.eqb_spec (control.Hostname (hRoom h)) host); [|done].
  split_and!; auto.
Qed.

Lemma find_visited n order P h : visits n order -> List.find P order = Some h -> (exists k, rooms n !! k = Some h) /\ P h = true.
Proof. intros Hv [Hin HP]%List.find_some. split; [|done]. by apply Hv, list_elem_of_In. Qed.

Lemma select_internal_routed n order host r : visits n order ->
  match select_internal n order host (req r) with inl x => routed n host r x | inr sel => routed n host r (to_selected host sel (req r)) end.
Proof.
  intros Hv. unfold select_internal. case_if as E1; [apply to_selected_routed; eauto|]. case_if as E2; [apply to_selected_routed; eauto|].
  case_if as E3.
  - case_if as E4; [done|]. destruct (Body (req r)) as [raw|]; [|done]. case_if as E5; [done|]. destruct (decode_target raw); [|done].
    apply to_selected_routed. intros h Hf. by apply (find_visited n order _ _ Hv) in Hf as [? _].
  - apply to_selected_routed. intros h. destruct (_ !! _); [eauto | done].
Qed.

Lemma route_gateway_routed n order host r :
  pgstore.delivery_valid (delivery n) = true -> rooms_of (identity n) (delivery n) (rooms n) -> visits n order ->
  routed n host r (route_gateway n order host r).
Proof.
  intros Hd Hrs Hv. unfold route_gateway. case_if as E1.
  { pose proof (select_internal_routed n order host r Hv) as Hs. by destruct (select_internal _ _ _ _). }
  pose proof (MatchURL_cases (control.dConfig (delivery n)) host (request_url r)) as Hm.
  set (m := control.MatchURL _ _ _) in *. simpl in Hm. destruct (delivery_ids _ Hd) as (Huniq & Hpub & Hne).
  pose proof (rooms_of_in _ _ _ Hrs) as Hin.
  case_if as E2; [done|].
  destruct Hm as [Em|[Em|[[Em Eid]|(room & Hroom & Eid & Eh & Em)]]]; [by rewrite Em in E2 | by rewrite Em in E2 | |].
  - assert (List.find (fun h => String.eqb (control.ID (hRoom h)) (control.RoomID m)) order = None) as ->.
    { destruct (List.find _ _) as [h|] eqn:Ef; [|done]. apply (find_visited n order _ _ Hv) in Ef as [[k Hk] Hp].
      to_prop. rewrite Forall_forall in Hne. destruct (Hne _ (Hin _ _ Hk)). congruence. }
    rewrite Em. simpl. destruct (host_room host "" None order) as [[h|]|] eqn:Eo; [|done|done].
    apply host_room_ok in Eo as [?|[Ho Hh]]; [done|]. simpl. split_and!; [done | done | by apply Hv |]. change (control.Decision m ∈ ["excluded"; "unprotected"]). rewrite Em. set_solver.
  - destruct (List.find _ _) as [h|] eqn:Ef.
    + apply (find_visited n order _ _ Hv) in Ef as [Hk Hp]. to_prop.
      assert (hRoom h = room) as Er by (destruct Hk as [k Hk]; apply (distinct_eq _ _ _ _ Huniq); [by eapply Hin | done | congruence]).
      destruct Em as [Em|Em]; rewrite Em; [simpl | by apply (to_selected_routed n host r (Some h)); intros ? [= <-]].
      split_and!; [done | congruence | done |]. change (control.Decision m ∈ ["excluded"; "unprotected"]). rewrite Em. set_solver.
    + by destruct Em as [Em|Em]; rewrite Em.
Qed.

(** A protected request goes to its room. *)
Lemma route_gateway_protected n order host r id why :
  pgstore.delivery_valid (delivery n) = true -> rooms_of (identity n) (delivery n) (rooms n) -> visits n order ->
  List.length (control.dRuntimes (delivery n)) = List.length (control.rooms (control.dConfig (delivery n))) ->
  control.MatchURL (control.dConfig (delivery n)) host (Some (request_url r)) = control.mkMatch "protected" id why ->
  exists h, route_gateway n order host r = ToRoom h (req r) /\ control.ID (hRoom h) = id /\ control.Hostname (hRoom h) = host /\
    exists k, rooms n !! k = Some h.
Proof.
  intros Hd Hrs Hv Hlen Em. destruct (delivery_ids _ Hd) as (Huniq & Hpub & Hne).
  pose proof (rooms_of_in _ _ _ Hrs) as Hin.
  pose proof (MatchURL_cases (control.dConfig (delivery n)) host (request_url r)) as Hm. rewrite Em in Hm. simpl in Hm.
  destruct Hm as [?|[?|[[? _]|(room & Hroom & -> & Eh & _)]]]; try done.
  assert (control.reserved (Path (req r)) = false) as Hres.
  { destruct (control.reserved (Path (req r))) eqn:E; [|done]. unfold control.MatchURL in Em. simpl in Em. rewrite E in Em. by destruct (_ || _). }
  unfold route_gateway. rewrite Em. simpl. case_if as E1; [by rewrite (internal_reserved _ E1) in Hres|].
  apply list_elem_of_lookup in Hroom as [i Hi]. destruct (lookup_lt_is_Some_2 (control.dRuntimes (delivery n)) i) as [x Hx].
  { rewrite Hlen. by eapply lookup_lt_Some. }
  destruct (proj2 Hrs i room x Hi Hx) as [h0 Hh0]. 
  destruct (List.find _ order) as [h|] eqn:Ef.
  - apply (find_visited n order _ _ Hv) in Ef as [[k Hk] Hp]. to_prop.
    assert (hRoom h = room) as Er by (apply (distinct_eq _ _ _ _ Huniq); [by eapply Hin | by eapply list_elem_of_lookup_2 | congruence]).
    exists h. unfold to_selected. rewrite Er, Eh, String.eqb_refl. split_and!; eauto.
  - destruct (proj1 Hrs _ _ Hh0) as (j & room' & x' & Hj & _ & Ep & (Er & _)).
    assert (room' = room) as -> by (apply (distinct_eq _ _ _ _ Hpub); [by eapply list_elem_of_lookup_2 | by eapply list_elem_of_lookup_2 | done]).
    eapply List.find_none in Ef; [|apply list_elem_of_In, Hv; eauto]. rewrite Er in Ef. simpl in Ef. by rewrite String.eqb_refl in Ef.
Qed.

(** The state in which a node serves. *)
Record serving (n n' : node) (t : Z) (s : configtrust.Snapshot) : Prop := {
  sv_current : s = configtrust.current (nGate n') /\ configtrust.current (nGate n') = configtrust.current (nGate n);
  sv_verified : configtrust.verified pgstore.json_Valid ValidateDelivery (nGate n') (configtrust.raw (nGate n')) s;
  sv_time : configtrust.IssuedAt s <= configtrust.Unix t < configtrust.ExpiresAt s;
  sv_delivery : decode_delivery (configtrust.Payload s) = Some (delivery n) /\ pgstore.delivery_valid (delivery n) = true;
  sv_rooms : rooms_of (identity n) (delivery n) (rooms n);
  sv_same : identity n' = identity n /\ delivery n' = delivery n /\ rooms n' = rooms n
}.

Lemma valid_serving n t n' : node_inv n -> validLocked n t = (n', true) -> serving n n' t (configtrust.current (nGate n')).
Proof.
  intros Hi Hv. destruct (validLocked_inv _ _ _ _ Hi Hv) as (Hi' & Eid & Eg & Ed & Er & _ & _ & _ & Ec & Hval).
  destruct (Hval eq_refl) as (Egen & Hpos & Hf & Ht).
  destruct (ni_applied _ Hi' Hf) as [?|(s & Hb & Hgen & Hd & Hdv & Hrs)]; [lia|].
  assert (s = configtrust.current (nGate n')) as -> by (apply Hb; congruence).
  rewrite Eid, Ed, Er in *. constructor; try done; [|by rewrite Ec].
  apply (ni_gate _ Hi'); [done | congruence || lia].
Qed.

Lemma serve_gateway n order r t n' x :
  node_inv n -> localcontrol.nNode (identity n) = "gateway" -> visits n order -> ServeHTTP n order r t = (n', x) ->
  (exists s host, serving n n' t s /\ SplitHostPort (Host (req r)) = Some (host, "20443") /\ HasTLS (req r) = true /\ routed n host r x) \/
  match x with ToRoom _ _ | ToOrigin _ _ _ => False | _ => True end.
Proof.
  intros Hi En Hv. unfold ServeHTTP. case_if as E0; [intros [= _ <-]; by right|].
  destruct (validLocked n t) as [n1 []] eqn:Ev; simpl; [|intros [= _ <-]; by right].
  pose proof (valid_serving _ _ _ Hi Ev) as Hs. pose proof (sv_same _ _ _ _ Hs) as (Eid & Ed & Er). rewrite Eid, En. simpl.
  intros [= -> <-]. destruct (SplitHostPort _) as [[host port]|] eqn:Eh; [|by right]. case_if as E1; [by right|].
  case_if as E2; [right; by case_if as E3|]. left. to_prop. subst port. exists (configtrust.current (nGate n')), host. split_and!; try done.
  assert (routed n' host r (route_gateway n' order host r)) as Hr.
  { apply route_gateway_routed; rewrite ?Eid, ?Ed, ?Er; [apply Hs | apply Hs |]. intros h. rewrite Er. apply Hv. }
  unfold routed in *. rewrite Ed, Er in Hr. done.
Qed.


Lemma delivery_lengths d : pgstore.delivery_valid d = true -> List.length (control.dRuntimes d) = List.length (control.rooms (control.dConfig d)).
Proof.
  unfold pgstore.delivery_valid, control.Delivery_Validate. case_if as E1; [done|]. intros _.
  apply orb_false_iff in E1 as [_ E1]. by apply negb_false_iff, Nat.eqb_eq in E1.
Qed.

Lemma assets_reserved p : strs.HasPrefix p "/_wr/assets/" = true -> control.reserved p = true.
Proof.
  intros Hp%control.prefix_chars. unfold control.reserved, control.PrefixMatches. apply orb_true_iff. left. apply orb_true_iff. right.
  apply control.prefix_chars. etrans; [|exact Hp]. by eexists.
Qed.

(** C7: a gateway node brings every protected request to its own room. On
    every reachable state in which a gateway is ready, a request over TLS to
    its port for a host and URL that the delivery protects is answered by the
    handler built for the one active room of that host that protects the URL,
    in whatever order the rooms are visited; the path of the traffic lab is the
    exception. *)
Theorem protected_requests_meet_their_room n order r t n' host id why :
  reachable tls_ok n -> localcontrol.nNode (identity n) = "gateway" -> visits n order -> Ready n t = (n', true) ->
  SplitHostPort (Host (req r)) = Some (host, "20443") -> HasTLS (req r) = true -> Path (req r) <> "/internal/v1/traffic-lab" ->
  control.MatchURL (control.dConfig (delivery n)) host (Some (request_url r)) = control.mkMatch "protected" id why ->
  exists h, ServeHTTP n order r t = (n', ToRoom h (req r)) /\
    control.ID (hRoom h) = id /\ control.protects host (Path (req r)) (hRoom h) = true /\
    (forall room, room ∈ control.rooms (control.dConfig (delivery n)) -> control.protects host (Path (req r)) room = true -> room = hRoom h) /\
    exists v, built (identity n) (control.dConfig (delivery n)) (hRoom h) v h.
Proof.
  intros [Hi _]%node_reachable_inv En Hv Hrd Eh Ht Hnt Em. pose proof (valid_serving _ _ _ Hi Hrd) as Hs.
  destruct (sv_delivery _ _ _ _ Hs) as [_ Hd]. destruct (sv_same _ _ _ _ Hs) as (Eid & Ed & Er).
  pose proof (sv_rooms _ _ _ _ Hs) as Hrs.
  destruct (route_gateway_protected n' order host r id why) as (h & Hr & Hid & Hh & k & Hk); rewrite ?Eid, ?Ed, ?Er; try done.
  { intros h. rewrite Er. apply Hv. } { by apply delivery_lengths. }
  rewrite Er in Hk. destruct (proj1 Hrs k h Hk) as (i & room & v & Hi1 & _ & _ & Hb). pose proof (proj1 Hb) as E. subst room.
  destruct (control.protected_route_unique pgstore.url_Parse pgstore.logo_ok _ _ _ _ _ (delivery_validated _ Hd) Em)
    as (room & Hin & Hri & Hp & Hu & _).
  assert (room = hRoom h) as ->.
  { apply (distinct_eq control.ID (control.rooms (control.dConfig (delivery n)))); [apply delivery_ids, Hd | done | by eapply list_elem_of_lookup_2 | congruence]. }
  exists h. split_and!; eauto. unfold ServeHTTP. rewrite (proj2 (String.eqb_neq _ _) Hnt). unfold Ready in Hrd. rewrite Hrd. simpl.
  rewrite Eid, En, Eh, Ht. simpl. revert Em. unfold control.MatchURL. case_if as E1; [done|]. case_if as E2; [done|]. intros _.
  simpl in E1, E2.
  assert (control.ValidHostname host = true /\ RawPath r = "" /\ control.ValidPath (Path (req r)) = true) as (-> & -> & ->) by (by to_prop).
  simpl.
  destruct (strs.HasPrefix _ _) eqn:Ea; [by rewrite (assets_reserved _ Ea) in E2|]. by rewrite Hr.
Qed.
End guard.

(** ** Witnesses *)

Import example nodeexample.

Lemma nx_reaches : reaches (fun s => Some s) (fun _ => None) (fun s => s) (fun _ (w : unit) => (w, None)) (fun s => s)
  (1200 * admission.Second) (snd nx_served) nx_room (to_origin (req nx_visit)).
Proof.
  assert (snd nx_served = ToRoom nx_room (req nx_visit)) as -> by (vm_compute; reflexivity).
  eapply (reaches_through _ _ _ (fun _ (w : unit) => (w, None)) _ _ nx_room _ nx_gateway _ "" "abcdefghijkl" tt tt); vm_compute; reflexivity.
Qed.


(** A visitor of the shop without an admission meets the handler of the shop. *)
Definition nx_newcomer : NodeRequest := mkNodeRequest
  (mkHttpRequest "GET" "shop.example:20443" true "192.0.2.1:4000" "/shop/1" "" "/shop/1" [] (header_of [("Accept", "text/html")]) [] None) "" "" "".

Lemma protected_requests_meet_their_room_witness :
  exists h, snd (ServeHTTP nx_node nx_order nx_newcomer (at_ 1200)) = ToRoom h (req nx_newcomer) /\ control.ID (hRoom h) = "shop".
Proof.
  destruct (protected_requests_meet_their_room true nx_node nx_order nx_newcomer (at_ 1200) (fst (Ready nx_node (at_ 1200)))
    "shop.example" "shop" "protect_prefix") as (h & Hs & Hid & _).
  - exact nx_reachable.
  - exact nx_role.
  - exact nx_visits.
  - vm_compute. reflexivity.
  - vm_compute. reflexivity.
  - reflexivity.
  - discriminate.
  - vm_compute. reflexivity.
  - exists h. rewrite Hs. by split.
Defined.
