(* ===== verification/NodeAck.v ===== *)
(** * Acknowledgements of a gateway node

    What a gateway reports after it applied a publication is what the control
    plane accepts from it: the two ends of the acknowledgement agree. *)

From S2P Require Import Prelude GoStd Admission Keyring Rotation ConfigTrust Control AdminAuth Password Windows QueueModel StoreClient Coordinator Gateway Publication PublicationExample PublicationProps DataNode DataNodeProps NodeExample NodeGuard.
From stdpp Require Import base list gmap strings pretty.
From Stdlib Require Import ZArith Lia Ascii String.
Import lab gateway runtimeplane.
Local Open Scope Z_scope.

Section acks.
Context `{Codec control.Delivery} `{Codec configtrust.Snapshot} `{Codec configtrust.envelope} `{Codec keyring.KeySet}.
Context `{Ed25519} `{Sha256} `{pgstore.Wire} `{NodeWire}.
Context {W : Type} `{NodeWorld W} `{configtrust.StoreLaws St Fault}.
Context (tls_ok : bool).

#[local] Abbreviation node := (@Node St).

(** The report on a room of a gateway. *)
Record reports (h : roomHandler) (m : pgstore.RoomMetrics) : Prop := {
  rp_room : pgstore.mRoomID m = control.ID (hRoom h);
  rp_runtime : pgstore.mRevision m = control.rtRevision (hRuntime h) /\ pgstore.mEpoch m = control.rtEpoch (hRuntime h) /\
    pgstore.mMode m = control.rtMode (hRuntime h);
  rp_queue : pgstore.mWaiting m = 0 /\ pgstore.mReady m = 0 /\ pgstore.mLeases m = 0 /\ pgstore.mRate m = 0;
  rp_arrivals : 0 <= pgstore.mArrivalsFiveMinutes m <= 100000000;
  rp_errors : exists c, pgstore.mHTTP5xxLastMinute m = Some c /\ 0 <= c;
  rp_recovery : pgstore.mRecoveryUntil m = 0 /\ pgstore.mRecoveryFence m = 0 /\ pgstore.mRecoveryReason m = "" /\ pgstore.mRecoveryValidation m = ""
}.

Lemma probe_reports expired now h w w' m : counters_ok h -> probe_room expired now h w = (w', m) -> reports h m.
Proof.
  intros (a & e & Ha & [Hl Hf] & He & Hre). unfold probe_room. rewrite Ha, He.
  destruct (if expired then _ else _) as [w1 ok]. destruct (windows.arrival_snapshot a now) as [ar rd] eqn:Ear.
  simpl. intros [= _ <-]. constructor; simpl; try done.
  - unfold windows.arrival_snapshot in Ear. destruct (now <? windows.aLast a); injection Ear as <- _; [lia|].
    pose proof (total_bounds 300 _ now 333333 ltac:(lia) Hf). rewrite Hl in *. lia.
  - eexists. split; [done|]. apply total_nonneg. by apply http_advance_ok.
Qed.

Lemma probes_report expired now i hs w w' ms :
  Forall counters_ok hs -> probeGatewayRooms expired now i hs w = (w', ms) -> Forall2 reports hs ms.
Proof.
  intros Hc. revert i w w' ms. induction Hc as [|h hs Hh _ IH]; intros i w w' ms; simpl; [intros [= _ <-]; constructor|].
  destruct (probe_room _ _ _ _) as [w1 m] eqn:Ep. destruct (probeGatewayRooms _ _ _ _ _) as [w2 ms'] eqn:Eps.
  intros [= _ <-]. constructor; [by eapply probe_reports | by eapply IH].
Qed.

Lemma omap_lookups (rs : gmap string roomHandler) (l : list control.Room) :
  (forall room, room ∈ l -> is_Some (rs !! control.PublicID room)) ->
  Forall2 (fun room h => rs !! control.PublicID room = Some h) l (omap (fun room => rs !! control.PublicID room) l).
Proof.
  induction l as [|room l IH]; intros Hs; simpl; [constructor|]. destruct (Hs room) as [h Hh]; [by left|]. rewrite Hh.
  constructor; [done|]. apply IH. intros r Hr. apply Hs. by right.
Qed.

(** The runtime of a room is found by its identifier. *)
Lemma find_pair_lookup rs vs i room x :
  NoDup (control.ID <$> rs) -> rs !! i = Some room -> vs !! i = Some x -> control.find_pair (control.ID room) rs vs = Some (room, control.rrRuntime x).
Proof.
  revert vs i. induction rs as [|r rs IH]; intros [|v vs] [|i] Hn Hr Hx; try done; simpl in *.
  - injection Hr as ->. injection Hx as ->. by rewrite String.eqb_refl.
  - apply NoDup_cons in Hn as [Hni Hn]. destruct (String.eqb_spec (control.ID r) (control.ID room)) as [E|_]; [|by eapply IH].
    destruct Hni. rewrite E. apply list_elem_of_fmap_2. by eapply list_elem_of_lookup_2.
Qed.

Lemma runtimes_active profile rs vs i room x :
  control.runtimes_ok profile rs vs = true -> rs !! i = Some room -> vs !! i = Some x ->
  control.Active room = true \/ control.rtMode (control.rrRuntime x) = "OFF".
Proof.
  revert vs i. induction rs as [|r rs IH]; intros [|v vs] [|i] Hok Hr Hx; try done; cbn [control.runtimes_ok] in Hok;
    apply andb_true_iff in Hok as [Hok Hrest]; [|by eapply IH].
  injection Hr as ->. injection Hx as ->. apply andb_true_iff in Hok as [_ Hok]. apply orb_true_iff in Hok as [?|?%String.eqb_eq]; auto.
Qed.

(** A report on the handler of a delivered room passes the checks of the acknowledgement. *)
Lemma reported_ok d i room x h m :
  pgstore.delivery_valid d = true -> control.rooms (control.dConfig d) !! i = Some room -> control.dRuntimes d !! i = Some x ->
  hRoom h = room -> hRuntime h = control.rrRuntime x -> reports h m ->
  (forall c, pgstore.mHTTP5xxLastMinute m = Some c -> c <= 9007199254740989) -> pgstore.metrics_ok "gateway" d room m = true.
Proof.
  intros Hd Hr Hx Er Ev [Hid (Hrev & Hep & Hmode) (Hw & Hrd & Hl & Hrt) Ha (c & Hc & Hc0) (Hu & Hf & Hrs & Hval)] Hmax.
  destruct (delivery_ids d Hd) as (Hn & _ & _).
  assert (control.runtimes_ok (control.Profile (control.dConfig d)) (control.rooms (control.dConfig d)) (control.dRuntimes d) = true) as Hok.
  { revert Hd. unfold pgstore.delivery_valid, control.Delivery_Validate. case_if as E1; [done|]. case_if as E2; [done|]. intros _. by to_prop. }
  unfold pgstore.metrics_ok, pgstore.validHTTPErrorMetrics, control.Find. specialize (Hmax c Hc). rewrite Hc, Hid, Er.
  rewrite (find_pair_lookup _ _ _ _ _ Hn Hr Hx), Hrev, Hep, Hmode, Hw, Hrd, Hl, Hrt, Hu, Hf, Hrs, Hval, Ev, !String.eqb_refl, !Z.eqb_refl.
  simpl. repeat (apply andb_true_iff; split); try (apply Z.leb_le; lia); try done.
  destruct (runtimes_active _ _ _ _ _ _ Hok Hr Hx) as [-> | ->]; [done|]. by rewrite orb_true_r.
Qed.

Lemma rooms_acked_all node d rs ms : Forall2 (fun room m => pgstore.metrics_ok node d room m = true) rs ms -> pgstore.rooms_acked node d rs ms = true.
Proof. induction 1 as [|room m rs ms Hm _ IH]; [done|]. cbn [pgstore.rooms_acked]. by rewrite Hm, IH. Qed.

(** The report of a gateway covers the rooms of its delivery, in order. *)
Lemma gateway_report (n : node) g expired t now w w' n' ms :
  node_inv n -> counting n -> localcontrol.nNode (identity n) = "gateway" -> gatewayMetrics n g expired t now w = (w', n', Some ms) ->
  (forall m c, m ∈ ms -> pgstore.mHTTP5xxLastMinute m = Some c -> c <= 9007199254740989) ->
  exists n1, serving n n1 t (configtrust.current (nGate n)) /\ 
    Forall2 (fun room m => pgstore.metrics_ok "gateway" (delivery n) room m = true) (control.rooms (control.dConfig (delivery n))) ms.
Proof.
  intros Hi Hc En. unfold gatewayMetrics. destruct (validLocked n t) as [n1 []] eqn:Ev; [|done]. pose proof (valid_serving _ _ _ Hi Ev) as Hs.
  destruct (sv_same _ _ _ _ Hs) as (Eid & Ed & Er). destruct (sv_delivery _ _ _ _ Hs) as [_ Hd]. pose proof (sv_rooms _ _ _ _ Hs) as Hrs.
  rewrite (proj2 (sv_current _ _ _ _ Hs)) in Hs. case_if as E; [done|]. rewrite Ed, Er.
  destruct (probeGatewayRooms _ _ _ _ _) as [w1 ms1] eqn:Ep. intros [= _ _ <-] Hmax. exists n1. split; [done|].
  set (d := delivery n) in *. set (rs := control.rooms (control.dConfig d)) in *.
  assert (Forall2 (fun room h => rooms n !! control.PublicID room = Some h) rs (omap (fun room => rooms n !! control.PublicID room) rs)) as Hh.
  { apply omap_lookups. intros room [i Hi']%list_elem_of_lookup. destruct (lookup_lt_is_Some_2 (control.dRuntimes d) i) as [x Hx].
    { rewrite (delivery_lengths d Hd). by eapply lookup_lt_Some. } by eapply (proj2 Hrs). }
  assert (Forall2 reports (omap (fun room => rooms n !! control.PublicID room) rs) ms1) as Hr.
  { eapply probes_report; [|exact Ep]. apply Forall_forall. intros h Hin.
    apply list_elem_of_omap in Hin as (room & _ & Hl). apply (Hc ltac:(by rewrite En) _ _ Hl). }
  set (hs := omap _ rs) in *. clearbody hs. apply Forall2_same_length_lookup_2.
  { by rewrite (Forall2_length _ _ _ Hh), (Forall2_length _ _ _ Hr). }
  intros i room m Hroom Hm. destruct (Forall2_lookup_r _ _ _ _ _ Hr Hm) as (h & Hhi & Hrep).
  pose proof (Forall2_lookup_lr _ _ _ _ _ _ Hh Hroom Hhi) as Hlk. destruct (proj1 Hrs _ _ Hlk) as (j & room' & x & Hj & Hx & Ep' & (Er' & Ev' & _)).
  destruct (delivery_ids d Hd) as (_ & Hpub & _).
  assert (j = i) as ->.
  { eapply NoDup_lookup; [exact Hpub | |]; rewrite list_lookup_fmap; [by rewrite Hj | fold rs; rewrite Hroom; simpl; by rewrite <- Ep']. }
  assert (room' = room) as -> by (apply (inj Some); rewrite <- Hj; exact Hroom). eapply reported_ok; eauto. intros c. apply Hmax. by eapply list_elem_of_lookup_2.
Qed.

(** The control plane accepts what its gateways report. On every reachable
    state of a gateway whose gate holds the publication in force, with the keys
    of the deployment, the acknowledgement of a synchronisation is committed:
    generation, digest, number and order of the rooms, and every bound on their
    metrics pass, whatever the rooms measured, whether or not the requests and
    probes succeeded; and the control plane then has the node at the generation
    in force. The node must have read its own file, the control plane's clock be
    in the validity of the publication, and no room have seen more than 2^53
    errors in a minute. *)
Lemma gateway_acknowledgements_accepted (n : node) fetch post expired ck (f fl : Fault) (w w' : W) n' a db p sv ids ta :
  reachable tls_ok n -> localcontrol.nNode (identity n) = "gateway" ->
  sync tls_ok n fetch post expired ck f fl w = (w', n', Some a) ->
  published db p sv -> configtrust.current (nGate n') = snapshot_of db p sv -> configtrust.raw (nGate n') = pgstore.pb_envelope p ->
  configtrust.failed (nGate n') = false -> nRaw n' <> "" ->
  decode_delivery (marshal (pgstore.de_document (pgstore.db_delivery db))) = Some (pgstore.de_document (pgstore.db_delivery db)) ->
  from_option keyring.Generation 0 (localcontrol.nKeys (identity n)) = pgstore.keyGeneration sv ->
  from_option keyring.Digest "" (localcontrol.nKeys (identity n)) = pgstore.keyDigest sv ->
  pgstore.pb_issued p <= pgstore.t_valid ta < pgstore.pb_expires p ->
  (forall m c, m ∈ pgstore.nRooms a -> pgstore.mHTTP5xxLastMinute m = Some c -> c <= 9007199254740989) ->
  from_option pgstore.no_generation 0 (pgstore.db_nodes db !! "gateway") <= pgstore.de_generation (pgstore.db_delivery db) ->
  exists db' row, pgstore.Acknowledge sv "gateway" a ids ta db = pgstore.Commit db' tt /\
    pgstore.db_nodes db' !! "gateway" = Some row /\ pgstore.no_generation row = pgstore.de_generation (pgstore.db_delivery db).
Proof.
  intros Hre En Hsync Hpub Hcur Hraw Hfl Hne Hdec Hkg Hkd Hta Hmax Hold. apply node_reachable_inv in Hre as [Hi Hc].
  destruct (sync_inv _ _ _ _ _ _ _ _ _ _ _ _ Hi Hc Hsync) as (Hi' & _ & Eid & Hack).
  destruct (Hack a eq_refl) as (s & ms & n3 & n4 & w1 & w2 & Es & Ea & En' & Hi3 & Hc3 & Hm). clear Hack Hsync.
  destruct (node_metrics_inv _ _ _ _ _ _ _ _ Hi3 Hc3 Hm) as (_ & _ & Eid4 & Ec4).
  assert (identity n3 = identity n /\ nGate n4 = nGate n' /\ nRaw n4 = nRaw n') as (Eid3 & Eg & Er)
    by (rewrite En' in Eid |- *; simpl in *; split_and!; congruence).
  assert (s = snapshot_of db p sv) as Esn by (rewrite <- Hcur, Es, <- Ec4, Eg; done).
  assert (nRaw n' = pgstore.pb_envelope p) as Hr by (destruct (ni_raw _ Hi' Hfl); congruence).
  unfold node_metrics in Hm. rewrite Eid3, En in Hm. simpl in Hm. rewrite Ea in Hmax |- *. simpl in Hmax.
  destruct (gateway_report n3 _ _ _ _ _ _ _ _ Hi3 Hc3 ltac:(by rewrite Eid3) Hm Hmax) as (n1 & Hs & Hall).
  assert (delivery n3 = pgstore.de_document (pgstore.db_delivery db)) as Ed.
  { destruct (sv_delivery _ _ _ _ Hs) as [Hd _]. rewrite <- Es, Esn in Hd. unfold snapshot_of in Hd. simpl in Hd. congruence. }
  rewrite Ed in Hall. destruct Hpub as (Hp & _ & _ & _ & Hv). unfold pgstore.Acknowledge, ack_of. rewrite Eid4, Eid3. simpl.
  rewrite Hkg, Hkd, Z.eqb_refl, String.eqb_refl. simpl. unfold pgstore.readDelivery. rewrite Hv, Hp.
  rewrite (proj2 (Z.ltb_lt _ _) (proj2 Hta)), (proj2 (Z.leb_le _ _) (proj1 Hta)), Er, Hr, Esn. simpl.
  rewrite Z.sub_add, Z.eqb_refl, <- (Forall2_length _ _ _ Hall), Nat.eqb_refl, (rooms_acked_all _ _ _ _ Hall).
  unfold pgstore.digest. rewrite String.eqb_refl. simpl. eexists _, _. split; [done|]. unfold pgstore.auditRecovery. simpl.
  unfold pgstore.upsert_node. simpl. destruct (pgstore.db_nodes db !! "gateway") as [old|]; simpl in Hold.
  - rewrite (proj2 (Z.leb_le _ _) Hold). by rewrite lookup_insert_eq.
  - by rewrite lookup_insert_eq.
Qed.
End acks.

(** ** Witness *)

Import pgstore example nodeexample.

Definition nx_ack : NodeAck := default (mkAck 0 "" 0 "" []) (snd (nx_sync nx_node 1150)).
Definition nx_synced : @Node configtrust.MemoryStore := snd (fst (nx_sync nx_node 1150)).

