(* ===== verification/Accounts.v ===== *)
(** * Administrator accounts: [src/internal/adminauth/pgstore]

    Module [accounts] translates the pre-authentication half of the control
    plane's store: the shared attempt limits ([login.go], [http_limit.go]),
    password login, one-time codes ([store.go]), recovery codes
    ([recovery.go]), enrolment of a second factor ([enrollment.go]), the first
    administrator ([bootstrap.go]), sessions ([sessions.go]), replayable
    logout ([logout.go]) and the authentication audit ([auth_audit.go]).

    A transaction is a function of the database, as in [Publication]: it takes
    the row locks of the policy, the account and the credential before it reads
    what it decides on. A request of several transactions is a sequence of
    [stage]s, so that requests interleave between their transactions; the
    memory-hard hashes run between transactions. The readings of the database
    clock, the random bytes and the state of the hashing slots are arguments. *)

From S2P Require Import Prelude GoStd Keyring Control ConfigTrust AdminAuth Vault Password Publication DataNode Origin.
From stdpp Require Import base list gmap strings sorting pretty.
From Stdlib Require Import ZArith Lia Ascii String.

Module accounts.
Import pgstore.
Local Open Scope Z_scope.

#[global] Instance PolicyMode_eq_dec : EqDecision adminauth.PolicyMode.
Proof. solve_decision. Defined.
#[global] Instance AuthPolicy_eq_dec : EqDecision adminauth.AuthPolicy.
Proof. solve_decision. Defined.

(** ** The tables of login *)

Definition passwords (db : DB) := t_passwords (db_auth db).
Definition challenges (db : DB) := t_challenges (db_auth db).
Definition enrollments (db : DB) := t_enrollments (db_auth db).
Definition policy_enrollments (db : DB) := t_policy_enrollments (db_auth db).
Definition codes (db : DB) := t_codes (db_auth db).
Definition buckets (db : DB) := t_buckets (db_auth db).
Definition bootstrap (db : DB) := t_bootstrap (db_auth db).
Definition logouts (db : DB) := t_logouts (db_auth db).

Definition set_passwords (db : DB) (x : gmap string password_row) : DB :=
  set_auth db (mkAuth x (challenges db) (enrollments db) (policy_enrollments db) (codes db) (buckets db) (bootstrap db)
    (logouts db) (t_applied (db_auth db))).
Definition set_challenges (db : DB) (x : gmap string challenge_row) : DB :=
  set_auth db (mkAuth (passwords db) x (enrollments db) (policy_enrollments db) (codes db) (buckets db) (bootstrap db)
    (logouts db) (t_applied (db_auth db))).
Definition set_enrollments (db : DB) (x : gmap string enrollment_row) (y : gmap string string) : DB :=
  set_auth db (mkAuth (passwords db) (challenges db) x y (codes db) (buckets db) (bootstrap db) (logouts db)
    (t_applied (db_auth db))).
Definition set_codes (db : DB) (x : gmap (string * Z * Z) code_row) : DB :=
  set_auth db (mkAuth (passwords db) (challenges db) (enrollments db) (policy_enrollments db) x (buckets db) (bootstrap db)
    (logouts db) (t_applied (db_auth db))).
Definition set_buckets (db : DB) (x : gmap string bucket_row) : DB :=
  set_auth db (mkAuth (passwords db) (challenges db) (enrollments db) (policy_enrollments db) (codes db) x (bootstrap db)
    (logouts db) (t_applied (db_auth db))).
Definition set_bootstrap (db : DB) (x : bootstrap_row) : DB :=
  set_auth db (mkAuth (passwords db) (challenges db) (enrollments db) (policy_enrollments db) (codes db) (buckets db) x
    (logouts db) (t_applied (db_auth db))).
Definition set_logouts (db : DB) (x : gmap string logout_row) : DB :=
  set_auth db (mkAuth (passwords db) (challenges db) (enrollments db) (policy_enrollments db) (codes db) (buckets db)
    (bootstrap db) x (t_applied (db_auth db))).

(** [DELETE FROM table WHERE ...], keeping the rows that satisfy [f]. *)
Definition keep {K V} `{Countable K} (f : K -> V -> bool) (m : gmap K V) : gmap K V := filter (fun kv => f kv.1 kv.2 = true) m.

(** [DELETE FROM auth_sessions]: the proofs and policy enrolments of a deleted
    session go with it. *)
Definition gone {V} (f : string -> V -> bool) (m : gmap string V) (k : string) : bool :=
  match m !! k with Some v => f k v | None => false end.
Definition delete_sessions (f : string -> session_row -> bool) (db : DB) : DB :=
  let out := gone f (db_sessions db) in
  let db := set_proofs (set_sessions db (keep (fun h r => negb (f h r)) (db_sessions db)))
              (keep (fun _ p => negb (out (pr_session p))) (db_proofs db)) in
  set_enrollments db (enrollments db) (keep (fun _ h => negb (out h)) (policy_enrollments db)).
(** [DELETE FROM auth_enrollment_challenges], with its policy enrolments. *)
Definition delete_enrollments (f : string -> enrollment_row -> bool) (db : DB) : DB :=
  let out := gone f (enrollments db) in
  set_enrollments db (keep (fun h r => negb (f h r)) (enrollments db)) (keep (fun h _ => negb (out h)) (policy_enrollments db)).

(** [INSERT INTO auth_sessions]: a second row of a token is an error. *)
Definition insert_session (sh ch user : string) (pv uv : Z) (mfa : bool) (t : Z) (db : DB) : result error DB :=
  match db_sessions db !! sh with
  | Some _ => Err unavailable
  | None => Ok (set_sessions db (<[sh := mkSessionRow user pv uv mfa t t ch]> (db_sessions db)))
  end.

(** ** Errors *)

Definition unauthenticated : error := EAuth adminauth.ErrUnauthenticated.
Definition invalid : error := EAuth adminauth.ErrInvalidOrReplayed.
Definition forbidden : error := EAuth adminauth.ErrForbidden.
Definition ErrAuthHTTPRateLimit : error := ENamed "AUTH_RATE_LIMITED".
Definition ErrLogoutConflict : error := ENamed "LOGOUT_IDEMPOTENCY_CONFLICT".
Definition ErrLogoutInvalid : error := ENamed "INVALID_LOGOUT_REQUEST".
Definition ErrSetupReview : error := ENamed "SETUP_REVIEW_REQUIRED".
Definition of_password (e : password.error) : error :=
  match e with password.ErrUnauthenticated => unauthenticated | password.ErrAuthUnavailable => unavailable end.

(** [if err != nil { return err }], in a transaction and outside of one. *)
Notation "'let?' x := e 'in' k" := (match e with Ok x => k | Err er => Fail er end)
  (at level 10, x name, e at level 100, k at level 200).
Notation "'let*' x := e 'in' k" := (match e with Ok x => k | Err er => Err er end)
  (at level 10, x name, e at level 100, k at level 200).
(** [if err != nil { return other }] for a query that finds no row. *)
Notation "'row?' x := e 'else' er 'in' k" := (match e with Some x => k | None => Fail er end)
  (at level 10, x name, e at level 100, er at level 100, k at level 200).

(** What the environment gives a transaction: the readings of the clock in
    order, random bytes, and the state of each password derivation. *)
Record env := mkEnv { ck : nat -> Z; rnd : nat -> string; kdf : nat -> password.env }.

Record Store := mkStore { vault_ : option vault.Vault; authAudit : bool }.
Record LoginService := mkLogin {
  l_store : Store; l_passwords : option password.PasswordHasher; fingerprintKey : string; installation : bool
}.
Record EnrollmentService := mkEnrollment {
  e_store : Store; e_passwords : option password.PasswordHasher; keyID : string; policyEnrollment : bool
}.
Record Grant := mkGrant { g_session : string; g_csrf : string }.
(** [time.Time{}]: January 1 of the year 1. *)
Definition zero_time : Z := -62135596800 * Second.
Record LoginResult := mkLoginResult { r_challenge : string; r_enrollment : string; r_grant : option Grant; expiresAt : Z }.

(** ** [sourceValue] *)

(** [netip.Addr.String] of an address without a zone: dotted decimals, or
    groups of hexadecimal digits with the longest run of zero groups elided. *)
Definition String4 (n : Z) : string :=
  pretty (n / 2 ^ 24) +:+ "." +:+ pretty (n / 2 ^ 16 mod 256) +:+ "." +:+ pretty (n / 2 ^ 8 mod 256) +:+ "." +:+ pretty (n mod 256).
Definition group (n i : Z) : Z := n / 2 ^ (16 * (7 - i)) mod 2 ^ 16.
Definition hex16 (v : Z) : string :=
  let ds := [v / 4096; v / 256 mod 16; v / 16 mod 16; v mod 16] in
  string_of_list_ascii (hex_digit <$> (drop_while (fun d => d =? 0) (take 3 ds) ++ drop 3 ds)).
(** The length of the run of zero groups that begins at group [i]. *)
Fixpoint zero_run (n : Z) (i : Z) (left : nat) : Z :=
  match left with O => 0 | S k => if group n i =? 0 then 1 + zero_run n (i + 1) k else 0 end.
Definition longest_run (n : Z) : Z * Z :=
  fold_left (fun best i => let l := zero_run n i (Z.to_nat (8 - i)) in
    if (2 <=? l) && (snd best - fst best <? l) then (i, i + l) else best) [0; 1; 2; 3; 4; 5; 6; 7] (255, 255).
Fixpoint String6_from (n start stop i : Z) (left : nat) : string :=
  match left with
  | O => ""
  | S k =>
      if i =? start then
        "::" +:+ (if 8 <=? stop then "" else hex16 (group n stop) +:+ String6_from n start stop (stop + 1) k)
      else if 8 <=? i then "" else (if 0 <? i then ":" else "") +:+ hex16 (group n i) +:+ String6_from n start stop (i + 1) k
  end.
Definition String6 (n : Z) : string := let '(start, stop) := longest_run n in String6_from n start stop 0 9.

Definition sourceValue (peer : origin.Addr) : option string :=
  let unspecified := match peer with origin.V4 n => n =? 0 | origin.V6 n z => (n =? 0) && String.eqb z "" | _ => false end in
  if negb (origin.IsValid peer) || unspecified || origin.IsMulticast peer || negb (String.eqb (origin.Zone peer) "") then None else
  match origin.Unmap peer with
  | origin.V6 n _ => Some (String6 (Z.shiftl (Z.shiftr n 64) 64) +:+ "/64")
  | origin.V4 n => Some (String4 n)
  | origin.Invalid => None
  end.

Section services.
Context `{Sha256} `{HmacSha256} `{adminauth.HmacSha1} `{AEAD}.
Context (IDKey : string -> string -> Z -> string).

(** ** [auth_audit.go] *)

Definition auth_actions : list string :=
  ["auth.bootstrap"; "auth.login"; "auth.lockout"; "auth.logout"; "auth.totp.enroll"; "auth.totp.recover"].
Definition auth_results : list string :=
  ["admin_created"; "authenticated"; "rejected"; "locked"; "logged_out"; "enrolled"; "challenge_required"; "enrollment_required"].

(** [requestID] is the token the code draws. *)
Definition auditAuth (s : Store) (user action result requestID : string) (db : DB) : Prelude.result error DB :=
  if negb (authAudit s) then Ok db else
  if negb (bool_decide (action ∈ auth_actions)) || negb (bool_decide (result ∈ auth_results)) then Err unavailable else
  let before := digest "wr-auth-audit/v1:transition" in
  let after := digest ("wr-auth-audit/v1:" +:+ action +:+ ":" +:+ result) in
  if String.eqb user ""
  then Ok (log_audit db (mkAuditRow "system:authentication" "system" action "authentication" before after result requestID 0))
  else match db_accounts db !! user with
       | None => Err unavailable
       | Some a => Ok (log_audit db (mkAuditRow user (role_text (ac_role a)) action "authentication" before after result requestID 0))
       end.

Definition auditRejectedPassword (s : Store) (e : env) (db : DB) : outcome unit :=
  if negb (authAudit s) then Rollback tt else
  let? db := auditAuth s "" "auth.login" "rejected" (base64.EncodeToString (rnd e 0)) db in Commit db tt.

(** ** Attempt limits *)

Definition LoginAccountLimit : Z := 5.
Definition LoginSourceLimit : Z := 20.
Definition LoginInstallationLimit : Z := 60.
Definition AuthHTTPSourceLimit : Z := 20.
Definition AuthHTTPInstallationLimit : Z := 60.

Definition fingerprint (l : LoginService) (domain value : string) : string :=
  hex_EncodeToString (hmac_sha256 (fingerprintKey l) (domain +:+ ":" +:+ value)).
Definition day (now : Z) : string := pretty (Z.quot (adminauth.Unix now) 86400).

(** One bucket: [t] stamps a new row, [now] is read under the lock of an old
    one. A full bucket is blocked, with the number of attempts it counted. *)
Inductive taken := Taken (b : gmap string bucket_row) | Blocked (r : bucket_row).
Definition take_bucket (key : string) (limit t now : Z) (b : gmap string bucket_row) : taken :=
  match b !! key with
  | None => Taken (<[key := mkBucketRow t (t + Minute) 1]> b)
  | Some r =>
      if (now <? bk_started r) || ((now <? bk_expires r) && (limit <=? bk_used r)) then Blocked r else
      if negb (now <? bk_expires r) then Taken (<[key := mkBucketRow now (now + Minute) 1]> b)
      else Taken (<[key := mkBucketRow (bk_started r) (bk_expires r) (bk_used r + 1)]> b)
  end.

(** The three buckets of an attempt in the order of the loop. *)
Definition login_key (l : LoginService) (user source : string) (e : env) (i : nat) : string :=
  match i with
  | 0%nat => "installation"
  | 1%nat => "source:" +:+ fingerprint l ("source/" +:+ day (ck e 3)) source
  | _ => "account:" +:+ fingerprint l "account" user
  end.
Definition login_limit (i : nat) : Z :=
  match i with 0%nat => LoginInstallationLimit | 1%nat => LoginSourceLimit | _ => LoginAccountLimit end.

(** The loop of [reserveAttempt]; the boolean is [allowed]. *)
Fixpoint reserve_loop (l : LoginService) (user source : string) (e : env) (todo : list nat) (db : DB) : result error (DB * bool) :=
  match todo with
  | [] => Ok (db, true)
  | i :: rest =>
      let key := login_key l user source e i in
      match take_bucket key (login_limit i) (ck e (3 * i + 1)) (ck e (3 * i + 2)) (buckets db) with
      | Taken b => reserve_loop l user source e rest (set_buckets db b)
      | Blocked r =>
          if bk_used r <=? login_limit i then
            let db := set_buckets db (<[key := mkBucketRow (bk_started r) (bk_expires r) (login_limit i + 1)]> (buckets db)) in
            let* db := auditAuth (l_store l) "" "auth.lockout" "locked" (base64.EncodeToString (rnd e 0)) db in Ok (db, false)
          else Ok (db, false)
      end
  end.

Definition prune_login (t : Z) (b : gmap string bucket_row) : gmap string bucket_row :=
  keep (fun k r => negb ((bk_expires r <=? t) && negb (String.eqb k "installation") && negb (strs.HasPrefix k "http-"))) b.

Definition reserveAttempt (l : LoginService) (user source : string) (e : env) (db : DB) : outcome (result error unit) :=
  match reserve_loop l user source e [0%nat; 1%nat; 2%nat] db with
  | Err er => Fail er
  | Ok (db, true) => Commit (set_buckets db (prune_login (ck e 9) (buckets db))) (Ok tt)
  | Ok (db, false) => Commit db (Err unauthenticated)
  end.

Definition http_key (l : LoginService) (source : string) (e : env) (i : nat) : string :=
  match i with
  | 0%nat => "http-installation"
  | _ => "http-source:" +:+ fingerprint l ("http-source/" +:+ day (ck e 3)) source
  end.
Definition http_limit (i : nat) : Z := match i with 0%nat => AuthHTTPInstallationLimit | _ => AuthHTTPSourceLimit end.
Fixpoint http_loop (l : LoginService) (source : string) (e : env) (todo : list nat) (b : gmap string bucket_row)
    : gmap string bucket_row * bool :=
  match todo with
  | [] => (b, true)
  | i :: rest =>
      match take_bucket (http_key l source e i) (http_limit i) (ck e (3 * i + 1)) (ck e (3 * i + 2)) b with
      | Taken b => http_loop l source e rest b
      | Blocked _ => (b, false)
      end
  end.
Definition prune_http (t : Z) (b : gmap string bucket_row) : gmap string bucket_row :=
  keep (fun k r => negb (strs.HasPrefix k "http-" && negb (String.eqb k "http-installation") && (bk_expires r <=? t))) b.

Definition ReserveAuthHTTP (l : LoginService) (peer : origin.Addr) (e : env) (db : DB) : outcome (result error unit) :=
  match sourceValue peer with
  | None => Fail forbidden
  | Some source =>
      match http_loop l source e [0%nat; 1%nat] (buckets db) with
      | (b, true) => Commit (set_buckets db (prune_http (ck e 9) b)) (Ok tt)
      | (b, false) => Commit (set_buckets db b) (Err ErrAuthHTTPRateLimit)
      end
  end.

(** ** Issuing sessions and enrolments ([bootstrap.go]) *)

(** A token and its hash from the [i]-th random bytes. *)
Definition token (e : env) (i : nat) : string * string := adminauth.NewCSRFToken (rnd e i).

(** The random values of a grant are the [i]-th and the next. *)
Definition issueSession (user : string) (pv uv : Z) (mfa : bool) (t : Z) (i : nat) (e : env) (db : DB) : result error (DB * Grant) :=
  let '(session, sh) := token e i in
  let '(csrf, ch) := token e (S i) in
  let* db := insert_session sh ch user pv uv mfa t db in Ok (db, mkGrant session csrf).
Definition issuePasswordSession (user : string) (pv uv t : Z) (e : env) (db : DB) : result error (DB * Grant) :=
  issueSession user pv uv false t 0 e db.

(** [UPDATE auth_enrollment_challenges SET consumed=true,key_id=NULL,sealed_secret=NULL]. *)
Definition spent_enrollment (r : enrollment_row) : enrollment_row :=
  mkEnrollmentRow (en_user r) (en_policy r) (en_version r) (en_created r) (en_expires r) (en_attempts r) true None.
Definition spend_enrollments (f : enrollment_row -> bool) (m : gmap string enrollment_row) : gmap string enrollment_row :=
  (fun r => if f r then spent_enrollment r else r) <$> m.

Definition insert_enrollment (hash user : string) (pv uv created expires : Z) (db : DB) : result error DB :=
  match enrollments db !! hash with
  | Some _ => Err unavailable
  | None => Ok (set_enrollments db (<[hash := mkEnrollmentRow user pv uv created expires 0 false None]> (enrollments db))
                  (policy_enrollments db))
  end.

Definition issueEnrollment (user : string) (pv uv t : Z) (e : env) (db : DB) : result error (DB * (string * Z)) :=
  let '(raw, hash) := token e 0 in
  let db := set_enrollments db (spend_enrollments (fun r => String.eqb (en_user r) user && negb (en_consumed r)) (enrollments db))
              (policy_enrollments db) in
  let* db := insert_enrollment hash user pv uv t (t + 5 * Minute) db in Ok (db, (raw, t + 5 * Minute)).

(** ** Password login ([login.go]) *)

Record passwordSnapshot := mkPasswordSnapshot {
  s_user : string; s_role : adminauth.Role; s_enabled : bool; s_userVersion : Z; s_passwordVersion : Z; s_hash : string;
  s_policy : adminauth.AuthPolicy
}.
Definition snapshot (user : string) (db : DB) : option passwordSnapshot :=
  match db_accounts db !! user, passwords db !! user with
  | Some a, Some c => Some (mkPasswordSnapshot user (ac_role a) (ac_enabled a) (ac_version a) (pw_version c) (pw_hash c) (db_policy db))
  | _, _ => None
  end.

(** The rows of the snapshot are as they were. *)
Definition unchanged (before : passwordSnapshot) (a : account_row) (c : password_row) (p : adminauth.AuthPolicy) : bool :=
  ac_enabled a && bool_decide (ac_role a = s_role before) && (ac_version a =? s_userVersion before) &&
  (pw_version c =? s_passwordVersion before) && String.eqb (pw_hash c) (s_hash before) &&
  (adminauth.Version p =? adminauth.Version (s_policy before)) && bool_decide (adminauth.Mode p = adminauth.Mode (s_policy before)) &&
  bool_decide (adminauth.TOTPEnabled p = adminauth.TOTPEnabled (s_policy before)).

Definition spent_challenge (r : challenge_row) : challenge_row :=
  mkChallengeRow (ch_user r) (ch_credential r) (ch_policy r) (ch_version r) (ch_created r) (ch_expires r) (ch_attempts r) true.
Definition spend_challenges (user : string) (m : gmap string challenge_row) : gmap string challenge_row :=
  (fun r => if String.eqb (ch_user r) user && negb (ch_consumed r) then spent_challenge r else r) <$> m.

Definition insert_challenge (hash : string) (r : challenge_row) (db : DB) : result error DB :=
  match challenges db !! hash with
  | Some _ => Err unavailable
  | None => Ok (set_challenges db (<[hash := r]> (challenges db)))
  end.

Definition finishPassword (l : LoginService) (before : passwordSnapshot) (e : env) (db : DB) : outcome LoginResult :=
  let user := s_user before in
  let policy := db_policy db in
  let audit name := auditAuth (l_store l) user "auth.login" name (base64.EncodeToString (rnd e 2)) in
  if negb (is_ok (adminauth.Validate policy)) then Fail unavailable else
  row? a := db_accounts db !! user else unauthenticated in
  row? c := passwords db !! user else unauthenticated in
  if negb (unchanged before a c policy) then Fail unauthenticated else
  if adminauth.TOTPEnabled policy then
    match db_totp db !! user with
    | None =>
        let? p := issueEnrollment user (adminauth.Version policy) (ac_version a) (ck e 0) e db in
        let? db := audit "enrollment_required" (fst p) in
        Commit db (mkLoginResult "" (fst (snd p)) None (snd (snd p)))
    | Some cred =>
        let '(raw, hash) := token e 0 in
        let db := set_challenges db (spend_challenges user (challenges db)) in
        let? db := insert_challenge hash (mkChallengeRow user (to_version cred) (adminauth.Version policy) (ac_version a)
                     (ck e 0) (ck e 0 + 5 * Minute) 0 false) db in
        let? db := audit "challenge_required" db in
        Commit db (mkLoginResult raw "" None (ck e 0 + 5 * Minute))
    end
  else
    let? p := issuePasswordSession user (adminauth.Version policy) (ac_version a) (ck e 0) e db in
    let? db := audit "authenticated" (fst p) in
    Commit db (mkLoginResult "" "" (Some (snd p)) zero_time).

(** ** One-time codes ([store.go]) *)

(** [UPDATE auth_totp_credentials SET last_counter=$1 WHERE user_id=$2 AND version=$3 AND last_counter<$1]:
    the credentials afterwards if a row was updated. *)
Definition advance_counter (ref : adminauth.CredentialRef) (counter : Z) (m : gmap string totp_row) : option (gmap string totp_row) :=
  match m !! adminauth.UserID ref with
  | Some r => if (to_version r =? adminauth.RVersion ref) && (to_last r <? counter)
              then Some (<[adminauth.UserID ref := mkTOTPRow (to_version r) (to_kid r) (to_sealed r) counter]> m) else None
  | None => None
  end.
(** The counter a credential accepted last; before its first one, -1. *)
Definition last_counter (db : DB) (ref : adminauth.CredentialRef) : Z :=
  match db_totp db !! adminauth.UserID ref with
  | Some r => if to_version r =? adminauth.RVersion ref then to_last r else -1
  | None => -1
  end.

Record loginConsumer := mkConsumer {
  c_store : Store; c_ref : adminauth.CredentialRef; c_challenge : string; c_session : string; c_csrf : string;
  c_policy : Z; c_userVersion : Z; c_env : env
}.

(** The condition under which a challenge is consumed: [low] attempts at least. *)
Definition consumable (low high : Z) (t t' : Z) (r : challenge_row) : bool :=
  negb (ch_consumed r) && (low <=? ch_attempts r) && (ch_attempts r <=? high) && (ch_created r <=? t) && (t' <? ch_expires r).
Definition consume_challenge (hash : string) (low high t t' : Z) (m : gmap string challenge_row) : option (gmap string challenge_row) :=
  match m !! hash with
  | Some r => if consumable low high t t' r then Some (<[hash := spent_challenge r]> m) else None
  | None => None
  end.

Definition login_ConsumeCounter (c : loginConsumer) (db : DB) (ref : adminauth.CredentialRef) (counter : Z)
    : DB * result adminauth.error bool :=
  let failed := (db, Err adminauth.ErrAuthUnavailable) in
  let e := c_env c in
  if negb (bool_decide (ref = c_ref c)) || (max_i64 <? counter) then (db, Ok false) else
  match advance_counter ref counter (db_totp db) with
  | None => (db, Ok false)
  | Some m =>
      match consume_challenge (c_challenge c) 0 4 (ck e 1) (ck e 2) (challenges db) with
      | None => failed
      | Some chs =>
          match insert_session (c_session c) (c_csrf c) (adminauth.UserID ref) (c_policy c) (c_userVersion c) true (ck e 3)
                  (set_challenges (set_totp db m) chs) with
          | Err _ => failed
          | Ok db1 =>
              match auditAuth (c_store c) (adminauth.UserID ref) "auth.login" "authenticated" (base64.EncodeToString (rnd e 2)) db1 with
              | Err _ => failed
              | Ok db2 => (db2, Ok true)
              end
          end
      end
  end.

(** [VerifyAndConsume] with a consumer that runs in the transaction. *)
Definition verify_and_consume (consume : DB -> adminauth.CredentialRef -> Z -> DB * result adminauth.error bool)
    (ref : adminauth.CredentialRef) (secret : adminauth.Secret) (code : string) (now : Z) (db : DB) : DB * result adminauth.error unit :=
  adminauth.VerifyAndConsume (H0 := {| adminauth.ConsumeCounter := consume; adminauth.lastAccepted := last_counter |})
    false ref secret code now db.

Definition no_capabilities (r : adminauth.Role) : bool := (List.length (adminauth.Capabilities r) =? 0)%nat.

Definition CompleteTOTP (s : Store) (challenge code : string) (e : env) (db : DB) : outcome (result error Grant) :=
  row? hash := tokenHash challenge else invalid in
  let p := db_policy db in
  if negb (is_ok (adminauth.Validate p)) then Fail unavailable else
  if negb (adminauth.TOTPEnabled p) then Fail invalid else
  row? ch := challenges db !! hash else invalid in
  let user := ch_user ch in
  row? a := db_accounts db !! user else invalid in
  if negb (ac_enabled a) || no_capabilities (ac_role a) then Fail invalid else
  row? cred := db_totp db !! user else invalid in
  let ref := adminauth.mkRef user (to_version cred) in
  let now := ck e 0 in
  if negb (ch_credential ch =? to_version cred) || negb (ch_policy ch =? adminauth.Version p) ||
     negb (ch_version ch =? ac_version a) || ch_consumed ch || (5 <=? ch_attempts ch) || (now <? ch_created ch) ||
     negb (now <? ch_expires ch) then Fail invalid else
  match vault.open (vault_ s) ref (to_kid cred) (to_sealed cred) with
  | Err _ => Fail unavailable
  | Ok secret =>
      let '(session, sh) := token e 0 in
      let '(csrf, chash) := token e 1 in
      let consumer := mkConsumer s ref hash sh chash (adminauth.Version p) (ac_version a) e in
      match verify_and_consume (login_ConsumeCounter consumer) ref secret code now db with
      | (db, Ok _) => Commit db (Ok (mkGrant session csrf))
      | (_, Err adminauth.ErrInvalidOrReplayed) =>
          let n := ch_attempts ch + 1 in
          let row := mkChallengeRow user (ch_credential ch) (ch_policy ch) (ch_version ch) (ch_created ch) (ch_expires ch) n (5 <=? n) in
          let db := set_challenges db (<[hash := row]> (challenges db)) in
          let '(action, res) := if 5 <=? n then ("auth.lockout", "locked") else ("auth.login", "rejected") in
          let? db := auditAuth s user action res (base64.EncodeToString (rnd e 2)) db in
          Commit db (Err invalid)
      | (_, Err _) => Fail unavailable
      end
  end.

(** ** Recovery codes ([recovery.go]) *)

Record recoveryState := mkRecoveryState {
  v_challenge : string; v_ref : adminauth.CredentialRef; v_role : adminauth.Role; v_policy : Z; v_userVersion : Z; v_attempts : Z
}.
Record recoveryAttempt := mkRecoveryAttempt { a_state : recoveryState; a_records : list code_row; a_number : Z }.

Definition loadRecovery (hash : string) (now : Z) (db : DB) : result error recoveryState :=
  let p := db_policy db in
  if negb (is_ok (adminauth.Validate p)) then Err unavailable else
  if negb (adminauth.TOTPEnabled p) then Err invalid else
  match challenges db !! hash with
  | None => Err invalid
  | Some ch =>
      let user := ch_user ch in
      match db_accounts db !! user with
      | None => Err invalid
      | Some a =>
          if negb (ac_enabled a) || no_capabilities (ac_role a) then Err invalid else
          match db_totp db !! user with
          | None => Err invalid
          | Some cred =>
              if negb (ch_credential ch =? to_version cred) || negb (ch_policy ch =? adminauth.Version p) ||
                 negb (ch_version ch =? ac_version a) || ch_consumed ch || (now <? ch_created ch) || negb (now <? ch_expires ch)
              then Err invalid
              else Ok (mkRecoveryState hash (adminauth.mkRef user (to_version cred)) (ac_role a) (adminauth.Version p) (ac_version a)
                         (ch_attempts ch))
          end
      end
  end.

(** The rows of the ten slots in order; the table holds no other slot. *)
Definition slots : list Z := [1; 2; 3; 4; 5; 6; 7; 8; 9; 10].
Definition code_records (ref : adminauth.CredentialRef) (db : DB) : option (list code_row) :=
  mapM (fun i => codes db !! (adminauth.UserID ref, adminauth.RVersion ref, i)) slots.

Definition count_attempt (r : challenge_row) : challenge_row :=
  mkChallengeRow (ch_user r) (ch_credential r) (ch_policy r) (ch_version r) (ch_created r) (ch_expires r) (ch_attempts r + 1) (ch_consumed r).

Definition recovery_reserve (hash : string) (e : env) (db : DB) : outcome recoveryAttempt :=
  let? state := loadRecovery hash (ck e 0) db in
  if 5 <=? v_attempts state then Fail invalid else
  row? records := code_records (v_ref state) db else unavailable in
  row? ch := challenges db !! hash else invalid in
  if negb (negb (ch_consumed ch) && (ch_attempts ch <? 5) && (ck e 1 <? ch_expires ch)) then Fail invalid else
  Commit (set_challenges db (<[hash := count_attempt ch]> (challenges db)))
    (mkRecoveryAttempt state records (v_attempts state + 1)).

(** The loop over the records: every record is verified; [slot] is the match so
    far, 0 for none, and [i] the number of the next slot. *)
Fixpoint match_loop (h : option password.PasswordHasher) (raw : string) (e : env) (records : list code_row) (i slot : Z)
    : result error Z :=
  match records with
  | [] => if slot =? 0 then Err invalid else Ok slot
  | r :: rest =>
      match snd (password.Verify IDKey h (kdf e (Z.to_nat i)) ("wr-recovery-v1:" +:+ raw) (rc_hash r)) with
      | Err er => Err (of_password er)
      | Ok valid =>
          if valid && negb (rc_consumed r) then
            if negb (slot =? 0) then Err unavailable else match_loop h raw e rest (i + 1) i
          else match_loop h raw e rest (i + 1) slot
      end
  end.
Definition recovery_match (h : option password.PasswordHasher) (attempt : recoveryAttempt) (raw : string) (e : env) : result error Z :=
  match tokenHash raw with
  | None => Err invalid
  | Some _ => match_loop h raw e (a_records attempt) 1 0
  end.

(** The record of a slot in the attempt. *)
Definition record_of (attempt : recoveryAttempt) (slot : Z) : code_row :=
  default (mkCodeRow "" false) (a_records attempt !! Z.to_nat (slot - 1)).

Definition commitRecovery (s : Store) (attempt : recoveryAttempt) (slot : Z) (session csrf : string) (e : env) (db : DB)
    : result error DB :=
  let state := a_state attempt in
  let ref := v_ref state in
  let k := (adminauth.UserID ref, adminauth.RVersion ref, slot) in
  match codes db !! k with
  | None => Err unavailable
  | Some r =>
      if rc_consumed r || negb (String.eqb (rc_hash r) (rc_hash (record_of attempt slot))) then Err unavailable else
      let db := set_codes db (<[k := mkCodeRow (rc_hash r) true]> (codes db)) in
      match consume_challenge (v_challenge state) (a_number attempt) 5 (ck e 1) (ck e 2) (challenges db) with
      | None => Err unavailable
      | Some chs =>
          let* db := insert_session session csrf (adminauth.UserID ref) (v_policy state) (v_userVersion state) true (ck e 3)
                       (set_challenges db chs) in
          auditAuth s (adminauth.UserID ref) "auth.totp.recover" "authenticated" (base64.EncodeToString (rnd e 2)) db
      end
  end.

Definition recovery_finish (s : Store) (attempt : recoveryAttempt) (slot : Z) (e : env) (db : DB) : outcome Grant :=
  if (slot <? 1) || (10 <? slot) || (a_number attempt <? 1) || (5 <? a_number attempt) || rc_consumed (record_of attempt slot)
  then Fail invalid else
  let? state := loadRecovery (v_challenge (a_state attempt)) (ck e 0) db in
  if negb (bool_decide (v_ref state = v_ref (a_state attempt))) || negb (bool_decide (v_role state = v_role (a_state attempt))) ||
     negb (v_policy state =? v_policy (a_state attempt)) || negb (v_userVersion state =? v_userVersion (a_state attempt)) ||
     (v_attempts state <? a_number attempt) then Fail invalid else
  row? r := codes db !! (adminauth.UserID (v_ref state), adminauth.RVersion (v_ref state), slot) else invalid in
  if rc_consumed r || negb (String.eqb (rc_hash r) (rc_hash (record_of attempt slot))) then Fail invalid else
  let '(session, sh) := token e 0 in
  let '(csrf, ch) := token e 1 in
  match commitRecovery s attempt slot sh ch e db with
  | Err _ => Fail unavailable
  | Ok db => Commit db (mkGrant session csrf)
  end.

(** ** Enrolment of a second factor ([enrollment.go]) *)

Record enrollmentState := mkEnrollmentState {
  n_ref : adminauth.CredentialRef; n_policy : Z; n_attempts : Z; n_kid : string; n_sealed : string; n_expires : Z; n_now : Z
}.

(** The [EXISTS] query: the enrolment belongs to a live session of an administrator. *)
Definition permitted (hash : string) (p : adminauth.AuthPolicy) (e : env) (db : DB) : bool :=
  match policy_enrollments db !! hash, enrollments db !! hash with
  | Some sh, Some c =>
      match db_sessions db !! sh with
      | Some s =>
          match db_accounts db !! se_user s with
          | Some a =>
              String.eqb (en_user c) (se_user s) && bool_decide (ac_role a = adminauth.Admin) && ac_enabled a &&
              (se_policy s =? adminauth.Version p) && (se_version s =? ac_version a) && (se_created s <=? ck e 0) &&
              (se_created s <=? se_seen s) && (se_seen s <=? ck e 1) && (ck e 2 - adminauth.SessionAbsoluteTTL <? se_created s) &&
              (ck e 3 - adminauth.SessionIdleTTL <? se_seen s)
          | None => false
          end
      | None => false
      end
  | _, _ => false
  end.

Definition loadEnrollment (hash : string) (policyEnrollment : bool) (e : env) (db : DB) : result error enrollmentState :=
  let p := db_policy db in
  if negb (is_ok (adminauth.Validate p)) then Err unavailable else
  if negb (adminauth.TOTPEnabled p) && (negb policyEnrollment || negb (permitted hash p e db)) then Err invalid else
  match enrollments db !! hash with
  | None => Err invalid
  | Some r =>
      let user := en_user r in
      match db_accounts db !! user with
      | None => Err invalid
      | Some a =>
          if negb (ac_enabled a) || no_capabilities (ac_role a) then Err invalid else
          match db_totp db !! user with
          | Some _ => Err invalid
          | None =>
              let now := ck e 4 in
              if negb (en_version r =? ac_version a) || negb (en_policy r =? adminauth.Version p) || en_consumed r ||
                 (now <? en_created r) || negb (now <? en_expires r) then Err invalid else
              let '(kid, sealed) := default ("", "") (en_secret r) in
              Ok (mkEnrollmentState (adminauth.mkRef user (en_version r)) (adminauth.Version p) (en_attempts r) kid sealed
                    (en_expires r) now)
          end
      end
  end.

(** An update of the row of a token that has not expired. *)
Definition update_enrollment (hash : string) (f : enrollment_row -> enrollment_row) (t : Z) (db : DB) : option DB :=
  match enrollments db !! hash with
  | Some r => if t <? en_expires r then Some (set_enrollments db (<[hash := f r]> (enrollments db)) (policy_enrollments db)) else None
  | None => None
  end.
Definition with_secret (kid sealed : string) (r : enrollment_row) : enrollment_row :=
  mkEnrollmentRow (en_user r) (en_policy r) (en_version r) (en_created r) (en_expires r) (en_attempts r) (en_consumed r) (Some (kid, sealed)).
Definition with_attempt (r : enrollment_row) : enrollment_row :=
  mkEnrollmentRow (en_user r) (en_policy r) (en_version r) (en_created r) (en_expires r) (en_attempts r + 1) (en_consumed r) (en_secret r).

Definition of_auth {A} (r : result adminauth.error A) : result error A := match r with Ok a => Ok a | Err e => Err (EAuth e) end.

(** The secret and the expiry of the token. The random values: the secret of 20
    bytes and the nonce. *)
Definition Begin (s : EnrollmentService) (tok : string) (e : env) (db : DB) : outcome (adminauth.Secret * Z) :=
  row? hash := tokenHash tok else invalid in
  let? state := loadEnrollment hash (policyEnrollment s) e db in
  if 5 <=? n_attempts state then Fail invalid else
  if String.eqb (n_kid state) "" then
    let secret := vault.NewSecret (rnd e 0) in
    let? sealed := of_auth (vault.sealEnrollment (vault_ (e_store s)) (rnd e 1) (n_ref state) (keyID s) hash secret) in
    row? db := update_enrollment hash (with_secret (keyID s) sealed) (ck e 5) db else invalid in
    Commit db (secret, n_expires state)
  else
    let? secret := of_auth (vault.openEnrollment (vault_ (e_store s)) (n_ref state) (n_kid state) hash (n_sealed state)) in
    Commit db (secret, n_expires state).

Record enrollmentAttempt := mkEnrollmentAttempt { ea_hash : string; ea_ref : adminauth.CredentialRef; ea_policy : Z; ea_number : Z }.

Definition enrollment_reserve (s : EnrollmentService) (hash : string) (e : env) (db : DB) : outcome enrollmentAttempt :=
  let? state := loadEnrollment hash (policyEnrollment s) e db in
  if String.eqb (n_kid state) "" || (5 <=? n_attempts state) then Fail invalid else
  row? db := update_enrollment hash with_attempt (ck e 5) db else invalid in
  Commit db (mkEnrollmentAttempt hash (n_ref state) (n_policy state) (n_attempts state + 1)).

(** Ten codes and their hashes; the derivations and the random values are numbered from 10. *)
Record recoveryBundle := mkBundle { b_codes : list string; b_hashes : list string }.
Fixpoint prepare_loop (s : EnrollmentService) (e : env) (i : nat) (left : nat) : result error recoveryBundle :=
  match left with
  | O => Ok (mkBundle [] [])
  | S k =>
      let '(raw, _) := token e i in
      match snd (password.Hash IDKey (e_passwords s) (kdf e i) ("wr-recovery-v1:" +:+ raw) (rnd e (100 + i))) with
      | Err er => Err (of_password er)
      | Ok h => let* b := prepare_loop s e (S i) k in Ok (mkBundle (raw :: b_codes b) (h :: b_hashes b))
      end
  end.
Definition prepareRecovery (s : EnrollmentService) (e : env) : result error recoveryBundle := prepare_loop s e 10 10.

Definition sixDigits (code : string) : bool := (len code =? 6) && forallb adminauth.is_digit (list_ascii_of_string code).

(** [INSERT INTO auth_recovery_codes], slot by slot. *)
Fixpoint insert_codes (ref : adminauth.CredentialRef) (i : Z) (hashes : list string) (m : gmap (string * Z * Z) code_row)
    : option (gmap (string * Z * Z) code_row) :=
  match hashes with
  | [] => Some m
  | h :: rest =>
      let k := (adminauth.UserID ref, adminauth.RVersion ref, i) in
      match m !! k with Some _ => None | None => insert_codes ref (i + 1) rest (<[k := mkCodeRow h false]> m) end
  end.

Record enrollmentConsumer := mkEnrollmentConsumer {
  k_store : Store; k_attempt : enrollmentAttempt; k_keyID : string; k_sealed : string; k_recovery : recoveryBundle;
  k_session : string; k_csrf : string; k_env : env
}.

Definition enrollment_ConsumeCounter (c : enrollmentConsumer) (db : DB) (ref : adminauth.CredentialRef) (counter : Z)
    : DB * result adminauth.error bool :=
  let failed := (db, Err adminauth.ErrAuthUnavailable) in
  let e := k_env c in
  let user := adminauth.UserID ref in
  let hash := ea_hash (k_attempt c) in
  if negb (bool_decide (ref = ea_ref (k_attempt c))) || (max_i64 <? counter) then (db, Ok false) else
  match enrollments db !! hash with
  | None => failed
  | Some r =>
      if negb (negb (en_consumed r) && (ea_number (k_attempt c) <=? en_attempts r) && (en_attempts r <=? 5) &&
               (en_created r <=? ck e 5) && (ck e 6 <? en_expires r)) then failed else
      match db_totp db !! user, insert_codes ref 1 (b_hashes (k_recovery c)) (codes db) with
      | None, Some cs =>
          let db1 := set_codes (set_totp db (<[user := mkTOTPRow (adminauth.RVersion ref) (k_keyID c) (k_sealed c) counter]> (db_totp db))) cs in
          let db2 := delete_sessions (fun _ s => String.eqb (se_user s) user) db1 in
          let db3 := set_challenges db2 (spend_challenges user (challenges db2)) in
          let db4 := set_enrollments db3 (spend_enrollments (fun r => String.eqb (en_user r) user) (enrollments db3)) (policy_enrollments db3) in
          match insert_session (k_session c) (k_csrf c) user (ea_policy (k_attempt c)) (adminauth.RVersion ref) true (ck e 7) db4 with
          | Err _ => failed
          | Ok db5 =>
              match auditAuth (k_store c) user "auth.totp.enroll" "enrolled" (base64.EncodeToString (rnd e 2)) db5 with
              | Err _ => failed
              | Ok db6 => (db6, Ok true)
              end
          end
      | _, _ => failed
      end
  end.

Record EnrollmentGrant := mkEnrollmentGrant { eg_grant : Grant; eg_recovery : list string }.

(** The nonce of the sealed secret is the third random value. *)
Definition enrollment_finish (s : EnrollmentService) (attempt : enrollmentAttempt) (code : string) (recovery : recoveryBundle)
    (e : env) (db : DB) : outcome EnrollmentGrant :=
  let? state := loadEnrollment (ea_hash attempt) (policyEnrollment s) e db in
  if negb (bool_decide (n_ref state = ea_ref attempt)) || negb (n_policy state =? ea_policy attempt) || (ea_number attempt <? 1) ||
     (n_attempts state <? ea_number attempt) || String.eqb (n_kid state) "" then Fail invalid else
  let? secret := of_auth (vault.openEnrollment (vault_ (e_store s)) (n_ref state) (n_kid state) (ea_hash attempt) (n_sealed state)) in
  let? sealed := of_auth (vault.Seal (vault_ (e_store s)) (rnd e 3) (n_ref state) (keyID s) secret) in
  let '(session, sh) := token e 0 in
  let '(csrf, ch) := token e 1 in
  let consumer := mkEnrollmentConsumer (e_store s) attempt (keyID s) sealed recovery sh ch e in
  match verify_and_consume (enrollment_ConsumeCounter consumer) (n_ref state) secret code (n_now state) db with
  | (db, Ok _) => Commit db (mkEnrollmentGrant (mkGrant session csrf) (b_codes recovery))
  | (_, Err er) => Fail (EAuth er)
  end.

(** ** The first administrator ([bootstrap.go]) *)

Definition no_accounts (db : DB) : bool := (size (db_accounts db) =? 0)%nat.

Definition IssueBootstrapToken (e : env) (db : DB) : outcome string :=
  let b := bootstrap db in
  if bo_completed b then Fail unauthenticated else
  if negb (no_accounts db) then Fail unauthenticated else
  let '(raw, hash) := token e 0 in
  Commit (set_bootstrap db (mkBootstrapRow false (bo_generation b + 1) (Some (hash, ck e 0 + 15 * Minute)))) raw.

Record bootstrapSnapshot := mkBootstrapSnapshot { b_generation : Z; b_policy : adminauth.AuthPolicy }.

(** The row holds the token, which has not expired, and there is no account. *)
Definition token_valid (hash : string) (t : Z) (db : DB) : bool :=
  match bo_token (bootstrap db) with
  | Some (h, expires) => String.eqb h hash && (t <? expires) && no_accounts db
  | None => false
  end.
Definition bootstrap_snapshot (hash : string) (t : Z) (db : DB) : result error bootstrapSnapshot :=
  if negb (negb (bo_completed (bootstrap db)) && token_valid hash t db) then Err unauthenticated else
  if negb (is_ok (adminauth.Validate (db_policy db))) then Err unavailable
  else Ok (mkBootstrapSnapshot (bo_generation (bootstrap db)) (db_policy db)).

Definition setupApplied (db : DB) : result error unit := if t_applied (db_auth db) then Ok tt else Err ErrSetupReview.

Definition finishBootstrap (l : LoginService) (hash user password : string) (before : bootstrapSnapshot) (e : env) (db : DB)
    : outcome LoginResult :=
  let p := db_policy db in
  if negb (is_ok (adminauth.Validate p)) then Fail unavailable else
  if negb (bool_decide (p = b_policy before)) then Fail unauthenticated else
  if bo_completed (bootstrap db) then Fail unauthenticated else
  if negb ((bo_generation (bootstrap db) =? b_generation before) && token_valid hash (ck e 0) db) then Fail unauthenticated else
  let db := set_accounts db (<[user := mkAccountRow adminauth.Admin true 1 false]> (db_accounts db)) in
  if bool_decide (is_Some (passwords db !! user)) then Fail unavailable else
  let db := set_passwords db (<[user := mkPasswordRow 1 password]> (passwords db)) in
  let done (p : DB * LoginResult) :=
    let db := set_bootstrap (fst p) (mkBootstrapRow true (bo_generation (bootstrap (fst p))) None) in
    let? db := auditAuth (l_store l) user "auth.bootstrap" "admin_created" (base64.EncodeToString (rnd e 2)) db in
    Commit db (snd p) in
  if adminauth.TOTPEnabled p then
    let? q := issueEnrollment user (adminauth.Version p) 1 (ck e 1) e db in done (fst q, mkLoginResult "" (fst (snd q)) None (snd (snd q)))
  else let? q := issuePasswordSession user (adminauth.Version p) 1 (ck e 1) e db in done (fst q, mkLoginResult "" "" (Some (snd q)) zero_time).

(** ** Sessions ([sessions.go]) *)

Record SessionService := mkSessions { ss_store : Store; ss_origin : string }.

Record SessionView := mkView {
  w_user : string; w_role : adminauth.Role; w_mfa : bool; w_enrolled : bool; w_capabilities : list adminauth.Capability;
  w_created : Z; w_seen : Z; w_idle : Z; w_absolute : Z
}.
Definition view (s : sessionSnapshot) : SessionView :=
  let created := default 0 (adminauth.sCreatedAt (session s)) in
  let absolute := created + adminauth.SessionAbsoluteTTL in
  let idle := adminauth.sLastSeenAt (session s) + adminauth.SessionIdleTTL in
  mkView (adminauth.aID (account s)) (adminauth.aRole (account s)) (adminauth.sMFAVerified (session s)) (adminauth.aTOTPEnrolled (account s))
    (adminauth.Capabilities (adminauth.aRole (account s))) created (adminauth.sLastSeenAt (session s))
    (if absolute <? idle then absolute else idle) absolute.

(** [UPDATE auth_sessions SET last_seen_at], of a session that is live at [t]. *)
Definition touch_session (hash : string) (t : Z) (db : DB) : option DB :=
  match db_sessions db !! hash with
  | Some r =>
      if (se_created r <=? t) && (se_seen r <=? t) && (t <? se_created r + 8 * Hour) && (t <? se_seen r + 30 * Minute)
      then Some (set_sessions db (<[hash := mkSessionRow (se_user r) (se_policy r) (se_version r) (se_mfa r) (se_created r) t (se_csrf r)]>
                                    (db_sessions db)))
      else None
  | None => None
  end.

Definition drop_session (hash : string) (db : DB) : DB := delete_sessions (fun h _ => String.eqb h hash) db.

Inductive operation := Read | TouchOp | LogoutOp.
(** [request] is nil for a read. *)
Definition run (s : SessionService) (tok : string) (request : option adminauth.request) (op : operation) (e : env) (db : DB)
    : outcome SessionView :=
  row? hash := tokenHash tok else unauthenticated in
  match op with
  | Read => let? state := loadSession hash (ck e 0) db in Commit db (view state)
  | _ =>
      row? r := request else forbidden in
      if negb (String.eqb (adminauth.Method r) "POST") then Fail forbidden else
      let? state := loadSession hash (ck e 0) db in
      match adminauth.CheckMutation (ss_origin s) r (csrf state) with
      | Err er => Fail (EAuth er)
      | Ok _ =>
          match op with
          | LogoutOp =>
              let? db := auditAuth (ss_store s) (adminauth.aID (account state)) "auth.logout" "logged_out"
                           (base64.EncodeToString (rnd e 2)) (drop_session hash db) in
              Commit db (view state)
          | _ =>
              row? db := touch_session hash (ck e 1) db else unauthenticated in
              let ses := session state in
              Commit db (view (mkSnapshot (account state) (adminauth.mkSession (adminauth.sUserID ses) (adminauth.sAuthPolicyVersion ses)
                (adminauth.sUserSessionVersion ses) (adminauth.sMFAVerified ses) (adminauth.sCreatedAt ses) (ck e 1))
                (policy state) (csrf state) (now state)))
          end
      end
  end.
Definition Me (s : SessionService) (tok : string) := run s tok None Read.
Definition Touch (s : SessionService) (tok : string) (r : option adminauth.request) := run s tok r TouchOp.
Definition Logout (s : SessionService) (tok : string) (r : option adminauth.request) := run s tok r LogoutOp.

(** ** Replayable logout ([logout.go]) *)

(** The closure [replay]: [Ok true] acknowledges an earlier logout. *)
Definition logout_replay (s : SessionService) (r : adminauth.request) (hash key : string) (t t' : Z) (db : DB) : result error bool :=
  match logouts db !! hash with
  | None => Ok false
  | Some row =>
      if negb ((lo_created row <=? t) && (t' <? lo_expires row)) then Ok false else
      if negb (len (lo_csrf row) =? 32) then Err unavailable else
      match adminauth.CheckMutation (ss_origin s) r (lo_csrf row) with
      | Err er => Err (EAuth er)
      | Ok _ => if String.eqb (lo_key row) key then Ok true else Err ErrLogoutConflict
      end
  end.

Definition earlier (a b : string * logout_row) : Prop := lo_expires (snd a) <= lo_expires (snd b).
#[local] Instance earlier_dec : RelDecision earlier.
Proof. intros a b. unfold earlier. apply _. Defined.
(** The oldest expired rows, at most 128, leave the table. *)
Definition expire_logouts (t : Z) (m : gmap string logout_row) : gmap string logout_row :=
  foldr delete m (take 128 (fst <$> merge_sort earlier (List.filter (fun kv => lo_expires (snd kv) <=? t) (map_to_list m)))).

(** The answer tells whether an earlier logout was acknowledged. The row of a
    logout is stamped twice: for its creation and its expiry. *)
Definition LogoutReplay (s : SessionService) (tok : string) (request : option adminauth.request) (e : env) (db : DB) : outcome bool :=
  row? r := request else forbidden in
  if negb (String.eqb (adminauth.Method r) "POST") then Fail forbidden else
  let keys := adminauth.Header r "Idempotency-Key" in
  if (List.length keys =? 0)%nat then
    match Logout s tok request e db with Fail er => Fail er | Rollback _ => Rollback false | Commit db _ => Commit db false end
  else
  if negb (List.length keys =? 1)%nat || negb (safeCommandKey (adminauth.Get r "Idempotency-Key")) then Fail ErrLogoutInvalid else
  row? hash := tokenHash tok else unauthenticated in
  let key := sha256 (adminauth.Get r "Idempotency-Key") in
  match logout_replay s r hash key (ck e 0) (ck e 1) db with
  | Err er => Fail er
  | Ok true => Rollback true
  | Ok false =>
      match loadSession hash (ck e 2) db with
      | Err (EAuth adminauth.ErrUnauthenticated) =>
          match logout_replay s r hash key (ck e 3) (ck e 4) db with
          | Err er => Fail er
          | Ok true => Rollback true
          | Ok false => Fail unauthenticated
          end
      | Err er => Fail er
      | Ok state =>
          match adminauth.CheckMutation (ss_origin s) r (csrf state) with
          | Err er => Fail (EAuth er)
          | Ok _ =>
              let db := set_logouts db (expire_logouts (ck e 5) (logouts db)) in
              if 10000 <=? Z.of_nat (size (logouts db)) then Fail unavailable else
              match logouts db !! hash with
              | Some _ => Fail unavailable
              | None =>
                  let db := set_logouts db (<[hash := mkLogoutRow (csrf state) key (ck e 6) (ck e 7 + 24 * Hour)]> (logouts db)) in
                  let? db := auditAuth (ss_store s) (adminauth.aID (account state)) "auth.logout" "logged_out"
                               (base64.EncodeToString (rnd e 2)) (drop_session hash db) in
                  Commit db false
              end
          end
      end
  end.
End services.
End accounts.
