(* ===== verification/Security.v ===== *)
(** * Account management: [src/internal/adminauth/pgstore], [users.go], [totp_policy.go], [reauth.go]

    Module [security] translates the commands on accounts and on the policy of
    second factors, which run in the command wrapper of [Publication], and the
    fresh authentication that precedes each of them. The decoders of their
    request bodies and the JSON of their answers are the class [AccountWire]. *)

From S2P Require Import Prelude GoStd Keyring Control ConfigTrust AdminAuth Vault Password Publication DataNode Origin Accounts.
From stdpp Require Import base list gmap strings sorting pretty.
From Stdlib Require Import ZArith Lia Ascii String.

Module security.
Import pgstore accounts.
Local Open Scope Z_scope.

(** ** Inputs and views *)

Record UserView := mkUser { u_id : string; u_role : adminauth.Role; u_enabled : bool; u_enrolled : bool; u_revision : Z; u_etag : string }.
Record CreateUserInput := mkCreate { i_id : string; i_role : adminauth.Role; i_password : string }.
(** [Enabled] is a pointer. *)
Record UpdateUserInput := mkUpdate { i_newRole : adminauth.Role; i_enabled : option bool }.
Record PolicyView := mkPolicyView { p_mode : adminauth.PolicyMode; p_enabled : bool; p_version : Z; p_enrolled : bool }.
Record ReauthInput := mkReauth {
  i_secret : string; i_totp : string; i_action : adminauth.Action; i_target : string; i_digest : string
}.

(** [control.DecodeExact] at the input types, [json.Marshal] of the answers, and
    the JSON object that carries a sealed body. *)
Class AccountWire := {
  decode_create : string -> option CreateUserInput;
  decode_update : string -> option UpdateUserInput;
  decode_enabled : string -> option (option bool);
  decode_reauth : string -> option ReauthInput;
  decode_code : string -> option (string * string);
  json_user : UserView -> string;
  json_policy : PolicyView -> string;
  json_proof : string -> Z -> string;
  json_enrollment : string -> Z -> string;
  json_secret : string -> Z -> string;
  json_authenticated : SessionView -> string -> list string -> string;
  json_sealed : string -> string;
  unjson_sealed : string -> option string
}.

Definition userETag (version : Z) : string := quote +:+ "user-" +:+ pretty version +:+ quote.
Definition policyETag (version : Z) : string := quote +:+ "policy-" +:+ pretty version +:+ quote.
Definition validRole (r : adminauth.Role) : bool :=
  match r with adminauth.Admin | adminauth.Operator | adminauth.Viewer => true | adminauth.OtherRole _ => false end.

Record SecurityService := mkSecurity { sc_control : PublicationService; sc_login : LoginService; sc_keyID : string }.

Section security.
Context `{Sha256} `{HmacSha256} `{adminauth.HmacSha1} `{AEAD}.
Context `{Codec control.Config} `{Codec control.Delivery} `{Codec configtrust.Snapshot} `{Codec configtrust.envelope} `{Ed25519}.
Context `{Wire} `{AccountWire}.
Context (IDKey : string -> string -> Z -> string).

(** The readings of the clock and the tokens of a command. *)
Definition command_clock (e : env) : clock := mkClock (ck e 0) (ck e 1) (ck e 2).
Definition command_tokens (e : env) : tokens :=
  mkTokens (base64.EncodeToString (rnd e 50)) (base64.EncodeToString (rnd e 51)) (base64.EncodeToString (rnd e 52)).
Definition problem (e : env) (status : Z) (code : string) : ControlReply := replyProblem status code (k_reply (command_tokens e)).
Definition refuse (e : env) (status : Z) (code : string) : commandResult := mkResult (problem e status code) "" "" 0.

(** ** Accounts ([users.go]) *)

Definition userResult (u : UserView) (status : Z) : commandResult :=
  mkResult (mkReply status (json_user u) (u_etag u) false) "" (digest (json_user u)) (u_revision u).

Definition create_body (e : env) (input : CreateUserInput) (hash : string) (db : DB) (state : sessionSnapshot) (current : control.Config)
    : result error (DB * commandResult) :=
  if negb (bo_completed (bootstrap db)) then Err forbidden else
  if bool_decide (is_Some (db_accounts db !! i_id input)) then Ok (db, refuse e 409 "USER_ID_RESERVED") else
  if 1000 <=? Z.of_nat (size (db_accounts db)) then Ok (db, refuse e 409 "USER_CAPACITY_EXCEEDED") else
  if bool_decide (is_Some (passwords db !! i_id input)) then Err unavailable else
  let db := set_accounts db (<[i_id input := mkAccountRow (i_role input) true 1 false]> (db_accounts db)) in
  let db := set_passwords db (<[i_id input := mkPasswordRow 1 hash]> (passwords db)) in
  Ok (db, userResult (mkUser (i_id input) (i_role input) true false 1 (userETag 1)) 201).

(** The input of a creation, [None] for a request that is refused. *)
Definition create_input (r : adminauth.request) (raw : string) : option CreateUserInput :=
  if negb (String.eqb (adminauth.Method r) "POST") then None else
  match decode_create raw with
  | None => None
  | Some input =>
      if negb (vault.safeID (i_id input)) || negb (validRole (i_role input)) || negb (password.ValidLoginPassword (i_password input)) ||
         (password.rune_count (i_password input) <? 15) then None else Some input
  end.
(** The check of authority and proof before the derivation; its effect is rolled back. *)
Definition create_check (s : SecurityService) (tok : string) (r : adminauth.request) (raw : string) (input : CreateUserInput) (e : env)
    (db : DB) : result error (result error DB) :=
  let* _state := beginCommand (sc_control s) tok adminauth.WriteUsers (Some r) true (ck e 0) db in
  Ok (consumeReauth tok r adminauth.WriteUsers (i_id input) raw (ck e 1) db).

Definition revokeUser (id : string) (db : DB) : DB :=
  let db := delete_sessions (fun _ s => String.eqb (se_user s) id) db in
  let db := set_challenges db (keep (fun _ r => negb (String.eqb (ch_user r) id)) (challenges db)) in
  delete_enrollments (fun _ r => String.eqb (en_user r) id) db.
Definition removeTOTP (id : string) (db : DB) : DB :=
  let db := set_codes db (keep (fun k _ => negb (String.eqb (fst (fst k)) id)) (codes db)) in
  set_totp db (delete id (db_totp db)).

(** [SELECT count] of the other enabled administrators. *)
Definition is_admin (a : account_row) : bool := bool_decide (ac_role a = adminauth.Admin) && ac_enabled a && negb (ac_deleted a).
Definition other_admins (id : string) (db : DB) : Z := map_count is_admin (delete id (db_accounts db)).

(** What a change asks: the method [DELETE], a reset, or a new role and state. *)
Inductive change := DeleteUser | ResetTOTP | UpdateUser (role : adminauth.Role) (enabled : bool).
Definition change_of (r : adminauth.request) (raw : string) (reset : bool) : option change :=
  let m := adminauth.Method r in
  if reset then if String.eqb m "POST" && decode_empty raw then Some ResetTOTP else None
  else if String.eqb m "DELETE" then if len raw =? 0 then Some DeleteUser else None
  else if negb (String.eqb m "PATCH") then None else
  match decode_update raw with
  | Some input => if validRole (i_newRole input) then match i_enabled input with Some b => Some (UpdateUser (i_newRole input) b) | None => None end else None
  | None => None
  end.

Definition change_body (e : env) (r : adminauth.request) (id : string) (c : change) (db : DB) (state : sessionSnapshot)
    (current : control.Config) : result error (DB * commandResult) :=
  match db_accounts db !! id with
  | None => Ok (db, refuse e 404 "NOT_FOUND")
  | Some a =>
      if ac_deleted a then Ok (db, refuse e 404 "NOT_FOUND") else
      let u := mkUser id (ac_role a) (ac_enabled a) (bool_decide (is_Some (db_totp db !! id))) (ac_version a) (userETag (ac_version a)) in
      if negb (String.eqb (adminauth.Get r "If-Match") (u_etag u)) then Ok (db, refuse e 412 "REVISION_MISMATCH") else
      let destructive := match c with
        | DeleteUser => true | ResetTOTP => false
        | UpdateUser role enabled => negb enabled || negb (bool_decide (role = adminauth.Admin)) end in
      let reset := match c with ResetTOTP => true | _ => false end in
      if bool_decide (ac_role a = adminauth.Admin) && ac_enabled a && (destructive || (reset && adminauth.TOTPEnabled (policy state))) &&
         (other_admins id db =? 0) then Ok (db, refuse e 409 "LAST_ADMIN_REQUIRED") else
      if 9007199254740990 <=? ac_version a then Err unavailable else
      let db := revokeUser id db in
      let db := match c with UpdateUser _ _ => db | _ => removeTOTP id db end in
      let db := match c with DeleteUser => set_passwords db (delete id (passwords db)) | _ => db end in
      let v := ac_version a + 1 in
      let role := match c with UpdateUser role _ => role | _ => ac_role a end in
      let enabled := match c with DeleteUser => false | UpdateUser _ b => b | ResetTOTP => ac_enabled a end in
      let enrolled := match c with UpdateUser _ _ => u_enrolled u | _ => false end in
      let deleted := match c with DeleteUser => true | _ => false end in
      let res := userResult (mkUser id role enabled enrolled v (userETag v)) 200 in
      Ok (set_accounts db (<[id := mkAccountRow role enabled v deleted]> (db_accounts db)),
          mkResult (reply res) (digest (json_user u)) (after res) (revision res))
  end.

Definition ChangeUser (s : SecurityService) (tok id : string) (r : adminauth.request) (raw : string) (reset : bool) (e : env) (db : DB)
    : outcome ControlReply :=
  if negb (vault.safeID id) then Rollback (problem e 400 "INVALID_REQUEST") else
  match change_of r raw reset with
  | None => Rollback (problem e 400 "INVALID_REQUEST")
  | Some c =>
      let action := if reset then adminauth.ResetUserTOTP else adminauth.WriteUsers in
      command (sc_control s) tok r raw action id true (change_body e r id c) (command_clock e) (command_tokens e) db
  end.

(** ** The policy of second factors ([totp_policy.go]) *)

Definition policyView (state : sessionSnapshot) : PolicyView :=
  mkPolicyView (adminauth.Mode (policy state)) (adminauth.TOTPEnabled (policy state)) (adminauth.Version (policy state))
    (adminauth.aTOTPEnrolled (account state)).
Definition policy_reply (v : PolicyView) : ControlReply := mkReply 200 (json_policy v) (policyETag (p_version v)) false.

Definition Policy (s : SecurityService) (tok : string) (e : env) (db : DB) : outcome ControlReply :=
  let? state := beginCommand (sc_control s) tok adminauth.ReadSecurity None false (ck e 0) db in
  Commit db (policy_reply (policyView state)).

Definition set_mfa (hash : string) (db : DB) : DB :=
  match db_sessions db !! hash with
  | Some s => set_sessions db (<[hash := mkSessionRow (se_user s) (se_policy s) (se_version s) true (se_created s) (se_seen s) (se_csrf s)]>
                                 (db_sessions db))
  | None => db
  end.

(** The session of the administrator is issued at [ck e 3], from the first two
    random values. *)
Definition policy_body (e : env) (r : adminauth.request) (enabled : bool) (db : DB) (state : sessionSnapshot) (current : control.Config)
    : result error (DB * commandResult) :=
  let p := policy state in
  if negb (String.eqb (adminauth.Get r "If-Match") (policyETag (adminauth.Version p))) then Ok (db, refuse e 412 "REVISION_MISMATCH") else
  if bool_decide (adminauth.Mode p = adminauth.ForcedOn) && negb enabled then Ok (db, refuse e 403 "TOTP_POLICY_LOCKED") else
  if Bool.eqb enabled (adminauth.TOTPEnabled p) then Ok (db, mkResult (policy_reply (policyView state)) "" "" 0) else
  if negb (adminauth.aTOTPEnrolled (account state)) then Ok (db, refuse e 409 "TOTP_ENROLLMENT_REQUIRED") else
  if 9007199254740990 <=? adminauth.Version p then Err unavailable else
  let v := adminauth.Version p + 1 in
  let db := set_policy db (adminauth.mkAuthPolicy (adminauth.Mode (db_policy db)) enabled v) in
  let db := delete_sessions (fun _ _ => true) db in
  let db := set_challenges db ∅ in
  let db := delete_enrollments (fun _ _ => true) db in
  let* p2 := issuePasswordSession (adminauth.aID (account state)) v (adminauth.aSessionVersion (account state)) (ck e 3) e db in
  let db := set_mfa (snd (token e 0)) (fst p2) in
  let w := mkPolicyView (adminauth.Mode p) enabled v (adminauth.aTOTPEnrolled (account state)) in
  Ok (db, mkResult (policy_reply w) (digest (json_policy (policyView state))) (digest (json_policy w)) v).

(** The answer and the grant that replaces the administrator's session. *)
Definition ChangePolicy (s : SecurityService) (tok : string) (r : adminauth.request) (raw : string) (e : env) (db : DB)
    : outcome (ControlReply * option Grant) :=
  let invalid := Rollback (problem e 400 "INVALID_REQUEST", None) in
  if negb (String.eqb (adminauth.Method r) "PUT") then invalid else
  match decode_enabled raw with
  | Some (Some enabled) =>
      let fresh := if Bool.eqb enabled (adminauth.TOTPEnabled (db_policy db)) then None
                   else Some (mkGrant (fst (token e 0)) (fst (token e 1))) in
      let rotated a := if negb (Replay a) && (Status a =? 200) then fresh else None in
      match command (sc_control s) tok r raw adminauth.WriteTOTPPolicy "totp" true (policy_body e r enabled) (command_clock e)
              (command_tokens e) db with
      | Fail er => Fail er
      | Rollback a => Rollback (a, rotated a)
      | Commit db a => Commit db (a, rotated a)
      end
  | _ => invalid
  end.

(** [proofCipher]: the key of sealed answers. *)
Definition proof_key (s : SecurityService) : string := hmac_sha256 (fingerprintKey (sc_login s)) "wr/security/command-proof/v1".
Definition sealProof (s : SecurityService) (nonce body aad : string) : string :=
  json_sealed (base64.EncodeToString (nonce +:+ gcm_seal (proof_key s) nonce body aad)).
Definition openProof (s : SecurityService) (body aad : string) : result error string :=
  match unjson_sealed body with
  | None => Err unavailable
  | Some encoded =>
      match base64.StrictDecodeString encoded with
      | None => Err unavailable
      | Some raw =>
          if len raw <? Z.of_nat (NonceSize + Overhead) then Err unavailable else
          match gcm_open (proof_key s) (str_take NonceSize raw) (str_drop NonceSize raw) aad with
          | None => Err unavailable
          | Some plain => Ok plain
          end
      end
  end.

Definition enroll_body (s : SecurityService) (e : env) (tok : string) (r : adminauth.request) (aad : string) (db : DB)
    (state : sessionSnapshot) (current : control.Config) : result error (DB * commandResult) :=
  let p := policy state in
  let user := adminauth.aID (account state) in
  if negb (String.eqb (adminauth.Get r "If-Match") (policyETag (adminauth.Version p))) then Ok (db, refuse e 412 "REVISION_MISMATCH") else
  if adminauth.TOTPEnabled p || adminauth.aTOTPEnrolled (account state)
  then Ok (db, refuse e 409 "TOTP_ALREADY_ENROLLED_OR_ENABLED") else
  let db := delete_enrollments (fun _ r => String.eqb (en_user r) user) db in
  let '(proof, hash) := token e 0 in
  let expires := now state + 5 * Minute in
  let* db := insert_enrollment hash user (adminauth.Version p) (adminauth.aSessionVersion (account state)) (now state) expires db in
  (* the referenced session is locked; a second row of the token is an error *)
  match policy_enrollments db !! hash with
  | Some _ => Err unavailable
  | None =>
      let db := set_enrollments db (enrollments db) (<[hash := default "" (tokenHash tok)]> (policy_enrollments db)) in
      Ok (db, mkResult (mkReply 200 (sealProof s (rnd e 3) (json_enrollment proof expires) aad) (policyETag (adminauth.Version p)) false) "" "" 0)
  end.

Definition enrollment_aad (tok : string) (r : adminauth.request) : string :=
  "policy-enrollment/v1:" +:+ digest tok +:+ ":" +:+ digest (adminauth.Get r "Idempotency-Key").

(** The answer is opened after the commit; an error then leaves the effect. *)
Definition BeginPolicyEnrollment (s : SecurityService) (tok : string) (r : adminauth.request) (raw : string) (e : env) (db : DB)
    : outcome (result error ControlReply) :=
  if negb (String.eqb (adminauth.Method r) "POST") || negb (decode_empty raw) then Rollback (Ok (problem e 400 "INVALID_REQUEST")) else
  let aad := enrollment_aad tok r in
  let opened a := if Status a =? 200
                  then let* body := openProof s (Body a) aad in Ok (mkReply (Status a) body (ETag a) (Replay a)) else Ok a in
  match command (sc_control s) tok r raw adminauth.WriteTOTPPolicy "totp-enrollment" true (enroll_body s e tok r aad) (command_clock e)
          (command_tokens e) db with
  | Fail er => Fail er
  | Rollback a => Rollback (opened a)
  | Commit db a => Commit db (opened a)
  end.

(** The first transaction of [PolicyEnrollment]: the enrolment is bound to the session. *)
Definition enrollment_bound (s : SecurityService) (tok : string) (r : adminauth.request) (hash : string) (e : env) (db : DB)
    : result error unit :=
  let* _state := beginCommand (sc_control s) tok adminauth.ReadSecurity (Some r) false (ck e 0) db in
  if bool_decide (policy_enrollments db !! hash = Some (default "" (tokenHash tok))) then Ok tt else Err forbidden.

Definition NewEnrollmentService (s : Store) (h : option password.PasswordHasher) (activeKeyID : string) (policyEnrollment : bool)
    : result error EnrollmentService :=
  match h, vault_ s with
  | Some _, Some keys => match keys !! activeKeyID with Some _ => Ok (mkEnrollment s h activeKeyID policyEnrollment) | None => Err unavailable end
  | _, _ => Err unavailable
  end.

(** ** Fresh authentication ([reauth.go]) *)

Definition reauth_input (r : adminauth.request) (raw : string) : option ReauthInput :=
  if negb (String.eqb (adminauth.Method r) "POST") then None else
  match decode_reauth raw with
  | None => None
  | Some input =>
      if negb (password.ValidLoginPassword (i_secret input)) || negb (vault.safeID (i_target input)) || negb (hexDigest (i_digest input))
      then None else Some input
  end.

(** The action needs a fresh authentication and is the account's to take. *)
Definition reauth_allowed (role : adminauth.Role) (a : adminauth.Action) : bool :=
  match adminauth.Requirement role a with Some c => adminauth.RequiresReauthentication c | None => false end.

(** The first transaction: the user whose password is asked for. *)
Definition reauth_check (s : SecurityService) (tok : string) (r : adminauth.request) (input : ReauthInput) (e : env) (db : DB)
    : result error string :=
  let* state := beginCommand (sc_control s) tok adminauth.ReadDashboard (Some r) false (ck e 0) db in
  if negb (reauth_allowed (adminauth.aRole (account state)) (i_action input)) || bool_decide (i_action input = adminauth.RotateKeys)
  then Err forbidden else Ok (adminauth.aID (account state)).

Definition reauth_ConsumeCounter (own : adminauth.CredentialRef) (db : DB) (ref : adminauth.CredentialRef) (counter : Z)
    : DB * result adminauth.error bool :=
  if negb (bool_decide (own = ref)) || (max_i64 <? counter) then (db, Ok false) else
  match advance_counter ref counter (db_totp db) with
  | Some m => (set_totp db m, Ok true)
  | None => (db, Ok false)
  end.

(** The second factor, when the policy or the action asks for one. *)
Definition reauth_factor (s : SecurityService) (input : ReauthInput) (state : sessionSnapshot) (db : DB) : result error DB :=
  if negb (adminauth.TOTPEnabled (policy state) ||
           (bool_decide (i_action input = adminauth.WriteTOTPPolicy) && String.eqb (i_target input) "totp")) then Ok db else
  let user := adminauth.aID (account state) in
  match db_totp db !! user with
  | None => Err unauthenticated
  | Some cred =>
      let ref := adminauth.mkRef user (to_version cred) in
      match vault.open (vault_ (l_store (sc_login s))) ref (to_kid cred) (to_sealed cred) with
      | Err _ => Err unavailable
      | Ok secret =>
          match verify_and_consume (reauth_ConsumeCounter ref) ref secret (i_totp input) (now state) db with
          | (db, Ok _) => Ok db
          | (_, Err er) => Err (EAuth er)
          end
      end
  end.

Definition sooner (a b : string * proof_row) : Prop := pr_expires (snd a) <= pr_expires (snd b).
#[local] Instance sooner_dec : RelDecision sooner.
Proof. intros a b. unfold sooner. apply _. Defined.
(** The oldest expired proofs, at most 128, leave the table. *)
Definition expire_proofs (t : Z) (m : gmap string proof_row) : gmap string proof_row :=
  foldr delete m (take 128 (fst <$> merge_sort sooner (List.filter (fun kv => pr_expires (snd kv) <=? t) (map_to_list m)))).

Definition reauth_finish (s : SecurityService) (tok : string) (r : adminauth.request) (input : ReauthInput) (before : passwordSnapshot)
    (e : env) (db : DB) : outcome ControlReply :=
  let hash := default "" (tokenHash tok) in
  let? state := loadSession hash (ck e 0) db in
  let? _ok := of_auth (adminauth.CheckMutation (origin (sc_control s)) r (csrf state)) in
  let user := adminauth.aID (account state) in
  if negb (reauth_allowed (adminauth.aRole (account state)) (i_action input)) || negb (String.eqb user (s_user before)) ||
     negb (adminauth.aSessionVersion (account state) =? s_userVersion before) ||
     negb (adminauth.Version (policy state) =? adminauth.Version (s_policy before)) then Fail forbidden else
  row? c := passwords db !! user else unauthenticated in
  if negb (pw_version c =? s_passwordVersion before) || negb (String.eqb (pw_hash c) (s_hash before)) then Fail unauthenticated else
  let? db := reauth_factor s input state db in
  let '(proof, proofHash) := token e 0 in
  let db := set_proofs db (expire_proofs (ck e 1) (db_proofs db)) in
  if 1000 <=? Z.of_nat (size (db_proofs db)) then Fail unavailable else
  let expires := now state + 5 * Minute in
  match db_proofs db !! proofHash with
  | Some _ => Fail unavailable
  | None =>
      let row := mkProofRow hash (action_text (i_action input)) (i_target input) (i_digest input) (now state) expires false in
      let db := set_proofs db (<[proofHash := row]> (db_proofs db)) in
      let db := log_audit db (mkAuditRow user (role_text (adminauth.aRole (account state))) "auth.reauth" (i_target input) (i_digest input)
                  (i_digest input) "accepted" (base64.EncodeToString (rnd e 2)) 0) in
      Commit db (mkReply 200 (json_proof proof expires) "" false)
  end.
End security.
End security.
