(* ===== verification/AccountFlow.v ===== *)
(** * Requests on accounts, step by step

    Module [flow] composes the transactions of [Accounts] and [Security] into
    the requests the services answer: [Login], [Complete] of the recovery and
    enrolment services, [Bootstrap], [CreateUser], [PolicyEnrollment] and
    [Reauthenticate] of [src/internal/adminauth/pgstore] run several
    transactions, the other requests run one. A [stage] is the point a request
    has reached; [next] is its next transaction with the local computation that
    follows it. Requests interleave between stages, and the database can break
    any transaction or lose the answer of its commit. *)

From S2P Require Import Prelude GoStd Keyring Control ConfigTrust AdminAuth Vault Password Publication DataNode Origin Accounts Security.
From stdpp Require Import base list gmap strings sorting pretty.
From Stdlib Require Import ZArith Lia Ascii String.

Module flow.
Import pgstore accounts security.
Local Open Scope Z_scope.

(** ** Requests and answers *)

Inductive request :=
  | ReserveHTTP (peer : origin.Addr)
  | Login (user password : string) (peer : origin.Addr)
  | TOTP (challenge code : string)
  | Recovery (challenge code : string)
  | EnrollBegin (tok : string)
  | EnrollComplete (tok code : string)
  | IssueToken
  | Bootstrap (tok user password : string) (peer : origin.Addr)
  | Session (tok : string) (r : option adminauth.request) (op : operation)
  | Logout_ (tok : string) (r : option adminauth.request)
  | CreateUser (tok : string) (r : adminauth.request) (raw : string)
  | ChangeUser_ (tok id : string) (r : adminauth.request) (raw : string) (reset : bool)
  | ReadPolicy (tok : string)
  | ChangePolicy_ (tok : string) (r : adminauth.request) (raw : string)
  | PolicyBegin (tok : string) (r : adminauth.request) (raw : string)
  | PolicyEnrollment (tok : string) (r : adminauth.request) (raw : string) (verify : bool)
  | Reauthenticate (tok : string) (r : adminauth.request) (raw : string) (peer : option origin.Addr).

Inductive answer :=
  | AUnit | ALogin (r : LoginResult) | AGrant (g : Grant) | ASetup (s : adminauth.Secret) (expires : Z)
  | AEnrolled (g : EnrollmentGrant) | AToken (t : string) | AView (v : SessionView) | AAck (replayed : bool)
  | AControl (r : ControlReply) (rotated : option Grant).

Inductive stage :=
  | SHttp (peer : origin.Addr)
  | SLogin_reserve (user password source : string)
  | SLogin_snapshot (user password : string)
  | SLogin_rejected
  | SLogin_finish (before : passwordSnapshot) (password : string)
  | STotp (challenge code : string)
  | SRecover_reserve (hash code : string)
  | SRecover_finish (attempt : recoveryAttempt) (slot : Z) (code : string)
  | SBegin (s : EnrollmentService) (tok : string)
  | SEnroll_reserve (s : EnrollmentService) (hash code : string)
  | SEnroll_finish (s : EnrollmentService) (attempt : enrollmentAttempt) (code : string) (recovery : recoveryBundle)
  | SIssue
  | SBootstrap_snapshot (hash user password : string)
  | SBootstrap_applied (hash user password : string) (before : bootstrapSnapshot)
  | SBootstrap_finish (hash user password : string) (before : bootstrapSnapshot)
  | SSession (tok : string) (r : option adminauth.request) (op : operation)
  | SLogout (tok : string) (r : option adminauth.request)
  | SCreate_check (tok : string) (r : adminauth.request) (raw : string) (input : CreateUserInput)
  | SCreate_replay (tok : string) (r : adminauth.request) (raw : string) (input : CreateUserInput)
  | SCreate_run (tok : string) (r : adminauth.request) (raw : string) (input : CreateUserInput) (hash : string)
  | SChange (tok id : string) (r : adminauth.request) (raw : string) (reset : bool)
  | SReadPolicy (tok : string)
  | SPolicy (tok : string) (r : adminauth.request) (raw : string)
  | SPolicy_begin (tok : string) (r : adminauth.request) (raw : string)
  | SPolicy_check (tok : string) (r : adminauth.request) (challenge code hash : string) (verify : bool)
  | SPolicy_view (g : EnrollmentGrant)
  | SReauth_check (tok : string) (r : adminauth.request) (input : ReauthInput) (peer : option origin.Addr)
  | SReauth_reserve (tok : string) (r : adminauth.request) (input : ReauthInput) (user source : string)
  | SReauth_snapshot (tok : string) (r : adminauth.request) (input : ReauthInput) (user : string)
  | SReauth_finish (tok : string) (r : adminauth.request) (input : ReauthInput) (before : passwordSnapshot)
  | SDone (a : result error answer).

Record services := mkServices {
  v_login : LoginService; v_enrollment : EnrollmentService; v_sessions : SessionService; v_security : SecurityService
}.

Section flow.
Context `{Sha256} `{HmacSha256} `{adminauth.HmacSha1} `{AEAD}.
Context `{Codec control.Config} `{Codec control.Delivery} `{Codec configtrust.Snapshot} `{Codec configtrust.envelope} `{Ed25519}.
Context `{Wire} `{AccountWire}.
Context (IDKey : string -> string -> Z -> string) (v : services).

Definition store_ : Store := l_store (v_login v).
Definition failed (er : error) : stage := SDone (Err er).
Definition control_answer (a : ControlReply) : stage := SDone (Ok (AControl a None)).
Definition refused (e : env) : stage := control_answer (problem e 400 "INVALID_REQUEST").

(** ** The checks before the first transaction *)

Definition start (e : env) (q : request) : stage :=
  match q with
  | ReserveHTTP peer => match sourceValue peer with Some _ => SHttp peer | None => failed forbidden end
  | Login user password peer =>
      match sourceValue peer with
      | Some source => if vault.safeID user && password.ValidLoginPassword password then SLogin_reserve user password source
                       else failed unauthenticated
      | None => failed unauthenticated
      end
  | TOTP challenge code => STotp challenge code
  | Recovery challenge code =>
      match tokenHash challenge with Some hash => SRecover_reserve hash code | None => failed invalid end
  | EnrollBegin tok => SBegin (v_enrollment v) tok
  | EnrollComplete tok code =>
      match tokenHash tok with Some hash => SEnroll_reserve (v_enrollment v) hash code | None => failed invalid end
  | IssueToken => SIssue
  | Bootstrap tok user password peer =>
      if negb (origin.IsValid peer) || negb (String.eqb (origin.Zone peer) "") || negb (origin.IsLoopback (origin.Unmap peer)) ||
         negb (vault.safeID user) || negb (password.ValidLoginPassword password) then failed unauthenticated else
      match tokenHash tok with Some hash => SBootstrap_snapshot hash user password | None => failed unauthenticated end
  | Session tok r op => SSession tok r op
  | Logout_ tok r => SLogout tok r
  | CreateUser tok r raw => match create_input r raw with Some input => SCreate_check tok r raw input | None => refused e end
  | ChangeUser_ tok id r raw reset => SChange tok id r raw reset
  | ReadPolicy tok => SReadPolicy tok
  | ChangePolicy_ tok r raw => SPolicy tok r raw
  | PolicyBegin tok r raw => SPolicy_begin tok r raw
  | PolicyEnrollment tok r raw verify =>
      if negb (String.eqb (adminauth.Method r) "POST") then refused e else
      match decode_code raw with
      | None => refused e
      | Some (challenge, code) =>
          if negb verify && negb (String.eqb code "") then refused e else
          match tokenHash challenge with Some hash => SPolicy_check tok r challenge code hash verify | None => refused e end
      end
  | Reauthenticate tok r raw peer =>
      match reauth_input r raw with Some input => SReauth_check tok r input peer | None => refused e end
  end.

(** ** The transactions and what follows them *)

Definition map_outcome {A B} (f : A -> B) (o : outcome A) : outcome B :=
  match o with Fail er => Fail er | Rollback a => Rollback (f a) | Commit db a => Commit db (f a) end.
Definition answered {A} (f : A -> answer) (r : result error A) : stage :=
  match r with Ok a => SDone (Ok (f a)) | Err er => failed er end.

(** [Verify] of a login, after the snapshot: an account that is missing or
    disabled is verified against no hash. *)
Definition login_verified (password : string) (s : option passwordSnapshot) (e : env) : stage :=
  let missing := match s with Some b => negb (s_enabled b) | None => true end in
  let stored := match s with Some b => if s_enabled b then s_hash b else "" | None => "" end in
  match snd (password.Verify IDKey (l_passwords (v_login v)) (kdf e 0) password stored) with
  | Err er => failed (of_password er)
  | Ok valid =>
      match s with
      | Some b => if negb valid || missing then SLogin_rejected else SLogin_finish b password
      | None => SLogin_rejected
      end
  end.

Definition recover_matched (attempt : recoveryAttempt) (code : string) (e : env) : stage :=
  match recovery_match IDKey (l_passwords (v_login v)) attempt code e with
  | Err er => failed er
  | Ok slot => SRecover_finish attempt slot code
  end.

Definition enroll_prepared (s : EnrollmentService) (attempt : enrollmentAttempt) (code : string) (e : env) : stage :=
  if negb (sixDigits code) then failed invalid else
  match prepareRecovery IDKey s e with Err er => failed er | Ok b => SEnroll_finish s attempt code b end.

(** The answer of [Begin]; the endpoint of the policy shows the manual key. *)
Definition begun (s : EnrollmentService) (p : adminauth.Secret * Z) : stage :=
  if policyEnrollment s then
    match vault.ProvisioningBase32 (fst p) with
    | Err er => failed (EAuth er)
    | Ok key => control_answer (mkReply 200 (json_secret key (snd p)) "" false)
    end
  else SDone (Ok (ASetup (fst p) (snd p))).

(** The hash of the first administrator's password; [before] is the snapshot. *)
Definition bootstrap_hashed (hash user password : string) (before : bootstrapSnapshot) (e : env) : stage :=
  match snd (password.Hash IDKey (l_passwords (v_login v)) (kdf e 0) password (rnd e 5)) with
  | Err er => failed (of_password er)
  | Ok h => SBootstrap_finish hash user h before
  end.

Definition reauth_verified (tok : string) (r : adminauth.request) (input : ReauthInput) (b : passwordSnapshot) (e : env) : stage :=
  match snd (password.Verify IDKey (l_passwords (v_login v)) (kdf e 0) (i_secret input) (s_hash b)) with
  | Err er => failed (of_password er)
  | Ok false => failed unauthenticated
  | Ok true => SReauth_finish tok r input b
  end.

Definition create_command (tok : string) (r : adminauth.request) (raw : string) (input : CreateUserInput)
    (body : DB -> sessionSnapshot -> control.Config -> result error (DB * commandResult)) (e : env) (db : DB) : outcome stage :=
  map_outcome control_answer (command (sc_control (v_security v)) tok r raw adminauth.WriteUsers (i_id input) false body
    (command_clock e) (command_tokens e) db).

Definition next (st : stage) (e : env) (db : DB) : outcome stage :=
  match st with
  | SHttp peer => map_outcome (answered (fun _ => AUnit)) (ReserveAuthHTTP (v_login v) peer e db)
  | SLogin_reserve user password source =>
      map_outcome (fun r => match r with Ok _ => SLogin_snapshot user password | Err er => failed er end)
        (reserveAttempt (v_login v) user source e db)
  | SLogin_snapshot user password => Rollback (login_verified password (snapshot user db) e)
  | SLogin_rejected => map_outcome (fun _ => failed unauthenticated) (auditRejectedPassword store_ e db)
  | SLogin_finish before _ => map_outcome (fun r => SDone (Ok (ALogin r))) (finishPassword (v_login v) before e db)
  | STotp challenge code => map_outcome (answered AGrant) (CompleteTOTP store_ challenge code e db)
  | SRecover_reserve hash code => map_outcome (fun a => recover_matched a code e) (recovery_reserve hash e db)
  | SRecover_finish attempt slot _ => map_outcome (fun g => SDone (Ok (AGrant g))) (recovery_finish store_ attempt slot e db)
  | SBegin s tok => map_outcome (begun s) (Begin s tok e db)
  | SEnroll_reserve s hash code => map_outcome (fun a => enroll_prepared s a code e) (enrollment_reserve s hash e db)
  | SEnroll_finish s attempt code recovery =>
      map_outcome (fun g => if policyEnrollment s then SPolicy_view g else SDone (Ok (AEnrolled g)))
        (enrollment_finish s attempt code recovery e db)
  | SIssue => map_outcome (fun t => SDone (Ok (AToken t))) (IssueBootstrapToken e db)
  | SBootstrap_snapshot hash user password =>
      match bootstrap_snapshot hash (ck e 0) db with
      | Err er => Fail er
      | Ok before => Rollback (if installation (v_login v) then SBootstrap_applied hash user password before
                               else bootstrap_hashed hash user password before e)
      end
  | SBootstrap_applied hash user password before =>
      match setupApplied db with Err er => Fail er | Ok _ => Rollback (bootstrap_hashed hash user password before e) end
  | SBootstrap_finish hash user password before =>
      map_outcome (fun r => SDone (Ok (ALogin r))) (finishBootstrap (v_login v) hash user password before e db)
  | SSession tok r op => map_outcome (fun w => SDone (Ok (AView w))) (run (v_sessions v) tok r op e db)
  | SLogout tok r => map_outcome (fun b => SDone (Ok (AAck b))) (LogoutReplay (v_sessions v) tok r e db)
  | SCreate_check tok r raw input =>
      match create_check (v_security v) tok r raw input e db with
      | Err er => Fail er
      | Ok (Err _) => Rollback (SCreate_replay tok r raw input)
      | Ok (Ok _) =>
          Rollback (match snd (password.Hash IDKey (l_passwords (v_login v)) (kdf e 0) (i_password input) (rnd e 5)) with
                    | Err er => failed (of_password er)
                    | Ok h => SCreate_run tok r raw input h
                    end)
      end
  | SCreate_replay tok r raw input => create_command tok r raw input (fun _ _ _ => Err forbidden) e db
  | SCreate_run tok r raw input hash => create_command tok r raw input (create_body e input hash) e db
  | SChange tok id r raw reset => map_outcome control_answer (ChangeUser (v_security v) tok id r raw reset e db)
  | SReadPolicy tok => map_outcome control_answer (Policy (v_security v) tok e db)
  | SPolicy tok r raw => map_outcome (fun p => SDone (Ok (AControl (fst p) (snd p)))) (ChangePolicy (v_security v) tok r raw e db)
  | SPolicy_begin tok r raw =>
      map_outcome (answered (fun a => AControl a None)) (BeginPolicyEnrollment (v_security v) tok r raw e db)
  | SPolicy_check tok r challenge code hash verify =>
      match enrollment_bound (v_security v) tok r hash e db with
      | Err er => Fail er
      | Ok _ =>
          match NewEnrollmentService store_ (l_passwords (v_login v)) (sc_keyID (v_security v)) true with
          | Err er => Fail er
          | Ok s => Rollback (if verify then SEnroll_reserve s hash code else SBegin s challenge)
          end
      end
  | SPolicy_view g =>
      match loadSession (default "" (tokenHash (g_session (eg_grant g)))) (ck e 0) db with
      | Err er => Fail er
      | Ok state => Commit db (SDone (Ok (AControl (mkReply 200 (json_authenticated (view state) (g_csrf (eg_grant g)) (eg_recovery g)) "" false)
                                        (Some (eg_grant g)))))
      end
  | SReauth_check tok r input peer =>
      match reauth_check (v_security v) tok r input e db with
      | Err er => Fail er
      | Ok user =>
          Rollback (match peer with
                    | None => failed forbidden
                    | Some a => match sourceValue a with None => failed forbidden | Some source => SReauth_reserve tok r input user source end
                    end)
      end
  | SReauth_reserve tok r input user source =>
      map_outcome (fun x => match x with Ok _ => SReauth_snapshot tok r input user | Err er => failed er end)
        (reserveAttempt (v_login v) user source e db)
  | SReauth_snapshot tok r input user =>
      Rollback (match snapshot user db with None => failed unauthenticated | Some b => reauth_verified tok r input b e end)
  | SReauth_finish tok r input before => map_outcome control_answer (reauth_finish (v_security v) tok r input before e db)
  | SDone a => Rollback (SDone a)
  end.

(** The error of a broken transaction. *)
Definition broken (st : stage) : stage :=
  match st with SReauth_snapshot _ _ _ _ => failed unauthenticated | SDone a => SDone a | _ => failed unavailable end.

(** One transaction of a request, under a fault of the database. *)
Definition advance (f : fault) (st : stage) (e : env) (db : DB) : DB * stage :=
  match f, next st e db with
  | Broken, _ => (db, broken st)
  | _, Fail er => (db, failed er)
  | _, Rollback st' => (db, st')
  | NoFault, Commit db' st' => (db', st')
  | Lost, Commit db' _ => (db', broken st)
  end.
End flow.
End flow.
