(* ===== verification/AccountProps.v ===== *)
(** * Accounts: histories and what they earn

    The requests of [AccountFlow] run interleaved with each other and with the
    commands of [Publication] on one database. A history keeps what was proved
    to the services: passwords, one-time codes, recovery codes and commands.
    The theorems are about every history from an empty installation. *)

From S2P Require Import Prelude GoStd Keyring Control ConfigTrust AdminAuth Vault Password Publication CommandProps DataNode Origin Accounts Security AccountFlow.
From stdpp Require Import base list gmap strings sorting pretty.
From Stdlib Require Import ZArith Lia Ascii String.
Import pgstore accounts security flow.
Local Open Scope Z_scope.

(** ** Histories *)

(** What a committed transaction proved: [issued], [by], [opened] are the
    hashes of tokens. *)
Inductive event :=
  | ELogin (before : passwordSnapshot) (password issued : string)
  | EFirst (user issued : string)
  | ECode (ref : adminauth.CredentialRef) (counter : Z) (by_ opened : string)
  | ERecovery (ref : adminauth.CredentialRef) (slot : Z) (stored code by_ opened : string)
  | ECommand (by_ proof opened : string).

Record system := mkSystem { y_db : DB; y_procs : gmap nat stage; y_log : list event }.

(** A request arrives, a request takes its next step, or an operator command
    of the control plane runs. *)
Inductive label :=
  | LStart (id : nat) (q : request) (e : env)
  | LStep (id : nat) (e : env) (f : fault)
  | LControl (s : PublicationService) (o : pop) (f : fault).

Section histories.
Context `{Sha256} `{HmacSha256} `{adminauth.HmacSha1} `{AEAD}.
Context `{Codec control.Config} `{Codec control.Delivery} `{Codec configtrust.Snapshot} `{Codec configtrust.envelope} `{Ed25519}.
Context `{Wire} `{AccountWire}.
Context (IDKey : string -> string -> Z -> string) (v : services).
Local Abbreviation next := (flow.next IDKey v).

(** The counter a code matches, for a secret that opens. *)
Definition code_event (secret : result adminauth.error adminauth.Secret) (ref : adminauth.CredentialRef) (code : string) (now : Z)
    (by_ opened : string) : list event :=
  match secret with Ok s => [ECode ref (fst (adminauth.matchCounter s code now)) by_ opened] | Err _ => [] end.

(** What a committed transaction [db] to [db'] of a stage proved. *)
Definition proved (st : stage) (e : env) (db db' : DB) (st' : stage) : list event :=
  let opened := snd (token e 0) in
  match st with
  | SLogin_finish before password => [ELogin before password opened]
  | SBootstrap_finish _ user _ _ => [EFirst user opened]
  | STotp challenge code =>
      match st', tokenHash challenge with
      | SDone (Ok _), Some hash =>
          match challenges db !! hash with
          | Some ch =>
              match db_totp db !! ch_user ch with
              | Some cred =>
                  let ref := adminauth.mkRef (ch_user ch) (to_version cred) in
                  code_event (vault.open (vault_ (store_ v)) ref (to_kid cred) (to_sealed cred)) ref code (ck e 0) hash opened
              | None => []
              end
          | None => []
          end
      | _, _ => []
      end
  | SRecover_finish attempt slot code =>
      [ERecovery (v_ref (a_state attempt)) slot (rc_hash (record_of attempt slot)) code (v_challenge (a_state attempt)) opened]
  | SEnroll_finish s attempt code _ =>
      match enrollments db !! ea_hash attempt with
      | Some r =>
          let '(kid, sealed) := default ("", "") (en_secret r) in
          code_event (vault.openEnrollment (vault_ (e_store s)) (ea_ref attempt) kid (ea_hash attempt) sealed) (ea_ref attempt) code (ck e 4)
            (ea_hash attempt) opened
      | None => []
      end
  | SReauth_finish tok _ input _ =>
      let hash := default "" (tokenHash tok) in
      if adminauth.TOTPEnabled (db_policy db) || (bool_decide (i_action input = adminauth.WriteTOTPPolicy) && String.eqb (i_target input) "totp") then
        match db_sessions db !! hash with
        | Some s =>
            match db_totp db !! se_user s with
            | Some cred =>
                let ref := adminauth.mkRef (se_user s) (to_version cred) in
                code_event (vault.open (vault_ (l_store (sc_login (v_security v)))) ref (to_kid cred) (to_sealed cred)) ref (i_totp input) (ck e 0) hash opened
            | None => []
            end
        | None => []
        end
      else []
  | SPolicy tok r _ =>
      match st' with
      | SDone (Ok (AControl _ (Some _))) => [ECommand (default "" (tokenHash tok)) (default "" (tokenHash (adminauth.Get r "X-Reauth-Token"))) opened]
      | _ => []
      end
  | SPolicy_begin tok r _ =>
      if bool_decide (policy_enrollments db' !! opened = Some (default "" (tokenHash tok)))
      then [ECommand (default "" (tokenHash tok)) (default "" (tokenHash (adminauth.Get r "X-Reauth-Token"))) opened] else []
  | _ => []
  end.

Definition observe (f : fault) (st : stage) (e : env) (db : DB) : list event :=
  match f, next st e db with
  | Broken, _ => []
  | _, Commit db' st' => proved st e db db' st'
  | _, _ => []
  end.

Definition ystep (y : system) (l : label) : system :=
  match l with
  | LStart id q e =>
      match y_procs y !! id with
      | Some _ => y
      | None => mkSystem (y_db y) (<[id := start v e q]> (y_procs y)) (y_log y)
      end
  | LStep id e f =>
      match y_procs y !! id with
      | None => y
      | Some st =>
          let '(db, st') := advance IDKey v f st e (y_db y) in
          mkSystem db (<[id := st']> (y_procs y)) (y_log y ++ observe f st e (y_db y))
      end
  | LControl s o f => mkSystem (pexec s o f (y_db y)) (y_procs y) (y_log y)
  end.
Definition yrun (y : system) (ls : list label) : system := fold_left ystep ls y.

(** An installation after its migrations: no account, no token, nobody known. *)
Record uninhabited (db : DB) : Prop := {
  f_accounts : db_accounts db = ∅; f_totp : db_totp db = ∅; f_sessions : db_sessions db = ∅; f_proofs : db_proofs db = ∅;
  f_passwords : passwords db = ∅; f_challenges : challenges db = ∅; f_enrollments : enrollments db = ∅; f_codes : codes db = ∅;
  f_buckets : buckets db = ∅; f_bootstrap : bo_completed (bootstrap db) = false
}.
Definition installed (db : DB) : system := mkSystem db ∅ [].

(** ** Requests end *)

(** The transactions a request can still run. *)
Definition rank (st : stage) : nat :=
  match st with
  | SDone _ => 0
  | SLogin_reserve _ _ _ | SEnroll_reserve _ _ _ | SBootstrap_snapshot _ _ _ | SReauth_reserve _ _ _ _ _ => 3
  | SLogin_snapshot _ _ | SRecover_reserve _ _ | SEnroll_finish _ _ _ _ | SBootstrap_applied _ _ _ _ | SCreate_check _ _ _ _
  | SReauth_snapshot _ _ _ _ => 2
  | SPolicy_check _ _ _ _ _ _ | SReauth_check _ _ _ _ => 4
  | _ => 1
  end.

(** The stage after an outcome. *)
Definition landed (o : outcome stage) : option stage :=
  match o with Fail _ => None | Rollback st => Some st | Commit _ st => Some st end.
Lemma landed_map {A} (f : A -> stage) (o : outcome A) st :
  landed (map_outcome f o) = Some st -> exists a, st = f a.
Proof. destruct o; simpl; intros [= <-]; eauto. Qed.

Lemma login_verified_rank pw s e : (rank (login_verified IDKey v pw s e) <= 1)%nat.
Proof. unfold login_verified. destruct (snd _); [|simpl; lia]. destruct s; [case_if as E|]; simpl; lia. Qed.
Lemma bootstrap_hashed_rank hash u pw b e : (rank (bootstrap_hashed IDKey v hash u pw b e) <= 1)%nat.
Proof. unfold bootstrap_hashed. destruct (snd _); simpl; lia. Qed.

(** Every transaction of a request brings it nearer to its answer. *)
Lemma next_rank st e db st' : landed (next st e db) = Some st' -> rank st <> 0%nat -> (rank st' < rank st)%nat.
Proof.
  destruct st; cbn [flow.next]; unfold create_command; intros Hl Hne;
    try (apply landed_map in Hl as [x ->]; first [by (simpl; lia) | destruct x; simpl; lia]).
  - injection Hl as <-. pose proof (login_verified_rank password (snapshot user db) e). simpl. lia.
  - apply landed_map in Hl as [x ->]. unfold recover_matched. destruct (recovery_match _ _ _ _ _); simpl; lia.
  - apply landed_map in Hl as [x ->]. unfold begun. destruct (policyEnrollment s); [destruct (vault.ProvisioningBase32 _)|]; simpl; lia.
  - apply landed_map in Hl as [x ->]. unfold enroll_prepared. case_if as E; [simpl; lia|]. destruct (prepareRecovery _ _ _); simpl; lia.
  - apply landed_map in Hl as [x ->]. destruct (policyEnrollment s); simpl; lia.
  - destruct (bootstrap_snapshot _ _ _) as [b|]; [|done]. injection Hl as <-. pose proof (bootstrap_hashed_rank hash user password b e).
    destruct (installation _); simpl; lia.
  - destruct (setupApplied _); [|done]. injection Hl as <-. unfold bootstrap_hashed. destruct (snd _); simpl; lia.
  - destruct (create_check _ _ _ _ _ _ _) as [[]|]; [| |done]; injection Hl as <-; [destruct (snd _)|]; simpl; lia.
  - destruct (enrollment_bound _ _ _ _ _ _); [|done]. destruct (NewEnrollmentService _ _ _ _); [|done]. injection Hl as <-.
    destruct verify; simpl; lia.
  - destruct (loadSession _ _ _); [|done]. injection Hl as <-. simpl. lia.
  - destruct (reauth_check _ _ _ _ _ _); [|done]. injection Hl as <-. destruct peer as [ip|]; [destruct (sourceValue ip)|]; simpl; lia.
  - injection Hl as <-. destruct (snapshot _ _); [|simpl; lia]. unfold reauth_verified. destruct (snd _) as [[]|]; simpl; lia.
  - done.
Qed.

Lemma advance_rank f st e db : rank (snd (advance IDKey v f st e db)) = 0%nat \/ (rank (snd (advance IDKey v f st e db)) < rank st)%nat.
Proof.
  assert (rank (broken st) = 0%nat) as Hb by by destruct st.
  destruct (decide (rank st = 0%nat)) as [Hr|Hr].
  { left. destruct st; try done. by destruct f. }
  pose proof (next_rank st e db) as Hn. unfold advance.
  destruct (flow.next IDKey v st e db) as [er|st'|db' st'], f; cbn [landed snd] in *; auto.
Qed.

(** A request left alone with a database that others change and that fails at will. *)
Definition attempts (st : stage) (xs : list (fault * env * DB)) : stage :=
  fold_left (fun st x => snd (advance IDKey v (fst (fst x)) st (snd (fst x)) (snd x))) xs st.

Lemma attempts_rank st xs : (rank st <= List.length xs)%nat -> rank (attempts st xs) = 0%nat.
Proof.
  revert st. induction xs as [|[[f e] db] xs IH]; intros st Hl; simpl in *; [lia|]. apply IH.
  destruct (advance_rank f st e db); lia.
Qed.
Lemma start_rank e q : (rank (start v e q) <= 4)%nat.
Proof.
  destruct q; simpl; try lia; repeat (try (simpl; lia); case_match); simpl; lia.
Qed.


(** ** What the control plane leaves alone *)

(** What identifies a session and a proof: all but the last use. *)
Definition session_id (s : session_row) := (se_user s, se_policy s, se_version s, se_mfa s, se_created s, se_csrf s).
Definition proof_id (p : proof_row) := (pr_session p, pr_action p, pr_target p, pr_digest p, pr_created p, pr_expires p).

Record quiet (db db' : DB) : Prop := {
  q_tables : (db_policy db', db_accounts db', db_totp db', db_auth db') = (db_policy db, db_accounts db, db_totp db, db_auth db);
  q_sessions : session_id <$> db_sessions db' = session_id <$> db_sessions db;
  q_proofs : proof_id <$> db_proofs db' = proof_id <$> db_proofs db
}.

Lemma quiet_refl db : quiet db db.
Proof. by constructor. Qed.
Lemma quiet_trans db1 db2 db3 : quiet db1 db2 -> quiet db2 db3 -> quiet db1 db3.
Proof. intros [E1 E2 E3] [F1 F2 F3]. constructor; congruence. Qed.
Lemma quiet_side db db' : side db' = side db -> quiet db db'.
Proof. intros [= _ E1 E2 E3 E4 E5 E6]. constructor; congruence. Qed.
Lemma quiet_touch tok t db : quiet db (touch tok t db).
Proof.
  unfold touch. destruct (tokenHash tok) as [h|]; [|apply quiet_refl]. destruct (db_sessions db !! h) as [s|] eqn:E; [|apply quiet_refl].
  constructor; [done | | done]. simpl. rewrite fmap_insert. apply insert_id. by rewrite lookup_fmap, E.
Qed.
Lemma quiet_consumeReauth tok r action target raw t db db' : consumeReauth tok r action target raw t db = Ok db' -> quiet db db'.
Proof.
  intros (hash & p & _ & Hp & _ & ->)%consumeReauth_ok. constructor; [done | done |]. simpl. rewrite fmap_insert.
  apply insert_id. by rewrite lookup_fmap, Hp.
Qed.

(** The end of a command. *)
Lemma quiet_closed tok t actor key fp a row db : quiet db (touch tok t (remember actor key fp t a (log_audit db row))).
Proof. eapply quiet_trans; [|apply quiet_touch]. by constructor. Qed.

(** A command that commits: the stored answer, or its body in the transaction
    of the session that authorized it. *)
Lemma command_run s tok r raw action target etag body ck tk db db' a :
  command s tok r raw action target etag body ck tk db = Commit db' a ->
  (db' = db /\ Replay a = true) \/
  exists h st0 db2 current db3 res, tokenHash tok = Some h /\ loadSession h (t_session ck) db = Ok st0 /\ quiet db db2 /\
    (needs_proof action = true -> exists ph p, tokenHash (adminauth.Get r "X-Reauth-Token") = Some ph /\ db_proofs db !! ph = Some p /\
       pr_session p = h /\ pr_action p = action_text action /\ pr_target p = target) /\
    body db2 (mkSnapshot (account st0) (session st0) (policy st0) (csrf st0) (t_command ck)) current = Ok (db3, res) /\
    a = reply res /\ quiet db3 db'.
Proof.
  unfold command. do 3 (case_if as E; [done|]; clear E). destruct (beginCommand _ _ _ _ _ _ _) as [st|] eqn:Eb; [|done].
  destruct (readConfig db) as [current|]; [|done]. destruct (adminauth.CheckSession _ _ _ _); [|done]. cbn [account now].
  destruct (replayed _ _ _ _) as [[[[] x]|e]|] eqn:Er; try done.
  { intros [= <- <-]. left. split; [done|]. unfold replayed in Er. destruct (db_commands db !! _) as [c|]; [|done].
    repeat split_if; try done. by injection Er as <-. }
  case_if as E4; [done|]. fold (needs_proof action). set (db1 := set_commands _ _). assert (quiet db db1) as Hq1 by by constructor.
  destruct (if needs_proof action then _ else _) as [db2|] eqn:E5; [|done].
  destruct (body db2 _ current) as [[db3 res]|] eqn:Ebd; [|done]. case_if as E6; [done|]. intros [= <- <-]. right.
  unfold beginCommand in Eb. destruct (tokenHash tok) as [h|] eqn:Eh; [|done]. destruct (loadSession h _ db) as [st0|] eqn:El; [|done].
  destruct (adminauth.Requirement _ _) as [req|]; [|done]. destruct (adminauth.RequiresReauthentication req && _); [done|].
  destruct (adminauth.CheckMutation _ _ _) as [[]|]; [|done]. injection Eb as <-.
  exists h, st0, db2, current, db3, res. split_and!; try done; [| | apply quiet_closed].
  - eapply quiet_trans; [exact Hq1|]. destruct (needs_proof action); [by eapply quiet_consumeReauth | injection E5 as <-; apply quiet_refl].
  - intros Hn. rewrite Hn in E5. apply consumeReauth_ok in E5 as (ph & p & Hh & Hp & Hm & _). exists ph, p. rewrite Eh in Hm.
    unfold proof_matches in Hm. by to_prop.
Qed.

Lemma command_quiet s tok r raw action target etag body ck tk db db' a :
  (forall db st cur db' res, body db st cur = Ok (db', res) -> side db' = side db) ->
  command s tok r raw action target etag body ck tk db = Commit db' a -> quiet db db'.
Proof.
  intros Hbody [[-> _]|(h & st0 & db2 & cur & db3 & res & _ & _ & Hq & _ & Hb & _ & Hq3)]%command_run; [apply quiet_refl|].
  apply Hbody, quiet_side in Hb. eauto using quiet_trans.
Qed.
Lemma ReplaceDraft_quiet s tok r raw ck tk db db' a : ReplaceDraft s tok r raw ck tk db = Commit db' a -> quiet db db'.
Proof.
  unfold ReplaceDraft. do 4 (case_if as E; [done|]; clear E). destruct (beginCommand _ _ _ _ _ _ _) as [state|]; [|done].
  destruct (readConfig db) as [current|]; [|done]. destruct (adminauth.CheckSession _ _ _ _); [|done].
  destruct (replayed _ _ _ _) as [[[[] ?]|]|]; try done; [intros [= <- _]; apply quiet_refl|].
  case_if as E5; [done|]. destruct (check_draft _ _ _ _) as [nx|]; [case_if as E6; [done|]; case_if as E7; [done|]|];
    intros [= <- _]; (eapply quiet_trans; [|apply quiet_closed]); by constructor.
Qed.
Lemma sign_quiet s d g t db db' : sign s d g t db = Ok db' -> quiet db db'.
Proof. intros E%sign_side. by apply quiet_side. Qed.
Lemma finish_quiet {A} f db (o : outcome A) : (forall db' a, o = Commit db' a -> quiet db db') -> quiet db (fst (finish f db o)).
Proof. intros Hc. pose proof (quiet_refl db). destruct f, o; simpl; eauto. Qed.

(** The commands and workers of the control plane change no account, no token
    and no policy. *)
Lemma pexec_quiet s o f db : quiet db (pexec s o f db).
Proof.
  destruct o; simpl; apply finish_quiet; intros db' a'.
  - apply ReplaceDraft_quiet.
  - apply command_quiet. intros *. apply publish_body_side.
  - unfold Operate. destruct (if _ : bool then _ else _); [|done]. apply command_quiet. intros *. apply operate_body_side.
  - apply command_quiet. intros *. apply event_body_side.
  - unfold Refresh. destruct (readConfig db); [|done]. destruct (readDelivery db) as [[d g]|]; [|done].
    assert ((match sign s d g t db with Err e => Fail e | Ok db' => Commit db' tt end) = Commit db' a' -> quiet db db') as Hs.
    { destruct (sign _ _ _ _ _) as [db1|] eqn:Es; [|done]. intros [= <- _]. by eapply sign_quiet. }
    destruct (de_publication _) as [p|]; [|done]. case_if as E1; [done|]. destruct (envelope_kid _); [|done].
    case_if as E2; [intros [= <- _]; apply quiet_refl | done].
  - unfold Tick. destruct (readConfig db); [|done]. destruct (readDelivery db) as [[d g]|]; [|done].
    destruct (tick_rooms _ _ _ _ _ _ _ _) as [[[db1 d1] ch]|] eqn:Et; [|done]. apply tick_rooms_side, quiet_side in Et. case_if as E1.
    + by intros [= <- _].
    + destruct (sign _ _ _ _ _) as [db2|] eqn:Es; [|done]. intros [= <- _]. apply sign_quiet in Es. by eapply quiet_trans.
  - unfold Acknowledge. case_if as E1; [done|]. case_if as E2; [done|]. destruct (readDelivery db) as [[d g]|]; [|done].
    destruct (de_publication _) as [p|]; [|done]. case_if as E3; [done|]. case_if as E4; [done|]. case_if as E5; [done|].
    intros [= <- _]. apply quiet_side. apply (auditRecovery_side node (nRooms a) ids db).
  - unfold RecoverClock. case_if as E1; [done|]. case_if as E2; [done|]. destruct (readConfig db); [|done].
    destruct (readDelivery db) as [[d g]|]; [|done]. destruct (de_publication _) as [p|]; [|done].
    case_if as E3; [done|]. case_if as E4; [intros [= <- _]; apply quiet_refl|]. case_if as E5; [done|].
    destruct (sign _ _ _ _ _) as [db1|] eqn:Es; [|done]. intros [= <- _]. apply sign_quiet in Es. eapply quiet_trans; [exact Es|]. by constructor.
Qed.
End histories.
