(* ===== verification/AccountSessions.v ===== *)
(** * Sessions are earned

    The central theorem on accounts: a session the control plane accepts was
    opened by somebody who gave the password of the account under its present
    version and, while the policy asks for one, a second factor; through every
    interleaving of requests, lost answers and changes of accounts and policy. *)

From S2P Require Import Prelude GoStd Keyring Control ConfigTrust AdminAuth Vault Password Publication CommandProps DataNode Origin Accounts Security AccountFlow AccountProps.
From stdpp Require Import base list gmap strings sorting pretty.
From Stdlib Require Import ZArith Lia Ascii String.
Import pgstore accounts security flow.
Local Open Scope Z_scope.

Section sessions.
Context `{Sha256} `{HmacSha256} `{adminauth.HmacSha1} `{AEAD}.
Context `{Codec control.Config} `{Codec control.Delivery} `{Codec configtrust.Snapshot} `{Codec configtrust.envelope} `{Ed25519}.
Context `{Wire} `{AccountWire}.
Context (IDKey : string -> string -> Z -> string) (v : services).

(** ** Evidence *)

(** A password, or a recovery code, was verified against a stored hash. *)
Definition verified (password stored : string) : Prop :=
  exists k, snd (password.Verify IDKey (l_passwords (v_login v)) k password stored) = Ok true.

(** Somebody who knew the password of [user], at version [uv] of the account,
    came to hold the token with hash [h]: by a login, as the first
    administrator, by completing a login or an enrolment, or by a command of a
    session that was earned. *)
Inductive earned (log : list event) (user : string) (uv : Z) : string -> Prop :=
  | earned_login before password h : ELogin before password h ∈ log -> s_user before = user -> s_userVersion before = uv ->
      verified password (s_hash before) -> earned log user uv h
  | earned_first h : EFirst user h ∈ log -> uv = 1 -> earned log user uv h
  | earned_code ref c by_ h : earned log user uv by_ -> ECode ref c by_ h ∈ log -> adminauth.UserID ref = user -> earned log user uv h
  | earned_recovery ref slot stored code by_ h : earned log user uv by_ -> ERecovery ref slot stored code by_ h ∈ log ->
      adminauth.UserID ref = user -> earned log user uv h
  | earned_command by_ proof h : earned log user uv by_ -> ECommand by_ proof h ∈ log -> earned log user uv h.

(** A second factor of [user] opened the session: a code of a credential, a
    recovery code that matches its hash, or a command on the policy whose proof
    was made with a code. *)
Definition factor (log : list event) (user h : string) : Prop :=
  (exists ref c by_, ECode ref c by_ h ∈ log /\ adminauth.UserID ref = user) \/
  (exists ref slot stored code by_, ERecovery ref slot stored code by_ h ∈ log /\ adminauth.UserID ref = user /\
     verified ("wr-recovery-v1:" +:+ code) stored) \/
  (exists by_ proof ref c, ECommand by_ proof h ∈ log /\ ECode ref c by_ proof ∈ log /\ adminauth.UserID ref = user).

Lemma earned_mono log log' user uv h : log ⊆ log' -> earned log user uv h -> earned log' user uv h.
Proof. intros Hl. induction 1; [eapply earned_login | eapply earned_first | eapply earned_code | eapply earned_recovery | eapply earned_command]; eauto. Qed.
Lemma factor_mono log log' user h : log ⊆ log' -> factor log user h -> factor log' user h.
Proof.
  intros Hl [(ref & c & b & Hc & Hu)|[(ref & sl & st & co & b & Hc & Hu & Hv)|(b & p & ref & c & Hc & Hp & Hu)]].
  - left. exists ref, c, b. auto.
  - right. left. exists ref, sl, st, co, b. auto.
  - right. right. exists b, p, ref, c. auto.
Qed.

(** ** The invariant *)

Definition session_ok (log : list event) (p : adminauth.AuthPolicy) (h : string) (s : session_row) : Prop :=
  earned log (se_user s) (se_version s) h /\ (se_mfa s = true -> factor log (se_user s) h) /\
  (se_policy s = adminauth.Version p -> adminauth.TOTPEnabled p = true -> se_mfa s = true).

(** A proof for a change of the policy was made with a code of the session's user. *)
Definition proof_ok (log : list event) (sessions : gmap string session_row) (h : string) (p : proof_row) : Prop :=
  exists s, sessions !! pr_session p = Some s /\
    (pr_action p = action_text adminauth.WriteTOTPPolicy -> pr_target p = "totp" ->
       exists ref c, ECode ref c (pr_session p) h ∈ log /\ adminauth.UserID ref = se_user s).

Record acc_inv (log : list event) (db : DB) : Prop := {
  ai_sessions : map_Forall (session_ok log (db_policy db)) (db_sessions db);
  ai_challenges : map_Forall (fun h r => earned log (ch_user r) (ch_version r) h) (challenges db);
  ai_enrollments : map_Forall (fun h r => earned log (en_user r) (en_version r) h) (enrollments db);
  ai_proofs : map_Forall (proof_ok log (db_sessions db)) (db_proofs db)
}.

Definition stage_ok (st : stage) : Prop :=
  match st with
  | SLogin_finish before password => verified password (s_hash before)
  | SRecover_finish attempt slot code => verified ("wr-recovery-v1:" +:+ code) (rc_hash (record_of attempt slot))
  | _ => True
  end.

Lemma acc_inv_mono log log' db : log ⊆ log' -> acc_inv log db -> acc_inv log' db.
Proof.
  intros Hl [Hs Hc He Hp]. constructor; intros k r Hk.
  - destruct (Hs k r Hk) as (H1' & H2' & H3'). split_and!; [by eapply earned_mono | intros; eapply factor_mono; eauto | done].
  - eapply earned_mono; [done|]. by apply (Hc k).
  - eapply earned_mono; [done|]. by apply (He k).
  - destruct (Hp k r Hk) as (s & Hs' & Hc'). exists s. split; [done|]. intros Ha Ht. destruct (Hc' Ha Ht) as (ref & c & ? & ?). eauto.
Qed.

(** ** How the tables change *)


Lemma lookup_keep {K V} `{Countable K} (f : K -> V -> bool) (m : gmap K V) k r : keep f m !! k = Some r <-> m !! k = Some r /\ f k r = true.
Proof. unfold keep. by rewrite map_lookup_filter_Some. Qed.

(** A transaction that leaves the four tables and the policy alone. *)
Definition core (db : DB) := (db_policy db, db_sessions db, challenges db, enrollments db, db_proofs db).
Lemma acc_inv_core log db db' : core db' = core db -> acc_inv log db -> acc_inv log db'.
Proof. intros [= E1 E2 E3 E4 E5] [Hs Hc He Hp]. constructor; rewrite ?E1, ?E2, ?E3, ?E4, ?E5; done. Qed.

Lemma auditAuth_ok s u a r i db db' : auditAuth s u a r i db = Ok db' -> db' = db \/ exists row, db' = log_audit db row.
Proof.
  unfold auditAuth. case_if as E1; [intros [= <-]; by left|]. case_if as E2; [done|]. case_if as E3; [intros [= <-]; eauto|].
  destruct (db_accounts db !! u); [|done]. intros [= <-]. eauto.
Qed.
Lemma acc_inv_audit log s u a r i db db' : auditAuth s u a r i db = Ok db' -> acc_inv log db -> acc_inv log db'.
Proof. intros [-> | [row ->]]%auditAuth_ok; [done|]. by apply acc_inv_core. Qed.

Lemma acc_inv_challenges log db m :
  acc_inv log db -> map_Forall (fun h r => earned log (ch_user r) (ch_version r) h) m -> acc_inv log (set_challenges db m).
Proof. intros [Hs Hc He Hp] Hm. by constructor. Qed.
Lemma acc_inv_enrollments log db m x :
  acc_inv log db -> map_Forall (fun h r => earned log (en_user r) (en_version r) h) m -> acc_inv log (set_enrollments db m x).
Proof. intros [Hs Hc He Hp] Hm. by constructor. Qed.

Lemma acc_inv_insert log sh ch user pv uv mfa t db db' :
  insert_session sh ch user pv uv mfa t db = Ok db' -> acc_inv log db ->
  session_ok log (db_policy db) sh (mkSessionRow user pv uv mfa t t ch) -> acc_inv log db'.
Proof.
  unfold insert_session. destruct (db_sessions db !! sh) eqn:E; [done|]. intros [= <-] [Hs Hc He Hp] Hr.
  constructor; [by apply map_Forall_insert_2 | done | done |]. intros h p Hh. destruct (Hp h p Hh) as (s & Hs' & Hx). exists s.
  split; [|done]. simpl. rewrite lookup_insert_ne; [done|]. intros ->. congruence.
Qed.

Lemma acc_inv_delete log f db : acc_inv log db -> acc_inv log (delete_sessions f db).
Proof.
  intros [Hs Hc He Hp]. constructor; [| done | done |].
  - intros h s [Hh _]%lookup_keep. by apply (Hs h).
  - intros h p [Hh Hg]%lookup_keep. destruct (Hp h p Hh) as (s & Hs' & Hx). exists s. split; [|done].
    apply lookup_keep. split; [done|]. unfold gone in Hg. by rewrite Hs' in Hg.
Qed.

Lemma acc_inv_proofs log db m :
  acc_inv log db -> map_Forall (proof_ok log (db_sessions db)) m -> acc_inv log (set_proofs db m).
Proof. intros [Hs Hc He Hp] Hm. by constructor. Qed.

Lemma spend_challenges_ok log u m :
  map_Forall (fun h r => earned log (ch_user r) (ch_version r) h) m -> map_Forall (fun h r => earned log (ch_user r) (ch_version r) h) (spend_challenges u m).
Proof. intros Hm h r. unfold spend_challenges. rewrite lookup_fmap_Some. intros (r' & <- & Hr). specialize (Hm h r' Hr). by case_if as E. Qed.
Lemma spend_enrollments_ok log f m :
  map_Forall (fun h r => earned log (en_user r) (en_version r) h) m -> map_Forall (fun h r => earned log (en_user r) (en_version r) h) (spend_enrollments f m).
Proof. intros Hm h r. unfold spend_enrollments. rewrite lookup_fmap_Some. intros (r' & <- & Hr). specialize (Hm h r' Hr). by case_if as E. Qed.

(** ** The transactions *)

Lemma issueEnrollment_inv log user pv uv t e db db' x :
  acc_inv log db -> earned log user uv (snd (token e 0)) -> issueEnrollment user pv uv t e db = Ok (db', x) -> acc_inv log db'.
Proof.
  intros Hi He. unfold issueEnrollment, insert_enrollment. destruct (token e 0) as [raw hash]. cbn [snd] in He.
  case_row hash; [done|]. intros [= <- _]. apply acc_inv_enrollments.
  - apply acc_inv_enrollments; [done|]. apply spend_enrollments_ok, Hi.
  - apply map_Forall_insert_2; [done|]. apply spend_enrollments_ok, Hi.
Qed.
Lemma issueSession_inv log user pv uv mfa t e db db' g :
  acc_inv log db -> session_ok log (db_policy db) (snd (token e 0)) (mkSessionRow user pv uv mfa t t (snd (token e 1))) ->
  issueSession user pv uv mfa t 0 e db = Ok (db', g) -> acc_inv log db'.
Proof.
  intros Hi Hr. unfold issueSession. destruct (token e 0) as [raw hash], (token e 1) as [raw' hash']. cbn [snd] in Hr.
  destruct (insert_session _ _ _ _ _ _ _ _) as [db1|] eqn:E; [|done]. intros [= <- _]. by eapply acc_inv_insert.
Qed.

Lemma unchanged_ok before a c p : unchanged before a c p = true ->
  ac_enabled a = true /\ ac_version a = s_userVersion before /\ pw_hash c = s_hash before.
Proof. unfold unchanged. intros. by to_prop. Qed.

Lemma finishPassword_inv log l before pw e db db' r :
  acc_inv log db -> ELogin before pw (snd (token e 0)) ∈ log -> verified pw (s_hash before) ->
  finishPassword l before e db = Commit db' r -> acc_inv log db'.
Proof.
  intros Hi Hl Hv. unfold finishPassword. case_if as E1; [done|]. destruct (db_accounts db !! _) as [a|]; [|done].
  destruct (passwords db !! _) as [c|]; [|done]. case_if as E2; [done|]. apply negb_false_iff, unchanged_ok in E2 as (_ & Ev & _).
  assert (earned log (s_user before) (ac_version a) (snd (token e 0))) as He by (by eapply earned_login).
  destruct (adminauth.TOTPEnabled (db_policy db)) eqn:Et.
  - destruct (db_totp db !! _) as [cred|].
    + destruct (token e 0) as [raw hash]. cbn [snd] in He. unfold insert_challenge. case_row hash; [done|].
      destruct (auditAuth _ _ _ _ _ _) as [db1|] eqn:Ea; [|done]. intros [= <- _]. eapply acc_inv_audit; [exact Ea|].
      apply acc_inv_challenges; [apply acc_inv_challenges; [done|] | apply map_Forall_insert_2; [done|]]; apply spend_challenges_ok, Hi.
    + destruct (issueEnrollment _ _ _ _ _ _) as [[db1 x]|] eqn:Ei; [|done]. cbn [fst snd].
      destruct (auditAuth _ _ _ _ _ _) as [db2|] eqn:Ea; [|done]. intros [= <- _]. eapply acc_inv_audit; [exact Ea|]. by eapply issueEnrollment_inv.
  - destruct (issuePasswordSession _ _ _ _ _ _) as [[db1 g]|] eqn:Ei; [|done]. cbn [fst snd].
    destruct (auditAuth _ _ _ _ _ _) as [db2|] eqn:Ea; [|done]. intros [= <- _]. eapply acc_inv_audit; [exact Ea|].
    eapply issueSession_inv; [done | | exact Ei]. split_and!; [done | done | congruence].
Qed.

Lemma finishBootstrap_inv log l hash user pw before e db db' r :
  acc_inv log db -> EFirst user (snd (token e 0)) ∈ log -> finishBootstrap l hash user pw before e db = Commit db' r -> acc_inv log db'.
Proof.
  intros Hi Hl. assert (earned log user 1 (snd (token e 0))) as He by (by eapply earned_first).
  unfold finishBootstrap. do 5 (case_if as E; [done|]; clear E).
  set (db1 := set_passwords _ _). assert (acc_inv log db1) as Hi1 by (by apply (acc_inv_core _ db)).
  assert (db_policy db1 = db_policy db) as Ep by done. clearbody db1.
  destruct (adminauth.TOTPEnabled (db_policy db)) eqn:Et.
  - destruct (issueEnrollment _ _ _ _ _ _) as [[db2 x]|] eqn:Ei; [|done]. cbn [fst snd].
    destruct (auditAuth _ _ _ _ _ _) as [db3|] eqn:Ea; [|done]. intros [= <- _]. eapply acc_inv_audit; [exact Ea|].
    apply (acc_inv_core _ db2); [done|]. by eapply issueEnrollment_inv.
  - destruct (issuePasswordSession _ _ _ _ _ _) as [[db2 g]|] eqn:Ei; [|done]. cbn [fst snd].
    destruct (auditAuth _ _ _ _ _ _) as [db3|] eqn:Ea; [|done]. intros [= <- _]. eapply acc_inv_audit; [exact Ea|].
    apply (acc_inv_core _ db2); [done|]. eapply issueSession_inv; [done | | exact Ei]. rewrite Ep. split_and!; [done | done | cbn; congruence].
Qed.

Lemma verify_and_consume_ok consume ref secret code now db db' u :
  verify_and_consume consume ref secret code now db = (db', Ok u) ->
  exists c, adminauth.matchCounter secret code now = (c, true) /\ consume db ref c = (db', Ok true).
Proof.
  unfold verify_and_consume, adminauth.VerifyAndConsume. case_if as E; [done|].
  destruct (adminauth.matchCounter secret code now) as [c []]; [|done]. cbn [adminauth.ConsumeCounter].
  destruct (consume db ref c) as [db1 [[]|]] eqn:Ec; try done. intros [= <- _]. eauto.
Qed.

(** A challenge that opens a session by a second factor. *)
Lemma factor_session log p user uv by_ h t t' ch :
  earned log user uv by_ ->
  ((exists ref c, ECode ref c by_ h ∈ log /\ adminauth.UserID ref = user) \/
   (exists ref slot stored code, ERecovery ref slot stored code by_ h ∈ log /\ adminauth.UserID ref = user /\
      verified ("wr-recovery-v1:" +:+ code) stored)) ->
  session_ok log p h (mkSessionRow user (adminauth.Version p) uv true t t' ch).
Proof.
  intros He [(ref & c & Hc & Hu)|(ref & slot & stored & code & Hc & Hu & Hv)]; split_and!; try done.
  - by eapply earned_code.
  - intros _. left. eauto.
  - by eapply earned_recovery.
  - intros _. right. left. by exists ref, slot, stored, code, by_.
Qed.

Lemma consume_challenge_ok log hash low high t t' m m' :
  consume_challenge hash low high t t' m = Some m' -> map_Forall (fun h r => earned log (ch_user r) (ch_version r) h) m ->
  map_Forall (fun h r => earned log (ch_user r) (ch_version r) h) m'.
Proof.
  unfold consume_challenge. destruct (m !! hash) as [r|] eqn:E; [|done]. case_if as E1; [|done]. intros [= <-] Hm.
  apply map_Forall_insert_2; [exact (Hm hash r E) | done].
Qed.

Lemma login_ConsumeCounter_inv log c db ref n db' :
  acc_inv log db -> c_policy c = adminauth.Version (db_policy db) ->
  earned log (adminauth.UserID ref) (c_userVersion c) (c_challenge c) -> ECode ref n (c_challenge c) (c_session c) ∈ log ->
  login_ConsumeCounter c db ref n = (db', Ok true) -> acc_inv log db'.
Proof.
  intros Hi Ep He Hc. unfold login_ConsumeCounter. case_if as E1; [done|]. destruct (advance_counter _ _ _) as [m|]; [|done].
  destruct (consume_challenge _ _ _ _ _ _) as [chs|] eqn:Ech; [|done].
  destruct (insert_session _ _ _ _ _ _ _ _) as [db1|] eqn:Ei; [|done].
  destruct (auditAuth _ _ _ _ _ _) as [db2|] eqn:Ea; [|done]. intros [= <-]. eapply acc_inv_audit; [exact Ea|].
  eapply acc_inv_insert; [exact Ei | |].
  - apply acc_inv_challenges; [by apply (acc_inv_core _ db)|]. eapply consume_challenge_ok; [exact Ech|]. apply Hi.
  - rewrite Ep. eapply factor_session; [exact He|]. left. eauto.
Qed.

Lemma CompleteTOTP_inv log challenge code e db db' r st' :
  acc_inv log db -> st' = answered AGrant r -> proved v (STotp challenge code) e db db' st' ⊆ log ->
  CompleteTOTP (store_ v) challenge code e db = Commit db' r -> acc_inv log db'.
Proof.
  intros Hi -> Hl. unfold CompleteTOTP. unfold proved in Hl. destruct (tokenHash challenge) as [hash|]; [|done].
  case_if as E1; [done|]. case_if as E2; [done|]. destruct (challenges db !! hash) as [ch|] eqn:Ech; [|done].
  destruct (db_accounts db !! _) as [a|]; [|done]. case_if as E3; [done|]. destruct (db_totp db !! _) as [cred|] eqn:Ec; [|done].
  case_if as E4; [done|]. destruct (vault.open _ _ _ _) as [secret|] eqn:Eo; [|done].
  pose proof (ai_challenges _ _ Hi hash ch Ech) as He. destruct (token e 0) as [raw sh] eqn:Et0, (token e 1) as [raw1 sh1]. to_prop.
  destruct (verify_and_consume _ _ _ _ _ _) as [db1 [u|er]] eqn:Ev.
  - intros [= <- <-]. apply verify_and_consume_ok in Ev as (n & Em & Ev). cbn [answered code_event] in Hl. rewrite Em in Hl.
    eapply login_ConsumeCounter_inv; [exact Hi | | | | exact Ev]; cbn [c_policy c_userVersion c_challenge c_session adminauth.UserID]; [done | congruence |].
    apply Hl. cbn. by left.
  - destruct er; try done. destruct (if _ : bool then _ else _) as [action res].
    destruct (auditAuth _ _ _ _ _ _) as [db2|] eqn:Ea; [|done]. intros [= <- _]. eapply acc_inv_audit; [exact Ea|].
    apply acc_inv_challenges; [done|]. apply map_Forall_insert_2; [done | apply Hi].
Qed.

Lemma acc_inv_quiet log db db' : quiet db db' -> acc_inv log db -> acc_inv log db'.
Proof.
  intros [[= E1 _ _ E2] Es Ep] [Hs Hc He Hp].
  assert (forall h s', db_sessions db' !! h = Some s' -> exists s, db_sessions db !! h = Some s /\ session_id s = session_id s') as Hback.
  { intros h s' Hh. apply (f_equal (fun m => m !! h)) in Es. rewrite !lookup_fmap, Hh in Es.
    destruct (db_sessions db !! h) as [s|]; [|done]. exists s. split; [done|]. cbn in Es. congruence. }
  assert (forall h s, db_sessions db !! h = Some s -> exists s', db_sessions db' !! h = Some s' /\ se_user s' = se_user s) as Hforth.
  { intros h s' Hh. apply (f_equal (fun m => m !! h)) in Es. rewrite !lookup_fmap, Hh in Es.
    destruct (db_sessions db' !! h) as [s|]; [|done]. exists s. split; [done|]. unfold session_id in Es. cbn in Es. congruence. }
  constructor.
  - intros h s' (s & Hh & [= E3 E4 E5 E6 _ _])%Hback. unfold session_ok. rewrite E1, <- E3, <- E4, <- E5, <- E6. exact (Hs h s Hh).
  - unfold challenges. by rewrite E2.
  - unfold enrollments. by rewrite E2.
  - intros h p' Hh. apply (f_equal (fun m => m !! h)) in Ep. rewrite !lookup_fmap, Hh in Ep.
    destruct (db_proofs db !! h) as [p|] eqn:Eh; [|done]. injection Ep as E3 E4 E5 _ _ _. destruct (Hp h p Eh) as (s & Hsn & Hx).
    destruct (Hforth _ _ Hsn) as (s' & Hs' & Eu). exists s'. rewrite E3, E4, E5, Eu. done.
Qed.

(** What a loaded session says. *)
Lemma loadSession_row h t db st : loadSession h t db = Ok st ->
  exists row a, db_sessions db !! h = Some row /\ db_accounts db !! se_user row = Some a /\ policy st = db_policy db /\ now st = t /\
    adminauth.aID (account st) = se_user row /\ adminauth.aSessionVersion (account st) = ac_version a /\
    adminauth.aRole (account st) = ac_role a /\ adminauth.aEnabled (account st) = ac_enabled a /\
    se_version row = ac_version a /\ se_policy row = adminauth.Version (db_policy db) /\ ac_enabled a = true /\
    (adminauth.TOTPEnabled (db_policy db) = true -> se_mfa row = true /\ is_Some (db_totp db !! se_user row)).
Proof.
  unfold loadSession. case_if as E1; [done|]. destruct (db_sessions db !! h) as [row|]; [|done].
  destruct (db_accounts db !! se_user row) as [a|] eqn:Ea; [|done]. case_if as E2; [done|].
  destruct (adminauth.CheckSession _ _ _ _) as [[]|] eqn:Ec; [|done]. intros [= <-]. exists row, a.
  unfold adminauth.CheckSession in Ec. destruct (adminauth.session_bound _ _ _) eqn:Eb; [|done].
  unfold adminauth.session_bound in Eb. cbn in Eb. to_prop. split_and!; try done. intros Ht. rewrite Ht in Ec.
  revert Ec. case_if as E3; [done|]. cbn. case_if as E4; [done|]. to_prop. done.
Qed.

(** ** Recovery and enrolment *)

Lemma loadRecovery_ok log hash t db st : acc_inv log db -> loadRecovery hash t db = Ok st ->
  v_challenge st = hash /\ earned log (adminauth.UserID (v_ref st)) (v_userVersion st) hash /\ v_policy st = adminauth.Version (db_policy db).
Proof.
  intros Hi. unfold loadRecovery. case_if as E1; [done|]. case_if as E2; [done|]. destruct (challenges db !! hash) as [ch|] eqn:Ech; [|done].
  destruct (db_accounts db !! _) as [a|]; [|done]. case_if as E3; [done|]. destruct (db_totp db !! _) as [cred|]; [|done].
  case_if as E4; [done|]. intros [= <-]. to_prop. split_and!; try done. simpl.
  pose proof (ai_challenges _ _ Hi hash ch Ech) as He. cbn in He. by match goal with E : ch_version ch = _ |- _ => rewrite E in He end.
Qed.

Lemma recovery_reserve_inv log hash e db db' a : acc_inv log db -> recovery_reserve hash e db = Commit db' a -> acc_inv log db'.
Proof.
  intros Hi. unfold recovery_reserve. destruct (loadRecovery _ _ _) as [st|]; [|done]. case_if as E1; [done|].
  destruct (code_records _ _); [|done]. destruct (challenges db !! hash) as [ch|] eqn:Ech; [|done]. case_if as E2; [done|].
  intros [= <- _]. apply acc_inv_challenges; [done|]. apply map_Forall_insert_2; [exact (ai_challenges _ _ Hi hash ch Ech) | apply Hi].
Qed.

Lemma recovery_finish_inv log attempt slot code e db db' g :
  acc_inv log db -> verified ("wr-recovery-v1:" +:+ code) (rc_hash (record_of attempt slot)) ->
  ERecovery (v_ref (a_state attempt)) slot (rc_hash (record_of attempt slot)) code (v_challenge (a_state attempt)) (snd (token e 0)) ∈ log ->
  recovery_finish (store_ v) attempt slot e db = Commit db' g -> acc_inv log db'.
Proof.
  intros Hi Hv Hl. unfold recovery_finish. case_if as E1; [done|]. destruct (loadRecovery _ _ _) as [st|] eqn:El; [|done].
  case_if as E2; [done|]. to_prop. destruct (loadRecovery_ok _ _ _ _ _ Hi El) as (Eh & He & Ep).
  destruct (codes db !! _) as [r|]; [|done]. case_if as E3; [done|].
  destruct (token e 0) as [raw sh], (token e 1) as [raw1 ch1]. cbn [snd] in Hl.
  destruct (commitRecovery _ _ _ _ _ _ _) as [db1|] eqn:Ec; [|done]. intros [= <- _]. revert Ec. unfold commitRecovery.
  destruct (codes db !! _) as [r'|]; [|done]. case_if as E4; [done|]. destruct (consume_challenge _ _ _ _ _ _) as [chs|] eqn:Ech; [|done].
  destruct (insert_session _ _ _ _ _ _ _ _) as [db2|] eqn:Ei; [|done]. intros Ea. eapply acc_inv_audit; [exact Ea|].
  eapply acc_inv_insert; [exact Ei | |].
  - apply acc_inv_challenges; [by apply (acc_inv_core _ db)|]. eapply consume_challenge_ok; [exact Ech|]. apply Hi.
  - replace (v_policy (a_state attempt)) with (adminauth.Version (db_policy db)) by congruence. simpl.
    eapply factor_session; [|right; eexists _, _, _, _; by split_and!].
    replace (v_ref (a_state attempt)) with (v_ref st) by congruence. by replace (v_userVersion (a_state attempt)) with (v_userVersion st) by congruence.
Qed.

Lemma loadEnrollment_ok log hash pe e db st : acc_inv log db -> loadEnrollment hash pe e db = Ok st ->
  earned log (adminauth.UserID (n_ref st)) (adminauth.RVersion (n_ref st)) hash /\ n_policy st = adminauth.Version (db_policy db) /\
  exists r, enrollments db !! hash = Some r /\ default ("", "") (en_secret r) = (n_kid st, n_sealed st) /\ n_now st = ck e 4.
Proof.
  intros Hi. unfold loadEnrollment. case_if as E1; [done|]. case_if as E2; [done|]. destruct (enrollments db !! hash) as [r|] eqn:Er; [|done].
  destruct (db_accounts db !! _) as [a|]; [|done]. case_if as E3; [done|]. destruct (db_totp db !! _) as [cred|]; [done|].
  case_if as E4; [done|]. destruct (default ("", "") (en_secret r)) as [kid sealed] eqn:Es. intros [= <-]. to_prop. simpl.
  split_and!; [exact (ai_enrollments _ _ Hi hash r Er) | done | by exists r].
Qed.

Lemma update_enrollment_inv log hash f t db db' :
  (forall r, en_user (f r) = en_user r /\ en_version (f r) = en_version r) -> acc_inv log db -> update_enrollment hash f t db = Some db' -> acc_inv log db'.
Proof.
  intros Hf Hi. unfold update_enrollment. destruct (enrollments db !! hash) as [r|] eqn:Er; [|done]. case_if as E1; [|done]. intros [= <-].
  apply acc_inv_enrollments; [done|]. destruct (Hf r) as [E2 E3]. apply map_Forall_insert_2; [|apply Hi].
  rewrite E2, E3. exact (ai_enrollments _ _ Hi hash r Er).
Qed.

Lemma Begin_inv log s tok e db db' x : acc_inv log db -> Begin s tok e db = Commit db' x -> acc_inv log db'.
Proof.
  intros Hi. unfold Begin. destruct (tokenHash tok) as [hash|]; [|done]. destruct (loadEnrollment _ _ _ _) as [st|]; [|done].
  case_if as E1; [done|]. case_if as E2.
  - destruct (of_auth _) as [sealed|]; [|done]. destruct (update_enrollment _ _ _ _) as [db1|] eqn:Eu; [|done]. intros [= <- _].
    by eapply update_enrollment_inv in Eu.
  - destruct (of_auth _) as [secret|]; [|done]. by intros [= <- _].
Qed.
Lemma enrollment_reserve_inv log s hash e db db' a : acc_inv log db -> enrollment_reserve s hash e db = Commit db' a -> acc_inv log db'.
Proof.
  intros Hi. unfold enrollment_reserve. destruct (loadEnrollment _ _ _ _) as [st|]; [|done]. case_if as E1; [done|].
  destruct (update_enrollment _ _ _ _) as [db1|] eqn:Eu; [|done]. intros [= <- _]. by eapply update_enrollment_inv in Eu.
Qed.

Lemma enrollment_ConsumeCounter_inv log c db ref n db' :
  acc_inv log db -> ea_policy (k_attempt c) = adminauth.Version (db_policy db) ->
  earned log (adminauth.UserID ref) (adminauth.RVersion ref) (ea_hash (k_attempt c)) -> ECode ref n (ea_hash (k_attempt c)) (k_session c) ∈ log ->
  enrollment_ConsumeCounter c db ref n = (db', Ok true) -> acc_inv log db'.
Proof.
  intros Hi Ep He Hl. unfold enrollment_ConsumeCounter. case_if as E1; [done|]. destruct (enrollments db !! _) as [r|]; [|done].
  case_if as E2; [done|]. destruct (db_totp db !! _); [done|]. destruct (insert_codes _ _ _ _) as [cs|]; [|done].
  destruct (insert_session _ _ _ _ _ _ _ _) as [db5|] eqn:Ei; [|done]. destruct (auditAuth _ _ _ _ _ _) as [db6|] eqn:Ea; [|done].
  intros [= <-]. eapply acc_inv_audit; [exact Ea|]. eapply acc_inv_insert; [exact Ei | |].
  - assert (acc_inv log (delete_sessions (fun _ s => String.eqb (se_user s) (adminauth.UserID ref))
      (set_codes (set_totp db (<[adminauth.UserID ref := mkTOTPRow (adminauth.RVersion ref) (k_keyID c) (k_sealed c) n]> (db_totp db))) cs))) as Hd
      by (apply acc_inv_delete; by apply (acc_inv_core _ db)).
    apply acc_inv_enrollments; [apply acc_inv_challenges; [exact Hd|]; apply spend_challenges_ok, Hi | apply spend_enrollments_ok, Hi].
  - rewrite Ep. eapply factor_session; [exact He|]. left. eauto.
Qed.

Lemma enrollment_finish_inv log s attempt code b e db db' g st' :
  acc_inv log db -> proved v (SEnroll_finish s attempt code b) e db db' st' ⊆ log ->
  enrollment_finish s attempt code b e db = Commit db' g -> acc_inv log db'.
Proof.
  intros Hi Hl. unfold enrollment_finish. unfold proved in Hl. destruct (loadEnrollment _ _ _ _) as [st|] eqn:El; [|done].
  destruct (loadEnrollment_ok _ _ _ _ _ _ Hi El) as (He & Ep & r & Er & Es & En). case_if as E1; [done|]. to_prop.
  rewrite Er, Es in Hl. match goal with E : n_ref st = ea_ref attempt |- _ => rewrite E in * end.
  destruct (vault.openEnrollment _ _ _ _ _) as [secret|] eqn:Eo; [|done]. cbn [of_auth].
  destruct (of_auth _) as [sealed|]; [|done]. destruct (token e 0) as [raw sh], (token e 1) as [raw1 ch].
  destruct (verify_and_consume _ _ _ _ _ _) as [db1 [u|er]] eqn:Ev; [|done]. intros [= <- _].
  apply verify_and_consume_ok in Ev as (n & Em & Ev). rewrite En in Em. cbn [code_event] in Hl. rewrite Em in Hl.
  eapply enrollment_ConsumeCounter_inv in Ev; [exact Ev | exact Hi | cbn; congruence | exact He |]. apply Hl. cbn. by left.
Qed.

(** ** Sessions and commands *)

Lemma run_inv log s tok r op e db db' w : acc_inv log db -> run s tok r op e db = Commit db' w -> acc_inv log db'.
Proof.
  intros Hi. unfold run. destruct (tokenHash tok) as [h|]; [|done]. destruct op.
  { destruct (loadSession _ _ _); [|done]. by intros [= <- _]. }
  all: destruct r as [r|]; [|done]; case_if as E1; [done|]; destruct (loadSession _ _ _) as [st|]; [|done];
    destruct (adminauth.CheckMutation _ _ _); [|done].
  - destruct (touch_session _ _ _) as [db1|] eqn:Et; [|done]. intros [= <- _]. revert Et. unfold touch_session.
    destruct (db_sessions db !! h) as [row|] eqn:Er; [|done]. case_if as E2; [|done]. intros [= <-]. eapply acc_inv_quiet; [|exact Hi].
    constructor; [done | | done]. simpl. rewrite fmap_insert. apply insert_id. by rewrite lookup_fmap, Er.
  - destruct (auditAuth _ _ _ _ _ _) as [db1|] eqn:Ea; [|done]. intros [= <- _]. eapply acc_inv_audit; [exact Ea|]. by apply acc_inv_delete.
Qed.

Lemma LogoutReplay_inv log s tok r e db db' b : acc_inv log db -> LogoutReplay s tok r e db = Commit db' b -> acc_inv log db'.
Proof.
  intros Hi. unfold LogoutReplay. destruct r as [r|]; [|done]. case_if as E1; [done|]. case_if as E2.
  { unfold Logout. destruct (run _ _ _ _ _ _) as [| |db1 w] eqn:Er; try done. intros [= <- _]. by eapply run_inv. }
  case_if as E3; [done|]. destruct (tokenHash tok) as [h|]; [|done]. destruct (logout_replay _ _ _ _ _ _ _) as [[]|]; try done.
  destruct (loadSession _ _ _) as [st|[[]| |]] eqn:El; try done; [|by destruct (logout_replay _ _ _ _ _ _ _) as [[]|]].
  destruct (adminauth.CheckMutation _ _ _); [|done]. case_if as E4; [done|]. case_row h; [done|].
  destruct (auditAuth _ _ _ _ _ _) as [db1|] eqn:Ea; [|done]. intros [= <- _]. eapply acc_inv_audit; [exact Ea|].
  apply acc_inv_delete. by apply (acc_inv_core _ db).
Qed.

Lemma create_body_inv log e input hash db st cur db' res :
  acc_inv log db -> create_body e input hash db st cur = Ok (db', res) -> acc_inv log db'.
Proof.
  intros Hi. unfold create_body. case_if as E1; [done|]. do 2 (case_if as E; [by intros [= <- _]|]; clear E). case_if as E4; [done|].
  intros [= <- _]. by apply (acc_inv_core _ db).
Qed.

Lemma acc_inv_delete_enrollments log f db : acc_inv log db -> acc_inv log (delete_enrollments f db).
Proof. intros Hi. apply acc_inv_enrollments; [done|]. intros h r [Hh _]%lookup_keep. by apply (ai_enrollments _ _ Hi h). Qed.

Lemma revokeUser_inv log id db : acc_inv log db -> acc_inv log (revokeUser id db).
Proof.
  intros Hi. apply acc_inv_delete_enrollments, acc_inv_challenges; [by apply acc_inv_delete|].
  intros h r [Hh _]%lookup_keep. by apply (ai_challenges _ _ Hi h).
Qed.

Lemma change_body_inv log e r id c db st cur db' res :
  acc_inv log db -> change_body e r id c db st cur = Ok (db', res) -> acc_inv log db'.
Proof.
  intros Hi. unfold change_body. destruct (db_accounts db !! id) as [a|]; [|by intros [= <- _]].
  do 3 (case_if as E; [by intros [= <- _]|]; clear E). case_if as E; [done|]. intros [= <- _].
  apply (acc_inv_core _ (revokeUser id db)); [|by apply revokeUser_inv]. by destruct c.
Qed.

Lemma set_mfa_issued user pv uv t e db db' g : issuePasswordSession user pv uv t e db = Ok (db', g) ->
  exists db2, insert_session (snd (token e 0)) (snd (token e 1)) user pv uv true t db = Ok db2 /\ core (set_mfa (snd (token e 0)) db') = core db2.
Proof.
  unfold issuePasswordSession, issueSession. destruct (token e 0) as [raw sh], (token e 1) as [raw' ch]. cbn [snd]. unfold insert_session.
  destruct (db_sessions db !! sh) eqn:Esh; [done|]. intros [= <- _]. eexists. split; [done|]. unfold set_mfa. cbn [db_sessions set_sessions].
  rewrite lookup_insert_eq. unfold core. cbn. by rewrite insert_insert_eq.
Qed.

Lemma policy_body_inv log e r enabled h ph db st cur db' res row a :
  acc_inv log db -> db_sessions db !! h = Some row -> policy st = db_policy db ->
  adminauth.aID (account st) = se_user row -> adminauth.aSessionVersion (account st) = ac_version a -> se_version row = ac_version a ->
  (exists ref c, ECode ref c h ph ∈ log /\ adminauth.UserID ref = se_user row) ->
  (Bool.eqb enabled (adminauth.TOTPEnabled (policy st)) = false -> Status (reply res) = 200 -> Replay (reply res) = false -> ECommand h ph (snd (token e 0)) ∈ log) ->
  policy_body e r enabled db st cur = Ok (db', res) -> acc_inv log db'.
Proof.
  intros Hi Hrow Ep Eid Ev Erv (ref & c & Hc & Hu) Hl. unfold policy_body. case_if as E1; [by intros [= <- _]|].
  case_if as E2; [by intros [= <- _]|]. case_if as E3; [by intros [= <- _]|]. case_if as E4; [by intros [= <- _]|]. case_if as E5; [done|].
  set (db2 := delete_enrollments _ _). destruct (issuePasswordSession _ _ _ _ _ _) as [[db3 g]|] eqn:Ei; [|done]. cbn [fst]. intros Hx.
  assert (db' = set_mfa (snd (token e 0)) db3) as Ex by (by injection Hx). assert (Status (reply res) = 200) as Es by (by injection Hx as _ <-).
  assert (Replay (reply res) = false) as Er by (by injection Hx as _ <-). clear Hx. specialize (Hl eq_refl Es Er).
  assert (acc_inv log db2) as Hi2.
  { apply acc_inv_delete_enrollments. constructor; [| done | apply Hi |].
    - intros h' s [_ Hf]%lookup_keep. done.
    - intros h' p [Hh Hg]%lookup_keep. destruct (ai_proofs _ _ Hi h' p Hh) as (s & Hs & _). unfold gone in Hg. cbn in Hg. by rewrite Hs in Hg. }
  destruct (ai_sessions _ _ Hi h row Hrow) as (He & _ & _).
  assert (earned log (adminauth.aID (account st)) (adminauth.aSessionVersion (account st)) (snd (token e 0))) as He'.
  { rewrite Eid, Ev, <- Erv. by eapply earned_command. }
  assert (factor log (adminauth.aID (account st)) (snd (token e 0))) as Hf.
  { right. right. exists h, ph, ref, c. rewrite Eid. by split_and!. }
  destruct (set_mfa_issued _ _ _ _ _ _ _ _ Ei) as (db4 & Ei4 & Ec4). rewrite Ex. apply (acc_inv_core _ db4); [exact Ec4|].
  eapply acc_inv_insert; [exact Ei4 | done |]. by split_and!.
Qed.

Lemma enroll_body_inv log s e tok r aad h ph db st cur db' res row a :
  acc_inv log db -> db_sessions db !! h = Some row -> tokenHash tok = Some h ->
  adminauth.aID (account st) = se_user row -> adminauth.aSessionVersion (account st) = ac_version a -> se_version row = ac_version a ->
  (policy_enrollments db' !! snd (token e 0) = Some h -> ECommand h ph (snd (token e 0)) ∈ log) ->
  enroll_body s e tok r aad db st cur = Ok (db', res) -> acc_inv log db'.
Proof.
  intros Hi Hrow Htok Eid Ev Erv Hl. unfold enroll_body. do 2 (case_if as E; [by intros [= <- _]|]; clear E).
  destruct (token e 0) as [proof hash]. unfold insert_enrollment. set (db1 := delete_enrollments _ _).
  assert (acc_inv log db1) as Hi1 by by apply acc_inv_delete_enrollments. clearbody db1. cbn [snd] in Hl.
  destruct (enrollments db1 !! hash); [done|]. cbn [policy_enrollments set_enrollments db_auth set_auth t_policy_enrollments].
  destruct (policy_enrollments db1 !! hash); [done|]. rewrite Htok. cbn [default]. intros [= <- _].
  destruct (ai_sessions _ _ Hi h row Hrow) as (He & _ & _).
  assert (earned log (se_user row) (se_version row) hash) as He' by (eapply earned_command; [exact He|]; apply Hl, lookup_insert_eq).
  apply acc_inv_enrollments; [apply acc_inv_enrollments; [done|]|];
    (apply map_Forall_insert_2; [cbn; by rewrite Eid, Ev, <- Erv | apply Hi1]).
Qed.

Lemma expire_proofs_sub t m h p : expire_proofs t m !! h = Some p -> m !! h = Some p.
Proof.
  unfold expire_proofs. induction (take 128 _) as [|k ks IH]; [done|]. cbn. rewrite lookup_delete_Some. intros [_ Hh]. by apply IH.
Qed.

Lemma reauth_factor_inv log s input st db db' h row e :
  acc_inv log db -> s = v_security v -> db_sessions db !! h = Some row -> policy st = db_policy db -> now st = ck e 0 ->
  adminauth.aID (account st) = se_user row -> reauth_factor s input st db = Ok db' ->
  acc_inv log db' /\ db_sessions db' = db_sessions db /\ db_proofs db' = db_proofs db /\ challenges db' = challenges db /\
  enrollments db' = enrollments db.
Proof.
  intros Hi -> Hrow Ep En Eid. unfold reauth_factor. case_if as E1; [by intros [= <-]|].
  destruct (db_totp db !! _) as [cred|]; [|done]. destruct (vault.open _ _ _ _) as [secret|]; [|done].
  destruct (verify_and_consume _ _ _ _ _ _) as [db1 [u|er]] eqn:Ev; [|done]. intros [= <-].
  apply verify_and_consume_ok in Ev as (n & Em & Ev). revert Ev. unfold reauth_ConsumeCounter. case_if as E2; [done|].
  destruct (advance_counter _ _ _) as [m|]; [|done]. intros [= <-]. split_and!; try done. by apply (acc_inv_core _ db).
Qed.

(** A proof for a change of the policy is logged with the code that made it. *)
Lemma reauth_factor_code s input st db db' h row e tok r before ps st' :
  s = v_security v -> db_sessions db !! h = Some row -> h = default "" (tokenHash tok) -> policy st = db_policy db -> now st = ck e 0 ->
  adminauth.aID (account st) = se_user row -> reauth_factor s input st db = Ok db' ->
  i_action input = adminauth.WriteTOTPPolicy -> i_target input = "totp" ->
  exists ref c, ECode ref c h (snd (token e 0)) ∈ proved v (SReauth_finish tok r input before) e db ps st' /\ adminauth.UserID ref = se_user row.
Proof.
  intros -> Hrow Htok Ep En Eid Hf Ha Ht. unfold reauth_factor in Hf. revert Hf. case_if as E1.
  { rewrite Ha, Ht in E1. rewrite bool_decide_eq_true_2 in E1 by done. by rewrite orb_true_r in E1. }
  cbn [proved]. rewrite <- Htok. rewrite Ep in E1. apply negb_false_iff in E1. rewrite E1, Hrow, Eid.
  destruct (db_totp db !! se_user row) as [cred|]; [|done]. destruct (vault.open _ _ _ _) as [secret|]; [|done].
  intros _. eexists _, _. split; [cbn; by left | done].
Qed.

Lemma reauth_finish_inv log tok r input before e db db' a st' :
  acc_inv log db -> proved v (SReauth_finish tok r input before) e db db' st' ⊆ log ->
  reauth_finish (v_security v) tok r input before e db = Commit db' a -> acc_inv log db'.
Proof.
  intros Hi Hl. unfold reauth_finish. destruct (loadSession _ _ _) as [st|] eqn:El; [|done].
  destruct (of_auth _); [|done]. case_if as E1; [done|]. destruct (passwords db !! _) as [c|]; [|done]. case_if as E2; [done|].
  destruct (reauth_factor _ _ _ _) as [db1|] eqn:Ef; [|done].
  apply loadSession_row in El as (row & acc & Hrow & _ & Ep & En & Eid & _).
  destruct (reauth_factor_inv _ _ _ _ _ _ _ _ e Hi eq_refl Hrow Ep En Eid Ef) as (Hi1 & Es1 & Ep1 & _).
  destruct (token e 0) as [proof ph] eqn:Et. case_if as E3; [done|]. cbn [db_proofs set_proofs].
  destruct (expire_proofs _ _ !! ph) eqn:Eph; [done|]. intros [= <- _].
  eapply acc_inv_core; [|apply (acc_inv_proofs log db1 (<[ph := mkProofRow (default "" (tokenHash tok)) (action_text (i_action input)) (i_target input)
    (i_digest input) (now st) (now st + 5 * Minute) false]> (expire_proofs (ck e 1) (db_proofs db1)))); [exact Hi1|]]; [done|].
  apply map_Forall_insert_2.
  - exists row. cbn. split; [by rewrite Es1|]. intros Ha Ht.
    assert (i_action input = adminauth.WriteTOTPPolicy) as Ha' by (by destruct (i_action input)).
    destruct (reauth_factor_code _ _ _ _ _ _ row e tok r before db st' eq_refl Hrow eq_refl Ep En Eid Ef Ha' Ht) as (ref & n & Hc & Hu).
    exists ref, n. split; [|done]. apply Hl. by rewrite Et in Hc.
  - intros h p Hh%expire_proofs_sub. by apply (ai_proofs _ _ Hi1 h).
Qed.

(** ** Every step keeps the invariant *)

Lemma map_outcome_commit {A} (f : A -> stage) o db st :
  map_outcome f o = Commit db st -> exists a, o = Commit db a /\ st = f a.
Proof. destruct o; intros [= <- <-]; eauto. Qed.

Lemma quiet_row db db2 h row : quiet db db2 -> db_sessions db !! h = Some row ->
  exists row2, db_sessions db2 !! h = Some row2 /\ se_user row2 = se_user row /\ se_version row2 = se_version row.
Proof.
  intros [_ Es _] Hh. apply (f_equal (fun m => m !! h)) in Es. rewrite !lookup_fmap, Hh in Es.
  destruct (db_sessions db2 !! h) as [row2|]; [|done]. unfold session_id in Es. cbn in Es. exists row2. split_and!; congruence.
Qed.
Lemma quiet_policy db db2 : quiet db db2 -> db_policy db2 = db_policy db.
Proof. by intros [[= E _ _ _] _ _]. Qed.

(** A command whose body keeps the invariant. *)
Lemma command_inv_kept log s tok r raw action target etag body ck tk db db' a :
  acc_inv log db ->
  (forall db2 st cur db3 res, acc_inv log db2 -> body db2 st cur = Ok (db3, res) -> acc_inv log db3) ->
  command s tok r raw action target etag body ck tk db = Commit db' a -> acc_inv log db'.
Proof.
  intros Hi Hbody [[-> _]|(h & st0 & db2 & cur & db3 & res & _ & _ & Hq & _ & Hb & _ & Hq3)]%command_run; [done|].
  eapply acc_inv_quiet; [exact Hq3|]. eapply Hbody; [|exact Hb]. by eapply acc_inv_quiet.
Qed.

Lemma ChangePolicy_inv log tok r raw e db db' x :
  acc_inv log db -> proved v (SPolicy tok r raw) e db db' (SDone (Ok (AControl (fst x) (snd x)))) ⊆ log ->
  ChangePolicy (v_security v) tok r raw e db = Commit db' x -> acc_inv log db'.
Proof.
  intros Hi Hl. unfold ChangePolicy. case_if as E1; [done|]. destruct (decode_enabled raw) as [[enabled|]|]; try done.
  destruct (command _ _ _ _ _ _ _ _ _ _ _) as [| |db1 a] eqn:Ec; try done. intros Hx.
  assert (db1 = db') as -> by (by injection Hx). apply (f_equal (fun o => match o with Commit _ y => y | _ => (a, None) end)) in Hx. cbv iota in Hx.
  apply command_run in Ec as [[-> _]|(h & st0 & db2 & cur & db3 & res & Htok & El & Hq & Hp & Hb & -> & Hq3)]; [done|].
  apply loadSession_row in El as (row & acc & Hrow & _ & Ep & En & Eid & Ev & _ & _ & Erv & _).
  destruct (quiet_row _ _ _ _ Hq Hrow) as (row2 & Hrow2 & Eu2 & Ev2). destruct (Hp eq_refl) as (ph & p & Hph & Hpr & Eps & Epa & Ept).
  destruct (ai_proofs _ _ Hi ph p Hpr) as (s & Hs & Hcode). rewrite Eps in Hs, Hcode. assert (s = row) as -> by congruence.
  eapply acc_inv_quiet; [exact Hq3|].
  refine (policy_body_inv log e r enabled h ph db2 _ cur db3 res row2 acc _ Hrow2 _ _ _ _ _ _ Hb); cbn [account policy];
    [by eapply acc_inv_quiet | by rewrite (quiet_policy _ _ Hq) | by rewrite Eu2 | done | by rewrite Ev2 | rewrite Eu2; by apply Hcode |].
  intros Heq Hst Hrp. apply Hl. rewrite <- Hx. cbn [proved fst snd]. rewrite Hrp, Hst. cbn [negb andb Z.eqb Pos.eqb].
  rewrite <- Ep. rewrite Heq. rewrite Htok, Hph. cbn. by left.
Qed.

Lemma BeginPolicyEnrollment_inv log tok r raw e db db' x st' :
  acc_inv log db -> proved v (SPolicy_begin tok r raw) e db db' st' ⊆ log ->
  BeginPolicyEnrollment (v_security v) tok r raw e db = Commit db' x -> acc_inv log db'.
Proof.
  intros Hi Hl. unfold BeginPolicyEnrollment. case_if as E1; [done|].
  destruct (command _ _ _ _ _ _ _ _ _ _ _) as [| |db1 a] eqn:Ec; try done. intros Hx. assert (db1 = db') as -> by (by injection Hx). clear Hx.
  apply command_run in Ec as [[-> _]|(h & st0 & db2 & cur & db3 & res & Htok & El & Hq & Hp & Hb & -> & Hq3)]; [done|].
  apply loadSession_row in El as (row & acc & Hrow & _ & Ep & En & Eid & Ev & _ & _ & Erv & _).
  destruct (quiet_row _ _ _ _ Hq Hrow) as (row2 & Hrow2 & Eu2 & Ev2). destruct (Hp eq_refl) as (ph & p & Hph & _).
  eapply acc_inv_quiet; [exact Hq3|].
  refine (enroll_body_inv log _ e tok r _ h ph db2 _ cur db3 res row2 acc _ Hrow2 Htok _ _ _ _ Hb); cbn [account];
    [by eapply acc_inv_quiet | by rewrite Eu2 | done | by rewrite Ev2 |].
  intros Hpe. apply Hl. cbn [proved]. rewrite Htok, Hph. cbn [default]. rewrite bool_decide_eq_true_2; [by left|].
  destruct Hq3 as [[= _ _ _ Ea] _ _]. unfold policy_enrollments in *. by rewrite Ea.
Qed.

Lemma map_commit {A} (f : A -> stage) o db st (P : Prop) :
  (forall a, o = Commit db a -> st = f a -> P) -> map_outcome f o = Commit db st -> P.
Proof. intros Hp (a & ? & ?)%map_outcome_commit. eauto. Qed.

Lemma elem_proved st e db db' st' x log : proved v st e db db' st' ⊆ log -> proved v st e db db' st' = [x] -> x ∈ log.
Proof. intros Hl E. rewrite E in Hl. set_solver. Qed.

(** A reservation changes buckets and the audit only. *)
Definition rest (db : DB) := (db_accounts db, db_totp db, passwords db, codes db, bootstrap db).
Lemma auditAuth_rest s u a r i db db' : auditAuth s u a r i db = Ok db' -> rest db' = rest db.
Proof. by intros [-> | [row ->]]%auditAuth_ok. Qed.
Lemma reserve_loop_frame l user source e todo db db' b :
  reserve_loop l user source e todo db = Ok (db', b) -> core db' = core db /\ rest db' = rest db.
Proof.
  revert db. induction todo as [|i todo IH]; intros db; cbn [reserve_loop]; [by intros [= <- _]|].
  destruct (take_bucket _ _ _ _ _) as [bs|r0]; [intros Hr; by apply IH in Hr|]. case_if as E1; [|by intros [= <- _]].
  destruct (auditAuth _ _ _ _ _ _) as [db2|] eqn:Ea; [|done]. intros [= <- _]. by apply auditAuth_ok in Ea as [-> | [row ->]].
Qed.
Lemma reserveAttempt_frame l user source e db db' r : reserveAttempt l user source e db = Commit db' r -> core db' = core db /\ rest db' = rest db.
Proof.
  unfold reserveAttempt. destruct (reserve_loop _ _ _ _ _ _) as [[db1 []]|] eqn:Er; try done; intros [= <- _]; by apply reserve_loop_frame in Er.
Qed.

Lemma next_inv log st e db db' st' :
  acc_inv log db -> stage_ok st -> proved v st e db db' st' ⊆ log -> flow.next IDKey v st e db = Commit db' st' -> acc_inv log db'.
Proof.
  intros Hi Hst Hl. destruct st; cbn [flow.next]; unfold create_command;
    try (apply map_commit; intros a Ha Est);
    try match goal with E : st' = _ |- _ => try rewrite E in Hl end.
  - revert Ha. unfold ReserveAuthHTTP. destruct (sourceValue peer); [|done]. destruct (http_loop _ _ _ _ _) as [b []]; intros [= <- _];
      by apply (acc_inv_core _ db).
  - apply reserveAttempt_frame in Ha as [Ha _]. by eapply acc_inv_core.
  - done.
  - revert Ha. unfold auditRejectedPassword. case_if as E; [done|]. destruct (auditAuth _ _ _ _ _ _) eqn:Ea; [|done]. intros [= <- _]. by eapply acc_inv_audit.
  - eapply finishPassword_inv; [done | | exact Hst | exact Ha]. by eapply elem_proved.
  - eapply CompleteTOTP_inv; [done | reflexivity | exact Hl | exact Ha].
  - by eapply recovery_reserve_inv.
  - eapply recovery_finish_inv; [done | exact Hst | | exact Ha]. by eapply elem_proved.
  - by eapply Begin_inv.
  - by eapply enrollment_reserve_inv.
  - by eapply enrollment_finish_inv.
  - revert Ha. unfold IssueBootstrapToken. do 2 (case_if as E; [done|]; clear E). destruct (token e 0). intros [= <- _]. by apply (acc_inv_core _ db).
  - by destruct (bootstrap_snapshot _ _ _).
  - by destruct (setupApplied db).
  - eapply finishBootstrap_inv; [done | | exact Ha]. by eapply elem_proved.
  - by eapply run_inv.
  - by eapply LogoutReplay_inv.
  - by destruct (create_check _ _ _ _ _ _ _) as [[]|].
  - eapply command_inv_kept; [done | | exact Ha]. done.
  - eapply command_inv_kept; [done | | exact Ha]. intros *. apply create_body_inv.
  - revert Ha. unfold ChangeUser. case_if as E; [done|]. destruct (change_of _ _ _) as [c|]; [|done]. apply command_inv_kept; [done|].
    intros *. apply change_body_inv.
  - revert Ha. unfold Policy. destruct (beginCommand _ _ _ _ _ _ _); [|done]. by intros [= <- _].
  - by eapply ChangePolicy_inv.
  - by eapply BeginPolicyEnrollment_inv.
  - destruct (enrollment_bound _ _ _ _ _ _); [|done]. by destruct (NewEnrollmentService _ _ _ _).
  - destruct (loadSession _ _ _); [|done]. by intros [= <- _].
  - by destruct (reauth_check _ _ _ _ _ _).
  - apply reserveAttempt_frame in Ha as [Ha _]. by eapply acc_inv_core.
  - done.
  - by eapply reauth_finish_inv.
  - done.
Qed.

(** A recovery code goes on only to the slot it matches. *)
Lemma match_loop_ok raw e records i slot s :
  match_loop IDKey (l_passwords (v_login v)) raw e records i slot = Ok s ->
  s = slot \/ exists j r, records !! j = Some r /\ s = i + Z.of_nat j /\ verified ("wr-recovery-v1:" +:+ raw) (rc_hash r).
Proof.
  revert i slot. induction records as [|r rest IH]; intros i slot; cbn [match_loop].
  { case_if as E; [done|]. intros [= <-]. by left. }
  destruct (snd _) as [ok|] eqn:Ev; [|done]. case_if as E.
  - case_if as E1; [done|]. intros Hm. apply andb_true_iff in E as [-> _]. right.
    apply IH in Hm as [-> | (j & r' & Hj & -> & Hv)].
    + exists 0%nat, r. split_and!; [done | lia |]. by exists (kdf e (Z.to_nat i)).
    + exists (S j), r'. split_and!; [done | lia | done].
  - intros Hm. apply IH in Hm as [-> | (j & r' & Hj & -> & Hv)]; [by left|]. right. exists (S j), r'. split_and!; [done | lia | done].
Qed.
Lemma match_loop_nonzero raw e records i slot s :
  match_loop IDKey (l_passwords (v_login v)) raw e records i slot = Ok s -> 0 < i -> s <> 0.
Proof.
  revert i slot. induction records as [|r rest IH]; intros i slot; cbn [match_loop].
  { case_if as E; [done|]. intros [= <-]. to_prop. done. }
  destruct (snd _) as [ok|]; [|done]. case_if as E; [case_if as E1; [done|]|]; intros Hm Hi; eapply IH; eauto; lia.
Qed.

Lemma next_stage_ok st e db st' : landed (flow.next IDKey v st e db) = Some st' -> stage_ok st -> stage_ok st'.
Proof.
  destruct st; cbn [flow.next]; unfold create_command; intros Hl Hok; try (apply landed_map in Hl as [x ->]); try done.
  all: try (by destruct x).
  - injection Hl as <-. unfold login_verified. destruct (snd _) as [ok|] eqn:Ev; [|done]. destruct (snapshot user db) as [b|]; [|done].
    case_if as E; [done|]. to_prop. cbn. exists (kdf e 0). by destruct (s_enabled b), ok.
  - unfold recover_matched. destruct (recovery_match _ _ _ _ _) as [slot|] eqn:Em; [|done]. revert Em. unfold recovery_match.
    destruct (tokenHash code); [|done]. intros Em. pose proof (match_loop_nonzero _ _ _ _ _ _ Em ltac:(lia)) as Hn.
    apply match_loop_ok in Em as [-> | (j & r & Hj & -> & Hv)]; [done|]. cbn. unfold record_of.
    replace (Z.to_nat (1 + Z.of_nat j - 1)) with j by lia. by rewrite Hj.
  - unfold begun. destruct (policyEnrollment s); [by destruct (vault.ProvisioningBase32 _)|done].
  - unfold enroll_prepared. case_if as E; [done|]. by destruct (prepareRecovery _ _ _).
  - by destruct (policyEnrollment s).
  - destruct (bootstrap_snapshot _ _ _); [|done]. injection Hl as <-. destruct (installation _); [done|]. unfold bootstrap_hashed. by destruct (snd _).
  - destruct (setupApplied _); [|done]. injection Hl as <-. unfold bootstrap_hashed. by destruct (snd _).
  - destruct (create_check _ _ _ _ _ _ _) as [[]|]; [| |done]; injection Hl as <-; [by destruct (snd _) | done].
  - destruct (enrollment_bound _ _ _ _ _ _); [|done]. destruct (NewEnrollmentService _ _ _ _); [|done]. injection Hl as <-. by destruct verify.
  - destruct (loadSession _ _ _); [|done]. by injection Hl as <-.
  - destruct (reauth_check _ _ _ _ _ _); [|done]. injection Hl as <-. destruct peer as [ip|]; [|done]. by destruct (sourceValue ip).
  - injection Hl as <-. destruct (snapshot _ _); [|done]. unfold reauth_verified. by destruct (snd _) as [[]|].
  - by injection Hl as <-.
Qed.

Definition sys_inv (y : system) : Prop := acc_inv (y_log y) (y_db y) /\ map_Forall (fun _ st => stage_ok st) (y_procs y).

Lemma advance_inv f log st e db :
  acc_inv log db -> stage_ok st ->
  acc_inv (log ++ observe IDKey v f st e db) (fst (advance IDKey v f st e db)) /\ stage_ok (snd (advance IDKey v f st e db)).
Proof.
  intros Hi Hst. pose proof (next_inv (log ++ observe IDKey v f st e db) st e db) as Hn. pose proof (next_stage_ok st e db) as Hs.
  assert (acc_inv (log ++ observe IDKey v f st e db) db) as Hi' by (eapply acc_inv_mono; [|exact Hi]; set_solver).
  assert (stage_ok (broken st)) as Hb by (by destruct st). unfold observe in *. unfold advance.
  destruct (flow.next IDKey v st e db) as [er|st'|db' st']; cbn [landed] in Hs; destruct f; cbn [fst snd] in *; split; try done; eauto;
    apply (Hn db' st'); try done; set_solver.
Qed.

Lemma start_ok e q : stage_ok (start v e q).
Proof. destruct q; cbn [start]; repeat (try done; case_match); done. Qed.

Lemma ystep_inv y l : sys_inv y -> sys_inv (ystep IDKey v y l).
Proof.
  intros [Hi Hp]. destruct l; cbn [ystep].
  - destruct (y_procs y !! id) eqn:E; [by split|]. split; [done|]. cbn. apply map_Forall_insert_2; [apply start_ok | done].
  - destruct (y_procs y !! id) as [st|] eqn:E; [|by split].
    pose proof (advance_inv f (y_log y) st e (y_db y) Hi (Hp _ _ E)) as [Ha Hst]. destruct (advance _ _ _ _ _ _) as [db st'].
    split; [done|]. cbn. by apply map_Forall_insert_2.
  - split; [|done]. cbn. eapply acc_inv_quiet; [apply pexec_quiet | done].
Qed.
Lemma yrun_inv y ls : sys_inv y -> sys_inv (yrun IDKey v y ls).
Proof. unfold yrun. revert y. induction ls as [|l ls IH]; intros y Hy; [done|]. cbn. apply IH. by apply ystep_inv. Qed.
Lemma installed_inv db : uninhabited db -> sys_inv (installed db).
Proof. intros [E1 E2 E3 E4 E5 E6 E7 E8 E9 E10]. split; [|done]. constructor; cbn; rewrite ?E3, ?E4, ?E6, ?E7; apply map_Forall_empty. Qed.

Lemma accepted_earned y h t st : sys_inv y -> loadSession h t (y_db y) = Ok st ->
  earned (y_log y) (adminauth.aID (account st)) (adminauth.aSessionVersion (account st)) h /\
  (adminauth.TOTPEnabled (db_policy (y_db y)) = true -> factor (y_log y) (adminauth.aID (account st)) h) /\
  exists a, db_accounts (y_db y) !! adminauth.aID (account st) = Some a /\ ac_enabled a = true /\
    ac_version a = adminauth.aSessionVersion (account st).
Proof.
  intros [Hi _] El. apply loadSession_row in El as (row & a & Hrow & Ha & _ & _ & Eid & Ev & _ & _ & Erv & _ & Hen & Hm).
  destruct (ai_sessions _ _ Hi h row Hrow) as (He & Hfac & _). rewrite Eid, Ev, <- Erv. split_and!; [done | | by exists a].
  intros Ht. apply Hfac. by apply Hm.
Qed.

End sessions.
