(* ===== verification/AccountCodes.v ===== *)
(** * Second factors are spent

    An abstract machine of credentials says what a transaction may do to them:
    advance a counter, enrol a credential under the present version of its
    account, spend a recovery code, change or create an account. Every
    transaction of the services refines it, and in its histories no counter and
    no recovery code of a credential is accepted twice. *)

From S2P Require Import Prelude GoStd Keyring Control ConfigTrust AdminAuth Vault Password Publication CommandProps DataNode Origin Accounts Security AccountFlow AccountProps AccountSessions.
From stdpp Require Import base list gmap strings sorting pretty.
From Stdlib Require Import ZArith Lia Ascii String.
Import pgstore accounts security flow.
Local Open Scope Z_scope.

(** ** The machine of credentials *)

Definition codes_of (log : list event) : list (adminauth.CredentialRef * Z) :=
  omap (fun x => match x with ECode ref c _ _ => Some (ref, c) | _ => None end) log.
Definition recoveries_of (log : list event) : list (adminauth.CredentialRef * Z) :=
  omap (fun x => match x with ERecovery ref slot _ _ _ _ => Some (ref, slot) | _ => None end) log.

Definition firsts_of (log : list event) : list string :=
  omap (fun x => match x with EFirst user _ => Some user | _ => None end) log.
(** Events that accept no factor and create no first administrator. *)
Definition plain (log : list event) : Prop := codes_of log = [] /\ recoveries_of log = [] /\ firsts_of log = [].

(** The accounts and their credentials, and whether there was a first administrator. *)
Definition credentials (db : DB) := (db_accounts db, db_totp db, codes db, bo_completed (bootstrap db)).

(** The row of a recovery code. *)
Definition code_key (ref : adminauth.CredentialRef) (slot : Z) : string * Z * Z := (adminauth.UserID ref, adminauth.RVersion ref, slot).

(** What a transaction does to the credentials, and what it accepts. *)
Inductive spends (db db' : DB) : list event -> Prop :=
  | spends_nothing log : credentials db' = credentials db -> plain log -> spends db db' log
  | spends_code ref n m by_ h : advance_counter ref n (db_totp db) = Some m -> credentials db' = (db_accounts db, m, codes db, bo_completed (bootstrap db)) ->
      spends db db' [ECode ref n by_ h]
  | spends_enrollment ref n kid sealed hashes cs a by_ h :
      db_totp db !! adminauth.UserID ref = None -> db_accounts db !! adminauth.UserID ref = Some a -> ac_version a = adminauth.RVersion ref ->
      insert_codes ref 1 hashes (codes db) = Some cs ->
      credentials db' = (db_accounts db, <[adminauth.UserID ref := mkTOTPRow (adminauth.RVersion ref) kid sealed n]> (db_totp db), cs, bo_completed (bootstrap db)) ->
      spends db db' [ECode ref n by_ h]
  | spends_recovery ref slot stored code by_ h r :
      codes db !! code_key ref slot = Some r -> rc_consumed r = false ->
      credentials db' = (db_accounts db, db_totp db, <[code_key ref slot := mkCodeRow (rc_hash r) true]> (codes db), bo_completed (bootstrap db)) ->
      spends db db' [ERecovery ref slot stored code by_ h]
  | spends_change id a a' log : db_accounts db !! id = Some a -> ac_version a' = ac_version a + 1 ->
      (is_admin a = true -> is_admin a' = false -> 0 < other_admins id db) ->
      (credentials db' = (<[id := a']> (db_accounts db), db_totp db, codes db, bo_completed (bootstrap db)) \/
       credentials db' = (<[id := a']> (db_accounts db), delete id (db_totp db), keep (fun k _ => negb (String.eqb (fst (fst k)) id)) (codes db), bo_completed (bootstrap db))) ->
      plain log -> spends db db' log
  | spends_account id a log : db_accounts db !! id = None -> bo_completed (bootstrap db) = true ->
      credentials db' = (<[id := a]> (db_accounts db), db_totp db, codes db, true) -> plain log -> spends db db' log
  | spends_first id a h : db_accounts db = ∅ -> bo_completed (bootstrap db) = false -> is_admin a = true ->
      credentials db' = (<[id := a]> (db_accounts db), db_totp db, codes db, true) -> spends db db' [EFirst id h].

(** ** Its invariant *)

(** An accepted credential has an account, of its version or a later one; once
    the credential is gone the account's version is later. *)
Definition outlived (db : DB) (ref : adminauth.CredentialRef) : Prop :=
  exists a, db_accounts db !! adminauth.UserID ref = Some a /\ adminauth.RVersion ref <= ac_version a /\
    (db_totp db !! adminauth.UserID ref = None -> adminauth.RVersion ref < ac_version a).

Record code_inv (log : list event) (db : DB) : Prop := {
  ci_code : forall ref c, (ref, c) ∈ codes_of log -> outlived db ref /\
    (forall r, db_totp db !! adminauth.UserID ref = Some r -> to_version r = adminauth.RVersion ref -> c <= to_last r);
  ci_recovery : forall ref slot, (ref, slot) ∈ recoveries_of log -> outlived db ref /\
    (forall r, codes db !! code_key ref slot = Some r -> rc_consumed r = true);
  ci_totp : forall u r, db_totp db !! u = Some r -> exists a, db_accounts db !! u = Some a /\ to_version r <= ac_version a;
  ci_rows : forall u w slot r, codes db !! (u, w, slot) = Some r -> exists cred, db_totp db !! u = Some cred /\ to_version cred = w;
  ci_sorted : StronglySorted (fun x y => fst x = fst y -> snd x < snd y) (codes_of log);
  ci_nodup : NoDup (recoveries_of log)
}.

Lemma codes_of_app l l' : codes_of (l ++ l') = codes_of l ++ codes_of l'.
Proof. apply omap_app. Qed.
Lemma recoveries_of_app l l' : recoveries_of (l ++ l') = recoveries_of l ++ recoveries_of l'.
Proof. apply omap_app. Qed.

Lemma sorted_snoc {A} (R : A -> A -> Prop) l x : StronglySorted R l -> Forall (fun y => R y x) l -> StronglySorted R (l ++ [x]).
Proof.
  induction 1 as [|y l _ IH Hy]; intros Hx; cbn; [by repeat constructor|]. apply Forall_cons in Hx as [Hyx Hx].
  constructor; [by apply IH|]. apply Forall_app. by repeat constructor.
Qed.

(** A code is accepted above all earlier ones of its credential. *)
Lemma code_inv_snoc log db db' ref n by_ h :
  code_inv log db ->
  (forall ref c, (ref, c) ∈ codes_of log -> outlived db' ref /\
    (forall r, db_totp db' !! adminauth.UserID ref = Some r -> to_version r = adminauth.RVersion ref -> c <= to_last r)) ->
  (forall ref slot, (ref, slot) ∈ recoveries_of log -> outlived db' ref /\
    (forall r, codes db' !! code_key ref slot = Some r -> rc_consumed r = true)) ->
  (forall u r, db_totp db' !! u = Some r -> exists a, db_accounts db' !! u = Some a /\ to_version r <= ac_version a) ->
  (forall u w slot r, codes db' !! (u, w, slot) = Some r -> exists cred, db_totp db' !! u = Some cred /\ to_version cred = w) ->
  (exists r, db_totp db' !! adminauth.UserID ref = Some r /\ to_version r = adminauth.RVersion ref /\ to_last r = n) ->
  (forall c, (ref, c) ∈ codes_of log -> c < n) -> code_inv (log ++ [ECode ref n by_ h]) db'.
Proof.
  intros Hi H1 H2 H3 H4 (r & Hr & Hv & Hn) Hlt. constructor; rewrite ?codes_of_app, ?recoveries_of_app; cbn; rewrite ?app_nil_r; try done.
  - intros ref' c [Hc|Hc]%elem_of_app; [by apply H1|]. apply list_elem_of_singleton in Hc as [= -> ->].
    destruct (H3 _ _ Hr) as (a & Ha & Hle). split; [exists a; split_and!; [done | lia | congruence]|]. intros r' Hr' _. assert (r' = r) as -> by congruence. lia.
  - apply sorted_snoc; [apply Hi|]. apply Forall_forall. intros [ref' c] Hc Eq. cbn in *. subst ref'. by apply Hlt.
  - apply Hi.
Qed.

(** ** The machine keeps its invariant *)

Lemma insert_codes_lookup ref i hashes m m' k r :
  insert_codes ref i hashes m = Some m' -> m' !! k = Some r ->
  m !! k = Some r \/ (fst k = (adminauth.UserID ref, adminauth.RVersion ref)).
Proof.
  revert i m. induction hashes as [|h hs IH]; intros i m; cbn [insert_codes]; [intros [= <-]; by left|].
  destruct (m !! _) eqn:E; [done|]. intros Hm Hk. destruct (IH _ _ Hm Hk) as [Hl|Hr]; [|by right].
  destruct (decide (k = (adminauth.UserID ref, adminauth.RVersion ref, i))) as [->|Hne]; [by right|].
  rewrite lookup_insert_ne in Hl by done. by left.
Qed.

Lemma code_inv_same log db db' : code_inv log db -> credentials db' = credentials db -> code_inv log db'.
Proof. intros [H1 H2 H3 H4 H5 H6] [= Ea Et Ec _]. constructor; unfold outlived in *; rewrite ?Ea, ?Et, ?Ec; done. Qed.

Lemma code_inv_quiet_log log evs db : codes_of evs = [] -> recoveries_of evs = [] -> code_inv log db -> code_inv (log ++ evs) db.
Proof. intros E1 E2 [H1 H2 H3 H4 H5 H6]. constructor; rewrite ?codes_of_app, ?recoveries_of_app, ?E1, ?E2, ?app_nil_r; done. Qed.

Lemma code_inv_advance log db db' ref n m by_ h :
  code_inv log db -> advance_counter ref n (db_totp db) = Some m -> credentials db' = (db_accounts db, m, codes db, bo_completed (bootstrap db)) ->
  code_inv (log ++ [ECode ref n by_ h]) db'.
Proof.
  intros Hi. unfold advance_counter. destruct (db_totp db !! _) as [r|] eqn:Er; [|done]. case_if as E; [|done]. intros [= <-] [= Ea Et Ec _]. to_prop.
  assert (forall ref', outlived db ref' -> outlived db' ref') as Hout.
  { intros ref' (a & Ha & Hle & Hn). exists a. rewrite Ea, Et. split_and!; [done | done |]. intros Hnone. apply Hn.
    by apply lookup_insert_None in Hnone as [? _]. }
  eapply code_inv_snoc; [exact Hi | | | | | |].
  - intros ref' c Hc. destruct (ci_code _ _ Hi ref' c Hc) as [Ho Hle]. split; [by apply Hout|]. rewrite Et. intros r' Hr' Hv'.
    apply lookup_insert_Some in Hr' as [[Eu <-]|[_ Hr']]; [|by apply Hle]. cbn in *. rewrite <- Eu in Hle. specialize (Hle r Er ltac:(congruence)). lia.
  - intros ref' slot Hc. destruct (ci_recovery _ _ Hi ref' slot Hc) as [Ho Hle]. split; [by apply Hout|]. by rewrite Ec.
  - rewrite Ea, Et. intros u r' [[<- <-]|[_ Hr']]%lookup_insert_Some; [|by apply (ci_totp _ _ Hi)]. cbn. by apply (ci_totp _ _ Hi _ r).
  - rewrite Ec, Et. intros u w slot r' Hr'. destruct (ci_rows _ _ Hi _ _ _ _ Hr') as (cred & Hc & Hw).
    destruct (decide (u = adminauth.UserID ref)) as [->|Hne]; [|exists cred; by rewrite lookup_insert_ne].
    rewrite lookup_insert_eq. eexists. split; [done|]. cbn. congruence.
  - rewrite Et, lookup_insert_eq. eexists. split_and!; [done | done | done].
  - intros c Hc. destruct (ci_code _ _ Hi ref c Hc) as [_ Hle]. specialize (Hle r Er ltac:(congruence)). lia.
Qed.

Lemma code_inv_enroll log db db' ref n kid sealed hashes cs a by_ h :
  code_inv log db -> db_totp db !! adminauth.UserID ref = None -> db_accounts db !! adminauth.UserID ref = Some a ->
  ac_version a = adminauth.RVersion ref -> insert_codes ref 1 hashes (codes db) = Some cs ->
  credentials db' = (db_accounts db, <[adminauth.UserID ref := mkTOTPRow (adminauth.RVersion ref) kid sealed n]> (db_totp db), cs, bo_completed (bootstrap db)) ->
  code_inv (log ++ [ECode ref n by_ h]) db'.
Proof.
  intros Hi Hn Ha Hv Hcs [= Ea Et Ec _].
  assert (forall ref', outlived db ref' -> outlived db' ref' /\ (adminauth.UserID ref' = adminauth.UserID ref -> adminauth.RVersion ref' < adminauth.RVersion ref)) as Hout.
  { intros ref' (a' & Ha' & Hle & Hn'). split.
    - exists a'. rewrite Ea, Et. split_and!; [done | done |]. intros Hnone. apply Hn'. by apply lookup_insert_None in Hnone as [? _].
    - intros Eu. rewrite Eu in *. assert (a' = a) as -> by congruence. specialize (Hn' Hn). lia. }
  eapply code_inv_snoc; [exact Hi | | | | | |].
  - intros ref' c Hc. destruct (ci_code _ _ Hi ref' c Hc) as [Ho Hle]. destruct (Hout _ Ho) as [Ho' Hlt]. split; [done|]. rewrite Et.
    intros r' [[Eu <-]|[_ Hr']]%lookup_insert_Some Hv'; [|by apply Hle]. cbn in Hv'. specialize (Hlt (eq_sym Eu)). lia.
  - intros ref' slot Hc. destruct (ci_recovery _ _ Hi ref' slot Hc) as [Ho Hle]. destruct (Hout _ Ho) as [Ho' Hlt]. split; [done|]. rewrite Ec.
    intros r Hr. destruct (insert_codes_lookup _ _ _ _ _ _ _ Hcs Hr) as [Hold|[= Eu Ev]]; [by apply Hle|]. specialize (Hlt Eu). lia.
  - rewrite Ea, Et. intros u r' [[<- <-]|[_ Hr']]%lookup_insert_Some; [|by apply (ci_totp _ _ Hi)]. exists a. cbn. split; [done | lia].
  - rewrite Ec, Et. intros u w slot r Hr. destruct (insert_codes_lookup _ _ _ _ _ _ _ Hcs Hr) as [Hold|[= -> ->]].
    + destruct (ci_rows _ _ Hi _ _ _ _ Hold) as (cred & Hc & Hw). exists cred. rewrite lookup_insert_ne; [done|]. congruence.
    + rewrite lookup_insert_eq. by eexists.
  - rewrite Et, lookup_insert_eq. by eexists.
  - intros c Hc. destruct (ci_code _ _ Hi ref c Hc) as [Ho _]. destruct (Hout _ Ho) as [_ Hlt]. specialize (Hlt eq_refl). lia.
Qed.

Lemma code_inv_recover log db db' ref slot stored code by_ h r :
  code_inv log db -> codes db !! code_key ref slot = Some r -> rc_consumed r = false ->
  credentials db' = (db_accounts db, db_totp db, <[code_key ref slot := mkCodeRow (rc_hash r) true]> (codes db), bo_completed (bootstrap db)) ->
  code_inv (log ++ [ERecovery ref slot stored code by_ h]) db'.
Proof.
  intros Hi Hr Hc [= Ea Et Ec _].
  assert (forall ref', outlived db ref' -> outlived db' ref') as Hout by (intros ref' Ho; unfold outlived in *; by rewrite Ea, Et).
  constructor; rewrite ?codes_of_app, ?recoveries_of_app; cbn; rewrite ?app_nil_r.
  - intros ref' c Hc'. destruct (ci_code _ _ Hi ref' c Hc') as [Ho Hle]. split; [by apply Hout | by rewrite Et].
  - intros ref' slot' [Hx|Hx]%elem_of_app.
    + destruct (ci_recovery _ _ Hi _ _ Hx) as [Ho Hle]. split; [by apply Hout|]. rewrite Ec. intros r' [[_ <-]|[_ Hr']]%lookup_insert_Some; [done | by apply Hle].
    + apply list_elem_of_singleton in Hx as [= -> ->]. split; [|rewrite Ec; intros r' [[_ <-]|[? _]]%lookup_insert_Some; done].
      destruct (ci_rows _ _ Hi _ _ _ _ Hr) as (cred & Hcr & Hw). destruct (ci_totp _ _ Hi _ _ Hcr) as (a & Ha & Hle).
      apply Hout. exists a. split_and!; [done | lia | congruence].
  - rewrite Ea, Et. apply Hi.
  - rewrite Ec, Et. intros u w slot' r' [[[= <- <- <-] _]|[_ Hr']]%lookup_insert_Some; [by apply (ci_rows _ _ Hi _ _ _ _ Hr) | by apply (ci_rows _ _ Hi _ _ _ _ Hr')].
  - apply Hi.
  - apply NoDup_app. split_and!; [apply Hi | | apply NoDup_singleton]. intros x Hx ->%list_elem_of_singleton.
    destruct (ci_recovery _ _ Hi _ _ Hx) as [_ Hle]. specialize (Hle r Hr). congruence.
Qed.

Lemma code_inv_change log db db' id a a' :
  code_inv log db -> db_accounts db !! id = Some a -> ac_version a' = ac_version a + 1 ->
  (credentials db' = (<[id := a']> (db_accounts db), db_totp db, codes db, bo_completed (bootstrap db)) \/
   credentials db' = (<[id := a']> (db_accounts db), delete id (db_totp db), keep (fun k _ => negb (String.eqb (fst (fst k)) id)) (codes db), bo_completed (bootstrap db))) ->
  code_inv log db'.
Proof.
  intros Hi Ha Hv Hcred.
  assert (db_accounts db' = <[id := a']> (db_accounts db)) as Ea by (destruct Hcred as [[= -> _ _ _]|[= -> _ _ _]]; done).
  assert (forall u r, db_totp db' !! u = Some r -> db_totp db !! u = Some r) as Hsub.
  { intros u r. destruct Hcred as [[= _ -> _ _]|[= _ -> _ _]]; [done|]. by intros [_ ?]%lookup_delete_Some. }
  assert (forall k r, codes db' !! k = Some r -> codes db !! k = Some r) as Hsubc.
  { intros k r. destruct Hcred as [[= _ _ -> _]|[= _ _ -> _]]; [done|]. by intros [? _]%lookup_keep. }
  assert (forall u, u <> id -> db_totp db' !! u = db_totp db !! u) as Hsame.
  { intros u Hu. destruct Hcred as [[= _ -> _ _]|[= _ -> _ _]]; [done|]. by rewrite lookup_delete_ne. }
  assert (forall ref', outlived db ref' -> outlived db' ref') as Hout.
  { intros ref' (b & Hb & Hle & Hn). unfold outlived. rewrite Ea. destruct (decide (adminauth.UserID ref' = id)) as [Eu|Hne].
    - rewrite Eu in *. assert (b = a) as -> by congruence. exists a'. rewrite lookup_insert_eq. split_and!; [done | lia | lia].
    - exists b. rewrite lookup_insert_ne, Hsame by congruence. done. }
  constructor.
  - intros ref c Hc. destruct (ci_code _ _ Hi ref c Hc) as [Ho Hle]. split; [by apply Hout|]. eauto.
  - intros ref slot Hc. destruct (ci_recovery _ _ Hi ref slot Hc) as [Ho Hle]. split; [by apply Hout|]. eauto.
  - intros u r Hr%Hsub. destruct (ci_totp _ _ Hi _ _ Hr) as (b & Hb & Hle). rewrite Ea. destruct (decide (u = id)) as [->|Hne].
    + assert (b = a) as -> by congruence. exists a'. rewrite lookup_insert_eq. split; [done | lia].
    + exists b. by rewrite lookup_insert_ne.
  - intros u w slot r Hr. destruct (ci_rows _ _ Hi _ _ _ _ (Hsubc _ _ Hr)) as (cred & Hc & Hw). exists cred. split; [|done].
    destruct Hcred as [[= _ -> _ _]|[= _ -> Ec _]]; [done|]. rewrite Ec in Hr. apply lookup_keep in Hr as [_ Hu]. cbn in Hu. to_prop.
    rewrite lookup_delete_ne by congruence. done.
  - apply Hi.
  - apply Hi.
Qed.

Lemma code_inv_account log db db' id a done_ :
  code_inv log db -> db_accounts db !! id = None -> credentials db' = (<[id := a]> (db_accounts db), db_totp db, codes db, done_) -> code_inv log db'.
Proof.
  intros Hi Hid [= Ea Et Ec _].
  assert (forall u b, db_accounts db !! u = Some b -> db_accounts db' !! u = Some b) as Hkeep.
  { intros u b Hb. rewrite Ea, lookup_insert_ne; [done|]. congruence. }
  assert (forall ref', outlived db ref' -> outlived db' ref') as Hout.
  { intros ref' (b & Hb & Hle & Hn). exists b. rewrite Et. auto. }
  constructor; rewrite ?Et, ?Ec; try apply Hi.
  - intros ref c Hc. destruct (ci_code _ _ Hi ref c Hc) as [Ho Hle]. auto.
  - intros ref slot Hc. destruct (ci_recovery _ _ Hi ref slot Hc) as [Ho Hle]. auto.
  - intros u r Hr. destruct (ci_totp _ _ Hi _ _ Hr) as (b & Hb & Hle). eauto.
Qed.

Lemma plain_codes log : plain log -> codes_of log = [] /\ recoveries_of log = [].
Proof. unfold plain. tauto. Qed.
Lemma spends_inv log evs db db' : code_inv log db -> spends db db' evs -> code_inv (log ++ evs) db'.
Proof.
  intros Hi. destruct 1; try match goal with Hp : plain _ |- _ => apply plain_codes in Hp as [Hp1 Hp2]; apply code_inv_quiet_log; [done | done |] end.
  - by eapply code_inv_same.
  - by eapply code_inv_advance.
  - by eapply code_inv_enroll.
  - by eapply code_inv_recover.
  - by eapply code_inv_change.
  - by eapply code_inv_account.
  - apply code_inv_quiet_log; [done | done |]. eapply code_inv_account; [exact Hi | | done]. by rewrite H.
Qed.

(** ** Administrators *)

(** An installation with an account has an enabled administrator, and had one
    first administrator. *)
Record admin_inv (log : list event) (db : DB) : Prop := {
  mi_none : bo_completed (bootstrap db) = false -> db_accounts db = ∅ /\ firsts_of log = [];
  mi_admin : bo_completed (bootstrap db) = true -> 0 < map_count is_admin (db_accounts db);
  mi_first : (List.length (firsts_of log) <= 1)%nat
}.

Lemma count_other id a (m : gmap string account_row) : m !! id = Some a ->
  map_count is_admin m = map_count is_admin (delete id m) + b2z (is_admin a).
Proof.
  intros Ha. rewrite <- (insert_id m id a Ha) at 1. rewrite <- insert_delete_eq. by rewrite map_count_insert_None by apply lookup_delete_eq.
Qed.

Lemma admin_inv_spends log evs db db' : admin_inv log db -> spends db db' evs -> admin_inv (log ++ evs) db'.
Proof.
  assert (forall l l', firsts_of (l ++ l') = firsts_of l ++ firsts_of l') as Happ by (intros; apply omap_app).
  assert (forall evs, firsts_of evs = [] -> db_accounts db' = db_accounts db -> bo_completed (bootstrap db') = bo_completed (bootstrap db) ->
    admin_inv log db -> admin_inv (log ++ evs) db') as Hsame.
  { intros evs' Ef Ea Eb [H1 H2 H3]. constructor; rewrite ?Happ, ?Ef, ?app_nil_r, ?Ea, ?Eb; done. }
  intros Hi. destruct 1 as [l Ec Hp|? ? ? ? ? _ Ec|? ? ? ? ? ? ? ? ? _ _ _ _ Ec|? ? ? ? ? ? ? _ _ Ec|id a a' l Ha Hv Had Ec Hp|id a l Hn Hb Ec Hp|id a h He Hb Had Ec].
  - injection Ec as Ea _ _ Eb. apply Hsame; try done. apply Hp.
  - injection Ec as Ea _ _ Eb. by apply Hsame.
  - injection Ec as Ea _ _ Eb. by apply Hsame.
  - injection Ec as Ea _ _ Eb. by apply Hsame.
  - assert (db_accounts db' = <[id := a']> (db_accounts db) /\ bo_completed (bootstrap db') = bo_completed (bootstrap db)) as [Ea Eb]
      by (destruct Ec as [[= -> _ _ ->]|[= -> _ _ ->]]; done).
    destruct Hi as [H1 H2 H3]. destruct Hp as (_ & _ & Ef). constructor; rewrite ?Happ, ?Ef, ?app_nil_r, ?Ea, ?Eb; [|intros Hc|done].
    + intros Hc. destruct (H1 Hc) as [E _]. by rewrite E in Ha.
    + specialize (H2 Hc). rewrite (count_other _ _ _ Ha) in H2. rewrite (map_count_insert_Some _ _ _ _ _ Ha), (count_other _ _ _ Ha).
      unfold other_admins in Had. pose proof (map_count_nonneg is_admin (delete id (db_accounts db))).
      destruct (is_admin a), (is_admin a'); cbn in *; lia.
  - injection Ec as Ea _ _ Eb. destruct Hi as [H1 H2 H3]. destruct Hp as (_ & _ & Ef).
    constructor; rewrite ?Happ, ?Ef, ?app_nil_r, ?Ea, ?Eb; [done | intros _ | done]. rewrite map_count_insert_None by done. specialize (H2 Hb).
    destruct (is_admin a); cbn; lia.
  - injection Ec as Ea _ _ Eb. destruct Hi as [H1 H2 H3]. destruct (H1 Hb) as [_ Ef]. constructor; rewrite ?Happ, ?Ef, ?Ea, ?Eb; [done | intros _ | cbn; lia].
    rewrite He, map_count_insert_None, Had by apply lookup_empty. pose proof (map_count_nonneg is_admin (∅ : gmap string account_row)). cbn. lia.
Qed.

(** ** The services refine the machine *)

Section refinement.
Context `{Sha256} `{HmacSha256} `{adminauth.HmacSha1} `{AEAD}.
Context `{Codec control.Config} `{Codec control.Delivery} `{Codec configtrust.Snapshot} `{Codec configtrust.envelope} `{Ed25519}.
Context `{Wire} `{AccountWire}.
Context (IDKey : string -> string -> Z -> string) (v : services).

Lemma spends_ext db1 db1' db db' l :
  credentials db1 = credentials db -> credentials db1' = credentials db' -> spends db db' l -> spends db1 db1' l.
Proof.
  intros [= Ea Et Ec Eb] E' Hs. assert (forall id, other_admins id db1 = other_admins id db) as Eo by (intros id; unfold other_admins; by rewrite Ea). destruct Hs.
  - apply spends_nothing; [|done]. rewrite E'. unfold credentials in *. congruence.
  - eapply (spends_code _ _ _ _ m); [by rewrite Et|]. rewrite E', Ea, Ec, Eb. done.
  - eapply (spends_enrollment _ _ _ _ _ _ hashes cs a); rewrite ?Ea, ?Et, ?Ec, ?Eb, ?Eo, ?E'; done.
  - eapply (spends_recovery _ _ _ _ _ _ _ _ r); rewrite ?Ea, ?Et, ?Ec, ?Eb, ?Eo, ?E'; done.
  - eapply (spends_change _ _ id a a'); rewrite ?Ea, ?Et, ?Ec, ?Eb, ?Eo, ?E'; done.
  - eapply (spends_account _ _ id a); rewrite ?Ea, ?Et, ?Ec, ?Eb, ?Eo, ?E'; done.
  - eapply (spends_first _ _ id a); rewrite ?Ea, ?Et, ?Ec, ?Eb, ?Eo, ?E'; done.
Qed.
Lemma quiet_credentials db db' : quiet db db' -> credentials db' = credentials db.
Proof. intros [[= _ Ea Et Eu] _ _]. unfold credentials, codes, bootstrap. congruence. Qed.
Lemma audit_credentials s u a r i db db' : auditAuth s u a r i db = Ok db' -> credentials db' = credentials db.
Proof. by intros [-> | [row ->]]%auditAuth_ok. Qed.
Lemma insert_credentials sh ch u pv uv mfa t db db' : insert_session sh ch u pv uv mfa t db = Ok db' -> credentials db' = credentials db.
Proof. unfold insert_session. destruct (db_sessions db !! sh); [done|]. by intros [= <-]. Qed.
Lemma issueEnrollment_credentials u pv uv t e db db' x : issueEnrollment u pv uv t e db = Ok (db', x) -> credentials db' = credentials db.
Proof. unfold issueEnrollment, insert_enrollment. destruct (token e 0) as [raw hash]. case_row hash; [done|]. by intros [= <- _]. Qed.
Lemma issueSession_credentials u pv uv mfa t e db db' g : issueSession u pv uv mfa t 0 e db = Ok (db', g) -> credentials db' = credentials db.
Proof.
  unfold issueSession. destruct (token e 0), (token e 1). destruct (insert_session _ _ _ _ _ _ _ _) as [db1|] eqn:E; [|done].
  intros [= <- _]. by apply insert_credentials in E.
Qed.

Lemma finishPassword_credentials l before e db db' r : finishPassword l before e db = Commit db' r -> credentials db' = credentials db.
Proof.
  unfold finishPassword. case_if as E1; [done|]. destruct (db_accounts db !! _) as [a|]; [|done].
  destruct (passwords db !! _) as [c|]; [|done]. case_if as E2; [done|]. case_if as E3.
  - destruct (db_totp db !! _) as [cred|].
    + destruct (token e 0) as [raw hash]. unfold insert_challenge. case_row hash; [done|].
      destruct (auditAuth _ _ _ _ _ _) eqn:Ea; [|done]. intros [= <- _]. by apply audit_credentials in Ea as ->.
    + destruct (issueEnrollment _ _ _ _ _ _) as [[db1 x]|] eqn:Ei; [|done]. cbn [fst].
      destruct (auditAuth _ _ _ _ _ _) eqn:Ea; [|done]. intros [= <- _]. apply audit_credentials in Ea as ->. by apply issueEnrollment_credentials in Ei.
  - destruct (issuePasswordSession _ _ _ _ _ _) as [[db1 x]|] eqn:Ei; [|done]. cbn [fst].
    destruct (auditAuth _ _ _ _ _ _) eqn:Ea; [|done]. intros [= <- _]. apply audit_credentials in Ea as ->. by apply issueSession_credentials in Ei.
Qed.

Lemma finishBootstrap_spends l hash user pw before e db db' r h :
  finishBootstrap l hash user pw before e db = Commit db' r -> spends db db' [EFirst user h].
Proof.
  unfold finishBootstrap. do 2 (case_if as E; [done|]; clear E). case_if as E0; [done|]. case_if as E1; [done|]. case_if as E2; [done|]. to_prop.
  assert (db_accounts db = ∅) as Hn.
  { unfold token_valid, no_accounts in *. destruct (bo_token _) as [[h0 t0]|]; [|done]. to_prop.
    match goal with Hs : (size _ =? 0)%nat = true |- _ => by apply Nat.eqb_eq, map_size_empty_iff in Hs end. }
  set (db1 := set_passwords _ _). set (first := mkAccountRow adminauth.Admin true 1 false).
  assert ((db_accounts db1, db_totp db1, codes db1) = (<[user := first]> (db_accounts db), db_totp db, codes db)) as Ec1 by done.
  clearbody db1. intros Hd. apply (spends_first _ _ user first); try done. injection Ec1 as <- <- <-. revert Hd. case_if as E3.
  - destruct (issueEnrollment _ _ _ _ _ _) as [[db2 x]|] eqn:Ei; [|done]. cbn [fst snd].
    destruct (auditAuth _ _ _ _ _ _) eqn:Ea; [|done]. intros [= <- _]. apply audit_credentials in Ea as ->.
    apply issueEnrollment_credentials in Ei as [= E4 E5 E6 _]. unfold credentials. cbn. fold (codes db2). congruence.
  - destruct (issuePasswordSession _ _ _ _ _ _) as [[db2 x]|] eqn:Ei; [|done]. cbn [fst snd].
    destruct (auditAuth _ _ _ _ _ _) eqn:Ea; [|done]. intros [= <- _]. apply audit_credentials in Ea as ->.
    apply issueSession_credentials in Ei as [= E4 E5 E6 _]. unfold credentials. cbn. fold (codes db2). congruence.
Qed.

Lemma login_ConsumeCounter_spends c db ref n db' :
  login_ConsumeCounter c db ref n = (db', Ok true) -> spends db db' [ECode ref n (c_challenge c) (c_session c)].
Proof.
  unfold login_ConsumeCounter. case_if as E1; [done|]. destruct (advance_counter _ _ _) as [m|] eqn:Em; [|done].
  destruct (consume_challenge _ _ _ _ _ _) as [chs|]; [|done]. destruct (insert_session _ _ _ _ _ _ _ _) as [db1|] eqn:Ei; [|done].
  destruct (auditAuth _ _ _ _ _ _) as [db2|] eqn:Ea; [|done]. intros [= <-]. eapply spends_code; [exact Em|].
  apply audit_credentials in Ea as ->. by apply insert_credentials in Ei as ->.
Qed.

Lemma CompleteTOTP_spends challenge code e db db' r st' :
  st' = answered AGrant r -> CompleteTOTP (store_ v) challenge code e db = Commit db' r -> spends db db' (proved v (STotp challenge code) e db db' st').
Proof.
  intros ->. unfold CompleteTOTP, proved. destruct (tokenHash challenge) as [hash|]; [|done].
  case_if as E1; [done|]. case_if as E2; [done|]. destruct (challenges db !! hash) as [ch|] eqn:Ech; [|done].
  destruct (db_accounts db !! _) as [a|]; [|done]. case_if as E3; [done|]. destruct (db_totp db !! _) as [cred|] eqn:Ec; [|done].
  case_if as E4; [done|]. destruct (vault.open _ _ _ _) as [secret|] eqn:Eo; [|done].
  destruct (token e 0) as [raw sh] eqn:Et0, (token e 1) as [raw1 sh1].
  destruct (verify_and_consume _ _ _ _ _ _) as [db1 [u|er]] eqn:Ev.
  - intros [= <- <-]. apply verify_and_consume_ok in Ev as (n & Em & Ev). cbn [answered code_event]. rewrite Em.
    by apply login_ConsumeCounter_spends in Ev.
  - destruct er; try done. destruct (if _ : bool then _ else _) as [action res].
    destruct (auditAuth _ _ _ _ _ _) as [db2|] eqn:Ea; [|done]. intros [= <- <-]. cbn [answered]. apply spends_nothing; [|done].
    by apply audit_credentials in Ea as ->.
Qed.

Lemma recovery_finish_spends attempt slot code e db db' g :
  recovery_finish (store_ v) attempt slot e db = Commit db' g ->
  spends db db' [ERecovery (v_ref (a_state attempt)) slot (rc_hash (record_of attempt slot)) code (v_challenge (a_state attempt)) (snd (token e 0))].
Proof.
  unfold recovery_finish. case_if as E1; [done|]. destruct (loadRecovery _ _ _) as [st|]; [|done]. case_if as E2; [done|].
  destruct (codes db !! _) as [r|]; [|done]. case_if as E3; [done|]. destruct (token e 0) as [raw sh], (token e 1) as [raw1 ch1].
  destruct (commitRecovery _ _ _ _ _ _ _) as [db1|] eqn:Ec; [|done]. intros [= <- _]. revert Ec. unfold commitRecovery.
  destruct (codes db !! _) as [r'|] eqn:Er; [|done]. case_if as E4; [done|]. to_prop. destruct (consume_challenge _ _ _ _ _ _) as [chs|]; [|done].
  destruct (insert_session _ _ _ _ _ _ _ _) as [db2|] eqn:Ei; [|done]. intros Ea. eapply spends_recovery; [exact Er | done |].
  apply audit_credentials in Ea as ->. by apply insert_credentials in Ei as ->.
Qed.

Lemma update_enrollment_credentials hash f t db db' : update_enrollment hash f t db = Some db' -> credentials db' = credentials db.
Proof. unfold update_enrollment. case_row hash; [|done]. case_if as E; [|done]. by intros [= <-]. Qed.

Lemma loadEnrollment_credential hash pe e db st : loadEnrollment hash pe e db = Ok st ->
  db_totp db !! adminauth.UserID (n_ref st) = None /\ exists a r, db_accounts db !! adminauth.UserID (n_ref st) = Some a /\
    ac_version a = adminauth.RVersion (n_ref st) /\ enrollments db !! hash = Some r /\
    default ("", "") (en_secret r) = (n_kid st, n_sealed st) /\ n_now st = ck e 4.
Proof.
  unfold loadEnrollment. case_if as E1; [done|]. case_if as E2; [done|]. destruct (enrollments db !! hash) as [r|] eqn:Er; [|done].
  destruct (db_accounts db !! _) as [a|] eqn:Ea; [|done]. case_if as E3; [done|]. destruct (db_totp db !! _) as [cred|] eqn:Et; [done|].
  case_if as E4; [done|]. destruct (default ("", "") (en_secret r)) as [kid sealed] eqn:Es. intros [= <-]. to_prop. cbn.
  split; [done|]. exists a, r. by split_and!.
Qed.

Lemma enrollment_finish_spends s attempt code b e db db' g st' :
  enrollment_finish s attempt code b e db = Commit db' g -> spends db db' (proved v (SEnroll_finish s attempt code b) e db db' st').
Proof.
  unfold enrollment_finish, proved. destruct (loadEnrollment _ _ _ _) as [st|] eqn:El; [|done].
  destruct (loadEnrollment_credential _ _ _ _ _ El) as (Hn & a & r & Ha & Hv & Er & Es & En). case_if as E1; [done|]. to_prop.
  rewrite Er, Es. match goal with E : n_ref st = ea_ref attempt |- _ => rewrite E in * end.
  destruct (vault.openEnrollment _ _ _ _ _) as [secret|] eqn:Eo; [|done]. cbn [of_auth].
  destruct (of_auth _) as [sealed|]; [|done]. destruct (token e 0) as [raw sh], (token e 1) as [raw1 ch].
  destruct (verify_and_consume _ _ _ _ _ _) as [db1 [u|er]] eqn:Ev; [|done]. intros [= <- _].
  apply verify_and_consume_ok in Ev as (n & Em & Ev). rewrite En in Em. cbn [code_event]. rewrite Em. revert Ev.
  unfold enrollment_ConsumeCounter. case_if as E2; [done|]. cbn [k_attempt k_recovery]. rewrite Er. case_if as E3; [done|].
  destruct (db_totp db !! adminauth.UserID (ea_ref attempt)) eqn:Et; [done|]. destruct (insert_codes _ _ _ _) as [cs|] eqn:Ecs; [|done].
  destruct (insert_session _ _ _ _ _ _ _ _) as [db5|] eqn:Ei; [|done]. destruct (auditAuth _ _ _ _ _ _) as [db6|] eqn:Ea; [|done].
  intros [= <-]. eapply spends_enrollment; [exact Et | exact Ha | exact Hv | exact Ecs |].
  apply audit_credentials in Ea as ->. by apply insert_credentials in Ei as ->.
Qed.

Lemma reauth_finish_spends tok r input before e db db' a st' :
  reauth_finish (v_security v) tok r input before e db = Commit db' a -> spends db db' (proved v (SReauth_finish tok r input before) e db db' st').
Proof.
  unfold reauth_finish. destruct (loadSession _ _ _) as [st|] eqn:El; [|done]. destruct (of_auth _); [|done]. case_if as E1; [done|].
  destruct (passwords db !! _) as [c|]; [|done]. case_if as E2; [done|]. destruct (reauth_factor _ _ _ _) as [db1|] eqn:Ef; [|done].
  apply loadSession_row in El as (row & acc & Hrow & _ & Ep & En & Eid & _).
  destruct (token e 0) as [proof ph] eqn:Et. case_if as E3; [done|]. cbn [db_proofs set_proofs]. destruct (expire_proofs _ _ !! ph); [done|].
  intros [= <- _]. set (db2 := log_audit _ _). assert (credentials db2 = credentials db1) as E2' by done. clearbody db2.
  revert Ef. unfold reauth_factor. cbn [proved]. rewrite Ep. case_if as E4.
  - apply negb_true_iff in E4. rewrite E4. intros [= <-]. by apply spends_nothing.
  - apply negb_false_iff in E4. rewrite E4, Hrow, Eid. destruct (db_totp db !! se_user row) as [cred|]; [|done].
    destruct (vault.open _ _ _ _) as [secret|]; [|done]. destruct (verify_and_consume _ _ _ _ _ _) as [db3 [u|er]] eqn:Ev; [|done].
    intros [= <-]. apply verify_and_consume_ok in Ev as (n & Em & Ev). cbn in En. rewrite En in Em. cbn [code_event]. rewrite Em, Et.
    revert Ev. unfold reauth_ConsumeCounter. case_if as E5; [done|]. destruct (advance_counter _ _ _) as [m|] eqn:Eadv; [|done].
    intros [= <-]. eapply spends_code; [exact Eadv|]. by rewrite E2'.
Qed.

Lemma run_credentials s tok r op e db db' w : run s tok r op e db = Commit db' w -> credentials db' = credentials db.
Proof.
  unfold run. destruct (tokenHash tok) as [h|]; [|done]. destruct op.
  { destruct (loadSession _ _ _); [|done]. by intros [= <- _]. }
  all: destruct r as [r|]; [|done]; case_if as E1; [done|]; destruct (loadSession _ _ _) as [st|]; [|done];
    destruct (adminauth.CheckMutation _ _ _); [|done].
  - destruct (touch_session _ _ _) as [db1|] eqn:Et; [|done]. intros [= <- _]. revert Et. unfold touch_session.
    case_row h; [|done]. case_if as E2; [|done]. by intros [= <-].
  - destruct (auditAuth _ _ _ _ _ _) as [db1|] eqn:Ea; [|done]. intros [= <- _]. by apply audit_credentials in Ea as ->.
Qed.
Lemma LogoutReplay_credentials s tok r e db db' b : LogoutReplay s tok r e db = Commit db' b -> credentials db' = credentials db.
Proof.
  unfold LogoutReplay. destruct r as [r|]; [|done]. case_if as E1; [done|]. case_if as E2.
  { unfold Logout. destruct (run _ _ _ _ _ _) as [| |db1 w] eqn:Er; try done. intros [= <- _]. by eapply run_credentials. }
  case_if as E3; [done|]. destruct (tokenHash tok) as [h|]; [|done]. destruct (logout_replay _ _ _ _ _ _ _) as [[]|]; try done.
  destruct (loadSession _ _ _) as [st|[[]| |]] eqn:El; try done; [|by destruct (logout_replay _ _ _ _ _ _ _) as [[]|]].
  destruct (adminauth.CheckMutation _ _ _); [|done]. case_if as E4; [done|]. case_row h; [done|].
  destruct (auditAuth _ _ _ _ _ _) as [db1|] eqn:Ea; [|done]. intros [= <- _]. by apply audit_credentials in Ea as ->.
Qed.

(** A command whose body refines the machine. *)
Lemma command_spends s tok r raw action target etag body ck tk db db' a log :
  plain log ->
  (forall db2 st cur db3 res, body db2 st cur = Ok (db3, res) -> spends db2 db3 log) ->
  command s tok r raw action target etag body ck tk db = Commit db' a -> spends db db' log.
Proof.
  intros E1 Hbody [[-> _]|(h & st0 & db2 & cur & db3 & res & _ & _ & Hq & _ & Hb & _ & Hq3)]%command_run; [by apply spends_nothing|].
  eapply spends_ext; [| |by eapply Hbody]; [by rewrite (quiet_credentials _ _ Hq) | by apply quiet_credentials].
Qed.

Lemma command_credentials s tok r raw action target etag body ck tk db db' a :
  (forall db2 st cur db3 res, body db2 st cur = Ok (db3, res) -> credentials db3 = credentials db2) ->
  command s tok r raw action target etag body ck tk db = Commit db' a -> credentials db' = credentials db.
Proof.
  intros Hbody [[-> _]|(h & st0 & db2 & cur & db3 & res & _ & _ & Hq & _ & Hb & _ & Hq3)]%command_run; [done|].
  by rewrite (quiet_credentials _ _ Hq3), (Hbody _ _ _ _ _ Hb), (quiet_credentials _ _ Hq).
Qed.

Lemma create_body_spends e input hash db st cur db' res : create_body e input hash db st cur = Ok (db', res) -> spends db db' [].
Proof.
  unfold create_body. case_if as E1; [done|]. case_if as E2; [intros [= <- _]; by apply spends_nothing|].
  case_if as E3; [intros [= <- _]; by apply spends_nothing|]. case_if as E4; [done|]. intros [= <- _]. to_prop.
  apply (spends_account _ _ (i_id input) (mkAccountRow (i_role input) true 1 false)); try done; [by apply eq_None_not_Some|].
  rewrite <- E1. done.
Qed.
Lemma change_body_spends e r id c db st cur db' res : change_body e r id c db st cur = Ok (db', res) -> spends db db' [].
Proof.
  unfold change_body. destruct (db_accounts db !! id) as [a|] eqn:Ea; [|intros [= <- _]; by apply spends_nothing].
  case_if as Ed; [intros [= <- _]; by apply spends_nothing|]. case_if as E; [intros [= <- _]; by apply spends_nothing|]. clear E.
  case_if as El; [intros [= <- _]; by apply spends_nothing|]. case_if as E; [done|].
  assert (is_admin a = true -> (match c with DeleteUser => true | ResetTOTP => false
    | UpdateUser role enabled => negb enabled || negb (bool_decide (role = adminauth.Admin)) end) = true -> 0 < other_admins id db) as Had.
  { unfold is_admin. intros Ha Hd. to_prop. rewrite Hd in El. rewrite bool_decide_eq_true_2 in El by done.
    match goal with He : ac_enabled a = true |- _ => rewrite He in El end. cbn in El. to_prop.
    pose proof (map_count_nonneg is_admin (delete id (db_accounts db))). unfold other_admins in *. lia. }
  destruct c as [| |role enabled]; intros [= <- _]; (eapply (spends_change _ _ id a); [done | | | | done]); try (by right); try (by left); try done.
  - auto.
  - unfold is_admin. cbn. rewrite Ed. cbn. intros Ha Hf. congruence.
  - unfold is_admin. cbn. intros Ha Hf. apply Had; [done|]. by destruct enabled, (bool_decide (role = adminauth.Admin)).
Qed.
Lemma policy_body_credentials e r enabled db st cur db' res : policy_body e r enabled db st cur = Ok (db', res) -> credentials db' = credentials db.
Proof.
  unfold policy_body. do 4 (case_if as E; [by intros [= <- _]|]; clear E). case_if as E; [done|].
  destruct (issuePasswordSession _ _ _ _ _ _) as [[db3 g]|] eqn:Ei; [|done]. cbn [fst]. intros Hx.
  assert (db' = set_mfa (snd (token e 0)) db3) as -> by (by injection Hx). apply issueSession_credentials in Ei.
  unfold set_mfa. case_row (snd (token e 0)); exact Ei.
Qed.
Lemma enroll_body_credentials s e tok r aad db st cur db' res : enroll_body s e tok r aad db st cur = Ok (db', res) -> credentials db' = credentials db.
Proof.
  unfold enroll_body. do 2 (case_if as E; [by intros [= <- _]|]; clear E). destruct (token e 0) as [proof hash]. unfold insert_enrollment.
  case_row hash; [done|]. case_row hash; [done|]. by intros [= <- _].
Qed.

(** Every transaction of the services is a step of the machine. *)
Lemma next_spends st e db db' st' : flow.next IDKey v st e db = Commit db' st' -> spends db db' (proved v st e db db' st').
Proof.
  destruct st; cbn [flow.next]; unfold create_command; try (apply map_commit; intros a Ha Est).
  - apply spends_nothing; [|done]. revert Ha. unfold ReserveAuthHTTP. destruct (sourceValue peer); [|done].
    by destruct (http_loop _ _ _ _ _) as [b []]; intros [= <- _].
  - apply spends_nothing; [|done]. apply reserveAttempt_frame in Ha as [_ [= E1 E2 _ E3 E4]]. unfold credentials. congruence.
  - done.
  - apply spends_nothing; [|done]. revert Ha. unfold auditRejectedPassword. case_if as E; [done|].
    destruct (auditAuth _ _ _ _ _ _) eqn:Ea; [|done]. intros [= <- _]. by eapply audit_credentials.
  - apply spends_nothing; [|done]. by eapply finishPassword_credentials.
  - by eapply CompleteTOTP_spends.
  - apply spends_nothing; [|done]. revert Ha. unfold recovery_reserve. destruct (loadRecovery _ _ _); [|done]. case_if as E1; [done|].
    destruct (code_records _ _); [|done]. case_row hash; [|done]. case_if as E2; [done|]. by intros [= <- _].
  - by eapply recovery_finish_spends.
  - apply spends_nothing; [|done]. revert Ha. unfold Begin. destruct (tokenHash tok) as [hash|]; [|done].
    destruct (loadEnrollment _ _ _ _); [|done]. case_if as E1; [done|]. case_if as E2; (destruct (of_auth _); [|done]); [|by intros [= <- _]].
    destruct (update_enrollment _ _ _ _) eqn:Eu; [|done]. intros [= <- _]. by eapply update_enrollment_credentials.
  - apply spends_nothing; [|done]. revert Ha. unfold enrollment_reserve. destruct (loadEnrollment _ _ _ _); [|done]. case_if as E1; [done|].
    destruct (update_enrollment _ _ _ _) eqn:Eu; [|done]. intros [= <- _]. by eapply update_enrollment_credentials.
  - by eapply enrollment_finish_spends.
  - apply spends_nothing; [|done]. revert Ha. unfold IssueBootstrapToken. case_if as E0; [done|]. case_if as E; [done|].
    destruct (token e 0). intros [= <- _]. unfold credentials. by rewrite E0.
  - by destruct (bootstrap_snapshot _ _ _).
  - by destruct (setupApplied db).
  - by eapply finishBootstrap_spends.
  - apply spends_nothing; [|done]. by eapply run_credentials.
  - apply spends_nothing; [|done]. by eapply LogoutReplay_credentials.
  - by destruct (create_check _ _ _ _ _ _ _) as [[]|].
  - eapply command_spends; [done | | exact Ha]. done.
  - eapply command_spends; [done | | exact Ha]. intros *. apply create_body_spends.
  - revert Ha. unfold ChangeUser. case_if as E; [done|]. destruct (change_of _ _ _) as [c|]; [|done]. apply command_spends; [done|].
    intros *. apply change_body_spends.
  - revert Ha. unfold Policy. destruct (beginCommand _ _ _ _ _ _ _); [|done]. intros [= <- _]. by apply spends_nothing.
  - apply spends_nothing; [|by rewrite Est; destruct (snd a)]. revert Ha. unfold ChangePolicy.
    case_if as E1; [done|]. destruct (decode_enabled raw) as [[enabled|]|]; try done.
    destruct (command _ _ _ _ _ _ _ _ _ _ _) as [| |db1 a1] eqn:Ec; try done. intros Hx. assert (db1 = db') as -> by (by injection Hx).
    eapply command_credentials; [|exact Ec]. intros *. apply policy_body_credentials.
  - apply spends_nothing; [|cbn [proved]; by case_if as E]. revert Ha. unfold BeginPolicyEnrollment.
    case_if as E1; [done|]. destruct (command _ _ _ _ _ _ _ _ _ _ _) as [| |db1 a1] eqn:Ec; try done. intros Hx.
    assert (db1 = db') as -> by (by injection Hx). eapply command_credentials; [|exact Ec]. intros *. apply enroll_body_credentials.
  - destruct (enrollment_bound _ _ _ _ _ _); [|done]. by destruct (NewEnrollmentService _ _ _ _).
  - destruct (loadSession _ _ _); [|done]. intros [= <- _]. by apply spends_nothing.
  - by destruct (reauth_check _ _ _ _ _ _).
  - apply spends_nothing; [|done]. apply reserveAttempt_frame in Ha as [_ [= E1 E2 _ E3 E4]]. unfold credentials. congruence.
  - done.
  - by eapply reauth_finish_spends.
  - done.
Qed.

Definition code_sys (y : system) : Prop := code_inv (y_log y) (y_db y).
Lemma ystep_codes y l : code_sys y -> code_sys (ystep IDKey v y l).
Proof.
  intros Hi. unfold code_sys in *. destruct l; cbn [ystep].
  - by destruct (y_procs y !! id).
  - destruct (y_procs y !! id) as [st|]; [|done]. unfold advance, observe. pose proof (next_spends st e (y_db y)) as Hn.
    destruct (flow.next IDKey v st e (y_db y)) as [er|st'|db' st'], f; cbn; rewrite ?app_nil_r; try done; (eapply spends_inv; [exact Hi|]; by apply Hn).
  - cbn. eapply code_inv_same; [exact Hi|]. apply quiet_credentials, pexec_quiet.
Qed.
Lemma yrun_codes y ls : code_sys y -> code_sys (yrun IDKey v y ls).
Proof. unfold yrun. revert y. induction ls as [|l ls IH]; intros y Hy; [done|]. cbn. apply IH. by apply ystep_codes. Qed.

Lemma uninhabited_codes db : uninhabited db -> code_sys (installed db).
Proof.
  intros [Ea Et Es Ep Epw Ec Ee Eco Eb Ebo]. unfold code_sys. cbn. constructor; cbn; rewrite ?Et, ?Eco; try (intros; set_solver); constructor.
Qed.

(** C14: Second factors are spent once. In every history of an installation,
    through interleaved requests, lost answers, resets and new enrolments of
    accounts, the counters of the one-time codes accepted for a credential, at
    login, at enrolment and to confirm a command, strictly increase, and no
    recovery code of a credential is accepted twice. *)
Theorem second_factors_spent_once db ls :
  uninhabited db -> let log := y_log (yrun IDKey v (installed db) ls) in
  StronglySorted (fun x y => fst x = fst y -> snd x < snd y) (codes_of log) /\ NoDup (recoveries_of log).
Proof.
  intros Hu log. pose proof (yrun_codes _ ls (uninhabited_codes db Hu)) as Hi. split; apply Hi.
Qed.

Definition admin_sys (y : system) : Prop := admin_inv (y_log y) (y_db y).
Lemma ystep_admins y l : admin_sys y -> admin_sys (ystep IDKey v y l).
Proof.
  intros Hi. unfold admin_sys in *. destruct l; cbn [ystep].
  - by destruct (y_procs y !! id).
  - destruct (y_procs y !! id) as [st|]; [|done]. unfold advance, observe. pose proof (next_spends st e (y_db y)) as Hn.
    destruct (flow.next IDKey v st e (y_db y)) as [er|st'|db' st'], f; cbn; rewrite ?app_nil_r; try done; (eapply admin_inv_spends; [exact Hi|]; by apply Hn).
  - cbn. rewrite <- (app_nil_r (y_log y)). eapply admin_inv_spends; [exact Hi|]. apply spends_nothing; [|done]. apply quiet_credentials, pexec_quiet.
Qed.
Lemma yrun_admins y ls : admin_sys y -> admin_sys (yrun IDKey v y ls).
Proof. unfold yrun. revert y. induction ls as [|l ls IH]; intros y Hy; [done|]. cbn. apply IH. by apply ystep_admins. Qed.

(** C15: An administrator remains. In every history of an installation at most
    one first administrator is created with an installation token, and as soon
    as there is an account there is an enabled administrator that is not
    deleted: no change, deletion or demotion takes the last one away, so the
    check of the database itself never has to refuse. *)
Theorem an_administrator_remains db ls :
  uninhabited db -> let y := yrun IDKey v (installed db) ls in
  (List.length (firsts_of (y_log y)) <= 1)%nat /\
  (db_accounts (y_db y) <> ∅ -> exists id a, db_accounts (y_db y) !! id = Some a /\ is_admin a = true).
Proof.
  intros [Ea _ _ _ _ _ _ _ _ Ebo] y. assert (admin_sys y) as [H1' H2' H3'].
  { apply yrun_admins. constructor; cbn; [by rewrite Ea | congruence | lia]. }
  split; [done|]. intros Hne. destruct (bo_completed (bootstrap (y_db y))) eqn:Eb; [|by destruct (H1' eq_refl)].
  destruct (decide (map_Exists (fun _ a => is_admin a = true) (db_accounts (y_db y)))) as [(id & a & ? & ?)|Hno]; [by eauto|].
  specialize (H2' eq_refl). rewrite map_count_zero in H2'; [lia|]. intros id a Ha. destruct (is_admin a) eqn:E; [|done]. exfalso. apply Hno. by exists id, a.
Qed.
End refinement.
