(* ===== verification/AccountLimits.v ===== *)
(** * Guesses are limited

    The buckets of [login.go] and [http_limit.go] count attempts in minutes
    anchored at their first attempt, shared by all processes. The theorem turns
    them into a limit on every minute of a history with a clock that does not
    run backwards: an account, a source and the installation get at most twice
    their limit of attempts in any minute. *)

From S2P Require Import Prelude GoStd Keyring Control ConfigTrust AdminAuth Vault Password Publication CommandProps DataNode Origin Accounts Security AccountFlow AccountProps AccountSessions.
From stdpp Require Import base list gmap strings sorting pretty.
From Stdlib Require Import ZArith Lia Ascii String.
Import pgstore accounts security flow.
Local Open Scope Z_scope.

(** ** Attempts and their minutes *)

(** An attempt that a bucket admitted: its instant, and the first instant of
    the minute it was counted in. *)
Record slot := mkSlot { sl_key : string; sl_time : Z; sl_anchor : Z }.

(** The limit of a bucket, by its key. *)
Definition bucket_limit (key : string) : Z :=
  if String.eqb key "installation" then LoginInstallationLimit
  else if strs.HasPrefix key "source:" then LoginSourceLimit
  else if String.eqb key "http-installation" then AuthHTTPInstallationLimit
  else if strs.HasPrefix key "http-source:" then AuthHTTPSourceLimit
  else LoginAccountLimit.

Definition in_minute (key : string) (anchor : Z) (s : slot) : bool := String.eqb (sl_key s) key && (sl_anchor s =? anchor).
Definition minute_count (log : list slot) (key : string) (anchor : Z) : Z := Z.of_nat (countb (in_minute key anchor) log).

(** The buckets at an instant not before [c] account for the attempts of [log]. *)
Record budget (c : Z) (log : list slot) (b : gmap string bucket_row) : Prop := {
  bu_slot : forall s, s ∈ log -> sl_anchor s <= sl_time s < sl_anchor s + Minute;
  bu_apart : forall s s', s ∈ log -> s' ∈ log -> sl_key s = sl_key s' -> sl_anchor s < sl_anchor s' -> sl_anchor s + Minute <= sl_anchor s';
  bu_limit : forall key anchor, minute_count log key anchor <= bucket_limit key;
  bu_row : forall key r, b !! key = Some r -> bk_expires r = bk_started r + Minute /\ bk_started r <= c /\
    minute_count log key (bk_started r) <= bk_used r /\
    (forall s, s ∈ log -> sl_key s = key -> sl_anchor s = bk_started r \/ sl_anchor s + Minute <= bk_started r);
  bu_none : forall key, b !! key = None -> forall s, s ∈ log -> sl_key s = key -> sl_anchor s + Minute <= c
}.

Lemma minute_count_app l l' key a : minute_count (l ++ l') key a = minute_count l key a + minute_count l' key a.
Proof. unfold minute_count. rewrite countb_app. lia. Qed.
Lemma minute_count_nonneg l key a : 0 <= minute_count l key a.
Proof. unfold minute_count. lia. Qed.
Lemma minute_count_none l key a : (forall s, s ∈ l -> sl_key s = key -> sl_anchor s <> a) -> minute_count l key a = 0.
Proof.
  intros Hl. unfold minute_count. rewrite countb_none; [done|]. apply Forall_forall. intros s Hs. unfold in_minute.
  destruct (String.eqb_spec (sl_key s) key) as [E|]; [|done]. cbn. apply Z.eqb_neq. eauto.
Qed.

Lemma budget_later c c' log b : c <= c' -> budget c log b -> budget c' log b.
Proof.
  intros Hc [H1 H2 H3 H4 H5]. constructor; try done.
  - intros key r Hr. destruct (H4 key r Hr) as (? & ? & ? & ?). split_and!; try done. lia.
  - intros key Hn s Hs Hk. specialize (H5 key Hn s Hs Hk). lia.
Qed.
(** ** One bucket *)

(** A new minute begins: no attempt of the key is in it yet. *)
Lemma budget_new c log b key t :
  budget c log b -> c <= t -> 1 <= bucket_limit key -> (forall s, s ∈ log -> sl_key s = key -> sl_anchor s + Minute <= t) ->
  budget t (log ++ [mkSlot key t t]) (<[key := mkBucketRow t (t + Minute) 1]> b).
Proof.
  intros [H1 H2 H3 H4 H5] Hc Hl Hnew.
  assert (forall a, minute_count [mkSlot key t t] key a = b2z (t =? a)) as Hone.
  { intros a. unfold minute_count, countb, in_minute. cbn. rewrite String.eqb_refl. cbn. by destruct (t =? a). }
  assert (forall key' a, key' <> key -> minute_count [mkSlot key t t] key' a = 0) as Hother.
  { intros key' a Hne. apply minute_count_none. intros s ->%list_elem_of_singleton. cbn. congruence. }
  assert (minute_count log key t = 0) as Hz.
  { apply minute_count_none. intros s Hs Hk Ha. specialize (Hnew s Hs Hk). unfold Minute, Second in *. lia. }
  constructor.
  - intros s [Hs| ->%list_elem_of_singleton]%elem_of_app; [by apply H1|]. cbn. unfold Minute, Second. lia.
  - intros s s' [Hs| ->%list_elem_of_singleton]%elem_of_app [Hs'| ->%list_elem_of_singleton]%elem_of_app; cbn; intros Hk Hlt; [eauto | auto | | lia].
    specialize (Hnew s' Hs' (eq_sym Hk)). unfold Minute, Second in *. lia.
  - intros key' a. rewrite minute_count_app. destruct (decide (key' = key)) as [->|Hne]; [|rewrite Hother by done; specialize (H3 key' a); lia].
    rewrite Hone. destruct (Z.eqb_spec t a) as [<-|]; cbn; [lia|]. specialize (H3 key a). lia.
  - intros key' r [[<- <-]|[Hne Hr]]%lookup_insert_Some; cbn.
    + split_and!; [done | lia | rewrite minute_count_app, Hone, Z.eqb_refl; cbn; lia |].
      intros s [Hs| ->%list_elem_of_singleton]%elem_of_app Hk; [right; auto | by left].
    + destruct (H4 key' r Hr) as (? & ? & ? & Hx). split_and!; [done | lia | rewrite minute_count_app, Hother by done; lia |].
      intros s [Hs| ->%list_elem_of_singleton]%elem_of_app Hk; [auto | cbn in Hk; congruence].
  - intros key' [Hn Hne]%lookup_insert_None s [Hs| ->%list_elem_of_singleton]%elem_of_app Hk; [|cbn in Hk; congruence].
    specialize (H5 key' Hn s Hs Hk). lia.
Qed.

(** The minute goes on. *)
Lemma budget_more c log b key r now :
  budget c log b -> c <= now -> b !! key = Some r -> bk_started r <= now < bk_expires r -> bk_used r < bucket_limit key ->
  budget now (log ++ [mkSlot key now (bk_started r)]) (<[key := mkBucketRow (bk_started r) (bk_expires r) (bk_used r + 1)]> b).
Proof.
  intros [H1 H2 H3 H4 H5] Hc Hr Hnow Hu. destruct (H4 key r Hr) as (He & Hs0 & Hcnt & Hanch). set (a0 := bk_started r) in *.
  assert (forall a, minute_count [mkSlot key now a0] key a = b2z (a0 =? a)) as Hone.
  { intros a. unfold minute_count, countb, in_minute. cbn. rewrite String.eqb_refl. cbn. by destruct (a0 =? a). }
  assert (forall key' a, key' <> key -> minute_count [mkSlot key now a0] key' a = 0) as Hother.
  { intros key' a Hne. apply minute_count_none. intros s ->%list_elem_of_singleton. cbn. congruence. }
  constructor.
  - intros s [Hs| ->%list_elem_of_singleton]%elem_of_app; [by apply H1|]. cbn. lia.
  - intros s s' [Hs| ->%list_elem_of_singleton]%elem_of_app [Hs'| ->%list_elem_of_singleton]%elem_of_app; cbn; intros Hk Hlt; [eauto | | | lia].
    + destruct (Hanch s Hs Hk); lia.
    + destruct (Hanch s' Hs' (eq_sym Hk)) as [E|E]; [lia|]. unfold Minute, Second in *. lia.
  - intros key' a. rewrite minute_count_app. destruct (decide (key' = key)) as [->|Hne]; [|rewrite Hother by done; specialize (H3 key' a); lia].
    rewrite Hone. destruct (Z.eqb_spec a0 a) as [<-|]; cbn; [lia|]. specialize (H3 key a). lia.
  - intros key' r' [[<- <-]|[Hne Hr']]%lookup_insert_Some; cbn.
    + split_and!; [done | lia | rewrite minute_count_app, Hone, Z.eqb_refl; cbn; lia |].
      intros s [Hs| ->%list_elem_of_singleton]%elem_of_app Hk; [auto | by left].
    + destruct (H4 key' r' Hr') as (? & ? & ? & Hx). split_and!; [done | lia | rewrite minute_count_app, Hother by done; lia |].
      intros s [Hs| ->%list_elem_of_singleton]%elem_of_app Hk; [auto | cbn in Hk; congruence].
  - intros key' [Hn Hne]%lookup_insert_None s [Hs| ->%list_elem_of_singleton]%elem_of_app Hk; [|cbn in Hk; congruence].
    specialize (H5 key' Hn s Hs Hk). lia.
Qed.

Lemma bucket_limit_pos key : 1 <= bucket_limit key.
Proof. unfold bucket_limit. by repeat case_match. Qed.

(** What a reservation added to the log: an attempt under the key, at an
    instant of the reservation. *)
Definition counted (key : string) (from to_ : Z) (xs : list slot) : Prop :=
  exists s, s ∈ xs /\ sl_key s = key /\ from <= sl_time s <= to_.

Lemma take_bucket_budget c log b b' key t now :
  budget c log b -> c <= t <= now -> take_bucket key (bucket_limit key) t now b = Taken b' ->
  exists s, sl_key s = key /\ t <= sl_time s <= now /\ budget now (log ++ [s]) b'.
Proof.
  intros Hb Ht. pose proof (bucket_limit_pos key) as Hl. unfold take_bucket. destruct (b !! key) as [r|] eqn:Er.
  - destruct (bu_row _ _ _ Hb key r Er) as (He & _ & _ & Hanch). case_if as E1; [done|]. apply orb_false_iff in E1 as [E0 E1].
    case_if as E2; intros [= <-].
    + exists (mkSlot key now now). split_and!; cbn; [done | lia | lia |]. to_prop. eapply budget_new; [exact Hb | lia | done |].
      intros s Hs Hk. destruct (Hanch s Hs Hk); unfold Minute, Second in *; lia.
    + exists (mkSlot key now (bk_started r)). split_and!; cbn; [done | lia | lia |]. apply negb_false_iff in E2. rewrite E2 in E1.
      cbn in E1. to_prop. eapply budget_more; [exact Hb | lia | done | lia | lia].
  - intros [= <-]. exists (mkSlot key t t). split_and!; cbn; [done | lia | lia |].
    eapply budget_later; [|eapply budget_new; [exact Hb | | done |]]; [lia | lia |].
    intros s Hs Hk. pose proof (bu_none _ _ _ Hb key Er s Hs Hk). lia.
Qed.

(** A full bucket is marked; the marks do not lower it. *)
Lemma budget_mark c log b key r :
  budget c log b -> b !! key = Some r ->
  budget c log (<[key := mkBucketRow (bk_started r) (bk_expires r) (bucket_limit key + 1)]> b).
Proof.
  intros [H1 H2 H3 H4 H5] Hr. constructor; try done.
  - intros key' r' [[<- <-]|[Hne Hr']]%lookup_insert_Some; [|by apply H4]. cbn. destruct (H4 key r Hr) as (? & ? & _ & ?).
    split_and!; try done. specialize (H3 key (bk_started r)). lia.
  - intros key' [Hn _]%lookup_insert_None. by apply H5.
Qed.
(** Rows that ended are deleted. *)
Lemma budget_prune c t log b f :
  budget c log b -> c <= t -> (forall k r, f k r = false -> bk_expires r <= t) -> budget t log (keep f b).
Proof.
  intros [H1 H2 H3 H4 H5] Ht Hf. constructor; try done.
  - intros key r [Hr _]%lookup_keep. destruct (H4 key r Hr) as (? & ? & ? & ?). split_and!; try done. lia.
  - intros key Hn s Hs Hk. destruct (b !! key) as [r|] eqn:Er; [|specialize (H5 key Er s Hs Hk); lia].
    destruct (f key r) eqn:Ef; [assert (keep f b !! key = Some r) by (by apply lookup_keep); congruence|].
    specialize (Hf _ _ Ef). destruct (H4 key r Er) as (? & ? & ? & Hx). destruct (Hx s Hs Hk); unfold Minute, Second in *; lia.
Qed.

(** ** A minute holds at most two counted minutes *)

Definition in_span (key : string) (t0 : Z) (s : slot) : bool := String.eqb (sl_key s) key && (t0 <=? sl_time s) && (sl_time s <? t0 + Minute).

Lemma countb_le {A} (p q : A -> bool) l : (forall x, x ∈ l -> p x = true -> q x = true) -> (countb p l <= countb q l)%nat.
Proof.
  unfold countb. induction l as [|x l IH]; intros Hp; cbn; [lia|]. specialize (IH ltac:(intros; apply Hp; set_solver)).
  pose proof (Hp x ltac:(set_solver)). destruct (p x), (q x); cbn; try lia.
Qed.
Lemma countb_orb {A} (p q : A -> bool) l : (countb (fun x => p x || q x) l <= countb p l + countb q l)%nat.
Proof. unfold countb. induction l as [|x l IH]; cbn; [lia|]. destruct (p x), (q x); cbn; lia. Qed.

Lemma span_anchors c log b key t0 :
  budget c log b -> exists a1 a2, forall s, s ∈ log -> in_span key t0 s = true -> sl_anchor s = a1 \/ sl_anchor s = a2.
Proof.
  intros [H1 H2 _ _ _]. destruct (decide (Exists (fun s => in_span key t0 s = true) log)) as [(s1 & Hs1 & E1)%Exists_exists|Hno].
  - destruct (decide (Exists (fun s => in_span key t0 s = true /\ sl_anchor s <> sl_anchor s1) log)) as [(s2 & Hs2 & E2 & Hne)%Exists_exists|Hno].
    + exists (sl_anchor s1), (sl_anchor s2). intros s3 Hs3 E3. unfold in_span in *. to_prop.
      pose proof (H1 _ Hs1). pose proof (H1 _ Hs2). pose proof (H1 _ Hs3).
      assert (sl_key s1 = sl_key s2 /\ sl_key s2 = sl_key s3 /\ sl_key s1 = sl_key s3) as (K1 & K2 & K3) by (split_and!; congruence).
      pose proof (H2 _ _ Hs1 Hs2 K1). pose proof (H2 _ _ Hs2 Hs1 (eq_sym K1)). pose proof (H2 _ _ Hs1 Hs3 K3).
      pose proof (H2 _ _ Hs3 Hs1 (eq_sym K3)). pose proof (H2 _ _ Hs2 Hs3 K2). pose proof (H2 _ _ Hs3 Hs2 (eq_sym K2)).
      destruct (Z.eq_dec (sl_anchor s3) (sl_anchor s1)); [by left|]. right. unfold Minute, Second in *. lia.
    + exists (sl_anchor s1), (sl_anchor s1). intros s Hs E. left. destruct (Z.eq_dec (sl_anchor s) (sl_anchor s1)); [done|].
      exfalso. apply Hno, Exists_exists. eauto.
  - exists 0, 0. intros s Hs E. exfalso. apply Hno, Exists_exists. eauto.
Qed.

Lemma span_limit c log b key t0 : budget c log b -> Z.of_nat (countb (in_span key t0) log) <= 2 * bucket_limit key.
Proof.
  intros Hb. destruct (span_anchors _ _ _ key t0 Hb) as (a1 & a2 & Ha). pose proof (bu_limit _ _ _ Hb key a1) as L1. pose proof (bu_limit _ _ _ Hb key a2) as L2.
  unfold minute_count in *. pose proof (countb_orb (in_minute key a1) (in_minute key a2) log).
  pose proof (countb_le (in_span key t0) (fun s => in_minute key a1 s || in_minute key a2 s) log) as Hle.
  lapply Hle; [lia|]. intros s Hs E. pose proof (Ha s Hs E) as Hor. unfold in_span in E. unfold in_minute. to_prop.
  match goal with E : sl_key s = key |- _ => rewrite E end. rewrite String.eqb_refl. cbn. destruct Hor as [-> | ->]; rewrite Z.eqb_refl, ?orb_true_r; done.
Qed.

Section limits.
Context `{Sha256} `{HmacSha256} `{adminauth.HmacSha1} `{AEAD}.
Context `{Codec control.Config} `{Codec control.Delivery} `{Codec configtrust.Snapshot} `{Codec configtrust.envelope} `{Ed25519}.
Context `{Wire} `{AccountWire}.
Context (IDKey : string -> string -> Z -> string) (v : services).

(** ** Reservations *)

(** The clock of a transaction does not run backwards. *)
Definition steady (e : env) : bool := forallb (fun i => ck e i <=? ck e (S i)) (seq 0 9).
Lemma steady_le e i j : steady e = true -> (i <= j <= 9)%nat -> ck e i <= ck e j.
Proof.
  intros Hs Hij. induction j as [|j IH]; [by assert (i = 0)%nat as -> by lia|].
  destruct (decide (i = S j)) as [->|]; [lia|]. specialize (IH ltac:(lia)). unfold steady in Hs. rewrite forallb_forall in Hs.
  specialize (Hs j ltac:(apply in_seq; lia)). lia.
Qed.

Lemma login_key_limit l user source e i : (i < 3)%nat -> login_limit i = bucket_limit (login_key l user source e i).
Proof.
  intros Hi. destruct i as [|[|[|]]]; [done | | |lia]; unfold login_key; [by destruct (fingerprint l _ source) | by destruct (fingerprint l _ user)].
Qed.
Lemma http_key_limit l source e i : (i < 2)%nat -> http_limit i = bucket_limit (http_key l source e i).
Proof. intros Hi. destruct i as [|[|]]; [done | |lia]. unfold http_key. by destruct (fingerprint l _ source). Qed.

Lemma reserve_loop_budget l user source e c log i n db db' ok :
  steady e = true -> (i + n <= 3)%nat -> c <= ck e (3 * i) -> budget c log (buckets db) ->
  reserve_loop l user source e (seq i n) db = Ok (db', ok) ->
  exists xs, budget (ck e 9) (log ++ xs) (buckets db') /\
    (ok = true -> forall j, (i <= j < i + n)%nat -> counted (login_key l user source e j) (ck e 0) (ck e 9) xs).
Proof.
  intros Hs. revert c log i db. induction n as [|n IH]; intros c log i db Hi Hc Hb.
  - intros [= <- <-]. exists []. rewrite app_nil_r. split; [eapply budget_later; [|exact Hb] | intros; lia].
    pose proof (steady_le e (3 * i) 9 Hs ltac:(lia)). lia.
  - cbn [seq reserve_loop]. rewrite (login_key_limit l user source e i) by lia. set (key := login_key l user source e i).
    pose proof (steady_le e (3 * i) (3 * i + 1) Hs ltac:(lia)). pose proof (steady_le e (3 * i + 1) (3 * i + 2) Hs ltac:(lia)).
    pose proof (steady_le e (3 * i + 2) (3 * S i) Hs ltac:(lia)). pose proof (steady_le e (3 * i + 2) 9 Hs ltac:(lia)).
    pose proof (steady_le e 0 (3 * i + 1) Hs ltac:(lia)).
    destruct (take_bucket _ _ _ _ _) as [b'|r] eqn:Et.
    + intros Hl. destruct (take_bucket_budget _ _ _ _ key (ck e (3 * i + 1)) (ck e (3 * i + 2)) Hb ltac:(lia) Et) as (s & Hk & Ht & Hb').
      destruct (IH (ck e (3 * i + 2)) (log ++ [s]) (S i) (set_buckets db b') ltac:(lia) ltac:(lia) Hb' Hl) as (xs & Hx & Hok).
      exists (s :: xs). rewrite <- app_assoc in Hx. split; [exact Hx|]. intros Ht' j Hj. destruct (decide (j = i)) as [->|].
      * exists s. split_and!; [set_solver | done | lia | lia].
      * destruct (Hok Ht' j ltac:(lia)) as (s' & ? & ? & ?). exists s'. split_and!; [set_solver | done | lia | lia].
    + assert (buckets db !! key = Some r) as Hr.
      { revert Et. unfold take_bucket. destruct (buckets db !! key); [|done]. repeat case_match; by intros [= <-]. }
      intros Hl. exists []. rewrite app_nil_r. revert Hl. case_if as E; intros Hl.
      * destruct (auditAuth _ _ _ _ _ _) as [db1|] eqn:Ha; [|done]. injection Hl as <- <-. split; [|done].
        assert (buckets db1 = <[key:=mkBucketRow (bk_started r) (bk_expires r) (bucket_limit key + 1)]> (buckets db)) as ->
          by (by apply auditAuth_ok in Ha as [->|[row ->]]).
        eapply budget_later; [|by apply budget_mark]. lia.
      * injection Hl as <- <-. split; [|done]. eapply budget_later; [|exact Hb]. lia.
Qed.

Lemma reserveAttempt_budget l user source e c log db db' r :
  steady e = true -> c <= ck e 0 -> budget c log (buckets db) -> reserveAttempt l user source e db = Commit db' r ->
  exists xs, budget (ck e 9) (log ++ xs) (buckets db') /\
    (r = Ok tt -> forall j, (j < 3)%nat -> counted (login_key l user source e j) (ck e 0) (ck e 9) xs).
Proof.
  intros Hs Hc Hb. unfold reserveAttempt. destruct (reserve_loop _ _ _ _ _ _) as [[db1 ok]|] eqn:El; [|done].
  destruct (reserve_loop_budget l user source e c log 0 3 db db1 ok Hs ltac:(lia) Hc Hb El) as (xs & Hx & Hok).
  destruct ok; intros [= <- <-]; exists xs; (split; [|try done]).
  - eapply budget_prune; [exact Hx | lia |]. intros k row. by destruct (bk_expires row <=? ck e 9) eqn:E; [lia|].
  - intros _ j Hj. apply Hok; [done | lia].
  - exact Hx.
Qed.

Lemma http_loop_budget l source e c log i n b b' ok :
  steady e = true -> (i + n <= 2)%nat -> c <= ck e (3 * i) -> budget c log b -> http_loop l source e (seq i n) b = (b', ok) ->
  exists xs, budget (ck e 9) (log ++ xs) b' /\
    (ok = true -> forall j, (i <= j < i + n)%nat -> counted (http_key l source e j) (ck e 0) (ck e 9) xs).
Proof.
  intros Hs. revert c log i b. induction n as [|n IH]; intros c log i b Hi Hc Hb.
  - intros [= <- <-]. exists []. rewrite app_nil_r. split; [eapply budget_later; [|exact Hb] | intros; lia].
    pose proof (steady_le e (3 * i) 9 Hs ltac:(lia)). lia.
  - cbn [seq http_loop]. rewrite (http_key_limit l source e i) by lia. set (key := http_key l source e i).
    pose proof (steady_le e (3 * i) (3 * i + 1) Hs ltac:(lia)). pose proof (steady_le e (3 * i + 1) (3 * i + 2) Hs ltac:(lia)).
    pose proof (steady_le e (3 * i + 2) (3 * S i) Hs ltac:(lia)). pose proof (steady_le e (3 * i + 2) 9 Hs ltac:(lia)).
    pose proof (steady_le e 0 (3 * i + 1) Hs ltac:(lia)).
    destruct (take_bucket _ _ _ _ _) as [b1|r] eqn:Et; intros Hl.
    + destruct (take_bucket_budget _ _ _ _ key (ck e (3 * i + 1)) (ck e (3 * i + 2)) Hb ltac:(lia) Et) as (s & Hk & Ht & Hb').
      destruct (IH (ck e (3 * i + 2)) (log ++ [s]) (S i) b1 ltac:(lia) ltac:(lia) Hb' Hl) as (xs & Hx & Hok).
      exists (s :: xs). rewrite <- app_assoc in Hx. split; [exact Hx|]. intros Ht' j Hj. destruct (decide (j = i)) as [->|].
      * exists s. split_and!; [set_solver | done | lia | lia].
      * destruct (Hok Ht' j ltac:(lia)) as (s' & ? & ? & ?). exists s'. split_and!; [set_solver | done | lia | lia].
    + injection Hl as <- <-. exists []. rewrite app_nil_r. split; [|done]. eapply budget_later; [|exact Hb]. lia.
Qed.

Lemma ReserveAuthHTTP_budget l peer e c log db db' r :
  steady e = true -> c <= ck e 0 -> budget c log (buckets db) -> ReserveAuthHTTP l peer e db = Commit db' r ->
  exists xs, budget (ck e 9) (log ++ xs) (buckets db') /\
    (r = Ok tt -> forall source j, sourceValue peer = Some source -> (j < 2)%nat -> counted (http_key l source e j) (ck e 0) (ck e 9) xs).
Proof.
  intros Hs Hc Hb. unfold ReserveAuthHTTP. destruct (sourceValue peer) as [source|]; [|done].
  destruct (http_loop _ _ _ _ _) as [b ok] eqn:El.
  destruct (http_loop_budget l source e c log 0 2 _ _ ok Hs ltac:(lia) Hc Hb El) as (xs & Hx & Hok).
  destruct ok; intros [= <- <-]; exists xs; (split; [|try done]).
  - eapply budget_prune; [exact Hx | lia |]. intros k row. destruct (bk_expires row <=? ck e 9) eqn:E; [lia|]. by rewrite andb_false_r.
  - intros _ ? j [= <-] Hj. apply Hok; [done | lia].
  - exact Hx.
Qed.

(** ** The other transactions do not touch the buckets *)

Lemma quiet_buckets db db' : quiet db db' -> buckets db' = buckets db.
Proof. intros [[= _ _ _ E] _ _]. unfold buckets. by rewrite E. Qed.
Lemma audit_buckets s u a r i db db' : auditAuth s u a r i db = Ok db' -> buckets db' = buckets db.
Proof. by intros [-> | [row ->]]%auditAuth_ok. Qed.
Lemma insert_session_buckets sh ch u pv uv mfa t db db' : insert_session sh ch u pv uv mfa t db = Ok db' -> buckets db' = buckets db.
Proof. unfold insert_session. destruct (db_sessions db !! sh); [done|]. by intros [= <-]. Qed.
Lemma issueEnrollment_buckets u pv uv t e db db' x : issueEnrollment u pv uv t e db = Ok (db', x) -> buckets db' = buckets db.
Proof. unfold issueEnrollment, insert_enrollment. destruct (token e 0) as [raw hash]. case_row hash; [done|]. by intros [= <- _]. Qed.
Lemma issueSession_buckets u pv uv mfa t e db db' g : issueSession u pv uv mfa t 0 e db = Ok (db', g) -> buckets db' = buckets db.
Proof.
  unfold issueSession. destruct (token e 0), (token e 1). destruct (insert_session _ _ _ _ _ _ _ _) as [db1|] eqn:E; [|done].
  intros [= <- _]. by apply insert_session_buckets in E.
Qed.
Lemma update_enrollment_buckets hash f t db db' : update_enrollment hash f t db = Some db' -> buckets db' = buckets db.
Proof. unfold update_enrollment. case_row hash; [|done]. case_if as E; [|done]. by intros [= <-]. Qed.

(** Follow a transaction to its commit and compare the buckets. *)
Ltac same_buckets :=
  repeat first
    [ progress simplify_eq/=
    | match goal with p : (DB * _)%type |- _ => destruct p end
    | match goal with
      | H : auditAuth _ _ _ _ _ _ = Ok _ |- _ => apply audit_buckets in H
      | H : insert_session _ _ _ _ _ _ _ _ = Ok _ |- _ => apply insert_session_buckets in H
      | H : issueEnrollment _ _ _ _ _ _ = Ok _ |- _ => apply issueEnrollment_buckets in H
      | H : update_enrollment _ _ _ _ = Some _ |- _ => apply update_enrollment_buckets in H
      end
    | case_match; try done ];
  repeat progress (unfold buckets in *; cbn in *); congruence.

Lemma finishPassword_buckets l before e db db' r : finishPassword l before e db = Commit db' r -> buckets db' = buckets db.
Proof. unfold finishPassword, insert_challenge, issuePasswordSession, issueSession. intros Hf. same_buckets. Qed.
Lemma finishBootstrap_buckets l hash user pw before e db db' r :
  finishBootstrap l hash user pw before e db = Commit db' r -> buckets db' = buckets db.
Proof. unfold finishBootstrap, issuePasswordSession, issueSession. intros Hf. same_buckets. Qed.
Lemma login_ConsumeCounter_buckets c db ref n db' : login_ConsumeCounter c db ref n = (db', Ok true) -> buckets db' = buckets db.
Proof. unfold login_ConsumeCounter. intros Hf. same_buckets. Qed.
Lemma CompleteTOTP_buckets s challenge code e db db' r : CompleteTOTP s challenge code e db = Commit db' r -> buckets db' = buckets db.
Proof.
  unfold CompleteTOTP. destruct (tokenHash challenge) as [hash|]; [|done]. do 2 (case_if as E; [done|]; clear E).
  destruct (challenges db !! hash) as [ch|]; [|done]. destruct (db_accounts db !! _) as [a|]; [|done]. case_if as E3; [done|].
  destruct (db_totp db !! _) as [cred|]; [|done]. case_if as E4; [done|]. destruct (vault.open _ _ _ _) as [secret|]; [|done].
  destruct (token e 0), (token e 1). destruct (verify_and_consume _ _ _ _ _ _) as [db1 [[]|er]] eqn:Ev.
  - intros [= <- _]. apply verify_and_consume_ok in Ev as (n & _ & Ev). by apply login_ConsumeCounter_buckets in Ev.
  - destruct er; try done. intros Hf. same_buckets.
Qed.
Lemma recovery_finish_buckets s attempt slot e db db' g : recovery_finish s attempt slot e db = Commit db' g -> buckets db' = buckets db.
Proof. unfold recovery_finish, commitRecovery. intros Hf. same_buckets. Qed.
Lemma enrollment_ConsumeCounter_buckets c db ref n db' : enrollment_ConsumeCounter c db ref n = (db', Ok true) -> buckets db' = buckets db.
Proof. unfold enrollment_ConsumeCounter. intros Hf. same_buckets. Qed.
Lemma enrollment_finish_buckets s attempt code b e db db' g : enrollment_finish s attempt code b e db = Commit db' g -> buckets db' = buckets db.
Proof.
  unfold enrollment_finish. destruct (loadEnrollment _ _ _ _) as [st|]; [|done]. case_if as E1; [done|]. do 2 (destruct (of_auth _); [|done]).
  destruct (token e 0), (token e 1). destruct (verify_and_consume _ _ _ _ _ _) as [db1 [[]|er]] eqn:Ev; [|done]. intros [= <- _].
  apply verify_and_consume_ok in Ev as (n & _ & Ev). by apply enrollment_ConsumeCounter_buckets in Ev.
Qed.
Lemma reauth_finish_buckets s tok r input before e db db' a : reauth_finish s tok r input before e db = Commit db' a -> buckets db' = buckets db.
Proof.
  unfold reauth_finish. destruct (loadSession _ _ _) as [st|]; [|done]. destruct (of_auth _); [|done]. case_if as E1; [done|].
  destruct (passwords db !! _) as [c|]; [|done]. case_if as E2; [done|]. destruct (reauth_factor _ _ _ _) as [db1|] eqn:Ef; [|done].
  destruct (token e 0) as [proof ph]. case_if as E3; [done|]. cbn [db_proofs set_proofs]. destruct (expire_proofs _ _ !! ph); [done|].
  intros [= <- _]. cbn. revert Ef. unfold reauth_factor. case_if as E4; [by intros [= <-]|].
  destruct (db_totp db !! _) as [cred|]; [|done]. destruct (vault.open _ _ _ _); [|done].
  destruct (verify_and_consume _ _ _ _ _ _) as [db3 [[]|er]] eqn:Ev; [|done]. intros [= <-].
  apply verify_and_consume_ok in Ev as (n & _ & Ev). revert Ev. unfold reauth_ConsumeCounter. intros Hf. same_buckets.
Qed.
Lemma run_buckets s tok r op e db db' w : run s tok r op e db = Commit db' w -> buckets db' = buckets db.
Proof. unfold run, touch_session. intros Hf. same_buckets. Qed.
Lemma LogoutReplay_buckets s tok r e db db' b : LogoutReplay s tok r e db = Commit db' b -> buckets db' = buckets db.
Proof.
  unfold LogoutReplay. destruct r as [r|]; [|done]. case_if as E1; [done|]. case_if as E2; [|intros Hf; same_buckets].
  unfold Logout. destruct (run _ _ _ _ _ _) as [| |db1 w] eqn:Er; try done. intros [= <- _]. by eapply run_buckets.
Qed.
Lemma command_buckets s tok r raw action target etag body ck tk db db' a :
  (forall db2 st cur db3 res, body db2 st cur = Ok (db3, res) -> buckets db3 = buckets db2) ->
  command s tok r raw action target etag body ck tk db = Commit db' a -> buckets db' = buckets db.
Proof.
  intros Hbody [[-> _]|(h & st0 & db2 & cur & db3 & res & _ & _ & Hq & _ & Hb & _ & Hq3)]%command_run; [done|].
  by rewrite (quiet_buckets _ _ Hq3), (Hbody _ _ _ _ _ Hb), (quiet_buckets _ _ Hq).
Qed.
Lemma policy_body_buckets e r enabled db st cur db' res : policy_body e r enabled db st cur = Ok (db', res) -> buckets db' = buckets db.
Proof.
  unfold policy_body. do 4 (case_if as E; [by intros [= <- _]|]; clear E). case_if as E; [done|].
  destruct (issuePasswordSession _ _ _ _ _ _) as [[db3 g]|] eqn:Ei; [|done]. cbn [fst]. intros Hx.
  assert (db' = set_mfa (snd (token e 0)) db3) as -> by (by injection Hx). apply issueSession_buckets in Ei.
  unfold set_mfa. case_row (snd (token e 0)); exact Ei.
Qed.
Lemma enroll_body_buckets s e tok r aad db st cur db' res : enroll_body s e tok r aad db st cur = Ok (db', res) -> buckets db' = buckets db.
Proof.
  unfold enroll_body. do 2 (case_if as E; [by intros [= <- _]|]; clear E). destruct (token e 0) as [proof hash]. unfold insert_enrollment.
  case_row hash; [done|]. case_row hash; [done|]. by intros [= <- _].
Qed.
Lemma change_body_buckets e r id c db st cur db' res : change_body e r id c db st cur = Ok (db', res) -> buckets db' = buckets db.
Proof.
  unfold change_body. destruct (db_accounts db !! id); [|by intros [= <- _]]. do 3 (case_if as E; [by intros [= <- _]|]; clear E). case_if as E; [done|]. by destruct c; intros [= <- _].
Qed.
Lemma create_body_buckets e input hash db st cur db' res : create_body e input hash db st cur = Ok (db', res) -> buckets db' = buckets db.
Proof. unfold create_body. case_if as E; [done|]. do 2 (case_if as E'; [by intros [= <- _]|]; clear E'). case_if as E'; [done|]. by intros [= <- _]. Qed.

(** The stages that reserve an attempt. *)
Definition reserves (st : stage) : bool :=
  match st with SHttp _ | SLogin_reserve _ _ _ | SReauth_reserve _ _ _ _ _ => true | _ => false end.

Lemma next_buckets st e db db' st' : flow.next IDKey v st e db = Commit db' st' -> reserves st = false -> buckets db' = buckets db.
Proof.
  intros Hn Hr. revert Hn. destruct st; try discriminate Hr; cbn [flow.next]; unfold create_command; try (apply map_commit; intros a Ha Est).
  - done.
  - revert Ha. unfold auditRejectedPassword. intros Hf. same_buckets.
  - by eapply finishPassword_buckets.
  - by eapply CompleteTOTP_buckets.
  - revert Ha. unfold recovery_reserve. intros Hf. same_buckets.
  - by eapply recovery_finish_buckets.
  - revert Ha. unfold Begin. intros Hf. same_buckets.
  - revert Ha. unfold enrollment_reserve. intros Hf. same_buckets.
  - by eapply enrollment_finish_buckets.
  - revert Ha. unfold IssueBootstrapToken. intros Hf. same_buckets.
  - by destruct (bootstrap_snapshot _ _ _).
  - by destruct (setupApplied db).
  - by eapply finishBootstrap_buckets.
  - by eapply run_buckets.
  - by eapply LogoutReplay_buckets.
  - by destruct (create_check _ _ _ _ _ _ _) as [[]|].
  - eapply command_buckets; [|exact Ha]. done.
  - eapply command_buckets; [|exact Ha]. intros *. apply create_body_buckets.
  - revert Ha. unfold ChangeUser. case_if as E; [done|]. destruct (change_of _ _ _) as [c|]; [|done]. apply command_buckets.
    intros *. apply change_body_buckets.
  - revert Ha. unfold Policy. destruct (beginCommand _ _ _ _ _ _ _); [|done]. by intros [= <- _].
  - revert Ha. unfold ChangePolicy. case_if as E1; [done|]. destruct (decode_enabled raw) as [[enabled|]|]; try done.
    destruct (command _ _ _ _ _ _ _ _ _ _ _) as [| |db1 a1] eqn:Ec; try done. intros Hx. assert (db1 = db') as -> by (by injection Hx).
    eapply command_buckets; [|exact Ec]. intros *. apply policy_body_buckets.
  - revert Ha. unfold BeginPolicyEnrollment. case_if as E1; [done|]. destruct (command _ _ _ _ _ _ _ _ _ _ _) as [| |db1 a1] eqn:Ec; try done. intros Hx.
    assert (db1 = db') as -> by (by injection Hx). eapply command_buckets; [|exact Ec]. intros *. apply enroll_body_buckets.
  - destruct (enrollment_bound _ _ _ _ _ _); [|done]. by destruct (NewEnrollmentService _ _ _ _).
  - destruct (loadSession _ _ _); [|done]. by intros [= <- _].
  - by destruct (reauth_check _ _ _ _ _ _).
  - done.
  - by eapply reauth_finish_buckets.
  - done.
Qed.

(** ** Histories *)

(** An admitted attempt: the keys it was counted under, and the instants
    between which it was admitted. *)
Record attempt := mkAttempt { at_keys : list string; at_from : Z; at_to : Z }.
Definition login_keys (user source : string) (e : env) : list string := login_key (v_login v) user source e <$> [0%nat; 1%nat; 2%nat].
Definition http_keys (source : string) (e : env) : list string := http_key (v_login v) source e <$> [0%nat; 1%nat].

(** The attempt a transaction of a stage admitted. A reservation that commits
    is admitted even when its answer is lost. *)
Definition admitted (f : fault) (st : stage) (e : env) (db : DB) : list attempt :=
  match f, st with
  | Broken, _ => []
  | _, SHttp peer =>
      match ReserveAuthHTTP (v_login v) peer e db, sourceValue peer with
      | Commit _ (Ok _), Some source => [mkAttempt (http_keys source e) (ck e 0) (ck e 9)]
      | _, _ => []
      end
  | _, SLogin_reserve user _ source | _, SReauth_reserve _ _ _ user source =>
      match reserveAttempt (v_login v) user source e db with
      | Commit _ (Ok _) => [mkAttempt (login_keys user source e) (ck e 0) (ck e 9)]
      | _ => []
      end
  | _, _ => []
  end.
Definition admissions (y : system) (l : label) : list attempt :=
  match l with
  | LStep id e f => match y_procs y !! id with Some st => admitted f st e (y_db y) | None => [] end
  | _ => []
  end.
Fixpoint attempts_of (y : system) (ls : list label) : list attempt :=
  match ls with [] => [] | l :: ls => admissions y l ++ attempts_of (ystep IDKey v y l) ls end.

(** The clock of the database does not run backwards from [c] on. *)
Fixpoint ordered (c : Z) (ls : list label) : bool :=
  match ls with
  | [] => true
  | LStep _ e _ :: ls => (c <=? ck e 0) && steady e && ordered (ck e 9) ls
  | _ :: ls => ordered c ls
  end.

(** The attempts admitted under a key within the minute from [t0] on. *)
Definition within (key : string) (t0 : Z) (a : attempt) : bool :=
  bool_decide (key ∈ at_keys a) && (t0 <=? at_from a) && (at_to a <? t0 + Minute).

(** What the log of slots says of the attempts. *)
Definition covers (xs : list slot) (as_ : list attempt) : Prop :=
  forall key t0, (countb (within key t0) as_ <= countb (in_span key t0) xs)%nat.
Lemma covers_app xs ys a b : covers xs a -> covers ys b -> covers (xs ++ ys) (a ++ b).
Proof. intros Hx Hy key t0. rewrite !countb_app. specialize (Hx key t0). specialize (Hy key t0). lia. Qed.
Lemma covers_one xs keys from to_ : (forall key, key ∈ keys -> counted key from to_ xs) -> covers xs [mkAttempt keys from to_].
Proof.
  intros Hk key t0. destruct (within key t0 (mkAttempt keys from to_)) eqn:E; [|unfold countb at 1; cbn; rewrite E; cbn; lia].
  unfold countb at 1. cbn. rewrite E. cbn. unfold within in E. cbn in E. to_prop.
  destruct (Hk key ltac:(done)) as (s & Hs & Hkey & Ht). apply list_elem_of_split in Hs as (l1 & l2 & ->).
  rewrite countb_app. unfold countb at 2. cbn. assert (in_span key t0 s = true) as ->; [|cbn; lia].
  unfold in_span. rewrite Hkey, String.eqb_refl. cbn. apply andb_true_iff. split; lia.
Qed.

Lemma covers_nil xs : covers xs [].
Proof. intros key t0. cbn. lia. Qed.

(** A transaction that reaches the database keeps the budget and pays for the
    attempt it admits. *)
Lemma admitted_commit st e db c log :
  steady e = true -> c <= ck e 0 -> budget c log (buckets db) ->
  exists xs, budget (ck e 9) (log ++ xs) (buckets (fst (advance IDKey v NoFault st e db))) /\ covers xs (admitted NoFault st e db).
Proof.
  intros Hs Hc Hb. assert (c <= ck e 9) as Hc9 by (pose proof (steady_le e 0 9 Hs ltac:(lia)); lia).
  assert (exists xs, budget (ck e 9) (log ++ xs) (buckets db) /\ covers xs []) as Hsame.
  { exists []. rewrite app_nil_r. split; [by eapply budget_later | apply covers_nil]. }
  assert (forall user source, exists xs, budget (ck e 9) (log ++ xs) (buckets (match reserveAttempt (v_login v) user source e db with Commit db' _ => db' | _ => db end)) /\
    covers xs (match reserveAttempt (v_login v) user source e db with Commit _ (Ok _) => [mkAttempt (login_keys user source e) (ck e 0) (ck e 9)] | _ => [] end)) as Hattempt.
  { intros user source. destruct (reserveAttempt _ _ _ _ _) as [er|x|db' x] eqn:Ea; [done | done |].
    destruct (reserveAttempt_budget _ _ _ _ _ _ _ _ _ Hs Hc Hb Ea) as (xs & Hx & Hk). exists xs. split; [done|].
    destruct x as [[]|]; [|apply covers_nil]. apply covers_one. intros key (j & -> & Hj)%list_elem_of_fmap. apply Hk; [done|]. set_unfold. lia. }
  destruct (reserves st) eqn:Er.
  - destruct st; try discriminate Er; unfold advance, admitted; cbn [flow.next].
    + destruct (ReserveAuthHTTP _ _ _ _) as [er|x|db' x] eqn:Ea; [done | done |].
      destruct (ReserveAuthHTTP_budget _ _ _ _ _ _ _ _ Hs Hc Hb Ea) as (xs & Hx & Hk). exists xs. split; [done|].
      destruct x as [[]|]; [|apply covers_nil]. destruct (sourceValue peer) as [source|]; [|apply covers_nil].
      apply covers_one. intros key (j & -> & Hj)%list_elem_of_fmap. apply Hk; [done | done |]. set_unfold. lia.
    + specialize (Hattempt user source). by destruct (reserveAttempt _ _ _ _ _).
    + specialize (Hattempt user source). by destruct (reserveAttempt _ _ _ _ _).
  - assert (admitted NoFault st e db = []) as -> by by destruct st. unfold advance. pose proof (next_buckets st e db) as Hn.
    destruct (flow.next IDKey v st e db) as [er|x|db' x]; [done | done |]. cbn [fst]. by rewrite (Hn _ _ eq_refl Er).
Qed.

Lemma admitted_budget f st e db c log :
  steady e = true -> c <= ck e 0 -> budget c log (buckets db) ->
  exists xs, budget (ck e 9) (log ++ xs) (buckets (fst (advance IDKey v f st e db))) /\ covers xs (admitted f st e db).
Proof.
  intros Hs Hc Hb. pose proof (admitted_commit st e db c log Hs Hc Hb) as Ha. destruct f.
  - exact Ha.
  - exists []. rewrite app_nil_r. split; [|apply covers_nil]. unfold advance. cbn [fst]. eapply budget_later; [|exact Hb].
    pose proof (steady_le e 0 9 Hs ltac:(lia)). lia.
  - assert (admitted Lost st e db = admitted NoFault st e db) as -> by by destruct st.
    unfold advance in *. by destruct (flow.next IDKey v st e db).
Qed.

Lemma yrun_budget y ls c log :
  ordered c ls = true -> budget c log (buckets (y_db y)) -> exists c' xs, budget c' (log ++ xs) (buckets (y_db (yrun IDKey v y ls))) /\ covers xs (attempts_of y ls).
Proof.
  unfold yrun. revert y c log. induction ls as [|l ls IH]; intros y c log; cbn [fold_left attempts_of ordered].
  - intros _ Hb. exists c, []. rewrite app_nil_r. split; [done | apply covers_nil].
  - destruct l as [id q e|id e f|s o f]; intros Ho Hb.
    + apply (IH _ c); [done|]. cbn [ystep]. by destruct (y_procs y !! id).
    + apply andb_true_iff in Ho as [[Hc Hs]%andb_true_iff Ho]. cbn [ystep admissions]. destruct (y_procs y !! id) as [st|].
      * destruct (admitted_budget f st e (y_db y) c log Hs ltac:(lia) Hb) as (xs & Hx & Hcov).
        destruct (advance IDKey v f st e (y_db y)) as [db st']. cbn [fst] in Hx.
        edestruct (IH (mkSystem db (<[id:=st']> (y_procs y)) (y_log y ++ observe IDKey v f st e (y_db y))) (ck e 9) (log ++ xs)) as (c' & ys & Hy & Hcov'); [done | done |].
        exists c', (xs ++ ys). rewrite app_assoc. split; [done|]. by apply covers_app.
      * apply (IH _ (ck e 9)); [done|]. pose proof (steady_le e 0 9 Hs ltac:(lia)). eapply budget_later; [|exact Hb]. lia.
    + apply (IH _ c); [done|]. cbn [ystep y_db]. by rewrite (quiet_buckets _ _ (pexec_quiet s o f (y_db y))).
Qed.

(** C16: Guesses are limited. While the database clock does not run backwards,
    an installation admits, in any minute of any history, at most twice the
    limit of attempts under every key: ten passwords of an account, forty of a
    source on a day, one hundred and twenty of the installation, whatever the
    processes, the lost answers and the deletions of old buckets. *)
Theorem attempts_are_limited db ls c key t0 :
  uninhabited db -> ordered c ls = true ->
  Z.of_nat (countb (within key t0) (attempts_of (installed db) ls)) <= 2 * bucket_limit key.
Proof.
  intros [Ea Et Es Ep Epw Ec Ee Eco Eb Ebo] Ho.
  destruct (yrun_budget (installed db) ls c [] Ho) as (c' & xs & Hb & Hcov).
  { cbn. rewrite Eb. constructor; try (intros; set_solver). intros k a. pose proof (bucket_limit_pos k). unfold minute_count. cbn. lia. }
  pose proof (span_limit _ _ _ key t0 Hb). specialize (Hcov key t0). cbn [app] in *. lia.
Qed.
End limits.
