(* ===== verification/AccountExample.v ===== *)
(** * A concrete history of accounts

    An installation in which the first administrator enrols a second factor,
    logs in again with the password and a fresh code, and in which the answer of
    one more login is lost. The witnesses of the
    theorems on accounts run on it. *)

From S2P Require Import Prelude GoStd Keyring Control ConfigTrust AdminAuth Vault Password Publication PublicationExample CommandProps DataNode Origin Accounts Security AccountFlow AccountProps AccountSessions AccountCodes AccountLimits.
From stdpp Require Import base list gmap strings sorting pretty.
From Stdlib Require Import ZArith Lia Ascii String.
Import pgstore example accounts security flow.
Local Open Scope Z_scope.

Module accountexample.

(** ** Stand-ins *)

(** The code of a counter is the counter. *)
Definition ax_hmac1 : adminauth.HmacSha1 := fun _ m => (m ++ replicate 12 4)%list.
Definition ax_hmac : HmacSha256 := fun _ s => ex_sha256 s.
Definition ax_wire : AccountWire := {|
  decode_create _ := None; decode_update _ := None; decode_enabled _ := None; decode_reauth _ := None; decode_code _ := None;
  json_user _ := "{user}"; json_policy _ := "{policy}"; json_proof _ _ := "{proof}"; json_enrollment _ _ := "{enrollment}";
  json_secret _ _ := "{secret}"; json_authenticated _ _ _ := "{session}"; json_sealed s := s; unjson_sealed s := Some s
|}.
#[export] Existing Instances ax_hmac1 ax_hmac ax_wire keyring.wit_aead.

Definition ax_store : Store := mkStore (Some {["totp-v1" := "0123456789abcdef0123456789abcdef"]}) true.
Definition ax_login : LoginService := mkLogin ax_store (Some password.wit_hasher) "fingerprint" false.
Definition ax_services : services :=
  mkServices ax_login (mkEnrollment ax_store (Some password.wit_hasher) "totp-v1" false) (mkSessions ax_store "https://admin.example")
    (mkSecurity ex_service ax_login "totp-v1").

(** The [i]-th random value at [s] seconds: tokens, but for [short] ones. *)
Definition random_at (s : Z) (i : nat) (n : nat) : string :=
  str_take n (pretty s +:+ "-" +:+ pretty (Z.of_nat i) +:+ "-0123456789abcdef0123456789abcdef").
Definition ax_env (s : Z) (short : nat -> nat) : env :=
  mkEnv (fun i => at_ s + Z.of_nat i) (fun i => random_at s i (short i)) (fun _ => password.wit_env).
Definition tokens_only (_ : nat) : nat := 32.
Definition salted (i : nat) : nat := if decide (i = 5%nat) then 16 else if decide (100 <= i)%nat then 16 else 32.
Definition begins (i : nat) : nat := if decide (i = 0%nat) then 20 else 12.
Definition enrols (i : nat) : nat := if decide (i = 3%nat) then 12 else salted i.
Definition token_at (s : Z) : string := fst (token (ax_env s tokens_only) 0).

(** ** The history *)

Definition ax_db : DB :=
  mkDB (adminauth.mkAuthPolicy adminauth.Configurable true 1) ∅ ∅ ∅ ∅ (Some (3, control.wit_config)) ∅ []
    (mkDeliveryRow control.wit_delivery 0 None) ∅ ∅ ∅ (mkAuth ∅ ∅ ∅ ∅ ∅ ∅ (mkBootstrapRow false 0 None) ∅ true).

Definition loopback : origin.Addr := origin.V4 2130706433.
Definition code_at (s : Z) : string := adminauth.hotp "" (s / 30) 6.
Definition step_at (id : nat) (s : Z) (short : nat -> nat) : label := LStep id (ax_env s short) NoFault.
Definition start_at (id : nat) (q : request) (s : Z) : label := LStart id q (ax_env s tokens_only).

Definition ax_history : list label := [
  start_at 0 IssueToken 1000; step_at 0 1001 tokens_only;
  start_at 1 (Bootstrap (token_at 1001) "admin" password.wit_password loopback) 1010; step_at 1 1011 salted; step_at 1 1012 tokens_only;
  start_at 2 (EnrollBegin (token_at 1012)) 1020; step_at 2 1021 begins;
  start_at 3 (EnrollComplete (token_at 1012) (code_at 1032)) 1030; step_at 3 1031 enrols; step_at 3 1032 enrols;
  start_at 4 (Login "admin" password.wit_password loopback) 1100; step_at 4 1101 tokens_only; step_at 4 1102 tokens_only; step_at 4 1103 tokens_only;
  start_at 5 (TOTP (token_at 1103) (code_at 1111)) 1110; step_at 5 1111 tokens_only;
  start_at 6 (Login "admin" password.wit_password loopback) 1120; LStep 6 (ax_env 1121 tokens_only) Lost ].

Local Abbreviation ax_system := (yrun password.wit_IDKey ax_services (installed ax_db) ax_history).
Lemma ax_uninhabited : uninhabited ax_db.
Proof. by constructor. Qed.

(** ** Witnesses *)

Definition ax_hash : string := snd (token (ax_env 1111 tokens_only) 0).
Definition ax_state : sessionSnapshot :=
  match loadSession ax_hash (at_ 1200) (y_db ax_system) with
  | Ok st => st
  | Err _ => mkSnapshot (adminauth.mkAccount "" adminauth.Viewer false 0 false) (adminauth.mkSession "" 0 0 false None 0)
               (adminauth.mkAuthPolicy adminauth.Configurable false 0) "" 0
  end.


Lemma second_factors_spent_once_witness :
  codes_of (y_log ax_system) = [(adminauth.mkRef "admin" 1, 34); (adminauth.mkRef "admin" 1, 37)] /\
  StronglySorted (fun x y => fst x = fst y -> snd x < snd y) (codes_of (y_log ax_system)).
Proof.
  split; [vm_compute; reflexivity|].
  exact (proj1 (second_factors_spent_once password.wit_IDKey ax_services ax_db ax_history ax_uninhabited)).
Defined.

Lemma an_administrator_remains_witness :
  firsts_of (y_log ax_system) = ["admin"] /\
  exists id a, db_accounts (y_db ax_system) !! id = Some a /\ is_admin a = true.
Proof.
  split; [vm_compute; reflexivity|].
  apply (proj2 (an_administrator_remains password.wit_IDKey ax_services ax_db ax_history ax_uninhabited)).
  intros E. apply (f_equal (fun m => bool_decide (is_Some (m !! "admin")))) in E. vm_compute in E. discriminate E.
Defined.

(** Two logins of the account in the minute from 1080 s on. *)
Definition ax_key : string := login_key ax_login "admin" "127.0.0.1" (ax_env 1101 tokens_only) 2.
Lemma attempts_are_limited_witness :
  ordered (at_ 1000) ax_history = true /\ bucket_limit ax_key = 5 /\
  countb (within ax_key (at_ 1080)) (attempts_of password.wit_IDKey ax_services (installed ax_db) ax_history) = 2%nat /\
  Z.of_nat (countb (within ax_key (at_ 1080)) (attempts_of password.wit_IDKey ax_services (installed ax_db) ax_history)) <= 2 * bucket_limit ax_key.
Proof.
  assert (ordered (at_ 1000) ax_history = true) as Ho by (vm_compute; reflexivity).
  split_and!; [exact Ho | vm_compute; reflexivity | vm_compute; reflexivity |].
  exact (attempts_are_limited password.wit_IDKey ax_services ax_db ax_history (at_ 1000) ax_key (at_ 1080) ax_uninhabited Ho).
Defined.

(** A login whose last transaction finds the database broken. *)
Definition ax_run : list (fault * env * DB) :=
  [(NoFault, ax_env 1101 tokens_only, y_db ax_system); (Lost, ax_env 1102 tokens_only, y_db ax_system);
   (Broken, ax_env 1103 tokens_only, ax_db); (NoFault, ax_env 1104 tokens_only, ax_db)].
End accountexample.
