(* ===== verification/Json.v ===== *)
(** * The tokens of [encoding/json]

    The code reads its request bodies with [json.Decoder]: [Token] and [More],
    after which nothing may follow. Module [json] is that decoder: the scanner
    of strings, numbers and literals, [unquote], and the automaton of [Token].
    A text is a list of bytes. [flat] describes the bodies the code expects, an
    object of strings, and the lemmas relate it to the tokens. *)

From S2P Require Import Prelude GoStd.
From stdpp Require Import base list strings.
From Stdlib Require Import ZArith Lia Ascii String.

Module json.
Local Open Scope Z_scope.

(** ** Scanning *)

Definition is_ws (c : Z) : bool := (c =? 32) || (c =? 9) || (c =? 13) || (c =? 10).
Fixpoint skip_ws (l : list Z) : list Z := match l with c :: l' => if is_ws c then skip_ws l' else l | [] => [] end.

Definition is_digit (c : Z) : bool := (48 <=? c) && (c <=? 57).
Definition hex_value (c : Z) : option Z :=
  if is_digit c then Some (c - 48) else
  if (97 <=? c) && (c <=? 102) then Some (c - 87) else
  if (65 <=? c) && (c <=? 70) then Some (c - 55) else None.
Definition is_hex (c : Z) : bool := match hex_value c with Some _ => true | None => false end.
(** The characters that may follow a backslash: a quote, a backslash, a slash, and the letters bfnrt. *)
Definition is_escape (c : Z) : bool := bool_decide (c ∈ [34; 92; 47; 98; 102; 110; 114; 116]).

(** The body of a string after its opening quote, and what follows the closing one. *)
Fixpoint scan_string (l : list Z) : option (list Z * list Z) :=
  match l with
  | [] => None
  | c :: l =>
      if c =? 34 then Some ([], l) else
      if c =? 92 then
        match l with
        | e :: l =>
            if is_escape e then '(b, r) ← scan_string l; Some (92 :: e :: b, r)
            else if e =? 117 then
              match l with
              | h1 :: h2 :: h3 :: h4 :: l =>
                  if is_hex h1 && is_hex h2 && is_hex h3 && is_hex h4
                  then '(b, r) ← scan_string l; Some (92 :: 117 :: h1 :: h2 :: h3 :: h4 :: b, r) else None
              | _ => None
              end
            else None
        | [] => None
        end
      else if c <? 32 then None
      else '(b, r) ← scan_string l; Some (c :: b, r)
  end.

Fixpoint scan_digits (l : list Z) : list Z * list Z :=
  match l with
  | c :: l' => if is_digit c then let '(d, r) := scan_digits l' in (c :: d, r) else ([], l)
  | [] => ([], [])
  end.
(** At least one digit. *)
Definition scan_digits1 (l : list Z) : option (list Z * list Z) :=
  match scan_digits l with ([], _) => None | p => Some p end.
Definition scan_integer (l : list Z) : option (list Z * list Z) :=
  match l with
  | c :: r => if c =? 48 then Some ([48], r) else scan_digits1 l
  | [] => None
  end.
Definition scan_fraction (l : list Z) : option (list Z * list Z) :=
  match l with
  | c :: r => if c =? 46 then '(d, r) ← scan_digits1 r; Some (46 :: d, r) else Some ([], l)
  | [] => Some ([], l)
  end.
Definition scan_exponent (l : list Z) : option (list Z * list Z) :=
  match l with
  | e :: r =>
      if (e =? 101) || (e =? 69) then
        match r with
        | s :: r' =>
            if (s =? 43) || (s =? 45) then '(d, r) ← scan_digits1 r'; Some (e :: s :: d, r)
            else '(d, r) ← scan_digits1 r; Some (e :: d, r)
        | [] => None
        end
      else Some ([], l)
  | [] => Some ([], l)
  end.
Definition scan_number (l : list Z) : option (list Z * list Z) :=
  let '(sign, l) := match l with c :: r => if c =? 45 then ([45], r) else ([], l) | [] => ([], l) end in
  '(i, l) ← scan_integer l;
  '(f, l) ← scan_fraction l;
  '(e, l) ← scan_exponent l;
  Some (sign ++ i ++ f ++ e, l).

(** A literal and what follows it. *)
Fixpoint after_literal (w l : list Z) : option (list Z) :=
  match w, l with
  | [], _ => Some l
  | a :: w, b :: l => if a =? b then after_literal w l else None
  | _ :: _, [] => None
  end.

(** ** [unquote] *)

(** [utf8.AppendRune] of a rune that is valid. *)
Definition rune_bytes (c : Z) : list Z :=
  if c <? 128 then [c] else
  if c <? 2048 then [192 + c / 64; 128 + c mod 64] else
  if c <? 65536 then [224 + c / 4096; 128 + c / 64 mod 64; 128 + c mod 64]
  else [240 + c / 262144; 128 + c / 4096 mod 64; 128 + c / 64 mod 64; 128 + c mod 64].
Definition RuneError : Z := 65533.

Definition getu4 (l : list Z) : option (Z * list Z) :=
  match l with
  | s :: u :: a :: b :: c :: d :: r =>
      if (s =? 92) && (u =? 117) then
        a ← hex_value a; b ← hex_value b; c ← hex_value c; d ← hex_value d; Some (a * 4096 + b * 256 + c * 16 + d, r)
      else None
  | _ => None
  end.
Definition is_surrogate (c : Z) : bool := (55296 <=? c) && (c <=? 57343).
(** [utf16.DecodeRune]. *)
Definition pair_rune (hi lo : Z) : option Z :=
  if (55296 <=? hi) && (hi <? 56320) && (56320 <=? lo) && (lo <? 57344)
  then Some ((hi - 55296) * 1024 + (lo - 56320) + 65536) else None.
Definition escaped (e : Z) : Z :=
  if e =? 98 then 8 else if e =? 102 then 12 else if e =? 110 then 10 else if e =? 114 then 13 else if e =? 116 then 9 else e.

(** The string of a scanned body. Every round consumes a byte at least, so the
    length of the body is enough fuel. *)
Fixpoint unquote_fuel (fuel : nat) (l : list Z) : list Z :=
  match fuel, l with
  | S n, c :: r =>
      if c =? 92 then
        match getu4 l with
        | Some (w, r) =>
            if is_surrogate w then
              match '(w', r') ← getu4 r; x ← pair_rune w w'; Some (x, r') with
              | Some (x, r') => rune_bytes x ++ unquote_fuel n r'
              | None => rune_bytes RuneError ++ unquote_fuel n r
              end
            else rune_bytes w ++ unquote_fuel n r
        | None => match r with e :: r => escaped e :: unquote_fuel n r | [] => [] end
        end
      else if c <? 128 then c :: unquote_fuel n r
      else match utf8.decode_rune l with
           | Some (w, r') => rune_bytes w ++ unquote_fuel n r'
           | None => rune_bytes RuneError ++ unquote_fuel n r
           end
  | _, _ => []
  end.
Definition unquote (l : list Z) : string := of_bytes (unquote_fuel (List.length l) l).

(** ** [Decoder.Token] and [Decoder.More] *)

Inductive tokenState :=
  | TopValue | ArrayStart | ArrayValue | ArrayComma | ObjectStart | ObjectKey | ObjectColon | ObjectValue | ObjectComma.
#[global] Instance tokenState_eq_dec : EqDecision tokenState.
Proof. solve_decision. Defined.

(** A token; a number is its text. *)
Inductive Token_ := Delim (c : ascii) | TString (s : string) | TNumber (s : string) | TBool (b : bool) | TNull.
Inductive error := EOF | Syntax.

Record Decoder := mkDecoder { rest : list Z; state : tokenState; stack : list tokenState }.
Definition NewDecoder (data : string) : Decoder := mkDecoder (bytes data) TopValue [].

Definition value_allowed (s : tokenState) : bool := bool_decide (s ∈ [TopValue; ArrayStart; ArrayValue; ObjectValue]).
Definition value_end (s : tokenState) : tokenState :=
  match s with ArrayStart | ArrayValue => ArrayComma | ObjectValue => ObjectComma | _ => s end.

(** The scalar values, as [Decode] reads them into an interface. *)
Definition scalar (c : Z) (r : list Z) : option (Token_ * list Z) :=
  if c =? 34 then '(b, r) ← scan_string r; Some (TString (unquote b), r) else
  if c =? 116 then r ← after_literal (bytes "rue") r; Some (TBool true, r) else
  if c =? 102 then r ← after_literal (bytes "alse") r; Some (TBool false, r) else
  if c =? 110 then r ← after_literal (bytes "ull") r; Some (TNull, r) else
  '(n, r) ← scan_number (c :: r); Some (TNumber (of_bytes n), r).

Definition opens (d : Decoder) (t : tokenState) (c : ascii) (r : list Z) : result error (Token_ * Decoder) :=
  if value_allowed (state d) then Ok (Delim c, mkDecoder r t (state d :: stack d)) else Err Syntax.
Definition closes (d : Decoder) (t t' : tokenState) (c : ascii) (r : list Z) : result error (Token_ * Decoder) :=
  if negb (bool_decide (state d = t \/ state d = t')) then Err Syntax else
  match stack d with
  | s :: st => Ok (Delim c, mkDecoder r (value_end s) st)
  | [] => Err Syntax
  end.
(** A key, or a value. *)
Definition reads (d : Decoder) (c : Z) (r : list Z) : result error (Token_ * Decoder) :=
  if (c =? 34) && bool_decide (state d = ObjectStart \/ state d = ObjectKey) then
    match scan_string r with
    | Some (b, r) => Ok (TString (unquote b), mkDecoder r ObjectColon (stack d))
    | None => Err Syntax
    end
  else if value_allowed (state d) then
    match scalar c r with Some (t, r) => Ok (t, mkDecoder r (value_end (state d)) (stack d)) | None => Err Syntax end
  else Err Syntax.

(** One token that is no punctuation. *)
Definition token1 (d : Decoder) : result error (Token_ * Decoder) :=
  match skip_ws (rest d) with
  | [] => Err EOF
  | c :: r =>
      if c =? 91 then opens d ArrayStart "[" r else
      if c =? 93 then closes d ArrayStart ArrayComma "]" r else
      if c =? 123 then opens d ObjectStart "{" r else
      if c =? 125 then closes d ObjectStart ObjectComma "}" r else
      if (c =? 58) || (c =? 44) then Err Syntax else reads d c r
  end.

(** [Token]: a colon or a comma is skipped where it belongs. *)
Definition Token (d : Decoder) : result error (Token_ * Decoder) :=
  match skip_ws (rest d) with
  | [] => Err EOF
  | c :: r =>
      if c =? 58 then match state d with ObjectColon => token1 (mkDecoder r ObjectValue (stack d)) | _ => Err Syntax end else
      if c =? 44 then
        match state d with
        | ArrayComma => token1 (mkDecoder r ArrayValue (stack d))
        | ObjectComma => token1 (mkDecoder r ObjectKey (stack d))
        | _ => Err Syntax
        end
      else token1 d
  end.
Definition More (d : Decoder) : bool := match skip_ws (rest d) with [] => false | c :: _ => negb (c =? 93) && negb (c =? 125) end.
Definition at_end (d : Decoder) : bool := match Token d with Err EOF => true | _ => false end.

(** ** Texts *)

Definition blank (w : list Z) : Prop := Forall (fun c => is_ws c = true) w.

Lemma skip_ws_blank w l : blank w -> skip_ws (w ++ l) = skip_ws l.
Proof. induction 1 as [|c w Hc _ IH]; [done|]. cbn [app skip_ws]. by rewrite Hc. Qed.
Lemma skip_ws_split l : exists w, blank w /\ l = w ++ skip_ws l.
Proof.
  induction l as [|c l (w & Hw & E)]; [exists []; split; [constructor | done]|]. cbn [skip_ws]. destruct (is_ws c) eqn:Ec; [|exists []; split; [constructor | done]].
  exists (c :: w). split; [by constructor|]. cbn. by rewrite <- E.
Qed.
Lemma skip_ws_head l c r : skip_ws l = c :: r -> is_ws c = false.
Proof. induction l as [|x l IH]; [done|]. cbn [skip_ws]. destruct (is_ws x) eqn:E; [done|]. by intros [= <- _]. Qed.
Lemma skip_ws_cons c r : is_ws c = false -> skip_ws (c :: r) = c :: r.
Proof. intros E. cbn [skip_ws]. by rewrite E. Qed.

(** A string literal after its opening quote. *)
Definition quoted (lit : list Z) (s : string) : Prop := exists b, s = unquote b /\ forall r, scan_string (lit ++ r) = Some (b, r).

Lemma scan_string_split n l b r : (List.length l <= n)%nat -> scan_string l = Some (b, r) ->
  exists lit, l = lit ++ r /\ forall x, scan_string (lit ++ x) = Some (b, x).
Proof.
  revert l b. induction n as [|n IH]; intros l b Hl Hs; (destruct l as [|c l]; [done|]; cbn in Hl); [lia|].
  cbn [scan_string] in Hs. destruct (c =? 34) eqn:E1.
  { injection Hs as <- <-. exists [c]. split; [done|]. intros x. cbn [app scan_string]. by rewrite E1. }
  destruct (c =? 92) eqn:E2.
  - destruct l as [|e l]; [done|]. destruct (is_escape e) eqn:E3.
    + destruct (scan_string l) as [[b' r']|] eqn:E4; [|done]. injection Hs as <- <-. cbn in Hl.
      destruct (IH l b' ltac:(lia) E4) as (lit & -> & Hx). exists (c :: e :: lit). split; [done|]. intros x.
      cbn [app scan_string]. rewrite E1, E2, E3. change ((fix f (l : list Z) := _) (lit ++ x)) with (scan_string (lit ++ x)). by rewrite Hx.
    + destruct (e =? 117) eqn:E5; [|done]. destruct l as [|h1 [|h2 [|h3 [|h4 l]]]]; try done.
      destruct (is_hex h1 && is_hex h2 && is_hex h3 && is_hex h4) eqn:E6; [|done].
      destruct (scan_string l) as [[b' r']|] eqn:E4; [|done]. injection Hs as <- <-. cbn in Hl.
      destruct (IH l b' ltac:(lia) E4) as (lit & -> & Hx). exists (c :: e :: h1 :: h2 :: h3 :: h4 :: lit). split; [done|]. intros x.
      cbn [app scan_string]. rewrite E1, E2, E3, E5, E6. by rewrite Hx.
  - destruct (c <? 32) eqn:E3; [done|]. destruct (scan_string l) as [[b' r']|] eqn:E4; [|done]. injection Hs as <- <-.
    destruct (IH l b' ltac:(lia) E4) as (lit & -> & Hx). exists (c :: lit). split; [done|]. intros x.
    cbn [app scan_string]. rewrite E1, E2, E3. by rewrite Hx.
Qed.
Lemma scan_quoted l b r : scan_string l = Some (b, r) -> exists lit, l = lit ++ r /\ quoted lit (unquote b).
Proof. intros Hs. destruct (scan_string_split (List.length l) l b r ltac:(lia) Hs) as (lit & El & Hx). exists lit. split; [done|]. by exists b. Qed.

(** ** Tokens of an object of strings *)

(** What comes before a key: blanks, and a comma unless the key is the first. *)
Definition lead (first : bool) (w : list Z) : Prop :=
  if first then blank w else exists w0 w1, blank w0 /\ blank w1 /\ w = w0 ++ 44 :: w1.
Definition expects (first : bool) : tokenState := if first then ObjectStart else ObjectComma.

Lemma token1_blank w l s st : blank w -> token1 (mkDecoder (w ++ l) s st) = token1 (mkDecoder l s st).
Proof. intros Hw. unfold token1, opens, closes, reads. cbn [rest state stack]. by rewrite skip_ws_blank. Qed.
Lemma Token_blank w l s st : blank w -> Token (mkDecoder (w ++ l) s st) = Token (mkDecoder l s st).
Proof. intros Hw. unfold Token. cbn [rest state stack]. rewrite skip_ws_blank by done. destruct (skip_ws l) as [|c r]; [done|].
  repeat case_match; try done; by apply token1_blank. Qed.
Lemma More_blank w l s st : blank w -> More (mkDecoder (w ++ l) s st) = More (mkDecoder l s st).
Proof. intros Hw. unfold More. cbn [rest]. by rewrite skip_ws_blank. Qed.

Lemma token_key first w k key r st :
  lead first w -> quoted k key -> Token (mkDecoder (w ++ 34 :: k ++ r) (expects first) st) = Ok (TString key, mkDecoder r ObjectColon st).
Proof.
  intros Hw (b & -> & Hk). destruct first; cbn [lead expects] in *.
  - rewrite Token_blank by done. cbn. unfold token1, reads. cbn. by rewrite Hk.
  - destruct Hw as (w0 & w1 & H0 & H1 & ->). rewrite <- app_assoc, Token_blank by done. cbn [app]. unfold Token. cbn.
    rewrite token1_blank by done. unfold token1, reads. cbn. by rewrite Hk.
Qed.
Lemma token_value w2 w3 v val r st :
  blank w2 -> blank w3 -> quoted v val ->
  Token (mkDecoder (w2 ++ 58 :: w3 ++ 34 :: v ++ r) ObjectColon st) = Ok (TString val, mkDecoder r ObjectComma st).
Proof.
  intros H2 H3 (b & -> & Hv). rewrite Token_blank by done. unfold Token. cbn. rewrite token1_blank by done.
  unfold token1, reads. cbn. by rewrite Hv.
Qed.
Lemma token_close first w r s st :
  blank w -> Token (mkDecoder (w ++ 125 :: r) (expects first) (s :: st)) = Ok (Delim "}", mkDecoder r (value_end s) st).
Proof. intros Hw. rewrite Token_blank by done. by destruct first. Qed.
Lemma More_key first w k r st : lead first w -> More (mkDecoder (w ++ 34 :: k ++ r) (expects first) st) = true.
Proof.
  intros Hw. destruct first; cbn [lead] in Hw; [by rewrite More_blank|].
  destruct Hw as (w0 & w1 & H0 & H1 & ->). by rewrite <- app_assoc, More_blank.
Qed.
Lemma More_close w r s st : blank w -> More (mkDecoder (w ++ 125 :: r) s st) = false.
Proof. intros Hw. by rewrite More_blank. Qed.

(** The converses. *)
Lemma scalar_string c r s r' : scalar c r = Some (TString s, r') -> exists b, c = 34 /\ scan_string r = Some (b, r') /\ s = unquote b.
Proof.
  unfold scalar. destruct (Z.eqb_spec c 34) as [->|].
  { destruct (scan_string r) as [[b r0]|]; [|done]. cbn. intros [= <- <-]. eauto. }
  case_if as E1; [by destruct (after_literal _ _)|]. case_if as E2; [by destruct (after_literal _ _)|].
  case_if as E3; [by destruct (after_literal _ _)|]. by destruct (scan_number _) as [[]|].
Qed.
Lemma scalar_delim c r x r' : scalar c r <> Some (Delim x, r').
Proof.
  unfold scalar. case_if as F0; [by destruct (scan_string _) as [[]|]|]. case_if as F1; [by destruct (after_literal _ _)|].
  case_if as F2; [by destruct (after_literal _ _)|]. case_if as F3; [by destruct (after_literal _ _)|]. by destruct (scan_number _) as [[]|].
Qed.
Lemma token1_string d s d' : token1 d = Ok (TString s, d') ->
  exists w k r, rest d = w ++ 34 :: k ++ r /\ blank w /\ quoted k s /\ rest d' = r /\ stack d' = stack d /\
    ((state d = ObjectStart \/ state d = ObjectKey) /\ state d' = ObjectColon \/
     value_allowed (state d) = true /\ state d' = value_end (state d)).
Proof.
  unfold token1. destruct (skip_ws_split (rest d)) as (w & Hw & Er). destruct (skip_ws (rest d)) as [|c r] eqn:Es; [done|].
  unfold opens, closes, reads. do 5 (case_if as E; [repeat case_match; done|]; clear E).
  case_if as E1.
  - to_prop. destruct (scan_string r) as [[b r']|] eqn:Eb; [|done]. intros [= <- <-]. destruct (scan_quoted _ _ _ Eb) as (k & -> & Hk).
    exists w, k, r'. subst c. split_and!; try done. by left.
  - case_if as E2; [|done]. destruct (scalar c r) as [[t r']|] eqn:Ec; [|done]. intros [= -> <-].
    apply scalar_string in Ec as (b & -> & Eb & ->). destruct (scan_quoted _ _ _ Eb) as (k & -> & Hk).
    exists w, k, r'. split_and!; try done. by right.
Qed.
Lemma token_key_inv first l st s d' : Token (mkDecoder l (expects first) st) = Ok (TString s, d') ->
  exists w k r, l = w ++ 34 :: k ++ r /\ lead first w /\ quoted k s /\ d' = mkDecoder r ObjectColon st.
Proof.
  unfold Token. cbn [rest state stack]. destruct (skip_ws_split l) as (w & Hw & El). destruct (skip_ws l) as [|c r] eqn:Es; [done|].
  destruct first; cbn [expects lead].
  - case_if as E1; [done|]. case_if as E2; [done|]. intros H1.
    destruct (token1_string _ _ _ H1) as (w' & k & r' & Er & Hw' & Hk & Er' & Est & [[_ Es']|[Hv _]]); [|done].
    exists w', k, r'. cbn in *. split_and!; try done. destruct d'. cbn in *. congruence.
  - case_if as E1; [done|]. case_if as E2; intros H1.
    + destruct (token1_string _ _ _ H1) as (w' & k & r' & Er & Hw' & Hk & Er' & Est & [[_ Es']|[Hv _]]); [|done].
      cbn in *. to_prop. subst. exists (w ++ 44 :: w'), k, (rest d'). split_and!; try done.
      * by rewrite <- app_assoc.
      * by exists w, w'.
      * destruct d'. cbn in *. congruence.
    + destruct (token1_string _ _ _ H1) as (? & ? & ? & _ & _ & _ & _ & _ & [[[] _]|[Hv _]]); done.
Qed.
Lemma token_value_inv l st s d' : Token (mkDecoder l ObjectColon st) = Ok (TString s, d') ->
  exists w2 w3 v r, l = w2 ++ 58 :: w3 ++ 34 :: v ++ r /\ blank w2 /\ blank w3 /\ quoted v s /\ d' = mkDecoder r ObjectComma st.
Proof.
  unfold Token. cbn [rest state stack]. destruct (skip_ws_split l) as (w & Hw & El). destruct (skip_ws l) as [|c r] eqn:Es; [done|].
  case_if as E1; intros H1.
  - destruct (token1_string _ _ _ H1) as (w' & k & r' & Er & Hw' & Hk & Er' & Est & [[[] _]|[_ Hv]]); try done.
    cbn in *. to_prop. subst. exists w, w', k, (rest d'). split_and!; try done. destruct d'. cbn in *. congruence.
  - revert H1. case_if as E2; [done|]. intros H1.
    destruct (token1_string _ _ _ H1) as (? & ? & ? & _ & _ & _ & _ & _ & [[[] _]|[Hv _]]); done.
Qed.
Lemma token_close_inv first l s st d' : Token (mkDecoder l (expects first) (s :: st)) = Ok (Delim "}", d') ->
  exists w r, l = w ++ 125 :: r /\ blank w /\ d' = mkDecoder r (value_end s) st.
Proof.
  assert (forall d c d', token1 d = Ok (Delim "}", d') -> skip_ws (rest d) = c -> exists r, c = 125 :: r /\ (state d = ObjectStart \/ state d = ObjectComma) /\
    exists s0 st0, stack d = s0 :: st0 /\ d' = mkDecoder r (value_end s0) st0) as H1.
  { intros d c d0 Ht <-. revert Ht. unfold token1. destruct (skip_ws (rest d)) as [|c r]; [done|]. unfold opens, closes, reads.
    case_if as E1; [by case_match|]. case_if as E2; [by repeat case_match|]. case_if as E3; [by case_match|]. case_if as E4.
    - case_if as E5; [done|]. to_prop. destruct (stack d) as [|s0 st0]; [done|]. intros [= <-]. subst c. exists r. split_and!; eauto.
    - case_if as E5; [done|]. case_if as E6; [by repeat case_match|]. case_if as E7; [|done]. destruct (scalar c r) as [[t r']|] eqn:Ec; [|done].
      intros [= -> _]. by apply scalar_delim in Ec. }
  unfold Token. cbn [rest state stack]. destruct (skip_ws_split l) as (w & Hw & El). destruct (skip_ws l) as [|c r] eqn:Es; [done|].
  assert (token1 (mkDecoder l (expects first) (s :: st)) = Ok (Delim "}", d') ->
    exists w r, l = w ++ 125 :: r /\ blank w /\ d' = mkDecoder r (value_end s) st) as Hplain.
  { intros Ht. destruct (H1 _ _ _ Ht Es) as (r' & [= -> ->] & _ & s0 & st0 & [= -> ->] & ->). eauto. }
  destruct first; cbn [expects] in *.
  - case_if as E1; [done|]. case_if as E2; [done|]. done.
  - case_if as E1; [done|]. case_if as E2; [|done]. intros Ht. destruct (H1 _ _ _ Ht eq_refl) as (? & _ & [[=]|[=]] & _).
Qed.
Lemma token_open w l : blank w -> Token (mkDecoder (w ++ 123 :: l) TopValue []) = Ok (Delim "{", mkDecoder l ObjectStart [TopValue]).
Proof. intros Hw. by rewrite Token_blank. Qed.
Lemma token_open_inv l c d' : Token (mkDecoder l TopValue []) = Ok (Delim c, d') -> c = "{"%char -> exists w r,
  l = w ++ 123 :: r /\ blank w /\ d' = mkDecoder r ObjectStart [TopValue].
Proof.
  unfold Token. cbn [rest state stack]. destruct (skip_ws_split l) as (w & Hw & El). destruct (skip_ws l) as [|x r] eqn:Es; [done|].
  case_if as E1; [done|]. case_if as E2; [done|]. unfold token1. cbn [rest]. rewrite Es. unfold opens, closes, reads. cbn [state stack].
  case_if as E3; [by intros [= <- _]|]. case_if as E4; [done|]. case_if as E5.
  - to_prop. subst x. intros [= <- <-] _. eauto.
  - case_if as E6; [done|]. case_if as E7; [done|]. case_if as E8; [by to_prop; destruct_or?|]. case_if as E9; [|done].
    destruct (scalar x r) as [[t r']|] eqn:Ec; [|done]. intros [= -> _] ->. by apply scalar_delim in Ec.
Qed.
Lemma token1_not_EOF d c r : skip_ws (rest d) = c :: r -> token1 d <> Err EOF.
Proof. intros Es. unfold token1, opens, closes, reads. rewrite Es. by repeat case_match. Qed.
Lemma at_end_blank l : at_end (mkDecoder l TopValue []) = true <-> blank l.
Proof.
  unfold at_end. split.
  - destruct (skip_ws_split l) as (w & Hw & El). destruct (skip_ws l) as [|c r] eqn:Es; [by rewrite app_nil_r in El; subst|].
    unfold Token. cbn [rest state]. rewrite Es. case_if as E1; [done|]. case_if as E2; [done|].
    pose proof (token1_not_EOF (mkDecoder l TopValue []) c r Es) as Hn. by destruct (token1 _) as [|[]].
  - intros Hb. by rewrite <- (app_nil_r l), Token_blank.
Qed.
End json.
