(* ===== verification/AuthHTTP.v ===== *)
(** * The HTTP boundary of the administration

    Module [http] has requests and replies. Module [authhttp] translates the
    handler of [src/internal/adminauth/authhttp/handler.go]: the checks of a
    request before anything is read, the exact body, the calls of the backend
    and the reply with its session cookie; module [sessionhttp] translates
    [src/internal/adminauth/sessionhttp/handler.go]. The security headers that
    every reply carries are left out. The backends are classes; [AuthHistory]
    instantiates them with the requests of [AccountFlow] under any interleaving. *)

From S2P Require Import Prelude GoStd AdminAuth Vault Publication Coordinator DataNode Origin Accounts AccountFlow Json.
From stdpp Require Import base list gmap strings.
From Stdlib Require Import ZArith Lia Ascii String.

(** ** Requests and replies *)

Module http.
Import pgstore accounts.
Local Open Scope Z_scope.

(** A request as the handlers see it. [Peer] is [netip.ParseAddrPort] of the
    remote address, [Local] the address of the listener; [Body] is [None]
    without a body, and otherwise what reading it gives; [Cookies] are the
    cookies of [r.Cookies()]. *)
Record Request := mkRequest {
  Base : adminauth.request; Path : string; EscapedPath : string; RawQuery : string; ForceQuery : bool; TLS : bool; Host : string;
  Peer : option origin.Addr; Local_ : option origin.Addr; ContentLength : Z; Body : option (result unit string); Cookies : list (string * string)
}.
Definition Method (r : Request) : string := adminauth.Method (Base r).
Definition Values (r : Request) (h : string) : list string := adminauth.Header (Base r) h.
Definition Get (r : Request) (h : string) : string := adminauth.Get (Base r) h.
Definition count (r : Request) (h : string) : nat := List.length (Values r h).

(** [io.ReadAll(io.LimitReader(r.Body, n))] of a body that is there; the read
    of a body can fail. *)
Definition read (n : nat) (b : result unit string) : result unit string := match b with Ok s => Ok (str_take n s) | Err e => Err e end.

(** A reply: a problem with its code, or a document; and the cookie it sets. *)
Inductive payload :=
  | Problem (code : string)
  | Auth (state : string) (session : option SessionView) (csrf challenge : string) (expires : option Z) (recovery : list string)
  | Manual (secret : string) (expires : Z)
  | View (v : SessionView) | Acknowledged.
Inductive cookie := SetCookie (value : string) (expires : Z) | ClearCookie.
Record Reply := mkHttpReply { Status : Z; Allow : string; RetryAfter : string; Replayed : bool; Cookie : option cookie; Content : payload }.
Definition problem (status : Z) (code : string) : Reply := mkHttpReply status "" "" false None (Problem code).
Definition allow (method : string) : Reply := mkHttpReply 405 method "" false None (Problem "INVALID_REQUEST").

(** [errors.Is] of one of the named errors. *)
Definition named (er target : error) : bool := match er, target with ENamed a, ENamed b => String.eqb a b | _, _ => false end.

(** [mime.ParseMediaType]: the type and the parameters. *)
Class Mime := ParseMediaType : string -> option (string * gmap string string).

(** [strings.TrimSpace]: the runes of the text, invalid bytes as they are. *)
Fixpoint chunks (fuel : nat) (l : list Z) : list (list Z * bool) :=
  match fuel, l with
  | S n, b :: r =>
      match utf8.decode_rune l with
      | Some (c, r') => (take (List.length l - List.length r') l, utf8.IsSpace c) :: chunks n r'
      | None => ([b], false) :: chunks n r
      end
  | _, _ => []
  end.
Definition TrimSpace (s : string) : string :=
  let l := drop_while snd (chunks (String.length s) (bytes s)) in
  of_bytes (List.concat (fst <$> rev (drop_while snd (rev l)))).
Definition CookieName : string := "__Host-wrs".
End http.

(** ** Authentication *)

Module authhttp.
Import pgstore accounts http.
Local Open Scope Z_scope.

(** ** Exact bodies *)

(** The loop of [object]; the decoder consumes a byte in every round, so the
    length of the body is enough fuel. *)
Fixpoint object_loop (fuel : nat) (keys : list string) (d : json.Decoder) (out : gmap string string) : option (gmap string string * json.Decoder) :=
  match fuel with
  | O => None
  | S n =>
      if negb (json.More d) then Some (out, d) else
      match json.Token d with
      | Ok (json.TString key, d) =>
          if negb (bool_decide (key ∈ keys)) || bool_decide (is_Some (out !! key)) then None else
          match json.Token d with
          | Ok (json.TString s, d) => object_loop n keys d (<[key := s]> out)
          | _ => None
          end
      | _ => None
      end
  end.

Definition object (data : string) (keys : list string) : option (gmap string string) :=
  match utf8.runes data with
  | None => None
  | Some _ =>
      match json.Token (json.NewDecoder data) with
      | Ok (json.Delim "{", d) =>
          match object_loop (S (String.length data)) keys d ∅ with
          | Some (out, d) =>
              match json.Token d with
              | Ok (json.Delim "}", d) =>
                  if negb (size out =? List.length keys)%nat then None else if json.at_end d then Some out else None
              | _ => None
              end
          | None => None
          end
      | _ => None
      end
  end.

(** ** What [object] accepts *)

(** The text of the members of an object of strings. *)
Inductive members : bool -> list Z -> list (string * string) -> Prop :=
  | members_end first w : json.blank w -> members first w []
  | members_cons first w k w2 w3 v t key val ms :
      json.lead first w -> json.quoted k key -> json.blank w2 -> json.blank w3 -> json.quoted v val -> members false t ms ->
      members first (w ++ 34 :: k ++ w2 ++ 58 :: w3 ++ 34 :: v ++ t) ((key, val) :: ms).
(** An object of strings, alone in its text. *)
Definition flat (data : string) (ms : list (string * string)) : Prop :=
  exists w1 t w2, json.blank w1 /\ members true t ms /\ json.blank w2 /\ bytes data = w1 ++ 123 :: t ++ 125 :: w2.

Lemma loop_accepts first t ms fuel keys r s st out :
  members first t ms -> (List.length t < fuel)%nat -> ms.*1 ⊆ keys -> NoDup ms.*1 -> (forall k, k ∈ ms.*1 -> out !! k = None) ->
  exists w first', json.blank w /\ object_loop fuel keys (json.mkDecoder (t ++ 125 :: r) (json.expects first) (s :: st)) out =
    Some (list_to_map ms ∪ out, json.mkDecoder (w ++ 125 :: r) (json.expects first') (s :: st)).
Proof.
  intros Hm. revert fuel out. induction Hm as [first w Hw|first w k w2 w3 v t key val ms Hw Hk H2 H3 Hv Hm IH]; intros fuel out Hf Hin Hnd Hout;
    (destruct fuel as [|fuel]; [lia|]).
  - exists w, first. split; [done|]. cbn [object_loop]. rewrite json.More_close by done. cbn. by rewrite (left_id_L ∅ (∪) out).
  - apply NoDup_cons in Hnd as [Hnew Hnd]. cbn [object_loop].
    replace ((w ++ 34 :: k ++ w2 ++ 58 :: w3 ++ 34 :: v ++ t) ++ 125 :: r) with (w ++ 34 :: k ++ (w2 ++ 58 :: w3 ++ 34 :: v ++ (t ++ 125 :: r)))
      by (by rewrite <- !app_assoc; cbn; rewrite <- !app_assoc; cbn; rewrite <- !app_assoc; cbn; rewrite <- !app_assoc).
    rewrite json.More_key by done. cbn [negb]. rewrite (json.token_key _ _ _ key) by done.
    rewrite bool_decide_eq_true_2 by (apply Hin; left). rewrite (Hout key) by left. cbn [negb orb].
    rewrite bool_decide_eq_false_2 by (by intros []). rewrite (json.token_value _ _ _ val) by done.
    destruct (IH fuel (<[key:=val]> out)) as (w' & f' & Hw' & El).
    + rewrite !length_app in Hf. cbn in Hf. rewrite !length_app in Hf. cbn in Hf. rewrite !length_app in Hf. cbn in Hf. rewrite !length_app in Hf. lia.
    + intros x Hx. apply Hin. by right.
    + done.
    + intros x Hx. rewrite lookup_insert_ne by (intros ->; done). apply Hout. by right.
    + exists w', f'. split; [done|]. change (json.expects false) with json.ObjectComma in El. rewrite El. do 2 f_equal.
      cbn. by rewrite <- insert_union_r, insert_union_l by (by apply not_elem_of_list_to_map).
Qed.

Lemma loop_sound fuel keys first l s st out out' d d' :
  object_loop fuel keys (json.mkDecoder l (json.expects first) (s :: st)) out = Some (out', d) -> json.Token d = Ok (json.Delim "}", d') ->
  exists t ms r, l = t ++ 125 :: r /\ members first t ms /\ d' = json.mkDecoder r (json.value_end s) st /\ NoDup ms.*1 /\ ms.*1 ⊆ keys /\
    (forall k, k ∈ ms.*1 -> out !! k = None) /\ out' = list_to_map ms ∪ out.
Proof.
  intros Hl Hd. revert first l out Hl. induction fuel as [|fuel IH]; intros first l out; [done|]. cbn [object_loop]. case_if as E1.
  - intros [= <- <-]. destruct (json.token_close_inv _ _ _ _ _ Hd) as (w & r & -> & Hw & ->). exists w, [], r.
    split_and!; [done | by apply members_end | done | apply NoDup_nil_2 | set_solver | set_solver | by cbn; rewrite (left_id_L ∅ (∪) out)].
  - destruct (json.Token (json.mkDecoder l _ _)) as [[[] d1]|] eqn:Ek; try done. destruct (json.token_key_inv _ _ _ _ _ Ek) as (w & k & l1 & -> & Hw & Hk & ->).
    rename s0 into key. case_if as E2; [done|]. to_prop. destruct (json.Token (json.mkDecoder l1 _ _)) as [[[] d2]|] eqn:Ev; try done.
    destruct (json.token_value_inv _ _ _ _ Ev) as (w2 & w3 & v & l2 & -> & H2 & H3 & Hv & ->). rename s0 into val. intros Hl.
    destruct (IH false l2 (<[key:=val]> out) Hl) as (t & ms & r & -> & Hm & -> & Hnd & Hin & Hout & ->).
    assert (key ∉ ms.*1) as Hnew.
    { intros Hx. specialize (Hout key Hx). by rewrite lookup_insert_eq in Hout. }
    exists (w ++ 34 :: k ++ w2 ++ 58 :: w3 ++ 34 :: v ++ t), ((key, val) :: ms), r. split_and!.
    + by rewrite <- !app_assoc; cbn; rewrite <- !app_assoc; cbn; rewrite <- !app_assoc; cbn; rewrite <- !app_assoc.
    + by apply members_cons.
    + done.
    + by apply NoDup_cons.
    + intros x [->|Hx]%elem_of_cons; [done | auto].
    + intros x [->|Hx]%elem_of_cons; [by apply eq_None_not_Some|]. specialize (Hout x Hx). by apply lookup_insert_None in Hout as [? _].
    + cbn. by rewrite <- insert_union_r, insert_union_l by (by apply not_elem_of_list_to_map).
Qed.

(** A body is read exactly. [object] accepts a body if and only if it is
    valid UTF-8 and one object of strings, with nothing but blanks around it,
    whose keys are the expected ones, each of them once; and it returns what the
    object says. In particular the loop always has fuel enough. *)
Lemma object_exact data keys m : NoDup keys ->
  object data keys = Some m <->
  is_Some (utf8.runes data) /\ exists ms, flat data ms /\ ms.*1 ≡ₚ keys /\ m = list_to_map ms.
Proof.
  intros Hnd. unfold object. split.
  - destruct (utf8.runes data) as [rs|]; [|done]. destruct (json.Token (json.NewDecoder data)) as [[[c| | | |] d0]|] eqn:E0; try done.
    destruct (decide (c = "{"%char)) as [->|Hc]; [|by repeat case_match; simplify_eq].
    destruct (json.token_open_inv _ _ _ E0 eq_refl) as (w1 & l & El & Hw1 & ->).
    destruct (object_loop _ _ _ _) as [[out d1]|] eqn:E1; [|done]. destruct (json.Token d1) as [[[c| | | |] d2]|] eqn:E2; try done.
    destruct (decide (c = "}"%char)) as [->|Hc]; [|by repeat case_match; simplify_eq].
    destruct (loop_sound _ _ true _ _ _ _ _ _ _ E1 E2) as (t & ms & r & -> & Hm & -> & Hn & Hin & _ & ->). case_if as E3; [done|].
    case_if as E4; [|done]. apply json.at_end_blank in E4. rewrite (right_id_L ∅ (∪)) in *. intros [= <-]. split; [done|].
    exists ms. split_and!; [by exists w1, t, r | | done]. to_prop. apply submseteq_length_Permutation.
    + by apply NoDup_submseteq.
    + rewrite length_fmap. rewrite map_size_list_to_map in E3 by done. apply Nat.eqb_eq in E3. lia.
  - intros [[rs Er] (ms & (w1 & t & w2 & Hw1 & Hm & Hw2 & El) & Hp & ->)]. rewrite Er. unfold json.NewDecoder. rewrite El.
    rewrite json.token_open by done. assert (NoDup ms.*1) as Hn by by rewrite Hp.
    destruct (loop_accepts true t ms (S (String.length data)) keys w2 json.TopValue [] ∅) as (w & f & Hw & Hl).
    + done.
    + assert (List.length (bytes data) = String.length data) as <-.
      { unfold bytes. rewrite length_fmap, <- (length_string_of_list_ascii (list_ascii_of_string data)). by rewrite string_of_list_ascii_of_string. }
      rewrite El, !length_app. cbn. rewrite length_app. lia.
    + by rewrite Hp.
    + done.
    + done.
    + change (json.expects true) with json.ObjectStart in Hl. rewrite Hl, json.token_close by done. rewrite (right_id_L ∅ (∪)).
      rewrite map_size_list_to_map by done. rewrite <- Hp at 1. rewrite length_fmap, Nat.eqb_refl. cbn.
      by rewrite (proj2 (json.at_end_blank w2) Hw2).
Qed.

(** ** Checks of a request *)

Definition opaque (s : string) : bool :=
  (len s =? 43) && match base64.StrictDecodeString s with Some b => len b =? 32 | None => false end.

(** The name of a part of a [Cookie] header. *)
Definition part_name (part : string) : string :=
  let t := TrimSpace part in TrimSpace (match strs.cut_byte "=" t with Some (name, _) => name | None => t end).
Definition hasAdminSessionCookie (r : Request) : bool :=
  existsb (fun header => existsb (fun part => String.eqb (part_name part) CookieName) (strs.split_byte ";" header)) (Values r "Cookie").

Record Handler := mkHandler { origin_ : string; host : string; provision : bool; bootstrapOnly : bool }.

Definition path_login : string := "/api/admin/v1/auth/login".
Definition path_verify : string := "/api/admin/v1/auth/totp/verify".
Definition path_recover : string := "/api/admin/v1/auth/totp/recover".
Definition path_enroll : string := "/api/admin/v1/auth/totp/enroll".
Definition path_complete : string := "/api/admin/v1/auth/totp/enroll/verify".
Definition path_bootstrap : string := "/api/admin/v1/bootstrap".
Definition known (h : Handler) (path : string) : bool :=
  if bootstrapOnly h then String.eqb path path_bootstrap
  else bool_decide (path ∈ [path_login; path_verify; path_recover]) || (provision h && bool_decide (path ∈ [path_enroll; path_complete])).

(** The bearer of a challenge, the token of a bootstrap, or nothing. *)
Definition credential (h : Handler) (r : Request) : result Reply string :=
  let no := Err (problem 401 "UNAUTHENTICATED") in
  if negb (bootstrapOnly h) && negb (count r "X-Bootstrap-Token" =? 0)%nat then no else
  if bootstrapOnly h then
    if negb (count r "Authorization" =? 0)%nat || negb (count r "X-Bootstrap-Token" =? 1)%nat || negb (opaque (Get r "X-Bootstrap-Token"))
    then no else Ok (Get r "X-Bootstrap-Token")
  else if String.eqb (Path r) path_login then
    if negb (count r "Authorization" =? 0)%nat then no else Ok ""
  else
    if negb (count r "Authorization" =? 1)%nat then no else
    let header := Get r "Authorization" in
    if negb (strs.HasPrefix header "Bearer ") || negb (opaque (str_drop 7 header)) then no else Ok (str_drop 7 header).

Section handler.
Context `{Mime}.

Definition json_body (r : Request) : bool :=
  match ParseMediaType (Get r "Content-Type") with
  | None => false
  | Some (media, params) =>
      String.eqb media "application/json" &&
      negb ((1 <? size params)%nat || ((size params =? 1)%nat && negb (String.eqb (lab.ToLower (default "" (params !! "charset"))) "utf-8")))
  end.

(** Everything [ServeHTTP] checks before it reserves an attempt: the credential
    and the peer, or the reply. *)
Definition same_origin (origin host : string) (r : Request) : bool :=
  TLS r && String.eqb (Host r) host && (count r "Origin" =? 1)%nat && String.eqb (Get r "Origin") origin &&
  (count r "X-WR-Auth" =? 1)%nat && String.eqb (Get r "X-WR-Auth") "1".
Definition fetch_site (r : Request) : bool :=
  negb ((1 <? count r "Sec-Fetch-Site")%nat || (negb (String.eqb (Get r "Sec-Fetch-Site") "") && negb (String.eqb (Get r "Sec-Fetch-Site") "same-origin"))).
Definition loopback (a : origin.Addr) : bool := origin.IsLoopback (origin.Unmap a).
Definition boundary (h : Handler) (r : Request) : result Reply (string * origin.Addr) :=
  let path := Path r in
  if negb (String.eqb (EscapedPath r) path) || negb (String.eqb (RawQuery r) "") || ForceQuery r then Err (problem 400 "INVALID_REQUEST") else
  if negb (known h path) then Err (problem 404 "NOT_FOUND") else
  if negb (String.eqb (Method r) "POST") then Err (allow "POST") else
  if negb (same_origin (origin_ h) (host h) r) then Err (problem 403 "FORBIDDEN") else
  if negb (fetch_site r) then Err (problem 403 "FORBIDDEN") else
  if hasAdminSessionCookie r || (bootstrapOnly h && negb (count r "Cookie" =? 0)%nat) || negb (count r "X-CSRF-Token" =? 0)%nat
  then Err (problem 401 "UNAUTHENTICATED") else
  match credential h r with
  | Err e => Err e
  | Ok challenge =>
      if negb (count r "Content-Type" =? 1)%nat || negb (count r "Content-Encoding" =? 0)%nat then Err (problem 415 "INVALID_REQUEST") else
      if negb (json_body r) then Err (problem 415 "INVALID_REQUEST") else
      match Peer r with
      | None => Err (problem 403 "FORBIDDEN")
      | Some peer =>
          if negb (String.eqb (origin.Zone peer) "") then Err (problem 403 "FORBIDDEN") else
          if bootstrapOnly h &&
             (negb (loopback peer) || match Local_ r with Some l => negb (String.eqb (origin.Zone l) "") || negb (loopback l) | None => true end)
          then Err (problem 403 "FORBIDDEN") else Ok (challenge, origin.Unmap peer)
      end
  end.
(** ** The backend *)

(** [Backend] and [ProvisioningBackend]; [W] is the state behind them. *)
Class Backend (W : Type) := {
  ReserveAuthHTTP_ : origin.Addr -> W -> W * result error unit;
  Login_ : string -> string -> origin.Addr -> W -> W * result error LoginResult;
  Verify_ : string -> string -> W -> W * result error Grant;
  Recover_ : string -> string -> W -> W * result error Grant;
  Me_ : string -> W -> W * result error SessionView;
  Bootstrap_ : string -> string -> string -> origin.Addr -> W -> W * result error LoginResult;
  BeginEnrollment_ : string -> W -> W * result error (adminauth.Secret * Z);
  CompleteEnrollment_ : string -> string -> W -> W * result error EnrollmentGrant
}.
Context {W : Type} `{Backend W}.

Definition fail (er : error) : Reply :=
  match er with
  | EAuth adminauth.ErrInvalidOrReplayed | EAuth adminauth.ErrUnauthenticated => problem 401 "UNAUTHENTICATED"
  | EAuth adminauth.ErrForbidden => problem 403 "FORBIDDEN"
  | _ =>
      if named er ErrSetupReview then problem 412 "SETUP_REVIEW_REQUIRED" else
      if named er ErrAuthHTTPRateLimit then mkHttpReply 429 "" "60" false None (Problem "AUTH_RATE_LIMITED")
      else problem 503 "AUTH_UNAVAILABLE"
  end.

(** What the handler finds on its connection: the requests that hold a slot of
    the process, and whether the read deadline could be set and cleared. *)
Record conn := mkConn { active : nat; deadline_set : bool; deadline_cleared : bool }.

Definition body (c : conn) (r : Request) : result Reply string :=
  if negb (deadline_set c) then Err (problem 503 "AUTH_UNAVAILABLE") else
  if 4096 <? ContentLength r then Err (problem 413 "INVALID_REQUEST") else
  match Body r with
  | None => Err (problem 400 "INVALID_REQUEST")
  | Some b =>
      match read 4097 b with
      | Err _ => Err (problem 400 "INVALID_REQUEST")
      | Ok data =>
          if 4096 <? len data then Err (problem 413 "INVALID_REQUEST") else
          if negb (deadline_cleared c) then Err (problem 503 "AUTH_UNAVAILABLE") else Ok data
      end
  end.

Definition keys_of (path : string) : list string :=
  if String.eqb path path_complete then ["code"] else
  if String.eqb path path_enroll then [] else
  if String.eqb path path_recover then ["recoveryCode"] else
  if String.eqb path path_verify then ["code"] else ["username"; "password"].

(** A password was right: the reply that asks for more, or the grant. *)
Definition logged_in (x : result error LoginResult) : result Reply (Grant * list string) :=
  match x with
  | Err er => Err (fail er)
  | Ok result =>
      let grant := default (mkGrant "" "") (r_grant result) in
      if negb (String.eqb (r_challenge result) "") || negb (String.eqb (r_enrollment result) "") then
        let enrol := negb (String.eqb (r_enrollment result) "") in
        let token := if enrol then r_enrollment result else r_challenge result in
        let state := if enrol then "enrollment_required" else "totp_required" in
        Err (if negb (opaque token) || (expiresAt result =? zero_time) || negb (String.eqb (g_session grant) "")
             then fail unavailable
             else mkHttpReply 200 "" "" false None (Auth state None "" token (Some (expiresAt result)) []))
      else Ok (grant, [])
  end.

Definition begun (x : result error (adminauth.Secret * Z)) : Reply :=
  match x with
  | Err er => fail er
  | Ok (secret, expires) =>
      match vault.ProvisioningBase32 secret with
      | Err _ => fail unavailable
      | Ok key => if expires =? zero_time then fail unavailable else mkHttpReply 200 "" "" false None (Manual key expires)
      end
  end.

Fixpoint distinct (seen codes : list string) : bool :=
  match codes with
  | [] => true
  | code :: codes => if negb (opaque code) || bool_decide (code ∈ seen) then false else distinct (code :: seen) codes
  end.
Definition completed (x : result error EnrollmentGrant) : result Reply (Grant * list string) :=
  match x with
  | Err er => Err (fail er)
  | Ok g => if distinct [] (eg_recovery g) then Ok (eg_grant g, eg_recovery g) else Err (fail unavailable)
  end.
Definition granted (x : result error Grant) : result Reply (Grant * list string) :=
  match x with Ok g => Ok (g, []) | Err er => Err (fail er) end.

(** The switch over the paths: a reply, or a grant with its recovery codes. *)
Definition dispatch (h : Handler) (path challenge : string) (peer : origin.Addr) (fields : gmap string string) (w : W)
    : W * result Reply (Grant * list string) :=
  let field k := default "" (fields !! k) in
  if bool_decide (path ∈ [path_login; path_bootstrap]) then
    let '(w, x) := if bootstrapOnly h then Bootstrap_ challenge (field "username") (field "password") peer w
                   else Login_ (field "username") (field "password") peer w in (w, logged_in x)
  else if String.eqb path path_verify then let '(w, x) := Verify_ challenge (field "code") w in (w, granted x)
  else if String.eqb path path_recover then let '(w, x) := Recover_ challenge (field "recoveryCode") w in (w, granted x)
  else if String.eqb path path_enroll then let '(w, x) := BeginEnrollment_ challenge w in (w, Err (begun x))
  else let '(w, x) := CompleteEnrollment_ challenge (field "code") w in (w, completed x).

(** The session of a grant, and its cookie. *)
Definition authenticated (grant : Grant) (recovery : list string) (w : W) : W * Reply :=
  if negb (opaque (g_session grant)) || negb (opaque (g_csrf grant)) then (w, fail unavailable) else
  let '(w, x) := Me_ (g_session grant) w in
  (w, match x with
      | Err er => fail er
      | Ok view => mkHttpReply 200 "" "" false (Some (SetCookie (g_session grant) (w_absolute view)))
                     (Auth "authenticated" (Some view) (g_csrf grant) "" None recovery)
      end).

Definition ServeHTTP (h : Handler) (c : conn) (r : Request) (w : W) : W * Reply :=
  match boundary h r with
  | Err e => (w, e)
  | Ok (challenge, peer) =>
      if (2 <=? active c)%nat then (w, problem 503 "AUTH_UNAVAILABLE") else
      let '(w, x) := ReserveAuthHTTP_ peer w in
      match x with
      | Err er => (w, fail er)
      | Ok _ =>
          match body c r with
          | Err e => (w, e)
          | Ok data =>
              match object data (keys_of (Path r)) with
              | None => (w, problem 400 "INVALID_REQUEST")
              | Some fields =>
                  let '(w, y) := dispatch h (Path r) challenge peer fields w in
                  match y with Err e => (w, e) | Ok (grant, recovery) => authenticated grant recovery w end
              end
          end
      end
  end.

(** ** A reply with a cookie *)

Lemma fail_cookie er : Cookie (fail er) = None.
Proof. unfold fail. by repeat case_match. Qed.
Lemma boundary_cookie h r e : boundary h r = Err e -> Cookie e = None.
Proof.
  unfold boundary. destruct (credential h r) as [c|e'] eqn:Ec.
  - by repeat case_match; intros [= <-].
  - assert (Cookie e' = None) as He by (revert Ec; unfold credential; by repeat case_match; intros [= <-]). by repeat case_match; intros [= <-].
Qed.
Lemma body_cookie c r e : body c r = Err e -> Cookie e = None.
Proof. unfold body. by repeat case_match; intros [= <-]. Qed.
Lemma dispatch_cookie h path challenge peer fields w w' e : dispatch h path challenge peer fields w = (w', Err e) -> Cookie e = None.
Proof.
  unfold dispatch, logged_in, granted, completed, begun. repeat case_match; intros [= <- <-]; try done; try apply fail_cookie.
Qed.

(** A reply that sets a cookie has gone through every stage of the handler. *)
Lemma serve_cookie h c r w w' reply value expires :
  ServeHTTP h c r w = (w', reply) -> Cookie reply = Some (SetCookie value expires) ->
  exists challenge peer w1 data fields w2 g codes view,
    boundary h r = Ok (challenge, peer) /\ (active c < 2)%nat /\ ReserveAuthHTTP_ peer w = (w1, Ok tt) /\ body c r = Ok data /\
    object data (keys_of (Path r)) = Some fields /\ dispatch h (Path r) challenge peer fields w1 = (w2, Ok (g, codes)) /\
    g_session g = value /\ opaque value = true /\ Me_ value w2 = (w', Ok view) /\ expires = w_absolute view.
Proof.
  unfold ServeHTTP. destruct (boundary h r) as [[challenge peer]|e] eqn:Eb; [|intros [= <- <-]; by rewrite (boundary_cookie _ _ _ Eb)].
  destruct (2 <=? active c)%nat eqn:Ea; [by intros [= <- <-]|]. apply Nat.leb_gt in Ea.
  destruct (ReserveAuthHTTP_ peer w) as [w1 [[]|er]] eqn:Er; [|intros [= <- <-]; by rewrite fail_cookie].
  destruct (body c r) as [data|e] eqn:Ed; [|intros [= <- <-]; by rewrite (body_cookie _ _ _ Ed)].
  destruct (object data _) as [fields|] eqn:Eo; [|by intros [= <- <-]].
  destruct (dispatch h _ _ _ _ w1) as [w2 [[g codes]|e]] eqn:Ex; [|intros [= <- <-]; by rewrite (dispatch_cookie _ _ _ _ _ _ _ _ Ex)].
  unfold authenticated. destruct (negb _ || negb _) eqn:En; [by intros [= <- <-]|]. apply orb_false_iff in En as [En _].
  destruct (Me_ _ w2) as [w3 [view|er]] eqn:Em; [|intros [= <- <-]; by rewrite fail_cookie].
  intros [= <- <-] [= <- <-]. exists challenge, peer, w1, data, fields, w2, g, codes, view. split_and!; try done. by apply negb_false_iff.
Qed.
End handler.
End authhttp.

(** ** Sessions *)

(** [src/internal/adminauth/sessionhttp/handler.go]. *)
Module sessionhttp.
Import pgstore accounts http.
Local Open Scope Z_scope.

(** The session service replays logouts, so the handler calls [LogoutReplay]. *)
Class Backend (W : Type) := {
  Me : string -> W -> W * result error SessionView;
  LogoutReplay : string -> adminauth.request -> W -> W * (bool * result error unit)
}.

Definition sessionCookie (r : Request) : string * bool :=
  let '(value, n) := fold_left (fun a c => if String.eqb (fst c) CookieName then (snd c, S (snd a)) else a) (Cookies r) ("", O) in
  (value, (n =? 1)%nat && (len value =? 43)).

Definition path_me : string := "/api/admin/v1/auth/me".
Definition path_logout : string := "/api/admin/v1/auth/logout".
Definition method_of (path : string) : option string :=
  if String.eqb path path_me then Some "GET" else if String.eqb path path_logout then Some "POST" else None.

(** The checks before the backend: the method and the token, or the reply. *)
Definition boundary (r : Request) : result Reply (string * string) :=
  if negb (String.eqb (EscapedPath r) (Path r)) || negb (String.eqb (RawQuery r) "") || ForceQuery r || negb (count r "Content-Encoding" =? 0)%nat
  then Err (problem 400 "INVALID_REQUEST") else
  match method_of (Path r) with
  | None => Err (problem 404 "NOT_FOUND")
  | Some method =>
      if negb (String.eqb (Method r) method) then Err (allow method) else
      let empty := match Body r with None => true | Some b => match read 1 b with Ok "" => true | _ => false end end in
      if negb empty then Err (problem 400 "INVALID_REQUEST") else
      if negb (count r "Authorization" =? 0)%nat then Err (problem 401 "UNAUTHENTICATED") else
      let '(token, ok) := sessionCookie r in
      if negb ok then Err (problem 401 "UNAUTHENTICATED") else Ok (method, token)
  end.

(** [cleared] is what [clearCookie] sets on a logout, [replayed] the header. *)
Definition failed (method : string) (replayed : bool) (er : error) : Reply :=
  let post := String.eqb method "POST" in
  let out status cookie code := mkHttpReply status "" "" replayed cookie (Problem code) in
  if named er ErrLogoutConflict then out 409 None "IDEMPOTENCY_CONFLICT" else
  if named er ErrLogoutInvalid then out 400 None "INVALID_REQUEST" else
  match er with
  | EAuth adminauth.ErrUnauthenticated => out 401 (if post then Some ClearCookie else None) "UNAUTHENTICATED"
  | EAuth adminauth.ErrForbidden => out 403 None "FORBIDDEN"
  | _ => out 503 None "AUTH_UNAVAILABLE"
  end.

Section handler.
Context {W : Type} `{Backend W}.
Definition ServeHTTP (r : Request) (w : W) : W * Reply :=
  match boundary r with
  | Err e => (w, e)
  | Ok (method, token) =>
      if String.eqb method "GET" then
        let '(w, x) := Me token w in
        (w, match x with Ok v => mkHttpReply 200 "" "" false None (View v) | Err er => failed method false er end)
      else
        let '(w, (replayed, x)) := LogoutReplay token (Base r) w in
        (w, match x with
            | Ok _ => mkHttpReply 200 "" "" replayed (Some ClearCookie) Acknowledged
            | Err er => failed method replayed er
            end)
  end.
End handler.
End sessionhttp.
