(* ===== verification/AuthHistory.v ===== *)
(** * Authentication over HTTP, on the control plane's database

    The handlers of [AuthHTTP] in front of the services of [AccountFlow]: every
    call of the backend is a request of the interleaved histories of
    [AccountProps], with any other request in between its transactions and any
    fault of the database. The theorems are about what leaves the handlers. *)

From S2P Require Import Prelude GoStd Keyring Control ConfigTrust AdminAuth Vault Password Publication CommandProps Coordinator DataNode Origin Accounts Security AccountFlow AccountProps AccountSessions Json AuthHTTP.
From stdpp Require Import base list gmap strings sorting pretty fin_sets.
From Stdlib Require Import ZArith Lia Ascii String.
Import pgstore accounts security flow http.
Local Open Scope Z_scope.

(** ** The backend *)

(** What happens before the next transaction of a call, and its environment. *)
Record turn := mkTurn { t_others : list label; t_env : env; t_fault : fault }.
(** The turns are what is left until the deadline of the request. *)
Record world := mkWorld { w_sys : system; w_turns : list turn }.

Section history.
Context `{Sha256} `{HmacSha256} `{adminauth.HmacSha1} `{AEAD}.
Context `{Codec control.Config} `{Codec control.Delivery} `{Codec configtrust.Snapshot} `{Codec configtrust.envelope} `{Ed25519}.
Context `{Wire} `{AccountWire} `{Mime}.
Context (IDKey : string -> string -> Z -> string) (v : services).
Local Abbreviation yrun := (AccountProps.yrun IDKey v).
Local Abbreviation ystep := (AccountProps.ystep IDKey v).

(** A request in flight, until it is done or its deadline passes. *)
Definition finished (y : system) (id : nat) : option (result error answer) :=
  match y_procs y !! id with Some (SDone a) => Some a | _ => None end.
Fixpoint drive (id : nat) (y : system) (turns : list turn) : world * result error answer :=
  match finished y id with
  | Some a => (mkWorld y turns, a)
  | None =>
      match turns with
      | [] => (mkWorld y [], Err unavailable)
      | t :: turns => drive id (ystep (yrun y (t_others t)) (LStep id (t_env t) (t_fault t))) turns
      end
  end.
Definition perform (q : request) (w : world) : world * result error answer :=
  match w_turns w with
  | [] => (w, Err unavailable)
  | t :: turns => let id := fresh (dom (y_procs (w_sys w))) in drive id (ystep (w_sys w) (LStart id q (t_env t))) turns
  end.
Definition expect {A} (f : answer -> option A) (p : world * result error answer) : world * result error A :=
  (fst p, match snd p with Ok a => match f a with Some x => Ok x | None => Err unavailable end | Err er => Err er end).

Definition as_unit (a : answer) : option unit := match a with AUnit => Some tt | _ => None end.
Definition as_login (a : answer) : option LoginResult := match a with ALogin r => Some r | _ => None end.
Definition as_grant (a : answer) : option Grant := match a with AGrant g => Some g | _ => None end.
Definition as_view (a : answer) : option SessionView := match a with AView w => Some w | _ => None end.
Definition as_setup (a : answer) : option (adminauth.Secret * Z) := match a with ASetup s t => Some (s, t) | _ => None end.
Definition as_enrolled (a : answer) : option EnrollmentGrant := match a with AEnrolled g => Some g | _ => None end.
Definition as_ack (a : answer) : option bool := match a with AAck b => Some b | _ => None end.

(** [PostgresBackend]. *)
#[export] Instance PostgresBackend : authhttp.Backend world := {|
  authhttp.ReserveAuthHTTP_ peer w := expect as_unit (perform (ReserveHTTP peer) w);
  authhttp.Login_ user pw peer w := expect as_login (perform (Login user pw peer) w);
  authhttp.Verify_ tok code w := expect as_grant (perform (TOTP tok code) w);
  authhttp.Recover_ tok code w := expect as_grant (perform (Recovery tok code) w);
  authhttp.Me_ tok w := expect as_view (perform (Session tok None Read) w);
  authhttp.Bootstrap_ tok user pw peer w := expect as_login (perform (Bootstrap tok user pw peer) w);
  authhttp.BeginEnrollment_ tok w := expect as_setup (perform (EnrollBegin tok) w);
  authhttp.CompleteEnrollment_ tok code w := expect as_enrolled (perform (EnrollComplete tok code) w)
|}.
(** [SessionService] behind the session endpoints. *)
#[export] Instance SessionBackend : sessionhttp.Backend world := {|
  sessionhttp.Me tok w := expect as_view (perform (Session tok None Read) w);
  sessionhttp.LogoutReplay tok r w :=
    let '(w, x) := expect as_ack (perform (Logout_ tok (Some r)) w) in
    (w, match x with Ok b => (b, Ok tt) | Err er => (false, Err er) end)
|}.

(** ** What a request pays with *)

(** The request that a path of the handler makes. *)
Definition asked (h : authhttp.Handler) (path challenge : string) (peer : origin.Addr) (fields : gmap string string) : request :=
  let field k := default "" (fields !! k) in
  if bool_decide (path ∈ [authhttp.path_login; authhttp.path_bootstrap]) then
    if authhttp.bootstrapOnly h then Bootstrap challenge (field "username") (field "password") peer
    else Login (field "username") (field "password") peer
  else if String.eqb path authhttp.path_verify then TOTP challenge (field "code")
  else if String.eqb path authhttp.path_recover then Recovery challenge (field "recoveryCode")
  else if String.eqb path authhttp.path_enroll then EnrollBegin challenge
  else EnrollComplete challenge (field "code").

(** The credentials of a request opened the session with hash [h]. *)
Definition paid (q : request) (log : list event) (h : string) : Prop :=
  match q with
  | Login user password _ =>
      exists before, ELogin before password h ∈ log /\ s_user before = user /\ verified IDKey v password (s_hash before)
  | Bootstrap _ user _ _ => EFirst user h ∈ log
  | TOTP challenge _ | EnrollComplete challenge _ =>
      exists ref c by_, tokenHash challenge = Some by_ /\ ECode ref c by_ h ∈ log
  | Recovery challenge code =>
      exists ref slot stored by_, tokenHash challenge = Some by_ /\ ERecovery ref slot stored code by_ h ∈ log /\
        verified IDKey v ("wr-recovery-v1:" +:+ code) stored
  | _ => False
  end.

(** The session token of an answer. *)
Definition session_of (a : answer) : option string :=
  match a with
  | ALogin r => g_session <$> r_grant r
  | AGrant g => Some (g_session g)
  | AEnrolled g => Some (g_session (eg_grant g))
  | _ => None
  end.
Definition settled (q : request) (log : list event) (a : result error answer) : Prop :=
  match a with
  | Ok a => forall tok h, session_of a = Some tok -> tokenHash tok = Some h -> paid q log h
  | Err _ => True
  end.

(** A stage of a request carries the credentials of the request. *)
Definition owed (q : request) (log : list event) (st : stage) : Prop :=
  match q, st with
  | _, SDone a => settled q log a
  | Login user password _, (SLogin_reserve u p _ | SLogin_snapshot u p) => u = user /\ p = password
  | Login user password _, SLogin_finish before p => s_user before = user /\ p = password
  | Login _ _ _, SLogin_rejected => True
  | TOTP challenge code, STotp ch c => ch = challenge /\ c = code
  | Recovery challenge code, SRecover_reserve hash c => tokenHash challenge = Some hash /\ c = code
  | Recovery challenge code, SRecover_finish attempt slot c =>
      tokenHash challenge = Some (v_challenge (a_state attempt)) /\ c = code
  | EnrollComplete challenge code, SEnroll_reserve _ hash _ => tokenHash challenge = Some hash
  | EnrollComplete challenge code, SEnroll_finish _ attempt _ _ => tokenHash challenge = Some (ea_hash attempt)
  | EnrollComplete _ _, SPolicy_view _ => True
  | Bootstrap _ user _ _, (SBootstrap_snapshot _ u _ | SBootstrap_applied _ u _ _ | SBootstrap_finish _ u _ _) => u = user
  | _, _ => False
  end.
Definition grants (q : request) : bool :=
  match q with Login _ _ _ | TOTP _ _ | Recovery _ _ | EnrollComplete _ _ | Bootstrap _ _ _ _ => true | _ => false end.

Lemma paid_mono q log log' h : log ⊆ log' -> paid q log h -> paid q log' h.
Proof. intros Hl. destruct q; cbn; try done; naive_solver. Qed.
Lemma owed_mono q log log' st : log ⊆ log' -> owed q log st -> owed q log' st.
Proof.
  intros Hl. assert (forall a, settled q log a -> settled q log' a) as Hs.
  { intros [a|]; [|done]. intros Ha tok h H1' H2'. eapply paid_mono; [done|]. by eapply Ha. }
  destruct q, st; cbn [owed]; auto.
Qed.
Lemma owed_start e q log : grants q = true -> owed q log (start v e q).
Proof. destruct q; try done; intros _; cbn [start]; repeat (case_match; try done); by cbn. Qed.

(** ** What the transactions answer *)

Lemma token_opens e i h : tokenHash (fst (token e i)) = Some h -> h = snd (token e i).
Proof. unfold tokenHash, token. case_if as E; [done|]. case_match; [|done]. case_if as E2; [done|]. by intros [= <-]. Qed.


(** A transaction that answers only when it commits. *)
Definition commits {A} (o : outcome A) : Prop := match o with Rollback _ => False | _ => True end.
Lemma finishPassword_commits l before e db : commits (finishPassword l before e db).
Proof. unfold finishPassword. by repeat case_match. Qed.
Lemma finishBootstrap_commits l hash user pw before e db : commits (finishBootstrap l hash user pw before e db).
Proof. unfold finishBootstrap. by repeat case_match. Qed.
Lemma CompleteTOTP_commits s challenge code e db : commits (CompleteTOTP s challenge code e db).
Proof. unfold CompleteTOTP. by repeat case_match. Qed.
Lemma recovery_finish_commits s attempt slot e db : commits (recovery_finish s attempt slot e db).
Proof. unfold recovery_finish. by repeat case_match. Qed.
Lemma enrollment_finish_commits s attempt code b e db : commits (enrollment_finish s attempt code b e db).
Proof. unfold enrollment_finish. repeat (case_match; try done). Qed.

(** The session token of a grant is the first random value. *)
Lemma issuePasswordSession_token user pv uv t e db db' g :
  issuePasswordSession user pv uv t e db = Ok (db', g) -> g_session g = fst (token e 0).
Proof.
  unfold issuePasswordSession, issueSession. destruct (token e 0) as [raw hash], (token e 1). destruct (insert_session _ _ _ _ _ _ _ _); [|done].
  by intros [= _ <-].
Qed.
Lemma finishPassword_token l before e db db' r g :
  finishPassword l before e db = Commit db' r -> r_grant r = Some g -> g_session g = fst (token e 0).
Proof.
  unfold finishPassword. intros Hf Hg. revert Hf. repeat (case_match; try (intros [= <- <-]; done); try done).
  intros [= _ <-]. match goal with E : issuePasswordSession _ _ _ _ _ _ = Ok ?p |- _ => destruct p as [db1 g1] end. cbn in Hg. simplify_eq.
  by eapply issuePasswordSession_token.
Qed.
Lemma finishBootstrap_token l hash user pw before e db db' r g :
  finishBootstrap l hash user pw before e db = Commit db' r -> r_grant r = Some g -> g_session g = fst (token e 0).
Proof.
  unfold finishBootstrap. intros Hf Hg. revert Hf. repeat (case_match; try (intros [= <- <-]; done); try done).
  intros [= _ <-]. match goal with E : issuePasswordSession _ _ _ _ _ _ = Ok ?p |- _ => destruct p as [db1 g1] end. cbn in Hg. simplify_eq.
  by eapply issuePasswordSession_token.
Qed.
Lemma recovery_finish_token s attempt slot e db db' g :
  recovery_finish s attempt slot e db = Commit db' g -> g_session g = fst (token e 0).
Proof. unfold recovery_finish. destruct (token e 0) as [raw hash]. repeat (case_match; try done). by intros [= _ <-]. Qed.
Lemma CompleteTOTP_code challenge code e db db' g :
  CompleteTOTP (store_ v) challenge code e db = Commit db' (Ok g) -> g_session g = fst (token e 0) /\
  exists ref c by_, tokenHash challenge = Some by_ /\
    ECode ref c by_ (snd (token e 0)) ∈ proved v (STotp challenge code) e db db' (SDone (Ok (AGrant g))).
Proof.
  unfold CompleteTOTP. cbn [proved]. destruct (token e 0) as [raw hash]. repeat (case_match; try done). intros [= _ <-].
  split; [done|]. eexists _, _, _. split; [done|]. cbn. by left.
Qed.
Lemma loadEnrollment_row hash pe e db st : loadEnrollment hash pe e db = Ok st ->
  exists r, enrollments db !! hash = Some r /\ default ("", "") (en_secret r) = (n_kid st, n_sealed st).
Proof. unfold loadEnrollment. repeat (case_match; try done). intros [= <-]. eauto. Qed.
Lemma enrollment_finish_code s attempt code b e db db' g st' :
  enrollment_finish s attempt code b e db = Commit db' g -> g_session (eg_grant g) = fst (token e 0) /\
  exists ref c, ECode ref c (ea_hash attempt) (snd (token e 0)) ∈ proved v (SEnroll_finish s attempt code b) e db db' st'.
Proof.
  unfold enrollment_finish. destruct (loadEnrollment _ _ _ _) as [st|] eqn:El; [|done]. apply loadEnrollment_row in El as (r & Er & Es).
  cbn [proved]. rewrite Er, Es. case_if as E1; [done|]. to_prop. match goal with E : n_ref st = ea_ref attempt |- _ => rewrite E end.
  destruct (vault.openEnrollment _ _ _ _ _) as [secret|]; [|done]. cbn [of_auth code_event]. destruct (of_auth _); [|done].
  destruct (token e 0) as [raw hash], (token e 1). destruct (verify_and_consume _ _ _ _ _ _) as [db1 []]; [|done]. intros [= _ <-].
  split; [done|]. eexists _, _. by left.
Qed.

(** ** Credentials go with their request *)

Definition value {A} (o : outcome A) : option A := match o with Fail _ => None | Rollback a => Some a | Commit _ a => Some a end.
Lemma value_map {A} (f : A -> stage) o st : landed (map_outcome f o) = Some st -> exists a, value o = Some a /\ st = f a.
Proof. destruct o; simpl; intros [= <-]; eauto. Qed.
Lemma recovery_reserve_hash hash e db a : value (recovery_reserve hash e db) = Some a -> v_challenge (a_state a) = hash.
Proof.
  unfold recovery_reserve. destruct (loadRecovery _ _ _) as [st|] eqn:El; [|done]. repeat (case_match; try done). intros [= <-]. cbn.
  revert El. unfold loadRecovery. repeat (case_match; try done). by intros [= <-].
Qed.
Lemma enrollment_reserve_hash s hash e db a : value (enrollment_reserve s hash e db) = Some a -> ea_hash a = hash.
Proof. unfold enrollment_reserve. repeat (case_match; try done). by intros [= <-]. Qed.

(** A stage that has not answered with a session. *)
Definition unanswered (q : request) (log : list event) (st : stage) : Prop := match st with SDone (Ok _) => True | _ => owed q log st end.
Lemma owed_moves q log st e db st' :
  grants q = true -> landed (flow.next IDKey v st e db) = Some st' -> owed q log st -> unanswered q log st'.
Proof.
  intros Hg. destruct q; try done; clear Hg; destruct st; cbn [owed flow.next]; try done; intros Hn Ho;
    try (apply value_map in Hn as (x & Hx & ->); try done; try (by destruct x)); try (by injection Hn as <-; destruct a).
  - injection Hn as <-. unfold login_verified. destruct (snd _); [|done]. destruct (snapshot user0 db) as [b|] eqn:Es; [|done].
    case_if as E; [done|]. cbn. destruct Ho as [-> ->]. split; [|done]. revert Es. unfold snapshot. repeat (case_match; try done). by intros [= <-].
  - apply recovery_reserve_hash in Hx as <-. unfold recover_matched. by destruct (recovery_match _ _ _ _ _).
  - apply enrollment_reserve_hash in Hx as <-. unfold enroll_prepared. case_if as E; [done|]. by destruct (prepareRecovery _ _ _).
  - by destruct (policyEnrollment s).
  - destruct (loadSession _ _ _); [|done]. by injection Hn as <-.
  - destruct (bootstrap_snapshot _ _ _); [|done]. injection Hn as <-. destruct (installation _); [done|].
    unfold bootstrap_hashed. by destruct (snd _).
  - destruct (setupApplied _); [|done]. injection Hn as <-. unfold bootstrap_hashed. by destruct (snd _).
Qed.

(** A session is granted by the commit that logs the credentials. *)
Lemma settled_quiet q log a : session_of a = None -> settled q log (Ok a).
Proof. intros Ha tok h. cbn. by rewrite Ha. Qed.
Lemma settled_token q log e a : (forall tok, session_of a = Some tok -> tok = fst (token e 0) /\ paid q log (snd (token e 0))) -> settled q log (Ok a).
Proof. intros Ha tok h Ht Hh. destruct (Ha tok Ht) as [-> Hp]. by rewrite (token_opens _ _ _ Hh). Qed.

Lemma owed_commit q log st e db db' a :
  grants q = true -> stage_ok IDKey v st -> owed q log st -> flow.next IDKey v st e db = Commit db' (SDone (Ok a)) ->
  settled q (log ++ proved v st e db db' (SDone (Ok a))) (Ok a).
Proof.
  intros Hg Hok Ho Hn. destruct q; try done; clear Hg; destruct st; cbn [owed flow.next] in Ho, Hn; try done;
    try (apply map_outcome_commit in Hn as (x & Hx & Ea)); try done.
  - by destruct x.
  - injection Ea as ->. destruct Ho as [<- <-]. apply (settled_token _ _ e). intros tok Ht. cbn in Ht.
    apply fmap_Some in Ht as (g & Hg & ->). split; [by eapply finishPassword_token|]. exists before0. split_and!; [set_solver | done | exact Hok].
  - destruct x as [g|]; [|done]. injection Ea as ->. destruct Ho as [-> ->]. apply CompleteTOTP_code in Hx as (Et & ref & c & by_ & Hb & Hc).
    apply (settled_token _ _ e). intros tok [= <-]. split; [exact Et|]. exists ref, c, by_. split; [exact Hb|]. set_solver.
  - unfold recover_matched in Ea. by destruct (recovery_match _ _ _ _ _).
  - injection Ea as ->. destruct Ho as [Hh ->]. apply (settled_token _ _ e). intros tok [= <-]. split; [by eapply recovery_finish_token|].
    exists (v_ref (a_state attempt)), slot, (rc_hash (record_of attempt slot)), (v_challenge (a_state attempt)).
    split_and!; [exact Hh | cbn [proved]; set_solver | exact Hok].
  - unfold enroll_prepared in Ea. revert Ea. case_if as E; [done|]. by destruct (prepareRecovery _ _ _).
  - destruct (policyEnrollment s); [done|]. injection Ea as ->.
    destruct (enrollment_finish_code _ _ _ _ _ _ _ _ (SDone (Ok (AEnrolled x))) Hx) as (Et & ref & c & Hc).
    apply (settled_token _ _ e). intros tok' [= <-]. split; [exact Et|]. exists ref, c, (ea_hash attempt). split; [exact Ho|]. set_solver.
  - destruct (loadSession _ _ _); [|done]. injection Hn as _ <-. by apply settled_quiet.
  - by destruct (bootstrap_snapshot _ _ _).
  - by destruct (setupApplied _).
  - injection Ea as ->. subst user0. apply (settled_token _ _ e). intros tok' Ht. cbn in Ht. apply fmap_Some in Ht as (g & Hg & ->).
    split; [by eapply finishBootstrap_token|]. cbn. set_solver.
Qed.

Lemma commits_map {A} (f : A -> stage) o st : commits o -> map_outcome f o <> Rollback st.
Proof. by destruct o. Qed.
Lemma owed_rollback q log st e db a :
  grants q = true -> owed q log st -> flow.next IDKey v st e db = Rollback (SDone (Ok a)) -> settled q log (Ok a).
Proof.
  intros Hg Ho Hn. assert (landed (flow.next IDKey v st e db) = Some (SDone (Ok a))) as Hl by (by rewrite Hn).
  destruct q; try done; clear Hg; destruct st; cbn [owed flow.next] in Ho, Hn, Hl; try done; try (by injection Hn as ->);
    try (by eapply commits_map in Hn; [|first [apply finishPassword_commits | apply CompleteTOTP_commits | apply recovery_finish_commits |
                                               apply enrollment_finish_commits | apply finishBootstrap_commits]]);
    try (apply value_map in Hl as (x & Hx & Ea)); try done.
  - by destruct x.
  - injection Hn as Hn. revert Hn. unfold login_verified. destruct (snd _); [|done]. destruct (snapshot user0 db); [|done]. by case_if as E.
  - unfold recover_matched in Ea. by destruct (recovery_match _ _ _ _ _).
  - unfold enroll_prepared in Ea. revert Ea. case_if as E; [done|]. by destruct (prepareRecovery _ _ _).
  - by destruct (loadSession _ _ _).
  - destruct (bootstrap_snapshot _ _ _); [|done]. injection Hn as Hn. destruct (installation _); [done|]. unfold bootstrap_hashed in Hn. by destruct (snd _).
  - destruct (setupApplied _); [|done]. injection Hn as Hn. unfold bootstrap_hashed in Hn. by destruct (snd _).
Qed.

Lemma unanswered_owed q log log' st :
  log ⊆ log' -> unanswered q log st -> (forall a, st = SDone (Ok a) -> settled q log' (Ok a)) -> owed q log' st.
Proof.
  intros Hl Hu Ha. destruct st as [| | | | | | | | | | | | | | | | | | | | | | | | | | | | | |[a|]]; try (by eapply owed_mono).
  specialize (Ha a eq_refl). by destruct q.
Qed.

Lemma owed_advance q log f st e db :
  grants q = true -> stage_ok IDKey v st -> owed q log st ->
  owed q (log ++ observe IDKey v f st e db) (snd (advance IDKey v f st e db)).
Proof.
  intros Hg Hok Ho. assert (forall er log', owed q log' (failed er)) as Hf by (intros; by destruct q).
  assert (owed q (log ++ []) (broken st)) as Hb.
  { destruct st; cbn [broken]; try apply Hf. eapply owed_mono; [|exact Ho]. set_solver. }
  pose proof (owed_moves q log st e db) as Hm. pose proof (owed_commit q log st e db) as Hc. pose proof (owed_rollback q log st e db) as Hr.
  unfold advance, observe. destruct (flow.next IDKey v st e db) as [er|st'|db' st'], f; cbn [snd landed] in *; try done; try apply Hf.
  1, 2: apply (unanswered_owed q log); [set_solver | by apply Hm | intros a ->; rewrite app_nil_r; by apply Hr].
  - apply (unanswered_owed q log); [set_solver | by apply Hm | intros a ->; by apply Hc].
  - eapply owed_mono; [|exact Hb]. set_solver.
Qed.

(** ** Runs *)

Lemma ystep_proc y l id st : y_procs y !! id = Some st ->
  y_procs (ystep y l) !! id = Some st \/
  exists e f, l = LStep id e f /\ y_procs (ystep y l) !! id = Some (snd (advance IDKey v f st e (y_db y))).
Proof.
  intros Hp. destruct l as [id' q' e|id' e f|s o f]; cbn [AccountProps.ystep]; [left|destruct (decide (id' = id)) as [->|Hne]|by left].
  - destruct (y_procs y !! id') eqn:E; [done|]. cbn. rewrite lookup_insert_ne; [done | congruence].
  - right. exists e, f. rewrite Hp. destruct (advance _ _ _ _ _ _). cbn. by rewrite lookup_insert_eq.
  - left. destruct (y_procs y !! id') as [st1|]; [|done]. destruct (advance _ _ _ _ _ _). cbn. by rewrite lookup_insert_ne.
Qed.
Lemma log_grows ls y : y_log y ⊆ y_log (yrun y ls).
Proof.
  unfold AccountProps.yrun. revert y. induction ls as [|l ls IH]; intros y; [done|]. cbn [fold_left]. etrans; [|apply IH].
  destruct l; cbn [AccountProps.ystep]; [by case_match | | done]. case_match; [|done]. destruct (advance _ _ _ _ _ _). cbn. set_solver.
Qed.
(** Whatever else runs, the credentials stay with the request. *)
Lemma run_owed q ls y id st :
  grants q = true -> sys_inv IDKey v y -> y_procs y !! id = Some st -> owed q (y_log y) st ->
  exists st', y_procs (yrun y ls) !! id = Some st' /\ owed q (y_log (yrun y ls)) st'.
Proof.
  intros Hg. revert y st. induction ls as [|l ls IH]; intros y st Hi Hp Ho; [eauto|]. pose proof (ystep_inv IDKey v y l Hi) as Hi'.
  change (yrun y (l :: ls)) with (yrun (ystep y l) ls).
  destruct (ystep_proc y l id st Hp) as [E|(e & f & -> & E)]; (eapply IH; [done | exact E|]).
  - eapply owed_mono; [apply (log_grows [l]) | exact Ho].
  - destruct Hi as [_ Hok]. specialize (Hok id st Hp). cbn [AccountProps.ystep]. rewrite Hp.
    pose proof (owed_advance q (y_log y) f st e (y_db y) Hg Hok Ho) as Ha. by destruct (advance _ _ _ _ _ _).
Qed.

(** A request of one transaction answers what it found at one moment. *)
Lemma run_single ls y id st0 :
  (forall f e db, exists a, snd (advance IDKey v f st0 e db) = SDone a) -> y_procs y !! id = Some st0 ->
  y_procs (yrun y ls) !! id = Some st0 \/
  exists ls1 e f ls2 a, ls = ls1 ++ LStep id e f :: ls2 /\ y_procs (yrun y ls1) !! id = Some st0 /\
    snd (advance IDKey v f st0 e (y_db (yrun y ls1))) = SDone a /\
    y_procs (yrun y ls) !! id = Some (SDone a).
Proof.
  intros Hd Hp. unfold AccountProps.yrun. induction ls as [|l ls IH] using rev_ind; [by left|]. rewrite fold_left_app. cbn [fold_left].
  set (y1 := fold_left ystep ls y) in *. destruct IH as [IH|(ls1 & e & f & ls2 & a & -> & Hp1 & Ha & IH)].
  - destruct (ystep_proc y1 l id st0 IH) as [|(e & f & -> & E)]; [by left|]. right.
    destruct (Hd f e (y_db y1)) as [a Ha]. rewrite Ha in E. by exists ls, e, f, [], a.
  - right. exists ls1, e, f, (ls2 ++ [l]), a. rewrite <- app_assoc, app_comm_cons. split_and!; [done..|].
    destruct (ystep_proc y1 l id _ IH) as [|(e' & f' & -> & E)]; [done|]. by destruct f'.
Qed.

(** ** Calls are runs *)

Lemma yrun_app y ls1 ls2 : yrun y (ls1 ++ ls2) = yrun (yrun y ls1) ls2.
Proof. unfold AccountProps.yrun. apply fold_left_app. Qed.
(** The session tokens that the steps of a history draw. *)
Definition drawn (l : label) : list string := match l with LStep _ e _ => [snd (token e 0)] | _ => [] end.
Definition draws (ls : list label) : list string := flat_map drawn ls.
Definition turn_draws (ts : list turn) : list string := flat_map (fun t => draws (t_others t) ++ [snd (token (t_env t) 0)]) ts.
Lemma draws_app ls1 ls2 : draws (ls1 ++ ls2) = draws ls1 ++ draws ls2.
Proof. apply flat_map_app. Qed.

(** What a call runs is drawn from its turns. *)
Lemma drive_run turns id y w x : drive id y turns = (w, x) ->
  exists ls, w_sys w = yrun y ls /\ sublist (draws ls ++ turn_draws (w_turns w)) (turn_draws turns) /\
    (x = Err unavailable \/ y_procs (w_sys w) !! id = Some (SDone x)).
Proof.
  assert (forall y a, finished y id = Some a -> y_procs y !! id = Some (SDone a)) as Hf.
  { intros y' a. unfold finished. by destruct (y_procs y' !! id) as [[]|]; intros [= <-]. }
  revert y. induction turns as [|t turns IH]; intros y; cbn [drive]; destruct (finished y id) as [a|] eqn:E.
  1, 3: intros [= <- <-]; exists []; auto.
  - intros [= <- <-]. exists []. auto.
  - intros (ls & -> & Hsub & Hx)%IH. exists (t_others t ++ [LStep id (t_env t) (t_fault t)] ++ ls).
    split_and!; [by rewrite !yrun_app | | done]. rewrite !draws_app, <- !app_assoc. cbn [turn_draws flat_map]. rewrite <- !app_assoc.
    apply sublist_app; [done|]. apply sublist_app; [done|]. exact Hsub.
Qed.
Lemma perform_run q w w' x : perform q w = (w', x) -> x <> Err unavailable ->
  exists e id ls, let y := ystep (w_sys w) (LStart id q e) in
    y_procs y !! id = Some (start v e q) /\ w_sys w' = yrun y ls /\ y_procs (w_sys w') !! id = Some (SDone x) /\
    sublist (draws ls ++ turn_draws (w_turns w')) (turn_draws (w_turns w)).
Proof.
  unfold perform. destruct (w_turns w) as [|t turns]; [by intros [= _ <-]|]. intros (ls & Hw & Hsub & Hx)%drive_run Hne.
  destruct Hx as [|Hx]; [done|]. eexists (t_env t), _, ls. split_and!; [| exact Hw | exact Hx | by apply sublist_inserts_l]; cbn [AccountProps.ystep].
  rewrite (not_elem_of_dom_1 (y_procs (w_sys w))) by apply is_fresh. cbn. apply lookup_insert_eq.
Qed.
Lemma perform_single q st0 w w' x :
  (forall e, start v e q = st0) -> (forall a, st0 <> SDone a) -> (forall f e db, exists a, snd (advance IDKey v f st0 e db) = SDone a) ->
  perform q w = (w', x) -> x <> Err unavailable ->
  exists ls1 id e f ls2, w_sys w' = yrun (w_sys w) (ls1 ++ LStep id e f :: ls2) /\
    sublist (draws (ls1 ++ LStep id e f :: ls2) ++ turn_draws (w_turns w')) (turn_draws (w_turns w)) /\
    y_procs (yrun (w_sys w) ls1) !! id = Some st0 /\ snd (advance IDKey v f st0 e (y_db (yrun (w_sys w) ls1))) = SDone x.
Proof.
  intros Hst Hns Hd Hp Hx. destruct (perform_run _ _ _ _ Hp Hx) as (e0 & id & ls & Hs & Hw & Hdone & Hsub). rewrite Hst in Hs.
  destruct (run_single ls _ id st0 Hd Hs) as [E|(ls1 & e & f & ls2 & a & -> & Hp1 & Ha & E)]; rewrite <- Hw, Hdone in E.
  - injection E as <-. by destruct (Hns x).
  - injection E as <-. by exists (LStart id q e0 :: ls1), id, e, f, ls2.
Qed.
Lemma single_session tok r op f e db : exists a, snd (advance IDKey v f (SSession tok r op) e db) = SDone a.
Proof. unfold advance. cbn [flow.next]. destruct f, (run (v_sessions v) tok r op e db); cbn; eauto. Qed.
Lemma single_logout tok r f e db : exists a, snd (advance IDKey v f (SLogout tok r) e db) = SDone a.
Proof. unfold advance. cbn [flow.next]. destruct f, (LogoutReplay (v_sessions v) tok r e db); cbn; eauto. Qed.

Lemma perform_any q w w' x : perform q w = (w', x) -> exists ls, w_sys w' = yrun (w_sys w) ls.
Proof.
  unfold perform. destruct (w_turns w) as [|t turns]; [intros [= <- _]; by exists []|]. intros (ls & Hw & _)%drive_run.
  exists (LStart (fresh (dom (y_procs (w_sys w)))) q (t_env t) :: ls). exact Hw.
Qed.
Lemma perform_pays q w w' a tok h :
  grants q = true -> sys_inv IDKey v (w_sys w) -> perform q w = (w', Ok a) -> session_of a = Some tok -> tokenHash tok = Some h ->
  paid q (y_log (w_sys w')) h.
Proof.
  intros Hg Hi Hp Ht Hh. destruct (perform_run _ _ _ _ Hp) as (e & id & ls & Hst & Hw & Hd & _); [done|].
  destruct (run_owed q ls _ _ _ Hg (ystep_inv IDKey v _ _ Hi) Hst (owed_start e q _ Hg)) as (st & Hst' & Ho).
  rewrite <- Hw, Hd in Hst'. injection Hst' as <-. rewrite <- Hw in Ho. assert (settled q (y_log (w_sys w')) (Ok a)) as Hs by (by destruct q).
  by eapply Hs.
Qed.
Lemma perform_reads tok w w' x : perform (Session tok None Read) w = (w', Ok (AView x)) ->
  exists ls1 ls2 hash t st, w_sys w' = yrun (w_sys w) (ls1 ++ ls2) /\ tokenHash tok = Some hash /\
    loadSession hash t (y_db (yrun (w_sys w) ls1)) = Ok st /\ x = view st.
Proof.
  intros Hp. destruct (perform_single (Session tok None Read) (SSession tok None Read) _ _ _ ltac:(done) ltac:(done) (single_session _ _ _) Hp)
    as (ls1 & id & e & f & ls2 & Hw & _ & _ & Ha); [done|]. revert Ha. unfold advance. cbn [flow.next broken]. unfold run.
  destruct (tokenHash tok) as [hash|] eqn:Et; [|by destruct f]. destruct (loadSession _ _ _) as [st|] eqn:El; [|by destruct f].
  destruct f; try done. intros [= <-]. exists ls1, (LStep id e NoFault :: ls2), hash, (ck e 0), st. done.
Qed.

Lemma expect_ok {A} (f : answer -> option A) p w (x : A) : expect f p = (w, Ok x) -> exists a, p = (w, Ok a) /\ f a = Some x.
Proof. destruct p as [w1 [a|er]]; unfold expect; cbn; [|by intros [=]]. destruct (f a) eqn:E; intros [=]; subst; eauto. Qed.
Lemma expect_any {A} (f : answer -> option A) q w w' (x : result error A) : expect f (perform q w) = (w', x) -> exists ls, w_sys w' = yrun (w_sys w) ls.
Proof. intros [= <- _]. destruct (perform q w) as [w1 y] eqn:E. by eapply perform_any. Qed.

Lemma opaque_hash tok : authhttp.opaque tok = true -> tokenHash tok = Some (sha256 tok).
Proof.
  unfold authhttp.opaque, tokenHash. intros [-> Hd]%andb_true_iff. cbn. destruct (base64.StrictDecodeString tok); [|done]. by rewrite Hd.
Qed.

(** A grant that leaves the switch is the answer of its request. *)
Lemma expect_grant {A} (f : answer -> option A) (F : result error A -> result Reply (Grant * list string)) p w' g codes :
  (forall er x, F (Err er) <> Ok x) ->
  (forall a x, f a = Some x -> F (Ok x) = Ok (g, codes) -> session_of a = Some (g_session g)) ->
  (let '(w1, x) := expect f p in (w1, F x)) = (w', Ok (g, codes)) -> exists a, p = (w', Ok a) /\ session_of a = Some (g_session g).
Proof.
  intros He Ha. destruct (expect f p) as [w1 [x|er]] eqn:Ee; intros [= -> Hx]; [|by destruct (He er (g, codes))].
  apply expect_ok in Ee as (a & -> & Hf). eauto.
Qed.
Lemma dispatch_grant h path challenge peer fields w w' g codes :
  authhttp.dispatch h path challenge peer fields w = (w', Ok (g, codes)) -> authhttp.opaque (g_session g) = true ->
  grants (asked h path challenge peer fields) = true /\
  exists a, perform (asked h path challenge peer fields) w = (w', Ok a) /\ session_of a = Some (g_session g).
Proof.
  unfold authhttp.dispatch, asked. intros Hd Hop. revert Hd.
  assert (forall a x, as_login a = Some x -> authhttp.logged_in (Ok x) = Ok (g, codes) -> session_of a = Some (g_session g)) as Hl.
  { intros a x Ha. destruct a; try done. injection Ha as ->. cbn [authhttp.logged_in]. case_if as E2; [done|]. intros [= <- _]. cbn in *.
    by destruct (r_grant x). }
  case_bool_decide as E1; [|case_if as E2; [|case_if as E3; [|case_if as E4]]];
    cbn [authhttp.Verify_ authhttp.Recover_ authhttp.BeginEnrollment_ authhttp.CompleteEnrollment_ PostgresBackend].
  - destruct (authhttp.bootstrapOnly h); cbn [authhttp.Bootstrap_ authhttp.Login_ PostgresBackend]; (split; [done|]);
      by eapply (expect_grant as_login authhttp.logged_in).
  - split; [done|]. revert Hd. eapply (expect_grant as_grant authhttp.granted); [done|]. intros [] x [= ->]. by intros [= -> _].
  - split; [done|]. revert Hd. eapply (expect_grant as_grant authhttp.granted); [done|]. intros [] x [= ->]. by intros [= -> _].
  - done.
  - split; [done|]. revert Hd. eapply (expect_grant as_enrolled authhttp.completed); [done|]. intros [] x [= ->]. cbn. case_if as E; [|done].
    by intros [= <- _].
Qed.
Lemma dispatch_run h path challenge peer fields w w' x :
  authhttp.dispatch h path challenge peer fields w = (w', x) -> exists ls, w_sys w' = yrun (w_sys w) ls.
Proof.
  unfold authhttp.dispatch. cbn [authhttp.Bootstrap_ authhttp.Login_ authhttp.Verify_ authhttp.Recover_ authhttp.BeginEnrollment_
    authhttp.CompleteEnrollment_ PostgresBackend].
  repeat case_match; intros [= <- _]; by eapply expect_any.
Qed.

End history.
