(* ===== verification/AuthLogout.v ===== *)
(** * Logout is final

    What a logout over HTTP promises: once the handler of
    [src/internal/adminauth/sessionhttp] acknowledges it, also by a replay,
    the session is never accepted again. *)

From S2P Require Import Prelude GoStd Keyring Control ConfigTrust AdminAuth Vault Password Publication CommandProps Coordinator DataNode Origin Accounts Security AccountFlow AccountProps AccountSessions Json AuthHTTP AuthHistory.
From stdpp Require Import base list gmap strings sorting pretty fin_sets.
From Stdlib Require Import ZArith Lia Ascii String.
Import pgstore accounts security flow http.
Local Open Scope Z_scope.

Section logout.
Context `{Sha256} `{HmacSha256} `{adminauth.HmacSha1} `{AEAD}.
Context `{Codec control.Config} `{Codec control.Delivery} `{Codec configtrust.Snapshot} `{Codec configtrust.envelope} `{Ed25519}.
Context `{Wire} `{AccountWire} `{Mime}.
Context (IDKey : string -> string -> Z -> string) (v : services).
Local Abbreviation yrun := (AccountProps.yrun IDKey v).
Local Abbreviation ystep := (AccountProps.ystep IDKey v).

(** ** How sessions come and go *)

Local Abbreviation live db := (dom (D := gset string) (db_sessions db)).
Local Abbreviation ended db := (dom (D := gset string) (logouts db)).

(** Whether the setup of the installation was applied. *)
Definition applied (db : DB) : bool := t_applied (db_auth db).
(** A transaction opens at most the session [tok], and records as ended only
    sessions that it removes; it leaves the setup as it is. *)
Definition moved (tok : string) (db db' : DB) : Prop :=
  live db' ⊆ live db ∪ {[tok]} /\ ended db' ⊆ ended db ∪ (live db ∖ live db') /\ applied db' = applied db.
(** It leaves both tables as they are. *)
Definition still (db db' : DB) : Prop := live db' = live db /\ ended db' = ended db /\ applied db' = applied db.

Lemma still_moved tok db db' : still db db' -> moved tok db db'.
Proof. intros (E1 & E2 & E3). unfold moved. rewrite E1, E2, E3. set_solver. Qed.
Lemma moved_pre tok db db1 db2 : still db db1 -> moved tok db1 db2 -> moved tok db db2.
Proof. intros (E1 & E2 & E3). unfold moved. by rewrite E1, E2, E3. Qed.
Lemma moved_post tok db db1 db2 : moved tok db db1 -> still db1 db2 -> moved tok db db2.
Proof. intros Hm (E1 & E2 & E3). unfold moved. by rewrite E1, E2, E3. Qed.
Lemma quiet_still db db' : quiet db db' -> still db db'.
Proof.
  intros [[= _ _ _ E] Es _]. split; [|unfold logouts, applied; by rewrite E].
  apply (f_equal (dom (D := gset string))) in Es. by rewrite !dom_fmap_L in Es.
Qed.
Lemma audit_still s u a r i db db' : auditAuth s u a r i db = Ok db' -> still db db'.
Proof. by intros [-> | [row ->]]%auditAuth_ok. Qed.
Lemma still_refl db : still db db.
Proof. done. Qed.

Lemma insert_moved sh ch user pv uv mfa t db db' : insert_session sh ch user pv uv mfa t db = Ok db' -> moved sh db db'.
Proof.
  unfold insert_session. destruct (db_sessions db !! sh); [done|]. intros [= <-]. unfold moved. cbn. rewrite dom_insert_L. set_solver.
Qed.
Lemma dom_keep {V} (f : string -> V -> bool) (m : gmap string V) : dom (keep f m) ⊆ dom m.
Proof. apply dom_filter_subseteq. Qed.
Lemma delete_moved tok f db : moved tok db (delete_sessions f db).
Proof.
  split; [|split; [cbn; set_solver | done]]. change (live (delete_sessions f db)) with (dom (keep (fun h r => negb (f h r)) (db_sessions db))).
  pose proof (dom_keep (fun h r => negb (f h r)) (db_sessions db)). set_solver.
Qed.
(** Sessions are deleted before one is opened. *)
Lemma delete_insert_moved tok db db1 db2 :
  live db1 ⊆ live db -> ended db1 = ended db -> applied db1 = applied db -> moved tok db1 db2 -> ended db2 = ended db1 -> moved tok db db2.
Proof. intros Hl He Ha (Hm & _ & Ha') E2. split; [set_solver|]. split; [rewrite E2, He; set_solver | congruence]. Qed.
Lemma insert_ended sh ch user pv uv mfa t db db' : insert_session sh ch user pv uv mfa t db = Ok db' -> ended db' = ended db.
Proof. unfold insert_session. destruct (db_sessions db !! sh); [done|]. by intros [= <-]. Qed.

Lemma issue_moved user pv uv t e db db' g : issuePasswordSession user pv uv t e db = Ok (db', g) -> moved (snd (token e 0)) db db' /\ ended db' = ended db.
Proof.
  unfold issuePasswordSession, issueSession. destruct (token e 0) as [raw hash], (token e 1). destruct (insert_session _ _ _ _ _ _ _ _) eqn:E; [|done].
  intros [= <- _]. split; [by eapply insert_moved | by eapply insert_ended].
Qed.
Lemma issueEnrollment_still user pv uv t e db db' x : issueEnrollment user pv uv t e db = Ok (db', x) -> still db db'.
Proof. unfold issueEnrollment, insert_enrollment. destruct (token e 0). repeat (case_match; try done). simplify_eq. by intros [= <- _]. Qed.

Lemma finishPassword_moved l before e db db' r : finishPassword l before e db = Commit db' r -> moved (snd (token e 0)) db db'.
Proof.
  unfold finishPassword. case_if as E1; [done|]. destruct (db_accounts db !! _) as [a|]; [|done]. destruct (passwords db !! _) as [c|]; [|done].
  case_if as E2; [done|]. destruct (adminauth.TOTPEnabled _).
  - destruct (db_totp db !! _) as [cred|].
    + destruct (token e 0) as [raw hash]. unfold insert_challenge. case_row hash; [done|]. destruct (auditAuth _ _ _ _ _ _) eqn:Ea; [|done]. intros [= <- _].
      apply still_moved. by apply audit_still in Ea.
    + destruct (issueEnrollment _ _ _ _ _ _) as [[db1 x]|] eqn:Ei; [|done]. cbn [fst snd]. destruct (auditAuth _ _ _ _ _ _) eqn:Ea; [|done].
      intros [= <- _]. eapply moved_pre; [by eapply issueEnrollment_still|]. apply still_moved. by eapply audit_still.
  - destruct (issuePasswordSession _ _ _ _ _ _) as [[db1 x]|] eqn:Ei; [|done]. cbn [fst snd]. destruct (auditAuth _ _ _ _ _ _) eqn:Ea; [|done].
    intros [= <- _]. eapply moved_post; [by eapply issue_moved | by eapply audit_still].
Qed.
Lemma finishBootstrap_moved l hash user pw before e db db' r : finishBootstrap l hash user pw before e db = Commit db' r -> moved (snd (token e 0)) db db'.
Proof.
  unfold finishBootstrap. do 5 (case_if as E; [done|]; clear E). set (db1 := set_passwords _ _). assert (still db db1) as Hs by done. clearbody db1.
  intros Hc. apply (moved_pre _ _ _ _ Hs). revert Hc. destruct (adminauth.TOTPEnabled _).
  - destruct (issueEnrollment _ _ _ _ _ _) as [[db2 x]|] eqn:Ei; [|done]. cbn [fst snd]. destruct (auditAuth _ _ _ _ _ _) eqn:Ea; [|done].
    intros [= <- _]. apply issueEnrollment_still in Ei. apply still_moved. apply audit_still in Ea. destruct Ei as (?&?&?), Ea as (?&?&?). split_and!; etrans; eauto.
  - destruct (issuePasswordSession _ _ _ _ _ _) as [[db2 x]|] eqn:Ei; [|done]. cbn [fst snd]. destruct (auditAuth _ _ _ _ _ _) eqn:Ea; [|done].
    intros [= <- _]. eapply moved_post; [by eapply issue_moved | by eapply audit_still in Ea].
Qed.
Lemma CompleteTOTP_moved s challenge code e db db' r : CompleteTOTP s challenge code e db = Commit db' r -> moved (snd (token e 0)) db db'.
Proof.
  unfold CompleteTOTP. destruct (token e 0) as [raw sh], (token e 1) as [raw1 ch1]. repeat (case_match; try done).
  { intros [= <- _]. match goal with E : verify_and_consume _ _ _ _ _ _ = _ |- _ => apply verify_and_consume_ok in E as (n & _ & E); revert E end.
    unfold login_ConsumeCounter. case_if as E1; [done|]. destruct (advance_counter _ _ _); [|done]. destruct (consume_challenge _ _ _ _ _ _); [|done].
    destruct (insert_session _ _ _ _ _ _ _ _) eqn:Ei; [|done]. destruct (auditAuth _ _ _ _ _ _) eqn:Ea; [|done]. intros [= <-].
    eapply moved_post; [|by eapply audit_still]. by apply insert_moved in Ei. }
  all: intros [= <- _]; apply still_moved; match goal with E : auditAuth _ _ _ _ _ _ = _ |- _ => by apply audit_still in E end.
Qed.
Lemma recovery_finish_moved s attempt slot e db db' g : recovery_finish s attempt slot e db = Commit db' g -> moved (snd (token e 0)) db db'.
Proof.
  unfold recovery_finish. destruct (token e 0) as [raw sh], (token e 1) as [raw1 ch1]. repeat (case_match; try done). intros [= <- _].
  match goal with E : commitRecovery _ _ _ _ _ _ _ = _ |- _ => revert E end. unfold commitRecovery. repeat (case_match; try done).
  intros Ea. eapply moved_post; [|by eapply audit_still]. match goal with E : insert_session _ _ _ _ _ _ _ _ = _ |- _ => by apply insert_moved in E end.
Qed.
Lemma enrollment_finish_moved s attempt code b e db db' g : enrollment_finish s attempt code b e db = Commit db' g -> moved (snd (token e 0)) db db'.
Proof.
  unfold enrollment_finish. destruct (token e 0) as [raw sh], (token e 1) as [raw1 ch1]. repeat (case_match; try done). intros [= <- _].
  match goal with E : verify_and_consume _ _ _ _ _ _ = _ |- _ => apply verify_and_consume_ok in E as (n & _ & E); revert E end.
  unfold enrollment_ConsumeCounter. repeat (case_match; try done). intros [= <-].
  eapply moved_post; [|by eapply audit_still]. match goal with E : insert_session _ _ _ _ _ _ _ ?db4 = _ |- _ => apply (delete_insert_moved _ _ db4);
    [apply dom_keep | done | done | by apply insert_moved in E | by apply insert_ended in E] end.
Qed.

Lemma drop_dropped h db : h ∉ live (drop_session h db).
Proof.
  rewrite not_elem_of_dom. cbn. apply eq_None_not_Some. intros [r [_ Hf]%lookup_keep]. by rewrite String.eqb_refl in Hf.
Qed.
Lemma touch_still h t db db' : touch_session h t db = Some db' -> still db db'.
Proof.
  unfold touch_session. destruct (db_sessions db !! h) eqn:E; [|done]. case_if as E1; [|done]. intros [= <-]. split; [|done].
  cbn. rewrite dom_insert_L. apply elem_of_dom_2 in E. set_solver.
Qed.
Lemma run_moved s tok r op e db db' w tk : run s tok r op e db = Commit db' w -> moved tk db db'.
Proof.
  unfold run. repeat (case_match; try done); intros [= <- _]; subst.
  - by apply still_moved.
  - apply still_moved. by eapply touch_still.
  - eapply moved_post; [apply delete_moved | by eapply audit_still].
Qed.
Lemma expire_sub t m : dom (expire_logouts t m) ⊆ dom m.
Proof. unfold expire_logouts. induction (take 128 _) as [|k ks IH]; [done|]. cbn. rewrite dom_delete. set_solver. Qed.
Lemma loadSession_live h t db st : loadSession h t db = Ok st -> h ∈ live db.
Proof. intros (row & _ & Hr & _)%loadSession_row. by apply elem_of_dom_2 in Hr. Qed.

(** A committed logout removes a session and records it. *)
Lemma LogoutReplay_moved s tok r e db db' b tk :
  LogoutReplay s tok r e db = Commit db' b -> moved tk db db' /\ exists h, tokenHash tok = Some h /\ h ∈ live db /\ h ∉ live db'.
Proof.
  unfold LogoutReplay. destruct r as [r|]; [|done]. case_if as E1; [done|]. case_if as E2.
  { unfold Logout. destruct (run _ _ _ _ _ _) as [| |db1 w] eqn:Er; try done. intros [= <- _]. split; [by eapply run_moved|].
    revert Er. unfold run. destruct (tokenHash tok) as [h|]; [|done]. case_if as E3; [done|].
    destruct (loadSession _ _ _) as [st|] eqn:El; [|done]. destruct (adminauth.CheckMutation _ _ _); [|done].
    destruct (auditAuth _ _ _ _ _ _) eqn:Ea; [|done]. intros [= <- _]. exists h. split_and!; [done | by eapply loadSession_live|].
    apply audit_still in Ea as (-> & _). apply drop_dropped. }
  case_if as E3; [done|]. destruct (tokenHash tok) as [h|]; [|done]. destruct (logout_replay _ _ _ _ _ _ _) as [[]|]; try done.
  destruct (loadSession _ _ _) as [st|[[]| |]] eqn:El; try done; [|by destruct (logout_replay _ _ _ _ _ _ _) as [[]|]].
  destruct (adminauth.CheckMutation _ _ _); [|done]. case_if as E4; [done|]. case_row h; [done|].
  destruct (auditAuth _ _ _ _ _ _) as [db1|] eqn:Ea; [|done]. intros [= <- _]. apply audit_still in Ea as (Ea1 & Ea2 & Ea3).
  apply loadSession_live in El. pose proof (drop_dropped h db) as Hd. pose proof (expire_sub (ck e 5) (logouts db)) as Hx.
  pose proof (dom_keep (fun h0 _ => negb (h0 =? h)%string) (db_sessions db)) as Hk.
  set (db2 := set_logouts _ _) in Ea1, Ea2. assert (live (drop_session h db2) = live (drop_session h db)) as E5 by done.
  split; [|exists h; rewrite Ea1, E5; by split_and!]. split; [|split; [|by rewrite Ea3]]; rewrite ?Ea1, ?Ea2, E5.
  - etrans; [exact Hk|]. set_solver.
  - cbn [drop_session]. change (ended (drop_session h db2)) with (dom (D := gset string) (<[h := mkLogoutRow (csrf st) (sha256 (adminauth.Get r "Idempotency-Key")) (ck e 6) (ck e 7 + 24 * Hour)]> (expire_logouts (ck e 5) (logouts db)))).
    rewrite dom_insert_L. set_solver.
Qed.

Lemma reserve_still l user source e todo db db' b : reserve_loop l user source e todo db = Ok (db', b) -> still db db'.
Proof.
  revert db. induction todo as [|i todo IH]; intros db; cbn [reserve_loop]; [by intros [= <- _]|].
  destruct (take_bucket _ _ _ _ _) as [bs|r0]; [intros Hr; by apply IH in Hr|]. case_if as E1; [|by intros [= <- _]].
  destruct (auditAuth _ _ _ _ _ _) as [db2|] eqn:Ea; [|done]. intros [= <- _]. by apply audit_still in Ea.
Qed.
Lemma update_still hash f t db db' : update_enrollment hash f t db = Some db' -> still db db'.
Proof. unfold update_enrollment. repeat (case_match; try done). by intros [= <-]. Qed.

(** ** Commands *)

Lemma command_moved s tok r raw action target etag body ck tk tk' db db' a :
  (forall db2 st cur db3 res, body db2 st cur = Ok (db3, res) -> moved tk' db2 db3) ->
  command s tok r raw action target etag body ck tk db = Commit db' a -> moved tk' db db'.
Proof.
  intros Hb [[-> _]|(h & st0 & db2 & cur & db3 & res & _ & _ & Hq & _ & Hbd & _ & Hq3)]%command_run; [by apply still_moved|].
  eapply moved_post; [eapply moved_pre; [by apply quiet_still | by eapply Hb] | by apply quiet_still].
Qed.
Lemma create_body_moved e input hash db st cur db' res tk : create_body e input hash db st cur = Ok (db', res) -> moved tk db db'.
Proof. unfold create_body. repeat (case_match; try done); intros [= <- _]; by apply still_moved. Qed.
Lemma change_body_moved e r id c db st cur db' res tk : change_body e r id c db st cur = Ok (db', res) -> moved tk db db'.
Proof.
  unfold change_body. destruct (db_accounts db !! id) as [a|]; [|intros [= <- _]; by apply still_moved].
  do 3 (case_if as E; [intros [= <- _]; by apply still_moved|]; clear E). case_if as E; [done|]. intros [= <- _].
  eapply moved_post; [apply (delete_moved _ (fun _ s => String.eqb (se_user s) id))|]. by destruct c.
Qed.
Lemma set_mfa_still h db : still db (set_mfa h db).
Proof.
  unfold set_mfa. destruct (db_sessions db !! h) eqn:E; [|done]. split; [|done]. cbn. rewrite dom_insert_L. apply elem_of_dom_2 in E. set_solver.
Qed.
Lemma policy_body_moved e r enabled db st cur db' res : policy_body e r enabled db st cur = Ok (db', res) -> moved (snd (token e 0)) db db'.
Proof.
  unfold policy_body. do 4 (case_if as E; [intros [= <- _]; by apply still_moved|]; clear E). case_if as E5; [done|].
  set (db2 := delete_enrollments _ _). destruct (issuePasswordSession _ _ _ _ _ _) as [[db3 g]|] eqn:Ei; [|done]. cbn [fst]. intros [= <- _].
  eapply moved_post; [|apply set_mfa_still]. apply issue_moved in Ei as [Hm He]. apply (delete_insert_moved _ _ db2); [|done..].
  apply dom_keep.
Qed.
Lemma enroll_body_moved s e tok r aad db st cur db' res tk : enroll_body s e tok r aad db st cur = Ok (db', res) -> moved tk db db'.
Proof. unfold enroll_body, insert_enrollment. repeat (case_match; try done); intros [= <- _]; simplify_eq; by apply still_moved. Qed.
Lemma reauth_finish_moved s tok r input before e db db' a tk : reauth_finish s tok r input before e db = Commit db' a -> moved tk db db'.
Proof.
  unfold reauth_finish. destruct (loadSession _ _ _) as [st|]; [|done]. destruct (of_auth _); [|done]. case_if as E1; [done|].
  destruct (passwords db !! _) as [c|]; [|done]. case_if as E2; [done|]. destruct (reauth_factor _ _ _ _) as [db1|] eqn:Ef; [|done].
  assert (still db db1) as Hs.
  { revert Ef. unfold reauth_factor. case_if as E3; [by intros [= <-]|]. destruct (db_totp db !! _) as [cred|]; [|done].
    destruct (vault.open _ _ _ _) as [secret|]; [|done]. destruct (verify_and_consume _ _ _ _ _ _) as [db2 [u|er]] eqn:Ev; [|done]. intros [= <-].
    apply verify_and_consume_ok in Ev as (n & _ & Ev). revert Ev. unfold reauth_ConsumeCounter. case_if as E4; [done|].
    destruct (advance_counter _ _ _); [|done]. by intros [= <-]. }
  destruct (token e 0) as [proof ph]. repeat (case_match; try done). intros [= <- _]. apply still_moved. exact Hs.
Qed.

(** ** Every transaction *)

Lemma next_moved st e db db' st' : flow.next IDKey v st e db = Commit db' st' -> moved (snd (token e 0)) db db'.
Proof.
  destruct st; cbn [flow.next]; unfold create_command; try (apply map_commit; intros a Ha _); try done.
  - revert Ha. unfold ReserveAuthHTTP. destruct (sourceValue peer); [|done]. destruct (http_loop _ _ _ _ _) as [b []]; intros [= <- _]; by apply still_moved.
  - revert Ha. unfold reserveAttempt. destruct (reserve_loop _ _ _ _ _ _) as [[db1 []]|] eqn:Er; try done; intros [= <- _]; by apply still_moved, (reserve_still _ _ _ _ _ _ _ _ Er).
  - revert Ha. unfold auditRejectedPassword. case_if as E; [done|]. destruct (auditAuth _ _ _ _ _ _) eqn:Ea; [|done]. intros [= <- _].
    by apply still_moved, (audit_still _ _ _ _ _ _ _ Ea).
  - by eapply finishPassword_moved.
  - by eapply CompleteTOTP_moved.
  - revert Ha. unfold recovery_reserve. repeat (case_match; try done). intros [= <- _]. by apply still_moved.
  - by eapply recovery_finish_moved.
  - revert Ha. unfold Begin. repeat (case_match; try done); intros [= <- _]; apply still_moved; [by eapply update_still | done].
  - revert Ha. unfold enrollment_reserve. repeat (case_match; try done); intros [= <- _]; apply still_moved; by eapply update_still.
  - by eapply enrollment_finish_moved.
  - revert Ha. unfold IssueBootstrapToken. do 2 (case_if as E; [done|]; clear E). destruct (token e 0). intros [= <- _]. by apply still_moved.
  - by destruct (bootstrap_snapshot _ _ _).
  - by destruct (setupApplied db).
  - by eapply finishBootstrap_moved.
  - by eapply run_moved.
  - by eapply LogoutReplay_moved.
  - by destruct (create_check _ _ _ _ _ _ _) as [[]|].
  - eapply command_moved; [|exact Ha]. done.
  - eapply command_moved; [|exact Ha]. intros *. apply create_body_moved.
  - revert Ha. unfold ChangeUser. case_if as E; [done|]. destruct (change_of _ _ _) as [c|]; [|done]. apply command_moved. intros *. apply change_body_moved.
  - revert Ha. unfold Policy. destruct (beginCommand _ _ _ _ _ _ _); [|done]. intros [= <- _]. by apply still_moved.
  - revert Ha. unfold ChangePolicy. case_if as E1; [done|]. destruct (decode_enabled raw) as [[enabled|]|]; try done.
    destruct (command _ _ _ _ _ _ _ _ _ _ _) as [| |db1 x] eqn:Ec; try done. intros [= <- _]. eapply command_moved; [|exact Ec]. intros *. apply policy_body_moved.
  - revert Ha. unfold BeginPolicyEnrollment. case_if as E1; [done|].
    destruct (command _ _ _ _ _ _ _ _ _ _ _) as [| |db1 x] eqn:Ec; try done. intros Hx. assert (db1 = db') as -> by (by injection Hx).
    eapply command_moved; [|exact Ec]. intros *. apply enroll_body_moved.
  - destruct (enrollment_bound _ _ _ _ _ _); [|done]. by destruct (NewEnrollmentService _ _ _ _).
  - destruct (loadSession _ _ _); [|done]. intros [= <- _]. by apply still_moved.
  - by destruct (reauth_check _ _ _ _ _ _).
  - revert Ha. unfold reserveAttempt. destruct (reserve_loop _ _ _ _ _ _) as [[db1 []]|] eqn:Er; try done; intros [= <- _]; by apply still_moved, (reserve_still _ _ _ _ _ _ _ _ Er).
  - by eapply reauth_finish_moved.
Qed.

(** ** Histories *)

(** The sessions and the ended ones were drawn, and no session is both. *)
Definition parted (used : list string) (db : DB) : Prop :=
  (forall h, h ∈ live db ∪ ended db -> h ∈ used) /\ live db ## ended db.

Lemma moved_parted used tok db db' : parted used db -> tok ∉ used -> moved tok db db' -> parted (used ++ [tok]) db'.
Proof.
  intros [Hu Hd] Ht (Hl & He & _). split.
  - intros h Hh. apply elem_of_app. assert (h ∈ live db ∪ ended db \/ h = tok) as [Hx| ->] by set_solver; [left; auto | right; by left].
  - intros h Hh Hh'. assert (h ∈ ended db) as Hen by set_solver. destruct (decide (h = tok)) as [->|Hne]; [apply Ht, Hu; set_solver | set_solver].
Qed.
Lemma advance_moved f st e db : moved (snd (token e 0)) db (fst (advance IDKey v f st e db)).
Proof.
  unfold advance. pose proof (next_moved st e db) as Hn. destruct f, (flow.next IDKey v st e db); cbn; try (by apply still_moved); by eapply Hn.
Qed.
Lemma ystep_moved y l : exists tok, tok ∈ drawn l /\ moved tok (y_db y) (y_db (ystep y l)) \/ still (y_db y) (y_db (ystep y l)).
Proof.
  destruct l; cbn [AccountProps.ystep].
  - exists "". right. by case_match.
  - exists (snd (token e 0)). case_match; [|by right]. left. split; [by left|].
    match goal with |- moved _ _ (y_db (let '(_, _) := advance _ _ _ ?st _ _ in _)) => pose proof (advance_moved f st e (y_db y)) as Hm end.
    by destruct (advance _ _ _ _ _ _).
  - exists "". right. apply quiet_still, pexec_quiet.
Qed.

Lemma run_parted ls y used : parted used (y_db y) -> NoDup (used ++ draws ls) -> parted (used ++ draws ls) (y_db (yrun y ls)).
Proof.
  revert y used. induction ls as [|l ls IH]; intros y used Hp Hn; [cbn; by rewrite app_nil_r|].
  cbn [draws flat_map] in *. fold (draws ls) in *. rewrite app_assoc in *. change (yrun y (l :: ls)) with (yrun (ystep y l) ls).
  apply IH; [|done]. destruct (ystep_moved y l) as (tok & [[Ht Hm]|(E1 & E2 & _)]).
  - destruct l; cbn in Ht; try (by apply elem_of_nil in Ht). apply list_elem_of_singleton in Ht as ->. cbn [drawn]. apply (moved_parted _ _ (y_db y)); [done| |done].
    apply NoDup_app in Hn as [Hn _]. apply NoDup_app in Hn as (_ & Hn & _). intros Hx. by apply (Hn _ Hx); left.
  - destruct Hp as [Hu Hd]. unfold parted. rewrite E1, E2. split; [|done]. intros h Hh. apply elem_of_app. left. auto.
Qed.

(** A session that is gone stays away while tokens are fresh. *)
Lemma run_gone ls y h : h ∉ live (y_db y) -> h ∉ draws ls -> h ∉ live (y_db (yrun y ls)).
Proof.
  revert y. induction ls as [|l ls IH]; intros y Hy Hn; [done|]. change (yrun y (l :: ls)) with (yrun (ystep y l) ls).
  cbn [draws flat_map] in Hn. fold (draws ls) in Hn. rewrite elem_of_app in Hn. apply IH; [|tauto].
  destruct (ystep_moved y l) as (tok & [[Ht (Hm & _)]|(E1 & _)]); [|by rewrite E1].
  intros Hx. apply Hm in Hx. apply elem_of_union in Hx as [|Hx]; [done|]. apply elem_of_singleton in Hx as ->. tauto.
Qed.

(** An acknowledged logout: the session was ended, now or before. *)
Lemma logout_replay_ended s r hash key t t' db : logout_replay s r hash key t t' db = Ok true -> hash ∈ ended db.
Proof.
  unfold logout_replay. destruct (logouts db !! hash) eqn:E; [|done]. intros _. by apply elem_of_dom_2 in E.
Qed.
Lemma LogoutReplay_replays s tok r e db b :
  LogoutReplay s tok r e db = Rollback b -> exists h, tokenHash tok = Some h /\ h ∈ ended db.
Proof.
  unfold LogoutReplay. destruct r as [r|]; [|done]. case_if as E1; [done|]. case_if as E2.
  { unfold Logout, run. repeat (case_match; try done). }
  case_if as E3; [done|]. destruct (tokenHash tok) as [h|]; [|done].
  destruct (logout_replay _ _ _ _ _ _ _) as [[]|] eqn:Er; try done; [intros _; exists h; split; [done | by eapply logout_replay_ended]|].
  destruct (loadSession _ _ _) as [st|[[]| |]] eqn:El; try done.
  - destruct (adminauth.CheckMutation _ _ _); [|done]. case_if as E4; [done|]. case_row h; [done|]. by destruct (auditAuth _ _ _ _ _ _).
  - destruct (logout_replay s r h _ (ck e 3) (ck e 4) db) as [[]|] eqn:Er2; try done. intros _. exists h. split; [done | by eapply logout_replay_ended].
Qed.
Lemma perform_logout tok r w w' b : perform IDKey v (Logout_ tok (Some r)) w = (w', Ok (AAck b)) ->
  exists h ls1 ls2, w_sys w' = yrun (w_sys w) (ls1 ++ ls2) /\ sublist (draws (ls1 ++ ls2)) (turn_draws (w_turns w)) /\ tokenHash tok = Some h /\
    let db1 := y_db (yrun (w_sys w) ls1) in
    h ∈ ended db1 \/ exists l ls3, ls2 = l :: ls3 /\ h ∈ live db1 /\ h ∉ live (y_db (ystep (yrun (w_sys w) ls1) l)).
Proof.
  intros Hp. destruct (perform_single IDKey v (Logout_ tok (Some r)) (SLogout tok (Some r)) _ _ _ ltac:(done) ltac:(done) (single_logout _ _ _ _) Hp)
    as (ls1 & id & e & f & ls2 & Hw & Hsub & Hpr & Ha); [done|].
  assert (sublist (draws (ls1 ++ LStep id e f :: ls2)) (turn_draws (w_turns w))) as Hs by (etrans; [|exact Hsub]; by apply sublist_inserts_r). clear Hsub.
  set (db1 := y_db (yrun (w_sys w) ls1)) in *. unfold advance in Ha. cbn [flow.next broken] in Ha.
  destruct (LogoutReplay _ tok (Some r) e db1) as [er|b'|db' b'] eqn:El.
  - by destruct f.
  - apply LogoutReplay_replays in El as (h & Ht & Hh). exists h, ls1, (LStep id e f :: ls2). split_and!; try done. by left.
  - destruct f; try done. pose proof El as El'. apply (LogoutReplay_moved _ _ _ _ _ _ _ "") in El as (_ & h & Ht & Hl & Hg).
    exists h, ls1, (LStep id e NoFault :: ls2). split_and!; try done. right. exists (LStep id e NoFault), ls2. split_and!; try done.
    cbn [AccountProps.ystep]. rewrite Hpr. unfold advance. cbn [flow.next]. fold db1. by rewrite El'.
Qed.
Lemma perform_acks tok r w w' b : sessionhttp.LogoutReplay (Backend := SessionBackend IDKey v) tok r w = (w', (b, Ok tt)) ->
  perform IDKey v (Logout_ tok (Some r)) w = (w', Ok (AAck b)).
Proof.
  cbn [sessionhttp.LogoutReplay SessionBackend]. destruct (expect _ _) as [w1 [b'|]] eqn:E; [|done]. intros [= <- <-].
  apply expect_ok in E as (a & -> & Ha). destruct a; try done. by injection Ha as ->.
Qed.

(** An acknowledgement comes from the service. *)
Lemma serve_acks r w w' reply :
  sessionhttp.ServeHTTP (H := SessionBackend IDKey v) r w = (w', reply) -> Content reply = Acknowledged ->
  snd (sessionhttp.sessionCookie r) = true /\
  exists b, perform IDKey v (Logout_ (fst (sessionhttp.sessionCookie r)) (Some (Base r))) w = (w', Ok (AAck b)).
Proof.
  unfold sessionhttp.ServeHTTP. destruct (sessionhttp.boundary r) as [[method token]|e] eqn:Eb.
  - assert (sessionhttp.sessionCookie r = (token, true)) as ->.
    { revert Eb. unfold sessionhttp.boundary. destruct (sessionhttp.sessionCookie r) as [tok []]; repeat (case_match; try done); by intros [= <- <-]. }
    case_if as E1.
    + destruct (sessionhttp.Me _ _) as [w1 [x|er]]; intros [= <- <-]; [done|]. unfold sessionhttp.failed. by repeat case_match.
    + destruct (sessionhttp.LogoutReplay _ _ _) as [w1 [b [[]|er]]] eqn:El; intros [= <- <-].
      * intros _. split; [done|]. exists b. by apply perform_acks.
      * unfold sessionhttp.failed. by repeat case_match.
  - intros [= <- <-]. revert Eb. unfold sessionhttp.boundary. by repeat case_match; intros [= <-].
Qed.

(** C13: Logout is final. Once the endpoint acknowledges a logout, by removing
    the session or by recognising a logout it has acknowledged before, the
    session of the cookie is refused in every later state of the control plane,
    whatever was running at the same time and whatever is done afterwards, as
    long as the tokens that are drawn are different. *)
Theorem logout_is_final db ls r turns w' reply more t :
  uninhabited db -> logouts db = ∅ ->
  sessionhttp.ServeHTTP (H := SessionBackend IDKey v) r (mkWorld (yrun (installed db) ls) turns) = (w', reply) -> Content reply = Acknowledged ->
  NoDup (draws ls ++ turn_draws turns ++ draws more) ->
  exists h, tokenHash (fst (sessionhttp.sessionCookie r)) = Some h /\ is_ok (loadSession h t (y_db (yrun (w_sys w') more))) = false.
Proof.
  intros Hf Hlo Hs Hc Hn. destruct (serve_acks _ _ _ _ Hs Hc) as (_ & b & Hp).
  apply perform_logout in Hp as (h & ls1 & ls2 & Hw & Hsub & Ht & Hcase). cbn [w_sys w_turns] in *.
  assert (NoDup (draws ls ++ draws ls1 ++ draws ls2 ++ draws more)) as Hn2.
  { eapply sublist_NoDup; [exact Hn|]. rewrite draws_app in Hsub. apply sublist_app; [done|]. rewrite app_assoc. by apply sublist_app. }
  exists h. split; [exact Ht|]. set (y1 := yrun (yrun (installed db) ls) ls1) in *.
  assert (parted (draws ls ++ draws ls1) (y_db y1)) as [Hu Hd].
  { rewrite app_assoc in Hn2. apply NoDup_app in Hn2 as [Hn2 _]. apply run_parted; [|done]. apply (run_parted ls (installed db) []).
    - split; cbn; rewrite (f_sessions _ Hf), Hlo; set_solver.
    - apply NoDup_app in Hn2. tauto. }
  assert (forall ls', sublist (draws ls') (draws ls2) -> h ∈ draws ls ++ draws ls1 -> h ∉ draws (ls' ++ more)) as Hfresh.
  { intros ls' Hs' Hh Hx. rewrite app_assoc in Hn2. apply NoDup_app in Hn2 as (_ & Hn2 & _). apply (Hn2 h Hh). rewrite draws_app in Hx.
    apply elem_of_app in Hx as [Hx|Hx]; apply elem_of_app; [left; by eapply elem_of_sublist|by right]. }
  assert (h ∉ live (y_db (yrun (w_sys w') more))) as Hgone.
  { rewrite Hw, yrun_app. fold y1. rewrite <- yrun_app. destruct Hcase as [He|(l & ls3 & -> & Hl & Hg)].
    - apply run_gone; [set_solver|]. apply Hfresh; [done|]. apply Hu. set_solver.
    - change (yrun y1 ((l :: ls3) ++ more)) with (yrun (ystep y1 l) (ls3 ++ more)). apply run_gone; [done|]. apply Hfresh; [|apply Hu; set_solver].
      cbn [draws flat_map]. fold (draws ls3). by apply sublist_inserts_l. }
  destruct (loadSession _ _ _) eqn:El; [|done]. by apply loadSession_live in El.
Qed.
End logout.
