(* ===== verification/AuthExample.v ===== *)
(** * Authentication over HTTP on a concrete history

    The second step of a login arrives at the handler of [AuthHTTP] over the
    installation of [AccountExample], while another login is under way. The
    witnesses of the theorems on the handlers run on it. *)

From S2P Require Import Prelude GoStd Keyring Control ConfigTrust AdminAuth Vault Password Publication PublicationExample CommandProps Coordinator DataNode Origin Accounts Security AccountFlow AccountProps AccountSessions AccountExample Json AuthHTTP AuthHistory AuthLogout.
From stdpp Require Import base list gmap strings sorting pretty.
From Stdlib Require Import ZArith Lia Ascii String.
Import pgstore example accounts security flow http accountexample.
Local Open Scope Z_scope.

Module authexample.

#[local] Instance hx_mime : Mime :=
  fun s => if String.eqb s "application/json" then Some ("application/json", ∅) else None.
#[local] Instance hx_backend : authhttp.Backend world := PostgresBackend password.wit_IDKey ax_services.
#[local] Instance hx_sessions : sessionhttp.Backend world := SessionBackend password.wit_IDKey ax_services.

(** ** Requests *)

Definition quote : string := String "034" "".
Definition member (k v : string) : string := quote +:+ k +:+ quote +:+ ": " +:+ quote +:+ v +:+ quote.
Definition hx_body : string := "{" +:+ member "code" (code_at 1111) +:+ "}".
Definition from_list (l : list (string * string)) (h : string) : list string := snd <$> List.filter (fun kv => String.eqb (fst kv) h) l.
Definition hx_request (path : string) (headers : list (string * string)) (body : string) : Request :=
  mkRequest (adminauth.mkRequest "POST" (from_list headers)) path path "" false true "admin.example" (Some loopback) (Some loopback)
    (len body) (Some (Ok body)) [].
Definition hx_verify : Request :=
  hx_request authhttp.path_verify
    [("Origin", "https://admin.example"); ("X-WR-Auth", "1"); ("Authorization", "Bearer " +:+ token_at 1103); ("Content-Type", "application/json");
     ("Cookie", "visitor=1; theme=dark")] hx_body.
Definition hx_handler : authhttp.Handler := authhttp.mkHandler "https://admin.example" "admin.example" true false.
Definition hx_conn : authhttp.conn := authhttp.mkConn 1 true true.

(** The history up to the challenge of the login, and what is left for the
    handler: three calls, and the start of another login between them. *)
Definition hx_history : list label := take 14 ax_history.
Definition hx_turn (s : Z) (others : list label) : turn := mkTurn others (ax_env s tokens_only) NoFault.
Definition hx_turns : list turn :=
  [hx_turn 1105 []; hx_turn 1106 []; hx_turn 1110 [start_at 60 (Login "admin" password.wit_password loopback) 1107]; hx_turn 1111 [step_at 60 1108 tokens_only];
   hx_turn 1112 []; hx_turn 1113 [step_at 60 1112 tokens_only]; hx_turn 1114 []].
Local Abbreviation hx_served :=
  (authhttp.ServeHTTP hx_handler hx_conn hx_verify (mkWorld (yrun password.wit_IDKey ax_services (installed ax_db) hx_history) hx_turns)).

(** ** Witnesses *)

Definition hx_value : string := token_at 1111.

(** The answer of a logout is lost and the browser repeats it; later the
    administrator logs in again. *)
Definition lx_headers : list (string * string) :=
  [("Origin", "https://admin.example"); ("X-CSRF-Token", fst (token (ax_env 1111 tokens_only) 1)); ("Idempotency-Key", "logout-0000000001")].
Definition lx_request : Request :=
  mkRequest (adminauth.mkRequest "POST" (from_list lx_headers)) sessionhttp.path_logout sessionhttp.path_logout "" false true "admin.example"
    (Some loopback) (Some loopback) 0 None [("visitor", "1"); (CookieName, hx_value)].
Definition lx_history : list label :=
  take 16 ax_history ++ [start_at 6 (Logout_ hx_value (Some (Base lx_request))) 1200; LStep 6 (ax_env 1201 tokens_only) Lost].
Definition lx_turns : list turn := [hx_turn 1210 []; hx_turn 1211 []].
Definition lx_later : list label :=
  [start_at 70 (Login "admin" password.wit_password loopback) 1300; step_at 70 1301 tokens_only; step_at 70 1302 tokens_only; step_at 70 1303 tokens_only].
Local Abbreviation lx_served :=
  (sessionhttp.ServeHTTP lx_request (mkWorld (yrun password.wit_IDKey ax_services (installed ax_db) lx_history) lx_turns)).

Lemma logout_is_final_witness :
  Replayed (snd lx_served) = true /\ is_ok (loadSession ax_hash (at_ 1199) (y_db (yrun password.wit_IDKey ax_services (installed ax_db) (take 16 ax_history)))) = true /\
  exists h, tokenHash hx_value = Some h /\
    is_ok (loadSession h (at_ 1400) (y_db (yrun password.wit_IDKey ax_services (w_sys (fst lx_served)) lx_later))) = false.
Proof.
  assert (Content (snd lx_served) = Acknowledged) as Hc by (vm_compute; reflexivity).
  split; [vm_compute; reflexivity|]. split; [vm_compute; reflexivity|].
  assert (NoDup (draws lx_history ++ turn_draws lx_turns ++ draws lx_later)) as Hn by (apply (bool_decide_unpack _); vm_compute; exact I).
  destruct (logout_is_final password.wit_IDKey ax_services ax_db lx_history lx_request lx_turns (fst lx_served) (snd lx_served) lx_later (at_ 1400)
    ax_uninhabited eq_refl (surjective_pairing _) Hc Hn) as (h & Ht & Hl).
  exists h. split; [exact Ht | exact Hl].
Defined.
End authexample.
