(* ===== verification/InstallPlan.v ===== *)
(** * Installation planning: [src/internal/installplan]

    Module [installplan] translates [plan.go], [digest.go] and [setup.go]: the
    planning input and its bounds, the proposal that [Build] makes of it, the
    exact decoder of small JSON documents and the plan of a local setup. The
    decoder is the token decoder of [Json]; what [json.Unmarshal] then makes of
    a document with exactly the expected keys is read off the tree of values.
    [json.Marshal] of the structures is a [Codec]. *)

From S2P Require Import Prelude GoStd Control AdminAuth Password Vault Json.
From stdpp Require Import base list gmap strings.
From Stdlib Require Import ZArith Lia Ascii String.

Module installplan.
Local Open Scope Z_scope.

Definition MaxInputBytes : nat := Z.to_nat 16384.
Inductive error := ErrInput.

(** ** Data *)

(** The limits of a plan have the fields of [control.Limits]. *)
Record TOTP := mkTOTP { tMode : string; tEnabled : bool }.
Record Input := mkInput {
  SchemaVersion : Z; Profile : string; RegionID : string; QueuePolicy : string; ExpectedPeakVisitors : Z;
  Limits : control.Limits; Totp : TOTP
}.
Record Resource := mkResource {
  rName : string; rOwnership : string; Replicas : Z; CPUMillicores : Z; MemoryMiB : Z; StorageGiB : Z; rMeaning : string
}.
Record Plan := mkPlan {
  pSchemaVersion : Z; pKind : string; Executable : bool; ActivationAllowed : bool; Qualification : string; pInput : Input;
  Deployment : string; VisitorStateCap : Z; IdempotencyBudget : Z; RateCapPerMinute : Z; Resources : list Resource;
  RequiredChecks : list string; OperatorProvides : list string; Warnings : list string; CostStatus : string; CostExcluded : list string
}.
#[global] Instance limits_eq_dec : EqDecision control.Limits.
Proof. solve_decision. Defined.
#[global] Instance TOTP_eq_dec : EqDecision TOTP.
Proof. solve_decision. Defined.
#[global] Instance Input_eq_dec : EqDecision Input.
Proof. solve_decision. Defined.

(** ** [Build] *)

Definition required_checks : list string :=
  ["environment-capabilities";
   "dns-tls-ports-storage";
   "clock-source-and-offset";
   "secret-mounts";
   "signed-config";
   "origin-protection-active-probe";
   "quick-20";
   "profile-qualification"].
Definition high_checks : list string :=
  ["external-store-tls-auth-role-read-write-switch";
   "operator-HA-backup-RPO-RTO-record";
   "three-domain-topology-and-sentinel-quorum-2";
   "hpa-pdb-and-network-policy";
   "T-minus-10m-gateway-8-coordinator-4";
   "T-minus-5m-all-ready-and-valkey-p95-RTT-less-than-2ms"].
Definition warnings : list string :=
  ["Planning only: no install, apply, secret generation, network probe or activation has occurred.";
   "Visitor-state cap counts WAITING + READY + ADMITTED until token expiry plus verifier leeway (at most 30 seconds); it is not TCP or online-user capacity.";
   "Runtime Room and installation aggregate guards remain required; valid planning inputs do not prove live capacity.";
   "One Home Region only; live-ticket migration is unsupported.";
   "Reference BOM is not a performance or HA certification."].
Definition cost_status : string :=
  "NOT_CALCULATED: use wrctl estimate with explicit non-secret user pricing inputs for reference subtotals; no monetary estimate is made by this plan.".
Definition cost_excluded : list string :=
  ["CDN/load-balancer";
   "egress";
   "external-HA-stores";
   "backup-object-storage";
   "Prometheus-retention";
   "operator-labor"].
Definition standard_operator : list string :=
  ["Linux host: 4 vCPU / 8 GiB / 50 GiB SSD / 1 Gbps";
   "Docker engine";
   "DNS/TLS";
   "origin ACL/mTLS"].
Definition high_operator : list string :=
  ["Kubernetes: three failure domains; three workers each 8 vCPU / 16 GiB";
   "Ingress/load-balancer and DNS/TLS";
   "external HA PostgreSQL and Valkey";
   "origin ACL/mTLS";
   "workload identity/mTLS and NetworkPolicy"].
Definition standard_resources : list Resource :=
  [mkResource "gateway" "application" 1 1000 1024 0 "CPU planning share; not reserved cores";
   mkResource "control-ui" "application" 1 250 768 0 "CPU planning share; not reserved cores";
   mkResource "coordinator" "application" 1 500 512 0 "CPU planning share; not reserved cores";
   mkResource "valkey" "bundled-store" 1 750 2048 10 "maxmemory 1 GiB; noeviction; AOF everysec + RDB; not HA";
   mkResource "postgresql" "bundled-store" 1 500 1536 20 "single node; not HA"].
Definition high_resources : list Resource :=
  [mkResource "gateway" "application" 4 1000 768 0 "request; limit 2 CPU / 1536 MiB; event pre-scale 8; maximum 12";
   mkResource "control-ui" "application" 2 500 512 0 "request";
   mkResource "coordinator" "application" 4 1000 1024 0 "request; limit 2 CPU / 2048 MiB; maximum 8";
   mkResource "valkey" "operator-external" 3 4000 8192 50 "primary + two replicas; not provisioned by installer";
   mkResource "postgresql" "operator-external" 2 2000 8192 100 "primary + standby; not provisioned by installer"].
Definition standard_warning : string :=
  "Host/OS/runtime headroom is additional to component shares. Lab origin, generators and long-term Prometheus are excluded.".
Definition high_warning : string :=
  "Endpoint connectivity cannot prove replicas, zones, backup, HA or RPO/RTO. External stores and cluster are operator responsibilities.".

(** The caps of a profile on visitors and leases, and on admissions per minute. *)
Definition caps (profile : string) : option (Z * Z) :=
  if String.eqb profile "high-scale-100k" then Some (100000, 60000)
  else if String.eqb profile "standard-10k" then Some (10000, 6000) else None.

Definition Build (i : Input) : result error Plan :=
  match caps (Profile i) with
  | None => Err ErrInput
  | Some (cap, rate) =>
      let l := Limits i in
      if negb (SchemaVersion i =? 1) || negb (control.regionPattern (RegionID i)) || negb (String.eqb (QueuePolicy i) "fifo") ||
         (ExpectedPeakVisitors i <? 1) || (cap <? ExpectedPeakVisitors i) ||
         (control.MaxActiveAdmissionLeases l <? 1) || (cap <? control.MaxActiveAdmissionLeases l) ||
         (control.AdmissionsPerMinute l <? 1) || (rate <? control.AdmissionsPerMinute l) ||
         (control.AdmissionTTLSeconds l <? 60) || (3600 <? control.AdmissionTTLSeconds l) ||
         (negb (String.eqb (tMode (Totp i)) "configurable") && negb (String.eqb (tMode (Totp i)) "forced_on")) ||
         (String.eqb (tMode (Totp i)) "forced_on" && negb (tEnabled (Totp i)))
      then Err ErrInput else
      let plan deployment resources checks operator warning :=
        mkPlan 1 "offline-install-proposal" false false "NOT_RUN" i deployment cap (cap * 2) rate resources
          (required_checks ++ checks) operator (warnings ++ [warning]) cost_status cost_excluded in
      Ok (if String.eqb (Profile i) "standard-10k"
          then plan "compose-single-host" standard_resources [] standard_operator standard_warning
          else plan "helm-application-only" high_resources high_checks high_operator high_warning)
  end.

(** ** Exact documents *)

(** What the token decoder makes of a document without arrays and nulls. *)
Inductive jvalue := JString (s : string) | JNumber (s : string) | JBool (b : bool) | JObject (m : list (string * jvalue)).

(** The loop over the members of an object; [val] reads a value. Every round
    consumes a byte at least. *)
Fixpoint members (val : json.Decoder -> option (jvalue * json.Decoder)) (fuel : nat) (d : json.Decoder) (m : list (string * jvalue))
    : option (list (string * jvalue) * json.Decoder) :=
  match fuel with
  | O => None
  | S n =>
      if negb (json.More d) then Some (m, d) else
      match json.Token d with
      | Ok (json.TString s, d) =>
          if bool_decide (s ∈ m.*1) then None else
          match val d with
          | Some (v, d) => members val n d (m ++ [(s, v)])
          | None => None
          end
      | _ => None
      end
  end.

(** [value] at a depth that leaves [k] more levels: five at the root. *)
Fixpoint value (k : nat) (d : json.Decoder) : option (jvalue * json.Decoder) :=
  match k with
  | O => None
  | S k =>
      match json.Token d with
      | Ok (json.TString s, d) => Some (JString s, d)
      | Ok (json.TNumber s, d) => Some (JNumber s, d)
      | Ok (json.TBool b, d) => Some (JBool b, d)
      | Ok (json.Delim "{", d) =>
          match members (value k) (S (List.length (json.rest d))) d [] with
          | Some (m, d) => match json.Token d with Ok (json.Delim "}", d) => Some (JObject m, d) | _ => None end
          | None => None
          end
      | _ => None
      end
  end.

(** [raw] is what reading the request body gives. *)
Definition decodeObject (raw : result unit string) : result error (list (string * jvalue)) :=
  match raw with
  | Err _ => Err ErrInput
  | Ok b =>
      let b := str_take (S MaxInputBytes) b in
      if (MaxInputBytes <? String.length b)%nat then Err ErrInput else
      match value 5 (json.NewDecoder b) with
      | Some (JObject m, d) => if json.at_end d then Ok m else Err ErrInput
      | _ => Err ErrInput
      end
  end.

Definition field {A} (m : list (string * A)) (k : string) : option A := (list_to_map m : gmap string A) !! k.
Definition keys {A} (m : list (string * A)) (names : list string) : bool :=
  (List.length m =? List.length names)%nat && forallb (fun n => bool_decide (is_Some (field m n))) names.

(** [json.Unmarshal] into the fields of a struct. *)
Definition ParseInt (s : string) : option Z :=
  let digits l := if bool_decide (l = []) then None else
    z ← (fun ds => vault.of_digits 10 ds) <$> mapM (fun a => if control.is_digit a then Some (byte_of a - 48) else None) l; Some z in
  z ← match list_ascii_of_string s with
      | "-"%char :: l => Z.opp <$> digits l
      | l => digits l
      end;
  if bool_decide (in_i64 z) then Some z else None.
Definition as_int (v : option jvalue) : option Z := match v with Some (JNumber s) => ParseInt s | _ => None end.
Definition as_string (v : option jvalue) : option string := match v with Some (JString s) => Some s | _ => None end.
Definition as_bool (v : option jvalue) : option bool := match v with Some (JBool b) => Some b | _ => None end.
Definition as_object (v : option jvalue) : option (list (string * jvalue)) := match v with Some (JObject m) => Some m | _ => None end.

Definition unmarshal_limits (m : list (string * jvalue)) : option control.Limits :=
  a ← as_int (field m "maxActiveAdmissionLeases"); b ← as_int (field m "admissionsPerMinute"); c ← as_int (field m "admissionTtlSeconds");
  Some (control.mkLimits a b c).
Definition unmarshal_totp (m : list (string * jvalue)) : option TOTP :=
  a ← as_string (field m "mode"); b ← as_bool (field m "enabled"); Some (mkTOTP a b).
Definition unmarshal_input (root limits totp : list (string * jvalue)) : option Input :=
  version ← as_int (field root "schemaVersion"); profile ← as_string (field root "profile"); region ← as_string (field root "regionId");
  queue ← as_string (field root "queuePolicy"); peak ← as_int (field root "expectedPeakVisitors");
  l ← unmarshal_limits limits; t ← unmarshal_totp totp; Some (mkInput version profile region queue peak l t).

Definition Decode (raw : result unit string) : result error Input :=
  match decodeObject raw with
  | Err e => Err e
  | Ok root =>
      if negb (keys root ["schemaVersion"; "profile"; "regionId"; "queuePolicy"; "expectedPeakVisitors"; "limits"; "totp"]) then Err ErrInput else
      match as_object (field root "limits") with
      | None => Err ErrInput
      | Some limits =>
          if negb (keys limits ["maxActiveAdmissionLeases"; "admissionsPerMinute"; "admissionTtlSeconds"]) then Err ErrInput else
          match as_object (field root "totp") with
          | None => Err ErrInput
          | Some totp =>
              if negb (keys totp ["mode"; "enabled"]) then Err ErrInput else
              match unmarshal_input root limits totp with
              | None => Err ErrInput
              | Some i => match Build i with Ok _ => Ok i | Err e => Err e end
              end
          end
      end
  end.

(** ** [setup.go] *)

Record SetupPlan := mkSetupPlan {
  sSchemaVersion : Z; sKind : string; sInput : Input; sCalibration : adminauth.Calibration; AdminURL : string; GatewayURL : string;
  Changes : list string; NotVerified : list string
}.
Definition setup_changes : list string :=
  ["save-installation-region-and-profile"; "save-new-room-traffic-defaults"; "set-initial-totp-policy"; "persist-password-parameters";
   "save-setup-report-and-audit"].
Definition setup_not_verified : list string :=
  ["public-dns-and-tls"; "host-ntp-offset"; "production-origin-protection"; "quick-20"; "10k-performance"; "high-scale-and-ha"].
Definition BuildSetup (i : Input) (c : adminauth.Calibration) : result error SetupPlan :=
  if negb (is_ok (Build i)) || negb (String.eqb (Profile i) "standard-10k") then Err ErrInput else
  if negb (adminauth.cVersion c =? 1) || negb (adminauth.cMemoryKiB c =? password.PasswordMemoryKiB) || negb (adminauth.cParallelism c =? 1) ||
     negb (adminauth.cTargetMet c) || (adminauth.cIterations c <? 2) || (10 <? adminauth.cIterations c) then Err ErrInput else
  Ok (mkSetupPlan 1 "local-compose-setup" i c "https://127.0.0.1:19443" "https://127.0.0.1:20443" setup_changes setup_not_verified).

Record SetupApply := mkSetupApply { aInput : Input; aPlanDigest : string; aCalibrationDigest : string }.
(** [^[a-f0-9]{64}$]. *)
Definition setupDigestPattern (s : string) : bool :=
  (len s =? 64) && forallb (fun c => control.in_range 97 102 c || control.is_digit c) (list_ascii_of_string s).

Section codecs.
(** [json.Marshal] of a tree, of a plan, of a setup plan. *)
Context `{Sha256} `{Codec jvalue} `{Codec Plan}.
Definition DecodeSetupApply (raw : result unit string) : result error SetupApply :=
  match decodeObject raw with
  | Err _ => Err ErrInput
  | Ok root =>
      if negb (keys root ["input"; "planDigest"; "calibrationDigest"]) then Err ErrInput else
      match field root "input" with
      | None => Err ErrInput
      | Some v =>
          match Decode (Ok (marshal v)) with
          | Err e => Err e
          | Ok input =>
              match as_string (field root "planDigest"), as_string (field root "calibrationDigest") with
              | Some p, Some c =>
                  if negb (setupDigestPattern p) || negb (setupDigestPattern c) then Err ErrInput else Ok (mkSetupApply input p c)
              | _, _ => Err ErrInput
              end
          end
      end
  end.

(** [digest.go]. *)
Definition Digest (i : Input) : result error string :=
  match Build i with Err e => Err e | Ok p => Ok (hex_EncodeToString (sha256 (marshal p))) end.
End codecs.
End installplan.
