(* ===== verification/InstallCost.v ===== *)
(** * The cost of an installation: [src/internal/installplan]

    Module [cost] translates [cost.go], the estimate from user prices in exact
    decimal arithmetic, and [report.go], the planning report. A [big.Int] is a
    [Z]. [strings.Repeat] panics on a negative count: [micro] is [None] where
    the code would panic, and the theorems show that it never does. *)

From S2P Require Import Prelude GoStd Control AdminAuth Password Vault Json InstallPlan.
From stdpp Require Import base list gmap strings.
From Stdlib Require Import ZArith Lia Ascii String.

Module cost.
Import installplan.
Local Open Scope Z_scope.

Record CostInput := mkCostInput {
  cSchemaVersion : Z; Provider : string; cRegionID : string; Currency : string; AsOf : string; FractionDigits : Z; MonthlyHours : Z;
  StandardHostHourly : string; HighWorkerHourly : string; VolumeGiBMonthly : string; HighWorkerVolumeGiB : Z; ExpectedEgressGiB : Z
}.
Record CostLine := mkLine { lID : string; Quantity : Z; Unit : string; UnitPrice : string; Formula : string; ExactAmount : string }.
Record CostProfile := mkProfile {
  cProfile : string; Hosts : Z; VCPUPerHost : Z; MemoryGiBPerHost : Z; VolumeGiBPerHost : Z; Included : list CostLine;
  ExactSubtotal : string; RoundedSubtotal : string; Excluded : list string
}.
Record CostReport := mkCostReport {
  rSchemaVersion : Z; Scope : string; rInput : CostInput; Rounding : string; Profiles : list CostProfile;
  HighToStandardRatio : option string; RatioMeaning : string; rWarnings : list string; rQualification : string
}.

(** ** Patterns *)

Definition digits (lo hi : nat) (l : list ascii) : bool :=
  (lo <=? List.length l)%nat && (List.length l <=? hi)%nat && forallb control.is_digit l.
(** The text before and after the first point. *)
Definition point (s : string) : string * option string :=
  match strs.cut_byte "." s with Some (a, b) => (a, Some b) | None => (s, None) end.
(** [^(0|[1-9][0-9]{0,8})(\.[0-9]{1,6})?$]. *)
Definition pricePattern (s : string) : bool :=
  let '(whole, fraction) := point s in
  let w := list_ascii_of_string whole in
  (String.eqb whole "0" || match w with a :: r => digits 1 9 w && negb (Ascii.eqb a "0") | [] => false end) &&
  match fraction with None => true | Some f => digits 1 6 (list_ascii_of_string f) end.
(** [^[A-Z]{3}$]. *)
Definition currencyPattern (s : string) : bool := (len s =? 3) && forallb (control.in_range 65 90) (list_ascii_of_string s).

Definition digit_value (a : ascii) : option Z := if control.is_digit a then Some (byte_of a - 48) else None.
Definition decimal (l : list ascii) : option Z := vault.of_digits 10 <$> mapM digit_value l.

Definition leap (y : Z) : bool := (y mod 4 =? 0) && (negb (y mod 100 =? 0) || (y mod 400 =? 0)).
Definition daysIn (m y : Z) : Z :=
  if m =? 2 then (if leap y then 29 else 28) else if bool_decide (m ∈ [4; 6; 9; 11]) then 30 else 31.
(** The year of [time.Parse] with the layout 2006-01-02. *)
Definition parse_year (s : string) : option Z :=
  match list_ascii_of_string s with
  | [a; b; c; d; "-"%char; e; f; "-"%char; g; h] =>
      y ← decimal [a; b; c; d]; m ← decimal [e; f]; day ← decimal [g; h];
      if (1 <=? m) && (m <=? 12) && (1 <=? day) && (day <=? daysIn m y) then Some y else None
  | _ => None
  end.

(** ** Decimal arithmetic *)

(** [big.Int.String] of a number that is not negative. *)
Fixpoint decimals (fuel : nat) (n : Z) : list Z :=
  match fuel with
  | O => []
  | S k => if n <? 10 then [n] else decimals k (n / 10) ++ [n mod 10]
  end.
Definition digit_char (d : Z) : ascii := ascii_of (48 + d).
Definition int_String (n : Z) : string := string_of_list_ascii (digit_char <$> decimals (S (Z.to_nat (Z.log2 n))) n).
Definition zeros (n : nat) : string := string_of_list_ascii (replicate n "0"%char).

(** [SetString] fails on an empty text and on other characters; the code drops
    the error and the number is then nil. *)
Definition micro (s : string) : option Z :=
  let '(whole, fraction) := point s in
  let f := default "" fraction in
  if 6 <? len f then None else
  match list_ascii_of_string (whole +:+ f +:+ zeros (6 - String.length f)) with
  | [] => None
  | l => decimal l
  end.

Definition fixed (n : Z) (places : nat) : string :=
  let s := int_String n in
  if (places =? 0)%nat then s else
  let s := if (String.length s <=? places)%nat then zeros (places - String.length s + 1) +:+ s else s in
  str_take (String.length s - places) s +:+ "." +:+ str_drop (String.length s - places) s.

Definition roundQuotient (n d : Z) : Z :=
  let q := Z.quot n d in let r := Z.rem n d in if d <=? 2 * r then q + 1 else q.

(** ** The estimate *)

Definition rounding : string :=
  "Exact integer micro-units (six decimal places); sum unrounded line amounts, then round subtotal half-up to fractionDigits. Ratio uses exact subtotals, rounded half-up to four decimals.".
Definition ratio_meaning : string :=
  "High/Standard ratio of INCLUDED subtotals only, using the same provider/region/currency/as-of inputs; not a total operating-cost ratio.".
Definition ratio_unavailable : string :=
  "UNAVAILABLE_ZERO_STANDARD_SUBTOTAL: a zero user-priced included subtotal does not mean operation is free.".
Definition cost_warnings : list string :=
  ["User-entered prices, not provider-verified quotes. No pricing API, exchange-rate lookup or currency-registry validation is performed.";
   "Host/worker prices must cover the stated CPU and memory bundle but exclude separately priced volumes. Existing pod planning shares are not billed again.";
   "Standard includes its single host (including bundled stores) and 50 GiB host storage. High includes three workers and user-entered per-worker storage; external HA stores remain excluded.";
   "Monthly hours are an explicit compute billing assumption. Volumes are charged for a full month, without hourly proration. Discounts, tax, IOPS, snapshots and provider billing rules are not inferred.";
   "High worker volume size is a cost assumption, not a qualified storage recommendation. Pre-scaling pods does not automatically change this fixed worker-count estimate; extra nodes cost extra.";
   "Expected egress is recorded but unpriced. Missing excluded-item prices do not mean those items are free. This report does not certify installability, HA or 10K/100K capacity."].
Definition excluded : list string :=
  ["CDN/load-balancer";
   "egress";
   "backup-object-storage";
   "Prometheus-retention";
   "operator-labor";
   "tax";
   "IOPS-and-provider-additional-fees"].
Definition high_excluded : list string :=
  ["external-HA-stores-including-storage-and-sentinel";
   "Kubernetes-control-plane";
   "extra-workers-beyond-three"].

(** Quantities are [int]s. *)
Definition costProfile (profile : string) (hosts cpu memory volume : Z) (hourly : string) (i : CostInput) : option CostProfile :=
  let computeQuantity := i64 (hosts * MonthlyHours i) in
  let volumeQuantity := i64 (hosts * volume) in
  p ← micro hourly; v ← micro (VolumeGiBMonthly i);
  let compute := p * computeQuantity in
  let storage := v * volumeQuantity in
  let total := compute + storage in
  Some (mkProfile profile hosts cpu memory volume
    [mkLine "compute" computeQuantity "host-hour" hourly "hosts * monthlyHours * hostHourly" (fixed compute 6);
     mkLine "volume" volumeQuantity "GiB-month" (VolumeGiBMonthly i) "hosts * volumeGiBPerHost * volumeGiBMonthly" (fixed storage 6)]
    (fixed total 6) (fixed (roundQuotient total (10 ^ (6 - FractionDigits i))) (Z.to_nat (FractionDigits i)))
    (excluded ++ if String.eqb profile "high-scale-100k" then high_excluded else [])).

(** The checks of [Estimate]. *)
Definition cost_valid (i : CostInput) : bool :=
  match parse_year (AsOf i) with
  | None => false
  | Some y =>
      negb ((y <? 2000) || (9999 <? y) || negb (cSchemaVersion i =? 1) || negb (control.regionPattern (Provider i)) ||
        negb (control.regionPattern (cRegionID i)) || negb (currencyPattern (Currency i)) || (FractionDigits i <? 0) || (4 <? FractionDigits i) ||
        (MonthlyHours i <? 1) || (744 <? MonthlyHours i) || (HighWorkerVolumeGiB i <? 1) || (65536 <? HighWorkerVolumeGiB i) ||
        (ExpectedEgressGiB i <? 0) || (1000000000 <? ExpectedEgressGiB i) || negb (pricePattern (StandardHostHourly i)) ||
        negb (pricePattern (HighWorkerHourly i)) || negb (pricePattern (VolumeGiBMonthly i)))
  end.

(** [None] is a panic. *)
Definition Estimate (i : CostInput) : option (result error CostReport) :=
  if negb (cost_valid i) then Some (Err ErrInput) else
  s ← costProfile "standard-10k" 1 4 8 50 (StandardHostHourly i) i;
  h ← costProfile "high-scale-100k" 3 8 16 (HighWorkerVolumeGiB i) (HighWorkerHourly i) i;
  den ← micro (ExactSubtotal s); num ← micro (ExactSubtotal h);
  let report ratio meaning := mkCostReport 1 "user-priced-reference-subtotals-only" i rounding [s; h] ratio meaning cost_warnings "NOT_RUN" in
  Some (Ok (if den =? 0 then report None ratio_unavailable
            else report (Some (fixed (roundQuotient (num * 10000) den) 4)) ratio_meaning)).

(** ** Documents and reports *)

Definition unmarshal_cost (m : list (string * jvalue)) : option CostInput :=
  v ← as_int (field m "schemaVersion"); p ← as_string (field m "provider"); r ← as_string (field m "regionId"); c ← as_string (field m "currency");
  d ← as_string (field m "asOf"); f ← as_int (field m "fractionDigits"); h ← as_int (field m "monthlyHours");
  s ← as_string (field m "standardHostHourly"); w ← as_string (field m "highWorkerHourly"); g ← as_string (field m "volumeGiBMonthly");
  x ← as_int (field m "highWorkerVolumeGiB"); e ← as_int (field m "expectedEgressGiB"); Some (mkCostInput v p r c d f h s w g x e).
Definition DecodeCost (raw : result unit string) : option (result error CostInput) :=
  match decodeObject raw with
  | Err _ => Some (Err ErrInput)
  | Ok root =>
      if negb (keys root ["schemaVersion"; "provider"; "regionId"; "currency"; "asOf"; "fractionDigits"; "monthlyHours"; "standardHostHourly";
                          "highWorkerHourly"; "volumeGiBMonthly"; "highWorkerVolumeGiB"; "expectedEgressGiB"]) then Some (Err ErrInput) else
      match unmarshal_cost root with
      | None => Some (Err ErrInput)
      | Some i => x ← Estimate i; Some (match x with Ok _ => Ok i | Err e => Err e end)
      end
  end.

Record ReportInput := mkReportInput { riSchemaVersion : Z; riPlan : Input; riCost : option CostInput }.
Record PlanningPayload := mkPayload {
  ppKind : string; ppPlanDigest : string; ppPlan : Plan; ppCost : option CostReport; ppCostStatus : string; ppInstallation : string;
  ppActivationAllowed : bool; ppQualification : string; ppWarning : string
}.
Record PlanningReport := mkPlanningReport { prSchemaVersion : Z; Payload : PlanningPayload; SHA256 : string; HashEncoding : string }.
Definition payload_warning : string :=
  "User-priced planning only. No installation, environment probe, activation or qualification has occurred. Checksum is not a signature or permission. Normal input values are retained; do not include secrets.".
Definition hash_encoding : string :=
  "SHA-256 of Go encoding/json compact payload, struct field order as emitted, HTML escaping enabled, UTF-8, no trailing newline; not RFC 8785.".

Section report.
Context `{Sha256} `{Codec jvalue} `{Codec Plan} `{Codec PlanningPayload}.
Definition BuildReport (i : ReportInput) : option (result error PlanningReport) :=
  if negb (riSchemaVersion i =? 1) then Some (Err ErrInput) else
  match Build (riPlan i), Digest (riPlan i) with
  | Ok plan, Ok digest =>
      let done cost status :=
        let p := mkPayload "offline-planning-report" digest plan cost status "NOT_RUN" false "NOT_RUN" payload_warning in
        mkPlanningReport 1 p (hex_EncodeToString (sha256 (marshal p))) hash_encoding in
      match riCost i with
      | None => Some (Ok (done None "NOT_REQUESTED"))
      | Some c =>
          if negb (String.eqb (cRegionID c) (RegionID (riPlan i))) then Some (Err ErrInput) else
          x ← Estimate c; Some (match x with Ok r => Ok (done (Some r) "REFERENCE_SUBTOTALS_ONLY") | Err e => Err e end)
      end
  | Err e, _ | _, Err e => Some (Err e)
  end.

Definition DecodeReport (raw : result unit string) : option (result error ReportInput) :=
  match decodeObject raw with
  | Err e => Some (Err e)
  | Ok root =>
      let names := ["schemaVersion"; "plan"] ++ match field root "cost" with Some _ => ["cost"] | None => [] end in
      if negb (keys root names) then Some (Err ErrInput) else
      match field root "schemaVersion", field root "plan" with
      | Some (JNumber "1"), Some p =>
          match Decode (Ok (marshal p)) with
          | Err e => Some (Err e)
          | Ok plan =>
              c ← match field root "cost" with
                  | None => Some (Ok None)
                  | Some raw => x ← DecodeCost (Ok (marshal raw)); Some (match x with Ok c => Ok (Some c) | Err e => Err e end)
                  end;
              match c with
              | Err e => Some (Err e)
              | Ok c => let i := mkReportInput 1 plan c in x ← BuildReport i; Some (match x with Ok _ => Ok i | Err e => Err e end)
              end
          end
      | _, _ => Some (Err ErrInput)
      end
  end.
End report.

(** ** Decimal texts *)

Definition digit (d : Z) : Prop := 0 <= d < 10.
Definition text (ds : list Z) : string := string_of_list_ascii (digit_char <$> ds).
(** The value of a text with [k] digits after the point, in units of the last. *)
Definition amount (k : nat) (s : string) : option Z :=
  let '(whole, fraction) := point s in
  let f := default "" fraction in
  if (String.length f =? k)%nat then decimal (list_ascii_of_string (whole +:+ f)) else None.

Lemma byte_of_digit d : digit d -> byte_of (digit_char d) = 48 + d.
Proof.
  unfold digit. intros Hd. unfold byte_of, digit_char, ascii_of. rewrite N_ascii_embedding by lia. rewrite Z2N.id; lia.
Qed.
Lemma digit_value_char d : digit d -> digit_value (digit_char d) = Some d.
Proof.
  intros Hd. unfold digit_value, control.is_digit, control.in_range. rewrite byte_of_digit by done. unfold digit in Hd.
  rewrite (proj2 (Z.leb_le 48 (48 + d))), (proj2 (Z.leb_le (48 + d) 57)) by lia. cbn [andb]. f_equal. lia.
Qed.
Lemma decimal_text ds : Forall digit ds -> decimal (digit_char <$> ds) = Some (vault.of_digits 10 ds).
Proof.
  intros Hd. unfold decimal. replace (mapM digit_value (digit_char <$> ds)) with (Some ds); [done|]. symmetry. apply mapM_Some.
  apply Forall2_fmap_l. apply Forall_Forall2_diag. eapply Forall_impl; [exact Hd|]. intros d. apply digit_value_char.
Qed.

Lemma decimals_value fuel n : 0 <= n < 2 ^ Z.of_nat fuel ->
  vault.of_digits 10 (decimals fuel n) = n /\ Forall digit (decimals fuel n).
Proof.
  revert n. induction fuel as [|k IH]; intros n Hn; [change (2 ^ Z.of_nat 0) with 1 in Hn; split; [unfold vault.of_digits; simpl; lia | constructor]|].
  cbn [decimals]. destruct (n <? 10) eqn:E; to_prop.
  - split; [unfold vault.of_digits; simpl; lia|]. apply Forall_singleton. unfold digit. lia.
  - rewrite Nat2Z.inj_succ, Z.pow_succ_r in Hn by lia. pose proof (Z.div_mod n 10 ltac:(lia)). pose proof (Z.mod_pos_bound n 10 ltac:(lia)).
    assert (0 <= n / 10 < 2 ^ Z.of_nat k) as Hq by (split; [apply Z.div_pos; lia | apply Z.div_lt_upper_bound; lia]).
    destruct (IH _ Hq) as [Ev Hd]. rewrite vault.of_digits_app, Ev. split; [lia|]. apply Forall_app. split; [exact Hd | by apply Forall_singleton].
Qed.
Lemma decimals_nonempty fuel n : decimals (S fuel) n <> [].
Proof. cbn [decimals]. case_match; [done|]. by destruct (decimals fuel (n / 10)). Qed.
Lemma int_String_text n : 0 <= n -> exists ds, int_String n = text ds /\ ds <> [] /\ Forall digit ds /\ vault.of_digits 10 ds = n.
Proof.
  intros Hn. exists (decimals (S (Z.to_nat (Z.log2 n))) n). split_and!; [done | apply decimals_nonempty | |]; apply decimals_value;
    (split; [done|]; rewrite Nat2Z.inj_succ, Z2Nat.id by apply Z.log2_nonneg; destruct (decide (n = 0)) as [->|]; [done | apply Z.log2_spec; lia]).
Qed.

Lemma str_take_chars n l : str_take n (string_of_list_ascii l) = string_of_list_ascii (take n l).
Proof. revert l. induction n as [|n IH]; intros [|a l]; try done. cbn. by rewrite <- IH. Qed.
Lemma str_drop_chars n l : str_drop n (string_of_list_ascii l) = string_of_list_ascii (drop n l).
Proof. revert l. induction n as [|n IH]; intros [|a l]; try done. cbn. by rewrite <- IH. Qed.
Lemma text_app a b : text (a ++ b) = text a +:+ text b.
Proof. unfold text. rewrite fmap_app. induction (digit_char <$> a) as [|x l IH]; [done|]. cbn. by rewrite IH. Qed.
Lemma text_length ds : String.length (text ds) = List.length ds.
Proof. unfold text. by rewrite length_string_of_list_ascii, length_fmap. Qed.
Lemma text_zeros n : zeros n = text (replicate n 0).
Proof. unfold zeros, text. by rewrite fmap_replicate. Qed.
Lemma of_digits_zeros n ds : vault.of_digits 10 (replicate n 0 ++ ds) = vault.of_digits 10 ds.
Proof. unfold vault.of_digits. rewrite fold_left_app. f_equal. induction n as [|n IH]; [done|]. exact IH. Qed.

(** The shape of [fixed]. *)
Lemma fixed_text n k : 0 <= n -> (0 < k)%nat ->
  exists w f, fixed n k = text w +:+ "." +:+ text f /\ List.length f = k /\ Forall digit (w ++ f) /\ vault.of_digits 10 (w ++ f) = n.
Proof.
  intros Hn Hk. destruct (int_String_text n Hn) as (ds & Es & Hne & Hd & Hv). unfold fixed. rewrite Es.
  rewrite (proj2 (Nat.eqb_neq k 0)) by lia. rewrite text_length.
  assert (exists L, (if (List.length ds <=? k)%nat then zeros (k - List.length ds + 1) +:+ text ds else text ds) = text L /\
    Forall digit L /\ vault.of_digits 10 L = n /\ (k <= List.length L)%nat) as (L & -> & HL & HvL & Hlen).
  { destruct (List.length ds <=? k)%nat eqn:E.
    - apply Nat.leb_le in E. exists (replicate (k - List.length ds + 1) 0 ++ ds). rewrite text_app, text_zeros, of_digits_zeros, length_app, length_replicate.
      split_and!; [done | | done | lia]. apply Forall_app. split; [|done]. apply Forall_replicate. unfold digit. lia.
    - apply Nat.leb_gt in E. exists ds. split_and!; try done. lia. }
  rewrite text_length. exists (take (List.length L - k) L), (drop (List.length L - k) L). rewrite take_drop. split_and!; try done.
  - unfold text. by rewrite str_take_chars, str_drop_chars, fmap_take, fmap_drop.
  - rewrite length_drop. lia.
Qed.

Lemma text_no_point ds : Forall digit ds -> strs.contains_byte "." (text ds) = false.
Proof.
  intros Hd. unfold text. induction Hd as [|d ds Hd _ IH]; [done|]. cbn. rewrite IH, orb_false_r.
  apply Ascii.eqb_neq. intros E. apply (f_equal byte_of) in E. rewrite byte_of_digit in E by done. unfold digit in Hd. change (byte_of "."%char) with 46 in E. lia.
Qed.
Lemma point_text w f : Forall digit w -> point (text w +:+ "." +:+ text f) = (text w, Some (text f)).
Proof. intros Hw. unfold point. change "." with (String "." ""). by rewrite strs.cut_join by (by apply text_no_point). Qed.

Lemma cut_none sep t : strs.contains_byte sep t = false -> strs.cut_byte sep t = None.
Proof. induction t as [|a t IH]; [done|]. cbn. intros [-> Ht]%orb_false_iff. by rewrite IH. Qed.
Lemma string_app_nil (t : string) : t +:+ "" = t.
Proof. induction t as [|a t IH]; [done|]. change (String a (t +:+ "") = String a t). by rewrite IH. Qed.

Lemma amount_fixed n k : 0 <= n -> amount k (fixed n k) = Some n.
Proof.
  intros Hn. destruct (decide (k = 0%nat)) as [->|Hk].
  - destruct (int_String_text n Hn) as (ds & Es & _ & Hd & Hv). unfold amount, fixed. cbn [Nat.eqb]. rewrite Es. unfold point.
    rewrite cut_none by (by apply text_no_point). cbn [default from_option id]. rewrite string_app_nil. unfold text.
    by rewrite list_ascii_of_string_of_list_ascii, decimal_text, Hv.
  - destruct (fixed_text n k Hn ltac:(lia)) as (w & f & -> & Hf & Hd & Hv). unfold amount. rewrite point_text by (by apply Forall_app in Hd as [? _]).
    cbn [default from_option id]. rewrite text_length, Hf, Nat.eqb_refl, <- text_app. unfold text. by rewrite list_ascii_of_string_of_list_ascii, decimal_text, Hv.
Qed.
Lemma micro_fixed n : 0 <= n -> micro (fixed n 6) = Some n.
Proof.
  intros Hn. destruct (fixed_text n 6 Hn ltac:(lia)) as (w & f & -> & Hf & Hd & Hv). unfold micro.
  rewrite point_text by (by apply Forall_app in Hd as [? _]). cbn [default from_option id]. unfold len. rewrite text_length, Hf. cbn [Z.of_nat Z.ltb Z.compare Nat.sub].
  change (zeros 0) with "". rewrite string_app_nil, <- text_app. unfold text. rewrite list_ascii_of_string_of_list_ascii.
  assert (decimal (digit_char <$> (w ++ f)) = Some n) as E by (rewrite decimal_text by done; by rewrite Hv).
  destruct (digit_char <$> (w ++ f)) as [|a l] eqn:El; [|exact E]. by destruct w, f.
Qed.

(** ** Prices *)

Lemma digits_values l : forallb control.is_digit l = true -> exists ds, l = digit_char <$> ds /\ Forall digit ds.
Proof.
  induction l as [|a l IH]; cbn [forallb]; [by exists []|]. intros [Ha Hl]%andb_true_iff. destruct (IH Hl) as (ds & -> & Hd).
  unfold control.is_digit, control.in_range in Ha. to_prop. exists (byte_of a - 48 :: ds). split; [|constructor; [unfold digit; lia | done]].
  cbn. f_equal. unfold digit_char. replace (48 + (byte_of a - 48)) with (byte_of a) by lia. by rewrite ascii_of_byte_of.
Qed.

(** A price that the pattern accepts has a value. *)
Lemma price_micro s : pricePattern s = true -> exists n, micro s = Some n /\ 0 <= n.
Proof.
  unfold pricePattern, micro. destruct (point s) as [whole fraction]. intros [Hw Hf]%andb_true_iff.
  assert (exists ds, list_ascii_of_string whole = digit_char <$> ds /\ Forall digit ds /\ ds <> []) as (w & Ew & Hdw & Hne).
  { apply orb_true_iff in Hw as [->%String.eqb_eq|Hw]; [exists [0]; split_and!; [done | constructor; [unfold digit; lia | constructor] | done]|].
    destruct (list_ascii_of_string whole) as [|a r] eqn:E; [done|]. unfold digits in Hw. to_prop.
    destruct (digits_values (a :: r)) as (ds & Eds & Hd); [done|]. exists ds. split_and!; try done. by intros ->. }
  assert (exists ds, list_ascii_of_string (default "" fraction) = digit_char <$> ds /\ Forall digit ds /\ (List.length ds <= 6)%nat) as (f & Ef & Hdf & Hlf).
  { destruct fraction as [f|]; [|exists []; cbn; split_and!; [done | constructor | lia]]. cbn [default from_option id]. unfold digits in Hf.
    apply andb_true_iff in Hf as [[_ Hle%Nat.leb_le]%andb_true_iff Hf].
    destruct (digits_values (list_ascii_of_string f) Hf) as (ds & Eds & Hd). exists ds. split_and!; try done. apply (f_equal List.length) in Eds.
    rewrite length_fmap in Eds. by rewrite <- Eds. }
  assert (default "" fraction = text f) as Ef'. { unfold text. by rewrite <- Ef, string_of_list_ascii_of_string. }
  assert (whole = text w) as ->. { unfold text. by rewrite <- Ew, string_of_list_ascii_of_string. }
  rewrite Ef'. unfold len. rewrite text_length. destruct (6 <? Z.of_nat (List.length f)) eqn:E6; [to_prop; lia|].
  rewrite text_zeros, <- !text_app. unfold text. rewrite list_ascii_of_string_of_list_ascii. set (ds := w ++ f ++ replicate _ 0).
  assert (Forall digit ds) as Hd. { unfold ds. rewrite !Forall_app. split_and!; try done. apply Forall_replicate. unfold digit. lia. }
  exists (vault.of_digits 10 ds). split; [|apply (vault.of_digits_bound 10); [lia | exact Hd]].
  pose proof (decimal_text ds Hd) as Ed. destruct (digit_char <$> ds) as [|a l] eqn:El; [|exact Ed]. by destruct w.
Qed.

(** ** Rounding *)

(** The quotient rounded half up. *)
Definition rounds (n d q : Z) : Prop := 2 * n - d < 2 * (q * d) <= 2 * n + d.
Lemma roundQuotient_rounds n d : 0 <= n -> 0 < d -> rounds n d (roundQuotient n d) /\ 0 <= roundQuotient n d.
Proof.
  intros Hn Hd. unfold rounds, roundQuotient. rewrite Z.quot_div_nonneg, Z.rem_mod_nonneg by lia. pose proof (Z.div_mod n d ltac:(lia)).
  pose proof (Z.mod_pos_bound n d Hd). pose proof (Z.div_pos n d Hn Hd). destruct (d <=? 2 * (n mod d)) eqn:E; to_prop; nia.
Qed.

(** ** The estimate *)

(** What a profile of the report says of the input: every text is the exact
    value, in millionths, and the rounded one is rounded half up. *)
Definition profile_exact (i : CostInput) (hourly : string) (volume : Z) (p : CostProfile) (total : Z) : Prop :=
  exists price gib compute storage q,
    micro hourly = Some price /\ micro (VolumeGiBMonthly i) = Some gib /\ VolumeGiBPerHost p = volume /\
    Included p = [compute; storage] /\
    Quantity compute = Hosts p * MonthlyHours i /\ amount 6 (ExactAmount compute) = Some (price * Quantity compute) /\
    Quantity storage = Hosts p * volume /\ amount 6 (ExactAmount storage) = Some (gib * Quantity storage) /\
    total = price * Quantity compute + gib * Quantity storage /\ amount 6 (ExactSubtotal p) = Some total /\
    amount (Z.to_nat (FractionDigits i)) (RoundedSubtotal p) = Some q /\ rounds total (10 ^ (6 - FractionDigits i)) q.

Lemma costProfile_exact profile hosts cpu memory volume hourly i :
  pricePattern hourly = true -> pricePattern (VolumeGiBMonthly i) = true -> 0 <= MonthlyHours i <= 744 -> 0 <= volume <= 65536 -> 0 <= hosts <= 3 ->
  0 <= FractionDigits i <= 4 ->
  exists p total, costProfile profile hosts cpu memory volume hourly i = Some p /\ 0 <= total /\ micro (ExactSubtotal p) = Some total /\
    profile_exact i hourly volume p total /\ cProfile p = profile /\ Hosts p = hosts.
Proof.
  intros Hh Hv Hm Hvol Hho Hf. destruct (price_micro _ Hh) as (price & Ep & Hp). destruct (price_micro _ Hv) as (gib & Eg & Hg).
  unfold costProfile. rewrite Ep, Eg. cbn [mbind option_bind].
  rewrite (i64_id (hosts * MonthlyHours i)), (i64_id (hosts * volume)) by (unfold in_i64; nia).
  set (total := price * (hosts * MonthlyHours i) + gib * (hosts * volume)). assert (0 <= total) as Ht by (unfold total; nia).
  destruct (roundQuotient_rounds total (10 ^ (6 - FractionDigits i)) Ht) as [Hr Hq]; [apply Z.pow_pos_nonneg; lia|].
  eexists _, total. split_and!; [reflexivity | exact Ht | by apply micro_fixed | | done | done].
  exists price, gib. eexists _, _, _. split_and!; try done; cbn [Quantity ExactAmount ExactSubtotal RoundedSubtotal Hosts VolumeGiBPerHost]; try done;
    try (apply amount_fixed; nia).
Qed.


(** ** Reference resources *)

(** What the components of an ownership ask for, over all replicas. *)
Definition demand (f : Resource -> Z) (own : list string) (rs : list Resource) : Z :=
  foldr (fun r n => Replicas r * f r + n) 0 (List.filter (fun r => bool_decide (rOwnership r ∈ own)) rs).
Definition on_hosts : list string := ["application"; "bundled-store"].
Definition fits (p : Plan) (q : CostProfile) : Prop :=
  demand CPUMillicores on_hosts (Resources p) <= Hosts q * VCPUPerHost q * 1000 /\
  demand MemoryMiB on_hosts (Resources p) <= Hosts q * MemoryGiBPerHost q * 1024 /\
  demand StorageGiB on_hosts (Resources p) <= Hosts q * VolumeGiBPerHost q.

Lemma costProfile_hosts profile hosts cpu memory volume hourly i q : costProfile profile hosts cpu memory volume hourly i = Some q ->
  cProfile q = profile /\ Hosts q = hosts /\ VCPUPerHost q = cpu /\ MemoryGiBPerHost q = memory /\ VolumeGiBPerHost q = volume.
Proof. unfold costProfile. destruct (micro hourly); [|done]. cbn. destruct (micro _); [|done]. cbn. by intros [= <-]. Qed.
Lemma Estimate_profiles c r : Estimate c = Some (Ok r) ->
  exists s h, Profiles r = [s; h] /\ costProfile "standard-10k" 1 4 8 50 (StandardHostHourly c) c = Some s /\
    costProfile "high-scale-100k" 3 8 16 (HighWorkerVolumeGiB c) (HighWorkerHourly c) c = Some h /\ 1 <= HighWorkerVolumeGiB c.
Proof.
  unfold Estimate. destruct (cost_valid c) eqn:Ev; [|done]. cbn [negb].
  destruct (costProfile "standard-10k" _ _ _ _ _ _) as [s|]; [|done]. destruct (costProfile "high-scale-100k" _ _ _ _ _ _) as [h|]; [|done]. cbn [mbind option_bind].
  destruct (micro (ExactSubtotal s)) as [den|]; [|done]. destruct (micro (ExactSubtotal h)) as [num|]; [|done]. cbn [mbind option_bind].
  intros [= <-]. exists s, h. split_and!; [by case_match | done | done |]. unfold cost_valid in Ev. destruct (parse_year _); [|done]. to_prop. lia.
Qed.
Lemma Build_cases i p : Build i = Ok p ->
  control.Limits_Validate (Limits i) (Profile i) = Ok tt /\ control.regionPattern (RegionID i) = true /\
  1 <= ExpectedPeakVisitors i <= VisitorStateCap p /\ pInput p = i /\ Executable p = false /\ ActivationAllowed p = false /\
  ((Profile i = "standard-10k" /\ Resources p = standard_resources /\ VisitorStateCap p = 10000 /\ RateCapPerMinute p = 6000) \/
   (Profile i = "high-scale-100k" /\ Resources p = high_resources /\ VisitorStateCap p = 100000 /\ RateCapPerMinute p = 60000)).
Proof.
  unfold Build, caps. destruct (String.eqb (Profile i) "high-scale-100k") eqn:E1; [apply String.eqb_eq in E1|destruct (String.eqb (Profile i) "standard-10k") eqn:E2; [|done]].
  - rewrite E1. cbn [String.eqb Ascii.eqb]. case_match eqn:Ev; [done|]. intros [= <-]. cbn. to_prop. unfold control.Limits_Validate. cbn.
    split_and!; try done; try lia; [|by right]. repeat (rewrite (proj2 (Z.ltb_ge _ _)) by lia). done.
  - case_match eqn:Ev; [done|]. intros [= <-]. apply String.eqb_eq in E2. rewrite E2. cbn. to_prop. unfold control.Limits_Validate. cbn.
    split_and!; try done; try lia; [|by left]. repeat (rewrite (proj2 (Z.ltb_ge _ _)) by lia). done.
Qed.

Lemma Build_totp i p : Build i = Ok p ->
  tMode (Totp i) = "configurable" \/ tMode (Totp i) = "forced_on" /\ tEnabled (Totp i) = true.
Proof.
  unfold Build. destruct (caps _) as [[cap rate]|]; [|done]. case_match eqn:Ev; [done|]. intros _.
  apply orb_false_iff in Ev as [[_ E1]%orb_false_iff E2]. destruct (String.eqb_spec (tMode (Totp i)) "configurable") as [|Hc]; [by left|]. right.
  destruct (String.eqb_spec (tMode (Totp i)) "forced_on") as [Hm|]; [|done]. split; [done|]. by destruct (tEnabled (Totp i)).
Qed.

(** Plans fit. An accepted plan keeps the limits that the control plane
    checks for its profile and expects no more visitors than the profile holds;
    it is never executable; and in every cost estimate the hosts that are priced
    for its profile have the processors, the memory and the storage that its
    components ask for, leaving out what the operator provides outside. *)
Lemma plans_fit_their_hosts i p c r :
  Build i = Ok p -> Estimate c = Some (Ok r) ->
  control.Limits_Validate (Limits i) (Profile i) = Ok tt /\ 1 <= ExpectedPeakVisitors i <= VisitorStateCap p /\
  Executable p = false /\ ActivationAllowed p = false /\
  exists q, q ∈ Profiles r /\ cProfile q = Profile i /\ fits p q.
Proof.
  intros (Hl & _ & Hp & _ & He & Ha & Hcase)%Build_cases (s & h & -> & Hs & Hh & Hv)%Estimate_profiles. split_and!; try done; try lia.
  apply costProfile_hosts in Hs as (Es & Es1 & Es2 & Es3 & Es4). apply costProfile_hosts in Hh as (Eh & Eh1 & Eh2 & Eh3 & Eh4).
  destruct Hcase as [(-> & Er & _)|(-> & Er & _)]; [exists s|exists h]; (split; [set_solver|]); (split; [done|]); unfold fits; rewrite Er.
  - rewrite Es1, Es2, Es3, Es4. vm_compute. by split_and!.
  - rewrite Eh1, Eh2, Eh3, Eh4. split_and!; try (by vm_compute). change (demand StorageGiB on_hosts high_resources) with 0. lia.
Qed.

Definition wit_quote : string := String "034" "".
Definition wit_member (k v : string) : string := wit_quote +:+ k +:+ wit_quote +:+ ": " +:+ v.
Definition wit_text (v : string) : string := wit_quote +:+ v +:+ wit_quote.
(** A planning input as a document. *)
Definition wit_document : string :=
  "{" +:+ wit_member "schemaVersion" "1" +:+ "," +:+ wit_member "profile" (wit_text "standard-10k") +:+ ", " +:+ wit_member "regionId" (wit_text "local") +:+
  "," +:+ wit_member "queuePolicy" (wit_text "fifo") +:+ "," +:+ wit_member "expectedPeakVisitors" "1000" +:+ ",
  " +:+ wit_member "limits" ("{" +:+ wit_member "maxActiveAdmissionLeases" "100" +:+ "," +:+ wit_member "admissionsPerMinute" "60" +:+ "," +:+
     wit_member "admissionTtlSeconds" "900" +:+ "}") +:+ "," +:+
  wit_member "totp" ("{" +:+ wit_member "enabled" "true" +:+ "," +:+ wit_member "mode" (wit_text "configurable") +:+ "}") +:+ "}".
Definition wit_input : Input :=
  mkInput 1 "standard-10k" "local" "fifo" 1000 (control.mkLimits 100 60 900) (mkTOTP "configurable" true).
Definition wit_cost : CostInput := mkCostInput 1 "cloud" "local" "EUR" "2024-02-29" 2 730 "0.1234" "0.5" "0.045001" 100 10.

End cost.
