(* ===== verification/Setup.v ===== *)
(** * The setup of an installation: [src/internal/adminauth/pgstore/setup.go]

    Module [setup] translates the durable setup of a new installation: the
    calibration of the password parameters, the plan that the operator reviews
    and its application, all under the bootstrap token and only before the
    first administrator. The row [installation_setup] stands beside the database
    of [Publication], which knows whether the setup was applied. Readings of
    clocks, the environment and the measurement are arguments. *)

From S2P Require Import Prelude GoStd Keyring Control ConfigTrust AdminAuth Vault Password Publication DataNode Origin Accounts InstallPlan.
From stdpp Require Import base list gmap strings.
From Stdlib Require Import ZArith Lia Ascii String.

Module setup.
Import installplan pgstore accounts.
Local Open Scope Z_scope.

Definition ErrSetupConflict : error := ENamed "SETUP_CONFLICT".
(** [installplan.ErrInput]. *)
Definition ErrPlanInput : error := ENamed "INVALID_INSTALL_PLAN_INPUT".

Record SetupEnvironment := mkEnvironment {
  OS : string; Arch : string; AvailableCPUs : Z; GoParallelism : Z; Database : string; DatabaseClockDifferenceMS : Z; HostClock : string
}.
Record SetupReview := mkReview { vPlan : SetupPlan; vPlanDigest : string; vCalibrationDigest : string }.
Record SetupReport := mkReport {
  oReview : SetupReview; AppliedAt : Z; ConfigRevision : Z; oEnvironment : SetupEnvironment; CalibratedAt : Z
}.
Record SetupInspection := mkInspection { nInput : Input; nEnvironment : SetupEnvironment; nReport : option SetupReport }.

(** The row. A calibration has its digest, the generation of the bootstrap
    token and its instant; [report] and [applied_at] are null together. *)
Record calibrated := mkCalibrated { k_value : adminauth.Calibration; k_digest : string; k_generation : Z; k_at : Z }.
Record setup_row := mkSetupRow { u_iterations : Z; u_calibration : option calibrated; u_report : option SetupReport }.
Definition new_row : setup_row := mkSetupRow 2 None None.

(** [Fail], a read, or a commit of the database and the row. *)
Inductive soutcome (A : Type) := SFail (er : error) | SRead (a : A) | SCommit (db : DB) (row : setup_row) (a : A).
Arguments SFail {A} er.
Arguments SRead {A} a.
Arguments SCommit {A} db row a.

Definition set_applied (db : DB) : DB :=
  set_auth db (mkAuth (passwords db) (challenges db) (enrollments db) (policy_enrollments db) (codes db) (buckets db) (bootstrap db) (logouts db) true).

(** ** Reads *)

Definition PasswordIterations (row : setup_row) : result error Z :=
  if (u_iterations row <? 2) || (10 <? u_iterations row) then Err unavailable else Ok (u_iterations row).

(** The clocks before and after the query, and its answer; the machine. *)
Record probe := mkProbe { p_start : Z; p_now : option Z; p_end : Z; p_os : string; p_arch : string; p_cpus : Z; p_parallel : Z }.
Definition environment (p : probe) : result error SetupEnvironment :=
  match p_now p with
  | None => Err unavailable
  | Some now =>
      let offset := Z.quot (now - (p_start p + Z.quot (p_end p - p_start p) 2)) 1000000 in
      if (5000 <? offset) || (offset <? -5000) || (2 * Second <? p_end p - p_start p) then Err unavailable
      else Ok (mkEnvironment (p_os p) (p_arch p) (p_cpus p) (p_parallel p) "reachable" offset "NOT_VERIFIED")
  end.

Definition mode_text (m : adminauth.PolicyMode) : string :=
  match m with adminauth.Configurable => "configurable" | adminauth.ForcedOn => "forced_on" | adminauth.OtherMode t => t end.
Definition mode_of (s : string) : adminauth.PolicyMode :=
  if String.eqb s "configurable" then adminauth.Configurable else if String.eqb s "forced_on" then adminauth.ForcedOn else adminauth.OtherMode s.

Section service.
Context `{Sha256} `{Codec control.Config} `{Codec adminauth.Calibration} `{Codec SetupPlan}.

Definition authorize (tok : string) (t : Z) (db : DB) : result error (string * bootstrapSnapshot) :=
  match tokenHash tok with
  | None => Err unauthenticated
  | Some hash => match bootstrap_snapshot hash t db with Ok b => Ok (hash, b) | Err er => Err er end
  end.

Definition default_input (b : bootstrapSnapshot) : Input :=
  mkInput 1 "standard-10k" "local" "fifo" 1000 (control.mkLimits 100 60 900)
    (mkTOTP (mode_text (adminauth.Mode (b_policy b))) (adminauth.TOTPEnabled (b_policy b))).
Definition Inspect (tok : string) (t : Z) (p : probe) (db : DB) (row : setup_row) : result error SetupInspection :=
  match authorize tok t db with
  | Err er => Err er
  | Ok (_, b) =>
      match environment p with
      | Err er => Err er
      | Ok en => Ok (mkInspection (match u_report row with Some r => sInput (vPlan (oReview r)) | None => default_input b end) en (u_report row))
      end
  end.

(** ** Transactions *)

(** The token and the policy are checked again under the locks. *)
Definition locked (hash : string) (b : bootstrapSnapshot) (t : Z) (db : DB) : result error unit :=
  if negb (negb (bo_completed (bootstrap db)) && (bo_generation (bootstrap db) =? b_generation b) && token_valid hash t db)
  then Err unauthenticated else
  if negb (bool_decide (db_policy db = b_policy b)) then Err ErrSetupReview else Ok tt.

(** The checks of [Calibrate] before its transaction: [busy] is whether another
    calibration holds the slot, [measured] the measurement. *)
Definition calibrate_ready (row : setup_row) (busy : bool) (p : probe) (measured : result error adminauth.Calibration)
    : result error adminauth.Calibration :=
  match u_report row with
  | Some _ => Err ErrSetupConflict
  | None => if busy then Err unavailable else match environment p with Err er => Err er | Ok _ => measured end
  end.
Definition Calibrate (hash : string) (b : bootstrapSnapshot) (c : adminauth.Calibration) (t t' : Z) (db : DB) (row : setup_row)
    : soutcome (adminauth.Calibration * string) :=
  let checksum := digest (marshal c) in
  match locked hash b t db with
  | Err er => SFail er
  | Ok _ =>
      match u_report row with
      | Some _ => SFail ErrSetupConflict
      | None => SCommit db (mkSetupRow (u_iterations row) (Some (mkCalibrated c checksum (b_generation b) t')) None) (c, checksum)
      end
  end.

(** A calibration is good for 15 minutes, under its token. *)
Definition fresh_calibration (k : calibrated) (b : bootstrapSnapshot) (t t' : Z) : bool :=
  (k_generation k =? b_generation b) && (t - 15 * Minute <? k_at k) && (k_at k <=? t').
Definition calibration (b : bootstrapSnapshot) (t t' : Z) (row : setup_row) : result error (adminauth.Calibration * string) :=
  match u_calibration row with
  | Some k =>
      if negb (fresh_calibration k b t t') then Err ErrSetupReview else
      if negb (String.eqb (digest (marshal (k_value k))) (k_digest k)) then Err unavailable else Ok (k_value k, k_digest k)
  | None => Err ErrSetupReview
  end.

Definition setupReview (i : Input) (c : adminauth.Calibration) (checksum : string) : result error SetupReview :=
  match BuildSetup i c with Err _ => Err ErrPlanInput | Ok p => Ok (mkReview p (digest (marshal p)) checksum) end.

Definition relaxes (b : bootstrapSnapshot) (i : Input) : bool :=
  bool_decide (adminauth.Mode (b_policy b) = adminauth.ForcedOn) && negb (String.eqb (tMode (Totp i)) "forced_on").
Definition Plan_ (tok : string) (t : nat -> Z) (i : Input) (db : DB) (row : setup_row) : result error SetupReview :=
  match authorize tok (t 0%nat) db with
  | Err er => Err er
  | Ok (_, b) =>
      match calibration b (t 1%nat) (t 2%nat) row with
      | Err er => Err er
      | Ok (c, checksum) => if relaxes b i then Err (EAuth adminauth.ErrForbidden) else setupReview i c checksum
      end
  end.

(** The writes of an application. *)
Definition apply_config (i : Input) (c : control.Config) : control.Config :=
  control.mkConfig (control.SchemaVersion c) 1 (Profile i) (RegionID i) (control.Rooms c).
Definition apply_writes (i : SetupApply) (before : control.Config) (db : DB) : DB :=
  let config := apply_config (aInput i) before in
  let db := set_config db (1, config) in
  let d := db_delivery db in
  let db := set_delivery db (mkDeliveryRow (control.mkDelivery config (control.dRuntimes (de_document d))) (de_generation d + 1) None) in
  let p := db_policy db in
  let db := set_policy db (adminauth.mkAuthPolicy (mode_of (tMode (Totp (aInput i)))) (tEnabled (Totp (aInput i))) (adminauth.Version p + 1)) in
  set_applied (log_audit db (mkAuditRow "system:setup" "system" "installation.apply" "installation" (digest (marshal before)) (aPlanDigest i)
    "applied" (aPlanDigest i) 1)).

Definition Apply (hash : string) (b : bootstrapSnapshot) (en : SetupEnvironment) (i : SetupApply) (t : nat -> Z) (db : DB) (row : setup_row)
    : soutcome SetupReport :=
  match locked hash b (t 0%nat) db with
  | Err er => SFail er
  | Ok _ =>
      match u_report row with
      | Some r =>
          if negb (String.eqb (vPlanDigest (oReview r)) (aPlanDigest i)) || negb (String.eqb (vCalibrationDigest (oReview r)) (aCalibrationDigest i)) ||
             negb (bool_decide (sInput (vPlan (oReview r)) = aInput i)) then SFail ErrSetupConflict else SRead r
      | None =>
          match u_calibration row with
          | None => SFail ErrSetupReview
          | Some k =>
              if negb (fresh_calibration k b (t 1%nat) (t 2%nat)) || negb (String.eqb (k_digest k) (aCalibrationDigest i)) then SFail ErrSetupReview else
              if negb (String.eqb (digest (marshal (k_value k))) (k_digest k)) then SFail unavailable else
              match setupReview (aInput i) (k_value k) (k_digest k) with
              | Err er => SFail er
              | Ok review =>
                  if negb (String.eqb (vPlanDigest review) (aPlanDigest i)) then SFail ErrSetupReview else
                  if relaxes b (aInput i) then SFail (EAuth adminauth.ErrForbidden) else
                  match db_config db with
                  | None => SFail unavailable
                  | Some (revision, config) =>
                      if negb (List.length (control.rooms config) =? 0)%nat || negb (revision =? 0) then SFail ErrSetupConflict else
                      let report := mkReport review (t 3%nat) 1 en (k_at k) in
                      SCommit (apply_writes i config db) (mkSetupRow (adminauth.cIterations (k_value k)) (u_calibration row) (Some report)) report
                  end
              end
          end
      end
  end.
End service.
End setup.
