(* ===== verification/SetupProps.v ===== *)
(** * Setup and the first administrator

    The transactions of [Setup] among the requests of [AccountFlow] and the
    commands of [Publication], under any interleaving and any fault: what was
    reviewed is applied, once, and the first administrator comes after it. *)

From S2P Require Import Prelude GoStd Keyring Control ConfigTrust AdminAuth Vault Password Publication CommandProps Coordinator DataNode Origin Accounts Security AccountFlow AccountProps AccountSessions AccountCodes Json AuthHTTP AuthHistory AuthLogout InstallPlan InstallCost Setup.
From stdpp Require Import base list gmap strings sorting pretty.
From Stdlib Require Import ZArith Lia Ascii String.
Import installplan pgstore accounts security flow setup.
Local Open Scope Z_scope.

(** ** Histories with a setup *)

Record site := mkSite { x_sys : system; x_row : setup_row }.
(** The snapshot [b] that [authorize] returned may be of any earlier moment. *)
Inductive slabel :=
  | LAccount (l : label)
  | LCalibrate (hash : string) (b : bootstrapSnapshot) (c : adminauth.Calibration) (t t' : Z) (f : fault)
  | LApply (hash : string) (b : bootstrapSnapshot) (en : SetupEnvironment) (i : SetupApply) (t : nat -> Z) (f : fault).

Section setup.
Context `{Sha256} `{HmacSha256} `{adminauth.HmacSha1} `{AEAD}.
Context `{Codec control.Config} `{Codec control.Delivery} `{Codec configtrust.Snapshot} `{Codec configtrust.envelope} `{Ed25519}.
Context `{Wire} `{AccountWire} `{Codec adminauth.Calibration} `{Codec SetupPlan}.
Context (IDKey : string -> string -> Z -> string) (v : services).
Local Abbreviation yrun := (AccountProps.yrun IDKey v).
Local Abbreviation ystep := (AccountProps.ystep IDKey v).

Definition commit_setup {A} (f : fault) (o : soutcome A) (x : site) : site :=
  match f, o with
  | Broken, _ => x
  | _, SCommit db row _ => mkSite (mkSystem db (y_procs (x_sys x)) (y_log (x_sys x))) row
  | _, _ => x
  end.
Definition sstep (x : site) (l : slabel) : site :=
  match l with
  | LAccount l => mkSite (ystep (x_sys x) l) (x_row x)
  | LCalibrate hash b c t t' f => commit_setup f (Calibrate hash b c t t' (y_db (x_sys x)) (x_row x)) x
  | LApply hash b en i t f => commit_setup f (Apply hash b en i t (y_db (x_sys x)) (x_row x)) x
  end.
Definition srun (x : site) (ls : list slabel) : site := fold_left sstep ls x.
Definition new_site (db : DB) : site := mkSite (installed db) new_row.

(** ** The row *)

(** A stored report is of the plan that its input and its calibration make,
    under the digests that the operator reviewed. *)
Definition reviewed (r : SetupReport) : Prop :=
  let p := vPlan (oReview r) in
  BuildSetup (sInput p) (sCalibration p) = Ok p /\ vPlanDigest (oReview r) = digest (marshal p) /\
  vCalibrationDigest (oReview r) = digest (marshal (sCalibration p)).
Record row_ok (db : DB) (row : setup_row) : Prop := {
  ro_applied : applied db = bool_decide (is_Some (u_report row));
  ro_iterations : 2 <= u_iterations row <= 10;
  ro_report : forall r, u_report row = Some r -> reviewed r /\ u_iterations row = adminauth.cIterations (sCalibration (vPlan (oReview r)))
}.

Lemma PasswordIterations_ok db row : row_ok db row -> PasswordIterations row = Ok (u_iterations row).
Proof. intros [_ Hi _]. unfold PasswordIterations. by rewrite (proj2 (Z.ltb_ge _ 2)), (proj2 (Z.ltb_ge 10 _)) by lia. Qed.

Lemma BuildSetup_ok i c p : BuildSetup i c = Ok p -> sInput p = i /\ sCalibration p = c /\ 2 <= adminauth.cIterations c <= 10 /\
  is_ok (Build i) = true /\ Profile i = "standard-10k".
Proof.
  unfold BuildSetup. case_if as E1; [done|]. case_if as E2; [done|]. intros [= <-]. to_prop. split_and!; try done; try lia.
Qed.

(** What a committed application writes. *)
Lemma Apply_commit hash b en i t db row db' row' r : Apply hash b en i t db row = SCommit db' row' r ->
  exists k p revision config, u_report row = None /\ u_calibration row = Some k /\ BuildSetup (aInput i) (k_value k) = Ok p /\
    digest (marshal p) = aPlanDigest i /\ digest (marshal (k_value k)) = aCalibrationDigest i /\
    db_config db = Some (revision, config) /\ control.rooms config = [] /\ db' = apply_writes i config db /\
    bo_completed (bootstrap db) = false /\ no_accounts db = true /\ db_policy db = b_policy b /\ relaxes b (aInput i) = false /\
    r = mkReport (mkReview p (aPlanDigest i) (aCalibrationDigest i)) (t 3%nat) 1 en (k_at k) /\
    row' = mkSetupRow (adminauth.cIterations (k_value k)) (u_calibration row) (Some r).
Proof.
  unfold Apply. destruct (locked _ _ _ _) eqn:El; [|done]. destruct (u_report row); [by case_match|]. destruct (u_calibration row) as [k|]; [|done].
  case_if as E1; [done|]. case_if as E2; [done|]. unfold setupReview. destruct (BuildSetup _ _) as [p|] eqn:Ep; [|done]. cbn [vPlanDigest].
  case_if as E3; [done|]. case_if as E4; [done|]. destruct (db_config db) as [[revision config]|]; [|done]. case_if as E5; [done|]. intros [= <- <- <-].
  apply orb_false_iff in E5 as [E5%negb_false_iff%Nat.eqb_eq%nil_length_inv _].
  unfold locked in El. revert El. case_if as E6; [done|]. case_if as E7; [done|]. intros _. unfold token_valid in E6.
  apply negb_false_iff in E6. apply andb_true_iff in E6 as [[E6a E6b]%andb_true_iff E6c]. destruct (bo_token _) as [[h ex]|]; [|done].
  to_prop. exists k, p, revision, config. split_and!; try done; try congruence.
Qed.

Lemma Calibrate_commit hash b c t t' db row db' row' a : Calibrate hash b c t t' db row = SCommit db' row' a ->
  db' = db /\ u_report row = None /\ u_report row' = None /\ u_iterations row' = u_iterations row.
Proof. unfold Calibrate. destruct (locked _ _ _ _); [|done]. destruct (u_report row) eqn:E; [done|]. by intros [= <- <- _]. Qed.

Lemma ystep_applied y l : applied (y_db (ystep y l)) = applied (y_db y).
Proof. by destruct (ystep_moved IDKey v y l) as (tok & [(_ & _ & _ & E)|(_ & _ & E)]). Qed.

(** A step keeps the row in order, and a row with a report as it is. *)
Lemma sstep_row x l : row_ok (y_db (x_sys x)) (x_row x) ->
  row_ok (y_db (x_sys (sstep x l))) (x_row (sstep x l)) /\ (is_Some (u_report (x_row x)) -> x_row (sstep x l) = x_row x).
Proof.
  intros [Ha Hi Hr]. destruct l as [l|hash b c t t' f|hash b en i t f]; cbn [sstep].
  - split; [|done]. constructor; cbn; [by rewrite ystep_applied | done | done].
  - destruct (Calibrate _ _ _ _ _ _ _) as [er|a|db' row' a] eqn:Ec; [by destruct f.. |].
    apply Calibrate_commit in Ec as (-> & En & En' & Ei). destruct f; cbn; (split; [|rewrite En; intros [? ?]; done]);
      constructor; cbn; rewrite ?En', ?Ei, ?Ha, ?En; try done.
  - destruct (Apply _ _ _ _ _ _ _) as [er|a|db' row' a] eqn:Ec; [by destruct f.. |].
    apply Apply_commit in Ec as (k & p & revision & config & En & Ek & Ep & Ed & Edc & _ & _ & -> & _ & _ & _ & _ & -> & ->).
    destruct (BuildSetup_ok _ _ _ Ep) as (E1 & E2 & Hit & _). destruct f; cbn; (split; [|rewrite En; intros [? ?]; done]);
      constructor; cbn; try done. all: intros r [= <-]; unfold reviewed; cbn; by rewrite E1, E2.
Qed.
Lemma srun_row x ls : row_ok (y_db (x_sys x)) (x_row x) ->
  row_ok (y_db (x_sys (srun x ls))) (x_row (srun x ls)) /\ (is_Some (u_report (x_row x)) -> x_row (srun x ls) = x_row x).
Proof.
  unfold srun. revert x. induction ls as [|l ls IH]; intros x Hx; [done|]. cbn [fold_left]. destruct (sstep_row x l Hx) as [Hx' Hs].
  destruct (IH _ Hx') as [Hy Hs']. split; [done|]. intros Hr. specialize (Hs Hr). rewrite Hs', Hs; [done|]. by rewrite Hs.
Qed.
Lemma new_row_ok db : applied db = false -> row_ok (y_db (x_sys (new_site db))) (x_row (new_site db)).
Proof. intros Ha. constructor; cbn; [done | lia | done]. Qed.
Lemma srun_app x ls ls' : srun x (ls ++ ls') = srun (srun x ls) ls'.
Proof. apply fold_left_app. Qed.

(** What was reviewed is what is applied, once. In every history of an
    installation the database says that the setup was applied exactly when there
    is a report; the report is of the plan that its input and its calibration
    make, with the digests that the operator sent back, and the passwords are
    derived with the iterations of that calibration, between 2 and 10; and from
    then on neither another calibration nor another application, repeated,
    broken or lost, changes the row. *)
Lemma setup_applied_as_reviewed db ls ls' : applied db = false ->
  let x := srun (new_site db) ls in
  applied (y_db (x_sys x)) = bool_decide (is_Some (u_report (x_row x))) /\ PasswordIterations (x_row x) = Ok (u_iterations (x_row x)) /\
  forall r, u_report (x_row x) = Some r ->
    reviewed r /\ u_iterations (x_row x) = adminauth.cIterations (sCalibration (vPlan (oReview r))) /\ x_row (srun x ls') = x_row x.
Proof.
  intros Ha x. destruct (srun_row (new_site db) ls (new_row_ok db Ha)) as [Hok _]. fold x in Hok.
  split_and!; [apply Hok | by eapply PasswordIterations_ok |]. intros r Er. destruct (ro_report _ _ Hok r Er) as [Hr Hi]. split_and!; try done.
  by apply srun_row; [|rewrite Er].
Qed.

(** The region of an accepted input keeps an empty configuration valid. *)
Lemma apply_config_valid url_Parse logo_ok i config : is_ok (Build i) = true -> Profile i = "standard-10k" -> control.rooms config = [] ->
  control.Validate url_Parse logo_ok config = Ok tt -> control.Validate url_Parse logo_ok (apply_config i config) = Ok tt.
Proof.
  intros Hb Hp Hr. destruct (Build i) as [p|] eqn:Eb; [|done]. apply cost.Build_cases in Eb as (_ & Hreg & _).
  unfold control.Validate, control.rooms, apply_config in *. cbn. destruct (control.Rooms config) as [rs|]; [|done]. cbn in Hr. rewrite Hr.
  case_if as E; [done|]. intros _. rewrite Hp, Hreg. clear Hr. to_prop. case_if as E'; [|done]. exfalso. revert E'. rewrite (proj2 (Z.eqb_eq (control.SchemaVersion config) 1)) by done. by vm_compute.
Qed.
(** An accepted input has a valid policy, and keeps a forced one. *)
Lemma plan_policy_valid b i p n : Build i = Ok p -> 0 < n -> relaxes b i = false ->
  let q := adminauth.mkAuthPolicy (mode_of (tMode (Totp i))) (tEnabled (Totp i)) n in
  adminauth.Validate q = Ok tt /\ (adminauth.Mode (b_policy b) = adminauth.ForcedOn -> adminauth.Mode q = adminauth.ForcedOn /\ adminauth.TOTPEnabled q = true).
Proof.
  intros Hb Hn Hr q. unfold relaxes in Hr. subst q. unfold adminauth.Validate. cbn [adminauth.Version adminauth.Mode adminauth.TOTPEnabled].
  rewrite (proj2 (Z.eqb_neq n 0)) by lia. apply cost.Build_totp in Hb as [E|[E ->]]; rewrite E in *; cbn in *.
  - split; [done|]. intros Hf. by rewrite (bool_decide_true _ Hf) in Hr.
  - by split.
Qed.

(** An application does what the plan says, and leaves the installation
    valid. A committed application needs the bootstrap token and an installation
    without accounts, rooms or an earlier report. It gives the configuration the
    profile and the region of the plan at revision 1, valid if it was valid;
    asks for a new publication of exactly that configuration; sets the policy of
    second factors that the plan says, valid, under the next version, and never
    relaxes a forced one; and leaves accounts, factors, tokens and sessions
    alone. *)
Lemma setup_applies_the_plan url_Parse logo_ok hash b en i t db row db' row' r revision config :
  Apply hash b en i t db row = SCommit db' row' r ->
  db_config db = Some (revision, config) -> control.Validate url_Parse logo_ok config = Ok tt -> 0 < adminauth.Version (db_policy db) ->
  no_accounts db = true /\ bo_completed (bootstrap db) = false /\ u_report row = None /\ u_report row' = Some r /\
  (exists config', db_config db' = Some (1, config') /\ control.Validate url_Parse logo_ok config' = Ok tt /\
    control.Revision config' = 1 /\ control.Profile config' = "standard-10k" /\ control.RegionID config' = RegionID (aInput i) /\ control.rooms config' = [] /\
    de_generation (db_delivery db') = de_generation (db_delivery db) + 1 /\ de_publication (db_delivery db') = None /\
    control.dConfig (de_document (db_delivery db')) = config') /\
  db_policy db' = adminauth.mkAuthPolicy (mode_of (tMode (Totp (aInput i)))) (tEnabled (Totp (aInput i))) (adminauth.Version (db_policy db) + 1) /\
  adminauth.Validate (db_policy db') = Ok tt /\
  (adminauth.Mode (db_policy db) = adminauth.ForcedOn -> adminauth.Mode (db_policy db') = adminauth.ForcedOn /\ adminauth.TOTPEnabled (db_policy db') = true) /\
  (db_accounts db', db_totp db', db_sessions db', passwords db', bootstrap db') = (db_accounts db, db_totp db, db_sessions db, passwords db, bootstrap db).
Proof.
  intros (k & p & revision' & config' & En & _ & Ep & _ & _ & Ec & Er & -> & Hbo & Hno & Hpol & Hrel & -> & ->)%Apply_commit Ec' Hv Hn.
  rewrite Ec in Ec'. injection Ec' as -> ->. destruct (BuildSetup_ok _ _ _ Ep) as (_ & _ & _ & Hok & Hprof).
  destruct (Build (aInput i)) as [bp|] eqn:Eb; [|done].
  destruct (plan_policy_valid b _ bp (adminauth.Version (db_policy db) + 1) Eb ltac:(lia) Hrel) as [Hval Hf]. rewrite <- Hpol in Hf.
  split_and!; try done. exists (apply_config (aInput i) config). split_and!; try done. apply apply_config_valid; by rewrite ?Eb.
Qed.

(** ** The first administrator *)

Definition finishing (st : stage) : bool := match st with SBootstrap_finish _ _ _ _ => true | _ => false end.
(** With a setup, an administrator, or a bootstrap about to finish, comes after
    the application. *)
Record crew_ok (y : system) : Prop := {
  co_accounts : db_accounts (y_db y) <> ∅ -> applied (y_db y) = true;
  co_done : bo_completed (bootstrap (y_db y)) = true -> applied (y_db y) = true;
  co_procs : map_Forall (fun _ st => finishing st = true -> applied (y_db y) = true) (y_procs y)
}.

Lemma finishing_after st e db st' : accounts.installation (v_login v) = true ->
  landed (flow.next IDKey v st e db) = Some st' -> finishing st' = true -> applied db = true.
Proof.
  intros Hin. destruct st; cbn [flow.next]; unfold create_command; intros Hl; try (apply landed_map in Hl as [x ->]); try done.
  all: try (by destruct x).
  - injection Hl as <-. unfold login_verified. repeat case_match; done.
  - unfold recover_matched. by case_match.
  - unfold begun. by repeat case_match.
  - unfold enroll_prepared. by repeat case_match.
  - by case_match.
  - destruct (bootstrap_snapshot _ _ _); [|done]. injection Hl as <-. by rewrite Hin.
  - unfold setupApplied in Hl. destruct (t_applied (db_auth db)) eqn:E; [|done]. by intros _.
  - destruct (create_check _ _ _ _ _ _ _) as [[]|]; [| |done]; injection Hl as <-; [by case_match | done].
  - destruct (enrollment_bound _ _ _ _ _ _); [|done]. destruct (NewEnrollmentService _ _ _ _); [|done]. injection Hl as <-. by destruct verify.
  - destruct (loadSession _ _ _); [|done]. by injection Hl as <-.
  - destruct (reauth_check _ _ _ _ _ _); [|done]. injection Hl as <-. by repeat case_match.
  - injection Hl as <-. unfold reauth_verified. by repeat case_match.
  - by injection Hl as <-.
Qed.
Lemma proved_first st e db db' st' user h : EFirst user h ∈ proved v st e db db' st' -> finishing st = true.
Proof.
  destruct st; cbn [proved]; try (by intros ?%elem_of_nil); try done; unfold code_event; repeat case_match; set_solver.
Qed.

(** A transaction keeps the order of things. *)
Lemma next_crew st e db db' st' :
  flow.next IDKey v st e db = Commit db' st' -> applied db' = applied db /\
  ((db_accounts db <> ∅ -> applied db = true) -> (bo_completed (bootstrap db) = true -> applied db = true) -> (finishing st = true -> applied db = true) ->
   (db_accounts db' <> ∅ -> applied db = true) /\ (bo_completed (bootstrap db') = true -> applied db = true)).
Proof.
  intros Hn. split; [by apply next_moved in Hn as (_ & _ & ?)|]. intros Ha Hb Hf. pose proof (proved_first st e db db' st') as Hp.
  apply next_spends in Hn. destruct Hn as [log E _|ref n m by_ h _ E|ref n kid sealed hashes cs a by_ h _ _ _ _ E|ref slot stored code by_ h r _ _ E|
    id a a' log Hid _ _ E _|id a log _ Hd E _|id a h _ _ _ E].
  1, 2, 3, 4: injection E as E1 _ _ E2; by rewrite E1, E2.
  - assert (db_accounts db <> ∅) as Hne by (intros Hx; by rewrite Hx, lookup_empty in Hid).
    destruct E as [E|E]; injection E as _ _ _ E2; rewrite E2; auto.
  - auto.
  - assert (applied db = true) as Happ by (by apply Hf, (Hp id h); left). auto.
Qed.

Lemma crew_done y : applied (y_db y) = true -> crew_ok y.
Proof. intros Ha. constructor; [done | done |]. by intros k st _ _. Qed.
(** Before the application nothing happens that has to come after it. *)
Lemma advance_crew f st e db : accounts.installation (v_login v) = true -> applied db = false ->
  db_accounts db = ∅ -> bo_completed (bootstrap db) = false -> finishing st = false ->
  let x := advance IDKey v f st e db in
  db_accounts (fst x) = ∅ /\ bo_completed (bootstrap (fst x)) = false /\ finishing (snd x) = false.
Proof.
  intros Hin Ha Hac Hbo Hst. pose proof (next_crew st e db) as Hn. pose proof (finishing_after st e db) as Hfi.
  assert (finishing (broken st) = false) as Hbr by (by destruct st). unfold advance. rewrite Ha in Hn, Hfi.
  assert (forall st', landed (flow.next IDKey v st e db) = Some st' -> finishing st' = false) as Hl.
  { intros st' Hl. destruct (finishing st') eqn:E; [|done]. by rewrite <- (Hfi st' Hin Hl E). }
  destruct (flow.next IDKey v st e db) as [er|st'|db' st']; cbn [landed] in Hl; [by destruct f | destruct f; cbn; auto |].
  destruct (Hn db' st' eq_refl) as [_ Hk]. rewrite Hac, Hbo, Hst in Hk. destruct (Hk ltac:(done) ltac:(done) ltac:(done)) as [H1' H2'].
  assert (db_accounts db' = ∅) as Hac' by (destruct (decide (db_accounts db' = ∅)) as [|Hx]; [done | by specialize (H1' Hx)]).
  assert (bo_completed (bootstrap db') = false) as Hbo' by (destruct (bo_completed (bootstrap db')); [by specialize (H2' eq_refl) | done]).
  destruct f; cbn; auto.
Qed.

Lemma ystep_crew y l : accounts.installation (v_login v) = true -> crew_ok y -> crew_ok (ystep y l).
Proof.
  intros Hin Hc. pose proof (ystep_applied y l) as Hap. destruct (applied (y_db y)) eqn:Ea; [by apply crew_done|].
  destruct Hc as [Ha Hb Hp]. rewrite Ea in Ha, Hb, Hp.
  assert (db_accounts (y_db y) = ∅) as Hac by (destruct (decide (db_accounts (y_db y) = ∅)) as [|Hx]; [done | by specialize (Ha Hx)]).
  assert (bo_completed (bootstrap (y_db y)) = false) as Hbo by (destruct (bo_completed (bootstrap (y_db y))); [by specialize (Hb eq_refl) | done]).
  destruct l as [id q e|id e f|s o f]; cbn [AccountProps.ystep] in *.
  - destruct (y_procs y !! id) eqn:E; [constructor; by rewrite Ea|]. constructor; cbn; rewrite Ea; [done | by rewrite Hbo |].
    apply map_Forall_insert_2; [|done]. destruct q; cbn [start]; by repeat case_match.
  - destruct (y_procs y !! id) as [st|] eqn:E; [|constructor; by rewrite Ea].
    assert (finishing st = false) as Hst by (destruct (finishing st) eqn:Ef; [by specialize (Hp id st E Ef) | done]).
    pose proof (advance_crew f st e (y_db y) Hin Ea Hac Hbo Hst) as Hx. destruct (advance _ _ _ _ _ _) as [db' st']. destruct Hx as (H1' & H2' & H3').
    constructor; cbn in *; rewrite ?Hap; [by rewrite H1' | by rewrite H2' |]. apply map_Forall_insert_2; [by rewrite H3' | done].
  - pose proof (pexec_quiet s o f (y_db y)) as [[= _ E1 _ E2] _ _]. constructor; cbn in *; rewrite ?Hap; [by rewrite E1 | unfold bootstrap in *; by rewrite E2, Hbo | done].
Qed.
Lemma sstep_crew x l : accounts.installation (v_login v) = true -> crew_ok (x_sys x) -> crew_ok (x_sys (sstep x l)).
Proof.
  intros Hin Hc. destruct l as [l|hash b c t t' f|hash b en i t f]; cbn [sstep]; [by apply ystep_crew| |].
  - destruct (Calibrate _ _ _ _ _ _ _) as [er|a|db' row' a] eqn:Ec; [by destruct f.. |]. apply Calibrate_commit in Ec as (-> & _).
    destruct Hc as [Ha Hb Hp]. destruct f; by constructor.
  - destruct (Apply _ _ _ _ _ _ _) as [er|a|db' row' a] eqn:Ec; [by destruct f.. |].
    apply Apply_commit in Ec as (k & p & revision & config & _ & _ & _ & _ & _ & _ & _ & -> & _). destruct f; cbn; [by apply crew_done | done | by apply crew_done].
Qed.

(** C18: The first administrator comes after the setup. In an installation with
    a setup, whatever requests interleave and fail, there is an account, or a
    bootstrap that was completed, only once the reviewed plan was applied; and
    from then on the accounts live with its password parameters. *)
Theorem administrators_follow_setup db ls : accounts.installation (v_login v) = true -> uninhabited db -> applied db = false ->
  let x := srun (new_site db) ls in
  db_accounts (y_db (x_sys x)) <> ∅ \/ bo_completed (bootstrap (y_db (x_sys x))) = true ->
  exists r, u_report (x_row x) = Some r /\ reviewed r /\ forall ls', x_row (srun x ls') = x_row x.
Proof.
  intros Hin Hu Ha x Hx.
  assert (crew_ok (x_sys x)) as [Hac Hbo _].
  { assert (forall ls y, crew_ok (x_sys y) -> crew_ok (x_sys (srun y ls))) as Hrun.
    { clear -Hin. intros ls. unfold srun. induction ls as [|l ls IH]; intros y Hy; [done|]. cbn. by apply IH, sstep_crew. }
    apply Hrun. constructor; cbn; [by rewrite (f_accounts _ Hu) | by rewrite (f_bootstrap _ Hu) | done]. }
  destruct (srun_row (new_site db) ls (new_row_ok db Ha)) as [Hrow _]. fold x in Hrow.
  assert (applied (y_db (x_sys x)) = true) as Happ by tauto. rewrite (ro_applied _ _ Hrow) in Happ. apply bool_decide_eq_true in Happ as [r Er].
  exists r. split_and!; [done | by apply (ro_report _ _ Hrow) |]. intros ls'. by apply srun_row; [|rewrite Er].
Qed.
End setup.
