(* ===== verification/SetupHTTP.v ===== *)
(** * The setup endpoint: [src/internal/adminauth/authhttp/setup.go]

    Module [setuphttp] translates the handler through which the operator of a
    new installation inspects, calibrates, plans and applies the setup, over a
    backend. The second half puts the services of [Setup] behind it, inside the
    histories of [SetupProps]: every call is cut where the service waits, and
    anything may happen in between. *)

From S2P Require Import Prelude GoStd Keyring Control ConfigTrust AdminAuth Vault Password Publication CommandProps Coordinator DataNode Origin Accounts Security AccountFlow AccountProps AccountSessions AccountCodes Json AuthHTTP AuthHistory AuthLogout InstallPlan InstallCost Setup SetupProps.
From stdpp Require Import base list gmap strings fin_sets.
From Stdlib Require Import ZArith Lia Ascii String.

Module setuphttp.
Import installplan pgstore accounts http setup.
Local Open Scope Z_scope.

Definition path_inspect : string := "/api/admin/v1/setup/inspect".
Definition path_calibrate : string := "/api/admin/v1/setup/calibrate".
Definition path_plan : string := "/api/admin/v1/setup/plan".
Definition path_apply : string := "/api/admin/v1/setup/apply".

(** [NewSetup] keeps the origin and its host. *)
Record SetupHandler := mkSetupHandler { origin_ : string; host : string }.
Definition NewSetup (origin : string) : SetupHandler :=
  mkSetupHandler origin (if strs.HasPrefix origin "https://" then str_drop 8 origin else origin).

(** A reply: a problem, or the document that a call answers. *)
Inductive document :=
  | Inspected (i : SetupInspection) | Calibrated (c : adminauth.Calibration) (checksum : string) | Reviewed (r : SetupReview) | Applied (r : SetupReport).
Inductive reply := Refused (r : Reply) | Document (d : document).

(** The peer, when the connection is local at both ends and the request names
    this endpoint. *)
Definition local_peer (h : SetupHandler) (r : Request) : option origin.Addr :=
  match Peer r, Local_ r with
  | Some peer, Some l =>
      if negb (String.eqb (origin.Zone peer) "") || negb (authhttp.loopback peer) || negb (String.eqb (origin.Zone l) "") || negb (authhttp.loopback l) ||
         negb (TLS r) || negb (String.eqb (Host r) (host h)) then None else Some (origin.Unmap peer)
  | _, _ => None
  end.

Section handler.
Context `{Mime} `{Codec jvalue}.

Definition boundary (h : SetupHandler) (r : Request) : result Reply origin.Addr :=
  let path := Path r in
  if negb (bool_decide (path ∈ [path_inspect; path_calibrate; path_plan; path_apply])) then Err (problem 404 "NOT_FOUND") else
  if negb (String.eqb (Method r) "POST") then Err (allow "POST") else
  match local_peer h r with
  | None => Err (problem 403 "FORBIDDEN")
  | Some peer =>
      if negb (String.eqb (EscapedPath r) path) || negb (String.eqb (RawQuery r) "") || ForceQuery r then Err (problem 400 "INVALID_REQUEST") else
      if negb (count r "Origin" =? 1)%nat || negb (String.eqb (Get r "Origin") (origin_ h)) || negb (count r "X-WR-Auth" =? 1)%nat ||
         negb (String.eqb (Get r "X-WR-Auth") "1") || negb (authhttp.fetch_site r) then Err (problem 403 "FORBIDDEN") else
      if negb (count r "Cookie" =? 0)%nat || negb (count r "Authorization" =? 0)%nat || negb (count r "X-CSRF-Token" =? 0)%nat ||
         negb (count r "X-Bootstrap-Token" =? 1)%nat || negb (authhttp.opaque (Get r "X-Bootstrap-Token")) then Err (problem 401 "UNAUTHENTICATED") else
      if negb (count r "Content-Type" =? 1)%nat || negb (count r "Content-Encoding" =? 0)%nat || negb (authhttp.json_body r)
      then Err (problem 415 "INVALID_REQUEST") else Ok peer
  end.

(** The body, between setting and clearing the read deadline. *)
Definition body (c : authhttp.conn) (r : Request) : result Reply string :=
  if negb (authhttp.deadline_set c) then Err (problem 503 "AUTH_UNAVAILABLE") else
  match Body r with
  | None => Err (problem 400 "INVALID_REQUEST")
  | Some b =>
      match read (S MaxInputBytes) b with
      | Err _ => Err (problem 400 "INVALID_REQUEST")
      | Ok raw =>
          if (MaxInputBytes <? String.length raw)%nat then Err (problem 400 "INVALID_REQUEST") else
          if negb (authhttp.deadline_cleared c) then Err (problem 503 "AUTH_UNAVAILABLE") else Ok raw
      end
  end.

(** [SetupBackend], and the reservation of [Backend]. *)
Class SetupBackend (W : Type) := {
  Reserve_ : origin.Addr -> W -> W * result error unit;
  Inspect_ : string -> W -> W * result error SetupInspection;
  Calibrate_ : string -> W -> W * result error (adminauth.Calibration * string);
  Plan__ : string -> Input -> W -> W * result error SetupReview;
  Apply_ : string -> SetupApply -> W -> W * result error SetupReport
}.
Context {W : Type} `{SetupBackend W}.

Definition answered {A} (f : A -> document) (p : W * result error A) : W * result error document :=
  (fst p, match snd p with Ok a => Ok (f a) | Err er => Err er end).
(** The switch over the paths: a refusal of the body, or the call. *)
Definition dispatch (path token raw : string) (w : W) : result Reply (W * result error document) :=
  if bool_decide (path ∈ [path_inspect; path_calibrate]) then
    match authhttp.object raw [] with
    | None => Err (problem 400 "INVALID_REQUEST")
    | Some _ =>
        Ok (if String.eqb path path_inspect then answered Inspected (Inspect_ token w)
            else answered (fun x => Calibrated (fst x) (snd x)) (Calibrate_ token w))
    end
  else if String.eqb path path_plan then
    Ok (match Decode (Ok raw) with Err _ => (w, Err ErrPlanInput) | Ok i => answered Reviewed (Plan__ token i w) end)
  else
    Ok (match DecodeSetupApply (Ok raw) with Err _ => (w, Err ErrPlanInput) | Ok i => answered Applied (Apply_ token i w) end).

Definition failed (er : error) : Reply :=
  if named er ErrPlanInput then problem 400 "INVALID_REQUEST" else
  if named er ErrSetupConflict then problem 409 "SETUP_CONFLICT" else
  if named er ErrSetupReview then problem 412 "SETUP_REVIEW_REQUIRED" else authhttp.fail er.

Definition ServeHTTP (h : SetupHandler) (c : authhttp.conn) (r : Request) (w : W) : W * reply :=
  match boundary h r with
  | Err e => (w, Refused e)
  | Ok peer =>
      let '(w, x) := Reserve_ peer w in
      match x with
      | Err er => (w, Refused (authhttp.fail er))
      | Ok _ =>
          match body c r with
          | Err e => (w, Refused e)
          | Ok raw =>
              match dispatch (Path r) (Get r "X-Bootstrap-Token") raw w with
              | Err e => (w, Refused e)
              | Ok (w, Err er) => (w, Refused (failed er))
              | Ok (w, Ok d) => (w, Document d)
              end
          end
      end
  end.

(** ** A reply with a report *)

(** What every answered request has. *)
Record local_request (h : SetupHandler) (r : Request) : Prop := {
  lr_peer : exists peer, Peer r = Some peer /\ authhttp.loopback peer = true;
  lr_local : exists l, Local_ r = Some l /\ authhttp.loopback l = true;
  lr_tls : TLS r = true /\ Host r = host h;
  lr_origin : Values r "Origin" = [origin_ h];
  lr_token : exists t, Values r "X-Bootstrap-Token" = [t] /\ authhttp.opaque t = true;
  lr_alone : Values r "Cookie" = [] /\ Values r "Authorization" = []
}.
Lemma count_get r k : (count r k =? 1)%nat = true -> Values r k = [Get r k].
Proof. unfold count, Get, Values, adminauth.Get. destruct (adminauth.Header _ _) as [|a [|? ?]]; done. Qed.
Lemma count_nil r k : (count r k =? 0)%nat = true -> Values r k = [].
Proof. unfold count. by destruct (Values r k). Qed.
Lemma boundary_local h r peer : boundary h r = Ok peer -> local_request h r.
Proof.
  unfold boundary. case_if as E1; [done|]. case_if as E2; [done|]. destruct (local_peer h r) as [p|] eqn:El; [|done]. case_if as E3; [done|].
  case_if as E4; [done|]. case_if as E5; [done|]. intros _. unfold local_peer in El. destruct (Peer r) as [pe|] eqn:Epe, (Local_ r) as [l|] eqn:Elo; try done.
  revert El. case_if as E6; [done|]. intros _.
  apply orb_false_iff in E4 as [[[[E4a%negb_false_iff E4b]%orb_false_iff _]%orb_false_iff _]%orb_false_iff _].
  apply orb_false_iff in E5 as [[[[E5a%negb_false_iff E5b%negb_false_iff]%orb_false_iff _]%orb_false_iff E5c%negb_false_iff]%orb_false_iff E5d].
  apply count_get in E4a, E5c. apply count_nil in E5a, E5b. to_prop.
  constructor; [by exists pe | by exists l | done | | | done].
  - rewrite E4a. congruence.
  - eexists. by split.
Qed.
Lemma ServeHTTP_applied h c r w w' rep : ServeHTTP h c r w = (w', Document (Applied rep)) ->
  local_request h r /\ Path r = path_apply /\ exists peer raw i w1, Reserve_ peer w = (w1, Ok tt) /\ body c r = Ok raw /\
    DecodeSetupApply (Ok raw) = Ok i /\ Apply_ (Get r "X-Bootstrap-Token") i w1 = (w', Ok rep).
Proof.
  unfold ServeHTTP. destruct (boundary h r) as [peer|] eqn:Eb; [|done]. destruct (Reserve_ peer w) as [w1 [[]|]] eqn:Er; [|done].
  destruct (body c r) as [raw|] eqn:Ebo; [|done]. intros Hs. pose proof (boundary_local _ _ _ Eb) as Hl. split; [done|].
  assert (Path r ∈ [path_inspect; path_calibrate; path_plan; path_apply]) as Hp.
  { revert Eb. unfold boundary. case_if as E; [done|]. intros _. by to_prop. }
  revert Hs. unfold dispatch. case_if as E1.
  - destruct (authhttp.object raw []); [|done]. unfold answered.
    case_if as E2; [destruct (Inspect_ _ _) as [? []] | destruct (Calibrate_ _ _) as [? []]]; done.
  - case_if as E2.
    + destruct (Decode _); [|done]. unfold answered. by destruct (Plan__ _ _ _) as [? []].
    + destruct (DecodeSetupApply _) as [i|] eqn:Ei; [|done]. unfold answered. destruct (Apply_ _ _ _) as [w2 [rep'|]] eqn:Ea; [|done].
      cbn. intros [= -> ->]. apply bool_decide_eq_false in E1. apply String.eqb_neq in E2. split; [set_solver|]. by exists peer, raw, i, w1.
Qed.
End handler.
End setuphttp.

(** ** Over the histories of a setup *)

Import installplan pgstore accounts security flow http setup.
Local Open Scope Z_scope.

(** What happens around the calls of one request: before and during the
    reservation; before and after the authorization; and the readings, the
    measurement and the faults that they meet. *)
Record schedule := mkSchedule {
  d_first : list slabel; d_env : env; d_then : list slabel; d_env' : env; d_fault : fault;
  d_before : list slabel; d_time : Z; d_probe : probe; d_busy : bool; d_measured : result error adminauth.Calibration;
  d_between : list slabel; d_times : nat -> Z; d_fault' : fault
}.
Record operator := mkOperator { op_site : site; op_plan : schedule }.

Section history.
Context `{Sha256} `{HmacSha256} `{adminauth.HmacSha1} `{AEAD}.
Context `{Codec control.Config} `{Codec control.Delivery} `{Codec configtrust.Snapshot} `{Codec configtrust.envelope} `{Ed25519}.
Context `{Wire} `{AccountWire} `{Codec adminauth.Calibration} `{Codec SetupPlan} `{Codec jvalue} `{Mime}.
Context (IDKey : string -> string -> Z -> string) (v : services).
Local Abbreviation srun := (SetupProps.srun IDKey v).
Local Abbreviation sstep := (SetupProps.sstep IDKey v).

(** What a transaction answers: a commit that is lost looks like a failure. *)
Definition reported {A} (f : fault) (o : soutcome A) : result error A :=
  match f, o with
  | Broken, _ | Lost, SCommit _ _ _ => Err unavailable
  | _, SFail er => Err er
  | _, SRead a | _, SCommit _ _ a => Ok a
  end.
Definition at_site (w : operator) (x : site) : operator := mkOperator x (op_plan w).

Definition reserve (peer : origin.Addr) (w : operator) : operator * result error unit :=
  let d := op_plan w in
  let x := srun (op_site w) (d_first d) in
  let id := fresh (dom (y_procs (x_sys x))) in
  let x := srun x (LAccount (LStart id (ReserveHTTP peer) (d_env d)) :: d_then d ++ [LAccount (LStep id (d_env' d) (d_fault d))]) in
  (at_site w x, match finished (x_sys x) id with Some (Ok AUnit) => Ok tt | Some (Err er) => Err er | _ => Err unavailable end).
(** The authorization of a call, and the database that it is read from. *)
Definition authorized {A} (tok : string) (w : operator) (call : string -> bootstrapSnapshot -> site -> site * result error A) : operator * result error A :=
  let d := op_plan w in
  let x := srun (op_site w) (d_before d) in
  match authorize tok (d_time d) (y_db (x_sys x)) with
  | Err er => (at_site w x, Err er)
  | Ok (hash, b) => let '(x, a) := call hash b x in (at_site w x, a)
  end.
#[export] Instance SetupServiceBackend : setuphttp.SetupBackend operator := {|
  setuphttp.Reserve_ := reserve;
  setuphttp.Inspect_ tok w :=
    let d := op_plan w in
    let x := srun (op_site w) (d_before d) in
    let x' := srun x (d_between d) in (at_site w x', Inspect tok (d_time d) (d_probe d) (y_db (x_sys x)) (x_row x'));
  setuphttp.Calibrate_ tok w :=
    let d := op_plan w in
    authorized tok w (fun hash b x =>
      match calibrate_ready (x_row x) (d_busy d) (d_probe d) (d_measured d) with
      | Err er => (x, Err er)
      | Ok c =>
          let x := srun x (d_between d) in
          (sstep x (LCalibrate hash b c (d_times d 0) (d_times d 1) (d_fault' d)),
           reported (d_fault' d) (Calibrate hash b c (d_times d 0) (d_times d 1) (y_db (x_sys x)) (x_row x)))
      end);
  setuphttp.Plan__ tok i w :=
    let d := op_plan w in
    let x := srun (op_site w) (d_before d) in
    let x' := srun x (d_between d) in
    (at_site w x', Plan_ tok (fun n => match n with O => d_time d | S n => d_times d n end) i (y_db (x_sys x)) (x_row x'));
  setuphttp.Apply_ tok i w :=
    let d := op_plan w in
    authorized tok w (fun hash b x =>
      match environment (d_probe d) with
      | Err er => (x, Err er)
      | Ok en =>
          let x := srun x (d_between d) in
          (sstep x (LApply hash b en i (d_times d) (d_fault' d)),
           reported (d_fault' d) (Apply hash b en i (d_times d) (y_db (x_sys x)) (x_row x)))
      end)
|}.

(** A report that is answered is the one of the row, for the request. *)
Definition reports (i : SetupApply) (row : setup_row) (rep : SetupReport) : Prop :=
  u_report row = Some rep /\ sInput (vPlan (oReview rep)) = aInput i /\ vPlanDigest (oReview rep) = aPlanDigest i /\
  vCalibrationDigest (oReview rep) = aCalibrationDigest i.
Lemma Apply_reported x hash b en i t f rep :
  reported f (Apply hash b en i t (y_db (x_sys x)) (x_row x)) = Ok rep -> reports i (x_row (sstep x (LApply hash b en i t f))) rep.
Proof.
  destruct (Apply hash b en i t (y_db (x_sys x)) (x_row x)) as [er|a|db' row' a] eqn:Ea; cbn [SetupProps.sstep]; rewrite Ea.
  - by destruct f.
  - intros Hf. assert (a = rep) as -> by (by destruct f; simplify_eq/=). assert (commit_setup f (@SRead SetupReport rep) x = x) as -> by (by destruct f).
    unfold Apply in Ea. destruct (locked _ _ _ _); [|done]. destruct (u_report (x_row x)) as [r|] eqn:Er.
    + revert Ea. case_if as E; [done|]. intros [= <-]. to_prop. by split_and!.
    + exfalso. revert Ea. repeat (case_match; try done).
  - pose proof Ea as (k & p & revision & config & _ & _ & Hb & Hd & _ & _ & _ & _ & _ & _ & _ & _ & -> & ->)%Apply_commit.
    destruct f; [|done..]. intros [= <-]. cbn. destruct (BuildSetup_ok _ _ _ Hb) as (Hi & _). by split_and!.
Qed.

Lemma reserve_at peer w w1 a : reserve peer w = (w1, a) -> exists ls, w1 = at_site w (srun (op_site w) ls).
Proof. unfold reserve. intros E. apply (f_equal fst) in E. cbn [fst] in E. subst w1. eexists. by rewrite <- srun_app. Qed.
Lemma authorized_at {A} tok w call w' (a : A) : authorized tok w call = (w', Ok a) ->
  exists hash b, let x := srun (op_site w) (d_before (op_plan w)) in
    authorize tok (d_time (op_plan w)) (y_db (x_sys x)) = Ok (hash, b) /\ call hash b x = (op_site w', Ok a).
Proof.
  unfold authorized. destruct (authorize _ _ _) as [[hash b]|] eqn:E; [|done]. destruct (call hash b _) as [x' a'] eqn:Ec. intros [= <- ->].
  exists hash, b. cbn. by rewrite Ec.
Qed.

End history.
