(* ===== verification/SetupExample.v ===== *)
(** * The setup of a concrete installation

    The operator of an empty installation issues the bootstrap token, measures
    the password parameters, reviews a plan and applies it through the endpoint,
    loses the answer and repeats the request; then the first administrator
    bootstraps. The witnesses of the theorems on setups run on it. *)

From S2P Require Import Prelude GoStd Keyring Control ConfigTrust AdminAuth Vault Password Publication PublicationExample CommandProps Coordinator DataNode Origin Accounts Security AccountFlow AccountProps AccountExample Json AuthHTTP AuthHistory AuthLogout AuthExample InstallPlan InstallCost Setup SetupProps SetupHTTP.
From stdpp Require Import base list gmap strings pretty.
From Stdlib Require Import ZArith Lia Ascii String.
Import installplan pgstore example accounts security flow http accountexample setup.
Local Open Scope Z_scope.

Module setupexample.

(** ** Stand-ins *)

(** The text of a plan names what the operator chooses. *)
#[local] Instance sx_calibration_codec : Codec adminauth.Calibration :=
  {| marshal c := "{calibration " +:+ pretty (adminauth.cIterations c) +:+ "}"; GoStd.decode _ := None |}.
#[local] Instance sx_plan_codec : Codec SetupPlan :=
  {| marshal p := "{plan " +:+ RegionID (sInput p) +:+ " " +:+ pretty (adminauth.cIterations (sCalibration p)) +:+ "}"; GoStd.decode _ := None |}.
(** The compact text of a tree without escapes. *)
Fixpoint compact (v : jvalue) : string :=
  match v with
  | JString s => cost.wit_text s
  | JNumber s => s
  | JBool b => if b then "true" else "false"
  | JObject m =>
      "{" +:+ (fix go (first : bool) (m : list (string * jvalue)) : string :=
        match m with
        | [] => "}"
        | (k, v) :: m => (if first then "" else ",") +:+ cost.wit_member k (compact v) +:+ go false m
        end) true m
  end.
#[local] Instance sx_tree_codec : Codec jvalue := {| marshal := compact; GoStd.decode _ := None |}.
#[local] Instance sx_mime : Mime :=
  fun s => if String.eqb s "application/json" then Some ("application/json", ∅) else None.

Definition sx_services : services :=
  mkServices (mkLogin ax_store (Some password.wit_hasher) "fingerprint" true) (mkEnrollment ax_store (Some password.wit_hasher) "totp-v1" false)
    (mkSessions ax_store "https://admin.example") (mkSecurity ex_service ax_login "totp-v1").

(** ** An empty installation *)

Definition sx_config : control.Config := control.mkConfig 1 0 "standard-10k" "unset" (Some []).
Definition sx_db : DB :=
  mkDB (adminauth.mkAuthPolicy adminauth.Configurable true 1) ∅ ∅ ∅ ∅ (Some (0, sx_config)) ∅ []
    (mkDeliveryRow (control.mkDelivery sx_config []) 0 None) ∅ ∅ ∅ (mkAuth ∅ ∅ ∅ ∅ ∅ ∅ (mkBootstrapRow false 0 None) ∅ false).
Lemma sx_uninhabited : uninhabited sx_db.
Proof. by constructor. Qed.

Definition sx_calibration : adminauth.Calibration := adminauth.mkCalibration 1 password.PasswordMemoryKiB 1 4 true [].
Definition sx_probe (s : Z) : probe := mkProbe (at_ s) (Some (at_ s)) (at_ s) "linux" "amd64" 4 4.
Definition sx_environment : SetupEnvironment := mkEnvironment "linux" "amd64" 4 4 "reachable" 0 "NOT_VERIFIED".
Definition sx_token : string := token_at 1001.
Definition sx_hash : string := default "" (tokenHash sx_token).
Definition sx_before : bootstrapSnapshot := mkBootstrapSnapshot 1 (adminauth.mkAuthPolicy adminauth.Configurable true 1).
Definition sx_review : SetupApply :=
  mkSetupApply cost.wit_input (digest "{plan local 4}") (digest "{calibration 4}").
Definition sx_times (s : Z) (n : nat) : Z := at_ s + Z.of_nat n.

Definition sx_calibrated : list slabel := [
  LAccount (start_at 0 IssueToken 1000); LAccount (step_at 0 1001 tokens_only);
  LCalibrate sx_hash sx_before sx_calibration (at_ 1010) (at_ 1011) NoFault ].
Definition sx_applied : list slabel := sx_calibrated ++ [
  LApply sx_hash sx_before sx_environment sx_review (sx_times 1100) Lost;
  LAccount (start_at 1 (Bootstrap sx_token "admin" password.wit_password loopback) 1110) ].
Definition sx_bootstrapped : list slabel := sx_applied ++ [
  LAccount (step_at 1 1111 tokens_only); LAccount (step_at 1 1112 salted); LAccount (step_at 1 1113 tokens_only) ].
Local Abbreviation sx_site ls := (srun password.wit_IDKey sx_services (new_site sx_db) ls).

(** The answer of the application was lost; the page asks again, and meanwhile
    another administrator's bootstrap waits. *)
Definition sx_body : string :=
  "{" +:+ cost.wit_member "input" cost.wit_document +:+ ", " +:+ cost.wit_member "planDigest" (cost.wit_text (aPlanDigest sx_review)) +:+ "," +:+
  cost.wit_member "calibrationDigest" (cost.wit_text (aCalibrationDigest sx_review)) +:+ "}".
Definition sx_request : Request :=
  authexample.hx_request setuphttp.path_apply
    [("Origin", "https://admin.example"); ("X-WR-Auth", "1"); ("X-Bootstrap-Token", sx_token); ("Content-Type", "application/json")] sx_body.
Definition sx_handler : setuphttp.SetupHandler := setuphttp.NewSetup "https://admin.example".
Definition sx_schedule : schedule :=
  mkSchedule [LAccount (step_at 1 1111 tokens_only)] (ax_env 1120 tokens_only) [] (ax_env 1121 tokens_only) NoFault [] (at_ 1122) (sx_probe 1123) false (Err unavailable)
    [LCalibrate sx_hash sx_before sx_calibration (at_ 1124) (at_ 1125) NoFault] (sx_times 1126) NoFault.
Local Abbreviation sx_served :=
  (setuphttp.ServeHTTP (H1 := SetupServiceBackend password.wit_IDKey sx_services) sx_handler authexample.hx_conn sx_request (mkOperator (sx_site sx_applied) sx_schedule)).

(** ** Witnesses *)

Definition sx_report : SetupReport :=
  match u_report (x_row (sx_site sx_applied)) with
  | Some r => r
  | None => mkReport (mkReview (mkSetupPlan 0 "" cost.wit_input sx_calibration "" "" [] []) "" "") 0 0 sx_environment 0
  end.

Lemma administrators_follow_setup_witness :
  db_accounts (y_db (x_sys (sx_site sx_applied))) = ∅ /\ bo_completed (bootstrap (y_db (x_sys (sx_site sx_bootstrapped)))) = true /\
  exists r, u_report (x_row (sx_site sx_bootstrapped)) = Some r /\ reviewed r.
Proof.
  split; [vm_compute; reflexivity|].
  assert (bo_completed (bootstrap (y_db (x_sys (sx_site sx_bootstrapped)))) = true) as Hb by (vm_compute; reflexivity).
  split; [exact Hb|].
  destruct (administrators_follow_setup password.wit_IDKey sx_services sx_db sx_bootstrapped eq_refl sx_uninhabited eq_refl (or_intror Hb)) as (r & Hr & Hv & _).
  exists r. exact (conj Hr Hv).
Defined.

End setupexample.
