(* ===== verification/Preflight.v ===== *)
(** * Preflight: [src/internal/installplan/preflight/preflight.go]

    Module [preflight] translates the policy over collected evidence: which
    checks a plan needs, when evidence is fresh, and which results block an
    activation. Instants are nanoseconds; a zero [time.Time] is [zero_time]. *)

From S2P Require Import Prelude GoStd Control AdminAuth Vault Publication Accounts Json InstallPlan InstallCost.
From stdpp Require Import base list gmap strings.
From Stdlib Require Import ZArith Lia Ascii String.

Module preflight.
Import installplan.
Local Open Scope Z_scope.

Definition Second : Z := pgstore.Second.
Definition Minute : Z := 60 * Second.
Definition Millisecond : Z := 1000000.
Definition zero_time : Z := accounts.zero_time.
(** [Time.Sub] saturates at the bounds of a duration. *)
Definition Sub (t u : Z) : Z := Z.max (- 2 ^ 63) (Z.min (2 ^ 63 - 1) (t - u)).

(** A collector may report any text as a status. *)
Inductive Status := Pass | Warn | Fail | Unverified | NotDue | NotApplicable | Other (text : string).
#[global] Instance Status_eq_dec : EqDecision Status.
Proof. solve_decision. Defined.
Definition MaxEvidenceAge : Z := Minute.

Record Stamp := mkStamp { PlanDigest : string; ArtifactDigest : string; ObservedAt : Z }.
Record ClockEvidence := mkClock { kStamp : Stamp; kMethod : string; SourceDigest : string; Offset : Z; Synchronized : bool }.
Record StoreEvidence := mkStore {
  sStamp : Stamp; TLS : Status; Authentication : Status; Role : Status; ReadWrite : Status; ConnectionSwitch : Status
}.
Record OriginEvidence := mkOrigin { oStamp : Stamp; ActiveProbe : Status }.
Record Replicas := mkReplicas { Desired : Z; Ready : Z }.
Record EventSnapshot := mkSnapshot {
  eStamp : Stamp; EventDigest : string; Gateway : Replicas; Coordinator : Replicas; Control : Replicas; ValkeyP95RTT : Z; RTTSamples : Z
}.
Record Event := mkEvent { vDigest : string; AdmitAt : Z; PreScale : option EventSnapshot; Readiness : option EventSnapshot }.
Record Observations := mkObservations {
  Clock : option ClockEvidence; PostgreSQL : option StoreEvidence; Valkey : option StoreEvidence; Origin : option OriginEvidence;
  HARecordAcknowledged : bool; Event_ : option Event
}.
Record Check_ := mkCheck {
  ID : string; cStatus : Status; Code : string; BlocksActivation : bool; Evidence : option Stamp; ClockMethod : string; ClockSourceDigest : string;
  ClockOffsetNanos : option Z
}.
Record Report := mkReport {
  rSchemaVersion : Z; Scope_ : string; rPlanDigest : string; EvaluatedAt : Z; Checks : list Check_; HasBlockingChecks : bool;
  rActivationAllowed : bool; rQualification : string
}.
(** [^[a-f0-9]{64}$], as in the setup plan. *)
Definition digestPattern : string -> bool := setupDigestPattern.

(** ** Checks *)

Definition check (id : string) (status : Status) (code : string) (s : option Stamp) : Check_ :=
  mkCheck id status code (bool_decide (status ∈ [Fail; Unverified; NotDue])) s "" "" None.

Definition fresh (s : Stamp) (planDigest : string) (at_ : Z) : bool :=
  String.eqb (PlanDigest s) planDigest && digestPattern (ArtifactDigest s) && negb (ObservedAt s =? zero_time) &&
  negb (at_ <? ObservedAt s) && (Sub at_ (ObservedAt s) <=? MaxEvidenceAge).

Definition clock (planDigest : string) (now : Z) (e : option ClockEvidence) : Check_ :=
  let invalid := check "clock" Unverified "CLOCK_EVIDENCE_MISSING_OR_INVALID" None in
  match e with
  | None => invalid
  | Some e =>
      if negb (fresh (kStamp e) planDigest now) || negb (digestPattern (SourceDigest e)) ||
         (negb (String.eqb (kMethod e) "chrony") && negb (String.eqb (kMethod e) "ntp") && negb (String.eqb (kMethod e) "platform-time-service"))
      then invalid else
      let '(status, code) :=
        if negb (Synchronized e) then (Fail, "CLOCK_NOT_SYNCHRONIZED") else
        if (5 * Second <? Offset e) || (Offset e <? -5 * Second) then (Fail, "CLOCK_OFFSET_EXCEEDS_5_SECONDS") else
        if (2 * Second <? Offset e) || (Offset e <? -2 * Second) then (Warn, "CLOCK_OFFSET_EXCEEDS_2_SECONDS")
        else (Pass, "CLOCK_WITHIN_RECOMMENDATION") in
      let c := check "clock" status code (Some (kStamp e)) in
      mkCheck (ID c) (cStatus c) (Code c) (BlocksActivation c) (Evidence c) (kMethod e) (SourceDigest e) (Some (Offset e))
  end.

Definition probe (id : string) (status : Status) (s : Stamp) : Check_ :=
  match status with
  | Pass => check id Pass "PROBE_PASSED_NOT_HA_PROOF" (Some s)
  | Fail => check id Fail "PROBE_FAILED" (Some s)
  | _ => check id Unverified "PROBE_NOT_VERIFIED" (Some s)
  end.

(** The loop over the statuses, from [status]: it stops at a failure. *)
Fixpoint worst (status : Status) (l : list Status) : Status :=
  match l with
  | [] => status
  | s :: l => if bool_decide (s = Fail) then Fail else worst (if bool_decide (s = Pass) then status else Unverified) l
  end.
Definition store (id planDigest : string) (now : Z) (e : option StoreEvidence) (high : bool) : Check_ :=
  match e with
  | None => check id Unverified "STORE_EVIDENCE_MISSING_OR_INVALID" None
  | Some e =>
      if negb (fresh (sStamp e) planDigest now) then check id Unverified "STORE_EVIDENCE_MISSING_OR_INVALID" None else
      let statuses := [Authentication e; Role e; ReadWrite e] ++ (if high then [TLS e; ConnectionSwitch e] else []) in
      probe id (worst Pass statuses) (sStamp e)
  end.

Definition invalid_replicas (r : Replicas) : bool := (Desired r <? 0) || (Ready r <? 0) || (Desired r <? Ready r).
(** The verdict on a sample that was there at the deadline. *)
Definition sample (id : string) (s : EventSnapshot) (ready : bool) : Check_ :=
  let g := Gateway s in let c := Coordinator s in let k := Control s in
  if existsb invalid_replicas [g; c; k] then check id Fail "INVALID_REPLICA_COUNTS" (Some (eStamp s)) else
  if (Desired g <? 8) || (12 <? Desired g) || (Desired c <? 4) || (8 <? Desired c) || negb (Desired k =? 2) || (Ready g <? 8) || (Ready c <? 4)
  then check id Fail "PRESCALE_TARGET_NOT_AVAILABLE" (Some (eStamp s)) else
  if ready && (negb (Ready g =? Desired g) || negb (Ready c =? Desired c) || negb (Ready k =? Desired k))
  then check id Fail "ROLLOUT_NOT_ALL_READY" (Some (eStamp s)) else
  if ready && ((RTTSamples s <? 1) || (ValkeyP95RTT s <=? 0)) then check id Unverified "RTT_MEASUREMENT_REQUIRED" (Some (eStamp s)) else
  if ready && (2 * Millisecond <=? ValkeyP95RTT s) then check id Fail "VALKEY_P95_RTT_NOT_BELOW_2MS" (Some (eStamp s)) else
  check id Pass "CHECKPOINT_SAMPLE_PASSED_NOT_LIVE_APPROVAL" (Some (eStamp s)).
Definition checkpoint (id : string) (lead : Z) (snapshot : option EventSnapshot) (planDigest : string) (now : Z) (event : Event) (ready : bool) : Check_ :=
  if (AdmitAt event =? zero_time) || negb (digestPattern (vDigest event)) then check id Fail "INVALID_EVENT_CONTEXT" None else
  let deadline := AdmitAt event - lead in
  if now <? deadline then check id NotDue "CHECKPOINT_NOT_DUE_NO_APPROVAL" None else
  match snapshot with
  | None => check id Unverified "CHECKPOINT_EVIDENCE_MISSING" None
  | Some s =>
      if negb (String.eqb (EventDigest s) (vDigest event)) || negb (fresh (eStamp s) planDigest deadline)
      then check id Fail "CHECKPOINT_EVIDENCE_LATE_STALE_OR_MISMATCHED" None else sample id s ready
  end.
Definition eventCheckpoint (planDigest : string) (now : Z) (event : Event) (ready : bool) : Check_ :=
  if ready then checkpoint "event-readiness" (5 * Minute) (Readiness event) planDigest now event ready
  else checkpoint "event-prescale" (10 * Minute) (PreScale event) planDigest now event ready.

Section evaluate.
Context `{Sha256} `{Codec Plan}.

Definition origin_check (planDigest : string) (now : Z) (e : option OriginEvidence) : Check_ :=
  match e with
  | Some e => if fresh (oStamp e) planDigest now then probe "origin-protection" (ActiveProbe e) (oStamp e)
              else check "origin-protection" Unverified "NO_CURRENT_ACTIVE_PROBE" None
  | None => check "origin-protection" Unverified "NO_CURRENT_ACTIVE_PROBE" None
  end.
Definition scale_checks (high : bool) (planDigest : string) (now : Z) (o : Observations) : list Check_ :=
  if high then
    check "ha-record" (if HARecordAcknowledged o then Warn else Unverified)
      (if HARecordAcknowledged o then "OPERATOR_ACK_ONLY_NOT_HA_PROOF" else "HA_OPERATOR_RECORD_MISSING") None ::
    match Event_ o with
    | None => [check "event-prescale" Unverified "EVENT_CONTEXT_REQUIRED" None; check "event-readiness" Unverified "EVENT_CONTEXT_REQUIRED" None]
    | Some v => [eventCheckpoint planDigest now v false; eventCheckpoint planDigest now v true]
    end
  else
    [check "ha-record" NotApplicable "STANDARD_IS_NOT_HA" None; check "event-prescale" NotApplicable "HIGH_SCALE_CHECK_ONLY" None;
     check "event-readiness" NotApplicable "HIGH_SCALE_CHECK_ONLY" None].

Definition bound (plan : Input) (planDigest : string) (now : Z) : bool :=
  match Digest plan with
  | Err _ => false
  | Ok expected => digestPattern planDigest && String.eqb expected planDigest && negb (now =? zero_time)
  end.
Definition Evaluate (plan : Input) (planDigest : string) (now : Z) (o : Observations) : Report :=
  let report digest checks blocking := mkReport 1 "offline-preflight-policy-only" digest now checks blocking false "NOT_RUN" in
  if negb (bound plan planDigest now) then report "" [check "input" Fail "INVALID_PREFLIGHT_CONTEXT" None] true else
  let high := String.eqb (Profile plan) "high-scale-100k" in
  let checks := [clock planDigest now (Clock o); store "postgresql" planDigest now (PostgreSQL o) high; store "valkey" planDigest now (Valkey o) high;
                 origin_check planDigest now (Origin o)] ++ scale_checks high planDigest now o in
  report planDigest checks (existsb BlocksActivation checks).

(** ** What clears a plan *)

(** Evidence of the last minute before [t], bound to the plan. *)
Definition recent (s : Stamp) (d : string) (t : Z) : Prop :=
  PlanDigest s = d /\ digestPattern (ArtifactDigest s) = true /\ ObservedAt s <> zero_time /\ ObservedAt s <= t <= ObservedAt s + Minute.
Definition clock_good (d : string) (t : Z) (e : ClockEvidence) : Prop :=
  recent (kStamp e) d t /\ digestPattern (SourceDigest e) = true /\ kMethod e ∈ ["chrony"; "ntp"; "platform-time-service"] /\
  Synchronized e = true /\ - (5 * Second) <= Offset e <= 5 * Second.
Definition store_good (high : bool) (d : string) (t : Z) (e : StoreEvidence) : Prop :=
  recent (sStamp e) d t /\ Authentication e = Pass /\ Role e = Pass /\ ReadWrite e = Pass /\ (high = true -> TLS e = Pass /\ ConnectionSwitch e = Pass).
Definition between (lo hi : Z) (r : Replicas) : Prop := lo <= Desired r <= hi /\ lo <= Ready r <= Desired r.
(** A sample of the minute before the deadline, of this event. *)
Definition checkpoint_good (d : string) (v : Event) (lead : Z) (s : EventSnapshot) : Prop :=
  EventDigest s = vDigest v /\ recent (eStamp s) d (AdmitAt v - lead) /\ between 8 12 (Gateway s) /\ between 4 8 (Coordinator s) /\
  Desired (Control s) = 2 /\ 0 <= Ready (Control s) <= 2.
Definition all_ready (s : EventSnapshot) : Prop :=
  Ready (Gateway s) = Desired (Gateway s) /\ Ready (Coordinator s) = Desired (Coordinator s) /\ Ready (Control s) = Desired (Control s) /\
  1 <= RTTSamples s /\ 0 < ValkeyP95RTT s < 2 * Millisecond.
Definition event_good (d : string) (now : Z) (v : Event) : Prop :=
  AdmitAt v <> zero_time /\ digestPattern (vDigest v) = true /\ AdmitAt v - 5 * Minute <= now /\
  (exists s, PreScale v = Some s /\ checkpoint_good d v (10 * Minute) s) /\
  (exists s, Readiness v = Some s /\ checkpoint_good d v (5 * Minute) s /\ all_ready s).
Record cleared (plan : Input) (d : string) (now : Z) (o : Observations) : Prop := {
  cl_plan : Digest plan = Ok d /\ digestPattern d = true /\ now <> zero_time;
  cl_clock : exists e, Clock o = Some e /\ clock_good d now e;
  cl_stores : forall sel, sel ∈ [PostgreSQL; Valkey] -> exists e, sel o = Some e /\ store_good (String.eqb (Profile plan) "high-scale-100k") d now e;
  cl_origin : exists e, Origin o = Some e /\ recent (oStamp e) d now /\ ActiveProbe e = Pass;
  cl_scale : Profile plan = "high-scale-100k" -> HARecordAcknowledged o = true /\ exists v, Event_ o = Some v /\ event_good d now v
}.

Lemma fresh_recent s d t : fresh s d t = true <-> recent s d t.
Proof.
  unfold fresh, recent, Sub, MaxEvidenceAge, Minute, Second, pgstore.Second. rewrite !andb_true_iff, !negb_true_iff, String.eqb_eq, Z.eqb_neq, Z.ltb_ge, Z.leb_le.
  split; intros; destruct_and?; split_and?; try done; lia.
Qed.
Lemma blocks_check id st code s : BlocksActivation (check id st code s) = false <-> st ∉ [Fail; Unverified; NotDue].
Proof. cbn. by rewrite bool_decide_eq_false. Qed.
Lemma probe_blocks id st s : BlocksActivation (probe id st s) = false <-> st = Pass.
Proof. destruct st; cbn; split; done. Qed.
Lemma worst_pass st l : worst st l = Pass <-> st = Pass /\ Forall (eq Pass) l.
Proof.
  revert st. induction l as [|s l IH]; intros st; cbn; [by rewrite Forall_nil; intuition|].
  rewrite Forall_cons. case_bool_decide as Ef; [subst s; naive_solver|]. rewrite IH. case_bool_decide as Ep; [subst s; naive_solver|]. naive_solver.
Qed.

Lemma clock_blocks d t e : BlocksActivation (clock d t e) = false <-> exists x, e = Some x /\ clock_good d t x.
Proof.
  destruct e as [e|]; [|cbn; naive_solver]. transitivity (clock_good d t e); [|naive_solver]. unfold clock, clock_good. rewrite <- fresh_recent.
  assert (kMethod e ∈ ["chrony"; "ntp"; "platform-time-service"] <->
    negb (String.eqb (kMethod e) "chrony") && negb (String.eqb (kMethod e) "ntp") && negb (String.eqb (kMethod e) "platform-time-service") = false) as ->.
  { rewrite !elem_of_cons, elem_of_nil. destruct (String.eqb_spec (kMethod e) "chrony"), (String.eqb_spec (kMethod e) "ntp"),
      (String.eqb_spec (kMethod e) "platform-time-service"); cbn; naive_solver. }
  destruct (fresh (kStamp e) d t), (digestPattern (SourceDigest e)); cbn [negb orb]; [|cbn; naive_solver..].
  destruct (negb _ && _ && _); [cbn; naive_solver|]. destruct (Synchronized e); cbn [negb]; [|cbn; naive_solver].
  destruct (Z.ltb_spec (5 * Second) (Offset e)), (Z.ltb_spec (Offset e) (-5 * Second)); cbn [orb]; try (cbn; split; [done|]; intros; destruct_and?; lia).
  destruct (_ || _); cbn; split; intros; split_and?; try done; lia.
Qed.
Lemma store_blocks id d t e high : BlocksActivation (store id d t e high) = false <-> exists x, e = Some x /\ store_good high d t x.
Proof.
  destruct e as [e|]; [|cbn; naive_solver]. transitivity (store_good high d t e); [|naive_solver]. unfold store, store_good. rewrite <- fresh_recent.
  destruct (fresh (sStamp e) d t); cbn [negb]; [|cbn; naive_solver]. rewrite probe_blocks, worst_pass. destruct high; cbn [app].
  all: rewrite !Forall_cons, ?Forall_nil; naive_solver.
Qed.
Lemma origin_blocks d t e : BlocksActivation (origin_check d t e) = false <-> exists x, e = Some x /\ recent (oStamp x) d t /\ ActiveProbe x = Pass.
Proof.
  destruct e as [e|]; [|cbn; naive_solver]. unfold origin_check. case_if as E.
  - rewrite probe_blocks. apply fresh_recent in E. naive_solver.
  - split; [cbn; done|]. intros (x & [= <-] & Hr & _). apply fresh_recent in Hr. congruence.
Qed.

Lemma sample_blocks id s ready d v lead :
  EventDigest s = vDigest v -> recent (eStamp s) d (AdmitAt v - lead) ->
  BlocksActivation (sample id s ready) = false <-> checkpoint_good d v lead s /\ (ready = true -> all_ready s).
Proof.
  intros He Hr. unfold sample, checkpoint_good, all_ready, between, invalid_replicas. cbn [existsb].
  destruct (Gateway s) as [gd gr], (Coordinator s) as [cd cr], (Control s) as [kd kr]; cbn [Desired Ready].
  case_match eqn:E1; [rewrite !orb_true_iff, !Z.ltb_lt in E1; cbn; split; [done|]; intros; destruct_and?; lia|].
  case_match eqn:E2; [rewrite !orb_true_iff, negb_true_iff, !Z.ltb_lt, Z.eqb_neq in E2; cbn; split; [done|]; intros; destruct_and?; lia|].
  rewrite !orb_false_iff, !Z.ltb_ge in E1. rewrite !orb_false_iff, negb_false_iff, !Z.ltb_ge, Z.eqb_eq in E2. destruct_and?.
  destruct ready; cbn [andb]; [|cbn; split; [intros _; split; [split_and!; try done; lia | done] | done]].
  case_match eqn:E3; [rewrite !orb_true_iff, !negb_true_iff, !Z.eqb_neq in E3; cbn; split; [done|]; intros [_ Ha]; specialize (Ha eq_refl); destruct_and?; lia|].
  case_match eqn:E4; [rewrite orb_true_iff, Z.ltb_lt, Z.leb_le in E4; cbn; split; [done|]; intros [_ Ha]; specialize (Ha eq_refl); destruct_and?; lia|].
  case_match eqn:E5; [rewrite Z.leb_le in E5; split; [cbn; done|]; intros [_ Ha]; specialize (Ha eq_refl); destruct_and?; lia|].
  rewrite !orb_false_iff, !negb_false_iff, !Z.eqb_eq in E3. rewrite orb_false_iff, Z.ltb_ge, Z.leb_gt in E4. rewrite Z.leb_gt in E5. destruct_and?.
  cbn. split; [|done]. intros _. split; [split_and!; try done; lia|]. intros _. split_and!; try done; lia.
Qed.
Lemma checkpoint_blocks id lead sn d now v ready :
  BlocksActivation (checkpoint id lead sn d now v ready) = false <->
  AdmitAt v <> zero_time /\ digestPattern (vDigest v) = true /\ AdmitAt v - lead <= now /\
  exists s, sn = Some s /\ checkpoint_good d v lead s /\ (ready = true -> all_ready s).
Proof.
  unfold checkpoint. destruct (Z.eqb_spec (AdmitAt v) zero_time); [cbn; naive_solver|]. destruct (digestPattern (vDigest v)); cbn [negb orb]; [|cbn; naive_solver].
  destruct (Z.ltb_spec now (AdmitAt v - lead)); [cbn; split; [done|]; intros; destruct_and?; lia|].
  destruct sn as [s|]; [|cbn; naive_solver]. case_match eqn:E.
  - split; [cbn; done|]. intros (_ & _ & _ & s' & [= <-] & (E1 & E2 & _) & _). apply fresh_recent in E2. by rewrite E1, String.eqb_refl, E2 in E.
  - apply orb_false_iff in E as [E1%negb_false_iff%String.eqb_eq E2%negb_false_iff%fresh_recent]. rewrite (sample_blocks id s ready d v lead) by done. naive_solver.
Qed.
Lemma scale_blocks high d now o :
  existsb BlocksActivation (scale_checks high d now o) = false <->
  (high = true -> HARecordAcknowledged o = true /\ exists v, Event_ o = Some v /\ event_good d now v).
Proof.
  destruct high; cbn [scale_checks existsb]; [|by split]. rewrite orb_false_iff.
  transitivity (HARecordAcknowledged o = true /\ exists v, Event_ o = Some v /\ event_good d now v); [|naive_solver].
  apply Morphisms_Prop.and_iff_morphism; [by destruct (HARecordAcknowledged o)|]. destruct (Event_ o) as [v|]; [|cbn; naive_solver].
  cbn [existsb]. rewrite !orb_false_iff. unfold eventCheckpoint, event_good. rewrite !checkpoint_blocks.
  assert (0 < Minute) by done. split.
  - intros ((H1' & H2' & H3' & Hp) & (_ & _ & H4' & Hr) & _). destruct Hp as (s & Es & Hs & _), Hr as (s' & Es' & Hs' & Ha). exists v. split_and!; eauto.
  - intros (v' & [= <-] & H1' & H2' & H3' & (s & Es & Hs) & (s' & Es' & Hs' & Ha)). split_and!; try done; try lia; eexists; naive_solver.
Qed.
Lemma bound_digest plan d now : bound plan d now = true <-> Digest plan = Ok d /\ digestPattern d = true /\ now <> zero_time.
Proof.
  unfold bound. destruct (Digest plan) as [x|]; [|naive_solver]. rewrite !andb_true_iff, negb_true_iff, String.eqb_eq, Z.eqb_neq. naive_solver.
Qed.

(** C24: The preflight blocks exactly until everything is proved. A report has
    no blocking check exactly when the digest is the plan's and there is, for
    each check of the profile, evidence of the last minute bound to this plan
    that is good: a synchronized clock within five seconds, both stores and the
    origin probe passed, and for the high-scale profile the operator's record
    and the samples of the event taken in the minute before each of its
    deadlines, ten and five minutes ahead, with every replica ready at the
    second. It never allows an activation by itself; and the verdict on a
    deadline that has passed is final: a later sample or a later evaluation of
    the same evidence cannot change it. *)
Theorem preflight_blocks_until_proved plan d now o :
  (HasBlockingChecks (Evaluate plan d now o) = false <-> cleared plan d now o) /\
  rActivationAllowed (Evaluate plan d now o) = false /\
  (forall v ready now', AdmitAt v - (if ready : bool then 5 * Minute else 10 * Minute) <= now <= now' ->
    eventCheckpoint d now' v ready = eventCheckpoint d now v ready).
Proof.
  split_and!; [|by unfold Evaluate; case_match|].
  - unfold Evaluate. destruct (bound plan d now) eqn:Eb; cbn [negb].
    + apply bound_digest in Eb. cbn [HasBlockingChecks]. rewrite existsb_app, orb_false_iff, scale_blocks, String.eqb_eq.
      cbn [existsb]. rewrite !orb_false_iff, clock_blocks, !store_blocks, origin_blocks. split.
      * intros ((Hc & Hp & Hv & Ho & _) & Hs). constructor; try done. by intros sel [->|[->|[]%elem_of_nil]%elem_of_cons]%elem_of_cons.
      * intros [_ Hc Hst Ho Hs]. split_and!; try done; apply Hst; set_solver.
    + split; [cbn; done|]. intros [Hp%bound_digest _ _ _ _]. congruence.
  - intros v ready now' Hn. unfold eventCheckpoint, checkpoint. destruct ready; by rewrite !(proj2 (Z.ltb_ge _ _)) by lia.
Qed.
End evaluate.

(** ** A cleared event *)

#[local] Instance wit_sha : Sha256 := fun _ => "0123456789abcdef0123456789abcdef".
#[local] Instance wit_codec : Codec Plan := {| marshal p := Deployment p; GoStd.decode _ := None |}.
Definition wit_plan : Input := mkInput 1 "high-scale-100k" "seoul" "fifo" 80000 (control.mkLimits 5000 3000 900) (mkTOTP "forced_on" true).
Definition wit_digest : string := hex_EncodeToString (sha256 "").
Definition wit_at (seconds : Z) : Stamp := mkStamp wit_digest wit_digest (seconds * Second).
Definition wit_stores : StoreEvidence := mkStore (wit_at 7170) Pass Pass Pass Pass Pass.
Definition wit_sample (seconds : Z) : EventSnapshot :=
  mkSnapshot (wit_at seconds) wit_digest (mkReplicas 8 8) (mkReplicas 4 4) (mkReplicas 2 2) (Millisecond + 1) 100.
(** The event admits at two hours; the samples are of its deadlines. *)
Definition wit_observations : Observations :=
  mkObservations (Some (mkClock (wit_at 7180) "chrony" wit_digest (3 * Second) true)) (Some wit_stores) (Some wit_stores) (Some (mkOrigin (wit_at 7140) Pass)) true
    (Some (mkEvent wit_digest (7200 * Second) (Some (wit_sample 6590)) (Some (wit_sample 6900)))).
Lemma preflight_blocks_until_proved_witness :
  HasBlockingChecks (Evaluate wit_plan wit_digest (7200 * Second) wit_observations) = false /\
  cleared wit_plan wit_digest (7200 * Second) wit_observations /\ ~ cleared wit_plan wit_digest (7201 * Second) wit_observations.
Proof.
  assert (HasBlockingChecks (Evaluate wit_plan wit_digest (7200 * Second) wit_observations) = false) as Hb by (vm_compute; reflexivity).
  split; [exact Hb|]. split.
  - exact (proj1 (proj1 (preflight_blocks_until_proved wit_plan wit_digest (7200 * Second) wit_observations)) Hb).
  - intros Hc. apply (proj2 (proj1 (preflight_blocks_until_proved wit_plan wit_digest (7201 * Second) wit_observations))) in Hc. vm_compute in Hc. discriminate Hc.
Defined.
End preflight.
