(* ===== verification/RecoveryArchive.v ===== *)
(** * Cold backups: [src/internal/recoveryarchive/archive.go]

    Module [recoveryarchive] translates the creation, the verification and the
    restoration of the archive of an installation's volumes, over a file system
    whose operations can fail at any point. The process is the helper that
    [installer/backup.go] starts: user 0 with the capabilities CHOWN and
    DAC_OVERRIDE and no others, so that it may change the mode of its own files
    only. [archive/tar] is a class: the entries that its reader finds in a file,
    and the file that its writer makes of entries. *)

From S2P Require Import Prelude GoStd Control InstallPlan.
From stdpp Require Import base list gmap strings sorting.
From Stdlib Require Import ZArith Lia Ascii String.

(** ** File systems *)

Module files.
Local Open Scope Z_scope.

(** A path is the list of its elements. *)
Abbreviation path := (list string).
Record meta := mkMeta { Perm : Z; Uid : Z; Gid : Z }.
(** [Special] is a link or a device. *)
Inductive node := Dir (m : meta) | File (m : meta) (content : string) | Special.
Abbreviation FS := (@gmap (list string) (@list_eq_dec string String.eq_dec) (@list_countable string String.eq_dec String.countable) node).
#[global] Instance meta_eq_dec : EqDecision meta.
Proof. solve_decision. Defined.
#[global] Instance node_eq_dec : EqDecision node.
Proof. solve_decision. Defined.

Definition is_dir (n : node) : bool := match n with Dir _ => true | _ => false end.
(** The directory that holds a path. *)
Definition parent (p : path) : path := take (pred (List.length p)) p.
Definition in_dir (fs : FS) (p : path) : bool := match fs !! parent p with Some (Dir _) => true | _ => false end.
Definition name_leb (a b : string) : Prop := String.leb a b = true.
#[global] Instance name_leb_dec a b : Decision (name_leb a b).
Proof. unfold name_leb. apply _. Defined.
(** [os.ReadDir]: the names of a directory, sorted. *)
Definition child (p q : path) : option string := if decide (parent q = p /\ q <> []) then last q else None.
Definition ReadDir (fs : FS) (p : path) : list string := merge_sort name_leb (omap (child p) (map_to_list fs).*1).

(** [path.Clean], element by element; [out] is reversed. *)
Fixpoint clean (rooted : bool) (out : path) (l : list string) : path :=
  match l with
  | [] => out
  | c :: l =>
      if String.eqb c "" || String.eqb c "." then clean rooted out l else
      if String.eqb c ".." then
        match out with
        | x :: out' => if String.eqb x ".." then clean rooted (".." :: out) l else clean rooted out' l
        | [] => clean rooted (if rooted then [] else [".."]) l
        end
      else clean rooted (c :: out) l
  end.
Definition elements (s : string) : list string := strs.split_byte "/" s.
Definition join (l : list string) : string := String.concat "/" l.
Definition IsAbs (s : string) : bool := strs.HasPrefix s "/".
Definition Clean (s : string) : string :=
  let c := join (rev (clean (IsAbs s) [] (elements s))) in
  if IsAbs s then "/" +:+ c else if String.eqb c "" then "." else c.
(** [path.Dir] of a relative path. *)
Definition Dir_ (s : string) : string := Clean (join (parent (elements s))).
(** [filepath.Join(root, name)] of an absolute root. *)
Definition resolve (root : path) (name : string) : path := rev (clean true (rev root) (elements name)).
End files.

(** ** Archives *)

Module recoveryarchive.
Import files.
Local Open Scope Z_scope.

Definition Volumes : list string := ["database"; "state"; "identities"; "gateway-data"; "coordinator-data"; "queue-config"; "queue-data"].
Definition MaxBytes : Z := 16 * 2 ^ 30.
Definition maxEntries : Z := 1000000.
(** [Canceled] stands for [ctx.Err()]. *)
Inductive error := ErrArchive | Canceled.
Record Manifest := mkManifest { Schema : Z; SHA256 : string; Bytes : Z; Entries : Z }.

Inductive Typeflag := TypeReg | TypeDir | TypeOther.
#[global] Instance Typeflag_eq_dec : EqDecision Typeflag.
Proof. solve_decision. Defined.
Record Header := mkHeader {
  Name : string; hType : Typeflag; Size : Z; Mode : Z; hUid : Z; hGid : Z; Linkname : string; PAXRecords : nat
}.
#[global] Instance Header_eq_dec : EqDecision Header.
Proof. solve_decision. Defined.

(** [archive/tar]: what [Next] and reading the entries of a file give, in order,
    and whether the end is [io.EOF]; and the file of a writer in USTAR format,
    which refuses entries that the format cannot hold. *)
Class Tar := {
  tar_Read : string -> list (Header * result unit string) * bool;
  tar_Write : list (Header * string) -> option string
}.
(** The bytes that the entries of an archive take: a header block and a body
    each, at most rounded up to a block, and the end of two blocks. *)
Definition tar_bound (es : list (Header * string)) : Z := foldr (fun e n => 1024 + Size (fst e) + n) 1024 es.
Class TarLaws `{Tar} : Prop := {
  read_write : forall es b, tar_Write es = Some b -> tar_Read b = ((fun e => (fst e, Ok (snd e))) <$> es, true);
  write_bytes : forall es b, tar_Write es = Some b -> (forall e, e ∈ es -> Size (fst e) = len (snd e)) -> 1024 <= len b <= tar_bound es
}.

(** ** Fallible system calls *)

(** What befalls the coming calls: nothing, or a failure after some bytes. *)
Definition io := list (option nat).
Definition M (S A : Type) := S -> io -> S * io * result error A.
Definition ret {S A} (a : A) : M S A := fun s i => (s, i, Ok a).
Definition fail {S A} (e : error) : M S A := fun s i => (s, i, Err e).
Definition bind {S A B} (m : M S A) (k : A -> M S B) : M S B :=
  fun s i => match m s i with (s, i, Ok a) => k a s i | (s, i, Err e) => (s, i, Err e) end.
Declare Scope archive_scope.
Notation "'do!' x ← m ; k" := (bind m (fun x => k)) (at level 20, x pattern, m at level 100, k at level 200, right associativity) : archive_scope.
Notation "m ;! k" := (bind m (fun _ => k)) (at level 100, k at level 200, right associativity) : archive_scope.
Local Open Scope archive_scope.

(** A call that fails leaves what [part] says. *)
Definition call {S A} (part : nat -> S -> S) (f : S -> S * result error A) : M S A :=
  fun s i => match i with
             | Some n :: i => (part n s, i, Err ErrArchive)
             | None :: i => let '(s, a) := f s in (s, i, a)
             | [] => let '(s, a) := f s in (s, [], a)
             end.
Definition read {S A} (f : S -> result error A) : M S A := call (fun _ s => s) (fun s => (s, f s)).
Definition works {S} : M S unit := read (fun _ => Ok tt).
Definition live {S} : M S unit := fun s i => match i with Some _ :: i => (s, i, Err Canceled) | _ :: i => (s, i, Ok tt) | [] => (s, [], Ok tt) end.
Definition check {S} (b : bool) : M S unit := if b then ret tt else fail ErrArchive.

(** ** The backup directory *)

Record bfile := mkFile { regular : bool; fPerm : Z; content : string }.
Record bdir := mkBackup { isDir : bool; dPerm : Z; volumes_tar : option bfile; volumes_json : option bfile }.
Definition private (perm : Z) : bool := Z.land perm 63 =? 0.
Definition privateDir {S} (b : bdir) : M S unit := works ;! check (isDir b && private (dPerm b)).

Section archive.
Context `{Sha256} `{Tar} `{Codec Manifest}.

(** [hex.DecodeString] and back: 64 lower-case hexadecimal digits. *)
Definition lower_hex (s : string) : bool := installplan.setupDigestPattern s.

Definition ReadManifest {S} (b : bdir) : M S Manifest :=
  privateDir b ;! works ;!
  match volumes_json b with
  | None => fail ErrArchive
  | Some f =>
      if negb (regular f) || negb (private (fPerm f)) || (4096 <? len (content f)) then fail ErrArchive else
      works ;! works ;!
      match decode_strict (str_take (Z.to_nat 4097) (content f)) with
      | None => fail ErrArchive
      | Some m =>
          if negb (Schema m =? 1) || (Bytes m <? 1024) || (MaxBytes + 2 ^ 30 <? Bytes m) || (Entries m <? 7) || (maxEntries <? Entries m) ||
             negb (lower_hex (SHA256 m)) then fail ErrArchive else ret m
      end
  end.

Definition archiveFile {S} (f : option bfile) : M S string :=
  works ;!
  match f with
  | None => fail ErrArchive
  | Some f => if negb (regular f) || negb (private (fPerm f)) then fail ErrArchive else works ;! works ;! ret (content f)
  end.

Definition validHeader (h : Header) : bool :=
  if String.eqb (Name h) "" || negb (String.eqb (Clean (Name h)) (Name h)) || strs.contains_byte "\" (Name h) || IsAbs (Name h) ||
     (Size h <? 0) || (hUid h <? 0) || (65535 <? hUid h) || (hGid h <? 0) || (65535 <? hGid h) || (Mode h <? 0) || (511 <? Mode h) ||
     negb (String.eqb (Linkname h) "") || (0 <? PAXRecords h)%nat then false else
  let first := match strs.cut_byte "/" (Name h) with Some (f, _) => f | None => Name h end in
  if String.eqb first (Name h) && negb (bool_decide (hType h = TypeDir)) then false else
  existsb (String.eqb first) Volumes && ((bool_decide (hType h = TypeDir) && (Size h =? 0)) || bool_decide (hType h = TypeReg)).

(** The loop of [Verify]: the names that were seen and their count. *)
Fixpoint verify_loop {S} (es : list (Header * result unit string)) (eof : bool) (seen directories : gset string) (count size : Z) : M S (gset string * Z) :=
  live ;!
  match es with
  | [] => if eof then ret (seen, count) else fail ErrArchive
  | (h, body) :: es =>
      if negb (validHeader h) || bool_decide (Name h ∈ seen) then fail ErrArchive else
      if negb (String.eqb (Dir_ (Name h)) ".") && negb (bool_decide (Dir_ (Name h) ∈ directories)) then fail ErrArchive else
      let directories := if decide (hType h = TypeDir) then {[Name h]} ∪ directories else directories in
      let count := count + 1 in let size := i64 (size + Size h) in
      if (maxEntries <? count) || (MaxBytes <? size) then fail ErrArchive else
      works ;! match body with Err _ => fail ErrArchive | Ok _ => verify_loop es eof ({[Name h]} ∪ seen) directories count size end
  end.

Definition Verify {S} (b : bdir) : M S Manifest :=
  do! m ← ReadManifest b;
  do! raw ← archiveFile (volumes_tar b);
  works ;! check (len raw =? Bytes m) ;!
  works ;! check (String.eqb (hex_EncodeToString (sha256 raw)) (SHA256 m)) ;! works ;!
  let '(es, eof) := tar_Read raw in
  do! (seen, count) ← verify_loop es eof ∅ ∅ 0 0;
  check (forallb (fun v => bool_decide (v ∈ seen)) Volumes && (count =? Entries m)) ;! ret m.

(** ** [Restore] *)

Definition Lstat (p : path) : M FS node := read (fun fs => match fs !! p with Some n => Ok n | None => Err ErrArchive end).
(** [os.Mkdir] of a name that is there fails with [os.ErrExist], which the
    caller forgives. *)
Definition Mkdir_forgiving (p : path) : M FS unit :=
  call (fun _ fs => fs) (fun fs =>
    match fs !! p with
    | Some _ => (fs, Ok tt)
    | None => if in_dir fs p then (<[p := Dir (mkMeta 448 0 0)]> fs, Ok tt) else (fs, Err ErrArchive)
    end).
Definition OpenExclusive (p : path) : M FS unit :=
  call (fun _ fs => fs) (fun fs =>
    if in_dir fs p && negb (bool_decide (is_Some (fs !! p))) then (<[p := File (mkMeta 384 0 0) ""]> fs, Ok tt) else (fs, Err ErrArchive)).
Definition set_content (p : path) (s : string) (fs : FS) : FS :=
  match fs !! p with Some (File m _) => <[p := File m s]> fs | _ => fs end.
(** [io.CopyN(out, r, size)]. *)
Definition CopyN (p : path) (body : result unit string) (size : Z) : M FS unit :=
  match body with
  | Ok s => call (fun n => set_content p (str_take n s)) (fun fs => (set_content p s fs, if len s =? size then Ok tt else Err ErrArchive))
  | Err _ => fail ErrArchive
  end.
Definition with_meta (f : meta -> meta) (n : node) : node :=
  match n with Dir m => Dir (f m) | File m s => File (f m) s | Special => Special end.
Definition meta_of (n : node) : option meta := match n with Dir m => Some m | File m _ => Some m | Special => None end.
Definition Chmod (p : path) (mode : Z) : M FS unit :=
  call (fun _ fs => fs) (fun fs =>
    match fs !! p with
    | Some n => if bool_decide (Uid <$> meta_of n = Some 0) then (<[p := with_meta (fun m => mkMeta mode (Uid m) (Gid m)) n]> fs, Ok tt) else (fs, Err ErrArchive)
    | None => (fs, Err ErrArchive)
    end).
Definition Chown (p : path) (uid gid : Z) : M FS unit :=
  call (fun _ fs => fs) (fun fs =>
    match fs !! p with
    | Some n => (<[p := with_meta (fun m => mkMeta (Perm m) uid gid) n]> fs, Ok tt)
    | None => (fs, Err ErrArchive)
    end).

(** Every volume is a directory without entries. *)
Fixpoint empty_volumes (root : path) (vs : list string) : M FS unit :=
  match vs with
  | [] => ret tt
  | v :: vs =>
      do! n ← Lstat (root ++ [v]);
      check (is_dir n) ;!
      do! items ← read (fun fs => Ok (ReadDir fs (root ++ [v])));
      check (List.length items =? 0)%nat ;! empty_volumes root vs
  end.
Definition extract (root : path) (h : Header) (body : result unit string) : M FS unit :=
  let dest := resolve root (Name h) in
  (if decide (hType h = TypeDir) then Mkdir_forgiving dest ;! do! n ← Lstat dest; check (is_dir n)
   else OpenExclusive dest ;! CopyN dest body (Size h) ;! works ;! works) ;!
  Chmod dest (Mode h) ;! Chown dest (hUid h) (hGid h).
Fixpoint restore_loop (root : path) (es : list (Header * result unit string)) (eof : bool) : M FS unit :=
  live ;!
  match es with
  | [] => check eof
  | (h, body) :: es => if negb (validHeader h) then fail ErrArchive else extract root h body ;! restore_loop root es eof
  end.
(** [again] is what the archive is when it is opened the second time. *)
Definition Restore (b : bdir) (again : option bfile) (root : path) : M FS unit :=
  do! _ ← Verify b;
  empty_volumes root Volumes ;!
  do! raw ← archiveFile again;
  let '(es, eof) := tar_Read raw in restore_loop root es eof.

(** ** [Create] *)

Definition header (rel : path) (n : node) : option (Header * string) :=
  match n with
  | Dir m => Some (mkHeader (join rel) TypeDir 0 (Perm m) (Uid m) (Gid m) "" 0, "")
  | File m s => Some (mkHeader (join rel) TypeReg (len s) (Perm m) (Uid m) (Gid m) "" 0, s)
  | Special => None
  end.
(** The state of a walk: the entries so far and their sizes. *)
Record tally := mkTally { written : list (Header * string); bytes_ : Z }.
Definition visit (rel : path) (n : node) : M tally unit :=
  works ;!
  fun s i =>
    match header rel n with
    | None => (s, i, Err ErrArchive)
    | Some e =>
        let s := mkTally (written s ++ [e]) (i64 (bytes_ s + Size (fst e))) in
        if (maxEntries <? Z.of_nat (List.length (written s))) || (MaxBytes <? bytes_ s) then (s, i, Err ErrArchive) else works s i
    end.
(** [filepath.Walk] of the source [src] below [root]: a directory, then its
    names in order. The levels of the source are enough fuel. *)
Fixpoint walk (fuel : nat) (src : FS) (root rel : path) : M tally unit :=
  match fuel with
  | O => fail ErrArchive
  | S k =>
      works ;!
      match src !! (root ++ rel) with
      | None => fail ErrArchive
      | Some (Dir m) =>
          works ;! visit rel (Dir m) ;!
          (fix each (names : list string) : M tally unit :=
            match names with [] => ret tt | n :: names => walk k src root (rel ++ [n]) ;! each names end) (ReadDir src (root ++ rel))
      | Some n => visit rel n
      end
  end.
Definition levels (src : FS) : nat := map_fold (fun p _ n => Nat.max (List.length p) n) 0%nat src.
Fixpoint walk_volumes (src : FS) (root : path) (vs : list string) : M tally unit :=
  match vs with [] => ret tt | v :: vs => walk (S (levels src)) src root [v] ;! walk_volumes src root vs end.

Definition set_tar (b : bdir) (f : option bfile) : bdir := mkBackup (isDir b) (dPerm b) f (volumes_json b).
Definition set_json (b : bdir) (f : option bfile) : bdir := mkBackup (isDir b) (dPerm b) (volumes_tar b) f.
Definition file_of (s : string) : bfile := mkFile true 384 s.
(** [os.Remove] of the archive, whose failure is ignored. *)
Definition remove_tar : M bdir unit :=
  fun b i => match i with Some _ :: i => (b, i, Ok tt) | _ :: i => (set_tar b None, i, Ok tt) | [] => (set_tar b None, [], Ok tt) end.
(** Between the creation of the archive and its removal on failure. What an
    unfinished archive holds is left empty. *)
Definition create_body (src : FS) (root : path) : M bdir Manifest :=
  do! es ← (fun b i => match walk_volumes src root Volumes (mkTally [] 0) i with
                       | (t, i, Ok _) => (b, i, Ok (written t))
                       | (_, i, Err e) => (b, i, Err e)
                       end);
  do! raw ← (fun b i => match tar_Write es with
                        | None => (b, i, Err ErrArchive)
                        | Some raw => (set_tar b (Some (file_of raw)), i, Ok raw)
                        end);
  works ;! works ;! works ;!
  let m := mkManifest 1 (hex_EncodeToString (sha256 raw)) (len raw) (Z.of_nat (List.length es)) in
  call (fun _ b => b) (fun b => match volumes_json b with None => (set_json b (Some (file_of "")), Ok tt) | Some _ => (b, Err ErrArchive) end) ;!
  call (fun n b => set_json b (Some (file_of (str_take n (marshal m))))) (fun b => (set_json b (Some (file_of (marshal m))), Ok tt)) ;!
  works ;! works ;! ret m.
Definition Create (src : FS) (root : path) : M bdir Manifest :=
  fun b => (privateDir b ;!
  call (fun _ b => b) (fun b => match volumes_tar b with None => (set_tar b (Some (file_of "")), Ok tt) | Some _ => (b, Err ErrArchive) end) ;!
  (fun b i => match create_body src root b i with
              | (b, i, Ok m) => (b, i, Ok m)
              | (b, i, Err e) => (remove_tar ;! fail e) b i
              end)) b.
End archive.
End recoveryarchive.
