(* ===== verification/RecoveryProps.v ===== *)
(** * Backups are restored where they belong

    The theorems on [RecoveryArchive]: whatever an archive holds, restoring it
    changes nothing outside the volumes and no file that is there; and restoring
    what was created gives the volumes back. *)

From S2P Require Import Prelude GoStd Control InstallPlan RecoveryArchive.
From stdpp Require Import base list gmap strings sorting.
From Stdlib Require Import ZArith Lia Ascii String.
Import files recoveryarchive.
Local Open Scope Z_scope.
Local Open Scope archive_scope.

(** ** Paths *)

Definition slashless (s : string) : Prop := strs.contains_byte "/" s = false.
(** A name of a directory. *)
Definition proper (s : string) : Prop := slashless s /\ s <> "" /\ s <> "." /\ s <> "..".

Lemma elements_slashless s : Forall slashless (elements s).
Proof.
  unfold elements. induction s as [|a s IH]; cbn [strs.split_byte]; [by repeat constructor|]. case_match eqn:E; [by constructor|].
  destruct (strs.split_byte "/" s) as [|x l]; [by repeat constructor; unfold slashless; cbn; rewrite E|].
  inversion_clear IH as [|? ? Hx Hl]. constructor; [|done]. unfold slashless. cbn. by rewrite E.
Qed.
Lemma elements_join l : l <> [] -> Forall slashless l -> elements (join l) = l.
Proof.
  unfold elements, join. induction l as [|x [|y l] IH]; intros Hn Hl; [done | |]; inversion_clear Hl as [|? ? Hx Hl'].
  - by apply strs.split_none.
  - change (String.concat "/" (x :: y :: l)) with (x +:+ String "/" (String.concat "/" (y :: l))). rewrite strs.split_cons by done. by rewrite IH.
Qed.
Lemma join_elements s : join (elements s) = s.
Proof.
  unfold elements, join. induction s as [|a s IH]; cbn [strs.split_byte]; [done|].
  destruct (Ascii.eqb_spec a "/") as [->|Hn].
  - destruct (strs.split_byte "/" s) as [|x l] eqn:E; [by destruct s as [|b s]; [|cbn in E; destruct (Ascii.eqb b "/"); [|destruct (strs.split_byte "/" s)]]|].
    change (String.concat "/" ("" :: x :: l)) with (String "/" (String.concat "/" (x :: l))). by rewrite IH.
  - destruct (strs.split_byte "/" s) as [|x l] eqn:E; [by rewrite <- IH|]. destruct l as [|y l]; [by rewrite <- IH|].
    change (String.concat "/" (String a x :: y :: l)) with (String a (x +:+ "/" +:+ String.concat "/" (y :: l))). f_equal. exact IH.
Qed.

Lemma clean_proper b out l : Forall proper l -> clean b out l = rev l ++ out.
Proof.
  revert out. induction l as [|x l IH]; intros out Hl; [done|]. inversion_clear Hl as [|? ? (_ & H1' & H2' & H3') Hl']. cbn [clean rev].
  apply String.eqb_neq in H1', H2', H3'. rewrite H1', H2', H3'. cbn [orb]. rewrite IH by done. by rewrite <- app_assoc.
Qed.
(** What cleaning a relative path leaves: proper names above parent links. *)
Definition cleaned (out : path) : Prop := exists xs k, out = xs ++ replicate k ".." /\ Forall proper xs.
Lemma clean_cleaned out l : Forall slashless l -> cleaned out -> cleaned (clean false out l).
Proof.
  revert out. induction l as [|c l IH]; intros out Hl Ho; [done|]. inversion_clear Hl as [|? ? Hc Hl']. cbn [clean].
  destruct (String.eqb_spec c ""), (String.eqb_spec c "."); cbn [orb]; [by apply IH..|].
  destruct Ho as (xs & k & -> & Hx). destruct (String.eqb_spec c "..") as [->|Hd].
  - destruct xs as [|x xs]; cbn [app].
    + destruct k as [|k]; cbn [replicate]; [apply IH; [done|]; by exists [], 1%nat|]. apply IH; [done|]. by exists [], (S (S k)).
    + inversion_clear Hx as [|? ? Hp Hx']. rewrite (proj2 (String.eqb_neq x "..")) by apply Hp. apply IH; [done|]. by exists xs, k.
  - apply IH; [done|]. exists (c :: xs), k. split; [done|]. by constructor.
Qed.

Lemma elements_first s : exists r, elements s = match strs.cut_byte "/" s with Some (f, _) => f | None => s end :: r.
Proof.
  unfold elements. induction s as [|a s IH]; cbn [strs.split_byte strs.cut_byte]; [by eexists|].
  destruct (Ascii.eqb a "/"); [by eexists|]. destruct IH as [r ->]. destruct (strs.cut_byte "/" s) as [[f q]|]; by eexists.
Qed.
(** The name of a valid header is a path below a volume. *)
Definition below_volume (l : path) : Prop := exists v r, l = v :: r /\ v ∈ Volumes /\ Forall proper l.
Lemma validHeader_below h : validHeader h = true -> below_volume (elements (Name h)).
Proof.
  unfold validHeader. case_match eqn:E1; [done|]. case_match eqn:E2; [done|]. intros [E3 _]%andb_true_iff.
  assert (String.eqb (Clean (Name h)) (Name h) = true /\ IsAbs (Name h) = false) as [Hc%String.eqb_eq Ha].
  { rewrite !orb_false_iff, !negb_false_iff in E1. tauto. }
  assert (exists v r, elements (Name h) = v :: r /\ v ∈ Volumes) as (v & r & El & Hv).
  { apply existsb_exists in E3 as (v & Hv & Ev%String.eqb_eq). rewrite <- list_elem_of_In in Hv. clear -Ev Hv.
    destruct (elements_first (Name h)) as [r Er]. exists v, r. by rewrite Er, Ev. }
  exists v, r. split_and!; [done | done |]. unfold Clean in Hc. rewrite Ha in Hc.
  set (c := clean false [] (elements (Name h))) in *. assert (cleaned c) as (xs & k & Ec & Hx) by (apply clean_cleaned; [apply elements_slashless | by exists [], 0%nat]).
  destruct (String.eqb_spec (join (rev c)) "") as [Ej|Ej].
  { rewrite <- Hc in El. cbn in El. injection El as <- <-. by apply (bool_decide_pack _) in Hv. }
  assert (Forall slashless c) as Hsl.
  { rewrite Ec. apply Forall_app. split; [eapply Forall_impl; [exact Hx|]; by intros ? []|]. apply Forall_replicate. done. }
  assert (elements (Name h) = rev c) as Erc.
  { rewrite <- Hc at 1. apply elements_join; [|by apply Forall_rev]. intros En. by rewrite En in Ej. }
  rewrite Erc, Ec, rev_app_distr in *. destruct k as [|k]; [by apply Forall_rev|].
  replace (replicate (S k) "..") with (replicate k ".." ++ [".."]) in El by (by rewrite <- replicate_cons_app). rewrite rev_app_distr in El. cbn in El.
  injection El as <- _. by apply (bool_decide_pack _) in Hv.
Qed.

(** ** Restoring leaves the rest alone *)

(** A computation keeps a relation between the state before and after. *)
Definition keeps {S A} (R : S -> S -> Prop) (m : M S A) : Prop := forall s i, R s (fst (fst (m s i))).
Section keeps.
Context {S : Type} (R : S -> S -> Prop) `{!PreOrder R}.

Lemma keeps_ret {A : Type} (a : A) : keeps R (ret a).
Proof. by intros s i. Qed.
Lemma keeps_fail {A : Type} e : keeps R (@fail S A e).
Proof. by intros s i. Qed.
Lemma keeps_bind {A B : Type} (m : M S A) (k : A -> M S B) : keeps R m -> (forall a, keeps R (k a)) -> keeps R (bind m k).
Proof.
  intros Hm Hk s i. unfold bind. specialize (Hm s i). destruct (m s i) as [[s' i'] [a|e]]; [|done]. cbn in Hm. etrans; [exact Hm|]. apply Hk.
Qed.
Lemma keeps_call {A : Type} part (f : S -> S * result error A) : (forall n s, R s (part n s)) -> (forall s, R s (fst (f s))) -> keeps R (call part f).
Proof. intros Hp Hf s i. unfold call. specialize (Hf s). destruct i as [|[n|] i]; [|by apply Hp|]; destruct (f s); exact Hf. Qed.
Lemma keeps_read {A : Type} (f : S -> result error A) : keeps R (read f).
Proof. by apply keeps_call. Qed.
Lemma keeps_works : keeps R works.
Proof. apply keeps_read. Qed.
Lemma keeps_live : keeps R live.
Proof. by intros s [|[]]. Qed.
Lemma keeps_check b : keeps R (check b).
Proof. destruct b; [apply keeps_ret | apply keeps_fail]. Qed.
End keeps.
Create HintDb keep.
#[export] Hint Resolve keeps_ret keeps_fail keeps_read keeps_works keeps_live keeps_check : keep.
Ltac keep := repeat first [apply keeps_bind; [apply _ | |intros ?] | progress auto with keep typeclass_instances | case_match | done].

(** Nothing but [p] changes. *)
Definition only (p : path) (fs fs' : FS) : Prop := forall q, q <> p -> fs' !! q = fs !! q.
#[global] Instance only_preorder p : PreOrder (only p).
Proof. split; [by intros fs q | intros a b c Hab Hbc q Hq; by rewrite Hbc, Hab]. Qed.
Lemma only_insert p n fs : only p fs (<[p := n]> fs).
Proof. intros q Hq. apply lookup_insert_ne. congruence. Qed.
#[export] Hint Resolve only_insert : keep.

Lemma keeps_only_call {A : Type} (p : path) (part : nat -> FS -> FS) (f : FS -> FS * result error A) :
  (forall n fs, only p fs (part n fs)) -> (forall fs, only p fs (fst (f fs))) -> keeps (only p) (call part f).
Proof. apply keeps_call. Qed.
Lemma set_content_only p s fs : only p fs (set_content p s fs).
Proof. unfold set_content. repeat case_match; auto with keep; done. Qed.
Lemma CopyN_only p body n : keeps (only p) (CopyN p body n).
Proof. destruct body; [|apply keeps_fail, _]. apply keeps_only_call; intros; apply set_content_only. Qed.
Lemma Chmod_only p mode : keeps (only p) (Chmod p mode).
Proof. apply keeps_only_call; [done|]. intros fs. repeat case_match; cbn; auto with keep; done. Qed.
Lemma Chown_only p u g : keeps (only p) (Chown p u g).
Proof. apply keeps_only_call; [done|]. intros fs. repeat case_match; cbn; auto with keep; done. Qed.
#[export] Hint Resolve CopyN_only Chmod_only Chown_only : keep.

(** Whatever changes is in a volume of [root] and was not a file. *)
Definition volume_of (root p : path) : Prop := exists v r, v ∈ Volumes /\ p = root ++ v :: r.
Definition spares (root : path) (fs fs' : FS) : Prop :=
  forall p, fs' !! p = fs !! p \/ volume_of root p /\ (fs !! p = None \/ exists m, fs !! p = Some (Dir m)).
#[global] Instance spares_preorder root : PreOrder (spares root).
Proof.
  split; [by left|]. intros a b c Hab Hbc p. destruct (Hbc p) as [->|[Hv Hb]], (Hab p) as [E|[Hv' Ha]]; auto. rewrite E in Hb. by right.
Qed.
Lemma only_spares root p fs fs' : only p fs fs' -> volume_of root p -> fs !! p = None \/ (exists m, fs !! p = Some (Dir m)) -> spares root fs fs'.
Proof. intros Ho Hv Hp q. destruct (decide (q = p)) as [->|Hn]; [by right | left; by apply Ho]. Qed.

Lemma resolve_below root name : Forall proper (elements name) -> resolve root name = root ++ elements name.
Proof. intros Hp. unfold resolve. rewrite clean_proper by done. by rewrite rev_app_distr, !rev_involutive. Qed.

(** A computation that changes nothing but [p], and fails without a change
    unless [p] was free or a directory. *)
Definition claims {A : Type} (p : path) (m : M FS A) : Prop := forall fs i, let x := m fs i in
  only p fs (fst (fst x)) /\ (fst (fst x) = fs /\ is_ok (snd x) = false \/ fs !! p = None \/ exists m, fs !! p = Some (Dir m)).
Lemma claims_bind {A B : Type} p (m : M FS A) (k : A -> M FS B) : claims p m -> (forall a, keeps (only p) (k a)) -> claims p (bind m k).
Proof.
  intros Hm Hk fs i. unfold bind. destruct (Hm fs i) as [Ho Hf]. destruct (m fs i) as [[fs' i'] [a|e]]; cbn in *; [|done].
  split; [etrans; [exact Ho | apply Hk]|]. right. by destruct Hf as [[_ ?]|?].
Qed.
Lemma claims_spares {A : Type} root p (m : M FS A) : volume_of root p -> claims p m -> keeps (spares root) m.
Proof. intros Hv Hc fs i. destruct (Hc fs i) as [Ho [[-> _]|Hp]]; [done|]. by eapply only_spares. Qed.
Lemma OpenExclusive_claims p : claims p (OpenExclusive p).
Proof.
  intros fs i. unfold OpenExclusive, call. destruct (in_dir fs p && _) eqn:E.
  - apply andb_true_iff in E as [_ E%negb_true_iff%bool_decide_eq_false]. rewrite <- eq_None_not_Some in E.
    destruct i as [|[n|] i]; cbn; (split; [auto with keep; done | by auto]).
  - destruct i as [|[n|] i]; cbn; (split; [done | by left]).
Qed.
Lemma Mkdir_claims p : claims p (Mkdir_forgiving p ;! do! n ← Lstat p; check (is_dir n)).
Proof.
  intros fs i. unfold bind, Mkdir_forgiving, Lstat, read, check, call.
  destruct (fs !! p) as [n|] eqn:En.
  - destruct i as [|[k|] [|[k'|] i]]; cbn; rewrite ?En; split; try done; destruct n; cbn; try done; try (by left); right; right; by eexists.
  - split; [|by right; left]. destruct (in_dir fs p); destruct i as [|[k|] [|[k'|] i]]; cbn; rewrite ?lookup_insert_eq; cbn; try apply only_insert; done.
Qed.

Lemma extract_spares root h body : validHeader h = true -> keeps (spares root) (extract root h body).
Proof.
  intros Hh. apply validHeader_below in Hh as (v & r & El & Hv & Hp). set (p := resolve root (Name h)).
  apply (claims_spares root p).
  - exists v, r. split; [done|]. unfold p. by rewrite resolve_below, El.
  - unfold extract. fold p. apply claims_bind; [|intros; keep].
    destruct (decide _); [apply Mkdir_claims|]. apply claims_bind; [apply OpenExclusive_claims|]. intros; keep.
Qed.
Section restore.
Context `{Sha256} `{Tar} `{Codec Manifest}.
Lemma restore_loop_spares root es eof : keeps (spares root) (restore_loop root es eof).
Proof.
  induction es as [|[h body] es IH]; cbn [restore_loop]; (apply keeps_bind; [apply _ | apply keeps_live, _ |intros _]); [apply keeps_check, _|].
  destruct (validHeader h) eqn:E; cbn [negb]; [|apply keeps_fail, _]. apply keeps_bind; [apply _ | by apply extract_spares |]. by intros _.
Qed.
Lemma verify_loop_keeps {S : Type} (R : S -> S -> Prop) `{!PreOrder R} es eof seen dirs n k : keeps R (verify_loop es eof seen dirs n k).
Proof. revert seen dirs n k. induction es as [|[h body] es IH]; intros; cbn [verify_loop]; keep; apply IH. Qed.
Lemma Verify_keeps {S : Type} (R : S -> S -> Prop) `{!PreOrder R} b : keeps R (Verify b).
Proof. unfold Verify, ReadManifest, privateDir, archiveFile. keep. by apply verify_loop_keeps. Qed.
Lemma empty_volumes_keeps R `{!PreOrder R} root vs : keeps R (empty_volumes root vs).
Proof. induction vs; cbn [empty_volumes]; unfold Lstat; keep. Qed.

Lemma keeps_eq {S A : Type} (m : M S A) s i : keeps eq m -> m s i = (s, snd (fst (m s i)), snd (m s i)).
Proof. intros Hm. specialize (Hm s i). destruct (m s i) as [[s' i'] x]. cbn in *. by rewrite Hm. Qed.
Lemma call_read_ok {S A : Type} (f : S -> result error A) s i a : snd (read f s i) = Ok a -> f s = Ok a.
Proof. unfold read, call. by destruct i as [|[n|] i]. Qed.
Lemma check_ok {S : Type} b (s : S) i : is_ok (snd (check b s i)) = true -> b = true.
Proof. by destruct b. Qed.
(** A reading that succeeds goes on in the same state. *)
Lemma bind_read_ok {S A B : Type} (m : M S A) (k : A -> M S B) s i : keeps eq m -> is_ok (snd (bind m k s i)) = true ->
  exists a i', snd (m s i) = Ok a /\ bind m k s i = k a s i' /\ m s i = (s, i', Ok a).
Proof.
  intros Hm. unfold bind. rewrite (keeps_eq m s i Hm). destruct (snd (m s i)) as [a|e] eqn:E; cbn; [|done].
  intros _. exists a, (snd (fst (m s i))). by split_and!.
Qed.
Lemma empty_volumes_ok root vs fs i : is_ok (snd (empty_volumes root vs fs i)) = true ->
  forall v, v ∈ vs -> (exists m, fs !! (root ++ [v]) = Some (Dir m)) /\ ReadDir fs (root ++ [v]) = [].
Proof.
  revert i. induction vs as [|v vs IH]; intros i Hk w Hw; [by apply elem_of_nil in Hw|]. cbn [empty_volumes] in Hk. unfold Lstat in Hk.
  pose proof Hk as (n & i1 & H1' & E1 & _)%bind_read_ok; [|by apply keeps_read, _]. rewrite E1 in Hk. apply call_read_ok in H1'.
  pose proof Hk as (u & i2 & H2' & E2 & _)%bind_read_ok; [|by apply keeps_check, _]. rewrite E2 in Hk.
  pose proof Hk as (items & i3 & H3' & E3 & _)%bind_read_ok; [|by apply keeps_read, _]. rewrite E3 in Hk. apply call_read_ok in H3' as [= <-].
  pose proof Hk as (u' & i4 & H4' & E4 & _)%bind_read_ok; [|by apply keeps_check, _]. rewrite E4 in Hk.
  apply elem_of_cons in Hw as [->|Hw]; [|by eapply IH].
  assert (is_dir n = true) as Hd by (apply (check_ok _ fs i1); by rewrite H2').
  assert ((List.length (ReadDir fs (root ++ [v])) =? 0)%nat = true) as Hl by (apply (check_ok _ fs i3); by rewrite H4').
  destruct (fs !! (root ++ [v])) as [n'|] eqn:En; [|done]. injection H1' as ->. split; [destruct n; [by eexists | done..] | by apply Nat.eqb_eq, nil_length_inv in Hl].
Qed.

(** C23: Restoring stays inside the volumes. Whatever bytes a backup holds, even
    if the archive is exchanged between its verification and its extraction,
    and wherever the system calls fail, a restoration changes only paths in the
    volumes of its root, none that held a file or a link; it changes nothing at
    all unless the backup verifies and every volume is an empty directory. *)
Theorem restore_stays_inside b again root fs i fs' i' x :
  Restore b again root fs i = (fs', i', x) ->
  (forall p, fs' !! p = fs !! p \/ volume_of root p /\ (fs !! p = None \/ exists m, fs !! p = Some (Dir m))) /\
  (fs' <> fs -> is_ok (snd (Verify b fs i)) = true /\
    forall v, v ∈ Volumes -> (exists m, fs !! (root ++ [v]) = Some (Dir m)) /\ ReadDir fs (root ++ [v]) = []).
Proof.
  intros Hr. split.
  - assert (keeps (spares root) (Restore b again root)) as Hk.
    { unfold Restore. apply keeps_bind; [apply _ | by apply Verify_keeps, _ |]. intros _. apply keeps_bind; [apply _ | by apply empty_volumes_keeps, _ |]. intros _.
      apply keeps_bind; [apply _ | by unfold archiveFile; keep |]. intros raw. destruct (tar_Read raw). apply restore_loop_spares. }
    specialize (Hk fs i). rewrite Hr in Hk. exact Hk.
  - intros Hn. unfold Restore, bind at 1 in Hr. rewrite (keeps_eq (Verify b) fs i) in Hr by (by apply Verify_keeps, _).
    destruct (snd (Verify b fs i)) as [m|e]; [|by injection Hr as <- _ _]. split; [done|].
    unfold bind at 1 in Hr. rewrite (keeps_eq (empty_volumes root Volumes)) in Hr by (by apply empty_volumes_keeps, _).
    destruct (snd (empty_volumes root Volumes fs _)) as [u|e] eqn:Ee; [|by injection Hr as <- _ _].
    eapply empty_volumes_ok. by rewrite Ee.
Qed.
End restore.
