(* ===== verification/RecoveryListing.v ===== *)
(** * What a walk of the volumes lists

    [filepath.Walk] as the code uses it: the paths of a tree, a directory before
    its entries, each once. *)

From S2P Require Import Prelude GoStd Control InstallPlan RecoveryArchive RecoveryProps.
From stdpp Require Import base list gmap strings sorting.
From Stdlib Require Import ZArith Lia Ascii String.
Import files recoveryarchive.
Local Open Scope Z_scope.
Local Open Scope archive_scope.

Lemma parent_snoc (p : path) x : parent (p ++ [x]) = p.
Proof. unfold parent. rewrite length_app. cbn. rewrite Nat.add_1_r. cbn. by rewrite take_app_length. Qed.
Lemma child_Some p q n : child p q = Some n <-> q = p ++ [n].
Proof.
  unfold child. case_decide as E.
  - destruct E as [<- Hq]. destruct q as [|x q _] using rev_ind; [done|]. rewrite last_snoc, parent_snoc. split; [by intros [= ->] | by intros [_ ->]%app_inj_tail].
  - split; [done|]. intros ->. destruct E. rewrite parent_snoc. split; [done|]. by destruct p.
Qed.
Lemma ReadDir_spec (fs : FS) p n : n ∈ ReadDir fs p <-> is_Some (fs !! (p ++ [n])).
Proof.
  unfold ReadDir. rewrite (merge_sort_Permutation name_leb _), list_elem_of_omap. split.
  - intros (q & Hq & ->%child_Some). apply list_elem_of_fmap in Hq as ([q' x] & -> & Hx%elem_of_map_to_list). by exists x.
  - intros [x Hx%elem_of_map_to_list]. exists (p ++ [n]). split; [|by apply child_Some]. apply list_elem_of_fmap. by exists (p ++ [n], x).
Qed.
Lemma omap_NoDup {A B : Type} (f : A -> option B) l : (forall x y b, f x = Some b -> f y = Some b -> x = y) -> NoDup l -> NoDup (omap f l).
Proof.
  intros Hf. induction 1 as [|x l Hx _ IH]; [constructor|]. cbn. destruct (f x) as [b|] eqn:E; [|done]. constructor; [|done].
  intros (y & Hy & Ey)%list_elem_of_omap. by rewrite (Hf x y b E Ey) in Hx.
Qed.
Lemma ReadDir_NoDup (fs : FS) p : NoDup (ReadDir fs p).
Proof.
  unfold ReadDir. rewrite (merge_sort_Permutation name_leb _). apply omap_NoDup; [|apply NoDup_fst_map_to_list].
  intros x y b ->%child_Some ->%child_Some. done.
Qed.

(** ** The paths of a tree *)

Fixpoint listing (k : nat) (src : FS) (root rel : path) : list path :=
  match k with
  | O => []
  | S k =>
      match src !! (root ++ rel) with
      | None => []
      | Some (Dir _) => rel :: (ReadDir src (root ++ rel) ≫= fun n => listing k src root (rel ++ [n]))
      | Some _ => [rel]
      end
  end.

Lemma listing_sound k src root rel q : q ∈ listing k src root rel -> is_Some (src !! (root ++ q)) /\ exists r, q = rel ++ r.
Proof.
  revert rel. induction k as [|k IH]; intros rel Hq; cbn in Hq; [by apply elem_of_nil in Hq|].
  assert (is_Some (src !! (root ++ rel)) -> is_Some (src !! (root ++ rel)) /\ exists r, rel = rel ++ r) as Hself by (intros Hs; split; [done | exists []; by rewrite app_nil_r]).
  destruct (src !! (root ++ rel)) as [[m|m s|]|] eqn:E; [| | |by apply elem_of_nil in Hq].
  2, 3: apply list_elem_of_singleton in Hq as ->; rewrite E; apply Hself; by eexists.
  apply elem_of_cons in Hq as [->|(n & Hq & Hn)%list_elem_of_bind]; [rewrite E; apply Hself; by eexists|].
  destruct (IH _ Hq) as [Hs [r ->]]. split; [done|]. exists ([n] ++ r). by rewrite <- app_assoc.
Qed.
Lemma snoc_apart (rel : path) x y r r' : (rel ++ [x]) ++ r = (rel ++ [y]) ++ r' -> x = y.
Proof. rewrite <- !app_assoc. intros E%app_inv_head. by injection E. Qed.
Lemma listing_NoDup k src root rel : NoDup (listing k src root rel).
Proof.
  revert rel. induction k as [|k IH]; intros rel; cbn; [constructor|]. destruct (src !! (root ++ rel)) as [[m|m s|]|]; [|apply NoDup_singleton..|constructor].
  constructor.
  - intros (n & Hn & _)%list_elem_of_bind. apply listing_sound in Hn as [_ [r Er]]. rewrite <- app_assoc in Er. rewrite <- (app_nil_r rel) in Er at 1.
    by apply app_inv_head in Er.
  - apply NoDup_bind; [|done|apply ReadDir_NoDup]. intros x y q _ _ [_ [r ->]]%listing_sound [_ [r' Er]]%listing_sound. by apply snoc_apart in Er.
Qed.

(** A tree below [rel]: what has an entry is a directory. *)
Definition tree (src : FS) (root rel : path) : Prop :=
  forall r x, is_Some (src !! (root ++ rel ++ r ++ [x])) -> exists m, src !! (root ++ rel ++ r) = Some (Dir m).
Lemma tree_below src root rel x : tree src root rel -> tree src root (rel ++ [x]).
Proof. intros Ht r y Hs. specialize (Ht (x :: r) y). rewrite <- !app_assoc in *. by apply Ht. Qed.
Lemma tree_up src root rel r s : tree src root rel -> is_Some (src !! (root ++ rel ++ r ++ s)) -> is_Some (src !! (root ++ rel ++ r)).
Proof.
  intros Ht. induction s as [|x s IH] using rev_ind; [by rewrite app_nil_r|]. rewrite (app_assoc r). intros Hs. apply Ht in Hs as [m Hm]. apply IH. by rewrite Hm.
Qed.
Lemma listing_complete k src root rel r :
  tree src root rel -> (forall s, is_Some (src !! (root ++ rel ++ s)) -> (List.length s < k)%nat) -> is_Some (src !! (root ++ rel ++ r)) ->
  rel ++ r ∈ listing k src root rel.
Proof.
  revert rel r. induction k as [|k IH]; intros rel r Ht Hk Hr; [exfalso; specialize (Hk r Hr); lia|]. cbn [listing].
  destruct r as [|x r].
  - rewrite app_nil_r in *. destruct Hr as [n ->]. destruct n; by left.
  - assert (is_Some (src !! (root ++ rel ++ [x]))) as Hx by (by eapply (tree_up _ _ _ [x] r)).
    destruct (Ht [] x Hx) as [m Hm]. rewrite app_nil_r in Hm. rewrite Hm. right. apply list_elem_of_bind. exists x. split.
    + replace (rel ++ x :: r) with ((rel ++ [x]) ++ r) by (by rewrite <- app_assoc). apply IH; [by apply tree_below | | by rewrite <- app_assoc].
      intros s Hs. rewrite <- app_assoc in Hs. specialize (Hk ([x] ++ s) Hs). cbn in Hk. lia.
    + apply ReadDir_spec. by rewrite <- app_assoc.
Qed.
Lemma levels_bound (src : FS) p : is_Some (src !! p) -> (List.length p <= levels src)%nat.
Proof.
  unfold levels. intros [n Hn]. revert n Hn.
  apply (map_fold_weak_ind (fun x (m : FS) => forall n, m !! p = Some n -> (List.length p <= x)%nat)); [by intros n; rewrite lookup_empty|].
  intros q n m x _ IH n' Hn. destruct (decide (q = p)) as [->|Hq]; [lia|]. rewrite lookup_insert_ne in Hn by done. specialize (IH _ Hn). lia.
Qed.

(** Every path of a list satisfies [P], or its directory is listed before it. *)
Fixpoint rooted (src : FS) (root : path) (P : path -> Prop) (D l : list path) : Prop :=
  match l with
  | [] => True
  | q :: l => (P q \/ parent q ∈ D /\ exists m, src !! (root ++ parent q) = Some (Dir m)) /\ rooted src root P (q :: D) l
  end.
Lemma rooted_weaken src root (P Q : path -> Prop) D D' l :
  (forall q, P q -> Q q \/ parent q ∈ D' /\ exists m, src !! (root ++ parent q) = Some (Dir m)) -> D ⊆ D' -> rooted src root P D l -> rooted src root Q D' l.
Proof.
  revert D D'. induction l as [|q l IH]; intros D D' HP HD; [done|]. intros [Hq Hl]. split; [naive_solver|]. eapply IH; [| |exact Hl]; set_solver.
Qed.
Lemma rooted_app src root P D l l' : rooted src root P D l -> (forall D', D ⊆ D' -> rooted src root P D' l') -> rooted src root P D (l ++ l').
Proof.
  revert D. induction l as [|q l IH]; intros D Hl Hl'; [by apply Hl'|]. destruct Hl as [Hq Hl]. split; [done|]. apply IH; [done|]. intros D' HD. apply Hl'. set_solver.
Qed.
Lemma rooted_bind {A : Type} src root P D (f : A -> list path) l : (forall x D', x ∈ l -> D ⊆ D' -> rooted src root P D' (f x)) -> rooted src root P D (l ≫= f).
Proof.
  revert D. induction l as [|x l IH]; intros D Hf; [done|]. cbn. apply rooted_app; [apply Hf; [left | done]|]. intros D' HD. apply IH. intros y D2 Hy HD2.
  apply Hf; [by right|]. set_solver.
Qed.
Lemma listing_rooted k src root rel D : rooted src root (eq rel) D (listing k src root rel).
Proof.
  revert rel D. induction k as [|k IH]; intros rel D; cbn; [done|]. destruct (src !! (root ++ rel)) as [[m|m s|]|] eqn:E; [|by split; [left|]..|done].
  split; [by left|]. apply rooted_bind. intros n D' _ HD. eapply rooted_weaken; [|done|apply IH]. intros q <-. right. rewrite parent_snoc. split; [set_solver | by eexists].
Qed.

(** ** The volumes *)

Definition everything (src : FS) (root : path) : list path := Volumes ≫= fun v => listing (S (levels src)) src root [v].
Lemma everything_rooted src root D : rooted src root (fun q => exists v, q = [v]) D (everything src root).
Proof.
  apply rooted_bind. intros v D' _ _. eapply rooted_weaken; [|done|apply listing_rooted]. intros q <-. left. by exists v.
Qed.
Lemma everything_NoDup src root : NoDup (everything src root).
Proof.
  apply NoDup_bind; [|intros; apply listing_NoDup|apply (bool_decide_unpack _); by vm_compute].
  intros v w q _ _ [_ [r ->]]%listing_sound [_ [r' Er]]%listing_sound. by injection Er.
Qed.
Lemma everything_spec src root q : (forall v, v ∈ Volumes -> tree src root [v]) ->
  q ∈ everything src root <-> exists v r, q = v :: r /\ v ∈ Volumes /\ is_Some (src !! (root ++ q)).
Proof.
  intros Ht. unfold everything. rewrite list_elem_of_bind. split.
  - intros (v & Hq & Hv). apply listing_sound in Hq as [Hs [r ->]]. by exists v, r.
  - intros (v & r & -> & Hv & Hs). exists v. split; [|done]. apply (listing_complete _ _ _ [v] r); [by apply Ht | | done].
    intros s Hs'%levels_bound. rewrite !length_app in Hs'. cbn in Hs'. lia.
Qed.

(** ** What [Create] writes *)

Lemma bind_ok {S A B : Type} (m : M S A) (k : A -> M S B) s i s' i' b :
  bind m k s i = (s', i', Ok b) -> exists a s1 i1, m s i = (s1, i1, Ok a) /\ k a s1 i1 = (s', i', Ok b).
Proof. unfold bind. destruct (m s i) as [[s1 i1] [a|e]]; [|done]. intros Hk. by exists a, s1, i1. Qed.
Lemma works_ok {S : Type} (s : S) i s' i' u : works s i = (s', i', Ok u) -> s' = s.
Proof. unfold works, read, call. destruct i as [|[n|] i]; by intros [= <- _]. Qed.
Lemma check_true {S : Type} b (s : S) i s' i' u : check b s i = (s', i', Ok u) -> b = true /\ s' = s.
Proof. by destruct b; [intros [= <- _]|]. Qed.
Lemma call_ok {S A : Type} part (f : S -> S * result error A) s i s' i' a : call part f s i = (s', i', Ok a) -> f s = (s', Ok a).
Proof. unfold call. destruct i as [|[n|] i]; [|done|]; destruct (f s); by intros [= -> _ ->]. Qed.
Ltac run H := repeat (let w := fresh in apply bind_ok in H as (? & ? & ? & w & H); apply works_ok in w; rewrite w in H; clear w).

Definition sizes (es : list (Header * string)) : Z := foldr (fun e n => Size (fst e) + n) 0 es.
Lemma sizes_app es es' : sizes (es ++ es') = sizes es + sizes es'.
Proof. unfold sizes. induction es as [|e es IH]; cbn; [done|]. rewrite IH. lia. Qed.
Definition small (es : list (Header * string)) : Prop := Forall (fun e => 0 <= Size (fst e) < 2 ^ 62) es.
Record tally_ok (t : tally) : Prop := {
  ta_bytes : bytes_ t = sizes (written t);
  ta_range : 0 <= bytes_ t <= MaxBytes;
  ta_count : Z.of_nat (List.length (written t)) <= maxEntries
}.
Definition grows (s s' : tally) (es : list (Header * string)) : Prop := written s' = written s ++ es /\ (tally_ok s -> small es -> tally_ok s').
Lemma grows_nil s : grows s s [].
Proof. split; [by rewrite app_nil_r | done]. Qed.
Lemma grows_app s1 s2 s3 l l' : grows s1 s2 l -> grows s2 s3 l' -> grows s1 s3 (l ++ l').
Proof. intros [E1 H1'] [E2 H2']. split; [by rewrite E2, E1, app_assoc|]. intros Hs [Hl Hl']%Forall_app. auto. Qed.

Definition entry (src : FS) (root q : path) : option (Header * string) := n ← src !! (root ++ q); header q n.
Lemma visit_ok rel n s i s' i' u : visit rel n s i = (s', i', Ok u) -> exists e, header rel n = Some e /\ grows s s' [e].
Proof.
  unfold visit. intros Hv. run Hv. destruct (header rel n) as [e|]; [|done]. case_match eqn:E; [done|]. apply works_ok in Hv as ->.
  exists e. split; [done|]. split; [done|]. apply orb_false_iff in E as [E1%Z.ltb_ge E2%Z.ltb_ge]. cbn [written bytes_] in *.
  intros [Hb Hr Hc] [He _]%Forall_cons. assert (i64 (bytes_ s + Size (fst e)) = bytes_ s + Size (fst e)) as Ei.
  { apply i64_id. unfold in_i64. unfold MaxBytes in Hr. lia. }
  rewrite Ei in *. constructor; cbn [written bytes_]; [rewrite sizes_app; cbn; lia | lia | done].
Qed.
Lemma walk_ok k src root rel s i s' i' u : walk k src root rel s i = (s', i', Ok u) ->
  exists es, Forall2 (fun q e => entry src root q = Some e) (listing k src root rel) es /\ grows s s' es.
Proof.
  revert rel s i s' i' u. induction k as [|k IH]; intros rel s i s' i' u Hw; cbn [walk listing] in *; [done|]. run Hw.
  destruct (src !! (root ++ rel)) as [[m|m c|]|] eqn:E; [| | |done].
  2, 3: apply visit_ok in Hw as (e & He & Hg); exists [e]; split; [|done]; constructor; [|constructor]; unfold entry; rewrite E; exact He.
  run Hw. apply bind_ok in Hw as (u1 & s1 & i1 & Hv & Hw). apply visit_ok in Hv as (e & He & Hg).
  assert (exists es, Forall2 (fun q e => entry src root q = Some e) (ReadDir src (root ++ rel) ≫= fun n => listing k src root (rel ++ [n])) es /\ grows s1 s' es) as (es & Hes & Hg').
  { clear -IH Hw. revert s1 i1 Hw. induction (ReadDir src (root ++ rel)) as [|n names IHn]; intros s1 i1 Hw.
    - injection Hw as <- _ _. exists []. split; [constructor | apply grows_nil].
    - apply bind_ok in Hw as (u2 & s2 & i2 & H1' & H2'). apply IH in H1' as (es1 & He1 & Hg1). apply IHn in H2' as (es2 & He2 & Hg2).
      exists (es1 ++ es2). split; [by apply Forall2_app | by eapply grows_app]. }
  exists (e :: es). split; [|by apply (grows_app _ s1 _ [e])]. constructor; [|done]. unfold entry. rewrite E. exact He.
Qed.
Lemma walk_volumes_ok src root vs s i s' i' u : walk_volumes src root vs s i = (s', i', Ok u) ->
  exists es, Forall2 (fun q e => entry src root q = Some e) (vs ≫= fun v => listing (S (levels src)) src root [v]) es /\ grows s s' es.
Proof.
  revert s i. induction vs as [|v vs IH]; intros s i Hw; cbn [walk_volumes] in Hw.
  - injection Hw as <- _ _. exists []. split; [constructor | apply grows_nil].
  - apply bind_ok in Hw as (u1 & s1 & i1 & H1' & H2'). apply walk_ok in H1' as (es1 & He1 & Hg1). apply IH in H2' as (es2 & He2 & Hg2).
    exists (es1 ++ es2). split; [by apply Forall2_app | by eapply grows_app].
Qed.

Section create.
Context `{Sha256} `{Tar} `{Codec Manifest}.

Definition manifest_of (raw : string) (n : nat) : Manifest := mkManifest 1 (hex_EncodeToString (sha256 raw)) (len raw) (Z.of_nat n).
Lemma Create_ok src root b i b' i' m : Create src root b i = (b', i', Ok m) ->
  exists es raw, Forall2 (fun q e => entry src root q = Some e) (everything src root) es /\ (small es -> tally_ok (mkTally es (sizes es))) /\
    tar_Write es = Some raw /\ m = manifest_of raw (List.length es) /\ isDir b && private (dPerm b) = true /\
    b' = mkBackup (isDir b) (dPerm b) (Some (file_of raw)) (Some (file_of (marshal m))).
Proof.
  unfold Create, privateDir. intros Hc. apply bind_ok in Hc as (u & b1 & i1 & Hp & Hc). run Hp. apply check_true in Hp as [Hp ->].
  apply bind_ok in Hc as (u2 & b2 & i2 & Ho & Hc).
  assert (b2 = set_tar b (Some (file_of ""))) as ->.
  { apply call_ok in Ho. by destruct (volumes_tar b); simplify_eq/=. }
  destruct (create_body src root _ i2) as [[b3 i3] [m'|e]] eqn:Eb; [|by unfold bind, remove_tar in Hc; destruct i3 as [|[]]].
  injection Hc as <- _ <-. unfold create_body in Eb.
  apply bind_ok in Eb as (es & b4 & i4 & Hw & Eb). destruct (walk_volumes _ _ _ _ _) as [[t i5] [u3|e]] eqn:Ew; [|done]. injection Hw as <- _ <-.
  apply walk_volumes_ok in Ew as (es & Hes & Eg & Ht). cbn [written app] in Eg.
  apply bind_ok in Eb as (raw & b5 & i6 & Hraw & Eb). destruct (tar_Write (written t)) as [raw'|] eqn:Etar; [|done]. injection Hraw as <- _ <-. run Eb.
  apply bind_ok in Eb as (u4 & b6 & i7 & Hj & Eb). apply bind_ok in Eb as (u5 & b7 & i8 & Hj' & Eb). run Eb. injection Eb as Eb1 _ <-.
  exists es, raw'. rewrite Eg in *. split_and!; try done.
  - intros Hs. assert (tally_ok t) as Hok by (apply Ht; [|done]; by constructor). destruct Hok as [H1' H2' H3']. rewrite Eg in *. constructor; cbn [written bytes_]; congruence.
  - apply call_ok in Hj, Hj'. rewrite <- Eb1. injection Hj' as <-. cbn [volumes_json set_tar] in Hj. destruct (volumes_json b); by simplify_eq/=.
Qed.
End create.
