(* ===== verification/RecoveryTrip.v ===== *)
(** * A backup restores what was backed up

    The round trip of [RecoveryArchive]: a backup of portable volumes verifies,
    and restoring it into empty volumes gives the same trees. *)

From S2P Require Import Prelude GoStd Control InstallPlan RecoveryArchive RecoveryProps RecoveryListing.
From stdpp Require Import base list gmap strings sorting.
From Stdlib Require Import ZArith Lia Ascii String.
Import files recoveryarchive.
Local Open Scope Z_scope.
Local Open Scope archive_scope.

(** ** Names *)

Definition plain (s : string) : Prop := proper s /\ strs.contains_byte "\" s = false.
Lemma join_cons x y l : join (x :: y :: l) = x +:+ String "/" (join (y :: l)).
Proof. done. Qed.
Lemma plain_proper l : Forall plain l -> Forall proper l.
Proof. intros Hl. eapply Forall_impl; [exact Hl|]. by intros ? []. Qed.
Lemma proper_slashless l : Forall proper l -> Forall slashless l.
Proof. intros Hl. eapply Forall_impl; [exact Hl|]. by intros ? []. Qed.
Lemma join_backslash l : Forall plain l -> strs.contains_byte "\" (join l) = false.
Proof.
  induction 1 as [|x l [_ Hx] Hl IH]; [done|]. destruct l as [|y l]; [done|]. rewrite join_cons, contains_app, Hx.
  change (strs.contains_byte "\" (join (y :: l)) = false). done.
Qed.
Lemma join_abs l : Forall proper l -> IsAbs (join l) = false.
Proof.
  destruct l as [|x l]; [done|]. intros [(Hs & Hn & _) _]%Forall_cons. destruct x as [|a x]; [done|].
  assert (Ascii.eqb a "/" = false) as Ha by (unfold slashless in Hs; cbn in Hs; by apply orb_false_iff in Hs as [? _]).
  assert (exists t, join (String a x :: l) = String a t) as [t ->] by (destruct l; [by eexists | rewrite join_cons; by eexists]).
  unfold IsAbs, strs.HasPrefix. cbn [String.prefix]. destruct (ascii_dec "/" a) as [Ea|]; [|done]. by rewrite <- Ea in Ha.
Qed.
Lemma Clean_join l : Forall proper l -> Clean (join l) = match l with [] => "." | _ => join l end.
Proof.
  intros Hl. unfold Clean. rewrite join_abs by done. destruct l as [|x l]; [done|]. rewrite elements_join by (done || by apply proper_slashless).
  rewrite clean_proper, app_nil_r, rev_involutive by done. rewrite (proj2 (String.eqb_neq _ "")); [done|].
  apply Forall_cons in Hl as [(_ & Hx & _) _]. destruct x as [|a x]; [done|]. by destruct l.
Qed.
Lemma join_inj l l' : l <> [] -> l' <> [] -> Forall proper l -> Forall proper l' -> join l = join l' -> l = l'.
Proof. intros Hn Hn' Hl Hl' E. rewrite <- (elements_join l), <- (elements_join l') by (done || by apply proper_slashless). by rewrite E. Qed.
Lemma Forall_parent (P : string -> Prop) l : Forall P l -> Forall P (parent l).
Proof. apply Forall_take. Qed.
Lemma Dir_join l : l <> [] -> Forall proper l -> Dir_ (join l) = match parent l with [] => "." | _ => join (parent l) end.
Proof. intros Hn Hl. unfold Dir_. rewrite elements_join by (done || by apply proper_slashless). by apply Clean_join, Forall_parent. Qed.
Lemma cut_join_first v r : slashless v -> match strs.cut_byte "/" (join (v :: r)) with Some (f, _) => f | None => join (v :: r) end = v.
Proof.
  intros Hv. destruct r as [|y r].
  - cbn. destruct (strs.cut_byte "/" v) as [[f q]|] eqn:E; [|done]. exfalso. revert f q E. unfold slashless in Hv.
    induction v as [|a v IH]; intros f q; [done|]. cbn in *. apply orb_false_iff in Hv as [-> Hv]. destruct (strs.cut_byte "/" v) as [[]|]; [by intros _; eapply IH | done].
  - rewrite join_cons. change (String "/" (join (y :: r))) with (String "/" "" +:+ join (y :: r)). by rewrite strs.cut_join.
Qed.

(** ** Portable volumes *)

(** What the archive format and the verification accept: volumes that are
    directories, names without separators, identities of 16 bits, modes of nine
    bits and sizes of files. *)
Record portable (src : FS) (root : path) : Prop := {
  po_volume : forall v, v ∈ Volumes -> exists m, src !! (root ++ [v]) = Some (Dir m);
  po_tree : forall v, v ∈ Volumes -> tree src root [v];
  po_names : forall v r, v ∈ Volumes -> is_Some (src !! (root ++ v :: r)) -> Forall plain r;
  po_meta : forall v r n m, v ∈ Volumes -> src !! (root ++ v :: r) = Some n -> meta_of n = Some m ->
    0 <= Perm m <= 511 /\ 0 <= Uid m <= 65535 /\ 0 <= Gid m <= 65535;
  po_size : forall v r m s, v ∈ Volumes -> src !! (root ++ v :: r) = Some (File m s) -> len s < 2 ^ 62
}.
Lemma Volumes_plain v : v ∈ Volumes -> plain v.
Proof.
  intros Hv. assert (Forall (fun v => strs.contains_byte "/" v = false /\ v <> "" /\ v <> "." /\ v <> ".." /\ strs.contains_byte "\" v = false) Volumes) as Ha
    by (apply (bool_decide_unpack _); by vm_compute).
  rewrite Forall_forall in Ha. destruct (Ha v Hv) as (? & ? & ? & ? & ?). by repeat split.
Qed.

Section trip.
Context (src : FS) (root : path) (Hpo : portable src root).

Lemma listed q : q ∈ everything src root -> exists v r, q = v :: r /\ v ∈ Volumes /\ is_Some (src !! (root ++ q)) /\ Forall plain q.
Proof.
  intros (v & r & -> & Hv & Hs)%everything_spec; [|apply (po_tree _ _ Hpo)]. exists v, r. split_and!; try done.
  constructor; [by apply Volumes_plain | by eapply (po_names _ _ Hpo)].
Qed.
Lemma entry_valid q e : q ∈ everything src root -> entry src root q = Some e ->
  validHeader (fst e) = true /\ Name (fst e) = join q /\ 0 <= Size (fst e) < 2 ^ 62 /\ Size (fst e) = len (snd e).
Proof.
  intros (v & r & -> & Hv & [n Hn] & Hp)%listed. unfold entry. rewrite Hn. cbn [mbind option_bind]. intros He.
  assert (0 <= len "" /\ forall s, 0 <= len s) as [_ Hlen] by (unfold len; split; intros; lia).
  assert (exists m, meta_of n = Some m /\ fst e = mkHeader (join (v :: r)) (if is_dir n then TypeDir else TypeReg) (len (snd e)) (Perm m) (Uid m) (Gid m) "" 0 /\ (is_dir n = true -> snd e = "")
     /\ len (snd e) < 2 ^ 62) as (m & Hm & Eh & Hd & Hsz).
  { destruct n as [m|m s|]; cbn in He; [| |done]; injection He as <-; exists m; split_and!; try done. by eapply (po_size _ _ Hpo). }
  rewrite Eh. cbn [Name Size]. split_and!; try done. destruct (po_meta _ _ Hpo v r n m Hv Hn Hm) as (H1' & H2' & H3').
  pose proof (plain_proper _ Hp) as Hpr. unfold validHeader. cbn [Name Size hUid hGid Mode Linkname PAXRecords hType].
  rewrite Clean_join, String.eqb_refl, join_backslash, join_abs by done.
  rewrite (proj2 (String.eqb_neq (join (v :: r)) "")).
  2: { apply Forall_cons in Hpr as [(_ & Hx & _) _]. destruct v as [|a v]; [done|]. by destruct r. }
  repeat (rewrite (proj2 (Z.ltb_ge _ _)) by (first [lia | apply Hlen])). cbn [negb orb Nat.ltb Nat.leb].
  rewrite cut_join_first by (by apply Forall_cons in Hpr as [[? _] _]).
  assert (existsb (String.eqb v) Volumes = true) as -> by (apply existsb_exists; exists v; split; [by apply list_elem_of_In | apply String.eqb_refl]).
  destruct (is_dir n) eqn:Edir.
  - rewrite Hd by done. rewrite andb_false_r. done.
  - destruct r as [|x r].
    + destruct (po_volume _ _ Hpo v Hv) as [m' Hm']. rewrite Hm' in Hn. by injection Hn as <-.
    + rewrite (proj2 (String.eqb_neq v (join (v :: x :: r)))); [done|]. intros E. apply (join_inj [v] (v :: x :: r)) in E; [done | done | done | | done].
      apply Forall_cons in Hpr as [Hpv _]. by repeat constructor; apply Hpv.
Qed.

(** ** Verification *)

Definition single (q : path) : Prop := exists v, q = [v].
Definition bodies (es : list (Header * string)) : list (Header * result unit string) := (fun e => (fst e, Ok (snd e))) <$> es.
Lemma parent_single v : parent [v] = [].
Proof. done. Qed.
Lemma parent_nonempty q : ~ single q -> q <> [] -> parent q <> [].
Proof. destruct q as [|x [|y q]]; [done | intros Hs; destruct Hs; by exists x | done]. Qed.
Lemma sizes_nonneg es : small es -> 0 <= sizes es.
Proof. unfold sizes. induction 1 as [|e es He _ IH]; cbn; lia. Qed.

Context {S : Type}.
Lemma verify_entries (s : S) l es D seen dirs count size :
  Forall2 (fun q e => entry src root q = Some e) l es -> (forall q, q ∈ l -> q ∈ everything src root) -> NoDup l -> rooted src root single D l ->
  (forall q, q ∈ l -> join q ∉ seen) -> (forall d, d ∈ D -> (exists m, src !! (root ++ d) = Some (Dir m)) -> join d ∈ dirs) ->
  0 <= size -> size + sizes es <= MaxBytes -> count + Z.of_nat (List.length es) <= maxEntries ->
  exists seen', verify_loop (bodies es) true seen dirs count size s [] = (s, [], Ok (seen', count + Z.of_nat (List.length es))) /\
    forall x, x ∈ seen' <-> x ∈ seen \/ exists q, q ∈ l /\ x = join q.
Proof.
  intros Hes. revert D seen dirs count size. induction Hes as [|q e l es He Hes IH]; intros D seen dirs count size Hl Hnd Hroot Hseen Hdirs Hs0 Hsz Hc.
  - exists seen. cbn. split; [by rewrite Z.add_0_r|]. set_solver.
  - cbn [bodies fmap list_fmap verify_loop]. unfold bind at 1. cbn [live]. destruct (entry_valid q e) as (Hv & Hname & Hsize & _); [set_solver | done |].
    assert (forall q', q' ∈ q :: l -> q' <> [] /\ Forall proper q') as Hpr.
    { intros q' Hq'. apply Hl, listed in Hq' as (v & r & -> & _ & _ & Hp%plain_proper). done. }
    destruct (Hpr q) as [Hq0 Hqp]; [left|]. rewrite Hv, Hname. rewrite bool_decide_false by (apply Hseen; left). cbn [negb orb].
    destruct Hroot as [Hq Hroot]. apply NoDup_cons in Hnd as [Hnew Hnd].
    assert (negb (String.eqb (Dir_ (join q)) ".") && negb (bool_decide (Dir_ (join q) ∈ dirs)) = false) as ->.
    { rewrite Dir_join by done. destruct Hq as [[v ->]|[Hpar Hdir]]; [done|]. specialize (Hdirs _ Hpar Hdir).
      destruct (parent q) as [|x p]; [done|]. by rewrite (bool_decide_true _ Hdirs), andb_false_r. }
    assert (small es) as Hsm.
    { apply Forall_forall. intros e' He'. destruct (list_elem_of_lookup_1 _ _ He') as [k Hk]. destruct (Forall2_lookup_r _ _ _ _ _ Hes Hk) as (q' & Hq' & Ee').
      apply (entry_valid q' e'); [apply Hl; right; by eapply list_elem_of_lookup_2 | done]. }
    pose proof (sizes_nonneg es Hsm) as Hpos. change (sizes (e :: es)) with (Size (fst e) + sizes es) in Hsz. cbn [List.length] in Hc.
    rewrite i64_id by (unfold in_i64, MaxBytes in *; lia). rewrite (proj2 (Z.ltb_ge maxEntries _)), (proj2 (Z.ltb_ge MaxBytes _)) by lia. cbn [orb].
    unfold bind at 1. cbn [works read call].
    destruct (IH (q :: D) ({[join q]} ∪ seen) (if decide (hType (fst e) = TypeDir) then {[join q]} ∪ dirs else dirs) (count + 1) (size + Size (fst e)))
      as (seen' & E & Hs'); try done; try lia.
    + set_solver.
    + intros q' Hq'. rewrite not_elem_of_union, not_elem_of_singleton. split; [|apply Hseen; by right]. intros Ej. destruct (Hpr q') as [? ?]; [by right|].
      apply join_inj in Ej; [by subst | done..].
    + intros d Hd [m Hm]. apply elem_of_cons in Hd as [->|Hd]; [|case_decide; [|by eauto]; apply elem_of_union; right; by eauto].
      unfold entry in He. rewrite Hm in He. cbn in He. injection He as <-. cbn. set_solver.
    + exists seen'. split; [etrans; [exact E|]; do 3 f_equal; cbn [List.length]; lia|]. intros x. rewrite Hs'. set_solver.
Qed.

(** ** Extraction *)

Context (root' : path).
Local Ltac settle := repeat (progress rewrite ?lookup_insert_eq, ?bool_decide_true by done; cbn [is_dir ret meta_of with_meta Uid Gid Perm fmap option_fmap option_map]).
Lemma extract_dir h body (fs : FS) p : resolve root' (Name h) = p -> hType h = TypeDir ->
  (fs !! p = None /\ in_dir fs p = true \/ exists m, fs !! p = Some (Dir m) /\ Uid m = 0) ->
  extract root' h body fs [] = (<[p := Dir (mkMeta (Mode h) (hUid h) (hGid h))]> fs, [], Ok tt).
Proof.
  intros Ep Et Hp. unfold extract. rewrite Ep. rewrite decide_True by done. unfold bind, Mkdir_forgiving, Lstat, read, Chmod, Chown, check, call.
  destruct Hp as [[Hp Hi]|(m & Hp & Hu)]; rewrite Hp.
  - rewrite Hi. settle. by rewrite !insert_insert_eq.
  - rewrite Hp. cbn [is_dir ret meta_of]. rewrite Hp. cbn [meta_of fmap option_fmap option_map]. rewrite bool_decide_true by (by rewrite Hu). settle. by rewrite !insert_insert_eq.
Qed.
Lemma extract_file h (fs : FS) p c : resolve root' (Name h) = p -> hType h = TypeReg -> Size h = len c ->
  fs !! p = None -> in_dir fs p = true ->
  extract root' h (Ok c) fs [] = (<[p := File (mkMeta (Mode h) (hUid h) (hGid h)) c]> fs, [], Ok tt).
Proof.
  intros Ep Et Es Hp Hi. unfold extract. rewrite Ep. rewrite decide_False by (by rewrite Et). unfold bind, OpenExclusive, CopyN, works, read, Chmod, Chown, call, set_content.
  rewrite Hi, bool_decide_false by (rewrite Hp; by intros []). cbn [negb andb]. rewrite Es, Z.eqb_refl. settle. by rewrite !insert_insert_eq.
Qed.
Definition target (fs : FS) (q : path) : Prop :=
  fs !! (root' ++ q) = None /\ ~ single q \/ single q /\ exists m, fs !! (root' ++ q) = Some (Dir m) /\ Uid m = 0.
Lemma restore_entries (fs : FS) l es D :
  Forall2 (fun q e => entry src root q = Some e) l es -> (forall q, q ∈ l -> q ∈ everything src root) -> NoDup l -> rooted src root single D l ->
  (forall q, q ∈ D -> fs !! (root' ++ q) = src !! (root ++ q)) -> (forall q, q ∈ l -> target fs q) ->
  exists fs', restore_loop root' (bodies es) true fs [] = (fs', [], Ok tt) /\
    (forall q, q ∈ l -> fs' !! (root' ++ q) = src !! (root ++ q)) /\ (forall p, (forall q, q ∈ l -> p <> root' ++ q) -> fs' !! p = fs !! p).
Proof.
  intros Hes. revert fs D. induction Hes as [|q e l es He Hes IH]; intros fs D Hl Hnd Hroot HD Ht.
  - exists fs. cbn. split_and!; [done | set_solver | done].
  - cbn [bodies fmap list_fmap restore_loop]. unfold bind at 1. cbn [live]. destruct (entry_valid q e) as (Hv & Hname & _ & Hsize); [set_solver | done |].
    rewrite Hv. cbn [negb]. destruct Hroot as [Hq Hroot]. apply NoDup_cons in Hnd as [Hnew Hnd].
    assert (q ∈ everything src root) as Hin by (apply Hl; left). apply listed in Hin as (v & r & Eq & Hvol & [n Hn] & Hp%plain_proper).
    assert (resolve root' (Name (fst e)) = root' ++ q) as Eres.
    { rewrite Hname, resolve_below; rewrite elements_join by first [by rewrite Eq | by apply proper_slashless]; done. }
    assert (~ single q -> in_dir fs (root' ++ q) = true) as Hdir.
    { intros Hs. destruct Hq as [|[Hpar [m Hm]]]; [done|]. unfold in_dir.
      replace (parent (root' ++ q)) with (root' ++ parent q); [by rewrite HD, Hm|]. subst q.
      destruct (exists_last (l := v :: r)) as (q0 & x & ->); [done|]. by rewrite app_assoc, !parent_snoc. }
    assert (extract root' (fst e) (Ok (snd e)) fs [] = (<[root' ++ q := n]> fs, [], Ok tt)) as Eex.
    { unfold entry in He. rewrite Hn in He. destruct (Ht q) as [[Hf Hs]|[Hs Hf]]; [left| |].
      - destruct n as [m|m c|]; cbn in He; [| |done]; injection He as <-; cbn [fst snd] in *.
        + rewrite (extract_dir _ _ _ _ Eres); [by destruct m | done | left; auto].
        + rewrite (extract_file _ _ _ c Eres); [by destruct m | done | done | done | auto].
      - destruct Hs as [w Ew]. destruct (po_volume _ _ Hpo v Hvol) as [m Hm]. rewrite Eq in Ew. injection Ew as -> ->. subst q. rewrite Hm in Hn. injection Hn as <-.
        cbn in He. injection He as <-. rewrite (extract_dir _ _ _ _ Eres); [by destruct m | done | by right]. }
    unfold bind at 1. rewrite Eex.
    destruct (IH (<[root' ++ q := n]> fs) (q :: D)) as (fs' & E & Hsame & Hother); try done.
    + set_solver.
    + intros q' [->|Hq']%elem_of_cons; [by rewrite lookup_insert_eq|]. destruct (decide (q' = q)) as [->|Hne]; [by rewrite lookup_insert_eq|].
      rewrite lookup_insert_ne by (by intros ->%app_inv_head). by apply HD.
    + intros q' Hq'. unfold target. rewrite lookup_insert_ne by (intros ->%app_inv_head; done). apply Ht. by right.
    + exists fs'. split_and!; [done | |].
      * intros q' [->|Hq']%elem_of_cons; [|by apply Hsame]. rewrite Hother by (intros q'' Hq'' ->%app_inv_head; done). by rewrite lookup_insert_eq.
      * intros p Hpn. rewrite Hother by (intros; apply Hpn; by right). apply lookup_insert_ne. intros <-. by apply (Hpn q); [left|].
Qed.
End trip.

(** ** The round trip *)

Lemma hex_chars s : forallb (fun c => control.in_range 97 102 c || control.is_digit c) (list_ascii_of_string (hex_EncodeToString s)) = true.
Proof.
  unfold hex_EncodeToString. rewrite list_ascii_of_string_of_list_ascii. apply forallb_forall. intros c Hc%list_elem_of_In.
  apply list_elem_of_fmap in Hc as (d & -> & Hd). apply list_elem_of_join in Hd as (l & Hd & Hl). apply list_elem_of_fmap in Hl as (x & -> & Hx).
  assert (0 <= d < 16) as Hr.
  { pose proof (bytes_range s) as Hb. rewrite Forall_forall in Hb. specialize (Hb x Hx). unfold is_byte in Hb.
    apply elem_of_cons in Hd as [->|[->|[]%elem_of_nil]%elem_of_cons]; Z.to_euclidean_division_equations; lia. }
  assert (forall n : nat, (n < 16)%nat -> control.in_range 97 102 (hex_digit (Z.of_nat n)) || control.is_digit (hex_digit (Z.of_nat n)) = true) as Hall.
  { intros n Hn. do 16 (destruct n as [|n]; [by vm_compute|]). lia. }
  specialize (Hall (Z.to_nat d) ltac:(lia)). by rewrite Z2Nat.id in Hall by lia.
Qed.

Section roundtrip.
Context `{Sha256} `{!Sha256Laws} `{Tar} `{!TarLaws} `{Codec Manifest}.
Definition honest (m : Manifest) : Prop := Schema m = 1 /\ lower_hex (SHA256 m) = true /\ 0 <= Bytes m < 2 ^ 63 /\ 0 <= Entries m < 2 ^ 63.
Context `{!CodecLaws Manifest honest}.
(** A manifest is a short document. *)
Hypothesis manifest_short : forall m, honest m -> len (marshal m) <= 4096.

Lemma hex_lower s : len s = 32 -> lower_hex (hex_EncodeToString s) = true.
Proof. intros Hs. unfold lower_hex, installplan.setupDigestPattern. by rewrite hex_length, Hs, hex_chars. Qed.
Lemma empty_volumes_pass (fs : FS) root vs : (forall v, v ∈ vs -> exists m, fs !! (root ++ [v]) = Some (Dir m)) -> (forall v x, v ∈ vs -> fs !! (root ++ [v; x]) = None) ->
  empty_volumes root vs fs [] = (fs, [], Ok tt).
Proof.
  intros Hd He. induction vs as [|v vs IH]; [done|]. cbn [empty_volumes]. unfold bind, Lstat, read, call. destruct (Hd v) as [m Hm]; [left|]. rewrite Hm. cbn [is_dir check ret].
  assert (ReadDir fs (root ++ [v]) = []) as ->.
  { apply elem_of_nil_inv. intros x Hx%ReadDir_spec. rewrite <- app_assoc in Hx. cbn [app] in Hx. rewrite He in Hx by left. by destruct Hx. }
  cbn. apply IH; intros; [apply Hd | apply He]; by right.
Qed.
Lemma tar_bound_sizes es : tar_bound es = 1024 * (Z.of_nat (List.length es) + 1) + sizes es.
Proof. unfold tar_bound, sizes. induction es as [|e es IH]; [done|]. cbn [foldr List.length]. lia. Qed.
Lemma everything_seven src root : portable src root -> (7 <= List.length (everything src root))%nat.
Proof.
  intros Hpo. assert ((fun v => [v]) <$> Volumes ⊆+ everything src root) as Hsub%submseteq_length; [|exact Hsub].
  apply NoDup_submseteq; [apply (bool_decide_unpack _); by vm_compute|]. intros q (v & -> & Hv)%list_elem_of_fmap.
  apply everything_spec; [apply (po_tree _ _ Hpo)|]. exists v, []. split_and!; try done. destruct (po_volume _ _ Hpo v Hv) as [m Hm]. by rewrite Hm.
Qed.

(** Up to its entries, the verification of a backup reads what was written. *)
Lemma Verify_reads {S : Type} b m raw (s : S) : isDir b && private (dPerm b) = true -> honest m -> Schema m = 1 ->
  1024 <= Bytes m <= MaxBytes + 2 ^ 30 -> 7 <= Entries m <= maxEntries -> Bytes m = len raw -> SHA256 m = hex_EncodeToString (sha256 raw) ->
  Verify (mkBackup (isDir b) (dPerm b) (Some (file_of raw)) (Some (file_of (marshal m)))) s [] =
  (let '(es, eof) := tar_Read raw in
   do! (seen, count) ← verify_loop es eof ∅ ∅ 0 0;
   check (forallb (fun v => bool_decide (v ∈ seen)) Volumes && (count =? Entries m)) ;! ret m) s [].
Proof.
  intros Hp Hon Hs Hb He Hlen Hsha. pose proof (manifest_short m Hon) as Hshort. pose proof Hon as (_ & Hhex & _).
  assert (ReadManifest (mkBackup (isDir b) (dPerm b) (Some (file_of raw)) (Some (file_of (marshal m)))) s [] = (s, [], Ok m)) as Hm.
  { unfold ReadManifest, privateDir, bind, works, read, call, check, file_of. cbn [isDir dPerm volumes_json regular fPerm content]. rewrite Hp. cbn [ret].
    change (private 384) with true. cbn [negb orb]. rewrite (proj2 (Z.ltb_ge 4096 _)) by done.
    rewrite str_take_all by (unfold len in Hshort; lia). rewrite decode_strict_marshal by done. rewrite Hs, Hhex.
    repeat (rewrite (proj2 (Z.ltb_ge _ _)) by lia). done. }
  assert (archiveFile (Some (file_of raw)) s [] = (s, [], Ok raw)) as Ha by done.
  unfold Verify. unfold bind at 1. rewrite Hm. unfold bind at 1. cbn [volumes_tar]. rewrite Ha. unfold bind at 1 2 3 4 5, works, read, call, check.
  by rewrite Hlen, Hsha, Z.eqb_refl, String.eqb_refl.
Qed.
(** A created backup of portable volumes verifies. *)
Lemma Verify_created {S : Type} src root b i b' i' m (s : S) : portable src root -> Create src root b i = (b', i', Ok m) -> Verify b' s [] = (s, [], Ok m).
Proof.
  intros Hpo (es & raw & Hes & Hsm & Hraw & Em & Hpriv & ->)%Create_ok.
  assert (forall e, e ∈ es -> exists q, q ∈ everything src root /\ entry src root q = Some e) as Hfrom.
  { intros e He. destruct (list_elem_of_lookup_1 _ _ He) as [k Hk]. destruct (Forall2_lookup_r _ _ _ _ _ Hes Hk) as (q & Hq & Eq). exists q. split; [by eapply list_elem_of_lookup_2 | done]. }
  destruct Hsm as [_ Hrange Hcount]; [apply Forall_forall; intros e (q & Hq & Eq)%Hfrom; by eapply entry_valid|]. cbn [written bytes_] in *.
  assert (1024 <= len raw <= tar_bound es) as Hlen by (apply write_bytes; [done|]; intros e (q & Hq & Eq)%Hfrom; by eapply entry_valid). rewrite tar_bound_sizes in Hlen.
  pose proof (everything_seven src root Hpo) as Hseven. rewrite (Forall2_length _ _ _ Hes) in Hseven.
  assert (honest m) as Hon by (rewrite Em; split; [done|]; split; [apply hex_lower, sha256_length | cbn; unfold MaxBytes, maxEntries in *; lia]).
  rewrite (Verify_reads _ m raw); [|done|done|by rewrite Em| | |by rewrite Em|by rewrite Em]; [|rewrite Em; cbn; unfold maxEntries, MaxBytes in *; lia..].
  rewrite (read_write es raw Hraw). change ((fun e => (fst e, Ok (snd e))) <$> es) with (bodies es).
  destruct (verify_entries src root Hpo s (everything src root) es [] ∅ ∅ 0 0) as (seen & E & Hseen); try done; try lia.
  - apply everything_NoDup.
  - apply everything_rooted.
  - by intros d ?%elem_of_nil.
  - unfold bind. rewrite E. replace (0 + Z.of_nat (List.length es) =? Entries m) with true by (rewrite Em; cbn; symmetry; apply Z.eqb_eq; lia).
    assert (forallb (fun v => bool_decide (v ∈ seen)) Volumes = true) as ->; [|done]. apply forallb_forall. intros v Hv%list_elem_of_In. apply bool_decide_eq_true, Hseen. right.
    exists [v]. split; [|done]. apply everything_spec; [apply (po_tree _ _ Hpo)|]. exists v, []. split_and!; try done. destruct (po_volume _ _ Hpo v Hv) as [m' Hm']. by rewrite Hm'.
Qed.

(** C22: A backup restores what was backed up. A backup that [Create] reports of
    portable volumes, on whatever luck of the system calls, verifies with the
    manifest that it reported, although its size is bounded only through its
    entries; and restoring it into empty volumes of another root, which the
    helper owns, succeeds and gives every volume the same tree, with the same
    contents, modes and owners, and nothing else. *)
Theorem backups_restore src root b i b' i' m (fs : FS) root' :
  portable src root -> Create src root b i = (b', i', Ok m) ->
  (forall v, v ∈ Volumes -> exists d, fs !! (root' ++ [v]) = Some (Dir d) /\ Uid d = 0) ->
  (forall v x r, v ∈ Volumes -> fs !! (root' ++ v :: x :: r) = None) ->
  Verify b' fs [] = (fs, [], Ok m) /\
  exists fs', Restore b' (volumes_tar b') root' fs [] = (fs', [], Ok tt) /\
    (forall v r, v ∈ Volumes -> fs' !! (root' ++ v :: r) = src !! (root ++ v :: r)) /\
    (forall p, ~ volume_of root' p -> fs' !! p = fs !! p).
Proof.
  intros Hpo Hc Hd He. assert (Verify b' fs [] = (fs, [], Ok m)) as Hv by (by eapply Verify_created). split; [done|].
  destruct (Create_ok _ _ _ _ _ _ _ Hc) as (es & raw & Hes & _ & Hraw & _ & _ & ->). cbn [volumes_tar].
  assert (forall q, q ∈ everything src root -> exists v r, q = v :: r /\ v ∈ Volumes) as Hall.
  { intros q (v & r & -> & Hvol & _)%everything_spec; [by exists v, r | apply (po_tree _ _ Hpo)]. }
  destruct (restore_entries src root Hpo root' fs (everything src root) es []) as (fs' & E & Hsame & Hother); try done.
  - apply everything_NoDup.
  - apply everything_rooted.
  - by intros q ?%elem_of_nil.
  - intros q (v & [|x r] & -> & Hvol)%Hall; [right; split; [by exists v | by apply Hd] | left; split; [by apply He | by intros [? [=]]]].
  - exists fs'. split_and!.
    + unfold Restore. unfold bind at 1. rewrite Hv. unfold bind at 1. rewrite empty_volumes_pass; [| |by intros; apply He].
      2: { intros v Hvol. destruct (Hd v Hvol) as (d & Ed & _). by exists d. }
      unfold bind at 1. change (archiveFile (Some (file_of raw)) fs []) with (fs, [] : io, @Ok error string raw). cbn iota beta.
      rewrite (read_write es raw Hraw). exact E.
    + intros v r Hvol. destruct (src !! (root ++ v :: r)) as [n|] eqn:En.
      * rewrite Hsame; [done|]. apply everything_spec; [apply (po_tree _ _ Hpo)|]. exists v, r. by rewrite En.
      * transitivity (fs !! (root' ++ v :: r)); [apply Hother|].
        2: { destruct r as [|x r]; [|by apply He]. destruct (po_volume _ _ Hpo v Hvol) as [m' Hm']. by rewrite Hm' in En. }
        intros q Hq <-%app_inv_head. apply everything_spec in Hq; [|apply (po_tree _ _ Hpo)]. destruct Hq as (? & ? & _ & _ & [? Hs]). by rewrite Hs in En.
    + intros p Hp. apply Hother. intros q (v & r & -> & Hvol)%Hall ->. apply Hp. by exists v, r.
Qed.
End roundtrip.
