(* ===== verification/RecoveryExample.v ===== *)
(** * A concrete backup

    Seven small volumes are archived in a simple format, verified and restored
    below another root; and a restoration of a tampered archive is refused. The
    witnesses of the theorems on backups run on it. *)

From S2P Require Import Prelude GoStd Control InstallPlan InstallCost RecoveryArchive RecoveryProps RecoveryListing RecoveryTrip AdminAuth Publication PublicationExample.
From stdpp Require Import base list gmap strings sorting pretty.
From Stdlib Require Import ZArith Lia Ascii String.
Import files recoveryarchive example.
Local Open Scope Z_scope.

Module recoveryexample.

(** ** A simple archive format *)

Definition newline : string := String "010" "".
Definition line (s : string) : string := s +:+ newline.
Definition type_text (t : Typeflag) : string := match t with TypeReg => "reg" | TypeDir => "dir" | TypeOther => "other" end.
Definition type_of (s : string) : Typeflag := if String.eqb s "dir" then TypeDir else if String.eqb s "reg" then TypeReg else TypeOther.
Definition rx_print (e : Header * string) : string :=
  let h := fst e in
  line (Name h) +:+ line (type_text (hType h)) +:+ line (pretty (Size h)) +:+ line (pretty (Mode h)) +:+ line (pretty (hUid h)) +:+ line (pretty (hGid h)) +:+ snd e.
(** The end of an archive is 1024 zero bytes. *)
Definition rx_end : string := string_of_list_ascii (replicate (Z.to_nat 1024) "000"%char).
Fixpoint rx_parse (fuel : nat) (s : string) : option (list (Header * string)) :=
  match fuel with
  | O => None
  | S k =>
      if String.eqb s rx_end then Some [] else
      '(name, s) ← strs.cut_byte "010" s; '(t, s) ← strs.cut_byte "010" s; '(size, s) ← strs.cut_byte "010" s;
      '(mode, s) ← strs.cut_byte "010" s; '(uid, s) ← strs.cut_byte "010" s; '(gid, s) ← strs.cut_byte "010" s;
      size ← installplan.ParseInt size; mode ← installplan.ParseInt mode; uid ← installplan.ParseInt uid; gid ← installplan.ParseInt gid;
      es ← rx_parse k (str_drop (Z.to_nat size) s);
      Some ((mkHeader name (type_of t) size mode uid gid "" 0, str_take (Z.to_nat size) s) :: es)
  end.
(** The writer refuses what it could not read back. *)
Definition rx_write (es : list (Header * string)) : option string :=
  let b := foldr (fun e s => rx_print e +:+ s) rx_end es in
  if bool_decide (rx_parse (String.length b) b = Some es) && (1024 <=? len b) && (len b <=? tar_bound es) then Some b else None.
#[local] Instance rx_tar : Tar := {|
  tar_Read b := match rx_parse (String.length b) b with Some es => ((fun e => (fst e, Ok (snd e))) <$> es, true) | None => ([], false) end;
  tar_Write es := rx_write es
|}.
#[local] Instance rx_laws : TarLaws.
Proof.
  assert (forall es b, rx_write es = Some b -> rx_parse (String.length b) b = Some es /\ 1024 <= len b <= tar_bound es) as Hw.
  { intros es b. unfold rx_write. case_match eqn:E; [|done]. intros [= <-].
    apply andb_true_iff in E as [[E1%bool_decide_eq_true E2%Z.leb_le]%andb_true_iff E3%Z.leb_le]. done. }
  constructor; cbn [tar_Read tar_Write rx_tar].
  - intros es b Hb. destruct (Hw es b Hb) as [Hp _]. by rewrite Hp.
  - intros es b Hb _. by apply Hw.
Qed.

(** ** Manifests and digests *)

#[local] Instance rx_sha : Sha256 := ex_sha256.
#[local] Instance rx_sha_laws : Sha256Laws.
Proof.
  intros s. unfold sha256, rx_sha, ex_sha256, len.
  assert (forall l h, 0 <= h -> 0 <= fold_left (fun h b => (h * 257 + b + 1) mod 10 ^ 32) l h) as Hf.
  { intros l. induction l as [|b l IH]; intros h Hh; [done|]. cbn [fold_left]. apply IH. by apply Z.mod_pos_bound. }
  by rewrite (proj1 (adminauth.zero_padded_digits 32 _ (Hf (bytes s) 7 ltac:(done)))).
Qed.
Definition comma : string := ",".
#[local] Instance rx_codec : Codec Manifest := {|
  marshal m := SHA256 m +:+ comma +:+ cost.int_String (Bytes m) +:+ comma +:+ cost.int_String (Entries m);
  GoStd.decode s :=
    match strs.split_byte "," s with
    | [h; b; e] => b ← cost.decimal (list_ascii_of_string b); e ← cost.decimal (list_ascii_of_string e); Some (mkManifest 1 h b e, "")
    | _ => None
    end
|}.
Lemma no_comma l : forallb (fun c => control.in_range 97 102 c || control.is_digit c) l = true -> strs.contains_byte "," (string_of_list_ascii l) = false.
Proof.
  induction l as [|a l IH]; [done|]. cbn. intros [Ha Hl]%andb_true_iff. rewrite IH by done. rewrite orb_false_r.
  destruct (Ascii.eqb_spec a ",") as [->|]; [by vm_compute in Ha | done].
Qed.
Lemma int_String_decimal n : 0 <= n -> cost.decimal (list_ascii_of_string (cost.int_String n)) = Some n /\ strs.contains_byte "," (cost.int_String n) = false.
Proof.
  intros Hn. destruct (cost.int_String_text n Hn) as (ds & -> & _ & Hd & Hv). unfold cost.text. rewrite list_ascii_of_string_of_list_ascii. split.
  - by rewrite cost.decimal_text, Hv.
  - apply no_comma. apply forallb_forall. intros c Hc%list_elem_of_In. apply list_elem_of_fmap in Hc as (d & -> & Hin). rewrite Forall_forall in Hd. specialize (Hd d Hin).
    unfold control.is_digit, control.in_range. rewrite cost.byte_of_digit by done. unfold cost.digit in Hd. apply orb_true_iff. right. apply andb_true_iff. rewrite !Z.leb_le. lia.
Qed.
#[local] Instance rx_codec_laws : CodecLaws Manifest honest.
Proof.
  intros [sc h b e] (Hs & Hh & Hb & He). cbn in Hs, Hh, Hb, He. subst sc. cbn [GoStd.decode marshal rx_codec SHA256 Bytes Entries].
  destruct (int_String_decimal b) as [Eb Nb]; [lia|]. destruct (int_String_decimal e) as [Ee Ne]; [lia|].
  assert (strs.contains_byte "," h = false) as Nh by (rewrite <- (string_of_list_ascii_of_string h); apply no_comma; by apply andb_true_iff in Hh as [_ ?]).
  change (comma +:+ cost.int_String b +:+ comma +:+ cost.int_String e) with (String "," (cost.int_String b +:+ String "," (cost.int_String e))).
  rewrite !strs.split_cons, strs.split_none by done. by rewrite Eb, Ee.
Qed.
Lemma rx_decimals_length k n : (List.length (cost.decimals k n) <= k)%nat.
Proof. revert n. induction k as [|k IH]; intros n; cbn; [lia|]. case_match; cbn; [lia|]. rewrite length_app. cbn. specialize (IH (n / 10)). lia. Qed.
Lemma int_String_short n : 0 <= n < 2 ^ 63 -> len (cost.int_String n) <= 63.
Proof.
  intros Hn. unfold len, cost.int_String. rewrite length_string_of_list_ascii, length_fmap. pose proof (rx_decimals_length (S (Z.to_nat (Z.log2 n))) n) as Hl.
  assert (Z.log2 n <= 62) as Hg by (destruct (decide (n = 0)) as [->|]; [done|]; assert (Z.log2 n < 63) by (apply Z.log2_lt_pow2; lia); lia). lia.
Qed.
Lemma rx_short m : honest m -> len (marshal m) <= 4096.
Proof.
  intros (_ & Hh & Hb & He). cbn [marshal rx_codec]. unfold len. rewrite !str_length_app. pose proof (int_String_short _ Hb). pose proof (int_String_short _ He).
  apply andb_true_iff in Hh as [Hl%Z.eqb_eq _]. unfold len in *. cbn [comma String.length]. lia.
Qed.

(** ** Volumes and their backup *)

Definition rx_root : path := ["volumes"].
Definition rx_list : list (path * node) :=
  [(["volumes"; "database"; "base"; "1"], File (mkMeta 384 70 70) "rows"); (["volumes"; "database"; "base"], Dir (mkMeta 448 70 70));
   (["volumes"; "state"; "persisted"], File (mkMeta 416 10001 10001) "");
   (["volumes"; "database"], Dir (mkMeta 448 70 70)); (["volumes"; "state"], Dir (mkMeta 448 10001 10001)); (["volumes"; "identities"], Dir (mkMeta 448 0 0));
   (["volumes"; "gateway-data"], Dir (mkMeta 448 0 0)); (["volumes"; "coordinator-data"], Dir (mkMeta 448 0 0)); (["volumes"; "queue-config"], Dir (mkMeta 493 0 0));
   (["volumes"; "queue-data"], Dir (mkMeta 448 999 999)); (["volumes"], Dir (mkMeta 493 0 0))].
Definition rx_src : FS := list_to_map rx_list.
Lemma rx_src_list p n : rx_src !! p = Some n -> (p, n) ∈ rx_list.
Proof. apply elem_of_list_to_map_2. Qed.
Ltac cases H := repeat (apply elem_of_cons in H as [H|H]; [simplify_eq/=|]); try by apply elem_of_nil in H.
Lemma rx_portable : portable rx_src rx_root.
Proof.
  constructor.
  - intros v Hv. cases Hv; by vm_compute; eexists.
  - intros v _ r x [n Hn%rx_src_list]. unfold rx_root in Hn. cbn [app] in Hn.
    destruct r as [|a [|b r]]; cbn [app] in Hn; cases Hn; try (by vm_compute; eexists); by destruct r.
  - intros v r _ [n Hn%rx_src_list]. cases Hn; repeat constructor; done.
  - intros v r n m _ Hn%rx_src_list Hm. cases Hn; cbn; lia.
  - intros v r m c _ Hn%rx_src_list. cases Hn; by vm_compute.
Qed.
Definition rx_empty : FS :=
  list_to_map ((["restored"], Dir (mkMeta 493 0 0)) :: (["etc"; "passwd"], File (mkMeta 420 0 0) "root") :: ((fun v => (["restored"; v], Dir (mkMeta 493 0 0))) <$> Volumes)).
Lemma rx_empty_dirs v : v ∈ Volumes -> exists d, rx_empty !! (["restored"] ++ [v]) = Some (Dir d) /\ Uid d = 0.
Proof. intros Hv. exists (mkMeta 493 0 0). cases Hv; by vm_compute. Qed.
Lemma rx_empty_free v x r : v ∈ Volumes -> rx_empty !! (["restored"] ++ v :: x :: r) = None.
Proof. intros _. destruct (rx_empty !! _) as [n|] eqn:E; [|done]. apply elem_of_list_to_map_2 in E. cases E. Qed.
Definition rx_dir : bdir := mkBackup true 448 None None.
Definition rx_created : bdir * io * result error Manifest := Create rx_src rx_root rx_dir [None; None].
Definition rx_manifest : Manifest := match snd rx_created with Ok m => m | Err _ => mkManifest 0 "" 0 0 end.

(** ** Witnesses *)

Lemma backups_restore_witness :
  snd rx_created = Ok rx_manifest /\ Entries rx_manifest = 10 /\
  exists fs', Restore (fst (fst rx_created)) (volumes_tar (fst (fst rx_created))) ["restored"] rx_empty [] = (fs', [], Ok tt) /\
    fs' !! ["restored"; "database"; "base"; "1"] = Some (File (mkMeta 384 70 70) "rows") /\ fs' !! ["etc"; "passwd"] = Some (File (mkMeta 420 0 0) "root").
Proof.
  assert (Create rx_src rx_root rx_dir [None; None] = (fst (fst rx_created), [], Ok rx_manifest)) as Hc by (vm_compute; reflexivity).
  split; [vm_compute; reflexivity|]. split; [vm_compute; reflexivity|].
  destruct (backups_restore rx_short rx_src rx_root rx_dir [None; None] _ _ rx_manifest rx_empty ["restored"] rx_portable Hc) as (_ & fs' & Hr & Hsame & Hother).
  - exact rx_empty_dirs.
  - exact rx_empty_free.
  - exists fs'. split; [exact Hr|]. split.
    + transitivity (rx_src !! ["volumes"; "database"; "base"; "1"]); [apply (Hsame "database" ["base"; "1"]); left | vm_compute; reflexivity].
    + transitivity (rx_empty !! ["etc"; "passwd"]); [apply Hother | vm_compute; reflexivity]. intros (v & r & _ & E). discriminate E.
Defined.

(** After the verification the archive is exchanged for one that would leave
    the volumes. *)
Definition rx_tampered : option bfile :=
  (fun s => file_of s) <$> Some (rx_print (mkHeader "database/../../etc/passwd" TypeReg 4 511 0 0 "" 0, "evil") +:+ rx_end).
Lemma restore_stays_inside_witness :
  exists fs' i' x, Restore (fst (fst rx_created)) rx_tampered ["restored"] rx_empty [] = (fs', i', x) /\ is_ok x = false /\
    fs' !! ["etc"; "passwd"] = Some (File (mkMeta 420 0 0) "root").
Proof.
  destruct (Restore (fst (fst rx_created)) rx_tampered ["restored"] rx_empty []) as [[fs' i'] x] eqn:E. exists fs', i', x.
  split; [reflexivity|]. split.
  - apply (f_equal (fun y => is_ok (snd y))) in E. symmetry. etransitivity; [|exact E]. vm_compute. reflexivity.
  - destruct (proj1 (restore_stays_inside _ _ _ _ _ _ _ _ E) ["etc"; "passwd"]) as [Hp|[(v & r & _ & Hp) _]]; [|discriminate Hp].
    etransitivity; [exact Hp|]. vm_compute. reflexivity.
Defined.
End recoveryexample.
