(* ===== verification/ControlViews.v ===== *)
(** * The views of the control plane

    Module [views] translates the transactions of
    [src/internal/adminauth/pgstore] that answer an operator without changing
    anything: the draft and the audit log ([control.go]), the delivery
    ([delivery.go]), the runtime of a room ([publication.go]), its events
    ([events.go]), the check of a route ([route_check.go]) and the accounts
    ([users.go]). *)

From S2P Require Import Prelude GoStd Keyring Control ConfigTrust AdminAuth Vault Publication Accounts Security.
From stdpp Require Import base list gmap strings sorting.
From Stdlib Require Import ZArith Lia Ascii String.

Module views.
Import pgstore accounts security.
Local Open Scope Z_scope.

(** A row of [control_audit]: its identity, its time and its other columns. *)
Record AuditEvent := mkAuditEvent { ae_ID : Z; ae_OccurredAt : Z; ae_row : audit_row }.

Definition MaxRouteCheckBytes : Z := 8192.
Record RouteCheckInput := mkRouteCheckInput { rc_Source : string; rc_URL : string }.
Record RouteCheckResult := mkRouteCheckResult {
  rr_Source : string; rr_Scope : string; rr_Revision : Z; rr_Generation : Z; rr_Match : control.Match; rr_Mode : string
}.

(** [json.Marshal] of the answers and [control.DecodeExact] of the input. *)
Class ViewWire := {
  json_view : DeliveryView -> string;
  json_events : list control.Event -> string;
  json_users : list UserView -> string;
  json_route_check : RouteCheckResult -> string;
  decode_route_check : string -> option RouteCheckInput
}.

(** The rows of the audit log. The database gives the [i]-th of them its
    identity and its time, [stamp i]. *)
Definition audit_table (stamp : nat -> Z * Z) (db : DB) : list AuditEvent :=
  imap (fun i r => mkAuditEvent (fst (stamp i)) (snd (stamp i)) r) (db_audit db).
Definition newer (a b : AuditEvent) : Prop := ae_ID b <= ae_ID a.
#[global] Instance newer_dec : RelDecision newer.
Proof. intros a b. unfold newer. apply _. Defined.

(** The clause [id<$1], absent when the cursor is 0, [ORDER BY id DESC] and [LIMIT]. *)
Definition below (before : Z) (a : AuditEvent) : bool := negb (0 <? before) || (ae_ID a <? before).
Definition select_audit (before limit : Z) (rows : list AuditEvent) : list AuditEvent :=
  take (Z.to_nat limit) (merge_sort newer (List.filter (below before) rows)).

(** The accounts that are not deleted, [ORDER BY a.id LIMIT 1001]. *)
Definition user_before (a b : UserView) : Prop := String.leb (u_id a) (u_id b) = true.
#[local] Instance user_before_dec : RelDecision user_before.
Proof. intros a b. unfold user_before. apply _. Defined.
Definition user_rows (db : DB) : list UserView :=
  merge_sort user_before
    (omap (fun kv : string * account_row =>
             let '(id, a) := kv in
             if ac_deleted a then None
             else Some (mkUser id (ac_role a) (ac_enabled a) (bool_decide (is_Some (db_totp db !! id))) (ac_version a) (userETag (ac_version a))))
          (map_to_list (db_accounts db))).

Section views.
Context `{Sha256} `{Codec control.Config} `{Codec control.Delivery} `{Codec configtrust.Snapshot}
  `{Codec configtrust.envelope} `{Ed25519} `{Wire} `{ViewWire}.

Definition Config (s : PublicationService) (token : string) (t : Z) (db : DB) : outcome ControlReply :=
  let? _ := beginCommand s token adminauth.ReadConfig None false t db in
  let? c := readConfig db in
  Commit db (mkReply 200 (marshal c) (configETag (control.Revision c)) false).

Definition AuditPage (s : PublicationService) (token : string) (before limit : Z) (stamp : nat -> Z * Z) (t : Z) (db : DB)
    : outcome (list AuditEvent) :=
  if (before <? 0) || (limit <? 1) || (100 <? limit) then Fail (EControl control.ErrInvalid) else
  let? _ := beginCommand s token adminauth.ReadAudit None false t db in
  Commit db (select_audit before limit (audit_table stamp db)).
Definition Audit (s : PublicationService) (token : string) (before : Z) (stamp : nat -> Z * Z) (t : Z) (db : DB)
    : outcome (list AuditEvent) :=
  AuditPage s token before 50 stamp t db.

Definition jsonReply (status : Z) (body etag : string) : ControlReply := mkReply status body etag false.

(** [t] is the time of the session, [t_nodes] the time the nodes are read at. *)
Definition View (s : PublicationService) (token : string) (t t_nodes : Z) (db : DB) : outcome ControlReply :=
  let? _ := beginCommand s token adminauth.ReadDashboard None false t db in
  let? p := readDelivery db in
  let '(d, generation) := p in
  Commit db (jsonReply 200 (json_view (deliveryView d generation t_nodes db)) (configETag (control.Revision (control.dConfig d)))).

Definition Runtime (s : PublicationService) (token id : string) (t : Z) (tk : tokens) (db : DB) : outcome ControlReply :=
  let? _ := beginCommand s token adminauth.ReadRuntime None false t db in
  let? p := readDelivery db in
  match control.Find (fst p) id with
  | None => Rollback (replyProblem 404 "NOT_FOUND" (k_reply tk))
  | Some (_, runtime) => Commit db (jsonReply 200 (json_runtime runtime) (runtimeETag runtime))
  end.

Definition Events (s : PublicationService) (token room : string) (t : Z) (tk : tokens) (db : DB) : outcome ControlReply :=
  let? _ := beginCommand s token adminauth.ReadEvents None false t db in
  let? p := readDelivery db in
  match control.Find (fst p) room with
  | None => Rollback (replyProblem 404 "NOT_FOUND" (k_reply tk))
  | Some (_, runtime) =>
      let? events := readEvents room db in
      Commit db (jsonReply 200 (json_events events) (runtimeETag runtime))
  end.

(** The configuration a check is made against: the draft, or the delivery with
    its generation. *)
Definition checked_config (source : string) (db : DB) : result error (control.Config * option control.Delivery * Z) :=
  if String.eqb source "draft" then let* c := readConfig db in Ok (c, None, 0)
  else
    let row := db_delivery db in let d := de_document row in
    if negb (delivery_valid d) || (de_generation row <? 0) then Err unavailable
    else Ok (control.dConfig d, Some d, de_generation row).

Definition RouteCheck (s : PublicationService) (token : string) (r : adminauth.request) (raw : string) (t : Z) (tk : tokens) (db : DB)
    : outcome ControlReply :=
  let refused := Rollback (replyProblem 400 "INVALID_REQUEST" (k_reply tk)) in
  if negb (String.eqb (adminauth.Method r) "POST") || (MaxRouteCheckBytes <? len raw) then refused else
  let? state := beginCommand s token adminauth.ReadConfig None false t db in
  match adminauth.CheckMutation (origin s) r (csrf state) with
  | Err e => Fail (EAuth e)
  | Ok _ =>
      match decode_route_check raw with
      | None => refused
      | Some i =>
          if (negb (String.eqb (rc_Source i) "draft") && negb (String.eqb (rc_Source i) "published")) ||
             (len (rc_URL i) =? 0) || (control.MaxRouteURLBytes <? len (rc_URL i)) then refused else
          match checked_config (rc_Source i) db with
          | Err _ => Fail unavailable
          | Ok (c, d, generation) =>
              let m := control.CheckRoute url_Parse c (rc_URL i) in
              let mode := match d with
                          | Some d => if String.eqb (control.RoomID m) "" then "" else
                                      match control.Find d (control.RoomID m) with Some (_, runtime) => control.rtMode runtime | None => "" end
                          | None => ""
                          end in
              Commit db (jsonReply 200
                (json_route_check (mkRouteCheckResult (rc_Source i) "configuration-only" (control.Revision c) generation m mode)) "")
          end
      end
  end.

Definition Users (s : PublicationService) (token : string) (t : Z) (db : DB) : outcome ControlReply :=
  let? _ := beginCommand s token adminauth.ReadUsers None false t db in
  let users := take 1001 (user_rows db) in
  if 1000 <? Z.of_nat (List.length users) then Fail unavailable else Commit db (jsonReply 200 (json_users users) "").
End views.
End views.
