(* ===== verification/ControlHTTP.v ===== *)
(** * The endpoints of the control plane: [src/internal/adminauth/controlhttp]

    Module [url] is the query of a request ([net/url]), [strconv] the integers
    in it. Module [controlhttp] translates the three handlers over their
    backends: drafts and the audit log ([handler.go]), publication, runtimes,
    events and accounts ([runtime.go]) and the runs of the traffic lab
    ([traffic_lab.go]). [ControlRoutes] says which requests the second one
    passes on, and with what. *)

From S2P Require Import Prelude GoStd Keyring Control ConfigTrust AdminAuth Vault Publication Origin Accounts Security Coordinator Json AuthHTTP InstallPlan InstallCost ControlViews.
From stdpp Require Import base list gmap strings fin_maps.
From Stdlib Require Import ZArith Lia Ascii String.

(** ** Integers of a query *)

Module strconv.
Local Open Scope Z_scope.
Definition FormatInt (z : Z) : string := if z <? 0 then "-" +:+ cost.int_String (- z) else cost.int_String z.
(** [ParseInt] in base 10 and [Atoi], at 64 bits. *)
Definition digits (l : list ascii) : option Z := if bool_decide (l = []) then None else cost.decimal l.
Definition ParseInt (s : string) : option Z :=
  z ← match list_ascii_of_string s with
      | [] => None
      | a :: l => if Ascii.eqb a "-" then Z.opp <$> digits l else if Ascii.eqb a "+" then digits l else digits (a :: l)
      end;
  if bool_decide (in_i64 z) then Some z else None.

Lemma digit_char_plain d a : cost.digit d -> byte_of a < 48 -> Ascii.eqb (cost.digit_char d) a = false.
Proof. intros Hd Ha. apply Ascii.eqb_neq. intros E. pose proof (cost.byte_of_digit d Hd) as Eb. rewrite E in Eb. unfold cost.digit in Hd. lia. Qed.
Lemma Parse_Format z : 0 <= z -> in_i64 z -> ParseInt (FormatInt z) = Some z.
Proof.
  intros Hz Hi. unfold FormatInt. rewrite (proj2 (Z.ltb_ge z 0)) by done.
  destruct (cost.int_String_text z Hz) as ([|d ds] & -> & Hne & Hd & Hv); [done|].
  assert (digits (cost.digit_char <$> d :: ds) = Some z) as E.
  { unfold digits. rewrite bool_decide_false by done. by rewrite cost.decimal_text, Hv. }
  apply Forall_cons in Hd as [Hd _]. unfold ParseInt, cost.text. rewrite list_ascii_of_string_of_list_ascii. rewrite fmap_cons in E |- *.
  rewrite !digit_char_plain by (done || vm_compute; done). rewrite E. simpl. by rewrite bool_decide_true.
Qed.
Lemma decimals_length fuel k n : 0 <= n < 10 ^ Z.of_nat (S k) -> (List.length (cost.decimals fuel n) <= S k)%nat.
Proof.
  revert k n. induction fuel as [|m IH]; intros k n Hn; cbn [cost.decimals]; [simpl; lia|]. destruct (Z.ltb_spec n 10); [simpl; lia|].
  rewrite length_app. cbn [List.length]. destruct k as [|k]; [change (10 ^ Z.of_nat 1) with 10 in Hn; lia|].
  rewrite (Nat2Z.inj_succ (S k)), Z.pow_succ_r in Hn by lia. specialize (IH k (n / 10)). rewrite Nat.add_1_r. apply le_n_S, IH.
  split; [apply Z.div_pos; lia | apply Z.div_lt_upper_bound; lia].
Qed.
Lemma Format_length z : 0 <= z -> in_i64 z -> (String.length (FormatInt z) <= 20)%nat.
Proof.
  intros Hz Hi. unfold FormatInt. rewrite (proj2 (Z.ltb_ge z 0)) by done. unfold cost.int_String.
  rewrite length_string_of_list_ascii, length_fmap. etrans; [apply (decimals_length _ 18)|lia]. unfold in_i64 in Hi.
  change (10 ^ Z.of_nat 19) with 10000000000000000000. lia.
Qed.
End strconv.

(** ** The query of a request *)

Module url.
Local Open Scope Z_scope.

Definition unhex (a : ascii) : option Z :=
  let b := byte_of a in
  if (48 <=? b) && (b <=? 57) then Some (b - 48) else if (97 <=? b) && (b <=? 102) then Some (b - 87)
  else if (65 <=? b) && (b <=? 70) then Some (b - 55) else None.
(** [url.QueryUnescape]. *)
Fixpoint unescape (l : list ascii) : option (list ascii) :=
  match l with
  | [] => Some []
  | a :: r =>
      if Ascii.eqb a "%" then
        match r with
        | x :: y :: r' => h ← unhex x; k ← unhex y; rest ← unescape r'; Some (ascii_of (16 * h + k) :: rest)
        | _ => None
        end
      else rest ← unescape r; Some ((if Ascii.eqb a "+" then " "%char else a) :: rest)
  end.
Definition QueryUnescape (s : string) : option string := string_of_list_ascii <$> unescape (list_ascii_of_string s).

(** One part of a query: its key and value, nothing, or an error. *)
Definition part (p : string) : option (list (string * string)) :=
  if strs.contains_byte ";" p then None else
  if String.eqb p "" then Some [] else
  let '(k, v) := default (p, ""%string) (strs.cut_byte "=" p) in
  k ← QueryUnescape k; v ← QueryUnescape v; Some [(k, v)].
Definition add_value (m : gmap string (list string)) (kv : string * string) : gmap string (list string) :=
  <[fst kv := default [] (m !! fst kv) ++ [snd kv]]> m.
Definition maxParams : nat := Z.to_nat 10000.
(** [url.ParseQuery]; [None] is an error, with which the callers stop. *)
Definition ParseQuery (query : string) : option (gmap string (list string)) :=
  let parts := strs.split_byte "&" query in
  if (maxParams <? List.length parts)%nat then None else
  kvs ← mapM part parts; Some (fold_left add_value (List.concat kvs) ∅).
End url.

Module controlhttp.
Import accounts http.
Local Open Scope Z_scope.

(** ** Responses *)

(** What a response carries: a problem, the body of a reply, a page of the
    audit log with its cursor, or the capabilities of a profile. *)
Inductive content :=
  | Problem (code : string) | Document (body : string) | AuditItems (items : list views.AuditEvent) (nextCursor : option string)
  | Supported (profile : string).
Record Response := mkResponse {
  Code : Z; AllowHeader : string; Retry : string; ContentType : string; Tag : string; Replayed_ : bool; Rotated : option Grant; Content_ : content
}.
Definition problem_json : string := "application/problem+json".
Definition problem (status : Z) (code : string) : Response := mkResponse status "" "" problem_json "" false None (Problem code).
Definition not_allowed (methods : string) : Response := mkResponse 405 methods "" problem_json "" false None (Problem "INVALID_REQUEST").
Definition media_of (status : Z) : string := if 400 <=? status then problem_json else "application/json".

(** The end of both handlers: the reply of the backend, with the session that
    replaces the operator's. *)
Definition written (out : pgstore.ControlReply) (grant : option Grant) : Response :=
  if (pgstore.Status out <? 200) || (599 <? pgstore.Status out) || (len (pgstore.Body out) =? 0) then problem 503 "CONTROL_UNAVAILABLE" else
  let rotated := match grant with Some g => if String.eqb (g_session g) "" then None else Some g | None => None end in
  mkResponse (pgstore.Status out) "" "" (media_of (pgstore.Status out)) (pgstore.ETag out) (pgstore.Replay out) rotated (Document (pgstore.Body out)).
Definition document (c : content) : Response := mkResponse 200 "" "" (media_of 200) "" false None c.

(** ** What every handler checks *)

Definition canonical (r : Request) : bool := String.eqb (EscapedPath r) (Path r) && negb (ForceQuery r).
(** The loop over [r.Cookies()] is that of [sessionhttp]. *)
Definition session (r : Request) : result Response string :=
  if negb (count r "Authorization" =? 0)%nat then Err (problem 401 "UNAUTHENTICATED") else
  let '(token, ok) := sessionhttp.sessionCookie r in
  if negb ok then Err (problem 401 "UNAUTHENTICATED") else Ok token.
Definition body (limit : Z) (r : Request) : result unit string :=
  match Body r with None => Ok ""%string | Some b => read (Z.to_nat limit) b end.
Definition is_get (r : Request) : bool := String.eqb (Method r) "GET".

(** A reply of the store, with a grant that replaces the session. *)
Abbreviation answer := (result pgstore.error (pgstore.ControlReply * option Grant)).

Section handlers.
Context `{Mime}.

Definition json_media (r : Request) : bool :=
  (count r "Content-Type" =? 1)%nat &&
  match ParseMediaType (Get r "Content-Type") with
  | None => false
  | Some (media, params) =>
      String.eqb media "application/json" &&
      forallb (fun kv => String.eqb (fst kv) "charset" && String.eqb (lab.ToLower (snd kv)) "utf-8") (map_to_list params)
  end.

(** ** Drafts and the audit log: [handler.go] *)

Definition path_draft : string := "/api/admin/v1/config/draft".
Definition path_audit : string := "/api/admin/v1/audit-events".
Definition path_installation : string := "/api/admin/v1/installation".
Definition path_capabilities : string := "/api/admin/v1/capabilities".

(** One key of the query; the cursor is the last identity seen. *)
Definition cursor_of (v : string) : option Z :=
  raw ← base64.StrictDecodeString v;
  if (20 <? String.length raw)%nat then None else
  before ← strconv.ParseInt raw;
  if (before <=? 0) || negb (String.eqb (strconv.FormatInt before) raw) then None else Some before.
Definition limit_of (v : string) : option Z :=
  n ← strconv.ParseInt v;
  if (n <? 1) || (100 <? n) || negb (String.eqb (strconv.FormatInt n) v) then None else Some n.
Definition query_key (key : string) (values : list string) (acc : option (Z * Z)) : option (Z * Z) :=
  p ← acc;
  match values with
  | [v] =>
      if String.eqb key "cursor" then before ← cursor_of v; Some (before, snd p)
      else if String.eqb key "limit" then n ← limit_of v; Some (fst p, n)
      else None
  | _ => None
  end.
(** The cursor and the size of a page; the keys come in any order. *)
Definition page_of (r : Request) : option (Z * Z) :=
  if String.eqb (RawQuery r) "" then Some (0, 50) else
  query ← url.ParseQuery (RawQuery r);
  if negb (String.eqb (Path r) path_audit) || (2 <? size query)%nat then None else map_fold query_key (Some (0, 50)) query.

Inductive draft_call := ReadDraft | SaveDraft (raw : string) | ReadCapabilities | ReadInstallation | ReadAuditPage (before limit : Z).

(** Every check of a request: the call it asks for and its token, or the refusal. *)
Definition draft_admit (r : Request) : result Response (draft_call * string) :=
  let invalid := Err (problem 400 "INVALID_REQUEST") in
  let path := Path r in
  if negb (canonical r) then invalid else
  if negb (bool_decide (path ∈ [path_draft; path_audit; path_installation; path_capabilities])) then Err (problem 404 "NOT_FOUND") else
  let put := String.eqb (Method r) "PUT" in
  if negb (is_get r) && negb (put && String.eqb path path_draft)
  then Err (not_allowed (if String.eqb path path_draft then "GET, PUT" else "GET")) else
  match page_of r with
  | None => invalid
  | Some (before, pageSize) =>
      match session r with
      | Err e => Err e
      | Ok token =>
          match body (if put then pgstore.MaxConfigBytes + 1 else 1) r with
          | Err _ => invalid
          | Ok raw =>
              if (pgstore.MaxConfigBytes <? len raw) || (is_get r && negb (len raw =? 0)) then invalid else
              if put then if json_media r then Ok (SaveDraft raw, token) else invalid
              else Ok (if String.eqb path path_draft then ReadDraft
                       else if String.eqb path path_capabilities then ReadCapabilities
                       else if String.eqb path path_installation then ReadInstallation
                       else ReadAuditPage before pageSize, token)
          end
      end
  end.

(** [Backend]; [Installation] is there when the backend has it.
    [config_profile] is the profile of a configuration that [json.Unmarshal] reads. *)
Class Backend (W : Type) := {
  Config_ : string -> W -> W * result pgstore.error pgstore.ControlReply;
  ReplaceDraft_ : string -> adminauth.request -> string -> W -> W * result pgstore.error pgstore.ControlReply;
  AuditPage_ : string -> Z -> Z -> W -> W * result pgstore.error (list views.AuditEvent);
  Installation_ : option (string -> W -> W * result pgstore.error pgstore.ControlReply);
  config_profile : string -> option string
}.

Definition draft_failed (er : pgstore.error) : Response :=
  match er with
  | pgstore.EAuth adminauth.ErrUnauthenticated => problem 401 "UNAUTHENTICATED"
  | pgstore.EAuth adminauth.ErrForbidden => problem 403 "FORBIDDEN"
  | _ => problem 503 "CONTROL_UNAVAILABLE"
  end.
Definition draft_reply (x : result pgstore.error pgstore.ControlReply) : Response :=
  match x with Ok out => written out None | Err er => draft_failed er end.
Definition next_cursor (events : list views.AuditEvent) (limit : Z) : option string :=
  if Z.of_nat (List.length events) =? limit
  then (fun a => base64.EncodeToString (strconv.FormatInt (views.ae_ID a))) <$> last events else None.

Definition draft_perform {W} `{Backend W} (c : draft_call) (token : string) (r : Request) (w : W) : W * Response :=
  match c with
  | SaveDraft raw => let '(w, x) := ReplaceDraft_ token (Base r) raw w in (w, draft_reply x)
  | ReadDraft => let '(w, x) := Config_ token w in (w, draft_reply x)
  | ReadCapabilities =>
      let '(w, x) := Config_ token w in
      (w, match x with
          | Ok out =>
              if pgstore.Status out =? 200 then
                match config_profile (pgstore.Body out) with
                | None => problem 503 "CONTROL_UNAVAILABLE"
                | Some profile => mkResponse 200 "" "" (media_of 200) "" (pgstore.Replay out) None (Supported profile)
                end
              else written out None
          | Err er => draft_failed er
          end)
  | ReadInstallation =>
      match Installation_ with
      | None => (w, problem 404 "NOT_FOUND")
      | Some read => let '(w, x) := read token w in (w, draft_reply x)
      end
  | ReadAuditPage before limit =>
      let '(w, x) := AuditPage_ token before limit w in
      (w, match x with Ok events => document (AuditItems events (next_cursor events limit)) | Err er => draft_failed er end)
  end.
Definition ServeDraft {W} `{Backend W} (r : Request) (w : W) : W * Response :=
  match draft_admit r with Err e => (w, e) | Ok (c, token) => draft_perform c token r w end.

(** ** Publication, runtimes, events and accounts: [runtime.go] *)

(** [(id)(/suffix)?] at the end of a path. *)
Definition identified (ok : ascii -> bool) (n : Z) (id : string) : bool :=
  (1 <=? len id) && (len id <=? n) && forallb ok (control.chars id).
Definition url_char (a : ascii) : bool :=
  control.in_range 65 90 a || control.is_lower a || control.is_digit a || control.in_range 95 95 a || control.in_range 45 45 a.
Definition strip (prefix s : string) : option string :=
  if strs.HasPrefix s prefix then Some (str_drop (String.length prefix) s) else None.
Definition id_route (prefix : string) (n : Z) (suffix p : string) : option (string * bool) :=
  rest ← strip prefix p;
  let '(id, tail) := match strs.cut_byte "/" rest with Some (id, t) => (id, Some t) | None => (rest, None) end in
  if negb (identified url_char n id) then None else
  match tail with None => Some (id, false) | Some t => if String.eqb t suffix then Some (id, true) else None end.

Definition rooms_prefix : string := "/api/admin/v1/rooms/".
Definition events_prefix : string := "/api/admin/v1/events/".
Definition users_prefix : string := "/api/admin/v1/users/".
Definition roomRoute (p : string) : option (string * string) :=
  rest ← strip rooms_prefix p;
  kv ← strs.cut_byte "/" rest;
  if control.IDPattern (fst kv) && (String.eqb (snd kv) "runtime" || String.eqb (snd kv) "events") then Some kv else None.
Definition eventRoute : string -> option (string * bool) := id_route events_prefix 80 "resume".
Definition userRoute : string -> option (string * bool) := id_route users_prefix 128 "totp-reset".

(** The endpoints: [kind] with its identifiers. *)
Inductive endpoint :=
  | RouteCheckE | EnrollmentStepE (verify : bool) | PolicyE | PolicyEnrollmentE | UsersE | ReauthE | PublishE | DeliveryE
  | UserE (id : string) (reset : bool) | RuntimeE (room : string) | EventsE (room : string) | EventE (id : string) (resume : bool).

Definition path_route_check : string := "/api/admin/v1/config/route-check".
Definition path_start : string := "/api/admin/v1/security/totp/enrollment/start".
Definition path_verify : string := "/api/admin/v1/security/totp/enrollment/verify".
Definition path_policy : string := "/api/admin/v1/security/totp".
Definition path_enrollment : string := "/api/admin/v1/security/totp/enrollment".
Definition path_users : string := "/api/admin/v1/users".
Definition path_reauth : string := "/api/admin/v1/auth/reauth".
Definition path_publish : string := "/api/admin/v1/config/publish".
Definition path_delivery : string := "/api/admin/v1/config/delivery".

Definition RuntimePath (p : string) : bool :=
  String.eqb p path_route_check || String.eqb p path_start || String.eqb p path_verify || String.eqb p path_policy ||
  String.eqb p path_enrollment || String.eqb p path_reauth || String.eqb p path_users || bool_decide (is_Some (userRoute p)) ||
  String.eqb p path_publish || String.eqb p path_delivery || bool_decide (is_Some (roomRoute p)) || bool_decide (is_Some (eventRoute p)).

(** The default of the switch: a later match overwrites an earlier one. *)
Definition pattern_route (security : bool) (p : string) : option endpoint :=
  match eventRoute p with
  | Some (id, resume) => Some (EventE id resume)
  | None =>
      match roomRoute p with
      | Some (room, kind) => Some (if String.eqb kind "runtime" then RuntimeE room else EventsE room)
      | None => match userRoute p with Some (id, reset) => if security then Some (UserE id reset) else None | None => None end
      end
  end.
Definition route (security : bool) (p : string) : option endpoint :=
  let secured e := if security then Some e else None in
  if String.eqb p path_route_check then Some RouteCheckE else
  if String.eqb p path_start || String.eqb p path_verify then secured (EnrollmentStepE (strs.HasSuffix p "/verify")) else
  if String.eqb p path_policy then secured PolicyE else
  if String.eqb p path_enrollment then secured PolicyEnrollmentE else
  if String.eqb p path_users then secured UsersE else
  if String.eqb p path_reauth then secured ReauthE else
  if String.eqb p path_publish then Some PublishE else
  if String.eqb p path_delivery then Some DeliveryE else pattern_route security p.

Definition allowed (e : endpoint) : list string :=
  match e with
  | RouteCheckE | EnrollmentStepE _ | PolicyEnrollmentE | ReauthE | PublishE | UserE _ true | EventE _ true => ["POST"]
  | DeliveryE => ["GET"]
  | PolicyE => ["GET"; "PUT"]
  | UsersE | EventsE _ => ["GET"; "POST"]
  | UserE _ false => ["PATCH"; "DELETE"]
  | RuntimeE _ => ["GET"; "PATCH"]
  | EventE _ false => ["PUT"; "DELETE"]
  end.
Definition body_limit (e : endpoint) : Z := match e with RouteCheckE => views.MaxRouteCheckBytes | _ => pgstore.MaxConfigBytes end.

(** Every check of a request: the endpoint, the token and the body, or the refusal. *)
Definition runtime_admit (security : bool) (r : Request) : result Response (endpoint * string * string) :=
  let invalid := Err (problem 400 "INVALID_REQUEST") in
  if negb (canonical r) || negb (String.eqb (RawQuery r) "") then invalid else
  match route security (Path r) with
  | None => Err (problem 404 "NOT_FOUND")
  | Some e =>
      if negb (bool_decide (Method r ∈ allowed e)) then Err (not_allowed (String.concat ", " (allowed e))) else
      match session r with
      | Err x => Err x
      | Ok token =>
          match body (body_limit e + 1) r with
          | Err _ => invalid
          | Ok raw =>
              if (body_limit e <? len raw) || (is_get r && (0 <? len raw)) then invalid else
              if negb (is_get r) && (negb (String.eqb (Method r) "DELETE") || (0 <? len raw)) && negb (json_media r) then invalid
              else Ok (e, token, raw)
          end
      end
  end.

(** [PublicationBackend], and the security service. *)
Class PublicationBackend (W : Type) := {
  RouteCheck_ : string -> adminauth.request -> string -> W -> W * answer;
  Publish_ : string -> adminauth.request -> string -> W -> W * answer;
  View_ : string -> W -> W * answer;
  Runtime_ : string -> string -> W -> W * answer;
  Operate_ : string -> string -> adminauth.request -> string -> W -> W * answer;
  Events_ : string -> string -> W -> W * answer;
  ChangeEvent_ : string -> string -> string -> adminauth.request -> string -> W -> W * answer
}.
Class SecurityBackend (W : Type) := {
  PolicyEnrollment_ : string -> Request -> string -> bool -> W -> W * answer;
  Policy_ : string -> W -> W * answer;
  ChangePolicy_ : string -> Request -> string -> W -> W * answer;
  BeginPolicyEnrollment_ : string -> Request -> string -> W -> W * answer;
  Users_ : string -> W -> W * answer;
  CreateUser_ : string -> Request -> string -> W -> W * answer;
  ChangeUser_ : string -> string -> Request -> string -> bool -> W -> W * answer;
  Reauthenticate_ : string -> Request -> string -> W -> W * answer
}.

Definition perform {W} `{PublicationBackend W} `{SecurityBackend W} (e : endpoint) (token : string) (r : Request) (raw : string) (w : W)
    : W * answer :=
  let q := Base r in
  match e with
  | RouteCheckE => RouteCheck_ token q raw w
  | EnrollmentStepE verify => PolicyEnrollment_ token r raw verify w
  | PolicyE => if is_get r then Policy_ token w else ChangePolicy_ token r raw w
  | PolicyEnrollmentE => BeginPolicyEnrollment_ token r raw w
  | UsersE => if is_get r then Users_ token w else CreateUser_ token r raw w
  | UserE user reset => ChangeUser_ token user r raw reset w
  | ReauthE => Reauthenticate_ token r raw w
  | PublishE => Publish_ token q raw w
  | DeliveryE => View_ token w
  | RuntimeE room => if is_get r then Runtime_ token room w else Operate_ token room q raw w
  | EventsE room => if is_get r then Events_ token room w else ChangeEvent_ token room "" q raw w
  | EventE event _ => ChangeEvent_ token "" event q raw w
  end.

Definition runtime_failed (er : pgstore.error) : Response :=
  match er with
  | pgstore.EAuth adminauth.ErrUnauthenticated => problem 401 "UNAUTHENTICATED"
  | pgstore.EAuth adminauth.ErrInvalidOrReplayed => problem 401 "TOTP_INVALID_OR_REPLAYED"
  | pgstore.EAuth adminauth.ErrForbidden => problem 403 "FORBIDDEN"
  | _ => if named er ErrAuthHTTPRateLimit then mkResponse 429 "" "60" problem_json "" false None (Problem "AUTH_RATE_LIMITED")
         else problem 503 "CONTROL_UNAVAILABLE"
  end.
Definition answered (x : answer) : Response := match x with Ok (out, grant) => written out grant | Err er => runtime_failed er end.

Definition ServeRuntime {W} `{PublicationBackend W} `{SecurityBackend W} (security : bool) (r : Request) (w : W) : W * Response :=
  match runtime_admit security r with
  | Err x => (w, x)
  | Ok (e, token, raw) => let '(w, x) := perform e token r raw w in (w, answered x)
  end.

(** ** The traffic lab: [traffic_lab.go] *)

Definition path_runs : string := "/api/admin/v1/lab/runs".
Definition runs_prefix : string := "/api/admin/v1/lab/runs/".
Definition TrafficPath (p : string) : bool := String.eqb p path_runs || strs.HasPrefix p runs_prefix.
(** [labRoute]: an identifier of 43 characters. *)
Definition labRoute (p : string) : option (string * bool) :=
  x ← id_route runs_prefix 43 "cancel" p; if len (fst x) =? 43 then Some x else None.
Fixpoint Contains (s sub : string) : bool :=
  String.prefix sub s || match s with String _ s' => Contains s' sub | EmptyString => false end.

Class TrafficBackend (W : Type) := {
  List_ : string -> string -> W -> W * result pgstore.error pgstore.ControlReply;
  Start_ : string -> adminauth.request -> string -> W -> W * result pgstore.error pgstore.ControlReply;
  Cancel_ : string -> string -> adminauth.request -> string -> W -> W * result pgstore.error pgstore.ControlReply
}.

Definition traffic_admit (r : Request) : result Response (string * bool * string * string) :=
  let invalid := Err (problem 400 "INVALID_REQUEST") in
  if negb (canonical r) || negb (String.eqb (RawQuery r) "") then invalid else
  match (if String.eqb (Path r) path_runs then Some (""%string, false) else labRoute (Path r)) with
  | None => Err (problem 404 "NOT_FOUND")
  | Some (id, cancel) =>
      let methods := if cancel then "POST" else if String.eqb id "" then "GET, POST" else "GET" in
      if negb (Contains methods (Method r)) || (negb (is_get r) && negb (String.eqb (Method r) "POST")) then Err (not_allowed methods) else
      if negb (count r "X-Bootstrap-Token" =? 0)%nat then Err (problem 401 "UNAUTHENTICATED") else
      match session r with
      | Err e => Err e
      | Ok token =>
          match body 1025 r with
          | Err _ => invalid
          | Ok raw =>
              if (1024 <? len raw) || (is_get r && (0 <? len raw)) || (0 <? count r "Content-Encoding")%nat then invalid else
              if String.eqb (Method r) "POST" && (negb (count r "Content-Type" =? 1)%nat || negb (String.eqb (Get r "Content-Type") "application/json"))
              then Err (problem 415 "INVALID_REQUEST") else Ok (id, cancel, token, raw)
          end
      end
  end.
Definition traffic_failed (er : pgstore.error) : Response :=
  match er with
  | pgstore.EAuth adminauth.ErrUnauthenticated => problem 401 "UNAUTHENTICATED"
  | pgstore.EAuth adminauth.ErrForbidden => problem 403 "FORBIDDEN"
  | _ => problem 503 "AUTH_UNAVAILABLE"
  end.
Definition ServeTraffic {W} `{TrafficBackend W} (r : Request) (w : W) : W * Response :=
  match traffic_admit r with
  | Err x => (w, x)
  | Ok (id, cancel, token, raw) =>
      let '(w, x) := if is_get r then List_ token id w else if cancel then Cancel_ token id (Base r) raw w else Start_ token (Base r) raw w in
      (w, match x with
          | Err er => traffic_failed er
          | Ok out => mkResponse (pgstore.Status out) "" "" (media_of (pgstore.Status out)) "" (pgstore.Replay out) None (Document (pgstore.Body out))
          end)
  end.
End handlers.
End controlhttp.
