(* ===== verification/ControlRoutes.v ===== *)
(** * Which requests reach the control plane

    The patterns of [src/internal/adminauth/controlhttp/runtime.go] describe
    the printed paths of the endpoints, one endpoint each; [asks] states what a
    request needs to have to be passed on, and [runtime_requests_exact] that
    the handler passes on these requests, with the whole body, and no other. *)

From S2P Require Import Prelude GoStd Keyring Control ConfigTrust AdminAuth Vault Password Publication Origin Accounts Security Coordinator Json AuthHTTP InstallPlan InstallCost ControlViews ControlHTTP.
From stdpp Require Import base list gmap strings fin_maps.
From Stdlib Require Import ZArith Lia Ascii String.

Module controlroutes.
Import accounts http controlhttp.
Local Open Scope Z_scope.

(** ** Strings *)


Lemma strip_iff prefix s t : strip prefix s = Some t <-> s = prefix +:+ t.
Proof.
  unfold strip, strs.HasPrefix. revert s. induction prefix as [|a p IH]; intros s.
  - change ("" +:+ t) with t. destruct s; cbn; naive_solver.
  - change (String a p +:+ t) with (String a (p +:+ t)). destruct s as [|b s]; [done|]. cbn [String.prefix String.length str_drop].
    destruct (ascii_dec a b) as [->|Hn]; [|split; [done | by intros [= -> _]]]. rewrite IH. split; [by intros -> | by intros [= ->]].
Qed.
Lemma cut_some sep s p q : strs.cut_byte sep s = Some (p, q) -> s = p +:+ String sep EmptyString +:+ q /\ strs.contains_byte sep p = false.
Proof.
  revert p. induction s as [|a s IH]; intros p; simpl; [done|]. destruct (Ascii.eqb_spec a sep) as [->|Hn]; [by intros [= <- <-]|].
  destruct (strs.cut_byte sep s) as [[p' q']|]; [|done]. intros [= <- <-]. destruct (IH p' eq_refl) as [-> Hc]. split; [done|].
  simpl. by rewrite (proj2 (Ascii.eqb_neq a sep) Hn), Hc.
Qed.
Lemma cut_none_iff sep s : strs.cut_byte sep s = None <-> strs.contains_byte sep s = false.
Proof.
  induction s as [|a s IH]; simpl; [done|]. destruct (Ascii.eqb a sep); [done|]. simpl. rewrite <- IH. by destruct (strs.cut_byte sep s) as [[]|].
Qed.
Lemma forallb_no_byte (ok : ascii -> bool) sep s : ok sep = false -> forallb ok (control.chars s) = true -> strs.contains_byte sep s = false.
Proof.
  intros Hs. induction s as [|a s IH]; simpl; [done|]. intros [Ha Hr]%andb_true_iff. rewrite (IH Hr), orb_false_r.
  apply Ascii.eqb_neq. by intros ->; rewrite Hs in Ha.
Qed.

Lemma identified_no_slash n id : identified url_char n id = true -> strs.contains_byte "/" id = false.
Proof. unfold identified. intros [_ H]%andb_true_iff. exact (forallb_no_byte url_char "/"%char id eq_refl H). Qed.
Lemma IDPattern_no_slash id : control.IDPattern id = true -> strs.contains_byte "/" id = false.
Proof.
  unfold control.IDPattern. destruct id as [|a id]; [done|]. simpl. intros [[Ha _]%andb_true_iff H]%andb_true_iff.
  rewrite (forallb_no_byte _ "/"%char id eq_refl H), orb_false_r. apply Ascii.eqb_neq. by intros ->.
Qed.

(** ** The patterns *)

Lemma id_route_iff prefix n suffix p id b :
  id_route prefix n suffix p = Some (id, b) <->
  p = prefix +:+ id +:+ (if b then "/" +:+ suffix else "") /\ identified url_char n id = true.
Proof.
  unfold id_route. split.
  - destruct (strip prefix p) as [rest|] eqn:Es; [|done]. apply strip_iff in Es as ->. cbn [mbind option_bind].
    destruct (strs.cut_byte "/" rest) as [[i t]|] eqn:Ec.
    + apply cut_some in Ec as [-> _]. case_if as E1; [done|]. destruct (String.eqb_spec t suffix) as [->|]; [|done]. intros [= <- <-].
      by apply negb_false_iff in E1.
    + case_if as E1; [done|]. intros [= <- <-]. apply negb_false_iff in E1. by rewrite str_app_nil_r.
  - intros [-> Hi]. rewrite (proj2 (strip_iff prefix _ _) eq_refl). cbn [mbind option_bind]. pose proof (identified_no_slash n id Hi) as Hs.
    destruct b.
    + rewrite (strs.cut_join "/"%char id suffix Hs), Hi. simpl. by rewrite String.eqb_refl.
    + rewrite str_app_nil_r, (proj2 (cut_none_iff _ _) Hs), Hi. done.
Qed.
Lemma roomRoute_iff p room kind :
  roomRoute p = Some (room, kind) <->
  p = rooms_prefix +:+ room +:+ "/" +:+ kind /\ control.IDPattern room = true /\ (kind = "runtime" \/ kind = "events").
Proof.
  unfold roomRoute. split.
  - destruct (strip rooms_prefix p) as [rest|] eqn:Es; [|done]. apply strip_iff in Es as ->. cbn [mbind option_bind].
    destruct (strs.cut_byte "/" rest) as [[i t]|] eqn:Ec; [|done]. apply cut_some in Ec as [-> _]. cbn [mbind option_bind fst snd].
    case_if as E; [|done]. intros [= <- <-]. apply andb_true_iff in E as [-> E]. apply orb_true_iff in E.
    destruct E as [->%String.eqb_eq | ->%String.eqb_eq]; auto.
  - intros (-> & Hi & Hk). rewrite (proj2 (strip_iff rooms_prefix _ _) eq_refl). cbn [mbind option_bind].
    change ("/" +:+ kind) with (String "/" EmptyString +:+ kind). rewrite (strs.cut_join "/"%char room kind (IDPattern_no_slash _ Hi)).
    cbn [mbind option_bind fst snd]. rewrite Hi. by destruct Hk as [-> | ->].
Qed.

(** ** Endpoints *)

Definition path_of (e : endpoint) : string :=
  match e with
  | RouteCheckE => path_route_check | EnrollmentStepE verify => if verify then path_verify else path_start | PolicyE => path_policy
  | PolicyEnrollmentE => path_enrollment | UsersE => path_users | ReauthE => path_reauth | PublishE => path_publish | DeliveryE => path_delivery
  | UserE id reset => users_prefix +:+ id +:+ (if reset then "/totp-reset" else "")
  | RuntimeE room => rooms_prefix +:+ room +:+ "/runtime"
  | EventsE room => rooms_prefix +:+ room +:+ "/events"
  | EventE id resume => events_prefix +:+ id +:+ (if resume then "/resume" else "")
  end.
Definition named_ok (e : endpoint) : bool :=
  match e with
  | UserE id _ => identified url_char 128 id | EventE id _ => identified url_char 80 id
  | RuntimeE room | EventsE room => control.IDPattern room
  | _ => true
  end.
Definition of_security (e : endpoint) : bool :=
  match e with EnrollmentStepE _ | PolicyE | PolicyEnrollmentE | UsersE | ReauthE | UserE _ _ => true | _ => false end.

Lemma pattern_route_ok sec p e :
  pattern_route sec p = Some e -> p = path_of e /\ named_ok e = true /\ (of_security e = true -> sec = true).
Proof.
  unfold pattern_route. destruct (eventRoute p) as [[id b]|] eqn:E1.
  { intros [= <-]. apply id_route_iff in E1 as [-> Hi]. by destruct b. }
  destruct (roomRoute p) as [[room kind]|] eqn:E2.
  { apply roomRoute_iff in E2 as (-> & Hi & Hk). destruct Hk as [-> | ->]; by intros [= <-]. }
  destruct (userRoute p) as [[id b]|] eqn:E3; [|done]. destruct sec; [|done]. intros [= <-]. apply id_route_iff in E3 as [-> Hi]. by destruct b.
Qed.
(** The prefixes of the patterns differ. *)
Lemma id_route_other prefix prefix' n suffix t : (forall x, prefix +:+ t <> prefix' +:+ x) -> id_route prefix' n suffix (prefix +:+ t) = None.
Proof.
  intros Hd. unfold id_route. destruct (strip prefix' (prefix +:+ t)) as [x|] eqn:E; [|done]. apply strip_iff in E. by destruct (Hd x).
Qed.
Lemma pattern_route_of sec e :
  (exists id, e = RuntimeE id \/ e = EventsE id \/ exists b, e = UserE id b \/ e = EventE id b) ->
  named_ok e = true -> (of_security e = true -> sec = true) -> pattern_route sec (path_of e) = Some e.
Proof.
  intros (id & He) Hn Hs. unfold pattern_route, eventRoute.
  destruct He as [-> | [-> | (b & [-> | ->])]]; cbn [path_of].
  - rewrite id_route_other by done. by rewrite (proj2 (roomRoute_iff (rooms_prefix +:+ id +:+ "/runtime") id "runtime")) by auto.
  - rewrite id_route_other by done. by rewrite (proj2 (roomRoute_iff (rooms_prefix +:+ id +:+ "/events") id "events")) by auto.
  - rewrite id_route_other by done. assert (roomRoute (path_of (UserE id b)) = None) as Er.
    { destruct (roomRoute _) as [[x y]|] eqn:E; [|done]. by apply roomRoute_iff in E as [E _]. }
    cbn [path_of] in Er. rewrite Er. replace (if b then "/totp-reset" else "") with (if b then "/" +:+ "totp-reset" else "") by by destruct b.
    unfold userRoute. rewrite (proj2 (id_route_iff users_prefix 128 "totp-reset" _ id b) (conj eq_refl Hn)). by rewrite Hs.
  - replace (if b then "/resume" else "") with (if b then "/" +:+ "resume" else "") by by destruct b.
    by rewrite (proj2 (id_route_iff events_prefix 80 "resume" _ id b) (conj eq_refl Hn)).
Qed.
(** A path is of an endpoint exactly when the endpoint prints it. *)
Lemma route_iff sec p e : route sec p = Some e <-> p = path_of e /\ named_ok e = true /\ (of_security e = true -> sec = true).
Proof.
  split.
  - unfold route. repeat match goal with |- context [String.eqb p ?q] => destruct (String.eqb_spec p q) as [->|_] end;
      cbn [orb]; try (destruct sec; [|done]); try (by intros [= <-]); apply pattern_route_ok.
  - intros (-> & Hn & Hs). destruct e; cbn [of_security] in Hs; try (rewrite (Hs eq_refl)); try done.
    + by destruct verify.
    + rewrite <- (pattern_route_of true (UserE id reset)) by naive_solver. by destruct reset.
    + by rewrite <- (pattern_route_of sec (RuntimeE room)) by naive_solver.
    + by rewrite <- (pattern_route_of sec (EventsE room)) by naive_solver.
    + rewrite <- (pattern_route_of sec (EventE id resume)) by naive_solver. by destruct resume.
Qed.
Ltac in_or t := first [solve [t] | left; in_or t | right; in_or t].
(** [RuntimePath], by which the server chooses this handler, is the set of the
    paths it answers with a security service. *)
Lemma user_path_iff p : is_Some (userRoute p) <-> exists id b, p = path_of (UserE id b) /\ named_ok (UserE id b) = true.
Proof.
  split; [intros [[id b] E] | intros (id & b & -> & Hn)].
  - exists id, b. apply id_route_iff in E as [-> Hi]. by destruct b.
  - exists (id, b). apply id_route_iff. split; [by destruct b | done].
Qed.
Lemma event_path_iff p : is_Some (eventRoute p) <-> exists id b, p = path_of (EventE id b) /\ named_ok (EventE id b) = true.
Proof.
  split; [intros [[id b] E] | intros (id & b & -> & Hn)].
  - exists id, b. apply id_route_iff in E as [-> Hi]. by destruct b.
  - exists (id, b). apply id_route_iff. split; [by destruct b | done].
Qed.
Lemma room_path_iff p : is_Some (roomRoute p) <-> exists room e, (e = RuntimeE room \/ e = EventsE room) /\ p = path_of e /\ named_ok e = true.
Proof.
  split.
  - intros [[room kind] (-> & Hi & Hk)%roomRoute_iff]. exists room. destruct Hk as [-> | ->]; [exists (RuntimeE room) | exists (EventsE room)]; auto.
  - intros (room & e & He & -> & Hn). destruct He as [-> | ->]; [exists (room, "runtime") | exists (room, "events")]; apply roomRoute_iff; auto.
Qed.
Lemma RuntimePath_iff p : RuntimePath p = true <-> is_Some (route true p).
Proof.
  unfold RuntimePath. rewrite !orb_true_iff, !String.eqb_eq, !bool_decide_eq_true, user_path_iff, event_path_iff, room_path_iff. split.
  - intros Hp. assert (exists e, p = path_of e /\ named_ok e = true) as (e & Hp' & Hn).
    { destruct_or? Hp; try (destruct Hp as (x & y & Hp)); [exists RouteCheckE | exists (EnrollmentStepE false) | exists (EnrollmentStepE true) |
        exists PolicyE | exists PolicyEnrollmentE | exists ReauthE | exists UsersE | by exists (UserE x y) | exists PublishE | exists DeliveryE |
        by exists y; destruct Hp | by exists (EventE x y)]; done. }
    exists e. by apply route_iff.
  - intros [e (-> & Hn & _)%route_iff]. destruct e; try destruct verify;
      in_or ltac:(reflexivity || (eexists _, _; split; [reflexivity | exact Hn]) || (eexists _, _; eauto)).
Qed.

(** ** Requests *)

Definition session_cookies (r : Request) : list (string * string) := List.filter (fun c => String.eqb (fst c) CookieName) (Cookies r).

Lemma cookie_loop l a :
  fold_left (fun (a : string * nat) c => if String.eqb (fst c) CookieName then (snd c, S (snd a)) else a) l a =
  fold_left (fun (a : string * nat) c => (snd c, S (snd a))) (List.filter (fun c : string * string => String.eqb (fst c) CookieName) l) a.
Proof. revert a. induction l as [|c l IH]; intros a; [done|]. simpl. rewrite IH. by destruct (String.eqb (fst c) CookieName). Qed.
Lemma cookie_count (l : list (string * string)) (a : string * nat) :
  snd (fold_left (fun a c => (snd c, S (snd a))) l a) = (snd a + List.length l)%nat.
Proof. revert a. induction l as [|c l IH]; intros a; simpl; [lia|]. rewrite IH. simpl. lia. Qed.

Lemma session_iff r tok :
  session r = Ok tok <-> Values r "Authorization" = [] /\ session_cookies r = [(CookieName, tok)] /\ len tok = 43.
Proof.
  unfold session, sessionhttp.sessionCookie, count. rewrite cookie_loop. fold (session_cookies r).
  assert (Forall (fun c => fst c = CookieName) (session_cookies r)) as Hf.
  { unfold session_cookies. apply Forall_forall. intros c Hc. apply list_elem_of_In, filter_In in Hc as [_ Hc]. by apply String.eqb_eq. }
  destruct (Values r "Authorization") as [|? ?]; [|by split; [|intros []]]. cbn [List.length Nat.eqb negb].
  destruct (session_cookies r) as [|[n v] [|c l]] eqn:Ec; cbn [fold_left].
  - by split; [|intros (_ & ? & _)].
  - assert (n = CookieName) as -> by exact (List.Forall_inv Hf). cbn. destruct (Z.eqb_spec (len v) 43) as [Hl|Hl]; cbn.
    + split; [by intros [= <-] | by intros (_ & [= <-] & _)].
    + split; [done | by intros (_ & [= <-] & ?)].
  - destruct (fold_left _ _ _) as [v' k] eqn:E. apply (f_equal snd) in E. rewrite cookie_count in E. cbn in E.
    rewrite (proj2 (Nat.eqb_neq k 1)) by lia. by split; [|intros (_ & ? & _)].
Qed.

(** The body of a request is the whole one, or none. *)
Definition has_body (r : Request) (raw : string) : Prop := match Body r with None => raw = ""%string | Some b => b = Ok raw end.
Lemma body_iff limit r raw : 0 <= limit -> (body (limit + 1) r = Ok raw /\ len raw <= limit) <-> has_body r raw /\ len raw <= limit.
Proof.
  intros Hl. unfold body, has_body, read. destruct (Body r) as [[s|e]|]; [|naive_solver|naive_solver].
  split; [intros [[= <-] Hlen] | intros [[= ->] Hlen]]; split; try done; f_equal.
  - destruct (decide (String.length s <= Z.to_nat (limit + 1))%nat) as [Hs|Hs]; [by rewrite str_take_all|].
    unfold len in Hlen. rewrite password.str_take_length in Hlen by lia. lia.
  - apply str_take_all. unfold len in Hlen. lia.
Qed.

Section requests.
Context `{Mime}.

(** What a request needs to have to be passed on to [e], with its token and its body. *)
Record asks (security : bool) (r : Request) (e : endpoint) (tok raw : string) : Prop := {
  k_path : Path r = path_of e /\ EscapedPath r = Path r /\ RawQuery r = ""%string /\ ForceQuery r = false;
  k_endpoint : named_ok e = true /\ (of_security e = true -> security = true);
  k_method : Method r ∈ allowed e;
  k_session : Values r "Authorization" = [] /\ session_cookies r = [(CookieName, tok)] /\ len tok = 43;
  k_body : has_body r raw /\ len raw <= body_limit e;
  k_get : Method r = "GET"%string -> raw = ""%string;
  k_media : Method r <> "GET"%string -> (Method r = "DELETE"%string -> raw <> ""%string) -> json_media r = true
}.

Lemma len_pos raw : (0 <? len raw) = true <-> raw <> ""%string.
Proof. unfold len. destruct raw; simpl; [done|]. split; [done|]. intros _. apply Z.ltb_lt. lia. Qed.
Lemma body_limit_pos e : 0 <= body_limit e.
Proof. by destruct e. Qed.
Lemma media_iff r raw :
  (negb (is_get r) && (negb (String.eqb (Method r) "DELETE") || (0 <? len raw)) && negb (json_media r)) = false <->
  (Method r <> "GET"%string -> (Method r = "DELETE"%string -> raw <> ""%string) -> json_media r = true).
Proof.
  unfold is_get. rewrite <- len_pos. destruct (String.eqb_spec (Method r) "GET") as [->|], (String.eqb_spec (Method r) "DELETE") as [E|];
    try rewrite E; destruct (0 <? len raw), (json_media r); naive_solver.
Qed.

Lemma runtime_admit_iff security r e tok raw : runtime_admit security r = Ok (e, tok, raw) <-> asks security r e tok raw.
Proof.
  unfold runtime_admit, canonical. split.
  - case_if as E1; [done|]. destruct (route security (Path r)) as [e'|] eqn:Er; [|done]. apply route_iff in Er as (Hp & Hn & Hs).
    case_if as E2; [done|]. destruct (session r) as [tok'|] eqn:Es; [|done]. apply session_iff in Es.
    destruct (body (body_limit e' + 1) r) as [raw'|] eqn:Eb; [|done]. case_if as E3; [done|]. case_if as E4; [done|]. intros [= <- <- <-].
    apply orb_false_iff in E3 as [E3 E5]. apply Z.ltb_ge in E3. rewrite negb_false_iff, bool_decide_eq_true in E2.
    apply orb_false_iff in E1 as [E1 E6]. rewrite !negb_false_iff, andb_true_iff, negb_true_iff, String.eqb_eq in *. destruct E1.
    constructor; try done; [by apply (body_iff _ _ _ (body_limit_pos e')) | | by apply media_iff].
    intros Hg. destruct (decide (raw' = "")) as [->|Hr%len_pos]; [done|]. unfold is_get in E5. rewrite Hg, Hr in E5. done.
  - intros [(Hp & Hes & Hq & Hf) Hn Hm Hs [Hb Hl] Hg Hmd]. rewrite Hes, Hq, Hf, String.eqb_refl. cbn.
    rewrite (proj2 (route_iff security (Path r) e)) by done. rewrite bool_decide_true by done. cbn [negb].
    rewrite (proj2 (session_iff r tok) Hs). destruct (proj2 (body_iff _ r raw (body_limit_pos e)) (conj Hb Hl)) as [-> _].
    rewrite (proj2 (Z.ltb_ge _ _) Hl). cbn [orb]. rewrite (proj2 (media_iff r raw) Hmd).
    unfold is_get. destruct (String.eqb_spec (Method r) "GET") as [Eg|]; [|done]. by rewrite (Hg Eg).
Qed.

Definition refusal (x : Response) : Prop := exists code, Content_ x = Problem code /\ Code x ∈ [400; 401; 404; 405].
Lemma runtime_admit_refusal security r x : runtime_admit security r = Err x -> refusal x.
Proof.
  unfold runtime_admit, session. intros E.
  repeat (case_match; try done); simplify_eq; eexists; (split; [reflexivity|]); cbn; set_solver.
Qed.

(** C29: the handler of publications, runtimes, events and accounts passes a
    request on exactly when its path is the canonical path of an endpoint that
    the installation has, with no query and an allowed method, with one
    session cookie of 43 bytes and no other credentials, a body within the
    limit that is empty on a GET, and a JSON media type where there is
    something to read; there is then one such endpoint, and the backend gets
    the whole body with it. Every other request changes nothing and is answered
    with a problem; and the paths of these endpoints are those by which the
    server chooses this handler. *)
Theorem runtime_requests_exact {W} `{PublicationBackend W} `{SecurityBackend W} security r (w : W) :
  ((exists e tok raw, asks security r e tok raw /\ (forall e' tok' raw', asks security r e' tok' raw' -> (e', tok', raw') = (e, tok, raw)) /\
      ServeRuntime security r w = (fst (perform e tok r raw w), answered (snd (perform e tok r raw w)))) \/
   ((forall e tok raw, ~ asks security r e tok raw) /\ exists x, ServeRuntime security r w = (w, x) /\ refusal x)) /\
  (RuntimePath (Path r) = true <-> exists e, Path r = path_of e /\ named_ok e = true).
Proof.
  split.
  - unfold ServeRuntime. destruct (runtime_admit security r) as [[[e tok] raw]|x] eqn:E; [left | right].
    + exists e, tok, raw. split_and!; [by apply runtime_admit_iff | | by destruct (perform e tok r raw w)].
      intros e' tok' raw' Ha%runtime_admit_iff. congruence.
    + split; [intros e tok raw Ha%runtime_admit_iff; congruence|]. exists x. split; [done|]. by eapply runtime_admit_refusal.
  - rewrite RuntimePath_iff. split; [intros [e (Hp & Hn & _)%route_iff]; eauto|]. intros (e & Hp & Hn). exists e. by apply route_iff.
Qed.
End requests.
End controlroutes.
