(* ===== verification/AdminServer.v ===== *)
(** * The administration server: [src/internal/adminserver]

    Module [adminserver] translates the handler that all requests of the
    administration meet first ([server.go], [routes.go]): the checks of the
    boundary and the choice among the handlers of [AuthHTTP], [SetupHTTP] and
    [ControlHTTP], the user interface and its files. A listener that runs the
    setup exposes no application, and no other listener exposes the setup. *)

From S2P Require Import Prelude GoStd Control AdminAuth Publication Origin Accounts Security Json AuthHTTP ControlViews ControlHTTP ControlRoutes.
From stdpp Require Import base list gmap strings.
From Stdlib Require Import ZArith Lia Ascii String.

Module adminserver.
Import http.
Local Open Scope Z_scope.

(** [Options], with what [Handler] makes of them: the wizard and the bootstrap
    are there during the setup, the lab outside of it. *)
Record Options := mkOptions { oHost : string; Setup : bool; Persistent : bool; Publication : bool; Traffic : bool }.
Definition wizard (o : Options) : bool := Setup o && Persistent o.
Definition traffic (o : Options) : bool := negb (Setup o) && Traffic o.

(** Where a request goes. *)
Inductive destination :=
  | TrafficHandler | SetupHandler | RuntimeHandler | DraftHandler | BootstrapHandler | SessionHandler | AuthHandler
  | Livez | LabInfo | Shell | Files.
(** [boundaryError] and the refusal of a method. *)
Record refusal := mkRefusal { status : Z; code : string; allow : string }.
Definition boundaryError (s : Z) (c : string) : result refusal destination := Err (mkRefusal s c "").
Definition available (b : bool) (d : destination) : result refusal destination := if b then Ok d else boundaryError 404 "NOT_FOUND".

Definition ui_pages : list string := ["operations"; "settings"; "schedule"; "verification"].
Definition roomUIRoute (p : string) : bool :=
  match controlhttp.strip "/rooms/" p with
  | None => false
  | Some rest =>
      match strs.cut_byte "/" rest with
      | None => control.IDPattern rest
      | Some (room, page) => control.IDPattern room && bool_decide (page ∈ ui_pages)
      end
  end.
Definition applicationUIRoute (path : string) (setup : bool) : bool :=
  if setup then false else
  bool_decide (path ∈ ["/auth/session"; "/rooms"; "/rooms/new"; "/settings"; "/dashboard/runtime"; "/traffic-lab"]) || roomUIRoute path.

Definition draft_paths : list string :=
  [controlhttp.path_draft; controlhttp.path_audit; controlhttp.path_installation; controlhttp.path_capabilities].
Definition setup_prefix : string := "/api/admin/v1/setup/".
Definition api (o : Options) (path : string) : result refusal destination :=
  if controlhttp.TrafficPath path then available (traffic o) TrafficHandler else
  if strs.HasPrefix path setup_prefix then available (wizard o) SetupHandler else
  if controlhttp.RuntimePath path then available (negb (Setup o) && Publication o) RuntimeHandler else
  if bool_decide (path ∈ draft_paths) then available (negb (Setup o)) DraftHandler else
  if String.eqb path authhttp.path_bootstrap then available (Setup o) BootstrapHandler else
  if String.eqb path sessionhttp.path_me || String.eqb path sessionhttp.path_logout then Ok SessionHandler else Ok AuthHandler.
Definition interface (o : Options) (r : Request) : result refusal destination :=
  if negb (String.eqb (Method r) "GET") && negb (String.eqb (Method r) "HEAD") then Err (mkRefusal 405 "" "GET, HEAD") else
  let path := Path r in
  if String.eqb path "/livez" then Ok Livez else
  if String.eqb path "/lab-info" then Ok LabInfo else
  if bool_decide (path ∈ ["/"; "/auth/login"; "/setup"]) then available (negb (String.eqb path "/setup") || Setup o) Shell else
  if applicationUIRoute path (Setup o) then Ok Shell else
  available (strs.HasPrefix path "/assets/" && negb (controlhttp.Contains path "..")) Files.
(** [deadline] is whether the read deadline of the connection could be set. *)
Definition Handler (o : Options) (deadline : bool) (r : Request) : result refusal destination :=
  if negb (TLS r) || negb (String.eqb (Host r) (oHost o)) then boundaryError 403 "FORBIDDEN" else
  if (negb (String.eqb (RawQuery r) "") && negb (String.eqb (Path r) controlhttp.path_audit)) || ForceQuery r ||
     negb (String.eqb (EscapedPath r) (Path r)) then boundaryError 400 "INVALID_REQUEST" else
  if strs.HasPrefix (Path r) "/api/" then if negb deadline then boundaryError 503 "AUTH_UNAVAILABLE" else api o (Path r)
  else interface o r.

(** ** What a listener exposes *)

Definition application (d : destination) : bool := match d with TrafficHandler | RuntimeHandler | DraftHandler => true | _ => false end.
Definition provisioning (d : destination) : bool := match d with SetupHandler | BootstrapHandler => true | _ => false end.

Lemma available_ok b d x : available b d = Ok x -> b = true /\ x = d.
Proof. unfold available. destruct b; [by intros [= <-] | done]. Qed.
Lemma api_exposes o p d : api o p = Ok d -> (application d = true -> Setup o = false) /\ (provisioning d = true -> Setup o = true).
Proof.
  unfold api. repeat (case_match; [intros (? & ->)%available_ok; unfold traffic, wizard in *; cbn; destruct (Setup o); naive_solver|]).
  case_match; by intros [= <-].
Qed.
(** A listener of the setup reaches no application interface, and any other
    listener neither the wizard nor the bootstrap. *)
Lemma listeners_are_separate o deadline r d : Handler o deadline r = Ok d ->
  (Setup o = true -> application d = false /\ applicationUIRoute (Path r) (Setup o) = false) /\ (Setup o = false -> provisioning d = false) /\
  TLS r = true /\ Host r = oHost o.
Proof.
  unfold Handler. case_if as E1; [done|]. apply orb_false_iff in E1 as [Et%negb_false_iff Eh%negb_false_iff]. apply String.eqb_eq in Eh.
  case_if as E2; [done|]. case_if as E3.
  - case_if as E4; [done|]. intros Ha. apply api_exposes in Ha as [H1 H2]. split_and!; try done.
    + intros Hs. split; [|by unfold applicationUIRoute; rewrite Hs]. destruct (application d); [|done]. by rewrite (H1 eq_refl) in Hs.
    + intros Hs. destruct (provisioning d); [|done]. by rewrite (H2 eq_refl) in Hs.
  - intros Hi. assert (application d = false /\ provisioning d = false) as [Ha Hp].
    { revert Hi. unfold interface. repeat (case_match; try done); first [intros (_ & ->)%available_ok | intros [= <-]]; done. }
    split_and!; try done. intros Hs. split; [done|]. unfold applicationUIRoute. by rewrite Hs.
Qed.
(** Every path that a control endpoint prints reaches it when it is there. *)
Lemma control_paths_routed o e : Setup o = false -> Publication o = true -> controlroutes.named_ok e = true ->
  api o (controlroutes.path_of e) = Ok RuntimeHandler.
Proof.
  intros Hs Hp Hn. assert (controlhttp.RuntimePath (controlroutes.path_of e) = true) as Hr.
  { apply controlroutes.RuntimePath_iff. exists e. by apply controlroutes.route_iff. }
  unfold api. rewrite Hr, Hs, Hp. destruct e as [|[]| | | | | | |? []|room|room|? []]; reflexivity.
Qed.
End adminserver.
