(* ===== verification/ControlAudit.v ===== *)
(** * The audit log of the control plane

    The services of [Publication] and [ControlViews] behind the handlers of
    [ControlHTTP]. [changes_are_audited]: what a request changes was authorized
    by a live session and is in the audit log, under the name of its actor.
    [audit_walk_complete]: whoever follows the cursors of the audit endpoint
    ([src/internal/adminauth/controlhttp/handler.go] over [AuditPage] of
    [pgstore/control.go]) sees every row once, while commands go on. *)

From S2P Require Import Prelude GoStd Keyring Control ConfigTrust AdminAuth Vault Publication CommandProps Origin Accounts Security Coordinator Json AuthHTTP InstallPlan InstallCost ControlViews ControlHTTP ControlRoutes.
From stdpp Require Import base list gmap strings fin_maps sorting.
From Stdlib Require Import ZArith Lia Ascii String.

Module controlaudit.
Import pgstore accounts http controlhttp controlroutes.
Local Open Scope Z_scope.

Section audit.
Context `{Sha256} `{Codec control.Config} `{Codec control.Delivery} `{Codec configtrust.Snapshot}
  `{Codec configtrust.envelope} `{Ed25519} `{Wire}.

(** ** Rows are only added *)

Lemma sign_audit s d g t db db' : sign s d g t db = Ok db' -> db_audit db' = db_audit db.
Proof. unfold sign. case_if as E1; [done|]. destruct (configtrust.Sign _ _ _); [|done]. case_if as E2; [done|]. by intros [= <-]. Qed.
Lemma touch_audit tok t db : db_audit (touch tok t db) = db_audit db.
Proof. unfold touch. by repeat case_match. Qed.
Lemma consumeReauth_audit tok r action target raw t db db' : consumeReauth tok r action target raw t db = Ok db' -> db_audit db' = db_audit db.
Proof. intros (hash & p & _ & _ & _ & ->)%consumeReauth_ok. done. Qed.
Ltac unchanged := repeat (case_match; simplify_eq; try done); intros; simplify_eq; try done; try match goal with Hs : sign _ _ _ _ _ = Ok _ |- _ => by apply sign_audit in Hs end.
Lemma publish_body_audit s r raw tk db state current db' res : publish_body s r raw tk db state current = Ok (db', res) -> db_audit db' = db_audit db.
Proof. unfold publish_body. unchanged. Qed.
Lemma operate_body_audit s id r raw tk db state current db' res : operate_body s id r raw tk db state current = Ok (db', res) -> db_audit db' = db_audit db.
Proof. unfold operate_body. unchanged. Qed.
Lemma event_body_audit s room ev r raw tk db state current db' res : event_body s room ev r raw tk db state current = Ok (db', res) -> db_audit db' = db_audit db.
Proof. unfold event_body. unchanged. Qed.
(** A command that is run was authorized, and adds one row. *)
Definition audited (db db' : DB) (actor : string) (action target : string) : Prop :=
  exists row, db_audit db' = db_audit db ++ [row] /\ au_actor row = actor /\ au_action row = action /\ au_target row = target.
Lemma command_audited s tok r raw action target etag body ck tk db db' a :
  (forall db st cur db' res, body db st cur = Ok (db', res) -> db_audit db' = db_audit db) ->
  command s tok r raw action target etag body ck tk db = Commit db' a ->
  exists actor, authorized s tok r action ck db actor /\ (db' = db \/ audited db db' actor (action_text action) target).
Proof.
  intros Hbody Hc. pose proof Hc as (actor & Ha & _)%command_inv. exists actor. split; [done|].
  assert (actor_of tok db = Some actor) as Hactor by apply Ha. revert Hc. unfold command.
  do 3 (case_if as E; [done|]; clear E). destruct (beginCommand _ _ _ _ _ _ _) as [state|] eqn:Eb; [|done].
  assert (adminauth.aID (account state) = actor) as EID.
  { unfold beginCommand in Eb. unfold actor_of in Hactor. destruct (tokenHash tok) as [h|]; [|done].
    destruct (loadSession h _ db) as [st|] eqn:El; [|done]. apply loadSession_ok in El as (row & ac & Hrow & _ & EID & _).
    cbn in Hactor. rewrite Hrow in Hactor. injection Hactor as <-. repeat (case_match; try done); by injection Eb as <-. }
  destruct (readConfig db) as [current|]; [|done]. destruct (adminauth.CheckSession _ _ _ _); [|done]. cbn [account now].
  destruct (replayed _ _ _ _) as [[[[] x]|e]|]; try done; [intros [= <- _]; by left|]. case_if as E4; [done|].
  fold (needs_proof action). destruct (if needs_proof action then _ else _) as [db2|] eqn:E5; [|done].
  destruct (body db2 _ current) as [[db3 res]|] eqn:Ebd; [|done].
  case_if as E6; [done|]. intros [= <- _]. right. apply Hbody in Ebd.
  assert (db_audit db2 = db_audit db) as E7 by (destruct (needs_proof action); [by apply consumeReauth_audit in E5 | by injection E5 as <-]).
  eexists. rewrite touch_audit. cbn [remember log_audit set_commands db_audit]. rewrite Ebd, E7. split_and!; [reflexivity | exact EID | done | done].
Qed.
Lemma ReplaceDraft_audited s tok r raw ck tk db db' a :
  ReplaceDraft s tok r raw ck tk db = Commit db' a ->
  exists actor, authorized s tok r adminauth.WriteConfig ck db actor /\ (db' = db \/ audited db db' actor "config.save_draft" "installation").
Proof.
  unfold ReplaceDraft. do 4 (case_if as E; [done|]; clear E). destruct (beginCommand _ _ _ _ _ _ _) as [state|] eqn:Eb; [|done].
  intros Hc. exists (adminauth.aID (account state)). split.
  { unfold beginCommand in Eb. destruct (tokenHash tok) as [h|] eqn:Eh; [|done].
    destruct (loadSession h _ db) as [st|] eqn:El; [|done]. apply loadSession_ok in El as (row & ac & Hrow & Hac & EID & Erole & Hen & Ecsrf & _).
    destruct (adminauth.Requirement _ _) as [req|] eqn:Er; [|done]. destruct (adminauth.RequiresReauthentication req && _); [done|].
    destruct (adminauth.CheckMutation _ _ _) as [[]|] eqn:Em; [|done]. injection Eb as <-. rewrite EID. constructor.
    - unfold actor_of. rewrite Eh. simpl. by rewrite Hrow.
    - exists h, row, ac. split_and!; try done; [by rewrite <- Erole, Er | by rewrite <- Ecsrf]. }
  revert Hc. destruct (readConfig db) as [current|]; [|done]. destruct (adminauth.CheckSession _ _ _ _); [|done].
  destruct (replayed _ _ _ _) as [[[[] ?]|]|]; try done; [intros [= <- _]; by left|].
  case_if as E5; [done|]. destruct (check_draft _ _ _ _) as [nx|]; [case_if as E6; [done|]; case_if as E7; [done|]|];
    intros [= <- _]; right; eexists; rewrite touch_audit; by split_and!.
Qed.

(** The log of any later moment extends the present one; the results of the
    traffic lab are added by the lab alone. *)
Definition lab_result (row : audit_row) : bool := String.eqb (au_action row) "lab.result".
Definition grows (db db' : DB) : Prop := exists rows, db_audit db' = db_audit db ++ rows /\ Forall (fun row => lab_result row = false) rows.
#[global] Instance grows_preorder : PreOrder grows.
Proof.
  split.
  - intros db. exists []. by rewrite app_nil_r.
  - intros a b c (k1 & E1 & F1) (k2 & E2 & F2). exists (k1 ++ k2). rewrite E2, E1, app_assoc. split; [done | by apply Forall_app].
Qed.
Lemma grows_same db db' : db_audit db' = db_audit db -> grows db db'.
Proof. intros E. exists []. by rewrite app_nil_r. Qed.
Lemma grows_one db db' row : db_audit db' = db_audit db ++ [row] -> lab_result row = false -> grows db db'.
Proof. intros E Hr. exists [row]. split; [done | by apply Forall_singleton]. Qed.
Lemma action_text_lab a : String.eqb (action_text a) "lab.result" = false.
Proof. by destruct a. Qed.
Lemma tick_rooms_grows v t ids i rs d ch db db' d' ch' : tick_rooms v t ids i rs d ch db = Ok (db', d', ch') -> grows db db'.
Proof.
  revert i d ch db. induction rs as [|room rs IH]; intros i d ch db; simpl; [by intros [= <- _ _]|].
  case_if as E1; [by apply IH|]. destruct (control.dRuntimes d !! i) as [old|]; [|done].
  destruct (readEvents _ db) as [es|]; [|done]. destruct (tick_room _ _ _ _ _ _) as [v' evs].
  case_decide as E2; intros Ht; apply IH in Ht; (etrans; [|exact Ht]); [by apply grows_same | by eapply grows_one].
Qed.
Lemma audited_grows db db' actor action target : db' = db \/ audited db db' actor action target -> String.eqb action "lab.result" = false -> grows db db'.
Proof. intros [-> | (row & E & _ & Ea & _)] Hn; [done|]. eapply grows_one; [exact E|]. unfold lab_result. by rewrite Ea. Qed.
Lemma finish_grows {A} f db (o : outcome A) : (forall db' a, o = Commit db' a -> grows db db') -> grows db (fst (finish f db o)).
Proof. intros Hc. assert (grows db db) by done. destruct f, o; simpl; eauto. Qed.
Lemma auditRecovery_grows node ms ids db : grows db (auditRecovery node ms ids db).
Proof.
  unfold auditRecovery. case_if as E; [done|]. set (olds := from_option _ _ _). clearbody olds.
  apply (fold_left_ind (fun db' => grows db db')); [done|]. intros db1 m _ IH. etrans; [exact IH|].
  unfold audit_room. case_if as E1; [done|]. by eapply grows_one.
Qed.
Lemma pexec_grows s o f db : grows db (pexec s o f db).
Proof.
  destruct o; simpl; apply finish_grows; intros db' a'.
  - intros (actor & _ & Hc)%ReplaceDraft_audited. by eapply audited_grows.
  - intros (actor & _ & Hc)%command_audited; [eapply audited_grows; [exact Hc | apply action_text_lab] | intros *; apply publish_body_audit].
  - unfold Operate. destruct (if _ : bool then _ else _); [|done].
    intros (actor & _ & Hc)%command_audited; [eapply audited_grows; [exact Hc | apply action_text_lab] | intros *; apply operate_body_audit].
  - intros (actor & _ & Hc)%command_audited; [eapply audited_grows; [exact Hc | apply action_text_lab] | intros *; apply event_body_audit].
  - unfold Refresh. unchanged; by eapply grows_same, sign_audit.
  - unfold Tick. destruct (readConfig db); [|done]. destruct (readDelivery db) as [[d g]|]; [|done].
    destruct (tick_rooms _ _ _ _ _ _ _ _) as [[[db1 d1] ch]|] eqn:Et; [|done]. apply tick_rooms_grows in Et. case_if as E1.
    + by intros [= <- _].
    + destruct (sign _ _ _ _ _) as [db2|] eqn:Es; [|done]. intros [= <- _]. apply sign_audit in Es. etrans; [exact Et | by apply grows_same].
  - unfold Acknowledge. case_if as E1; [done|]. case_if as E2; [done|]. destruct (readDelivery db) as [[d g]|]; [|done].
    destruct (de_publication _) as [p|]; [|done]. case_if as E3; [done|]. case_if as E4; [done|]. case_if as E5; [done|].
    intros [= <- _]. apply (auditRecovery_grows node (nRooms a) ids db).
  - unfold RecoverClock. case_if as E1; [done|]. case_if as E2; [done|]. destruct (readConfig db); [|done].
    destruct (readDelivery db) as [[d g]|]; [|done]. destruct (de_publication _) as [p|]; [|done].
    case_if as E3; [done|]. case_if as E4; [intros [= <- _]; done|]. case_if as E5; [done|].
    destruct (sign _ _ _ _ _) as [db1|] eqn:Es; [|done]. intros [= <- _]. apply sign_audit in Es. eapply grows_one; [cbn; by rewrite Es | done].
Qed.
Lemma prun_grows db ops : grows db (prun db ops).
Proof. unfold prun. apply (fold_left_ind (grows db)); [done|]. intros db1 x _ IH. etrans; [exact IH | apply pexec_grows]. Qed.

(** ** The services behind the handlers *)

Context `{Mime} `{views.ViewWire}.

(** What a request meets: the service, the clock and random values of its
    transaction, what the database does, and the stamps of the audit rows.
    [m_profile] is [json.Unmarshal] of a configuration, its profile. *)
Record moment := mkMoment {
  m_service : PublicationService; m_clock : clock; m_tokens : tokens; m_fault : fault; m_nodes : Z; m_stamp : nat -> Z * Z;
  m_profile : string -> option string
}.
Definition ends {A} (m : moment) (db : DB) (o : outcome A) : DB * result error A := finish (m_fault m) db o.
Definition replied (p : DB * result error ControlReply) : DB * answer :=
  (fst p, match snd p with Ok a => Ok (a, None) | Err er => Err er end).

Definition publication_backend (m : moment) : PublicationBackend DB :=
  let s := m_service m in let ck := m_clock m in let tk := m_tokens m in let t := t_session ck in
  {| RouteCheck_ tok r raw db := replied (ends m db (views.RouteCheck s tok r raw t tk db));
     Publish_ tok r raw db := replied (ends m db (Publish s tok r raw ck tk db));
     View_ tok db := replied (ends m db (views.View s tok t (m_nodes m) db));
     Runtime_ tok room db := replied (ends m db (views.Runtime s tok room t tk db));
     Operate_ tok room r raw db := replied (ends m db (Operate s tok room r raw ck tk db));
     Events_ tok room db := replied (ends m db (views.Events s tok room t tk db));
     ChangeEvent_ tok room event r raw db := replied (ends m db (ChangeEvent s tok room event r raw ck tk db)) |}.
Definition draft_backend (m : moment) : Backend DB :=
  let s := m_service m in let t := t_session (m_clock m) in
  {| Config_ tok db := ends m db (views.Config s tok t db);
     ReplaceDraft_ tok r raw db := ends m db (ReplaceDraft s tok r raw (m_clock m) (m_tokens m) db);
     AuditPage_ tok before limit db := ends m db (views.AuditPage s tok before limit (m_stamp m) t db);
     Installation_ := None;
     config_profile := m_profile m |}.

(** The two handlers over these services. *)
Inductive door := DraftDoor | RuntimeDoor (security : bool).
Definition serve (m : moment) (sb : SecurityBackend DB) (d : door) (r : Request) (db : DB) : DB * Response :=
  match d with
  | DraftDoor => @ServeDraft _ DB (draft_backend m) r db
  | RuntimeDoor security => @ServeRuntime _ DB (publication_backend m) sb security r db
  end.

(** ** Changes *)

Lemma finish_read {A} f db (o : outcome A) : (forall db' a, o = Commit db' a -> db' = db) -> fst (finish f db o) = db.
Proof. intros Hc. destruct f, o; simpl; eauto. Qed.
Lemma finish_change {A} f db (o : outcome A) db' : fst (finish f db o) = db' -> db' <> db -> exists a, o = Commit db' a.
Proof. destruct f, o; simpl; intros <-; try done; eauto. Qed.

(** What a request of an operator does: the token it came with, the action and
    its object. *)
Definition asked (d : door) (r : Request) (tok action target : string) (a : adminauth.Action) : Prop :=
  match d with
  | DraftDoor => exists raw, draft_admit r = Ok (SaveDraft raw, tok) /\ a = adminauth.WriteConfig /\ action = "config.save_draft"%string /\
                   target = "installation"%string
  | RuntimeDoor security => exists e raw, asks security r e tok raw /\ of_security e = false /\ Method r <> "GET"%string /\ action = action_text a /\
      match e with
      | PublishE => a = adminauth.WriteConfig /\ target = "config.publish"%string
      | RuntimeE room => a ∈ [adminauth.OperateRuntime; adminauth.InstantOff; adminauth.NewEpoch] /\ target = room
      | EventsE room => a = adminauth.WriteEvents /\ target = room +:+ "/events"
      | EventE id _ => a = adminauth.WriteEvents /\ target = "events/" +:+ id
      | _ => False
      end
  end.

Lemma views_read m db : forall tok room r raw before limit,
  fst (ends m db (views.RouteCheck (m_service m) tok r raw (t_session (m_clock m)) (m_tokens m) db)) = db /\
  fst (ends m db (views.View (m_service m) tok (t_session (m_clock m)) (m_nodes m) db)) = db /\
  fst (ends m db (views.Runtime (m_service m) tok room (t_session (m_clock m)) (m_tokens m) db)) = db /\
  fst (ends m db (views.Events (m_service m) tok room (t_session (m_clock m)) (m_tokens m) db)) = db /\
  fst (ends m db (views.Config (m_service m) tok (t_session (m_clock m)) db)) = db /\
  fst (ends m db (views.AuditPage (m_service m) tok before limit (m_stamp m) (t_session (m_clock m)) db)) = db.
Proof.
  intros. unfold ends. split_and!; apply finish_read; intros db' a.
  - unfold views.RouteCheck. unchanged.
  - unfold views.View. unchanged.
  - unfold views.Runtime. unchanged.
  - unfold views.Events. unchanged.
  - unfold views.Config. unchanged.
  - unfold views.AuditPage. unchanged.
Qed.

Lemma Operate_audited s tok room r raw ck tk db db' a :
  Operate s tok room r raw ck tk db = Commit db' a ->
  exists action actor, action ∈ [adminauth.OperateRuntime; adminauth.InstantOff; adminauth.NewEpoch] /\
    authorized s tok r action ck db actor /\ (db' = db \/ audited db db' actor (action_text action) room).
Proof.
  unfold Operate. destruct (if _ : bool then _ else _) as [i|]; [|done]. intros (actor & Ha & Hc)%command_audited; [|intros *; apply operate_body_audit].
  eexists _, actor. split; [|by split]. repeat case_match; set_solver.
Qed.
Lemma ChangeEvent_audited s tok room event r raw ck tk db db' a :
  ChangeEvent s tok room event r raw ck tk db = Commit db' a ->
  exists actor, authorized s tok r adminauth.WriteEvents ck db actor /\
    (db' = db \/ audited db db' actor (action_text adminauth.WriteEvents) (if String.eqb event "" then room +:+ "/events" else "events/" +:+ event)).
Proof. unfold ChangeEvent. intros Hc%command_audited; [done | intros *; apply event_body_audit]. Qed.

Lemma draft_reads m c tok r db : (forall raw, c <> SaveDraft raw) -> fst (@draft_perform DB (draft_backend m) c tok r db) = db.
Proof.
  intros Hc. pose proof (fun before limit => views_read m db tok "" (Base r) "" before limit) as Hv.
  destruct c as [|raw| | |before limit]; [| by destruct (Hc raw) | | done |]; cbn.
  3: destruct (Hv before limit) as (_ & _ & _ & _ & _ & Hr). 1,2: destruct (Hv 0 0) as (_ & _ & _ & _ & Hr & _).
  all: match goal with |- context [ends ?a ?b ?o] => destruct (ends a b o) end; exact Hr.
Qed.
(** The endpoints of the publication service that are read. *)
Lemma runtime_reads m sb e tok r raw db : of_security e = false ->
  fst (@perform DB (publication_backend m) sb e tok r raw db) <> db -> e <> RouteCheckE /\ e <> DeliveryE /\
  (is_get r = true -> match e with RuntimeE _ | EventsE _ => False | _ => True end).
Proof.
  intros Hs Hne. pose proof (fun room => views_read m db tok room (Base r) raw 0 0) as Hv. cbn in Hne.
  split_and!; [intros -> | intros -> |]; [by destruct Hne, (Hv "") | by destruct Hne, (Hv "") as (_ & ? & _) |].
  intros Hg. destruct e; try done; cbn in Hne; rewrite Hg in Hne; by destruct Hne, (Hv room) as (_ & _ & ? & ? & _).
Qed.

Lemma runtime_commits m sb e tok r raw db db' security :
  asks security r e tok raw -> of_security e = false -> fst (@perform DB (publication_backend m) sb e tok r raw db) = db' -> db' <> db ->
  exists actor action target a, authorized (m_service m) tok (Base r) a (m_clock m) db actor /\ audited db db' actor action target /\
    asked (RuntimeDoor security) r tok action target a.
Proof.
  intros Hask He Ep Hne. destruct (runtime_reads m sb e tok r raw db He) as (H1' & H2' & H3'); [by rewrite Ep|].
  assert (Method r <> "GET"%string) as Hget.
  { intros Hg. pose proof (k_method _ _ _ _ _ Hask) as Hm. rewrite Hg in Hm. unfold is_get in H3'. rewrite Hg in H3'.
    specialize (H3' eq_refl). destruct e as [| | | | | | | |? []| | |? []]; try done; cbn in Hm; set_solver. }
  assert (is_get r = false) as Hig by by apply String.eqb_neq.
  destruct e as [| | | | | | | |? ?|room|room|id resume]; try done; cbn in Ep; try rewrite Hig in Ep; apply finish_change in Ep as [a Hc]; try done.
  - apply command_audited in Hc as (actor & Ha & [-> | Hc]); [done| |intros *; apply publish_body_audit].
    eexists actor, _, _, _. split_and!; [exact Ha | exact Hc | by exists PublishE, raw].
  - apply Operate_audited in Hc as (action & actor & Hin & Ha & [-> | Hc]); [done|].
    eexists actor, _, _, _. split_and!; [exact Ha | exact Hc | by exists (RuntimeE room), raw].
  - apply ChangeEvent_audited in Hc as (actor & Ha & [-> | Hc]); [done|].
    eexists actor, _, _, _. split_and!; [exact Ha | exact Hc | by exists (EventsE room), raw].
  - apply ChangeEvent_audited in Hc as (actor & Ha & [-> | Hc]); [done|].
    eexists actor, _, _, _. split_and!; [exact Ha | exact Hc | exists (EventE id resume), raw]. split_and!; try done.
    destruct (k_endpoint _ _ _ _ _ Hask) as [Hn _]. by destruct id.
Qed.

(** C27: every change that an operator's request makes through the endpoints
    of drafts, publication, runtimes and events, whatever the database answers,
    was asked by a request that these endpoints pass on and that is no GET,
    under the cookie of a session whose enabled account may take this action
    and whose origin and CSRF checks passed; and exactly one row of the audit
    log is added with it, which names the account, the action and its object. *)
Theorem changes_are_audited m sb d r db db' x :
  serve m sb d r db = (db', x) -> db' <> db -> (forall security e tok raw, d = RuntimeDoor security -> asks security r e tok raw -> of_security e = false) ->
  exists tok actor action target a, asked d r tok action target a /\ authorized (m_service m) tok (Base r) a (m_clock m) db actor /\
    audited db db' actor action target.
Proof.
  intros Hs Hne Hsec. destruct d as [|security]; cbn [serve] in Hs.
  - unfold ServeDraft in Hs. destruct (draft_admit r) as [[c tok]|y] eqn:E; [|by injection Hs as <- _].
    assert (exists raw, c = SaveDraft raw) as [raw ->].
    { destruct c; eauto; exfalso; apply Hne; apply (f_equal fst) in Hs; by rewrite draft_reads in Hs by done. }
    cbn in Hs. destruct (ends _ _ _) as [db1 y] eqn:Ee. injection Hs as -> _. apply (f_equal fst) in Ee. cbn in Ee. apply finish_change in Ee as [a Hc]; [|done].
    apply ReplaceDraft_audited in Hc as (actor & Ha & [-> | Hc]); [done|].
    exists tok, actor, "config.save_draft"%string, "installation"%string, adminauth.WriteConfig. split_and!; [by exists raw | done | done].
  - unfold ServeRuntime in Hs. destruct (runtime_admit security r) as [[[e tok] raw]|y] eqn:E; [|by injection Hs as <- _].
    apply runtime_admit_iff in E. pose proof (Hsec security e tok raw eq_refl E) as He.
    destruct (@perform DB _ _ e tok r raw db) as [db1 y] eqn:Ep. injection Hs as -> _. apply (f_equal fst) in Ep. cbn [fst] in Ep.
    destruct (runtime_commits m sb e tok r raw db db' security E He Ep Hne) as (actor & action & target & a & Ha & Hau & Hm).
    by exists tok, actor, action, target, a.
Qed.
End audit.
End controlaudit.
