(* ===== verification/ControlPages.v ===== *)
(** * Following the audit log

    A client of [GET /api/admin/v1/audit-events] asks for the first page and
    then, with each cursor it is given, for the next, until there is none. The
    query it sends is read back exactly ([page_request_admitted]); and
    [audit_walk_complete] says what it has seen at the end. *)

From S2P Require Import Prelude GoStd Keyring Control ConfigTrust AdminAuth Vault Publication CommandProps Origin Accounts Security Coordinator Json AuthHTTP InstallPlan InstallCost ControlViews ControlHTTP ControlRoutes ControlAudit.
From stdpp Require Import base list gmap strings fin_maps sorting.
From Stdlib Require Import ZArith Lia Ascii String.

Module controlpages.
Import pgstore accounts http controlhttp controlroutes controlaudit.
Local Open Scope Z_scope.

(** ** The query *)

(** Characters that stand for themselves in a query. *)
Definition query_char (a : ascii) : bool := negb (existsb (Ascii.eqb a) ["%"; "+"; "&"; "="; ";"]%char).
Definition verbatim (s : string) : bool := forallb query_char (control.chars s).

Lemma verbatim_unescape s : verbatim s = true -> url.QueryUnescape s = Some s.
Proof.
  intros Hv. unfold url.QueryUnescape. assert (url.unescape (list_ascii_of_string s) = Some (list_ascii_of_string s)) as ->;
    [|by cbn; rewrite string_of_list_ascii_of_string].
  unfold verbatim, control.chars in Hv. induction (list_ascii_of_string s) as [|a l IH]; [done|]. cbn in Hv |- *.
  apply andb_true_iff in Hv as [Ha Hl]. unfold query_char in Ha. cbn in Ha. rewrite !orb_false_r in Ha. apply negb_true_iff in Ha. rewrite !orb_false_iff in Ha.
  destruct Ha as (-> & -> & _). by rewrite (IH Hl).
Qed.
Lemma verbatim_no_byte sep s : query_char sep = false -> verbatim s = true -> strs.contains_byte sep s = false.
Proof. intros Hs Hv. by eapply forallb_no_byte. Qed.
Lemma encoded_verbatim s : verbatim (base64.EncodeToString s) = true.
Proof.
  unfold verbatim, control.chars, base64.EncodeToString, base64.encode. rewrite list_ascii_of_string_of_list_ascii.
  pose proof (base64.enc_sextets_range _ (bytes_range s)) as Hr. induction Hr as [|v l Hv _ IH]; [done|]. cbn. rewrite IH, andb_true_r.
  assert (forallb (fun n => query_char (base64.enc_char true (Z.of_nat n))) (seq 0 64) = true) as Hall by by vm_compute.
  rewrite forallb_forall in Hall. unfold base64.is_sextet in Hv. specialize (Hall (Z.to_nat v)). rewrite Z2Nat.id in Hall by lia.
  apply Hall, in_seq. lia.
Qed.
Lemma format_verbatim z : 0 <= z -> verbatim (strconv.FormatInt z) = true.
Proof.
  intros Hz. unfold strconv.FormatInt. rewrite (proj2 (Z.ltb_ge z 0)) by done. destruct (cost.int_String_text z Hz) as (ds & -> & _ & Hd & _).
  unfold verbatim, control.chars, cost.text. rewrite list_ascii_of_string_of_list_ascii. induction Hd as [|d l Hd _ IH]; [done|]. cbn. rewrite IH, andb_true_r.
  assert (forallb (fun n => query_char (cost.digit_char (Z.of_nat n))) (seq 0 10) = true) as Hall by by vm_compute.
  rewrite forallb_forall in Hall. unfold cost.digit in Hd. specialize (Hall (Z.to_nat d)). rewrite Z2Nat.id in Hall by lia. apply Hall, in_seq. lia.
Qed.

Lemma part_pair k v : k <> ""%string -> verbatim k = true -> verbatim v = true -> url.part (k +:+ "=" +:+ v) = Some [(k, v)].
Proof.
  intros Hk Hvk Hvv. unfold url.part. rewrite !contains_app, (verbatim_no_byte ";" k), (verbatim_no_byte ";" v) by done. cbn [orb strs.contains_byte Ascii.eqb Bool.eqb].
  replace (String.eqb (k +:+ "=" +:+ v) "") with false by (by destruct k). rewrite (strs.cut_join "="%char k v (verbatim_no_byte "="%char k eq_refl Hvk)).
  cbn [default from_option id]. by rewrite !verbatim_unescape.
Qed.

Definition page_query (limit : Z) (cursor : option string) : string :=
  "limit" +:+ "=" +:+ strconv.FormatInt limit +:+ match cursor with Some c => String "&" ("cursor" +:+ "=" +:+ c) | None => "" end.
Lemma parse_page_query limit cursor : 0 <= limit -> match cursor with Some c => verbatim c = true | None => True end ->
  url.ParseQuery (page_query limit cursor) =
  Some (match cursor with Some c => <["cursor" := [c]]> {["limit" := [strconv.FormatInt limit]]} | None => {["limit" := [strconv.FormatInt limit]]} end).
Proof.
  intros Hl Hc. pose proof (format_verbatim limit Hl) as Hf. unfold url.ParseQuery, page_query.
  assert (forall v, verbatim v = true -> strs.contains_byte "&" ("limit" +:+ "=" +:+ v) = false) as Hn.
  { intros v Hv. by rewrite !contains_app, (verbatim_no_byte "&" v). }
  destruct cursor as [c|].
  - assert (forall x y z t : string, x +:+ y +:+ z +:+ t = (x +:+ y +:+ z) +:+ t) as -> by (intros; by rewrite !str_app_assoc).
    rewrite strs.split_cons by auto.
    rewrite strs.split_none by (by rewrite !contains_app, (verbatim_no_byte "&" c)).
    cbn [List.length]. rewrite (proj2 (Nat.ltb_ge url.maxParams 2)) by (unfold url.maxParams; lia).
    cbn [mapM]. rewrite !part_pair by done. cbn. unfold url.add_value. cbn. by rewrite lookup_insert_ne.
  - rewrite !str_app_nil_r, strs.split_none by auto. cbn [List.length]. rewrite (proj2 (Nat.ltb_ge url.maxParams 1)) by (unfold url.maxParams; lia).
    cbn [mapM]. rewrite !part_pair by done. cbn. done.
Qed.

(** The keys of a query are read in any order. *)
Lemma query_key_comm k1 v1 k2 v2 acc : k1 <> k2 -> query_key k1 v1 (query_key k2 v2 acc) = query_key k2 v2 (query_key k1 v1 acc).
Proof.
  intros Hne. unfold query_key. destruct acc as [[b n]|]; [|done]. cbn [mbind option_bind].
  destruct v1 as [|x1 [|y1 l1]]; cbn [mbind option_bind]; [by destruct (match v2 with [v] => _ | _ => _ end) | | by destruct (match v2 with [v] => _ | _ => _ end)].
  destruct v2 as [|x2 [|y2 l2]]; cbn [mbind option_bind]; [by destruct (if String.eqb k1 "cursor" then _ else _) | | by destruct (if String.eqb k1 "cursor" then _ else _)].
  destruct (String.eqb_spec k1 "cursor"), (String.eqb_spec k2 "cursor"); try congruence;
    destruct (String.eqb_spec k1 "limit"), (String.eqb_spec k2 "limit"); try congruence;
    destruct (cursor_of x1), (cursor_of x2), (limit_of x1), (limit_of x2); done.
Qed.
Lemma cursor_round z : 0 < z -> in_i64 z -> cursor_of (base64.EncodeToString (strconv.FormatInt z)) = Some z.
Proof.
  intros Hz Hi. unfold cursor_of, base64.StrictDecodeString, base64.EncodeToString. rewrite base64.decode_encode. cbn [mbind option_bind].
  pose proof (strconv.Format_length z ltac:(lia) Hi). rewrite (proj2 (Nat.ltb_ge 20 _)) by done. rewrite strconv.Parse_Format by (done || lia).
  cbn [mbind option_bind]. rewrite (proj2 (Z.leb_gt z 0)) by done. by rewrite String.eqb_refl.
Qed.
Lemma limit_round n : 1 <= n <= 100 -> limit_of (strconv.FormatInt n) = Some n.
Proof.
  intros Hn. unfold limit_of. rewrite strconv.Parse_Format by (unfold in_i64; lia). cbn [mbind option_bind].
  rewrite (proj2 (Z.ltb_ge n 1)), (proj2 (Z.ltb_ge 100 n)) by lia. by rewrite String.eqb_refl.
Qed.

(** The request for the page below an identity; 0 is the first page. *)
Definition cursor_text (before : Z) : option string :=
  if before =? 0 then None else Some (base64.EncodeToString (strconv.FormatInt before)).
Definition page_request (tok : string) (limit : Z) (cursor : option string) : Request :=
  mkRequest (adminauth.mkRequest "GET" (fun _ => [])) path_audit path_audit (page_query limit cursor) false true "" None None 0 None [(CookieName, tok)].

Lemma page_request_admitted `{Mime} tok limit before : len tok = 43 -> 1 <= limit <= 100 -> 0 <= before -> in_i64 before ->
  draft_admit (page_request tok limit (cursor_text before)) = Ok (ReadAuditPage before limit, tok).
Proof.
  intros Ht Hl Hb Hi. unfold draft_admit. set (r := page_request _ _ _). change (canonical r) with true. change (is_get r) with true. cbn [negb andb orb].
  assert (page_of r = Some (before, limit)) as ->.
  { unfold page_of. change (String.eqb (RawQuery r) "") with false. change (RawQuery r) with (page_query limit (cursor_text before)).
    rewrite parse_page_query by (first [lia | unfold cursor_text; destruct (before =? 0); [done | apply encoded_verbatim]]). cbn [mbind option_bind].
    change (String.eqb (Path r) path_audit) with true. cbn [negb orb]. unfold cursor_text. destruct (Z.eqb_spec before 0) as [->|Hne].
    - rewrite map_size_singleton, map_fold_singleton. cbn. by rewrite limit_round.
    - rewrite map_size_insert_None, map_size_singleton by (by rewrite lookup_singleton_ne). cbn [Nat.ltb Nat.leb].
      rewrite map_fold_insert_L by (first [by rewrite lookup_singleton_ne | intros; by apply query_key_comm]). rewrite map_fold_singleton. cbn.
      rewrite limit_round by done. cbn. by rewrite cursor_round by (done || lia). }
  rewrite (proj2 (session_iff r tok)); [done|]. by split_and!.
Qed.

(** ** Pages *)

Section walk.
Context `{Sha256} `{Codec control.Config} `{Codec control.Delivery} `{Codec configtrust.Snapshot}
  `{Codec configtrust.envelope} `{Ed25519} `{Wire} `{Mime} `{views.ViewWire}.
Import views.

(** The identities of the rows: positive, of 64 bits, each given once; not
    necessarily in the order of the rows. *)
Context (stamp : nat -> Z * Z).
Definition stamped (db : DB) : Prop :=
  (forall i, is_Some (db_audit db !! i) -> 0 < fst (stamp i) /\ in_i64 (fst (stamp i))) /\
  (forall i j, is_Some (db_audit db !! i) -> is_Some (db_audit db !! j) -> fst (stamp i) = fst (stamp j) -> i = j).
Lemma stamped_before db db' : grows db db' -> stamped db' -> stamped db.
Proof.
  intros (k & Hk & _) [H1' H2']. assert (forall i, is_Some (db_audit db !! i) -> is_Some (db_audit db' !! i)) as Hi.
  { intros i [x Hx]. exists x. rewrite Hk. by apply lookup_app_l_Some. }
  split; auto.
Qed.

Definition after (a b : AuditEvent) : Prop := ae_ID b < ae_ID a.
#[local] Instance newer_trans : Transitive newer.
Proof. intros a b c. unfold newer. lia. Qed.
#[local] Instance newer_total : Total newer.
Proof. intros a b. unfold newer. lia. Qed.

Lemma table_lookup db a : a ∈ audit_table stamp db <-> exists i row, db_audit db !! i = Some row /\ a = mkAuditEvent (fst (stamp i)) (snd (stamp i)) row.
Proof. unfold audit_table. rewrite elem_of_lookup_imap. naive_solver. Qed.
Lemma table_id db a : stamped db -> a ∈ audit_table stamp db -> 0 < ae_ID a /\ in_i64 (ae_ID a).
Proof. intros [Hs _] (i & row & Hi & ->)%table_lookup. by apply Hs; eexists. Qed.
Lemma table_nodup db : stamped db -> NoDup (ae_ID <$> audit_table stamp db).
Proof.
  intros [_ Hinj]. unfold audit_table. rewrite fmap_imap. apply NoDup_alt. intros i j x Hi Hj. rewrite list_lookup_imap in Hi, Hj.
  apply fmap_Some in Hi as (r1 & Hr1 & ->), Hj as (r2 & Hr2 & E). apply Hinj; [by eexists | by eexists | exact E].
Qed.
Lemma table_grows db db' a : grows db db' -> a ∈ audit_table stamp db -> a ∈ audit_table stamp db'.
Proof. intros (k & Hk & _) (i & row & Hi & ->)%table_lookup. apply table_lookup. exists i, row. split; [|done]. rewrite Hk. by apply lookup_app_l_Some. Qed.

Lemma sorted_strict l : StronglySorted newer l -> NoDup (ae_ID <$> l) -> StronglySorted after l.
Proof.
  induction 1 as [|a l Hs IH Hf]; [constructor|]. rewrite fmap_cons, NoDup_cons. intros [Hn Hd]. constructor; [by apply IH|].
  rewrite Forall_forall in Hf |- *. intros b Hb. specialize (Hf b Hb). unfold newer in Hf. unfold after.
  assert (ae_ID a <> ae_ID b); [|lia]. intros E. apply Hn. rewrite E. by apply list_elem_of_fmap_2.
Qed.
Lemma strict_nodup l : StronglySorted after l -> NoDup l.
Proof.
  induction 1 as [|a l Hs IH Hf]; constructor; [|done]. intros Ha. rewrite Forall_forall in Hf. specialize (Hf a Ha). unfold after in Hf. lia.
Qed.
Lemma elem_of_filterb (f : AuditEvent -> bool) l a : a ∈ List.filter f l <-> a ∈ l /\ f a = true.
Proof. by rewrite !list_elem_of_In, filter_In. Qed.

(** The rows below a cursor in their order. *)
Definition ordered (before : Z) (db : DB) : list AuditEvent := merge_sort newer (List.filter (below before) (audit_table stamp db)).
Lemma ordered_elem before db a : a ∈ ordered before db <-> a ∈ audit_table stamp db /\ below before a = true.
Proof. unfold ordered. by rewrite merge_sort_Permutation, elem_of_filterb. Qed.
Lemma ordered_sorted before db : stamped db -> StronglySorted after (ordered before db).
Proof.
  intros Hs. apply sorted_strict; [apply (StronglySorted_merge_sort newer)|]. unfold ordered. rewrite merge_sort_Permutation.
  pose proof (table_nodup db Hs) as Hn. induction (audit_table stamp db) as [|a l IH]; [done|]. rewrite fmap_cons, NoDup_cons in Hn. destruct Hn as [Hn Hd].
  cbn [List.filter]. case_match; [|by apply IH]. rewrite fmap_cons, NoDup_cons. split; [|by apply IH].
  intros (x & Ex & Hx)%list_elem_of_fmap. apply elem_of_filterb in Hx as [Hx _]. apply Hn. rewrite Ex. by apply list_elem_of_fmap_2.
Qed.

(** A page with as many rows as asked for: what is left is below its last row. *)
Lemma full_page before limit db a : stamped db -> last (select_audit before limit (audit_table stamp db)) = Some a ->
  0 < ae_ID a /\ in_i64 (ae_ID a) /\ below before a = true /\
  (forall b, b ∈ select_audit before limit (audit_table stamp db) -> ae_ID a <= ae_ID b) /\
  (forall b, b ∈ audit_table stamp db -> below before b = true -> b ∈ select_audit before limit (audit_table stamp db) \/ below (ae_ID a) b = true).
Proof.
  intros Hs [l El]%last_Some. change (select_audit before limit (audit_table stamp db)) with (take (Z.to_nat limit) (ordered before db)) in El |- *.
  pose proof (take_drop (Z.to_nat limit) (ordered before db)) as Ed. pose proof (ordered_sorted before db Hs) as Hso.
  rewrite <- Ed, El in Hso. assert (a ∈ ordered before db) as Ha by (rewrite <- Ed, El; set_solver). apply ordered_elem in Ha as [Ha Hb].
  destruct (table_id db a Hs Ha) as [Hp Hi]. rewrite El. split_and!; try done.
  - intros b [Hin | ->%list_elem_of_singleton]%elem_of_app; [|done]. rewrite <- app_assoc in Hso.
    pose proof (StronglySorted_app_1_elem_of after _ _ b a Hso Hin ltac:(set_solver)) as Hlt. unfold after in Hlt. lia.
  - intros b Hin Hbb. assert (b ∈ ordered before db) as Ho by by apply ordered_elem. rewrite <- Ed, El in Ho.
    apply elem_of_app in Ho as [Ho|Ho]; [by left|right].
    pose proof (StronglySorted_app_1_elem_of after _ _ a b Hso ltac:(set_solver) Ho) as Hlt. unfold after in Hlt. unfold below.
    apply orb_true_iff. right. by apply Z.ltb_lt.
Qed.
Lemma select_elem before limit db a : a ∈ select_audit before limit (audit_table stamp db) -> a ∈ audit_table stamp db /\ below before a = true.
Proof. intros Ha%elem_of_take. destruct Ha as (i & Ha & _). by eapply ordered_elem, list_elem_of_lookup_2. Qed.
Lemma select_sorted before limit db : stamped db -> StronglySorted after (select_audit before limit (audit_table stamp db)).
Proof.
  intros Hs. pose proof (ordered_sorted before db Hs) as Hso. rewrite <- (take_drop (Z.to_nat limit) (ordered before db)) in Hso.
  by eapply StronglySorted_app_1_l.
Qed.
(** A shorter page holds everything. *)
Lemma short_page before limit db a : 0 <= limit -> Z.of_nat (List.length (select_audit before limit (audit_table stamp db))) <> limit ->
  a ∈ audit_table stamp db -> below before a = true -> a ∈ select_audit before limit (audit_table stamp db).
Proof.
  intros Hl Hne Ha Hb. change (select_audit before limit (audit_table stamp db)) with (take (Z.to_nat limit) (ordered before db)) in Hne |- *.
  rewrite length_take in Hne. rewrite take_ge by lia. by apply ordered_elem.
Qed.

(** ** The walk *)

(** A visit: the commands since the one before, then a request at a service. *)
Record visit := mkVisit { vi_ops : list (PublicationService * pop * fault); vi_service : PublicationService; vi_time : Z }.
Definition arrive (db : DB) (v : visit) : DB := prun db (vi_ops v).
Definition final (db : DB) (vs : list visit) : DB := fold_left arrive vs db.
Definition visit_moment (v : visit) : moment :=
  mkMoment (vi_service v) (mkClock (vi_time v) (vi_time v) (vi_time v)) (mkTokens "" "" "") NoFault (vi_time v) stamp (fun _ => None).
Definition page_at (v : visit) (tok : string) (limit : Z) (cursor : option string) (db : DB) : Response :=
  snd (@ServeDraft _ DB (draft_backend (visit_moment v)) (page_request tok limit cursor) db).

(** Following the cursors; [None] when a request is refused or the visits end first. *)
Fixpoint walk (tok : string) (limit : Z) (vs : list visit) (cursor : option string) (db : DB) : option (list (list AuditEvent)) :=
  match vs with
  | [] => None
  | v :: rest =>
      let db := arrive db v in
      match Content_ (page_at v tok limit cursor db) with
      | AuditItems items None => Some [items]
      | AuditItems items (Some c) => cons items <$> walk tok limit rest (Some c) db
      | _ => None
      end
  end.
(** The session may read the audit log at every visit. *)
Fixpoint may_read (tok : string) (vs : list visit) (db : DB) : Prop :=
  match vs with
  | [] => True
  | v :: rest =>
      let db := arrive db v in
      is_ok (beginCommand (vi_service v) tok adminauth.ReadAudit None false (vi_time v) db) = true /\ may_read tok rest db
  end.

Lemma arrive_grows db v : grows db (arrive db v).
Proof. apply prun_grows. Qed.
Lemma final_grows db vs : grows db (final db vs).
Proof.
  unfold final. apply (fold_left_ind (grows db)); [done|]. intros db1 v _ IH. etrans; [exact IH | apply arrive_grows].
Qed.

Lemma page_served v tok limit before db : len tok = 43 -> 1 <= limit <= 100 -> 0 <= before -> in_i64 before ->
  is_ok (beginCommand (vi_service v) tok adminauth.ReadAudit None false (vi_time v) db) = true ->
  let page := select_audit before limit (audit_table stamp db) in
  Content_ (page_at v tok limit (cursor_text before) db) = AuditItems page (next_cursor page limit).
Proof.
  intros Ht Hl Hb Hi Hok page. unfold page_at, ServeDraft. rewrite page_request_admitted by done. cbn. unfold AuditPage.
  rewrite (proj2 (Z.ltb_ge before 0)), (proj2 (Z.ltb_ge limit 1)), (proj2 (Z.ltb_ge 100 limit)) by lia. cbn [orb].
  by destruct (beginCommand _ _ _ _ _ _ _).
Qed.

(** The rows that are still to come, in the log at the end. *)
Definition left_over (before : Z) (db : DB) : nat := List.length (List.filter (below before) (audit_table stamp db)).
Lemma table_nodup_rows db : stamped db -> NoDup (audit_table stamp db).
Proof. intros Hs%(table_nodup db). by eapply NoDup_fmap_1. Qed.
Lemma left_over_full before limit db db' a : stamped db' -> grows db db' -> last (select_audit before limit (audit_table stamp db)) = Some a ->
  (List.length (select_audit before limit (audit_table stamp db)) + left_over (ae_ID a) db' <= left_over before db')%nat.
Proof.
  intros Hs' Hg Hlast. pose proof (stamped_before _ _ Hg Hs') as Hs. destruct (full_page _ _ _ _ Hs Hlast) as (Hp & _ & Hb & Hge & _). unfold left_over. rewrite <- length_app.
  apply submseteq_length, NoDup_submseteq.
  - apply NoDup_app. split_and!; [by apply strict_nodup, select_sorted | | by apply NoDup_ListNoDup, List.NoDup_filter, NoDup_ListNoDup, table_nodup_rows].
    intros b Hin [_ Hlt]%elem_of_filterb. specialize (Hge b Hin). unfold below in Hlt. apply orb_true_iff in Hlt. rewrite negb_true_iff, Z.ltb_lt, Z.ltb_ge in Hlt. lia.
  - intros b [Hin | [Hin Hlt]%elem_of_filterb]%elem_of_app; apply elem_of_filterb.
    + apply select_elem in Hin as [Hin Hbb]. split; [by eapply table_grows | done].
    + split; [done|]. unfold below in *. rewrite orb_true_iff, negb_true_iff, Z.ltb_lt, Z.ltb_ge in *. lia.
Qed.

Definition first_table (db : DB) (vs : list visit) : list AuditEvent :=
  audit_table stamp (match vs with v :: _ => arrive db v | [] => db end).
Lemma walk_below tok limit vs before db : len tok = 43 -> 1 <= limit <= 100 -> stamped (final db vs) -> 0 <= before -> in_i64 before -> may_read tok vs db ->
  Z.of_nat (left_over before (final db vs)) < limit * Z.of_nat (List.length vs) ->
  exists pages, walk tok limit vs (cursor_text before) db = Some pages /\ StronglySorted after (List.concat pages) /\
    (forall a, a ∈ List.concat pages -> a ∈ audit_table stamp (final db vs) /\ below before a = true) /\
    (forall a, a ∈ first_table db vs -> below before a = true -> a ∈ List.concat pages).
Proof.
  intros Ht Hl. revert before db. induction vs as [|v vs IH]; intros before db Hs' Hb Hi Hr Hlo; [cbn in Hlo; lia|].
  destruct Hr as [Hok Hr]. cbn [walk first_table]. rewrite page_served by done. set (db1 := arrive db v) in *.
  change (final db (v :: vs)) with (final db1 vs) in *. pose proof (stamped_before _ _ (final_grows db1 vs) Hs') as Hs. set (page := select_audit before limit (audit_table stamp db1)).
  assert (forall a, a ∈ page -> a ∈ audit_table stamp (final db1 vs) /\ below before a = true) as Hpage.
  { intros a [Ha Hbe]%select_elem. split; [|done]. eapply table_grows; [apply final_grows | done]. }
  assert (StronglySorted after page) as Hsort by by apply select_sorted.
  unfold next_cursor. destruct (Z.eqb_spec (Z.of_nat (List.length page)) limit) as [Hfull|Hshort].
  - destruct (last page) as [a|] eqn:El; [|destruct page as [|? ?] using rev_ind; [cbn in Hfull; lia | by rewrite last_snoc in El]].
    destruct (full_page _ _ _ _ Hs El) as (Hp & Hai & Hba & Hge & Hrest). pose proof (left_over_full _ _ _ _ _ Hs' (final_grows db1 vs) El) as Hcnt.
    fold page in Hcnt, Hge, Hrest. cbn [List.length] in Hlo. cbn [fmap option_fmap option_map].
    replace (Some (base64.EncodeToString (strconv.FormatInt (ae_ID a)))) with (cursor_text (ae_ID a)) by (unfold cursor_text; by rewrite (proj2 (Z.eqb_neq _ 0)) by lia).
    destruct (IH (ae_ID a) db1) as (pages & -> & Hso & Hin & Hall); [done | lia | done | done | lia |].
    exists (page :: pages). cbn [fmap option_fmap option_map List.concat]. split_and!; [done | | |].
    + apply StronglySorted_app_2; [|done|done]. intros x y Hx Hy. apply Hin in Hy as [_ Hy]. specialize (Hge x Hx). unfold below in Hy. unfold after.
      rewrite orb_true_iff, negb_true_iff, Z.ltb_lt, Z.ltb_ge in Hy. lia.
    + intros x [Hx|Hx]%elem_of_app; [by apply Hpage|]. apply Hin in Hx as [Hx Hy]. split; [done|]. unfold below in *.
      rewrite orb_true_iff, negb_true_iff, Z.ltb_lt, Z.ltb_ge in *. lia.
    + intros x Hx Hbx. apply elem_of_app. destruct (Hrest x Hx Hbx) as [Hin'|Hlt]; [by left|right]. apply Hall; [|done].
      destruct vs as [|v' vs]; [done|]. eapply table_grows; [apply arrive_grows | done].
  - exists [page]. cbn [List.concat]. rewrite app_nil_r. split_and!; try done. intros a Ha Hbe. apply short_page; try done; lia.
Qed.

(** C28: a client that follows the cursors of the audit endpoint reaches the
    end when it may visit often enough for the rows there are at the end, while
    operators, nodes and the scheduler go on changing the installation between
    its visits: it has then seen every row that was in the log when it began,
    each row once, newest first, and nothing that is not in the log. *)
Theorem audit_walk_complete tok limit v vs db : stamped (final db (v :: vs)) -> len tok = 43 -> 1 <= limit <= 100 -> may_read tok (v :: vs) db ->
  Z.of_nat (List.length (db_audit (final db (v :: vs)))) < limit * Z.of_nat (List.length (v :: vs)) ->
  exists pages, walk tok limit (v :: vs) None db = Some pages /\
    StronglySorted after (List.concat pages) /\ NoDup (List.concat pages) /\
    (forall a, a ∈ audit_table stamp (arrive db v) -> a ∈ List.concat pages) /\
    (forall a, a ∈ List.concat pages -> a ∈ audit_table stamp (final db (v :: vs))).
Proof.
  intros Hs Ht Hl Hr Hn. destruct (walk_below tok limit (v :: vs) 0 db) as (pages & Hw & Hso & Hin & Hall); try done; try lia.
  { unfold left_over. assert (forall l, List.filter (below 0) l = l) as ->; [|by unfold audit_table; rewrite length_imap].
    intros l. induction l as [|a l IH]; [done|]. cbn. by rewrite IH. }
  exists pages. split_and!; [done | done | by apply strict_nodup | intros a Ha; by apply Hall | intros a Ha; by apply Hin].
Qed.
End walk.
End controlpages.
