(* ===== verification/ControlExample.v ===== *)
(** * A concrete operator

    An administrator of the installation of [PublicationExample] works through
    the endpoints of [ControlHTTP]: the witnesses of [ControlAudit] and
    [ControlPages]. *)

From S2P Require Import Prelude GoStd Keyring Control ConfigTrust AdminAuth Vault Publication PublicationExample CommandProps Origin Accounts Security Coordinator Json AuthHTTP InstallPlan InstallCost ControlViews ControlHTTP ControlRoutes ControlAudit ControlPages.
From stdpp Require Import base list gmap strings fin_maps sorting.
From Stdlib Require Import ZArith Lia Ascii String.

Module controlexample.
Import pgstore example http controlhttp controlroutes controlaudit controlpages.
Local Open Scope Z_scope.

#[local] Instance ex_mime : Mime := fun s => if String.eqb s "application/json" then Some (s, ∅) else None.
#[local] Instance ex_views : views.ViewWire :=
  {| views.json_view _ := "{view}"; views.json_events _ := "{events}"; views.json_users _ := "{users}"; views.json_route_check _ := "{check}";
     views.decode_route_check _ := None |}.
Definition ex_security : SecurityBackend DB :=
  let no db : DB * answer := (db, Err unavailable) in
  {| PolicyEnrollment_ _ _ _ _ db := no db; Policy_ _ db := no db; ChangePolicy_ _ _ _ db := no db; BeginPolicyEnrollment_ _ _ _ db := no db;
     Users_ _ db := no db; CreateUser_ _ _ _ db := no db; ChangeUser_ _ _ _ _ _ db := no db; Reauthenticate_ _ _ _ db := no db |}.

(** The instant OFF of the room, as a request; its answer is lost. *)
Definition json_operate : adminauth.request :=
  adminauth.mkRequest "PATCH" (fun h => if String.eqb h "Content-Type" then ["application/json"] else adminauth.Header ex_operate h).
Definition off_request : Request :=
  mkRequest json_operate "/api/admin/v1/rooms/shop/runtime" "/api/admin/v1/rooms/shop/runtime" "" false true "" None None 0
    (Some (Ok "instant-off")) [("other", "1"); (CookieName, ex_token)].
Definition ex_stamp (i : nat) : Z * Z := (Z.of_nat i + 1, at_ (1000 + Z.of_nat i)).
Definition off_moment : moment := mkMoment ex_service (ex_clock 1100) ex_tokens Lost 0 ex_stamp (fun _ => None).
Definition off_db : DB := fst (serve off_moment ex_security (RuntimeDoor true) off_request ex_db).

Lemma changes_are_audited_witness :
  exists row, db_audit off_db = [row] /\ au_actor row = "admin"%string /\ au_action row = "runtime.instant_off"%string /\ au_target row = "shop"%string.
Proof.
  assert (runtime_admit true off_request = Ok (RuntimeE "shop", ex_token, "instant-off")) as Ea by (vm_compute; reflexivity).
  destruct (changes_are_audited off_moment ex_security (RuntimeDoor true) off_request ex_db off_db
    (snd (serve off_moment ex_security (RuntimeDoor true) off_request ex_db))) as (tok & actor & action & target & a & Hask & Hauth & row & Hrow & E1 & E2 & E3).
  - unfold off_db. by destruct (serve _ _ _ _ _).
  - intros E. apply (f_equal (fun db => List.length (db_audit db))) in E. vm_compute in E. discriminate.
  - intros security e tok raw [= <-] Hk%runtime_admit_iff. rewrite Ea in Hk. by injection Hk as <- _ _.
  - exists row. split; [exact Hrow|]. assert (db_audit off_db = [row]) as Er by exact Hrow. vm_compute in Er. injection Er as <-. by split_and!.
Defined.

(** The log has one row at the first visit; a second one is added before the next. *)
Definition shop_operate (key : string) (n : Z) (raw : string) (t : Z) : PublicationService * pop * fault :=
  (ex_service, POperate ex_token "shop" (ex_request "PATCH" (rt_etag n) key) raw (ex_clock t) ex_tokens, NoFault).
Definition ex_visits : list visit :=
  [mkVisit [shop_operate "operate-000000002" 2 "hold" 1150] ex_service (at_ 1160); mkVisit [] ex_service (at_ 1170)].
Definition first_visit : visit := mkVisit [shop_operate "operate-000000001" 1 "instant-off" 1100] ex_service (at_ 1110).

Lemma audit_walk_complete_witness :
  List.length (db_audit (final ex_db (first_visit :: ex_visits))) = 2%nat /\
  exists row, walk ex_stamp ex_token 1 (first_visit :: ex_visits) None ex_db = Some [[views.mkAuditEvent 1 (at_ 1000) row]; []].
Proof.
  assert (List.length (db_audit (final ex_db (first_visit :: ex_visits))) = 2%nat) as El by (vm_compute; reflexivity). split; [exact El|].
  destruct (audit_walk_complete ex_stamp ex_token 1 first_visit ex_visits ex_db) as (pages & Hw & _ & _ & Hall & _).
  - split.
    + intros i Hi. apply lookup_lt_is_Some in Hi. rewrite El in Hi. unfold ex_stamp, in_i64. cbn [fst]. lia.
    + intros i j _ _. unfold ex_stamp. cbn [fst]. lia.
  - vm_compute. reflexivity.
  - lia.
  - vm_compute. auto.
  - rewrite El. vm_compute. reflexivity.
  - rewrite Hw. clear Hall. vm_compute in Hw. injection Hw as <-. eexists. reflexivity.
Defined.
End controlexample.
