(* ===== verification/TrafficRuns.v ===== *)
(** * The runs of the traffic lab

    Module [trafficlab] translates [src/internal/trafficlab/report.go], the
    report of a run and its validity; [trafficruns] the durable runs of
    [src/internal/adminauth/pgstore/traffic_lab.go]: operators start and cancel
    them, a worker claims, executes and finishes them, and what a lost worker
    leaves behind is reaped. The execution itself is a parameter: whatever it
    reports. Histories interleave all of it with the commands of
    [Publication], under faults of the database. *)

From S2P Require Import Prelude GoStd Keyring Control ConfigTrust AdminAuth Vault Publication CommandProps ControlViews ControlHTTP ControlRoutes ControlAudit.
From stdpp Require Import base list gmap strings sorting.
From Stdlib Require Import ZArith Lia Ascii String.

(** ** Reports *)

Module trafficlab.
Local Open Scope Z_scope.

Definition MaxReportBytes : Z := 32768.
Definition Visitors (preset : string) : Z :=
  if String.eqb preset "quick-20" then 20 else if String.eqb preset "smoke-1k" then 1000 else 0.
Record Check := mkCheck { Name : string; cExpected : string; cActual : string; cPassed : bool }.
Record Event := mkEvent { eVisitor : Z; Client : string; Sequence : Z; eExpected : string; eActual : string; ePassed : bool; eAt : Z }.
Record Report := mkReport {
  SchemaVersion : Z; ScenarioVersion : Z; Preset : string; Scope : string; Engine : string; State : string; Stage : string; rVisitors : Z;
  Joined : Z; vAdmitted : Z; Queued : Z; Requests : Z; ExpectedRejections : Z; UnexpectedErrors : Z; DurationMS : Z; P95MS : Z;
  StartedAt : Z; FinishedAt : option Z; Checks : list Check; Timeline : list Event
}.

(** The zero [time.Time], in nanoseconds. *)
Definition zero_time : Z := -62135596800 * pgstore.Second.
Definition NewReport (preset : string) (now : Z) : Report :=
  mkReport 1 1 preset "isolated-sample-origin" "valkey-runtime-v4" "running" "starting" (Visitors preset) 0 0 0 0 0 0 0 0 now None [] [].

Definition among (s : string) (l : list string) : bool := existsb (String.eqb s) l.
Definition counts_ok (r : Report) (preset : string) : bool :=
  (SchemaVersion r =? 1) && (ScenarioVersion r =? 1) && String.eqb (Preset r) preset && negb (Visitors preset =? 0) &&
  (rVisitors r =? Visitors preset) && String.eqb (Scope r) "isolated-sample-origin" && String.eqb (Engine r) "valkey-runtime-v4" &&
  (Z.of_nat (List.length (Timeline r)) <=? 20) && (Z.of_nat (List.length (Checks r)) <=? 16) &&
  (0 <=? Joined r) && (Joined r <=? rVisitors r) && (0 <=? vAdmitted r) && (vAdmitted r <=? 3) && (0 <=? Queued r) && (Queued r <=? rVisitors r) &&
  (0 <=? Requests r) && (Requests r <=? 15000) && (0 <=? DurationMS r) && (DurationMS r <=? 120000) && (0 <=? P95MS r) && (P95MS r <=? 5000) &&
  (0 <=? ExpectedRejections r) && (0 <=? UnexpectedErrors r).
Definition stage_ok (r : Report) : bool :=
  among (State r) ["running"; "passed"; "failed"; "cancelled"; "interrupted"] && among (Stage r) ["starting"; "joining"; "checking"; "finished"] &&
  negb (StartedAt r =? zero_time) && (i64 (ExpectedRejections r + UnexpectedErrors r) <=? Requests r) && (vAdmitted r + Queued r <=? Joined r) &&
  (String.eqb (State r) "running" ||
   (String.eqb (Stage r) "finished" && match FinishedAt r with Some t => StartedAt r <=? t | None => false end)).
Definition texts_ok (c : Check) : bool :=
  (0 <? len (cExpected c)) && (len (cExpected c) <=? 256) && (0 <? len (cActual c)) && (len (cActual c) <=? 256).
Fixpoint checks_ok (seen : list string) (cs : list Check) : bool :=
  match cs with
  | [] => true
  | c :: r =>
      negb (among (Name c) seen) && texts_ok c &&
      among (Name c) ["join-retry"; "fifo"; "lease-cap"; "claim-retry"; "early-claim"; "origin-protection"; "coordinator-loss"; "scenario-stage"] &&
      checks_ok (Name c :: seen) r
  end.
Definition event_ok (visitors : Z) (e : Event) : bool :=
  (1 <=? eVisitor e) && (eVisitor e <=? visitors) && (1 <=? Sequence e) && (Sequence e <=? visitors) && among (Client e) ["browser"; "app"] &&
  among (eExpected e) ["admitted"; "queued"] && among (eActual e) ["admitted"; "queued"] && negb (eAt e =? zero_time) &&
  Bool.eqb (ePassed e) (String.eqb (eExpected e) (eActual e)).
Definition passed_ok (r : Report) : bool :=
  (Z.of_nat (List.length (Checks r)) =? 7) && negb (among "scenario-stage" (Name <$> Checks r)) && (Z.of_nat (List.length (Timeline r)) =? 20) &&
  (ExpectedRejections r =? 3) && (Joined r =? rVisitors r) && (vAdmitted r =? 3) && (Queued r =? rVisitors r - 3) && (UnexpectedErrors r =? 0) &&
  match FinishedAt r with Some _ => true | None => false end && forallb cPassed (Checks r).
Definition Valid (r : Report) (preset : string) : bool :=
  counts_ok r preset && stage_ok r && checks_ok [] (Checks r) && forallb (event_ok (rVisitors r)) (Timeline r) &&
  (negb (String.eqb (State r) "passed") || passed_ok r).

(** The three assignments that end a report. *)
Definition ended (r : Report) (state : string) (now : Z) : Report :=
  mkReport (SchemaVersion r) (ScenarioVersion r) (Preset r) (Scope r) (Engine r) state "finished" (rVisitors r) (Joined r) (vAdmitted r) (Queued r)
    (Requests r) (ExpectedRejections r) (UnexpectedErrors r) (DurationMS r) (P95MS r) (StartedAt r) (Some now) (Checks r) (Timeline r).
Definition with_state (r : Report) (state : string) : Report :=
  mkReport (SchemaVersion r) (ScenarioVersion r) (Preset r) (Scope r) (Engine r) state (Stage r) (rVisitors r) (Joined r) (vAdmitted r) (Queued r)
    (Requests r) (ExpectedRejections r) (UnexpectedErrors r) (DurationMS r) (P95MS r) (StartedAt r) (FinishedAt r) (Checks r) (Timeline r).

(** A valid report that is ended as interrupted, not before it began, is valid. *)
Lemma ended_valid r preset state now : Valid r preset = true -> StartedAt r <= now -> state = "interrupted"%string \/ state = "cancelled"%string ->
  Valid (ended r state now) preset = true.
Proof.
  unfold Valid. rewrite !andb_true_iff. intros ((((Hc & Hs) & Hk) & He) & _) Hn Hst. split_and!; try done.
  - unfold stage_ok in *. rewrite !andb_true_iff in Hs |- *. destruct Hs as (((((_ & _) & Hz) & Hr) & Ha) & _). cbn.
    rewrite (proj2 (Z.leb_le _ _) Hn). destruct Hst as [-> | ->]; by split_and!.
  - cbn. destruct Hst as [-> | ->]; done.
Qed.
Lemma NewReport_valid preset now : Visitors preset <> 0 -> now <> zero_time -> Valid (NewReport preset now) preset = true.
Proof.
  intros Hv Hn. assert (counts_ok (NewReport preset now) preset = true) as Hc.
  { unfold counts_ok, Visitors in *. cbn [NewReport SchemaVersion ScenarioVersion Preset Scope Engine rVisitors]. rewrite String.eqb_refl. unfold Visitors.
    by destruct (String.eqb preset "quick-20"), (String.eqb preset "smoke-1k"). }
  unfold Valid. rewrite Hc. unfold stage_ok. cbn -[zero_time]. by rewrite (proj2 (Z.eqb_neq now zero_time)).
Qed.
End trafficlab.

(** ** Runs *)

Module trafficruns.
Import pgstore trafficlab.
Local Open Scope Z_scope.

(** A row of [traffic_lab_runs]; the key is the identity. *)
Record lab_row := mkLabRow {
  lr_preset : string; lr_state : string; lr_actor : string; lr_revision : Z; lr_created : Z; lr_started : option Z; lr_finished : option Z;
  lr_deadline : Z; lr_report : option Report
}.
Abbreviation runs := (gmap string lab_row).
(** [LabRun], what is read of a row. *)
Definition LabRun : Type := string * lab_row.
Definition LabRunID (s : string) : bool := (len s =? 43) && forallb controlhttp.url_char (control.chars s).
Definition active (r : lab_row) : bool := among (lr_state r) ["queued"; "running"; "cancelling"].
Definition scanLab (id : string) (r : lab_row) : result error LabRun :=
  match lr_report r with
  | Some report => if Valid report (lr_preset r) then Ok (id, r) else Err unavailable
  | None => Ok (id, r)
  end.

(** [json.Marshal] of the answers, [control.DecodeExact] of the preset, the
    compact size of a report and the check of its column. *)
Class LabWire := {
  json_run : LabRun -> string;
  json_runs : list LabRun -> string;
  decode_preset : string -> option string;
  report_raw : Report -> string;
  column_ok : Report -> bool
}.
(** The database clock at a start, and the random identity of the new run. *)
Record start_env := mkStart { t_sweep : Z; t_created : Z; t_deadline : Z; new_id : string }.

Section runs.
Context `{Sha256} `{Codec control.Config} `{Codec control.Delivery} `{Codec configtrust.Snapshot}
  `{Codec configtrust.envelope} `{Ed25519} `{Wire} `{LabWire}.

Definition fits (r : Report) : bool := negb (MaxReportBytes <? len (report_raw r)) && column_ok r.
Definition lab_refuse (tk : tokens) (status : Z) (code : string) : commandResult := mkResult (replyProblem status code (k_reply tk)) "" "" 0.

(** The body of [Start], on the rows; [actor] and [revision] are those of the
    transaction. *)
Definition kept_row (t : Z) (r : lab_row) : bool := active r || negb (lr_created r <? t - 24 * Hour).
Definition start_effect (r : adminauth.request) (raw : string) (e : start_env) (tk : tokens) (m : runs) (actor : string) (revision : Z)
    : result error (runs * commandResult) :=
  match (if negb (String.eqb (adminauth.Method r) "POST") || (1024 <? len raw) then None else decode_preset raw) with
  | None => Ok (m, lab_refuse tk 400 "INVALID_REQUEST")
  | Some preset =>
      if Visitors preset =? 0 then Ok (m, lab_refuse tk 400 "INVALID_REQUEST") else
      if bool_decide (map_Exists (fun _ r => active r = true) m) then Ok (m, lab_refuse tk 409 "LAB_BUSY") else
      let m := filter (fun kv => kept_row (t_sweep e) (snd kv) = true) m in
      if 500 <=? Z.of_nat (size m) then Ok (m, lab_refuse tk 429 "LAB_CAPACITY") else
      (* the checks of the columns *)
      if bool_decide (is_Some (m !! new_id e)) || negb (LabRunID (new_id e)) then Err unavailable else
      let row := mkLabRow preset "queued" actor revision (t_created e) None None (t_deadline e + 120 * Second) None in
      Ok (<[new_id e := row]> m,
          mkResult (mkReply 202 (json_run (new_id e, row)) "" false) "" (digest (new_id e +:+ ":" +:+ preset)) 0)
  end.

Definition set_lab_state (r : lab_row) (state : string) : lab_row :=
  mkLabRow (lr_preset r) state (lr_actor r) (lr_revision r) (lr_created r) (lr_started r) (lr_finished r) (lr_deadline r) (lr_report r).
Definition cancelled_row (r : lab_row) : lab_row := if among (lr_state r) ["queued"; "running"] then set_lab_state r "cancelling" else r.
Definition cancel_effect (id : string) (r : adminauth.request) (raw : string) (tk : tokens) (m : runs) (actor : string) (revision : Z)
    : result error (runs * commandResult) :=
  if negb (String.eqb (adminauth.Method r) "POST") || negb (decode_empty raw) || negb (LabRunID id) then Ok (m, lab_refuse tk 400 "INVALID_REQUEST") else
  match m !! id with
  | None => Ok (m, lab_refuse tk 404 "NOT_FOUND")
  | Some row =>
      match scanLab id (cancelled_row row) with
      | Err er => Err er
      | Ok run => Ok (<[id := cancelled_row row]> m, mkResult (mkReply 202 (json_run run) "" false) "" "" 0)
      end
  end.

(** The rows beside the other tables. *)
Record lab := mkLab { lab_db : DB; lab_runs : runs }.

(** [command] with a body that changes the rows: they change when the command
    is run and committed, and not when its stored answer is replayed. *)
Definition lab_body (effect : string -> Z -> result error (runs * commandResult)) (db : DB) (state : sessionSnapshot) (current : control.Config)
    : result error (DB * commandResult) :=
  match effect (adminauth.aID (account state)) (control.Revision current) with Ok (_, res) => Ok (db, res) | Err er => Err er end.
Definition effect_rows (effect : string -> Z -> result error (runs * commandResult)) (tok : string) (ck : clock) (w : lab) : runs :=
  match tokenHash tok, readConfig (lab_db w) with
  | Some h, Ok current =>
      match loadSession h (t_session ck) (lab_db w) with
      | Ok state => match effect (adminauth.aID (account state)) (control.Revision current) with Ok (m, _) => m | Err _ => lab_runs w end
      | Err _ => lab_runs w
      end
  | _, _ => lab_runs w
  end.
Definition lab_command (s : PublicationService) (tok : string) (r : adminauth.request) (raw target : string)
    (effect : runs -> string -> Z -> result error (runs * commandResult)) (ck : clock) (tk : tokens) (f : fault) (w : lab)
    : lab * result error ControlReply :=
  let o := command s tok r raw adminauth.RunLab target false (lab_body (effect (lab_runs w))) ck tk (lab_db w) in
  let '(db, x) := finish f (lab_db w) o in
  let rows := match f, o with
              | Broken, _ => lab_runs w
              | _, Commit _ a => if Replay a then lab_runs w else effect_rows (effect (lab_runs w)) tok ck w
              | _, _ => lab_runs w
              end in
  (mkLab db rows, x).

Definition Start (s : PublicationService) (tok : string) (r : adminauth.request) (raw : string) (e : start_env) (ck : clock) (tk : tokens) (f : fault)
    (w : lab) : lab * result error ControlReply :=
  lab_command s tok r raw "traffic-lab" (start_effect r raw e tk) ck tk f w.
Definition Cancel (s : PublicationService) (tok id : string) (r : adminauth.request) (raw : string) (ck : clock) (tk : tokens) (f : fault) (w : lab)
    : lab * result error ControlReply :=
  lab_command s tok r raw ("traffic-lab:" +:+ id +:+ ":cancel") (cancel_effect id r raw tk) ck tk f w.

(** [ORDER BY created_at DESC,id DESC LIMIT 20]. *)
Definition later_run (a b : LabRun) : Prop :=
  lr_created (snd b) < lr_created (snd a) \/ (lr_created (snd b) = lr_created (snd a) /\ String.leb (fst b) (fst a) = true).
#[local] Instance later_run_dec : RelDecision later_run.
Proof. intros a b. unfold later_run. apply _. Defined.
Fixpoint scan_all (l : list LabRun) : result error (list LabRun) :=
  match l with
  | [] => Ok []
  | (id, r) :: rest =>
      match scanLab id r, scan_all rest with Ok x, Ok xs => Ok (x :: xs) | Err er, _ | _, Err er => Err er end
  end.
Definition List_ (s : PublicationService) (tok id : string) (t : Z) (tk : tokens) (w : lab) : result error ControlReply :=
  match beginCommand s tok adminauth.ReadLab None false t (lab_db w) with
  | Err er => Err er
  | Ok _ =>
      if negb (String.eqb id "") then
        match lab_runs w !! id with
        | None => Ok (replyProblem 404 "NOT_FOUND" (k_reply tk))
        | Some row => match scanLab id row with Ok run => Ok (views.jsonReply 200 (json_run run) "") | Err _ => Err unavailable end
        end
      else
        match scan_all (take 20 (merge_sort later_run (map_to_list (lab_runs w)))) with
        | Ok items => Ok (views.jsonReply 200 (json_runs items) "")
        | Err _ => Err unavailable
        end
  end.

(** ** The worker *)

(** [SELECT ... WHERE state='queued' AND deadline_at>clock_timestamp() ORDER BY
    created_at]; [t1], [t2] and [t3] are the clock of the statement and of the
    update. *)
Definition sooner_run (a b : LabRun) : Prop := lr_created (snd a) <= lr_created (snd b).
#[local] Instance sooner_run_dec : RelDecision sooner_run.
Proof. intros a b. unfold sooner_run. apply _. Defined.
Definition claimable (t : Z) (m : runs) : list LabRun :=
  merge_sort sooner_run (List.filter (fun kv => String.eqb (lr_state (snd kv)) "queued" && (t <? lr_deadline (snd kv))) (map_to_list m)).
Definition claimed_row (r : lab_row) (t2 t3 : Z) : lab_row :=
  mkLabRow (lr_preset r) "running" (lr_actor r) (lr_revision r) (lr_created r) (Some t2) (lr_finished r) (t3 + 120 * Second) (lr_report r).
Definition claim (t1 t2 t3 : Z) (f : fault) (w : lab) : lab * result error (option LabRun) :=
  match f with
  | Broken => (w, Err unavailable)
  | _ =>
      match claimable t1 (lab_runs w) with
      | [] => (w, Ok None)
      | (id, r) :: _ =>
          match scanLab id r with
          | Err er => (w, Err er)
          | Ok run =>
              (mkLab (lab_db w) (<[id := claimed_row r t2 t3]> (lab_runs w)),
               match f with Lost => Err unavailable | _ => Ok (Some run) end)
          end
      end
  end.

Definition set_lab_report (r : lab_row) (report : Report) : lab_row :=
  mkLabRow (lr_preset r) (lr_state r) (lr_actor r) (lr_revision r) (lr_created r) (lr_started r) (lr_finished r) (lr_deadline r) (Some report).
(** [emit] of [run], which stores the progress of a run that still runs. *)
Definition emit (id preset : string) (report : Report) (f : fault) (w : lab) : lab * bool :=
  if negb (Valid report preset) || negb (String.eqb (State report) "running") || negb (fits report) then (w, false) else
  match f, lab_runs w !! id with
  | Broken, _ | _, None => (w, false)
  | _, Some row =>
      if String.eqb (lr_state row) "running"
      then (mkLab (lab_db w) (<[id := set_lab_report row report]> (lab_runs w)), match f with Lost => false | _ => true end)
      else (w, false)
  end.

(** What [run] finishes with, from what the execution returned; [t0] and [now]
    are the clock at a new report and at its end. *)
Definition closing (preset : string) (report : Report) (failed : bool) (t0 now : Z) : Report :=
  if negb (Valid report preset) || String.eqb (State report) "running" || (failed && String.eqb (State report) "passed")
  then ended (if Valid report preset then report else NewReport preset t0) "interrupted" now else report.

Definition finished_row (r : lab_row) (report : Report) (t : Z) : lab_row :=
  mkLabRow (lr_preset r) (State report) (lr_actor r) (lr_revision r) (lr_created r) (lr_started r) (Some t) (lr_deadline r) (Some report).
Definition result_row (id : string) (r : lab_row) (report : Report) : audit_row :=
  mkAuditRow "system:traffic-lab" "system" "lab.result" id (digest (lr_preset r)) (digest (report_raw report)) (State report) id (lr_revision r).
Definition finish_run (id : string) (report : Report) (t : Z) (f : fault) (w : lab) : lab * result error unit :=
  match f, lab_runs w !! id with
  | Broken, _ | _, None => (w, Err unavailable)
  | _, Some row =>
      if negb (active row) then (w, Ok tt) else
      let report := if String.eqb (lr_state row) "cancelling" then with_state report "cancelled" else report in
      if negb (Valid report (lr_preset row)) || String.eqb (State report) "running" || match FinishedAt report with None => true | _ => false end
      then (w, Err unavailable) else
      if negb (fits report) then (w, Err unavailable) else
      (mkLab (log_audit (lab_db w) (result_row id row report)) (<[id := finished_row row report t]> (lab_runs w)),
       match f with Lost => Err unavailable | _ => Ok tt end)
  end.

(** [reap]: the stale rows at [t], then each of them is finished, until an error. *)
Definition stale (t : Z) (r : lab_row) : bool :=
  (active r && (lr_deadline r <=? t)) || (String.eqb (lr_state r) "cancelling" && match lr_started r with None => true | Some _ => false end).
Definition reaped (r : lab_row) (t0 now : Z) : Report :=
  ended (default (NewReport (lr_preset r) t0) (lr_report r)) "interrupted" now.
Fixpoint reap_each (l : list LabRun) (t0 now t : Z) (w : lab) : lab * result error unit :=
  match l with
  | [] => (w, Ok tt)
  | (id, r) :: rest =>
      let '(w, x) := finish_run id (reaped r t0 now) t NoFault w in
      match x with Err er => (w, Err er) | Ok _ => reap_each rest t0 now t w end
  end.
Definition reap (t t0 now tf : Z) (w : lab) : lab * result error unit :=
  match scan_all (List.filter (fun kv => stale t (snd kv)) (map_to_list (lab_runs w))) with
  | Err er => (w, Err er)
  | Ok l => reap_each l t0 now tf w
  end.

(** ** Histories *)

Inductive lop :=
  | LStart (s : PublicationService) (tok : string) (r : adminauth.request) (raw : string) (e : start_env) (ck : clock) (tk : tokens)
  | LCancel (s : PublicationService) (tok id : string) (r : adminauth.request) (raw : string) (ck : clock) (tk : tokens)
  | LClaim (t1 t2 t3 : Z)
  | LEmit (id : string) (report : Report)
  | LFinish (id : string) (report : Report) (t : Z)
  | LControl (s : PublicationService) (o : pop).
(** The preset of a run, which no operation changes. *)
Definition preset_of (id : string) (w : lab) : string := match lab_runs w !! id with Some r => lr_preset r | None => "" end.
(** What an operation does, and the run a claim takes. *)
Definition lexec (o : lop) (f : fault) (w : lab) : lab * list string :=
  match o with
  | LStart s tok r raw e ck tk => (fst (Start s tok r raw e ck tk f w), [])
  | LCancel s tok id r raw ck tk => (fst (Cancel s tok id r raw ck tk f w), [])
  | LClaim t1 t2 t3 =>
      let '(w', x) := claim t1 t2 t3 f w in
      (w', match x with Ok (Some run) => [fst run] | _ => [] end)
  | LEmit id report => (fst (emit id (preset_of id w) report f w), [])
  | LFinish id report t => (fst (finish_run id report t f w), [])
  | LControl s o => (mkLab (pexec s o f (lab_db w)) (lab_runs w), [])
  end.
Fixpoint lrun (w : lab) (ops : list (lop * fault)) : lab * list string :=
  match ops with
  | [] => (w, [])
  | (o, f) :: rest => let '(w1, l1) := lexec o f w in let '(w2, l2) := lrun w1 rest in (w2, l1 ++ l2)
  end.
Definition started (o : lop) : list string := match o with LStart _ _ _ _ e _ _ => [new_id e] | _ => [] end.
End runs.
End trafficruns.
