(* ===== verification/TrafficProps.v ===== *)
(** * One run at a time

    What the histories of [TrafficRuns] keep: at most one run is active, a run
    is claimed once, and its result is recorded once ([lab_runs_once]); and
    whatever a lost worker left behind is reaped ([lab_never_stuck]). *)

From S2P Require Import Prelude GoStd Keyring Control ConfigTrust AdminAuth Vault Publication CommandProps ControlViews ControlHTTP ControlRoutes ControlAudit TrafficRuns.
From stdpp Require Import base list gmap strings sorting fin_maps.
From Stdlib Require Import ZArith Lia Ascii String.

Module trafficprops.
Import pgstore trafficlab trafficruns controlaudit.
Local Open Scope Z_scope.

Section props.
Context `{Sha256} `{Codec control.Config} `{Codec control.Delivery} `{Codec configtrust.Snapshot}
  `{Codec configtrust.envelope} `{Ed25519} `{Wire} `{LabWire}.

(** ** Invariants *)

Record row_ok (r : lab_row) : Prop := {
  w_preset : Visitors (lr_preset r) <> 0;
  w_report : forall report, lr_report r = Some report -> Valid report (lr_preset r) = true;
  w_queued : lr_state r = "queued"%string -> lr_started r = None /\ lr_report r = None;
  w_done : active r = false -> is_Some (lr_finished r) /\ exists report, lr_report r = Some report /\ State report = lr_state r
}.
(** The results that the audit log holds of a run. *)
Definition results (id : string) (db : DB) : list string :=
  au_result <$> List.filter (fun row => lab_result row && String.eqb (au_target row) id) (db_audit db).
(** [used]: the identities of the runs started so far; [log]: the claims. *)
Record lab_ok (used log : list string) (w : lab) : Prop := {
  o_one : forall i j r r', lab_runs w !! i = Some r -> lab_runs w !! j = Some r' -> active r = true -> active r' = true -> i = j;
  o_rows : forall i r, lab_runs w !! i = Some r -> row_ok r /\ i ∈ used;
  o_log : NoDup log /\ (forall i, i ∈ log -> i ∈ used /\ forall r, lab_runs w !! i = Some r -> lr_state r <> "queued"%string);
  o_results : forall i r, lab_runs w !! i = Some r -> results i (lab_db w) = if active r then [] else [lr_state r];
  o_unused : forall i, i ∉ used -> results i (lab_db w) = []
}.

Lemma results_grow i db db' : grows db db' -> results i db' = results i db.
Proof.
  intros (rows & E & Hf). unfold results. rewrite E, List.filter_app, fmap_app. replace (List.filter _ rows) with (@nil audit_row); [by rewrite app_nil_r|].
  clear E. induction Hf as [|row l Hr _ IH]; [done|]. cbn. by rewrite Hr.
Qed.
Lemma lab_ok_db used log w db : grows (lab_db w) db -> lab_ok used log w -> lab_ok used log (mkLab db (lab_runs w)).
Proof. intros Hg [H1' H2' H3' H4' H5']. constructor; cbn [lab_runs lab_db]; [done.. | |]; intros; rewrite (results_grow _ _ _ Hg); [by apply H4' | by apply H5']. Qed.
Lemma lab_ok_used used used' log w : lab_ok used log w -> (forall i, i ∈ used -> i ∈ used') -> lab_ok used' log w.
Proof.
  intros [H1' H2' [H3' H3''] H4' H5'] Hi. constructor; auto.
  - intros i r Hr. destruct (H2' i r Hr). auto.
  - split; [done|]. intros i Hl. destruct (H3'' i Hl). auto.
Qed.

(** A run that stays in its slot and keeps its results. *)
Lemma lab_ok_update used log w id r r' : lab_ok used log w -> lab_runs w !! id = Some r -> active r = true -> active r' = true -> row_ok r' ->
  (lr_state r' = "queued"%string -> lr_state r = "queued"%string) -> lab_ok used log (mkLab (lab_db w) (<[id := r']> (lab_runs w))).
Proof.
  intros [H1' H2' [H3' H3''] H4' H5'] Hr Ha Ha' Hok Hq. constructor; cbn [lab_runs lab_db].
  - intros i j x y. rewrite !lookup_insert_Some. intros [[<- <-]|[Hi Hx]] [[<- <-]|[Hj Hy]] Hax Hay; [done | eauto | symmetry; eauto | eauto].
  - intros i x [[<- <-]|[Hi Hx]]%lookup_insert_Some; [|by apply H2']. split; [done | by eapply H2'].
  - split; [done|]. intros i Hl. destruct (H3'' i Hl) as [Hu Hn]. split; [done|]. intros x [[<- <-]|[Hi Hx]]%lookup_insert_Some; [|by apply Hn].
    intros E. by apply (Hn r Hr), Hq.
  - intros i x [[<- <-]|[Hi Hx]]%lookup_insert_Some; [|by apply H4']. rewrite Ha'. specialize (H4' id r Hr). by rewrite Ha in H4'.
  - done.
Qed.

(** ** Operations *)

Lemma active_state r s : lr_state r = s -> among s ["queued"; "running"; "cancelling"] = true -> active r = true.
Proof. intros <-. done. Qed.
Lemma lab_ok_log used log w id : lab_ok used log w -> id ∈ used -> id ∉ log -> (forall r, lab_runs w !! id = Some r -> lr_state r <> "queued"%string) ->
  lab_ok used (log ++ [id]) w.
Proof.
  intros [H1' H2' [H3' H3''] H4' H5'] Hu Hn Hs. constructor; try done. split.
  - apply NoDup_app. split_and!; [done | set_solver | apply NoDup_singleton].
  - intros i [Hi | ->%list_elem_of_singleton]%elem_of_app; auto.
Qed.
Lemma claimable_row t m id r l : claimable t m = (id, r) :: l -> m !! id = Some r /\ lr_state r = "queued"%string.
Proof.
  intros E. assert ((id, r) ∈ claimable t m) as Hin by (rewrite E; by left). unfold claimable in Hin. rewrite merge_sort_Permutation in Hin.
  apply list_elem_of_In, filter_In in Hin as [Hin [Hs _]%andb_true_iff]. split; [|by apply String.eqb_eq]. by apply elem_of_map_to_list, list_elem_of_In.
Qed.
Lemma claimed_ok r t2 t3 : row_ok r -> lr_state r = "queued"%string -> row_ok (claimed_row r t2 t3).
Proof. intros [H1' H2' H3' H4'] Hs. constructor; cbn; auto; done. Qed.
Lemma claim_ok used log w t1 t2 t3 f w' x : lab_ok used log w -> claim t1 t2 t3 f w = (w', x) ->
  lab_ok used (log ++ match x with Ok (Some run) => [fst run] | _ => [] end) w'.
Proof.
  intros Hok. unfold claim. destruct (claimable t1 (lab_runs w)) as [|[id r] l] eqn:Ec; [by destruct f; intros [= <- <-]; rewrite app_nil_r|].
  destruct (claimable_row _ _ _ _ _ Ec) as [Hr Hs]. destruct (o_rows _ _ _ Hok id r Hr) as [Hrow Hu].
  assert (lab_ok used log (mkLab (lab_db w) (<[id := claimed_row r t2 t3]> (lab_runs w)))) as Hnew.
  { eapply lab_ok_update; [done | exact Hr | by eapply active_state | done | by apply claimed_ok | done]. }
  destruct f; [| by intros [= <- <-]; rewrite app_nil_r |]; (destruct (scanLab id r) as [run|er] eqn:Es; [|by intros [= <- <-]; rewrite app_nil_r]);
    intros [= <- <-]; [|by rewrite app_nil_r].
  assert (fst run = id) as -> by (unfold scanLab in Es; by repeat case_match; simplify_eq). apply lab_ok_log; [done | done | |].
  - intros Hl. by destruct (proj2 (o_log _ _ _ Hok) id Hl) as [_ Hn]; apply (Hn r).
  - cbn. intros r'. rewrite lookup_insert_eq. by intros [= <-].
Qed.

Lemma emit_ok used log w id report f : lab_ok used log w -> lab_ok used log (fst (emit id (preset_of id w) report f w)).
Proof.
  intros Hok. unfold emit, preset_of. case_if as E1; [done|]. destruct f; [| done |]; (destruct (lab_runs w !! id) as [row|] eqn:Er; [|done]);
    (destruct (String.eqb_spec (lr_state row) "running") as [Es|]; [|done]); cbn; destruct (o_rows _ _ _ Hok id row Er) as [[H1' H2' H3' H4'] _].
  all: eapply lab_ok_update; [done | exact Er | by eapply active_state | unfold active; cbn; by rewrite Es | | done].
  all: rewrite !orb_false_iff, !negb_false_iff in E1; destruct E1 as [[Hv _] _]; constructor; cbn; rewrite ?Es; try done; by intros ? [= <-].
Qed.

(** The end of a run. *)
Lemma valid_final report preset : Valid report preset = true -> State report <> "running"%string ->
  among (State report) ["queued"; "running"; "cancelling"] = false.
Proof.
  intros Hv Hn. assert (among (State report) ["running"; "passed"; "failed"; "cancelled"; "interrupted"] = true) as Hs
    by (unfold Valid, stage_ok in Hv; rewrite !andb_true_iff in Hv; tauto).
  unfold among in *. cbn in Hs |- *. rewrite !orb_true_iff, !String.eqb_eq in Hs. destruct Hs as [E|[E|[E|[E|[E|E]]]]]; try rewrite E; done.
Qed.
Lemma results_log i id w row report :
  results i (log_audit (lab_db w) (result_row id row report)) = results i (lab_db w) ++ (if String.eqb id i then [State report] else []).
Proof.
  unfold results. cbn [log_audit db_audit]. rewrite List.filter_app, fmap_app. f_equal. cbn. by destruct (String.eqb id i).
Qed.
Lemma finish_ok used log w id report t f : lab_ok used log w -> lab_ok used log (fst (finish_run id report t f w)).
Proof.
  intros Hok. unfold finish_run. destruct (lab_runs w !! id) as [row|] eqn:Er; [|by destruct f].
  enough (active row = true -> forall report', Valid report' (lr_preset row) = true -> State report' <> "running"%string ->
    lab_ok used log (mkLab (log_audit (lab_db w) (result_row id row report')) (<[id := finished_row row report' t]> (lab_runs w)))) as Hnew.
  { destruct f; [|done|]; (case_if as E1; [done|]; apply negb_false_iff in E1); (case_if as E2; [done|]); (case_if as E3; [done|]); cbn [fst];
      rewrite !orb_false_iff, negb_false_iff, String.eqb_neq in E2; destruct E2 as [[Hv Hs] _]; by apply Hnew. }
  intros Ha report' Hv Hs. pose proof (valid_final _ _ Hv Hs) as Hf. destruct Hok as [H1' H2' [H3' H3''] H4' H5'].
  assert (active (finished_row row report' t) = false) as Hna by exact Hf. constructor; cbn [lab_runs lab_db].
  - intros i j x y. rewrite !lookup_insert_Some. intros [[<- <-]|[Hi Hx]] [[<- <-]|[Hj Hy]] Hax Hay; [done | congruence | congruence | eauto].
  - intros i x [[<- <-]|[Hi Hx]]%lookup_insert_Some; [|by apply H2']. destruct (H2' id row Er) as [[W1 W2 W3 W4] Hu]. split; [|done].
    constructor; cbn; [done | by intros ? [= <-] | | by eauto]. intros E. rewrite E in Hf. done.
  - split; [done|]. intros i Hl. destruct (H3'' i Hl) as [Hu Hn]. split; [done|]. intros x [[<- <-]|[Hi Hx]]%lookup_insert_Some; [|by apply Hn].
    cbn. intros E. rewrite E in Hf. done.
  - intros i x [[<- <-]|[Hi Hx]]%lookup_insert_Some; rewrite results_log.
    + rewrite Hna, String.eqb_refl. specialize (H4' id row Er). rewrite Ha in H4'. by rewrite H4'.
    + rewrite (proj2 (String.eqb_neq id i)), app_nil_r by done. by apply H4'.
  - intros i Hi. rewrite results_log, (H5' i Hi). destruct (String.eqb_spec id i) as [->|]; [|done]. by destruct Hi, (H2' i row Er).
Qed.

(** Fewer rows. *)
Lemma lab_ok_subset used log w m : lab_ok used log w -> (forall i r, m !! i = Some r -> lab_runs w !! i = Some r) -> lab_ok used log (mkLab (lab_db w) m).
Proof.
  intros [H1' H2' [H3' H3''] H4' H5'] Hm. constructor; cbn [lab_runs lab_db]; eauto. split; [done|]. intros i Hl. destruct (H3'' i Hl). eauto.
Qed.
Lemma lab_ok_insert used log w id row : lab_ok used log w -> id ∉ used -> (forall i r, lab_runs w !! i = Some r -> active r = false) -> row_ok row ->
  active row = true -> lab_ok (id :: used) log (mkLab (lab_db w) (<[id := row]> (lab_runs w))).
Proof.
  intros [H1' H2' [H3' H3''] H4' H5'] Hn Hna Hrow Ha. constructor; cbn [lab_runs lab_db].
  - intros i j x y. rewrite !lookup_insert_Some. intros [[<- <-]|[Hi Hx]] [[<- <-]|[Hj Hy]] Hax Hay; [done | | |];
      exfalso; [apply Hna in Hy | apply Hna in Hx | apply Hna in Hx]; congruence.
  - intros i x [[<- <-]|[Hi Hx]]%lookup_insert_Some; [by split; [|left]|]. destruct (H2' i x Hx). split; [done | by right].
  - split; [done|]. intros i Hl. destruct (H3'' i Hl) as [Hu Hq]. split; [by right|]. intros x [[<- <-]|[Hi Hx]]%lookup_insert_Some; [done | by apply Hq].
  - intros i x [[<- <-]|[Hi Hx]]%lookup_insert_Some; [rewrite Ha; by apply H5' | by apply H4'].
  - intros i Hi. apply H5'. set_solver.
Qed.

Lemma lab_body_audit effect db st cur db' res : lab_body effect db st cur = Ok (db', res) -> db_audit db' = db_audit db.
Proof. unfold lab_body. destruct (effect _ _) as [[m x]|]; [|done]. by intros [= <- _]. Qed.
Lemma lab_command_ok used used' log s tok r raw target effect ck tk f w : lab_ok used log w -> (forall i, i ∈ used -> i ∈ used') ->
  (forall actor revision m res, effect (lab_runs w) actor revision = Ok (m, res) -> lab_ok used' log (mkLab (lab_db w) m)) ->
  lab_ok used' log (fst (lab_command s tok r raw target effect ck tk f w)).
Proof.
  intros Hok Hu He. unfold lab_command. set (o := command _ _ _ _ _ _ _ _ _ _ _). assert (grows (lab_db w) (fst (finish f (lab_db w) o))) as Hg.
  { apply finish_grows. intros db' a (actor & _ & Hc)%command_audited; [|intros *; apply lab_body_audit].
    eapply audited_grows; [exact Hc | apply action_text_lab]. }
  destruct (finish f (lab_db w) o) as [db x]. cbn [fst] in Hg |- *. assert (lab_ok used' log w) as Hok' by by eapply lab_ok_used.
  assert (lab_ok used' log (mkLab (lab_db w) (effect_rows (effect (lab_runs w)) tok ck w))) as Hnew.
  { unfold effect_rows. destruct w as [db0 m0]. cbn [lab_db lab_runs] in *. destruct (tokenHash tok); [|done]. destruct (readConfig db0); [|done].
    destruct (loadSession _ _ _); [|done]. destruct (effect _ _ _) as [[m res]|] eqn:Ee; [|done]. by eapply He. }
  destruct f, o as [er|a|db' a]; try destruct (Replay a); first [exact (lab_ok_db _ _ _ _ Hg Hok') | exact (lab_ok_db used' log (mkLab (lab_db w) _) db Hg Hnew)].
Qed.

Lemma start_effect_ok used log r raw e tk w actor revision m res : lab_ok used log w -> new_id e ∉ used ->
  start_effect r raw e tk (lab_runs w) actor revision = Ok (m, res) -> lab_ok (new_id e :: used) log (mkLab (lab_db w) m).
Proof.
  intros Hok Hn. assert (lab_ok (new_id e :: used) log w) as Hu by (eapply lab_ok_used; [done | set_solver]).
  assert (forall m', m' = lab_runs w -> lab_ok (new_id e :: used) log (mkLab (lab_db w) m')) as Hsame by (intros m' ->; by destruct w).
  unfold start_effect. destruct (if _ : bool then _ else _) as [preset|]; [|intros [= <- _]; by apply Hsame].
  destruct (Z.eqb_spec (Visitors preset) 0) as [|Hv]; [intros [= <- _]; by apply Hsame|].
  case_bool_decide as Ea; [intros [= <- _]; by apply Hsame|]. set (m1 := filter _ (lab_runs w)).
  assert (forall i x, m1 !! i = Some x -> lab_runs w !! i = Some x) as Hm1 by (intros i x Hx; by apply map_lookup_filter_Some in Hx as [? _]).
  case_if as E1; [intros [= <- _]; by apply lab_ok_subset|]. case_if as E2; [done|]. intros [= <- _].
  apply (lab_ok_insert used log (mkLab (lab_db w) m1)); [by apply lab_ok_subset | done | | by constructor | done].
  cbn [lab_runs]. intros i x Hx. destruct (active x) eqn:Hax; [|done]. destruct Ea. exists i, x. auto.
Qed.
Lemma cancel_effect_ok used log id r raw tk w actor revision m res : lab_ok used log w ->
  cancel_effect id r raw tk (lab_runs w) actor revision = Ok (m, res) -> lab_ok used log (mkLab (lab_db w) m).
Proof.
  intros Hok. assert (forall m', m' = lab_runs w -> lab_ok used log (mkLab (lab_db w) m')) as Hsame by (intros m' ->; by destruct w).
  unfold cancel_effect. case_if as E1; [intros [= <- _]; by apply Hsame|]. destruct (lab_runs w !! id) as [row|] eqn:Er; [|intros [= <- _]; by apply Hsame].
  destruct (scanLab _ _) as [run|]; [|done]. intros [= <- _]. unfold cancelled_row. destruct (among (lr_state row) ["queued"; "running"]) eqn:Ea.
  - destruct (o_rows _ _ _ Hok id row Er) as [[W1 W2 W3 W4] _]. eapply lab_ok_update; [done | exact Er | | done | by constructor | done].
    unfold active, among in *. cbn in Ea |- *. rewrite orb_false_r in Ea. apply orb_true_iff in Ea as [-> | ->]; [done|]. by rewrite orb_true_r.
  - apply Hsame. by apply insert_id.
Qed.

(** ** Histories *)

Lemma lexec_ok used log o f w : lab_ok used log w -> (forall i, i ∈ started o -> i ∉ used) ->
  lab_ok (started o ++ used) (log ++ snd (lexec o f w)) (fst (lexec o f w)).
Proof.
  intros Hok Hn. destruct o as [s tok r raw e ck tk|s tok id r raw ck tk|t1 t2 t3|id report|id report t|s o]; cbn [lexec fst snd started app];
    rewrite ?app_nil_r.
  - eapply lab_command_ok; [exact Hok | set_solver|]. intros actor revision m res. apply start_effect_ok; [done|]. apply Hn. by left.
  - eapply lab_command_ok; [exact Hok | done|]. intros actor revision m res. by apply cancel_effect_ok.
  - destruct (claim t1 t2 t3 f w) as [w' x] eqn:E. cbn [fst snd]. by eapply claim_ok.
  - by apply emit_ok.
  - by apply finish_ok.
  - apply lab_ok_db; [apply pexec_grows | done].
Qed.
Definition starts (ops : list (lop * fault)) : list string := List.concat ((fun x => started (fst x)) <$> ops).
Lemma lrun_ok used log ops w : lab_ok used log w -> NoDup (starts ops) -> (forall i, i ∈ starts ops -> i ∉ used) ->
  exists used', lab_ok used' (log ++ snd (lrun w ops)) (fst (lrun w ops)).
Proof.
  revert used log w. induction ops as [|[o f] ops IH]; intros used log w Hok Hd Hn; [exists used; cbn; by rewrite app_nil_r|].
  cbn [lrun]. pose proof (lexec_ok used log o f w Hok ltac:(intros i Hi; apply Hn; unfold starts; cbn; set_solver)) as Hok1.
  destruct (lexec o f w) as [w1 l1]. cbn [fst snd] in Hok1. unfold starts in Hd, Hn. cbn in Hd, Hn. apply NoDup_app in Hd as (Hd1 & Hd2 & Hd3).
  destruct (IH (started o ++ used) (log ++ l1) w1 Hok1 Hd3) as [used' Hok'].
  { intros i Hi [Hs|Hu]%elem_of_app; [by apply (Hd2 i)|]. by apply (Hn i); [set_solver|]. }
  exists used'. destruct (lrun w1 ops) as [w2 l2]. cbn [fst snd] in *. by rewrite app_assoc.
Qed.

Lemma lrun_from_empty w ops : lab_runs w = ∅ -> (forall i, results i (lab_db w) = []) -> NoDup (starts ops) ->
  exists used, lab_ok used (snd (lrun w ops)) (fst (lrun w ops)).
Proof.
  intros Hw Hr Hd. apply (lrun_ok [] [] ops w); [|done | intros i _ Hi; by inversion Hi].
  constructor; rewrite ?Hw; try done. split; [constructor|]. intros i Hi. by inversion Hi.
Qed.

(** C32: in every history of starts, cancellations, claims, progress reports,
    results and other commands, interleaved and with failing or unanswered
    transactions, in which the identities of new runs are fresh: at most one run
    is active at a time, no run is given to a worker twice, a run has a result
    in the audit log once it ended and never two, and that result is the state
    and the valid report of its row. *)
Theorem lab_runs_once w ops : lab_runs w = ∅ -> (forall i, results i (lab_db w) = []) -> NoDup (starts ops) ->
  let '(w', claims) := lrun w ops in
  (forall i j r r', lab_runs w' !! i = Some r -> lab_runs w' !! j = Some r' -> active r = true -> active r' = true -> i = j) /\
  NoDup claims /\
  (forall i r, lab_runs w' !! i = Some r -> results i (lab_db w') = (if active r then [] else [lr_state r]) /\
     (active r = false -> exists report, lr_report r = Some report /\ Valid report (lr_preset r) = true /\ State report = lr_state r)).
Proof.
  intros Hw Hr Hd. destruct (lrun_from_empty w ops Hw Hr Hd) as [used' [H1' H2' [H3' _] H4' _]]. destruct (lrun w ops) as [w' claims]. cbn [fst snd] in *. split_and!; [done | done |]. intros i r Hi. split; [by apply H4'|].
  intros Ha. destruct (H2' i r Hi) as [[_ Hv _ Hdone] _]. destruct (Hdone Ha) as [_ (report & Er & Es)]. eauto.
Qed.

(** ** Lost workers *)

Lemma scan_rows l : (forall id r, (id, r) ∈ l -> row_ok r) -> scan_all l = Ok l.
Proof.
  induction l as [|[id r] l IH]; intros Hl; [done|]. cbn. rewrite IH by (intros; eapply Hl; by right).
  unfold scanLab. destruct (lr_report r) as [report|] eqn:Er; [|done]. by rewrite (w_report r (Hl id r ltac:(by left)) _ Er).
Qed.
(** What the reaper writes of a run. *)
Definition reaped_as (r : lab_row) (t0 now : Z) : Report :=
  if String.eqb (lr_state r) "cancelling" then with_state (reaped r t0 now) "cancelled" else reaped r t0 now.
Lemma reaped_valid r t0 now : row_ok r -> t0 <> zero_time -> t0 <= now -> (forall report, lr_report r = Some report -> StartedAt report <= now) ->
  Valid (reaped r t0 now) (lr_preset r) = true.
Proof.
  intros [W1 W2 _ _] Hn Hle Hs. unfold reaped. destruct (lr_report r) as [report|] eqn:Er; cbn [default from_option].
  - apply ended_valid; [by apply W2 | by apply Hs | by left].
  - apply ended_valid; [by apply NewReport_valid | done | by left].
Qed.
Lemma reap_one id r t0 now t w : lab_runs w !! id = Some r -> row_ok r -> active r = true -> t0 <> zero_time -> t0 <= now ->
  (forall report, lr_report r = Some report -> StartedAt report <= now) -> fits (reaped_as r t0 now) = true ->
  exists db', finish_run id (reaped r t0 now) t NoFault w = (mkLab db' (<[id := finished_row r (reaped_as r t0 now) t]> (lab_runs w)), Ok tt) /\
    active (finished_row r (reaped_as r t0 now) t) = false.
Proof.
  intros Hr Hok Ha Hn Hle Hs Hf. pose proof (reaped_valid r t0 now Hok Hn Hle Hs) as Hv.
  assert (Valid (reaped_as r t0 now) (lr_preset r) = true /\ State (reaped_as r t0 now) <> "running"%string /\ FinishedAt (reaped_as r t0 now) = Some now) as (Hv' & Hst & Hfin).
  { unfold reaped_as. destruct (String.eqb _ _); by split_and!. }
  unfold finish_run. rewrite Hr, Ha. cbn [negb]. fold (reaped_as r t0 now). rewrite Hv', (proj2 (String.eqb_neq _ _) Hst), Hfin, Hf. cbn [negb orb].
  eexists. split; [reflexivity|]. exact (valid_final _ _ Hv' Hst).
Qed.

(** Whatever workers were lost in such a history, once the deadline of
    every active run has passed one round of the reaper succeeds and no run is
    active any more, so that the lab is not busy for the next operator. The
    clock must not be behind the beginning of the stored report, and the ended
    report must fit its column. *)
Lemma lab_never_stuck w ops t t0 now tf : lab_runs w = ∅ -> (forall i, results i (lab_db w) = []) -> NoDup (starts ops) -> t0 <> zero_time -> t0 <= now ->
  (forall i r, lab_runs (fst (lrun w ops)) !! i = Some r -> active r = true ->
     lr_deadline r <= t /\ (forall report, lr_report r = Some report -> StartedAt report <= now) /\ fits (reaped_as r t0 now) = true) ->
  let '(w', x) := reap t t0 now tf (fst (lrun w ops)) in
  x = Ok tt /\ forall i r, lab_runs w' !! i = Some r -> active r = false.
Proof.
  intros Hw Hr Hd Hn Hle Hact. destruct (lrun_from_empty w ops Hw Hr Hd) as [used' Hok]. destruct (lrun w ops) as [w' claims]. cbn [fst snd] in *.
  pose proof (o_rows _ _ _ Hok) as Hrows. pose proof (o_one _ _ _ Hok) as Hone. unfold reap.
  set (l := List.filter _ _). assert (forall id r, (id, r) ∈ l <-> lab_runs w' !! id = Some r /\ stale t r = true) as Hl.
  { intros id r. unfold l. rewrite list_elem_of_In, filter_In, <- list_elem_of_In, elem_of_map_to_list. done. }
  rewrite scan_rows by (intros id r [Hi _]%Hl; by eapply Hrows).
  assert (forall r, active r = true -> lr_deadline r <= t -> stale t r = true) as Hst.
  { intros r Ha Hdl. unfold stale. by rewrite Ha, (proj2 (Z.leb_le _ _) Hdl). }
  assert (forall r, stale t r = true -> active r = true) as Hsa.
  { intros r. unfold stale. intros [[Ha _]%andb_true_iff | [Hc%String.eqb_eq _]%andb_true_iff]%orb_true_iff; [done|]. by eapply active_state. }
  assert (NoDup l) as Hnd by (apply NoDup_ListNoDup, List.NoDup_filter, NoDup_ListNoDup, NoDup_map_to_list).
  destruct l as [|[id r] [|[id2 r2] l]]; cbn [reap_each].
  - split; [done|]. intros i r Hi. destruct (active r) eqn:Ha; [|done]. destruct (Hact i r Hi Ha) as [Hdl _].
    assert ((i, r) ∈ @nil LabRun) as Hin by (apply Hl; auto). by inversion Hin.
  - destruct (proj1 (Hl id r) ltac:(by left)) as [Hi Hs]. pose proof (Hsa r Hs) as Ha. destruct (Hact id r Hi Ha) as (_ & Hb & Hf).
    destruct (reap_one id r t0 now tf w' Hi (proj1 (Hrows id r Hi)) Ha Hn Hle Hb Hf) as (db' & -> & Hna). split; [done|]. cbn [lab_runs].
    intros j x [[<- <-]|[Hj Hx]]%lookup_insert_Some; [done|]. destruct (active x) eqn:Hax; [|done]. by destruct Hj, (Hone id j r x).
  - exfalso. destruct (proj1 (Hl id r) ltac:(by left)) as [Hi Hs]. destruct (proj1 (Hl id2 r2) ltac:(by right; left)) as [Hi2 Hs2].
    assert (id = id2) as <- by (eapply Hone; eauto). assert (r = r2) as <- by congruence. apply NoDup_cons in Hnd as [Hnd _]. apply Hnd. by left.
Qed.
End props.
End trafficprops.
