(* ===== verification/TrafficExample.v ===== *)
(** * A concrete lab

    Runs of the traffic lab at the installation of [PublicationExample]: the
    witness of [lab_runs_once], and a run of a lost worker that is reaped. *)

From S2P Require Import Prelude GoStd Keyring Control ConfigTrust AdminAuth Vault Publication PublicationExample CommandProps ControlViews ControlHTTP ControlRoutes ControlAudit TrafficRuns TrafficProps.
From stdpp Require Import base list gmap strings sorting fin_maps.
From Stdlib Require Import ZArith Lia Ascii String.

Module trafficexample.
Import pgstore example trafficlab trafficruns trafficprops.
Local Open Scope Z_scope.

#[local] Instance ex_lab_wire : LabWire :=
  {| json_run _ := "{run}"; json_runs _ := "{runs}"; decode_preset raw := if String.eqb raw "quick" then Some "quick-20"%string else None;
     report_raw r := "{" +:+ State r +:+ "}"; column_ok _ := true |}.

Definition run1 : string := secret_of "1".
Definition run2 : string := secret_of "2".
Definition start_ (key id : string) (t : Z) : lop :=
  LStart ex_service ex_token (ex_request "POST" "" key) "quick" (mkStart (at_ t) (at_ t) (at_ t) id) (ex_clock t) ex_tokens.
Definition cancel_ (key id : string) (t : Z) : lop :=
  LCancel ex_service ex_token id (ex_request "POST" "" key) "{}" (ex_clock t) ex_tokens.
Definition ex_lab : lab := mkLab ex_db ∅.

(** The first run is claimed, reports, is cancelled and ends; the answer of the
    start of the second one is lost, and another start is refused. *)
Definition ex_history : list (lop * fault) :=
  [(start_ "lab-000000000001" run1 1000, NoFault); (LClaim (at_ 1001) (at_ 1001) (at_ 1001), NoFault);
   (LEmit run1 (NewReport "quick-20" (at_ 1001)), NoFault); (cancel_ "lab-000000000002" run1 1010, NoFault);
   (LFinish run1 (ended (NewReport "quick-20" (at_ 1001)) "failed" (at_ 1011)) (at_ 1011), NoFault);
   (start_ "lab-000000000003" run2 1020, Lost); (LClaim (at_ 1021) (at_ 1021) (at_ 1021), NoFault);
   (start_ "lab-000000000004" (secret_of "3") 1022, NoFault)].

Lemma lab_runs_once_witness :
  snd (lrun ex_lab ex_history) = [run1; run2] /\ NoDup (snd (lrun ex_lab ex_history)) /\
  results run1 (lab_db (fst (lrun ex_lab ex_history))) = ["cancelled"%string].
Proof.
  assert (snd (lrun ex_lab ex_history) = [run1; run2]) as Ec by (vm_compute; reflexivity). split; [exact Ec|].
  assert (exists r, lab_runs (fst (lrun ex_lab ex_history)) !! run1 = Some r /\ active r = false /\ lr_state r = "cancelled"%string) as (r & Hr & Ha & Hs).
  { eexists. split; [vm_compute; reflexivity|]. split; vm_compute; reflexivity. }
  pose proof (lab_runs_once ex_lab ex_history eq_refl ltac:(intros i; reflexivity) ltac:(apply (bool_decide_unpack _); vm_compute; exact I)) as Hw.
  destruct (lrun ex_lab ex_history) as [w' claims]. destruct Hw as (_ & Hd & Hrun). split; [exact Hd|].
  destruct (Hrun run1 r Hr) as [Er _]. cbn [fst snd]. rewrite Er, Ha, Hs. reflexivity.
Defined.

(** A worker is lost with the first run. *)
Definition lost_history : list (lop * fault) := take 3 ex_history.

Lemma lost_run_reaped :
  (exists r, lab_runs (fst (lrun ex_lab lost_history)) !! run1 = Some r /\ active r = true) /\
  let w' := fst (reap (at_ 1121) (at_ 1121) (at_ 1121) (at_ 1121) (fst (lrun ex_lab lost_history))) in
  exists r, lab_runs w' !! run1 = Some r /\ active r = false.
Proof.
  split; [eexists; split; vm_compute; reflexivity|].
  pose proof (lab_never_stuck ex_lab lost_history (at_ 1121) (at_ 1121) (at_ 1121) (at_ 1121) eq_refl ltac:(intros i; reflexivity)
    ltac:(apply (bool_decide_unpack _); vm_compute; exact I) ltac:(vm_compute; discriminate) ltac:(lia)) as Hw.
  assert (exists r, lab_runs (fst (reap (at_ 1121) (at_ 1121) (at_ 1121) (at_ 1121) (fst (lrun ex_lab lost_history)))) !! run1 = Some r) as [r Hr].
  { eexists. vm_compute. reflexivity. }
  exists r. split; [exact Hr|]. destruct (reap _ _ _ _ _) as [w' x]. destruct Hw as [_ Hall]; [|exact (Hall run1 r Hr)].
  assert (map_Forall (fun _ r => (lr_deadline r <=? at_ 1121) && match lr_report r with Some report => StartedAt report <=? at_ 1121 | None => true end &&
    fits (reaped_as r (at_ 1121) (at_ 1121)) = true) (lab_runs (fst (lrun ex_lab lost_history)))) as Hm.
  { apply (bool_decide_unpack _). vm_compute. exact I. }
  intros i r' Hi Ha. specialize (Hm i r' Hi). cbn beta in Hm. apply andb_true_iff in Hm as [[H1' H2']%andb_true_iff H3'].
  split_and!; [by apply Z.leb_le | | exact H3']. intros report E. rewrite E in H2'. by apply Z.leb_le.
Qed.
End trafficexample.
