(* ===== verification/HostFiles.v ===== *)
(** * The host of an installation

    Module [host]: the file system that the installer works on, the commands it
    gives to Docker, and what can befall it. Every call of the system and every
    command can fail, and the process can be killed during each of them; a loss
    of power can take back what was not synchronised. [src/internal/installer]
    is translated over it in [InstallerState] and [Installer]. *)

From S2P Require Import Prelude GoStd.
From stdpp Require Import base list gmap strings pretty.
From Stdlib Require Import ZArith Lia Ascii String.

Module host.
Local Open Scope Z_scope.

(** ** Worlds *)

(** A path is the list of its elements, links in it being resolved. The content
    of a file is synchronised or not; [Special] is a link or a device. *)
Abbreviation path := (list string).
Inductive node := Dir (perm : Z) | File (perm : Z) (content : string) (synced : bool) | Special.
Abbreviation pmap := (@gmap (list string) (@list_eq_dec string String.eq_dec) (@list_countable string String.eq_dec String.countable)).
Abbreviation FS := (pmap node).
(** A command for Docker with its environment, or a line of output. *)
Inductive action := Docker (env args : list string) | Printed (text : string).
(** [fs] is what the system shows, [lost] what an entry may hold after a loss of
    power instead, [trace] the actions so far, the last one first. *)
Record world := mkWorld { fs : FS; lost : pmap (list (option node)); trace : list action }.

Definition parent (p : path) : path := take (pred (List.length p)) p.
Definition in_dir (f : FS) (p : path) : bool := match f !! parent p with Some (Dir _) => true | _ => false end.
(** Putting a node under a name, or nothing: the directory is not synchronised. *)
Definition enter (p : path) (n : option node) (w : world) : world :=
  mkWorld (partial_alter (fun _ => n) p (fs w)) (<[p := (fs w !! p) :: default [] (lost w !! p)]> (lost w)) (trace w).
(** Changing the file under a name. *)
Definition change (p : path) (n : node) (w : world) : world := mkWorld (<[p := n]> (fs w)) (lost w) (trace w).
Definition did (a : action) (w : world) : world := mkWorld (fs w) (lost w) (a :: trace w).

(** What an entry may hold after a loss of power: what it shows or what it held
    before the last synchronisation; of an unsynchronised file some prefix. *)
Definition candidates (w : world) (p : path) : list (option node) := (fs w !! p) :: default [] (lost w !! p).
Definition remains (before after : option node) : Prop :=
  match before with
  | Some (File perm c false) => exists n b, after = Some (File perm (str_take n c) b)
  | _ => after = before
  end.
Definition power_loss (w : world) (f : FS) : Prop := forall p, exists c, c ∈ candidates w p /\ remains c (f !! p).

(** ** Fallible calls *)

(** What befalls a call: the process is killed in it or it fails, each after
    some bytes or entries; or it works, with random bytes and a number (of
    nanoseconds or a name) where it gives any. *)
Inductive event := Kill (n : nat) | Fails (n : nat) | Works (bytes : string) (number : Z).
Inductive error := NotExist | Os | Msg (text : string) | Killed.
Definition M (A : Type) := world -> list event -> world * list event * result error A.
Definition ret {A} (a : A) : M A := fun w i => (w, i, Ok a).
Definition fail {A} (e : error) : M A := fun w i => (w, i, Err e).
Definition bind {A B} (m : M A) (k : A -> M B) : M B :=
  fun w i => match m w i with (w, i, Ok a) => k a w i | (w, i, Err e) => (w, i, Err e) end.
(** The error of a call as a value; a kill stays one. *)
Definition attempt {A} (m : M A) : M (result error A) :=
  fun w i => match m w i with (w, i, Err Killed) => (w, i, Err Killed) | (w, i, r) => (w, i, Ok r) end.
(** Another message for an error. *)
Definition orelse {A} (m : M A) (text : string) : M A :=
  fun w i => match m w i with (w, i, Err Killed) => (w, i, Err Killed) | (w, i, Err _) => (w, i, Err (Msg text)) | r => r end.
(** [defer c] before [m]. *)
Definition deferred {A} (m : M A) (c : M unit) : M A :=
  fun w i => match m w i with
             | (w, i, Err Killed) => (w, i, Err Killed)
             | (w, i, r) => match c w i with (w, i, Err Killed) => (w, i, Err Killed) | (w, i, _) => (w, i, r) end
             end.
Declare Scope host_scope.
Notation "'do!' x ← m ; k" := (bind m (fun x => k)) (at level 20, x pattern, m at level 100, k at level 200, right associativity) : host_scope.
Notation "m ;! k" := (bind m (fun _ => k)) (at level 100, k at level 200, right associativity) : host_scope.
Local Open Scope host_scope.
Definition check (b : bool) (text : string) : M unit := if b then ret tt else fail (Msg text).
Fixpoint each {A} (f : A -> M unit) (l : list A) : M unit :=
  match l with [] => ret tt | x :: l => f x ;! each f l end.

(** A call that fails or is killed leaves what [part] says. *)
Definition call {A} (part : nat -> world -> world) (f : string -> Z -> world -> world * result error A) : M A :=
  fun w i => match i with
             | Kill n :: i => (part n w, i, Err Killed)
             | Fails n :: i => (part n w, i, Err Os)
             | Works b t :: i => let '(w, a) := f b t w in (w, i, a)
             | [] => let '(w, a) := f "" 0 w in (w, [], a)
             end.
Definition reads {A} (f : FS -> result error A) : M A := call (fun _ w => w) (fun _ _ w => (w, f (fs w))).
Definition works : M unit := reads (fun _ => Ok tt).
(** Random bytes, and a number: a delay or the time. *)
Definition fit (n : nat) (b : string) : string := str_take n (b +:+ string_of_list_ascii (replicate n "000"%char)).
Definition random (n : nat) : M string := call (fun _ w => w) (fun b _ w => (w, Ok (fit n b))).
Definition number : M Z := fun w i =>
  match i with Works _ t :: i => (w, i, Ok t) | Kill _ :: i => (w, i, Err Killed) | Fails _ :: i => (w, i, Ok 0) | [] => (w, [], Ok 0) end.

(** ** Files *)

Definition lstat (p : path) : M node := reads (fun f => match f !! p with Some n => Ok n | None => Err NotExist end).
Definition names (p : path) (f : FS) : list string :=
  omap (fun q => if decide (q <> [] /\ parent q = p) then last q else None) (map_to_list f).*1.
Definition ReadDir (p : path) : M (list string) := reads (fun f => match f !! p with Some (Dir _) => Ok (names p f) | _ => Err Os end).
(** [os.MkdirAll(p, 0700)] makes the directories that are missing. *)
Fixpoint mkdirs (l : list path) (w : world) : world * bool :=
  match l with
  | [] => (w, true)
  | p :: l => match fs w !! p with None => mkdirs l (enter p (Some (Dir 448)) w) | Some (Dir _) => mkdirs l w | Some _ => (w, false) end
  end.
Definition prefixes (p : path) : list path := (fun n => take n p) <$> seq 1 (List.length p).
Definition MkdirAll (p : path) : M unit :=
  call (fun n w => fst (mkdirs (take n (prefixes p)) w))
       (fun _ _ w => let '(w, ok) := mkdirs (prefixes p) w in (w, if ok then Ok tt else Err Os)).
(** A new file of mode 0600, its bytes, its synchronisation. *)
Definition create (p : path) : M unit :=
  call (fun _ w => w) (fun _ _ w =>
    match fs w !! p with
    | Some _ => (w, Err Os)
    | None => if in_dir (fs w) p then (enter p (Some (File 384 "" false)) w, Ok tt) else (w, Err Os)
    end).
Definition rewrite_file (p : path) (f : string -> string) (synced : bool) (w : world) : world :=
  match fs w !! p with Some (File perm c _) => change p (File perm (f c) synced) w | _ => w end.
Definition write (p : path) (b : string) : M unit :=
  call (fun n => rewrite_file p (fun _ => str_take n b) false) (fun _ _ w => (rewrite_file p (fun _ => b) false w, Ok tt)).
Definition fsync (p : path) : M unit := call (fun _ w => w) (fun _ _ w => (rewrite_file p id true w, Ok tt)).
Definition sync_entries (p : path) (w : world) : world := mkWorld (fs w) (filter (fun e => parent (fst e) <> p) (lost w)) (trace w).
Definition fsync_dir (p : path) : M unit := call (fun _ w => w) (fun _ _ w => (sync_entries p w, Ok tt)).
Definition rename (a b : path) : M unit :=
  call (fun _ w => w) (fun _ _ w =>
    match fs w !! a, fs w !! b with
    | _, Some (Dir _) | None, _ => (w, Err Os)
    | Some n, _ => (enter b (Some n) (enter a None w), Ok tt)
    end).
Definition remove (p : path) : M unit :=
  call (fun _ w => w) (fun _ _ w => match fs w !! p with Some (File _ _ _) => (enter p None w, Ok tt) | _ => (w, Err Os) end).
(** [os.CreateTemp]; a name that is taken counts as a failure. *)
Definition CreateTemp (dir : path) (pattern : string) : M path :=
  call (fun _ w => w) (fun _ t w =>
    let p := dir ++ [pattern +:+ pretty (t mod 2 ^ 32)] in
    match fs w !! p with
    | Some _ => (w, Err Os)
    | None => if in_dir (fs w) p then (enter p (Some (File 384 "" false)) w, Ok p) else (w, Err Os)
    end).
Definition private (perm : Z) : bool := Z.land perm 63 =? 0.
Definition print (text : string) : M unit := call (fun _ w => w) (fun _ _ w => (did (Printed text) w, Ok tt)).

(** ** Triples *)

(** From [P], a computation that returns establishes [Q], and one that fails or
    is killed [X]. *)
Definition spec {A} (P : world -> Prop) (m : M A) (Q : A -> world -> Prop) (X : world -> Prop) : Prop :=
  forall w i, P w -> match m w i with (w', _, Ok a) => Q a w' | (w', _, Err _) => X w' end.

Lemma spec_ret {A} (P : world -> Prop) (a : A) (Q : A -> world -> Prop) X : (forall w, P w -> Q a w) -> spec P (ret a) Q X.
Proof. intros H w i Hp. by apply H. Qed.
Lemma spec_fail {A} (P : world -> Prop) e (Q : A -> world -> Prop) (X : world -> Prop) : (forall w, P w -> X w) -> spec P (fail e) Q X.
Proof. intros H w i Hp. by apply H. Qed.
Lemma spec_bind {A B} P (m : M A) (R : A -> world -> Prop) (k : A -> M B) Q X :
  spec P m R X -> (forall a, spec (R a) (k a) Q X) -> spec P (bind m k) Q X.
Proof.
  intros Hm Hk w i Hp. unfold bind. specialize (Hm w i Hp). destruct (m w i) as [[w' i'] [a|e]]; [|done]. by apply Hk.
Qed.
Lemma spec_conseq {A} (P P' : world -> Prop) (m : M A) (Q Q' : A -> world -> Prop) (X X' : world -> Prop) :
  spec P' m Q' X' -> (forall w, P w -> P' w) -> (forall a w, Q' a w -> Q a w) -> (forall w, X' w -> X w) -> spec P m Q X.
Proof.
  intros Hm H1 H2 H3 w i Hp. specialize (Hm w i (H1 w Hp)). destruct (m w i) as [[w' i'] [a|e]]; auto.
Qed.
Lemma spec_attempt {A} P (m : M A) (Q : A -> world -> Prop) (X : world -> Prop) :
  spec P m Q X -> spec P (attempt m) (fun r w => match r with Ok a => Q a w | Err _ => X w end) X.
Proof.
  intros Hm w i Hp. unfold attempt. specialize (Hm w i Hp). destruct (m w i) as [[w' i'] [a|[]]]; done.
Qed.
Lemma spec_orelse {A} P (m : M A) text (Q : A -> world -> Prop) (X : world -> Prop) : spec P m Q X -> spec P (orelse m text) Q X.
Proof.
  intros Hm w i Hp. unfold orelse. specialize (Hm w i Hp). destruct (m w i) as [[w' i'] [a|[]]]; done.
Qed.
Lemma spec_deferred {A} P (m : M A) c (R Q : A -> world -> Prop) (X : world -> Prop) :
  spec P m R X -> (forall a, spec (R a) c (fun _ => Q a) (Q a)) -> (forall a w, Q a w -> X w) -> spec X c (fun _ => X) X ->
  spec P (deferred m c) Q X.
Proof.
  intros Hm Hc Hq Hx w i Hp. unfold deferred. specialize (Hm w i Hp). destruct (m w i) as [[w' i'] [a|e]].
  - specialize (Hc a w' i' Hm). destruct (c w' i') as [[w2 i2] [?|[]]]; eauto.
  - destruct e; try done; specialize (Hx w' i' Hm); destruct (c w' i') as [[w2 i2] [?|[]]]; done.
Qed.
Lemma spec_each {A} (P : world -> Prop) (f : A -> M unit) l : (forall x, x ∈ l -> spec P (f x) (fun _ => P) P) -> spec P (each f l) (fun _ => P) P.
Proof.
  induction l as [|x l IH]; intros H; cbn [each]; [by apply spec_ret|]. apply spec_bind with (fun _ => P); [apply H; set_solver|].
  intros _. apply IH. set_solver.
Qed.
Lemma spec_call {A} (P : world -> Prop) part (f : string -> Z -> world -> world * result error A) (Q : A -> world -> Prop) (X : world -> Prop) :
  (forall n w, P w -> X (part n w)) -> (forall b t w, P w -> match f b t w with (w', Ok a) => Q a w' | (w', Err _) => X w' end) ->
  spec P (call part f) Q X.
Proof.
  intros Hx Hf w i Hp. unfold call. destruct i as [|[n|n|b t] i].
  - specialize (Hf "" 0 w Hp). by destruct (f "" 0 w) as [w' [a|e]].
  - by apply Hx.
  - by apply Hx.
  - specialize (Hf b t w Hp). by destruct (f b t w) as [w' [a|e]].
Qed.

(** ** What every call respects *)

(** A computation that moves along a preorder, wherever it ends. *)
Definition always (R : world -> world -> Prop) {A} (m : M A) : Prop := forall w i, R w (fst (fst (m w i))).

Section always.
Context (R : world -> world -> Prop) `{!PreOrder R}.
Lemma always_ret {A} (a : A) : always R (ret a).
Proof. intros w i. cbn. reflexivity. Qed.
Lemma always_fail {A} e : always R (@fail A e).
Proof. intros w i. cbn. reflexivity. Qed.
Lemma always_check b t : always R (check b t).
Proof. unfold check. destruct b; [apply always_ret | apply always_fail]. Qed.
Lemma always_bind {A B} (m : M A) (k : A -> M B) : always R m -> (forall a, always R (k a)) -> always R (bind m k).
Proof.
  intros Hm Hk w i. unfold bind. specialize (Hm w i). destruct (m w i) as [[w1 i1] [a|e]]; [|done].
  etrans; [exact Hm | apply Hk].
Qed.
Lemma always_attempt {A} (m : M A) : always R m -> always R (attempt m).
Proof. intros Hm w i. unfold attempt. specialize (Hm w i). by destruct (m w i) as [[w1 i1] [a|[]]]. Qed.
Lemma always_orelse {A} (m : M A) t : always R m -> always R (orelse m t).
Proof. intros Hm w i. unfold orelse. specialize (Hm w i). by destruct (m w i) as [[w1 i1] [a|[]]]. Qed.
Lemma always_deferred {A} (m : M A) c : always R m -> always R c -> always R (deferred m c).
Proof.
  intros Hm Hc w i. unfold deferred. specialize (Hm w i). destruct (m w i) as [[w1 i1] [a|e]]; cbn in Hm.
  - specialize (Hc w1 i1). destruct (c w1 i1) as [[w2 i2] [?|[]]]; cbn in *; by etrans.
  - destruct e; try done; specialize (Hc w1 i1); destruct (c w1 i1) as [[w2 i2] [?|[]]]; cbn in *; by etrans.
Qed.
Lemma always_each {A} (f : A -> M unit) l : (forall x, x ∈ l -> always R (f x)) -> always R (each f l).
Proof.
  induction l as [|x l IH]; intros Hf; cbn [each]; [apply always_ret|]. apply always_bind; [apply Hf; set_solver|]. intros _. apply IH. set_solver.
Qed.
Lemma always_call {A} part (f : string -> Z -> world -> world * result error A) :
  (forall n w, R w (part n w)) -> (forall b t w, R w (fst (f b t w))) -> always R (call part f).
Proof.
  intros Hp Hf w i. unfold call. destruct i as [|[n|n|b t] i]; [|apply Hp|apply Hp|].
  - specialize (Hf "" 0 w). by destruct (f "" 0 w).
  - specialize (Hf b t w). by destruct (f b t w).
Qed.
Lemma always_reads {A} (f : FS -> result error A) : always R (reads f).
Proof. apply always_call; reflexivity. Qed.
Lemma always_works : always R works.
Proof. apply always_reads. Qed.
Lemma always_lstat p : always R (lstat p).
Proof. apply always_reads. Qed.
Lemma always_ReadDir p : always R (ReadDir p).
Proof. apply always_reads. Qed.
Lemma always_random n : always R (random n).
Proof. apply always_call; reflexivity. Qed.
Lemma always_number : always R number.
Proof. intros w i. unfold number. by destruct i as [|[] i]. Qed.
End always.

Create HintDb always.
#[export] Hint Resolve always_ret always_fail always_check always_reads always_works always_lstat always_ReadDir always_random always_number : always.
(** Steps through a computation whose parts respect a preorder. *)
Ltac always_step :=
  match goal with
  | |- forall _, _ => intro
  | |- always _ (bind _ _) => apply always_bind; [apply _| |]
  | |- always _ (attempt _) => apply always_attempt
  | |- always _ (orelse _ _) => apply always_orelse
  | |- always _ (deferred _ _) => apply always_deferred; [apply _| |]
  | |- always _ (each _ _) => apply always_each; [apply _|]
  | |- always _ _ => solve [eauto with always typeclass_instances]
  | |- always _ (match ?x with _ => _ end) => destruct x
  end.
Ltac always := repeat always_step.
End host.
