(* ===== verification/InstallerState.v ===== *)
(** * The files of an installation: [src/internal/installer/state.go]

    Module [installer] begins with the record of an installation, the private
    files next to it and the lock, over the host of [HostFiles]; [Installer]
    continues it with the commands. *)

From S2P Require Import Prelude GoStd Control InstallPlan HostFiles.
From stdpp Require Import base list gmap strings pretty.
From Stdlib Require Import ZArith Lia Ascii String.

Module installer.
Import host.
Local Open Scope Z_scope.
Local Open Scope host_scope.

(** ** Patterns *)

Definition hex_char (c : ascii) : bool := control.in_range 97 102 c || control.is_digit c.
(** A prefix and so many lower-case hexadecimal digits. *)
Definition prefixed_hex (prefix : string) (n : Z) (s : string) : bool :=
  match strs.HasPrefix s prefix with
  | true => let rest := str_drop (String.length prefix) s in (len rest =? n) && forallb hex_char (list_ascii_of_string rest)
  | false => false
  end.
Definition imagePattern : string -> bool := prefixed_hex "ghcr.io/nudgeon/waiting-room@sha256:" 64.
Definition projectPattern : string -> bool := prefixed_hex "waiting-room-preview-" 16.
Definition revisionPattern : string -> bool := prefixed_hex "" 40.
Definition secretPattern : string -> bool := prefixed_hex "" 64.

(** ** The record *)

Record installation := mkInstallation {
  SchemaVersion : Z; Project : string; Image : string; PreviousImage : string; PendingImage : string;
  InitialTOTP : string; Phase : string; ComposeSHA256 : string
}.
#[global] Instance installation_eq_dec : EqDecision installation.
Proof. solve_decision. Defined.

Definition valid (s : installation) : bool :=
  negb (negb (SchemaVersion s =? 1) || negb (projectPattern (Project s)) || negb (imagePattern (Image s)) ||
    (negb (String.eqb (PreviousImage s) "") && negb (imagePattern (PreviousImage s))) ||
    (negb (String.eqb (PendingImage s) "") && negb (imagePattern (PendingImage s))) ||
    (negb (String.eqb (InitialTOTP s) "on") && negb (String.eqb (InitialTOTP s) "off")) || negb (secretPattern (ComposeSHA256 s)) ||
    (negb (String.eqb (Phase s) "prepared") && negb (String.eqb (Phase s) "ready") && negb (String.eqb (Phase s) "upgrading")) ||
    negb (Bool.eqb (String.eqb (Phase s) "upgrading") (negb (String.eqb (PendingImage s) "")))).

(** The names in an installation directory. *)
Definition record_file (dir : path) : path := dir ++ ["installation.json"].
Definition compose_file (dir : path) : path := dir ++ ["compose.yaml"].
Definition secrets_dir (dir : path) : path := dir ++ ["secrets"].
Definition secret_names : list string := ["owner-password"; "runtime-password"].
Definition lock_name : string := ".wrctl.lock".
Definition newline : string := String "010" "".

(** ** Private files *)

Definition private_dirs : string := "installation and secret directories must be private real directories (mode 0700)".
Definition privateDirectory (dir : path) (create : bool) : M unit :=
  do! info ← attempt (lstat dir);
  do! info ← match info with
             | Err NotExist => if create then orelse (MkdirAll dir) "cannot create private installation directory" ;! attempt (lstat dir) else ret info
             | _ => ret info
             end;
  match info with Ok (Dir perm) => check (private perm) private_dirs | _ => fail (Msg private_dirs) end.

Definition readPrivate (file : path) (max : Z) : M string :=
  do! info ← lstat file;
  match info with
  | File perm c _ =>
      if negb (private perm) || (max <? len c) then fail (Msg "private regular installation file required") else
      orelse works "installation file unavailable" ;! orelse works "installation file changed while opening" ;!
      orelse works "installation file unavailable" ;! ret c
  | _ => fail (Msg "private regular installation file required")
  end.

Definition syncDirectory (dir : path) : M unit :=
  orelse works "cannot open installation directory for durable commit" ;!
  orelse (fsync_dir dir) "cannot durably commit installation directory".
Definition writeExclusive (file : path) (b : string) : M unit :=
  orelse (create file) "refusing to replace an existing installation file" ;!
  orelse (write file b) "cannot write installation file" ;!
  orelse (fsync file) "cannot sync installation file" ;!
  syncDirectory (parent file).
(** Closing the file is part of its synchronisation here. *)
Definition replacePrivate (file : path) (b : string) : M unit :=
  orelse (readPrivate file 65536) "refusing to replace an unverified installation file" ;!
  do! temp ← orelse (CreateTemp (parent file) ".wrctl-write-") "cannot prepare installation update";
  deferred
    (orelse (write temp b ;! fsync temp) "cannot write installation update" ;!
     orelse (rename temp file) "cannot commit installation update" ;!
     syncDirectory (parent file))
    (remove temp).

(** ** Operations on the record *)

Section state.
Context `{Sha256} `{Codec installation}.

Definition digest (b : string) : string := hex_EncodeToString (sha256 b).
Definition parse_record (b : string) : option installation :=
  match decode_strict b with Some s => if valid s then Some s else None | None => None end.
Definition loadInstallation (dir : path) : M installation :=
  do! b ← readPrivate (record_file dir) 16384;
  match parse_record b with Some s => ret s | None => fail (Msg "invalid installation record; no state was replaced") end.
(** [json.MarshalIndent] is the marshalling of the codec. *)
Definition encoded (s : installation) : string := marshal s +:+ newline.
Definition saveInstallation (dir : path) (s : installation) (fresh : bool) : M unit :=
  if fresh then writeExclusive (record_file dir) (encoded s) else replacePrivate (record_file dir) (encoded s).

Definition changed_compose : string := "generated Compose file changed; restore the recorded file before continuing".
Definition missing_secrets : string := "matching private secret files are required; credentials were not regenerated".
Definition verifyFiles (dir : path) (s : installation) : M unit :=
  do! b ← orelse (readPrivate (compose_file dir) 65536) changed_compose;
  check (String.eqb (digest b) (ComposeSHA256 s)) changed_compose ;!
  orelse (privateDirectory (secrets_dir dir) false) "matching private secret directory is required; credentials were not regenerated" ;!
  each (fun name => do! b ← orelse (readPrivate (secrets_dir dir ++ [name]) 64) missing_secrets; check (secretPattern b) missing_secrets) secret_names.

(** Eight attempts to find a name that no volume uses. *)
Fixpoint newProject_loop (attempts : nat) (existingVolumes : list string) : M string :=
  match attempts with
  | O => fail (Msg "cannot allocate an isolated Docker project")
  | S k =>
      do! id ← orelse (random 8) "secure random source unavailable";
      let project := "waiting-room-preview-" +:+ hex_EncodeToString id in
      if existsb (fun volume => strs.HasPrefix volume (project +:+ "_")) existingVolumes then newProject_loop k existingVolumes else ret project
  end.
Definition newProject (existingVolumes : list string) : M string := newProject_loop 8 existingVolumes.

Definition only_lock (dir : path) (unavailable occupied : string) : M unit :=
  do! entries ← orelse (ReadDir dir) unavailable; check (forallb (String.eqb lock_name) entries) occupied.
Definition nonempty_unmanaged : string := "refusing to install into a nonempty unmanaged directory".
Definition write_secret (dir : path) (name : string) : M unit :=
  do! secret ← orelse (random 32) "secure random source unavailable"; writeExclusive (secrets_dir dir ++ [name]) (hex_EncodeToString secret).
Definition prepareFiles (dir : path) (image totp project compose : string) : M installation :=
  only_lock dir "installation directory unavailable" nonempty_unmanaged ;!
  check (projectPattern project) "invalid isolated Docker project" ;!
  let s := mkInstallation 1 project image "" "" totp "prepared" (digest compose) in
  privateDirectory (secrets_dir dir) true ;!
  each (write_secret dir) secret_names ;!
  writeExclusive (compose_file dir) compose ;!
  saveInstallation dir s true ;!
  ret s.

(** [lock_unix.go]: the lock file is made where it is missing, and the lock is
    gone with the process. *)
Definition lock_unavailable : string := "installation lock unavailable".
Definition lockDirectory (dir : path) : M unit :=
  let file := dir ++ [lock_name] in
  do! info ← attempt (lstat file);
  do! perm ← match info with
             | Ok (File perm _ _) => orelse works lock_unavailable ;! ret perm
             | Err NotExist => orelse (create file) lock_unavailable ;! ret 384
             | _ => fail (Msg lock_unavailable)
             end;
  orelse works "private installation lock required" ;!
  check (private perm) "private installation lock required" ;!
  orelse works "another wrctl operation is using this installation".
End state.
End installer.
