(* ===== verification/InstallerDocker.v ===== *)
(** * Commands for Docker: [src/internal/installer/docker.go], [readiness.go]

    Module [docker]: the environment and the arguments of the commands that the
    installer gives to Docker, what it checks of the daemon and of the image,
    and the wait for the services. Docker itself is a class: what it answers to
    a command, given the commands before it. *)

From S2P Require Import Prelude GoStd Control AdminAuth InstallPlan InstallCost RecoveryArchive Coordinator AuthHTTP StoreClient HostFiles InstallerState.
From stdpp Require Import base list gmap strings pretty.
From Stdlib Require Import ZArith Lia Ascii String.

Module docker.
Import host installer.
Local Open Scope Z_scope.
Local Open Scope host_scope.

(** The answer to the last command of a trace, and what a container that was to
    write an archive left of its two files. *)
Class DockerHost := { reply : list action -> string; archived : list action -> option node * option node }.

Record serviceStatus := mkService { Service : string; sState : string; Health : string }.
Record imageInfo := mkImageInfo { RepoDigests : list string; OS : string; Architecture : string; Labels : gmap string string }.

(** Directories of the command line are absolute and clean. *)
Definition at_ (dir : string) : path := files.resolve [] dir.
Definition Join (dir name : string) : string := files.Clean (dir +:+ "/" +:+ name).

Definition runtime_variable : string := "WR_RUNTIME_IMAGE".
Definition key_of (item : string) : string := match strs.cut_byte "=" item with Some (k, _) => k | None => item end.
Definition dockerEnvironment (base : list string) (image : string) : list string :=
  List.filter (fun item => negb (strs.HasPrefix (key_of item) "COMPOSE_" || String.eqb (key_of item) runtime_variable)) base ++
  ["COMPOSE_DISABLE_ENV_FILE=1"; runtime_variable +:+ "=" +:+ image].
Definition output_limit : Z := 1024 * 1024.

(** ** The engine *)

Section engine.
Context `{DockerHost} (environ : list string).
Context `{Codec serviceStatus} `{Codec (list serviceStatus)} `{Codec (list imageInfo)}.

(** [execDocker] is part of it: a failed command may have run. *)
Definition docker (image : string) (args : list string) : M string :=
  let a := Docker (dockerEnvironment environ image) args in
  call (fun _ => did a) (fun _ _ w => let b := reply (a :: trace w) in (did a w, if output_limit <? len b then Err Os else Ok b)).
Definition compose_prefix (dir project : string) : list string :=
  ["compose"; "--project-name"; project; "--project-directory"; dir; "--env-file"; "/dev/null"; "--file"; Join dir "compose.yaml"].
Definition graceful (args : list string) : list string :=
  match args with a :: rest => if String.eqb a "stop" then ["stop"; "--timeout"; "20"] ++ rest else args | [] => args end.
Definition compose (dir : string) (s : installation) (image : string) (args : list string) : M string :=
  docker image (compose_prefix dir (Project s) ++ graceful args).
Definition step (dir : string) (s : installation) (image label : string) (args : list string) : M unit :=
  orelse (print label) "cannot write runtime progress" ;!
  orelse (compose dir s image args) (label +:+ " failed; existing data and secrets were retained") ;! ret tt.

(** [strconv.Atoi] of digits, whose range error is ignored. *)
Definition Atoi (l : list ascii) : Z := Z.min (2 ^ 63 - 1) (default 0 (cost.decimal l)).
Fixpoint take_digits (l : list ascii) : list ascii * list ascii :=
  match l with a :: r => if control.is_digit a then (let '(d, r) := take_digits r in (a :: d, r)) else ([], l) | [] => ([], []) end.
(** [^v?([0-9]+)\.([0-9]+)\.]. *)
Definition compose_version (s : string) : option (Z * Z) :=
  let l := list_ascii_of_string s in
  let l := match l with "v"%char :: r => r | _ => l end in
  match take_digits l with
  | ((_ :: _) as major, "."%char :: r) =>
      match take_digits r with ((_ :: _) as minor, "."%char :: _) => Some (Atoi major, Atoi minor) | _ => None end
  | _ => None
  end.
Definition remote_host (item : string) : bool :=
  strs.HasPrefix item "DOCKER_HOST=" && negb (strs.HasPrefix item "DOCKER_HOST=unix://") && negb (String.eqb item "DOCKER_HOST=").
Definition quote : string := String "034" "".
Definition endpoint_format : string := "{{(index .Endpoints " +:+ quote +:+ "docker" +:+ quote +:+ ").Host}}".
Definition architecture (b : string) : option string :=
  let arch := http.TrimSpace b in
  if String.eqb arch "linux/amd64" || String.eqb arch "linux/x86_64" then Some "amd64" else
  if String.eqb arch "linux/arm64" || String.eqb arch "linux/aarch64" then Some "arm64" else None.
Definition checkDocker : M string :=
  check (negb (existsb remote_host environ)) "only a local Unix-socket Docker daemon is supported" ;!
  do! b ← orelse (docker "" ["context"; "inspect"; "--format"; endpoint_format]) "a local Docker context is required";
  check (strs.HasPrefix (http.TrimSpace b) "unix://") "a local Docker context is required" ;!
  do! b ← orelse (docker "" ["info"; "--format"; "{{.OSType}}/{{.Architecture}}"]) "Docker is unavailable; start a local Linux Docker daemon";
  match architecture b with
  | None => fail (Msg "the runtime supports Linux amd64 or arm64 Docker engines")
  | Some arch =>
      do! b ← orelse (docker "" ["compose"; "version"; "--short"]) "Docker Compose 2.35 or newer is required";
      match compose_version (http.TrimSpace b) with
      | None => fail (Msg "cannot verify Docker Compose version")
      | Some (major, minor) =>
          if (major <? 2) || ((major =? 2) && (minor <? 35))
          then fail (Msg "Docker Compose 2.35 or newer is required for private identity volume subpaths") else ret arch
      end
  end.

(** ** Images *)

Definition ImageSource : string := "https://github.com/NudgeOn/Waiting-Room".
Definition label (i : imageInfo) (k : string) : string := default "" (Labels i !! k).
Definition image_matches (image arch : string) (i : imageInfo) : bool :=
  existsb (String.eqb image) (RepoDigests i) && String.eqb (OS i) "linux" && String.eqb (Architecture i) arch &&
  String.eqb (label i "org.opencontainers.image.source") ImageSource && String.eqb (label i "io.nudgeon.waiting-room.runtime-contract") "1" &&
  revisionPattern (label i "org.opencontainers.image.revision").
Definition inspect_image (image : string) : M string := docker image ["image"; "inspect"; image].
Definition verifyImage (image arch : string) (pull : bool) : M unit :=
  check (imagePattern image) "a published official image digest is required; use a release wrctl or --image" ;!
  orelse (print "Verifying the pinned preview runtime image…") "cannot write runtime progress" ;!
  do! found ← if pull then ret (Err Os) else attempt (inspect_image image);
  do! b ← match found with
          | Ok b => ret (Ok b)
          | Err _ =>
              orelse (docker image ["pull"; image]) "cannot pull the pinned runtime image; verify GHCR access and the published digest" ;!
              attempt (inspect_image image)
          end;
  match b with
  | Ok b =>
      match decode_strict b with
      | Some [i] => check (image_matches image arch i)
          "runtime image digest, architecture, source or compatibility labels do not match; installation was not changed"
      | _ => fail (Msg "cannot verify the runtime image metadata")
      end
  | Err _ => fail (Msg "cannot verify the runtime image metadata")
  end.

(** ** Readiness *)

Definition second : Z := 1000000000.
Definition applicationStartTimeout : Z := 180 * second.
Definition coordinatorStartTimeout : Z := 3700 * second.

(** Each value takes at least a byte, so the length is enough fuel. *)
Fixpoint decode_stream (fuel : nat) (s : string) : option (list serviceStatus) :=
  match fuel with
  | O => None
  | S n => if at_EOF s then Some [] else match GoStd.decode s with Some (x, s) => cons x <$> decode_stream n s | None => None end
  end.
Definition decodeServices (b : string) : result error (list serviceStatus) :=
  let input := http.TrimSpace b in
  match (if strs.HasPrefix input "[" then decode_strict b else decode_stream (S (String.length input)) input) with
  | Some l => Ok l
  | None => Err (Msg "runtime status format unavailable")
  end.

Definition required : list (string * Z) :=
  [("postgres", applicationStartTimeout); ("valkey", applicationStartTimeout); ("control", applicationStartTimeout);
   ("gateway", applicationStartTimeout); ("demo-origin", applicationStartTimeout); ("coordinator", coordinatorStartTimeout)].
Definition limit_of (name : string) : option Z := snd <$> List.find (fun r => String.eqb (fst r) name) required.
Definition healthy (s : serviceStatus) : bool := String.eqb (sState s) "running" && String.eqb (Health s) "healthy".
(** The loop over the services: those seen, and whether all are ready. *)
Fixpoint services_loop (services : list serviceStatus) (elapsed : Z) (seen : list string) (ready : bool) : result error (list string * bool) :=
  match services with
  | [] => Ok (seen, ready)
  | s :: services =>
      match limit_of (Service s) with
      | None => services_loop services elapsed seen ready
      | Some limit =>
          if bool_decide (Service s ∈ seen) then Err (Msg "duplicate runtime service") else
          let seen := Service s :: seen in
          if healthy s then services_loop services elapsed seen ready else
          if String.eqb (sState s) "exited" || String.eqb (sState s) "dead" || (limit <=? elapsed)
          then Err (Msg "runtime service did not become ready") else services_loop services elapsed seen false
      end
  end.
Definition servicesReady (services : list serviceStatus) (elapsed : Z) : result error bool :=
  match services_loop services elapsed [] true with
  | Err e => Err e
  | Ok (seen, ready) =>
      if forallb (fun r => bool_decide (fst r ∈ seen)) required then Ok ready else
      if applicationStartTimeout <=? elapsed then Err (Msg "required runtime service is missing") else Ok false
  end.

(** A poll at least every [interval]; the deadline of the context ends the loop
    at last, after at most so many polls. *)
Definition list_services (dir : string) (s : installation) (image : string) : M (list serviceStatus) :=
  do! b ← compose dir s image ["ps"; "--all"; "--format"; "json"];
  match decodeServices b with Ok l => ret l | Err e => fail e end.
Fixpoint waitReady_loop (polls : nat) (dir : string) (s : installation) (image : string) (interval elapsed : Z) : M unit :=
  match polls with
  | O => fail Os
  | S k =>
      works ;!
      if coordinatorStartTimeout <=? elapsed then fail Os else
      do! services ← list_services dir s image;
      do! t ← number;
      let elapsed := elapsed + Z.max 0 t in
      match servicesReady services elapsed with
      | Err e => fail e
      | Ok true => ret tt
      | Ok false => works ;! waitReady_loop k dir s image interval (elapsed + interval)
      end
  end.
Definition most_polls (interval : Z) : nat := S (S (Z.to_nat (coordinatorStartTimeout / interval))).
Definition waitReady (dir : string) (s : installation) (image : string) (interval : Z) : M unit :=
  waitReady_loop (most_polls interval) dir s image interval 0.

(** The loop is never cut short: more polls change nothing. *)
Lemma waitReady_loop_enough dir s image interval p q e w i : 0 < interval -> 0 <= e ->
  coordinatorStartTimeout <= e + Z.of_nat p * interval -> coordinatorStartTimeout <= e + Z.of_nat q * interval ->
  waitReady_loop (S p) dir s image interval e w i = waitReady_loop (S q) dir s image interval e w i.
Proof.
  intros Hi. revert q e w i. induction p as [|p IH]; intros q e w i He Hp Hq.
  { cbn [waitReady_loop]. assert ((coordinatorStartTimeout <=? e) = true) as -> by lia. done. }
  destruct (coordinatorStartTimeout <=? e) eqn:Et; [cbn [waitReady_loop]; by rewrite Et|].
  destruct q as [|q]; [lia|]. specialize (IH q). remember (S p) as p' eqn:Ep. remember (S q) as q' eqn:Eq. cbn [waitReady_loop]. rewrite Et.
  unfold bind. destruct (works w i) as [[w1 i1] [u|?]]; [|done].
  destruct (list_services dir s image w1 i1) as [[w2 i2] [l|?]]; [|done].
  destruct (number w2 i2) as [[w3 i3] [t|?]]; [|done]. cbv zeta.
  destruct (servicesReady l (e + Z.max 0 t)) as [[]|?]; [done| |done].
  destruct (works w3 i3) as [[w4 i4] [v|?]]; [|done]. subst. apply IH; lia.
Qed.
End engine.

(** Everything is ready exactly when each required service is there once,
    running and healthy. *)
Lemma services_loop_ready l e seen ready seen' : services_loop l e seen ready = Ok (seen', true) ->
  ready = true /\ (forall x, x ∈ seen' <-> x ∈ seen \/ exists s, s ∈ l /\ Service s = x /\ is_Some (limit_of x)) /\
  (forall s, s ∈ l -> is_Some (limit_of (Service s)) -> healthy s = true /\ Service s ∉ seen).
Proof.
  revert seen ready. induction l as [|s l IH]; intros seen ready; cbn [services_loop].
  { intros [= -> ->]. split; [done|]. split; [|set_solver]. intros x. split; [by left|]. intros [?|(? & Hx & _)]; [done | by apply elem_of_nil in Hx]. }
  destruct (limit_of (Service s)) as [limit|] eqn:El.
  - case_bool_decide as Hs; [done|]. destruct (healthy s) eqn:Eh; [|case_if as Ex; [done|]; intros (? & _)%IH; done].
    intros (-> & Hseen & Hall)%IH. split; [done|]. split.
    + intros x. rewrite Hseen. split.
      * intros [[->|?]%elem_of_cons|(t & ? & ? & ?)]; [right; exists s; rewrite El; set_solver | by left | right; exists t; set_solver].
      * intros [?|(t & [->|?]%elem_of_cons & <- & ?)]; [set_solver | set_solver | right; by exists t].
    + intros t [->|Ht]%elem_of_cons Hl; [done|]. destruct (Hall t Ht Hl). set_solver.
  - intros (-> & Hseen & Hall)%IH. split; [done|]. split.
    + intros x. rewrite Hseen. split.
      * intros [?|(t & ? & ? & ?)]; [by left | right; exists t; set_solver].
      * intros [?|(t & [->|?]%elem_of_cons & <- & [? Hl])]; [by left | by rewrite El in Hl | right; by exists t].
    + intros t [->|Ht]%elem_of_cons [? Hl]; [by rewrite El in Hl|]. by apply Hall.
Qed.
Lemma ready_means_healthy l e : servicesReady l e = Ok true -> forall name limit, (name, limit) ∈ required ->
  exists s, s ∈ l /\ Service s = name /\ healthy s = true.
Proof.
  unfold servicesReady. destruct (services_loop l e [] true) as [[seen ready]|] eqn:E; [|done]. case_if as Ef; [|by case_if as Eg].
  intros [= ->] name limit Hr. apply services_loop_ready in E as (_ & Hseen & Hall).
  rewrite forallb_forall in Ef. specialize (Ef (name, limit) (proj1 (list_elem_of_In _ _) Hr)). apply bool_decide_eq_true in Ef. cbn in Ef.
  apply Hseen in Ef as [Hx|(s & Hs & <- & Hl)]; [by apply elem_of_nil in Hx|]. exists s. split; [done|]. split; [done|]. by apply Hall.
Qed.
End docker.
