(* ===== verification/Installer.v ===== *)
(** * The commands of the installer: [src/internal/installer]

    Module [wrctl]: the command line ([options.go]), backups ([backup.go]), the
    rotation of keys ([rotation.go]), the first-administrator setup
    ([tunnel.go], without its connections) and the lifecycle of an
    installation ([installer.go]), over [InstallerState] and [InstallerDocker].
    The lock of a directory makes the commands on it sequential; it is released
    with the process. *)

From S2P Require Import Prelude GoStd Control AdminAuth InstallPlan Rotation RecoveryArchive Coordinator AuthHTTP StoreClient HostFiles InstallerState InstallerDocker.
From stdpp Require Import base list gmap strings pretty.
From Stdlib Require Import ZArith Lia Ascii String.

Module wrctl.
Import host installer docker.
Local Open Scope Z_scope.
Local Open Scope host_scope.

(** ** The command line *)

Record options := mkOptions {
  command : string; directory : string; image : string; totp : string; backupDirectory : string; totpExplicit : bool; json : bool
}.
Definition key_commands : list string := ["keys-stage"; "keys-activate"; "keys-retire"; "keys-revoke"; "keys-status"].
Definition commands : list string :=
  key_commands ++ ["install"; "up"; "upgrade"; "status"; "stop"; "setup"; "bootstrap"; "token"; "backup"; "restore"].
Definition Handles (c : string) : bool := bool_decide (c ∈ commands).

Section parse.
(** [filepath.Abs], which asks for the working directory. *)
Variable Abs : string -> option string.
Definition once : string := "invalid runtime options; use --option value once".
Definition option_value (o : options) (name v : string) : result string options :=
  let c := command o in
  if String.eqb name "--backup-directory" then
    if (negb (String.eqb c "backup") && negb (String.eqb c "restore")) || String.eqb v "" then Err "backup-directory is required for backup and restore" else
    match Abs v with
    | None => Err "invalid backup directory"
    | Some abs => Ok (mkOptions c (directory o) (image o) (totp o) abs (totpExplicit o) (json o))
    end
  else if String.eqb name "--directory" then
    if String.eqb v "" then Err "installation directory is required"
    else Ok (mkOptions c v (image o) (totp o) (backupDirectory o) (totpExplicit o) (json o))
  else if String.eqb name "--image" then
    if negb (String.eqb c "install") && negb (String.eqb c "upgrade") then Err "image selection is only supported by install and upgrade" else
    if negb (imagePattern v) then Err "image must use the official GHCR repository and an exact lowercase sha256 digest"
    else Ok (mkOptions c (directory o) v (totp o) (backupDirectory o) (totpExplicit o) (json o))
  else if String.eqb name "--totp" then
    if negb (String.eqb c "install") || (negb (String.eqb v "on") && negb (String.eqb v "off"))
    then Err "initial TOTP must be on or off and is only selected during install"
    else Ok (mkOptions c (directory o) (image o) v (backupDirectory o) true (json o))
  else Err "unsupported runtime option".
Fixpoint parse_loop (o : options) (seen args : list string) : result string options :=
  match args with
  | [] => Ok o
  | name :: rest =>
      if bool_decide (name ∈ seen) then Err once else
      if String.eqb name "--json" && String.eqb (command o) "status"
      then parse_loop (mkOptions (command o) (directory o) (image o) (totp o) (backupDirectory o) (totpExplicit o) true) (name :: seen) rest else
      match rest with
      | [] => Err once
      | v :: rest' => match option_value o name v with Err e => Err e | Ok o => parse_loop o (name :: seen) rest' end
      end
  end.
Definition parse (args : list string) (dir : string) : result string options :=
  match args with
  | c :: rest =>
      if negb (Handles c) then Err "invalid runtime command" else
      match parse_loop (mkOptions c dir "" "on" "" false false) [] rest with
      | Err e => Err e
      | Ok o =>
          if String.eqb (directory o) "" then Err "installation directory unavailable; use --directory" else
          if (String.eqb (command o) "backup" || String.eqb (command o) "restore") && String.eqb (backupDirectory o) "" then Err "use --backup-directory PATH" else
          match Abs (directory o) with
          | None => Err "installation directory unavailable"
          | Some abs => Ok (mkOptions (command o) (files.Clean abs) (image o) (totp o) (backupDirectory o) (totpExplicit o) (json o))
          end
      end
  | [] => Err "invalid runtime command"
  end.
End parse.

(** ** Data *)

Record backupRecord := mkBackupRecord {
  bArchitecture : string; HelperImage : string; bSchema : Z; CreatedAt : Z; bInstallation : installation;
  Files : gmap string string; bVolumes : recoveryarchive.Manifest
}.
Record volumeInfo := mkVolumeInfo { vName : string; vLabels : gmap string string }.
Record statusReport := mkStatus {
  stSchemaVersion : Z; stVersion : string; stProject : string; stImage : string; stPendingImage : string; stPhase : string;
  stServices : list serviceStatus
}.
#[global] Instance Manifest_eq_dec : EqDecision recoveryarchive.Manifest.
Proof. solve_decision. Defined.
Definition backupFiles : list string := ["compose.yaml"; "installation.json"; "secrets/owner-password"; "secrets/runtime-password"].
(** [filepath.Join] of a directory and one of these names. *)
Definition under (dir : path) (name : string) : path := dir ++ files.elements name.
Definition ContainsAny (s chars : string) : bool := existsb (fun c => strs.contains_byte c s) (list_ascii_of_string chars).
Definition separators : string := "," +:+ String "013" newline.

Definition directoryHint (dir : string) : string :=
  " --directory '" +:+ string_of_list_ascii (List.concat ((fun c => if Ascii.eqb c "'" then list_ascii_of_string "'\''" else [c]) <$> list_ascii_of_string dir)) +:+ "'".

(** The date of a UTC instant, and its text. *)
Definition civil (days : Z) : Z * Z * Z :=
  let z := days + 719468 in
  let era := z / 146097 in let doe := z mod 146097 in
  let yoe := (doe - doe / 1460 + doe / 36524 - doe / 146096) / 365 in
  let doy := doe - (365 * yoe + yoe / 4 - yoe / 100) in
  let mp := (5 * doy + 2) / 153 in
  let m := if mp <? 10 then mp + 3 else mp - 9 in
  (yoe + era * 400 + (if m <=? 2 then 1 else 0), m, doy - (153 * mp + 2) / 5 + 1).
Definition stamp (t : Z) : string :=
  let sec := t / second in let day := sec / 86400 in let r := sec mod 86400 in
  let '(y, m, d) := civil day in
  adminauth.zero_padded 4 y +:+ adminauth.zero_padded 2 m +:+ adminauth.zero_padded 2 d +:+ "T" +:+
  adminauth.zero_padded 2 (r / 3600) +:+ adminauth.zero_padded 2 (r / 60 mod 60) +:+ adminauth.zero_padded 2 (r mod 60) +:+ "." +:+
  adminauth.zero_padded 9 (t mod second) +:+ "Z".

Section wrctl.
Context `{DockerHost} (environ : list string).
Context `{Sha256} `{Codec installation} `{Codec serviceStatus} `{Codec (list serviceStatus)} `{Codec (list imageInfo)}.
Context `{Codec backupRecord} `{Codec (list volumeInfo)} `{Codec localcontrol.RotationReport} `{Codec statusReport} `{Codec recoveryarchive.Manifest} `{recoveryarchive.Tar}.
(** [json.Unmarshal] of a line into a report: the report after it, and whether
    it succeeded. *)
Variable report_into : string -> localcontrol.RotationReport -> localcontrol.RotationReport * bool.
(** What the release build sets, and the embedded Compose file. *)
Variables DefaultImage Version PreviewCompose : string.
Abbreviation docker_ := (docker.docker environ).
Abbreviation compose_ := (docker.compose environ).
Abbreviation step_ := (docker.step environ).
Abbreviation verifyImage_ := (docker.verifyImage environ).
Abbreviation waitReady_ := (docker.waitReady environ).

(** ** [backup.go] *)

Definition volume_mount (project v : string) (restore : bool) : list string :=
  ["--mount"; "type=volume,src=" +:+ project +:+ "_" +:+ v +:+ ",dst=/volumes/" +:+ v +:+ (if restore then "" else ",readonly")].
Definition archive_args (s : installation) (image dest operation : string) (restore : bool) : list string :=
  ["run"; "--rm"; "--network"; "none"; "--read-only"; "--user"; "0:0"; "--cap-drop"; "ALL"; "--cap-add"; "CHOWN"; "--cap-add"; "DAC_OVERRIDE";
   "--security-opt"; "no-new-privileges"; "--mount"; "type=bind,src=" +:+ dest +:+ ",dst=/backup"] ++
  List.concat ((fun v => volume_mount (Project s) v restore) <$> recoveryarchive.Volumes) ++ ["--entrypoint"; "/wr-control"; image; operation].
(** The container makes its files anew; a restoration writes none of them. *)
Definition deposit (p : path) (n : option node) (w : world) : world :=
  match fs w !! p, n with None, Some n => enter p (Some n) w | _, _ => w end.
Definition left_behind (dest : path) (w : world) : world :=
  let '(tar, manifest) := archived (trace w) in deposit (dest ++ ["volumes.json"]) manifest (deposit (dest ++ ["volumes.tar"]) tar w).
Definition archive (s : installation) (image dest operation : string) (restore : bool) : M unit :=
  check (negb (ContainsAny dest separators)) "backup directory cannot contain mount separators" ;!
  do! r ← attempt (docker_ image (archive_args s image dest operation restore));
  (if restore then ret tt else fun w i => (left_behind (at_ dest) w, i, Ok tt)) ;!
  match r with
  | Ok _ => ret tt
  | Err _ => fail (Msg "cold volume archive operation failed; services remain stopped and original volumes retained")
  end.
Definition stopped (s : installation) : M unit :=
  do! b ← orelse (docker_ (Image s) ["ps"; "--filter"; "label=com.docker.compose.project=" +:+ Project s; "--format"; "{{.ID}}"])
    "all source installation containers must be stopped before backup or restore";
  check (String.eqb (http.TrimSpace b) "") "all source installation containers must be stopped before backup or restore".

Definition seven_volumes : string := "cannot verify all seven source volumes".
(** The names of the volumes found, if all belong to the project. *)
Fixpoint owned (project : string) (seen : list string) (found : list volumeInfo) : option (list string) :=
  match found with
  | [] => Some seen
  | v :: found =>
      if negb (String.eqb (default "" (vLabels v !! "com.docker.compose.project")) project) ||
         negb (String.eqb (vName v) (project +:+ "_" +:+ default "" (vLabels v !! "com.docker.compose.volume"))) || bool_decide (vName v ∈ seen)
      then None else owned project (vName v :: seen) found
  end.
Definition volumeSet (s : installation) : M unit :=
  do! b ← orelse (docker_ (Image s) (["volume"; "inspect"] ++ ((fun v => Project s +:+ "_" +:+ v) <$> recoveryarchive.Volumes))) seven_volumes;
  match decode_strict b with
  | None => fail (Msg seven_volumes)
  | Some found =>
      check (List.length found =? List.length recoveryarchive.Volumes)%nat seven_volumes ;!
      match owned (Project s) [] found with
      | None => fail (Msg "source volume ownership mismatch")
      | Some seen => check (forallb (fun v => bool_decide (Project s +:+ "_" +:+ v ∈ seen)) recoveryarchive.Volumes) "source volume missing"
      end
  end.

(** [recoveryarchive.Verify] of the directory: it only reads, so that a fault
    in it is an error. *)
Definition bfile_of (n : option node) : option recoveryarchive.bfile :=
  match n with
  | Some (File perm c _) => Some (recoveryarchive.mkFile true perm c)
  | Some _ => Some (recoveryarchive.mkFile false 0 "")
  | None => None
  end.
Definition bdir_of (f : FS) (p : path) : recoveryarchive.bdir :=
  let '(d, perm) := match f !! p with Some (Dir perm) => (true, perm) | _ => (false, 0) end in
  recoveryarchive.mkBackup d perm (bfile_of (f !! (p ++ ["volumes.tar"]))) (bfile_of (f !! (p ++ ["volumes.json"]))).
Definition verify_archive (p : path) : M recoveryarchive.Manifest :=
  reads (fun f => match recoveryarchive.Verify (bdir_of f p) tt [] with (_, _, Ok m) => Ok m | (_, _, Err _) => Err Os end).

Definition copy_file (from to : path) (name : string) : M string :=
  do! b ← readPrivate (under from name) 65536; writeExclusive (under to name) b ;! ret b.
Fixpoint copy_files (from to : path) (names : list string) (copied : gmap string string) : M (gmap string string) :=
  match names with
  | [] => ret copied
  | name :: names => do! b ← copy_file from to name; copy_files from to names (<[name := digest b]> copied)
  end.
Definition must_be_new : string := "backup destination must not already exist".
Definition backup (dir : string) (s : installation) (dest helper arch : string) : M unit :=
  check (negb (String.eqb dest "" || ContainsAny dest separators)) "use --backup-directory with a new private directory" ;!
  do! info ← attempt (lstat (at_ dest));
  match info with
  | Err NotExist =>
      volumeSet s ;!
      step_ dir s (Image s) "Stopping this installation for a consistent cold backup" ["stop"] ;!
      stopped s ;!
      orelse (MkdirAll (at_ dest)) "cannot create private backup directory" ;!
      privateDirectory (at_ dest) false ;!
      do! created ← number;
      privateDirectory (secrets_dir (at_ dest)) true ;!
      do! files ← copy_files (at_ dir) (at_ dest) backupFiles ∅;
      archive s helper dest "archive-create" false ;!
      do! report ← verify_archive (at_ dest);
      writeExclusive (at_ dest ++ ["backup.json"]) (marshal (mkBackupRecord arch helper 1 created s files report)) ;!
      print ("Cold backup verified. Source services remain stopped. Backup: " +:+ dest +:+ newline +:+
        "The backup contains private keys and credentials; keep its directory private. Use wrctl up to resume the source, or restore into a new empty directory.")
  | _ => fail (Msg must_be_new)
  end.

Definition checksum : string := "backup file checksum mismatch".
Definition verifyBackup (dir : path) : M backupRecord :=
  orelse (privateDirectory dir false) "private backup directory required" ;!
  do! b ← readPrivate (dir ++ ["backup.json"]) 16384;
  match decode_strict b with
  | None => fail (Msg "invalid backup manifest")
  | Some r =>
      check (negb (negb (bSchema r =? 1) || negb (imagePattern (HelperImage r)) ||
        (negb (String.eqb (bArchitecture r) "amd64") && negb (String.eqb (bArchitecture r) "arm64")) ||
        negb (size (Files r) =? List.length backupFiles)%nat)) "invalid backup manifest" ;!
      do! s ← orelse (loadInstallation dir) "backup installation record mismatch";
      check (bool_decide (s = bInstallation r)) "backup installation record mismatch" ;!
      orelse (verifyFiles dir s) "backup installation record mismatch" ;!
      each (fun name => do! b ← orelse (readPrivate (under dir name) 65536) checksum;
                        check (String.eqb (digest b) (default "" (Files r !! name))) checksum) backupFiles ;!
      do! report ← orelse (verify_archive dir) "backup volume checksum or structure mismatch";
      check (bool_decide (report = bVolumes r)) "backup volume checksum or structure mismatch" ;!
      ret r
  end.

Definition with_project (s : installation) (p : string) : installation :=
  mkInstallation (SchemaVersion s) p (Image s) (PreviousImage s) (PendingImage s) (InitialTOTP s) (Phase s) (ComposeSHA256 s).
Definition list_volumes (image : string) : M string := docker_ image ["volume"; "ls"; "--format"; "{{.Name}}"].
Definition create_volume (s : installation) (v : string) : M unit :=
  orelse (docker_ (Image s) ["volume"; "create"; "--label"; "com.docker.compose.project=" +:+ Project s; "--label";
    "com.docker.compose.volume=" +:+ v; Project s +:+ "_" +:+ v]) "cannot create isolated restore volumes" ;! ret tt.
Definition restore (o : options) : M unit :=
  let dir := at_ (directory o) in let from := at_ (backupDirectory o) in
  do! record ← verifyBackup from;
  check (String.eqb (Phase (bInstallation record)) "ready") "backup was not taken before a completed installation; restore requires a ready snapshot" ;!
  privateDirectory dir true ;!
  lockDirectory dir ;!
  do! entries ← ReadDir dir;
  check (forallb (String.eqb lock_name) entries) "restore requires an empty new installation directory" ;!
  do! arch ← docker.checkDocker environ;
  let s := bInstallation record in
  check (String.eqb arch (bArchitecture record)) "physical backup restore requires the original CPU architecture" ;!
  verifyImage_ (Image s) arch true ;!
  (if String.eqb (HelperImage record) (Image s) then ret tt else verifyImage_ (HelperImage record) arch true) ;!
  stopped s ;!
  do! b ← list_volumes (Image s);
  do! project ← newProject (lab.Fields b);
  let s := with_project s project in
  each (create_volume s) recoveryarchive.Volumes ;!
  archive s (HelperImage record) (backupDirectory o) "archive-restore" true ;!
  privateDirectory (secrets_dir dir) true ;!
  each (fun name => if String.eqb name "installation.json" then ret tt else copy_file from dir name ;! ret tt) backupFiles ;!
  saveInstallation dir s true ;!
  verifyFiles dir s ;!
  print ("Backup restored into a new isolated installation. No services were started. Keep the source stopped, then run wrctl up" +:+
    directoryHint (directory o) +:+ ". Queue recovery enforces its safety hold and validates retained state before admission.").

(** ** [rotation.go] *)

Definition run_job (args : list string) : list string := ["run"; "--rm"; "--no-deps"; "--pull"; "never"] ++ args.
Fixpoint report_lines (lines : list string) (report : localcontrol.RotationReport) : option localcontrol.RotationReport :=
  match lines with
  | [] => None
  | l :: lines =>
      let '(report, ok) := report_into l report in
      if ok && negb (String.eqb (localcontrol.rPhase report) "") then Some report else report_lines lines report
  end.
Definition keyReport (dir : string) (s : installation) : M localcontrol.RotationReport :=
  do! raw ← orelse (compose_ dir s (Image s) (run_job ["initialize"; "keys-status"]))
    "cannot read key rotation status; upgrade this installation to the matching source first";
  match report_lines (strs.split_byte "010" raw) (localcontrol.mkReport "" 0 "" 0 0 0 false) with
  | Some r => ret r
  | None => fail (Msg "key rotation status unavailable")
  end.

(** Why a command has to wait; [now] in milliseconds. *)
Definition premature (command : string) (r : localcontrol.RotationReport) (now : Z) : option string :=
  let phase := localcontrol.rPhase r in
  if String.eqb command "keys-activate" && negb (String.eqb phase "active") && (negb (String.eqb phase "staged") || negb (localcontrol.rAcknowledged r =? 2))
  then Some "run keys-stage and wait for both role ACKs before activation" else
  if String.eqb command "keys-revoke" && negb (String.eqb phase "stable") && negb (localcontrol.rEmergencyReady r)
  then Some "keys-revoke requires a fresh Admin reauthenticated installation-wide new epoch, followed by both role ACKs" else
  if String.eqb command "keys-retire" && negb (String.eqb phase "stable") &&
     (negb (String.eqb phase "active") || negb (localcontrol.rAcknowledged r =? 2) || (now <? localcontrol.rRetireAfter r))
  then Some "previous keys must remain until both role ACKs and retireAfter; keys-status shows the deadline" else
  if String.eqb command "keys-stage" && String.eqb phase "active" then Some "retire the previous generation before starting another rotation" else None.
Definition roles : list string := ["control"; "gateway"; "coordinator"].
Definition single_replicas (services : list serviceStatus) : bool :=
  forallb (fun role => Nat.eqb (countb (fun s => String.eqb (Service s) role) services) 1) roles.

(** The acknowledgements are awaited for half a minute, asking every second. *)
Definition pending_acks : string := "roles started but key ACKs remain pending; inspect keys-status before the next phase".
Definition ack_timeout : Z := 30 * second.
Definition most_asks : nat := 31.
Definition acknowledged (r : result error localcontrol.RotationReport) : option localcontrol.RotationReport :=
  match r with Ok report => if localcontrol.rAcknowledged report =? 2 then Some report else None | Err _ => None end.
Fixpoint await_acks (asks : nat) (dir : string) (s : installation) (elapsed : Z) : M localcontrol.RotationReport :=
  match asks with
  | O => fail (Msg pending_acks)
  | S k =>
      do! r ← attempt (keyReport dir s);
      match acknowledged r with
      | Some report => ret report
      | None =>
          works ;!
          do! t ← number;
          let elapsed := elapsed + Z.max 0 t in
          if ack_timeout <=? elapsed then fail (Msg pending_acks) else
          works ;!
          if ack_timeout <=? elapsed + second then fail (Msg pending_acks) else await_acks k dir s (elapsed + second)
      end
  end.
Definition running_roles (b : string) : bool := existsb (fun service => bool_decide (service ∈ roles)) (lab.Fields b).
Definition recovery_pending : string :=
  "roles started but runtime recovery is not ready; data and recorded key operation retained; inspect status and keys-status before retrying the same command".
Definition single_replica : string := "key rotation requires the managed single-replica local profile".
Definition rotateKeys (dir : string) (s : installation) (command : string) : M unit :=
  do! report ← keyReport dir s;
  if String.eqb command "keys-status" then print (marshal report +:+ newline) else
  do! now ← number;
  match premature command report (now ÷ 1000000) with
  | Some why => fail (Msg why)
  | None =>
      do! services ← orelse (docker.list_services environ dir s (Image s)) "cannot verify single-replica deployment";
      check (single_replicas services) single_replica ;!
      step_ dir s (Image s) "Stopping application roles for a stable signing cutoff" ("stop" :: roles) ;!
      do! raw ← orelse (compose_ dir s (Image s) ["ps"; "--status"; "running"; "--services"]) "cannot confirm stopped signers";
      check (negb (running_roles raw)) "old signing roles are still running" ;!
      orelse (step_ dir s (Image s) "Applying the durable key operation" (run_job ["initialize"; command]))
        "key operation incomplete; application roles remain stopped; retry the same command" ;!
      step_ dir s (Image s) "Starting roles with the recorded key generation" ["up"; "-d"; "--no-build"; "--pull"; "never"; "control"; "coordinator"; "gateway"] ;!
      print ("Waiting for runtime recovery before key ACKs. Coordinator safety checks can take up to about 62 minutes; " +:+
        "Ctrl-C cancels safely and preserves the recorded key operation.") ;!
      do! r ← attempt (waitReady_ dir s (Image s) second);
      match r with Ok _ => ret tt | Err _ => works ;! fail (Msg recovery_pending) end ;!
      do! report ← await_acks most_asks dir s 0;
      print (marshal report +:+ newline) ;!
      print "Key operation complete. Both roles acknowledged the recorded generation; any existing queue recovery hold remains in effect."
  end.

(** ** [installer.go] *)

Definition selectedImage (requested : string) : result error string :=
  let requested := if String.eqb requested "" then DefaultImage else requested in
  if negb (imagePattern requested)
  then Err (Msg "this binary has no published runtime digest; use an official release or an explicit --image digest") else Ok requested.
Definition lift {A} (r : result error A) : M A := match r with Ok a => ret a | Err e => fail e end.
Definition start_args : list string := ["up"; "-d"; "--no-build"; "--pull"; "never"; "control"; "coordinator"; "gateway"; "demo-origin"].
Definition cleanup_failed : string :=
  "runtime health checks and cleanup failed; inspect wrctl status before retrying; data and secrets were retained".
Definition start_failed : string :=
  "runtime health checks failed; application roles were stopped and data retained; retry the same install, up or upgrade command".
Definition start (dir : string) (s : installation) (image : string) : M unit :=
  do! r ← attempt (step_ dir s image "Starting application roles" start_args ;!
                   print ("Waiting for all six services to be healthy. Coordinator recovery after a queue restart can take the longest " +:+
                     "configured ticket lifetime plus 30 seconds (up to about 62 minutes). Ctrl-C cancels safely.") ;!
                   waitReady_ dir s image (3 * second));
  match r with
  | Ok _ => ret tt
  | Err _ =>
      orelse (compose_ dir s image ["stop"; "control"; "gateway"; "coordinator"; "demo-origin"]) cleanup_failed ;!
      fail (Msg start_failed)
  end.

Definition up_wait (service : string) : list string :=
  ["up"; "-d"; "--wait"; "--wait-timeout"; "180"; "--no-build"; "--pull"; "never"; service].
Definition initialize (dir : string) (s : installation) (image : string) (upgrade : bool) : M unit :=
  (if negb upgrade then step_ dir s image "Pulling pinned dependency images" ["pull"; "postgres"; "valkey"]
   else step_ dir s (Image s) "Stopping application roles for the upgrade" ["stop"; "control"; "gateway"; "coordinator"; "demo-origin"; "valkey"]) ;!
  step_ dir s image "Starting PostgreSQL" (up_wait "postgres") ;!
  step_ dir s image "Verifying installation identity and database migrations"
    (run_job ("initialize" :: if upgrade then ["upgrade"] else ["init"; InitialTOTP s])) ;!
  step_ dir s image "Starting Valkey" (up_wait "valkey") ;!
  step_ dir s image "Verifying the persisted queue schema" (run_job ("queue-initialize" :: if upgrade then ["queue-upgrade"] else [])) ;!
  start dir s image.

(** [a-zA-Z0-9_-]. *)
Definition token_char (c : ascii) : bool :=
  control.in_range 65 90 c || control.is_lower c || control.is_digit c || Ascii.eqb c "-" || Ascii.eqb c "_".
Definition token_unavailable : string := "first-admin token unavailable; no token was printed".
Definition printToken (dir : string) (s : installation) : M unit :=
  do! b ← orelse (compose_ dir s (Image s) ["exec"; "-T"; "control"; "/wr-control"; "token"]) token_unavailable;
  check ((len b =? 43) && negb (ContainsAny b (String "013" newline))) token_unavailable ;!
  check (forallb token_char (list_ascii_of_string b)) token_unavailable ;!
  print b.
Definition issue_token : list string := run_job ["bootstrap"].
(** [tunnel.go]: up to the connections of the tunnel, which end with the
    command or with an error. *)
Definition setup (dir : string) (s : installation) : M unit :=
  orelse works "setup port 19444 is in use; no token was rotated" ;!
  step_ dir s (Image s) "Issuing a private first-admin token (15 minutes)" issue_token ;!
  print "One-time setup token (keep this terminal private):" ;!
  printToken dir s ;!
  print ("Open https://127.0.0.1:19444/setup and complete first-admin registration." +:+ newline +:+
    "The certificate is local and self-signed. Ctrl-C closes this setup tunnel." +:+ newline +:+ "After registration, use https://127.0.0.1:19443.") ;!
  orelse works "setup tunnel stopped".

Definition status (o : options) (s : installation) : M unit :=
  do! b ← orelse (compose_ (directory o) s (Image s) ["ps"; "--all"; "--format"; "json"]) "runtime status unavailable";
  do! services ← lift (decodeServices b);
  if json o then print (marshal (mkStatus 1 Version (Project s) (Image s) (PendingImage s) (Phase s) services) +:+ newline) else
  print ("Local preview: " +:+ Project s +:+ newline +:+ "Image: " +:+ Image s +:+ newline +:+ "Phase: " +:+ Phase s +:+ newline) ;!
  each (fun x => print (Service x +:+ ": " +:+ sState x +:+ " " +:+ Health x +:+ newline)) services.

Definition with_phase (s : installation) (image previous pending phase : string) : installation :=
  mkInstallation (SchemaVersion s) (Project s) image previous pending (InitialTOTP s) phase (ComposeSHA256 s).
Definition unused_project : string := "cannot confirm an unused isolated Docker project; no installation files were created".
Definition new_installation (o : options) (image : string) : M installation :=
  do! b ← orelse (list_volumes image) "cannot check isolated Docker volume names";
  do! project ← newProject (lab.Fields b);
  do! b ← orelse (docker_ image ["ps"; "--all"; "--filter"; "label=com.docker.compose.project=" +:+ project; "--format"; "{{.ID}}"]) unused_project;
  check (String.eqb (http.TrimSpace b) "") unused_project ;!
  prepareFiles (at_ (directory o)) image (totp o) project PreviewCompose.
(** [found] is the installation that is there. *)
Definition install (o : options) (found : option installation) (arch : string) : M unit :=
  let dir := directory o in
  match found with
  | Some s =>
      check (String.eqb (Phase s) "prepared") "installation already exists; use wrctl up or wrctl upgrade" ;!
      check (negb ((negb (String.eqb (image o) "") && negb (String.eqb (image o) (Image s))) || (totpExplicit o && negb (String.eqb (totp o) (InitialTOTP s)))))
        "an interrupted install must resume with its recorded image and TOTP policy"
  | None => ret tt
  end ;!
  do! image ← match found with Some s => ret (Image s) | None => lift (selectedImage (image o)) end;
  verifyImage_ image arch true ;!
  do! s ← match found with Some s => ret s | None => new_installation o image end;
  initialize dir s image false ;!
  saveInstallation (at_ dir) (with_phase s (Image s) (PreviousImage s) (PendingImage s) "ready") false ;!
  print ("Local preview is running. Admin: https://127.0.0.1:19443" +:+ newline +:+ "Next: wrctl setup" +:+ directoryHint dir +:+ newline +:+
    "No administrator or bootstrap token was created automatically. This local preview is not production or 10K/100K qualification.").

Definition upgrade (o : options) (s : installation) (arch : string) : M unit :=
  let dir := directory o in
  check (negb (String.eqb (Phase s) "prepared")) "finish the initial install before upgrading" ;!
  do! image ← lift (selectedImage (if String.eqb (image o) "" && negb (String.eqb (PendingImage s) "") then PendingImage s else image o));
  check (String.eqb (PendingImage s) "" || String.eqb image (PendingImage s)) "retry the recorded pending image; automatic rollback after migrations is not supported" ;!
  verifyImage_ image arch true ;!
  step_ dir s image "Pulling pinned dependency images" ["pull"; "postgres"; "valkey"] ;!
  (if String.eqb (Phase s) "ready" then
     do! now ← number; backup dir s (Join (Join dir "backups") (stamp now)) image arch
   else ret tt) ;!
  let s := with_phase s (Image s) (PreviousImage s) image "upgrading" in
  saveInstallation (at_ dir) s false ;!
  initialize dir s image true ;!
  saveInstallation (at_ dir) (with_phase s image (Image s) "" "ready") false ;!
  print "Upgrade completed and services are healthy. Existing volumes, secrets, accounts, TOTP policy and queue data were retained.".

Definition bring_up (o : options) (s : installation) (arch : string) : M unit :=
  verifyImage_ (Image s) arch false ;!
  step_ (directory o) s (Image s) "Checking pinned dependency images" ["pull"; "--policy"; "missing"; "postgres"; "valkey"] ;!
  start (directory o) s (Image s).
(** The commands on an installation that is there. *)
Definition manage (o : options) (s : installation) (arch : string) : M unit :=
  let dir := directory o in let c := command o in
  if String.eqb c "status" then status o s else
  if String.eqb c "stop" then step_ dir s (Image s) "Stopping this installation" ["stop"] else
  if negb (String.eqb c "upgrade") && negb (String.eqb (Phase s) "ready")
  then fail (Msg "installation has an incomplete install or upgrade; retry that command before starting services") else
  if bool_decide (c ∈ key_commands) then rotateKeys dir s c else
  if String.eqb c "backup" then verifyImage_ (Image s) arch false ;! backup dir s (backupDirectory o) (Image s) arch else
  if String.eqb c "up" then bring_up o s arch else
  if String.eqb c "upgrade" then upgrade o s arch else
  if String.eqb c "bootstrap" then step_ dir s (Image s) "Issuing a 15-minute first-admin token" issue_token else
  if String.eqb c "token" then printToken dir s else
  if String.eqb c "setup" then setup dir s else fail (Msg "unsupported runtime command").

Definition unverified_record : string := "cannot verify the private installation record; no state was replaced".
(** What is found in the directory: an installation or nothing. *)
Definition find_installation (o : options) : M (option installation) :=
  let dir := at_ (directory o) in
  do! loaded ← attempt (loadInstallation dir);
  match loaded with
  | Ok s => verifyFiles dir s ;! ret (Some s)
  | Err NotExist =>
      check (String.eqb (command o) "install") "no managed installation exists; run wrctl install first" ;!
      only_lock dir "installation directory unavailable" nonempty_unmanaged ;! ret None
  | Err _ => fail (Msg unverified_record)
  end.
Definition execute (o : options) : M unit :=
  let dir := at_ (directory o) in let installing := String.eqb (command o) "install" in
  if String.eqb (command o) "restore" then restore o else
  do! info ← attempt (lstat dir);
  match info with Err NotExist => if installing then lift (selectedImage (image o)) ;! ret tt else ret tt | _ => ret tt end ;!
  privateDirectory dir installing ;!
  lockDirectory dir ;!
  do! found ← find_installation o;
  do! arch ← docker.checkDocker environ;
  if installing then install o found arch else
  match found with Some s => manage o s arch | None => fail (Msg unverified_record) end.
End wrctl.
End wrctl.
