(* ===== verification/InstallerSpecs.v ===== *)
(** * What the commands of the installer leave alone

    Module [quiet]: which commands for Docker migrate the data of a project and
    which start its application, the invariant that links the record of an
    installation with them, and the computations that affect neither. *)

From S2P Require Import Prelude GoStd Control InstallPlan RecoveryArchive RecoveryTrip Rotation Coordinator AuthHTTP HostFiles InstallerState InstallerDocker Installer.
From stdpp Require Import base list gmap strings pretty.
From Stdlib Require Import ZArith Lia Ascii String.

Module quiet.
Import host installer docker wrctl.
Local Open Scope Z_scope.
Local Open Scope host_scope.

(** ** Migrations and starts *)

(** The project and the arguments of a Compose command. *)
Definition composed (args : list string) : option (string * list string) :=
  match args with
  | a :: b :: p :: _ :: _ :: _ :: _ :: _ :: _ :: rest => if String.eqb a "compose" && String.eqb b "--project-name" then Some (p, rest) else None
  | _ => None
  end.
Definition migrates (args : list string) : option string :=
  match composed args with Some (p, rest) => if decide (rest = run_job ["initialize"; "upgrade"]) then Some p else None | None => None end.
Definition starts (args : list string) : option string :=
  match composed args with
  | Some (p, a :: rest) => if String.eqb a "up" && bool_decide ("control" ∈ rest) then Some p else None
  | _ => None
  end.
(** The image that the environment of a command gives to Compose. *)
Definition assigned (item : string) : option string :=
  match strs.cut_byte "=" item with Some (k, v) => if String.eqb k runtime_variable then Some v else None | None => None end.
Definition runtime_image (env : list string) : string := default "" (last (omap assigned env)).
(** The image of the last migration of a project. *)
Fixpoint migrated (p : string) (tr : list action) : option string :=
  match tr with
  | [] => None
  | Docker env args :: tr => if decide (migrates args = Some p) then Some (runtime_image env) else migrated p tr
  | Printed _ :: tr => migrated p tr
  end.
(** Every start of an application runs the image of the last migration. *)
Fixpoint starts_ok (tr : list action) : Prop :=
  match tr with
  | [] => True
  | a :: tr =>
      match a with
      | Docker env args => forall p i, starts args = Some p -> migrated p tr = Some i -> runtime_image env = i
      | Printed _ => True
      end /\ starts_ok tr
  end.

Lemma runtime_image_env base image : runtime_image (dockerEnvironment base image) = image.
Proof.
  unfold runtime_image, dockerEnvironment. rewrite omap_app. cbn [omap list_omap].
  assert (assigned (runtime_variable +:+ "=" +:+ image) = Some image) as -> by (unfold assigned; by rewrite strs.cut_join).
  change (assigned "COMPOSE_DISABLE_ENV_FILE=1") with (@None string). cbn. by rewrite last_snoc.
Qed.

Section record.
Context `{Codec installation} (d : path).

(** The record may name the migrated image as its own or as the pending one. *)
Definition consistent (tr : list action) (s : installation) : Prop := forall i, migrated (Project s) tr = Some i ->
  (Phase s = "ready" /\ Image s = i) \/ (Phase s = "upgrading" /\ (Image s = i \/ PendingImage s = i)).
Definition record_ok (tr : list action) (c : string) : Prop := forall n s, parse_record (str_take n c) = Some s -> consistent tr s.
Definition holds (w : world) (c : string) : Prop := exists perm b, Some (File perm c b) ∈ candidates w (record_file d).
Definition only (w : world) (s : installation) : Prop := forall c, holds w c -> c = encoded s.
Definition Inv (w : world) : Prop := (forall c, holds w c -> record_ok (trace w) c) /\ starts_ok (trace w).

(** Documented properties of [encoding/json] on a record: what was written is
    read again, no part of it is read as something else, and it is short. *)
Class RecordLaws : Prop := {
  record_roundtrip : forall s, valid s = true -> decode_strict (encoded s) = Some s;
  record_prefix : forall s n s', valid s = true -> decode_strict (str_take n (encoded s)) = Some s' -> s' = s;
  record_short : forall s, valid s = true -> len (encoded s) <= 16384
}.

(** ** Quiet computations *)

Definition calm (w w' : world) : Prop :=
  (forall p, migrated p (trace w') = migrated p (trace w)) /\ (starts_ok (trace w) -> starts_ok (trace w')) /\ (forall c, holds w' c -> holds w c).
(** A predicate on migrations. *)
Definition know (K : string -> option string -> Prop) (w : world) : Prop := Inv w /\ forall p, K p (migrated p (trace w)).

#[global] Instance calm_preorder : PreOrder calm.
Proof. split; [done|]. intros w1 w2 w3 (H1 & H2 & H3) (H4 & H5 & H6). split; [intros p; by rewrite H4|]. auto. Qed.
Lemma consistent_ext tr tr' s : (forall p, migrated p tr' = migrated p tr) -> consistent tr s -> consistent tr' s.
Proof. intros He Hc i. rewrite He. apply Hc. Qed.
Lemma calm_Inv w w' : calm w w' -> Inv w -> Inv w'.
Proof.
  intros (H1 & H2 & H3) [H4 H5]. split; [|auto]. intros c Hc n s Hs. eapply consistent_ext; [done|]. by eapply H4; [apply H3|].
Qed.
Lemma calm_know K w w' : calm w w' -> know K w -> know K w'.
Proof. intros Hc [Hi Hk]. split; [by eapply calm_Inv|]. intros p. by rewrite (proj1 Hc). Qed.
Lemma calm_only w w' s : calm w w' -> only w s -> only w' s.
Proof. intros (_ & _ & H3) Ho c Hc. by apply Ho, H3. Qed.

Lemma quietly_know {A} (m : M A) K : always calm m -> spec (know K) m (fun _ => know K) Inv.
Proof.
  intros Hm w i Hk. pose proof (calm_know K _ _ (Hm w i) Hk) as Hk'. destruct (m w i) as [[w' i'] [a|e]]; [done|]. exact (proj1 Hk').
Qed.
Lemma quietly_only {A} (m : M A) K s : always calm m -> spec (fun w => know K w /\ only w s) m (fun _ w => know K w /\ only w s) Inv.
Proof.
  intros Hm w i [Hk Ho]. pose proof (calm_know K _ _ (Hm w i) Hk) as Hk'. pose proof (calm_only _ _ s (Hm w i) Ho).
  destruct (m w i) as [[w' i'] [a|e]]; [done|]. exact (proj1 Hk').
Qed.

(** Entries other than the record. *)
Lemma candidates_enter p n w q : candidates (enter p n w) q = if decide (p = q) then n :: candidates w q else candidates w q.
Proof.
  unfold candidates, enter. cbn. case_decide as E.
  - subst. by rewrite lookup_partial_alter, decide_True, lookup_insert_eq by done.
  - by rewrite lookup_partial_alter_ne, lookup_insert_ne by done.
Qed.
Lemma holds_enter p n w c : (forall perm b, p = record_file d -> n <> Some (File perm c b)) -> holds (enter p n w) c -> holds w c.
Proof.
  intros Hn (perm & b & Hin). rewrite candidates_enter in Hin. case_decide as E; [|by exists perm, b].
  apply elem_of_cons in Hin as [Heq|Hin]; [|by exists perm, b]. by edestruct Hn.
Qed.
Lemma calm_enter p n w : p <> record_file d \/ (forall perm c b, n <> Some (File perm c b)) -> calm w (enter p n w).
Proof. intros Hn. split; [done|]. split; [done|]. intros c. apply holds_enter. intros perm b ->. by destruct Hn. Qed.
Lemma calm_change p n w : p <> record_file d -> calm w (change p n w).
Proof.
  intros Hp. split; [done|]. split; [done|]. intros c (perm & b & Hin). exists perm, b. unfold candidates, change in *. cbn in *.
  by rewrite lookup_insert_ne in Hin by done.
Qed.
Lemma calm_rewrite p f b w : p <> record_file d -> calm w (rewrite_file p f b w).
Proof. intros Hp. unfold rewrite_file. repeat case_match; try done. by apply calm_change. Qed.
Lemma candidates_sync p w q n : n ∈ candidates (sync_entries p w) q -> n ∈ candidates w q.
Proof.
  unfold candidates, sync_entries. cbn. destruct (filter _ (lost w) !! q) as [l|] eqn:El; cbn; [|set_solver].
  apply map_lookup_filter_Some in El as [-> _]. done.
Qed.
Lemma calm_sync p w : calm w (sync_entries p w).
Proof. split; [done|]. split; [done|]. intros c (perm & b & Hin%candidates_sync). by exists perm, b. Qed.
Lemma calm_mkdirs l w : calm w (fst (mkdirs l w)).
Proof.
  revert w. induction l as [|p l IH]; intros w; cbn [mkdirs]; [done|]. destruct (fs w !! p) as [[]|]; [apply IH|done|done|].
  etrans; [|apply IH]. apply calm_enter. by right.
Qed.
Lemma calm_remove p : always calm (remove p).
Proof. apply always_call; [done|]. intros b t w. destruct (fs w !! p) as [[]|]; try done. apply calm_enter. by right. Qed.
Lemma calm_writeExclusive p b : p <> record_file d -> always calm (writeExclusive p b).
Proof.
  intros Hp. unfold writeExclusive, syncDirectory, create, write, fsync, fsync_dir. always; apply always_call; try done; intros; try (by apply calm_rewrite); try apply calm_sync.
  cbn. destruct (fs _ !! p); [done|]. case_if as E; [|done]. apply calm_enter. by left.
Qed.

(** Commands. *)
Lemma calm_did env args w : migrates args = None -> starts args = None -> calm w (did (Docker env args) w).
Proof.
  intros Hm Hs. split; [|split; [|done]].
  - intros p. cbn. by rewrite decide_False by (by rewrite Hm).
  - cbn. intros Ho. split; [|done]. intros p i. by rewrite Hs.
Qed.
End record.

(** ** The parts of a command *)

(** A preorder on worlds that allows new directories, new files at the paths of
    [safe], output, and the commands of [harmless]. *)
Class Frame (R : world -> world -> Prop) (safe : path -> Prop) (harmless : list string -> Prop) : Prop := {
  frame_preorder :: PreOrder R;
  frame_print : forall t w, R w (did (Printed t) w);
  frame_docker : forall env args w, harmless args -> R w (did (Docker env args) w);
  frame_new : forall p n w, safe p \/ n = Dir 448 -> fs w !! p = None -> R w (enter p (Some n) w);
  frame_write : forall p b, safe p -> always R (writeExclusive p b)
}.
#[global] Hint Mode Frame ! - - : typeclass_instances.

Section parts.
Context {R safe harmless} `{Frame R safe harmless}.

Lemma always_print t : always R (print t).
Proof. apply always_call; [done|]. intros. apply frame_print. Qed.
Lemma always_mkdirs l w : R w (fst (mkdirs l w)).
Proof.
  revert w. induction l as [|p l IH]; intros w; cbn [mkdirs]; [done|]. destruct (fs w !! p) as [[]|] eqn:E; [apply IH|done|done|].
  etrans; [|apply IH]. apply frame_new; auto.
Qed.
Lemma always_MkdirAll p : always R (MkdirAll p).
Proof.
  apply always_call; [intros; apply always_mkdirs|]. intros b t w. pose proof (always_mkdirs (prefixes p) w). by destruct (mkdirs _ w) as [w' []].
Qed.
Lemma always_create p : safe p -> always R (create p).
Proof.
  intros Hp. apply always_call; [done|]. intros b t w. destruct (fs w !! p) eqn:E; [done|]. case_if as Ed; [|done]. apply frame_new; auto.
Qed.
Lemma always_docker `{DockerHost} environ image args : harmless args -> always R (docker.docker environ image args).
Proof. intros Ha. apply always_call; intros; by apply frame_docker. Qed.
#[local] Hint Resolve always_print always_MkdirAll always_create always_docker frame_write : always.

Lemma always_readPrivate p n : always R (readPrivate p n).
Proof. unfold readPrivate. always. Qed.
Lemma always_privateDirectory p b : always R (privateDirectory p b).
Proof. unfold privateDirectory. always. Qed.
Lemma always_lock p : safe (p ++ [lock_name]) -> always R (lockDirectory p).
Proof. intros Hp. unfold lockDirectory. always. Qed.
#[local] Hint Resolve always_readPrivate always_privateDirectory : always.
Lemma always_verifyFiles `{Sha256} p s : always R (verifyFiles p s).
Proof. unfold verifyFiles. always. Qed.
Lemma always_newProject l : always R (newProject l).
Proof. unfold newProject. generalize 8%nat. intros n. induction n as [|n IH]; cbn [newProject_loop]; always. Qed.
Lemma always_only_lock p a b : always R (only_lock p a b).
Proof. unfold only_lock. always. Qed.
Lemma always_write_secret p n : safe (secrets_dir p ++ [n]) -> always R (write_secret p n).
Proof. intros Hn. unfold write_secret. always. Qed.
Lemma always_load `{Codec installation} p : always R (loadInstallation p).
Proof. unfold loadInstallation. always. Qed.
End parts.
#[export] Hint Resolve always_print always_MkdirAll always_create always_docker frame_write always_readPrivate always_privateDirectory always_verifyFiles
  always_newProject always_only_lock always_load : always.

Section commands.
Context {R safe harmless} `{Frame R safe harmless} `{DockerHost} (environ : list string) `{Codec serviceStatus} `{Codec (list serviceStatus)} `{Codec (list imageInfo)}.
Abbreviation composes dir s args := (harmless (compose_prefix dir (Project s) ++ graceful args)).

Lemma always_step dir s image label args : composes dir s args -> always R (docker.step environ dir s image label args).
Proof. intros Ha. unfold step, compose. always. Qed.
Lemma always_checkDocker : harmless ["context"; "inspect"; "--format"; endpoint_format] -> harmless ["info"; "--format"; "{{.OSType}}/{{.Architecture}}"] ->
  harmless ["compose"; "version"; "--short"] -> always R (checkDocker environ).
Proof. intros H1' H2' H3'. unfold checkDocker. always. Qed.
Lemma always_verifyImage image arch pull : harmless ["image"; "inspect"; image] -> harmless ["pull"; image] -> always R (verifyImage environ image arch pull).
Proof. intros H1' H2'. unfold verifyImage, inspect_image. always. Qed.
Lemma always_list_services dir s image : composes dir s ["ps"; "--all"; "--format"; "json"] -> always R (list_services environ dir s image).
Proof. intros Ha. unfold list_services, compose. always. Qed.
Lemma always_waitReady dir s image interval : composes dir s ["ps"; "--all"; "--format"; "json"] -> always R (waitReady environ dir s image interval).
Proof.
  intros Ha. unfold waitReady. generalize (most_polls interval), 0. intros n. induction n as [|n IH]; intros e; cbn [waitReady_loop]; [always|].
  pose proof (always_list_services dir s image Ha). always.
Qed.
End commands.
#[export] Hint Resolve always_checkDocker always_verifyImage always_list_services always_waitReady always_step : always.

(** Commands that neither migrate nor start, and paths other than the record. *)
Definition calm_command (args : list string) : Prop := migrates args = None /\ starts args = None.
#[global] Instance calm_frame d : Frame (calm d) (fun p => p <> record_file d) calm_command.
Proof.
  split.
  - apply _.
  - intros t w. split; [done|]. split; [cbn; done|done].
  - intros env args w []. by apply calm_did.
  - intros p n w [Hp| ->] _; apply calm_enter; [by left | by right].
  - apply calm_writeExclusive.
Qed.
#[export] Hint Extern 1 (calm_command _) => (split; reflexivity) : always.
Lemma record_file_ne (d q : path) x : x <> "installation.json"%string -> q ++ [x] <> record_file d.
Proof. intros Hx E. apply app_inj_tail in E as [_ E]. done. Qed.

(** A frame that allows at least what [calm_frame] allows. *)
Class Milder (d : path) (safe : path -> Prop) (harmless : list string -> Prop) : Prop := {
  milder_path : forall p, p <> record_file d -> safe p;
  milder_command : forall args, calm_command args -> harmless args
}.
#[global] Instance calm_milder d : Milder d (fun p => p <> record_file d) calm_command.
Proof. done. Qed.
Lemma under_record (d q : path) name : name ∈ backupFiles -> under q name = record_file d -> name = "installation.json"%string.
Proof.
  intros Hn E. unfold backupFiles in Hn. assert (last (under q name) = Some "installation.json"%string) as Hl by (rewrite E; apply last_snoc).
  unfold under in Hl. rewrite last_app in Hl. repeat (apply elem_of_cons in Hn as [->|Hn]; [by vm_compute in Hl|]). by apply elem_of_nil in Hn.
Qed.

Section flows.
Context (d : path) {R safe harmless} `{Frame R safe harmless} `{!Milder d safe harmless} `{DockerHost} (environ : list string).
Context `{Sha256} `{Codec installation} `{Codec serviceStatus} `{Codec (list serviceStatus)} `{Codec (list imageInfo)}.
Context `{Codec backupRecord} `{Codec (list volumeInfo)} `{Codec localcontrol.RotationReport} `{Codec statusReport} `{Codec recoveryarchive.Manifest} `{recoveryarchive.Tar}.
Context (report_into : string -> localcontrol.RotationReport -> localcontrol.RotationReport * bool) (Version : string).
#[local] Hint Extern 1 (harmless _) => (apply (milder_command (d := d)); split; reflexivity) : always.
#[local] Hint Extern 1 (safe (_ ++ [_])) => (apply (milder_path (d := d)), record_file_ne; done) : always.

Lemma always_volumeSet s : always R (volumeSet environ s).
Proof. unfold volumeSet. always. Qed.
Lemma always_stopped s : always R (stopped environ s).
Proof. unfold stopped. always. Qed.
Lemma always_list_volumes image : always R (list_volumes environ image).
Proof. unfold list_volumes. always. Qed.
Lemma always_create_volume s v : always R (create_volume environ s v).
Proof. unfold create_volume. always. Qed.
Lemma always_deposit (q : path) x n w : x <> "installation.json"%string -> R w (deposit (q ++ [x]) n w).
Proof.
  intros Hx. unfold deposit. destruct (fs w !! (q ++ [x])) eqn:E, n; try done. apply frame_new; [|done]. left. by apply (milder_path (d := d)), record_file_ne.
Qed.
Lemma always_archive s image dest op b : always R (archive environ s image dest op b).
Proof.
  unfold archive. always. intros w i. cbn [fst snd]. unfold left_behind. destruct (archived (trace w)) as [tar manifest].
  etrans; by apply always_deposit.
Qed.
Lemma always_verify_archive p : always R (verify_archive p).
Proof. unfold verify_archive. always. Qed.
Lemma always_keyReport dir s : always R (keyReport environ report_into dir s).
Proof. unfold keyReport, compose. always. Qed.
#[local] Hint Resolve always_volumeSet always_stopped always_list_volumes always_create_volume always_archive always_verify_archive always_keyReport : always.
Lemma always_await n dir s e : always R (await_acks environ report_into n dir s e).
Proof. revert e. induction n as [|n IH]; intros e; cbn [await_acks]; always. Qed.
Lemma always_printToken dir s : always R (printToken environ dir s).
Proof. unfold printToken, compose. always. Qed.
#[local] Hint Resolve always_await always_printToken : always.
Lemma always_setup dir s : always R (setup environ dir s).
Proof. unfold setup, issue_token. always. Qed.
Lemma always_status o s : always R (status environ Version o s).
Proof. unfold status, lift, compose. always. Qed.
Lemma always_verifyBackup p : always R (verifyBackup p).
Proof. unfold verifyBackup. always. Qed.
End flows.
#[export] Hint Resolve always_volumeSet always_stopped always_list_volumes always_create_volume always_archive always_verify_archive always_keyReport
  always_await always_printToken always_setup always_status always_verifyBackup : always.
End quiet.
