(* ===== verification/InstallerRecord.v ===== *)
(** * Writing the record of an installation

    Module [records]: what the writing of a file and the replacement of the
    record do to the invariant of [InstallerSpecs], wherever they fail. *)

From S2P Require Import Prelude GoStd Control InstallPlan RecoveryArchive RecoveryTrip Rotation Coordinator AuthHTTP HostFiles InstallerState InstallerDocker Installer InstallerSpecs.
From stdpp Require Import base list gmap strings pretty.
From Stdlib Require Import ZArith Lia Ascii String.

Module records.
Import host installer docker wrctl quiet.
Local Open Scope Z_scope.
Local Open Scope host_scope.

(** ** Records *)

Section record.
Context `{Codec installation} `{!RecordLaws} (d : path).
Abbreviation Inv := (Inv d).
Abbreviation know := (know d).
Abbreviation holds := (holds d).
Abbreviation rp := (record_file d).

Lemma record_ok_take tr c n : record_ok tr c -> record_ok tr (str_take n c).
Proof.
  intros Hc m s Hs. assert (str_take m (str_take n c) = str_take (Nat.min m n) c) as E.
  { clear. revert n c. induction m as [|m IH]; intros [|n] [|a c]; cbn; try done. by rewrite IH. }
  rewrite E in Hs. by eapply Hc.
Qed.
Lemma record_ok_empty tr c : record_ok tr c -> record_ok tr "".
Proof. apply (record_ok_take tr c 0). Qed.
Lemma record_ok_text tr s : valid s = true -> consistent tr s -> record_ok tr (encoded s).
Proof.
  intros Hv Hc n s' Hs. unfold parse_record in Hs. destruct (decode_strict _) as [s1|] eqn:E; [|done]. destruct (valid s1); [|done].
  simplify_eq. by apply record_prefix in E as ->.
Qed.

Lemma Inv_enter p n w : Inv w -> (forall perm c b, n = Some (File perm c b) -> p = rp -> record_ok (trace w) c) -> Inv (enter p n w).
Proof.
  intros [H1 H2] Hn. split; [|done]. intros c (perm & b & Hin). rewrite candidates_enter in Hin. case_decide as E.
  - apply elem_of_cons in Hin as [Heq|Hin]; [by eapply Hn|]. apply H1. by exists perm, b.
  - apply H1. by exists perm, b.
Qed.
Lemma Inv_change p perm c b w : Inv w -> (p = rp -> record_ok (trace w) c) -> Inv (change p (File perm c b) w).
Proof.
  intros [H1 H2] Hn. split; [|done]. intros c' (perm' & b' & Hin). unfold candidates, change in Hin. cbn in Hin. apply elem_of_cons in Hin as [Heq|Hin].
  - destruct (decide (p = rp)) as [->|Hne]; [rewrite lookup_insert_eq in Heq; simplify_eq; by apply Hn|].
    rewrite lookup_insert_ne in Heq by done. apply H1. exists perm', b'. unfold candidates. rewrite Heq. left.
  - apply H1. exists perm', b'. by right.
Qed.
Lemma Inv_rewrite p f b w : Inv w -> (p = rp -> forall c, record_ok (trace w) c -> record_ok (trace w) (f c)) -> Inv (rewrite_file p f b w).
Proof.
  intros Hi Hf. unfold rewrite_file. repeat case_match; try done. apply Inv_change; [done|]. intros ->. apply Hf; [done|]. apply Hi. do 2 eexists. unfold candidates.
  match goal with E : fs w !! _ = _ |- _ => rewrite E end. left.
Qed.

(** Writing a file anew, be it a record or not. *)
Lemma write_spec p c tr : record_ok tr c -> spec (fun w => Inv w /\ trace w = tr) (writeExclusive p c) (fun _ w => Inv w /\ trace w = tr) Inv.
Proof.
  intros Hc. unfold writeExclusive, syncDirectory. apply spec_bind with (fun _ w => Inv w /\ trace w = tr).
  { apply spec_orelse, spec_call; [by intros ?? []|]. intros _ _ w [Hi Ht]. destruct (fs w !! p); [done|]. case_if as E; [|done]. split; [|done].
    apply Inv_enter; [done|]. intros perm c' b [= _ <- _] _. rewrite Ht. by eapply record_ok_empty. }
  intros _. apply spec_bind with (fun _ w => Inv w /\ trace w = tr).
  { assert (forall x w, Inv w -> trace w = tr -> record_ok tr x -> Inv (rewrite_file p (fun _ => x) false w) /\ trace (rewrite_file p (fun _ => x) false w) = tr) as Hw.
    { intros x w Hi Ht Hx. split; [apply Inv_rewrite; [done|]; intros; by rewrite Ht|]. unfold rewrite_file. by repeat case_match. }
    apply spec_orelse, spec_call; [intros n w [Hi Ht]; apply Hw; [done..|by apply record_ok_take] | intros _ _ w [Hi Ht]; by apply Hw]. }
  intros _. apply spec_bind with (fun _ w => Inv w /\ trace w = tr).
  { apply spec_orelse, spec_call; [by intros ?? []|]. intros _ _ w [Hi Ht]. split; [by apply Inv_rewrite|]. unfold rewrite_file. by repeat case_match. }
  intros _. apply spec_bind with (fun _ w => Inv w /\ trace w = tr); [apply spec_orelse, spec_call; [by intros ?? []|]; done|].
  intros _. apply spec_orelse, spec_call; [by intros ?? []|]. intros _ _ w [Hi Ht]. split; [|done]. eapply calm_Inv; [apply calm_sync|done].
Qed.

(** Replacing the record. *)
Definition at_trace (tr : list action) (w : world) : Prop := Inv w /\ trace w = tr.
Definition with_temp (tr : list action) (t : path) (c : string) (b : bool) (w : world) : Prop := at_trace tr w /\ fs w !! t = Some (File 384 c b).
Lemma dir_snoc (q : path) x : parent (q ++ [x]) = q.
Proof. unfold parent. rewrite length_app, Nat.add_comm. cbn. by rewrite take_app_length. Qed.
Lemma parent_rp : parent rp = d.
Proof. apply dir_snoc. Qed.
Lemma rewrite_at p f b w perm c b0 : fs w !! p = Some (File perm c b0) -> fs (rewrite_file p f b w) !! p = Some (File perm (f c) b) /\ trace (rewrite_file p f b w) = trace w.
Proof. intros E. unfold rewrite_file. rewrite E. cbn. by rewrite lookup_insert_eq. Qed.
Lemma temp_written tr t b : t <> rp -> spec (with_temp tr t "" false) (orelse (write t b ;! fsync t) "cannot write installation update") (fun _ => with_temp tr t b true) Inv.
Proof.
  intros Ht. apply spec_orelse, spec_bind with (fun _ => with_temp tr t b false).
  - apply spec_call; [intros n w [[Hi _] _]; by apply Inv_rewrite|]. intros _ _ w [[Hi <-] Hf]. destruct (rewrite_at t (fun _ => b) false w _ _ _ Hf).
    split; [split; [by apply Inv_rewrite|done]|done].
  - intros _. apply spec_call; [by intros n w [[Hi _] _]|]. intros _ _ w [[Hi <-] Hf]. destruct (rewrite_at t id true w _ _ _ Hf).
    split; [split; [by apply Inv_rewrite|done]|done].
Qed.
Lemma candidates_synced w : candidates (sync_entries d w) rp = [fs w !! rp].
Proof.
  unfold candidates, sync_entries. cbn. assert (filter (fun e => parent (fst e) <> d) (lost w) !! rp = None) as ->; [|done].
  apply map_lookup_filter_None. right. intros x _ Hp. apply Hp. apply dir_snoc.
Qed.
Lemma renamed_spec s tr t : valid s = true -> consistent tr s -> t <> rp ->
  spec (with_temp tr t (encoded s) true) (orelse (rename t rp) "cannot commit installation update" ;! syncDirectory (parent rp))
    (fun _ w => at_trace tr w /\ only d w s) Inv.
Proof.
  intros Hv Hc Ht. apply spec_bind with (fun _ w => at_trace tr w /\ exists perm b, fs w !! rp = Some (File perm (encoded s) b)).
  { apply spec_orelse, spec_call; [by intros n w [[Hi _] _]|]. intros _ _ w [[Hi <-] Hf]. rewrite Hf. destruct (fs w !! rp) as [[]|]; try done.
    all: split; [split; [|done]; apply Inv_enter; [by apply Inv_enter|]; intros perm' c' b' [= _ <- _] _; by apply record_ok_text|].
    all: cbn; rewrite lookup_partial_alter; rewrite decide_True by done; by eauto. }
  intros _. rewrite parent_rp. unfold syncDirectory.
  apply spec_bind with (fun _ w => at_trace tr w /\ exists perm b, fs w !! rp = Some (File perm (encoded s) b)); [apply spec_orelse, spec_call; [by intros ?? [[]]|done]|].
  intros _. apply spec_orelse, spec_call; [by intros ?? [[]]|]. intros _ _ w [[Hi <-] (perm & b & Hf)]. split.
  - split; [eapply calm_Inv; [apply calm_sync|done]|done].
  - intros c (perm' & b' & Hin). rewrite candidates_synced in Hin. apply list_elem_of_singleton in Hin. congruence.
Qed.
Lemma temp_name n : ".wrctl-write-" +:+ n <> "installation.json"%string.
Proof. done. Qed.
Lemma readPrivate_same p n w i : fst (fst (readPrivate p n w i)) = w /\ (forall c, snd (readPrivate p n w i) = Ok c -> exists perm b, fs w !! p = Some (File perm c b)).
Proof.
  unfold readPrivate, lstat, works, reads, bind, orelse, call, fail, ret.
  destruct i as [|[] i]; cbn; try done; destruct (fs w !! p) as [[|perm c b|]|]; cbn; try done; case_if as E; try done.
  - split; [done|]. intros c' [= <-]. eauto.
  - destruct i as [|[] i]; try done; [split; [done|]; intros c' [= <-]; eauto|].
    destruct i as [|[] i]; try done; [split; [done|]; intros c' [= <-]; eauto|].
    destruct i as [|[] i]; try done; split; try done; intros c' [= <-]; eauto.
Qed.
Lemma replace_spec s tr : valid s = true -> consistent tr s ->
  spec (at_trace tr) (replacePrivate rp (encoded s)) (fun _ w => at_trace tr w /\ only d w s) Inv.
Proof.
  intros Hv Hc. unfold replacePrivate. apply spec_bind with (fun _ => at_trace tr).
  { apply spec_orelse. intros w i Hw. destruct (readPrivate_same rp 65536 w i) as [E _]. destruct (readPrivate rp 65536 w i) as [[w' i'] [a|e]]; cbn in E; subst; [done|apply Hw]. }
  intros _. apply spec_bind with (fun t w => t <> rp /\ with_temp tr t "" false w).
  { apply spec_orelse, spec_call; [by intros ?? []|]. intros _ n w [Hi <-]. rewrite parent_rp. cbv zeta. destruct (fs w !! (d ++ [".wrctl-write-" +:+ pretty (n mod 2 ^ 32)])); [done|]. case_if as E; [|done].
    assert (d ++ [".wrctl-write-" +:+ pretty (n mod 2 ^ 32)] <> rp) as Hne by (apply record_file_ne, temp_name).
    split; [done|]. split; [split; [by apply Inv_enter|done]|]. cbn. by rewrite lookup_partial_alter, decide_True. }
  intros t w i [Ht Hw]. revert w i Hw. change (spec (with_temp tr t "" false) (deferred (orelse (write t (encoded s) ;! fsync t) "cannot write installation update" ;!
    orelse (rename t rp) "cannot commit installation update" ;! syncDirectory (parent rp)) (remove t)) (fun _ w => at_trace tr w /\ only d w s) Inv).
  assert (always (calm d) (remove t)) as Hr by apply calm_remove.
  assert (forall w i, trace (fst (fst (remove t w i))) = trace w) as Htr.
  { intros w i. unfold remove, call. destruct i as [|[] i]; try done; cbn; destruct (fs w !! t) as [[]|]; done. }
  apply spec_deferred with (fun _ w => at_trace tr w /\ only d w s).
  - apply spec_bind with (fun _ => with_temp tr t (encoded s) true); [by apply temp_written|]. intros _. by apply renamed_spec.
  - intros _ w i [[Hi <-] Ho]. specialize (Hr w i). specialize (Htr w i). pose proof (calm_Inv _ _ _ Hr Hi). pose proof (calm_only _ _ _ _ Hr Ho).
    by destruct (remove t w i) as [[w' i'] []].
  - intros _ w [[Hi _] _]. done.
  - intros w i Hi. pose proof (calm_Inv _ _ _ (Hr w i) Hi). by destruct (remove t w i) as [[w' i'] []].
Qed.
End record.
End records.
