(* ===== verification/InstallerProps.v ===== *)
(** * Starting and migrating an installation

    Module [lifecycle]: what the two initialisations of an installation do to
    the invariant of [InstallerSpecs], and rules for values and validity. *)

From S2P Require Import Prelude GoStd Control InstallPlan RecoveryArchive RecoveryTrip Rotation Coordinator AuthHTTP HostFiles InstallerState InstallerDocker Installer InstallerSpecs InstallerRecord.
From stdpp Require Import base list gmap strings pretty.
From Stdlib Require Import ZArith Lia Ascii String.

Module lifecycle.
Import host installer docker wrctl quiet records.
Local Open Scope Z_scope.
Local Open Scope host_scope.

(** ** Validity *)

Record well_formed (s : installation) : Prop := mkWellFormed {
  wf_schema : SchemaVersion s = 1; wf_project : projectPattern (Project s) = true; wf_image : imagePattern (Image s) = true;
  wf_previous : PreviousImage s = "" \/ imagePattern (PreviousImage s) = true;
  wf_pending : PendingImage s = "" \/ imagePattern (PendingImage s) = true;
  wf_totp : InitialTOTP s = "on" \/ InitialTOTP s = "off"; wf_digest : secretPattern (ComposeSHA256 s) = true;
  wf_phase : Phase s = "prepared" \/ Phase s = "ready" \/ Phase s = "upgrading";
  wf_upgrading : Phase s = "upgrading" <-> PendingImage s <> ""
}.
Lemma valid_iff s : valid s = true <-> well_formed s.
Proof.
  unfold valid. rewrite negb_true_iff, !orb_false_iff, !andb_false_iff, !negb_false_iff, Z.eqb_eq, !String.eqb_eq, eqb_true_iff.
  assert ((String.eqb (Phase s) "upgrading" = negb (String.eqb (PendingImage s) "")) <-> (Phase s = "upgrading" <-> PendingImage s <> "")) as ->.
  { destruct (String.eqb_spec (Phase s) "upgrading"), (String.eqb_spec (PendingImage s) ""); cbn; naive_solver. }
  split; [intros; destruct_and!; constructor; naive_solver | intros []; naive_solver].
Qed.
Lemma image_not_empty i : imagePattern i = true -> i <> ""%string.
Proof. by intros Hi ->. Qed.

Section commands.
Context `{DockerHost} (environ : list string).
Context `{Sha256} `{!Sha256Laws} `{Codec installation} `{!RecordLaws} `{Codec serviceStatus} `{Codec (list serviceStatus)} `{Codec (list imageInfo)}.
Context (d : path).
Abbreviation Inv := (quiet.Inv d).
Abbreviation know := (quiet.know d).

(** What is known of the migrations of the project of a record: they agree with
    the record, or with an image, or there are none. *)
Definition agrees (s : installation) (p : string) (o : option string) : Prop := p = Project s -> forall i, o = Some i ->
  (Phase s = "ready" /\ Image s = i) \/ (Phase s = "upgrading" /\ (Image s = i \/ PendingImage s = i)).
Definition runs (s : installation) (image p : string) (o : option string) : Prop := p = Project s -> forall i, o = Some i -> i = image.
Definition fresh (project p : string) (o : option string) : Prop := p = project -> o = None.

Lemma know_agrees s w : know (agrees s) w <-> Inv w /\ consistent (trace w) s.
Proof. unfold quiet.know, agrees, consistent. split; intros [Hi Hk]; (split; [done|]); [intros i; by apply (Hk (Project s)) | intros p -> i; apply Hk]. Qed.
Lemma know_mono (K K' : string -> option string -> Prop) w : (forall p o, K p o -> K' p o) -> know K w -> know K' w.
Proof. intros HK [Hi Hk]. split; auto. Qed.
Lemma at_know K w : know K w -> at_trace d (trace w) w /\ forall p, K p (migrated p (trace w)).
Proof. by intros [Hi Hk]. Qed.
Lemma quiet_then {A B} K (m : M A) (k : A -> M B) Q : always (calm d) m -> (forall a, spec (know K) (k a) Q Inv) -> spec (know K) (bind m k) Q Inv.
Proof. intros Hm Hk. eapply spec_bind; [by apply quietly_know | exact Hk]. Qed.
Ltac skip := apply quiet_then; [solve [always] | intros ?; cbv beta].
Lemma quiet_end {A} K (m : M A) : always (calm d) m -> spec (know K) m (fun _ => Inv) Inv.
Proof. intros Hm. eapply spec_conseq; [by apply quietly_know | done | by intros _ w [] | done]. Qed.

(** Saving a record keeps what is known of the migrations. *)
Lemma save_spec K s : valid s = true -> (forall p o, K p o -> agrees s p o) ->
  spec (know K) (saveInstallation d s false) (fun _ w => know K w /\ only d w s) Inv.
Proof.
  intros Hv HK w i Hw. assert (consistent (trace w) s) as Hc by (by apply know_agrees; eapply know_mono).
  destruct (at_know K w Hw) as [Ht Hk]. pose proof (replace_spec d s (trace w) Hv Hc w i Ht) as Hr. unfold saveInstallation.
  destruct (replacePrivate _ _ w i) as [[w' i'] [a|e]]; [|done]. destruct Hr as [[Hi Et] Ho]. split; [|done]. split; [done|]. by rewrite Et.
Qed.
Lemma save_fresh_spec K s : valid s = true -> (forall p o, K p o -> agrees s p o) -> spec (know K) (saveInstallation d s true) (fun _ => know K) Inv.
Proof.
  intros Hv HK w i Hw. assert (consistent (trace w) s) as Hc by (by apply know_agrees; eapply know_mono).
  destruct (at_know K w Hw) as [Ht Hk]. pose proof (write_spec d (record_file d) (encoded s) (trace w) (record_ok_text _ s Hv Hc) w i Ht) as Hr. unfold saveInstallation.
  destruct (writeExclusive _ _ w i) as [[w' i'] [a|e]]; [|done]. destruct Hr as [Hi Et]. split; [done|]. by rewrite Et.
Qed.

(** ** Starting and migrating *)

Lemma starting K dir s image label args : starts (compose_prefix dir (Project s) ++ args) = Some (Project s) -> graceful args = args -> migrates (compose_prefix dir (Project s) ++ args) = None ->
  (forall p o, K p o -> runs s image p o) -> spec (know K) (docker.step environ dir s image label args) (fun _ => know K) Inv.
Proof.
  intros Hs Hg Hm HK. unfold step. skip. apply spec_bind with (fun _ => know K); [|intros ?; by apply spec_ret].
  apply spec_orelse. unfold compose, docker.docker. rewrite Hg.
  assert (forall w, know K w -> know K (did (Docker (dockerEnvironment environ image) (compose_prefix dir (Project s) ++ args)) w)) as Hd.
  { intros w [[Hr Ho] Hk]. assert (forall p, migrated p (trace (did (Docker (dockerEnvironment environ image) (compose_prefix dir (Project s) ++ args)) w)) = migrated p (trace w)) as E.
    { intros p. cbn [did trace migrated]. by rewrite Hm, decide_False. }
    split; [split|].
    - intros c Hc n s' Hs'. eapply consistent_ext; [exact E|]. by eapply Hr.
    - cbn [did trace starts_ok]. split; [|done]. intros p i Hp Hi. rewrite Hs in Hp. injection Hp as <-. rewrite runtime_image_env.
      symmetry. by apply (HK _ _ (Hk (Project s))).
    - intros p. rewrite E. apply Hk. }
  apply spec_call; [intros n w Hw; by apply Hd|]. intros _ _ w Hw. case_if as E; [by apply Hd|]. by apply Hd.
Qed.
Lemma start_spec K dir s image : (forall p o, K p o -> runs s image p o) -> spec (know K) (start environ dir s image) (fun _ => know K) Inv.
Proof.
  intros HK. unfold start. apply spec_bind with (fun r w => match r with Ok _ => know K w | Err _ => Inv w end).
  { apply spec_attempt. apply spec_bind with (fun _ => know K); [by apply starting|]. intros ?. skip. apply quietly_know. eauto with always typeclass_instances. }
  intros [?|?]; [by apply spec_ret|]. apply spec_conseq with (P' := know (fun _ _ => True)) (Q' := fun _ => know K) (X' := Inv); [|by intros w Hw; split | done | done].
  apply spec_bind with (fun _ => know (fun _ _ => True)); [|by intros ?; apply spec_fail; intros w []]. apply quietly_know. unfold compose; always.
Qed.

Lemma migrating dir s image label : valid s = true -> Phase s = "upgrading"%string -> PendingImage s = image ->
  spec (fun w => Inv w /\ only d w s) (docker.step environ dir s image label (run_job ["initialize"; "upgrade"])) (fun _ => know (fun p o => p = Project s -> o = Some image)) Inv.
Proof.
  intros Hv Hph Hpe. unfold step. apply spec_bind with (fun _ w => Inv w /\ only d w s).
  { apply spec_orelse. eapply spec_conseq; [apply (quietly_only d _ (fun _ _ => True) s); eauto with always typeclass_instances | by intros w [Hi Ho] | by intros _ w [[Hi _] Ho] | done]. }
  intros ?. apply spec_bind with (fun _ => know (fun p o => p = Project s -> o = Some image)); [|intros ?; by apply spec_ret]. apply spec_orelse. unfold compose, docker.docker.
  set (args := compose_prefix dir (Project s) ++ graceful (run_job ["initialize"; "upgrade"])). set (act := Docker (dockerEnvironment environ image) args).
  assert (migrates args = Some (Project s)) as Hm by done. assert (starts args = None) as Hs by done.
  assert (forall w, Inv w /\ only d w s -> know (fun p o => p = Project s -> o = Some image) (did act w)) as Hd.
  { intros w [[Hr Hst] Ho]. assert (migrated (Project s) (trace (did act w)) = Some image) as E.
    { subst act. cbn [did trace migrated]. by rewrite Hm, decide_True, runtime_image_env. }
    split; [split|].
    - intros c Hc. rewrite (Ho c Hc). apply record_ok_text; [done|]. intros i. rewrite E. intros [= <-]. right. split; [done|]. by right.
    - subst act. cbn [did trace starts_ok]. split; [|done]. intros p i Hp. by rewrite Hs in Hp.
    - intros p ->. exact E. }
  apply spec_call; [intros n w Hw; apply (Hd w Hw)|]. intros _ _ w Hw. case_if as E; apply (Hd w Hw).
Qed.

Lemma initialize_spec K dir s image : (forall p o, K p o -> runs s image p o) -> spec (know K) (initialize environ dir s image false) (fun _ => know K) Inv.
Proof.
  intros HK. unfold initialize. cbn [negb]. do 5 (apply quiet_then; [solve [always] | intros ?; cbv beta]). by apply start_spec.
Qed.
Lemma upgrade_spec dir s image : valid s = true -> Phase s = "upgrading"%string -> PendingImage s = image ->
  spec (fun w => Inv w /\ only d w s) (initialize environ dir s image true) (fun _ => know (fun p o => p = Project s -> o = Some image)) Inv.
Proof.
  intros Hv Hph Hpe. unfold initialize. cbn [negb].
  assert (forall label image' args, calm_command (compose_prefix dir (Project s) ++ graceful args) -> spec (fun w => Inv w /\ only d w s) (docker.step environ dir s image' label args) (fun _ w => Inv w /\ only d w s) Inv) as Hq.
  { intros label image' args Ha. eapply spec_conseq; [apply (quietly_only d _ (fun _ _ => True) s); solve [always] | by intros w [Hi Ho] | by intros ? w [[Hi _] Ho] | done]. }
  do 2 (eapply spec_bind; [apply Hq; split; reflexivity | intros ?; cbv beta]). eapply spec_bind; [by apply migrating | intros ?; cbv beta].
  do 2 (apply quiet_then; [solve [always] | intros ?; cbv beta]). apply start_spec. intros p o Ho Hp i Hi. rewrite (Ho Hp) in Hi. congruence.
Qed.
End commands.

(** ** Values *)

Definition yields {A} (m : M A) (ok : A -> Prop) : Prop := forall w i a, snd (m w i) = Ok a -> ok a.
Lemma yields_bind {A B} (m : M A) (k : A -> M B) (P : A -> Prop) (Q : B -> Prop) : yields m P -> (forall a, P a -> yields (k a) Q) -> yields (bind m k) Q.
Proof.
  intros Hm Hk w i b. unfold bind. specialize (Hm w i). destruct (m w i) as [[w' i'] [a|e]]; [|done]. intros Hb. by apply (Hk a (Hm a eq_refl) w' i').
Qed.
Lemma yields_any {A} (m : M A) : yields m (fun _ => True).
Proof. done. Qed.
Lemma yields_ret {A} (a : A) (P : A -> Prop) : P a -> yields (ret a) P.
Proof. by intros Ha w i b [= <-]. Qed.
Lemma yields_fail {A} e (P : A -> Prop) : yields (fail e) P.
Proof. done. Qed.
Lemma yields_check b t : yields (check b t) (fun _ => b = true).
Proof. by destruct b. Qed.
Lemma yields_orelse {A} (m : M A) t P : yields m P -> yields (orelse m t) P.
Proof. intros Hm w i a. unfold orelse. specialize (Hm w i). destruct (m w i) as [[w' i'] [x|[]]]; cbn; auto; done. Qed.
Lemma quiet_value {A} d `{Codec installation} K (m : M A) (ok : A -> Prop) : always (calm d) m -> yields m ok -> spec (know d K) m (fun a w => know d K w /\ ok a) (Inv d).
Proof.
  intros Hm Hy w i Hk. pose proof (quietly_know d m K Hm w i Hk). specialize (Hy w i). destruct (m w i) as [[w' i'] [a|e]]; [|done]. split; [done|]. by apply Hy.
Qed.
Lemma spec_pure {A} (phi : Prop) P (m : M A) Q X : (phi -> spec P m Q X) -> spec (fun w => P w /\ phi) m Q X.
Proof. intros Hm w i [Hp Hphi]. by apply Hm. Qed.
End lifecycle.
