(* ===== verification/InstallerHistory.v ===== *)
(** * Upgrades are not undone by accident

    Module [history]: over every history of commands on an installation, with
    faults, kills and losses of power, the application starts only with the
    image that its data were migrated to last. *)

From S2P Require Import Prelude GoStd Control InstallPlan RecoveryArchive RecoveryTrip Rotation Coordinator AuthHTTP HostFiles InstallerState InstallerDocker Installer InstallerSpecs InstallerRecord InstallerProps.
From stdpp Require Import base list gmap strings pretty.
From Stdlib Require Import ZArith Lia Ascii String.

Module history.
Import host installer docker wrctl quiet records lifecycle.
Local Open Scope Z_scope.
Local Open Scope host_scope.

(** Volumes outlive the commands: Docker lists those of a migrated project. *)
Definition volume_args : list string := ["volume"; "ls"; "--format"; "{{.Name}}"].
Definition occupied (volumes : list string) (project : string) : bool := existsb (fun volume => strs.HasPrefix volume (project +:+ "_")) volumes.
Class VolumesPersist `{DockerHost} : Prop :=
  volumes_listed : forall env tr p i, projectPattern p = true -> migrated p tr = Some i -> occupied (lab.Fields (reply (Docker env volume_args :: tr))) p = true.

Section flows.
Context `{DockerHost} (environ : list string) `{!VolumesPersist}.
Context `{Sha256} `{!Sha256Laws} `{Codec installation} `{!RecordLaws} `{Codec serviceStatus} `{Codec (list serviceStatus)} `{Codec (list imageInfo)}.
Context `{Codec backupRecord} `{Codec (list volumeInfo)} `{Codec localcontrol.RotationReport} `{Codec statusReport} `{Codec recoveryarchive.Manifest} `{recoveryarchive.Tar}.
Context (report_into : string -> localcontrol.RotationReport -> localcontrol.RotationReport * bool) (DefaultImage Version PreviewCompose : string).
Context (d : path).
Abbreviation Inv := (quiet.Inv d).
Abbreviation know := (quiet.know d).
Ltac skip := apply quiet_then; [solve [always] | intros ?; cbv beta].

Lemma calm_lock p : always (calm d) (lockDirectory p).
Proof. apply always_lock. by apply record_file_ne. Qed.
#[local] Hint Resolve calm_lock : always.

(** ** Backups *)

Lemma copy_spec K to name : name ∈ backupFiles -> spec (know K) (copy_file d to name) (fun _ => know K) Inv.
Proof.
  intros Hn w i Hk. unfold copy_file, bind. destruct (readPrivate_same (under d name) 65536 w i) as [E Hc].
  destruct (readPrivate (under d name) 65536 w i) as [[w' i'] [c|e]]; cbn in E, Hc; subst; [|exact (proj1 Hk)].
  destruct (Hc c eq_refl) as (perm & b & Hf). clear Hc. destruct (decide (under to name = record_file d)) as [Hr|Hr].
  - assert (record_ok (trace w) c) as Hok.
    { rewrite (under_record d to name Hn Hr) in Hf. apply Hk. exists perm, b. unfold candidates. change (under d "installation.json") with (record_file d) in Hf. rewrite Hf. left. }
    destruct (at_know d K w Hk) as [Ht HK]. pose proof (write_spec d (under to name) c (trace w) Hok w i' Ht) as Hw.
    destruct (writeExclusive (under to name) c w i') as [[w2 i2] [u|e]]; [|done]. destruct Hw as [Hi Et]. split; [done|]. by rewrite Et.
  - pose proof (quietly_know d _ K (calm_writeExclusive d (under to name) c Hr) w i' Hk) as Hw.
    destruct (writeExclusive (under to name) c w i') as [[w2 i2] [u|e]]; done.
Qed.
Lemma copies_spec K to names copied : names ⊆ backupFiles -> spec (know K) (copy_files d to names copied) (fun _ => know K) Inv.
Proof.
  revert copied. induction names as [|n names IH]; intros copied Hs; cbn [copy_files]; [by apply spec_ret|].
  eapply spec_bind; [apply copy_spec; set_solver | intros ?; cbv beta; apply IH; set_solver].
Qed.
Lemma backup_spec K dir s dest helper arch : at_ dir = d -> spec (know K) (backup environ dir s dest helper arch) (fun _ => know K) Inv.
Proof.
  intros Hd. unfold backup. skip. apply quiet_then; [solve [always] | intros [?|e]; cbv beta iota]; [apply spec_fail; by intros ? []|].
  destruct e; try (apply spec_fail; by intros ? []). skip. apply quiet_then; [solve [always] | intros ?; cbv beta]. do 5 skip. rewrite Hd.
  eapply spec_bind; [by apply copies_spec | intros ?; cbv beta]. do 2 skip. apply quiet_then; [|intros ?; cbv beta; apply quietly_know; always].
  apply calm_writeExclusive, record_file_ne. done.
Qed.

(** ** New projects *)

Definition unoccupied (volumes : list string) (p : string) (o : option string) : Prop := projectPattern p = true -> occupied volumes p = false -> o = None.
Lemma list_volumes_spec K image : spec (know K) (list_volumes environ image) (fun b => know (unoccupied (lab.Fields b))) Inv.
Proof.
  intros w i Hk. pose proof (quietly_know d _ (fun _ _ => True) (always_list_volumes d environ image) w i (know_mono d K (fun _ _ => True) w (fun _ _ _ => I) Hk)) as Hq.
  assert (forall p env o, projectPattern p = true -> occupied (lab.Fields (reply (Docker env volume_args :: trace w))) p = false -> o = migrated p (trace w) -> o = None) as Hv.
  { intros p env o Hpp Ho ->. destruct (migrated p (trace w)) as [x|] eqn:E; [|done]. by rewrite (volumes_listed env _ _ _ Hpp E) in Ho. }
  revert Hq. unfold list_volumes, docker.docker, call. destruct i as [|[] i]; try (by intros []).
  all: destruct (output_limit <? _); [by intros []|]; intros [Hi _]; (split; [exact Hi|]); intros p Hpp Ho; by eapply Hv.
Qed.
Lemma HasPrefix_app p x : strs.HasPrefix (p +:+ x) p = true.
Proof.
  unfold strs.HasPrefix. induction p as [|a p IH]; [by destruct x|]. change (String a p +:+ x) with (String a (p +:+ x)). cbn.
  by destruct (ascii_dec a a).
Qed.
Lemma prefixed_hex_app p n x : prefixed_hex p n (p +:+ hex_EncodeToString x) = (2 * len x =? n).
Proof. unfold prefixed_hex, hex_char. by rewrite HasPrefix_app, str_drop_app, hex_chars, hex_length, andb_true_r. Qed.
Lemma newProject_yields l : yields (newProject l) (fun p => occupied l p = false /\ projectPattern p = true).
Proof.
  unfold newProject. generalize 8%nat. intros n. induction n as [|n IH]; cbn [newProject_loop]; [done|].
  apply yields_bind with (fun id => len id = 8); [apply yields_orelse|].
  { intros w i a. assert (forall b, len (fit 8 b) = 8) as Hf.
    { intros b. unfold fit, len. do 8 (destruct b as [|? b]; [done|]). by destruct b. }
    unfold random, call. destruct i as [|[] i]; cbn [snd]; try done; intros [= <-]; apply Hf. }
  intros id Hid. case_if as E; [exact IH|]. apply yields_ret. split; [exact E|]. unfold projectPattern. by rewrite prefixed_hex_app, Hid.
Qed.
Lemma newProject_spec l : spec (know (unoccupied l)) (newProject l) (fun p w => know (fresh p) w /\ projectPattern p = true) Inv.
Proof.
  eapply spec_conseq; [apply quiet_value; [solve [always] | apply newProject_yields] | done | | done].
  intros p w [Hk [Ho Hp]]. split; [|done]. eapply know_mono; [|exact Hk]. intros q o Hu ->. by apply Hu.
Qed.

Lemma secret_hex b : secretPattern (digest b) = true.
Proof.
  unfold secretPattern, digest. change (hex_EncodeToString (sha256 b)) with ("" +:+ hex_EncodeToString (sha256 b)).
  by rewrite prefixed_hex_app, sha256_length.
Qed.
Lemma fresh_agrees s p o : fresh (Project s) p o -> agrees s p o.
Proof. intros Hf Hp i Hi. by rewrite (Hf Hp) in Hi. Qed.
Lemma fresh_runs s image p o : fresh (Project s) p o -> runs s image p o.
Proof. intros Hf Hp i Hi. by rewrite (Hf Hp) in Hi. Qed.

Definition new_record (image : string) (s : installation) : Prop := valid s = true /\ Phase s = "prepared"%string /\ Image s = image.
Lemma prepare_spec image totp project : imagePattern image = true -> totp = "on"%string \/ totp = "off"%string ->
  spec (know (fresh project)) (prepareFiles d image totp project PreviewCompose) (fun s w => know (fresh (Project s)) w /\ new_record image s) Inv.
Proof.
  intros Hi Ht. unfold prepareFiles. skip.
  apply spec_bind with (fun _ w => know (fresh project) w /\ projectPattern project = true); [apply quiet_value; [solve [always] | apply yields_check]|].
  intros ?. apply spec_pure. intros Hp. cbv zeta. set (s := mkInstallation 1 project image "" "" totp "prepared" (digest PreviewCompose)).
  assert (valid s = true) as Hv.
  { apply valid_iff. constructor; cbn; auto using secret_hex. split; [done|]. by intros []. }
  skip. apply quiet_then; [apply always_each; [apply _|]; intros name Hn; apply (always_write_secret (safe := fun p => p <> record_file d)), record_file_ne; unfold secret_names in Hn; set_solver | intros ?; cbv beta].
  apply quiet_then; [apply calm_writeExclusive, record_file_ne; done | intros ?; cbv beta].
  eapply spec_bind; [apply save_fresh_spec; [exact Hv | intros p o; apply (fresh_agrees s)] | intros ?; cbv beta]. by apply spec_ret.
Qed.

(** ** Commands *)

Abbreviation trivial := (fun (_ : string) (_ : option string) => True).
Lemma Inv_know w : Inv w <-> know trivial w.
Proof. split; [by split | by intros []]. Qed.
Lemma from_Inv {A} (m : M A) Q : spec (know trivial) m Q Inv -> spec Inv m Q Inv.
Proof. intros Hm. eapply spec_conseq; [exact Hm | intros w; apply Inv_know | done | done]. Qed.
Lemma to_Inv {A} K (m : M A) : spec (know K) m (fun _ => know K) Inv -> spec (know K) m (fun _ => Inv) Inv.
Proof. intros Hm. eapply spec_conseq; [exact Hm | done | by intros ? w [] | done]. Qed.
Lemma bind_ret {A B} P (a : A) (k : A -> M B) Q X : spec P (k a) Q X -> spec P (bind (ret a) k) Q X.
Proof. done. Qed.
Lemma always_lift {A} (r : result error A) : always (calm d) (lift r).
Proof. unfold lift. always. Qed.
Lemma selected_yields img : yields (lift (selectedImage DefaultImage img)) (fun i => imagePattern i = true).
Proof. unfold selectedImage. case_if as E; [by apply yields_fail|]. apply yields_ret. by apply negb_false_iff in E. Qed.

Lemma new_installation_spec K o image : at_ (directory o) = d -> imagePattern image = true -> totp o = "on"%string \/ totp o = "off"%string ->
  spec (know K) (new_installation environ PreviewCompose o image) (fun s w => know (fresh (Project s)) w /\ new_record image s) Inv.
Proof.
  intros Hd Hi Ht. unfold new_installation. apply spec_bind with (fun b => know (unoccupied (lab.Fields b))); [apply spec_orelse, list_volumes_spec|].
  intros b. eapply spec_bind; [apply newProject_spec | intros project; cbv beta]. apply spec_pure. intros Hp.
  apply quiet_then; [always | intros ?; cbv beta]. skip. rewrite Hd. by apply prepare_spec.
Qed.
Definition found_ok (found : option installation) (w : world) : Prop :=
  match found with Some s => know (agrees s) w /\ valid s = true | None => know trivial w end.
Lemma prepared_fresh s w : Phase s = "prepared"%string -> know (agrees s) w -> know (fresh (Project s)) w.
Proof.
  intros Hp. apply know_mono. intros p o Ha ->. destruct o as [i|]; [|done]. destruct (Ha eq_refl i eq_refl) as [[E _]|[E _]]; by rewrite E in Hp.
Qed.
(** The rest of an installation, once the record is there. *)
Lemma install_rest dir s image text : at_ dir = d -> new_record image s ->
  spec (know (fresh (Project s))) (initialize environ dir s image false ;!
    saveInstallation d (with_phase s (Image s) (PreviousImage s) (PendingImage s) "ready") false ;! print text) (fun _ => Inv) Inv.
Proof.
  intros Hd (Hv & Hp & Hi). eapply spec_bind; [apply initialize_spec; intros p o; apply fresh_runs | intros ?; cbv beta].
  eapply spec_bind; [apply save_spec | intros ?; cbv beta].
  - apply valid_iff in Hv as []. apply valid_iff. constructor; cbn; auto. rewrite <- wf_upgrading0, Hp. done.
  - intros p o Hf. by apply fresh_agrees.
  - eapply spec_conseq; [apply (quiet_end d (fresh (Project s))); solve [always] | by intros w [] | done | done].
Qed.
Lemma install_spec o found arch : at_ (directory o) = d -> totp o = "on"%string \/ totp o = "off"%string ->
  spec (found_ok found) (install environ DefaultImage PreviewCompose o found arch) (fun _ => Inv) Inv.
Proof.
  intros Hd Ht. unfold install. destruct found as [s|]; cbn [found_ok].
  - apply spec_pure. intros Hv.
    apply spec_bind with (fun _ w => know (agrees s) w /\ Phase s = "prepared"%string).
    { apply quiet_value; [always|]. apply yields_bind with (fun _ => Phase s = "prepared"%string); [|intros ? Hs; by intros ? ? ? _].
      intros w i u Ha. apply yields_check in Ha. by apply String.eqb_eq. }
    intros ?. apply spec_pure. intros Hp. apply spec_conseq with (P' := know (fresh (Project s))) (Q' := fun _ => Inv) (X' := Inv); [|intros w; by apply prepared_fresh | done | done].
    apply bind_ret. skip. apply bind_ret. rewrite Hd. by apply install_rest.
  - skip. apply spec_bind with (fun i w => know trivial w /\ imagePattern i = true); [apply quiet_value; [apply always_lift | apply selected_yields]|].
    intros image. apply spec_pure. intros Hi. skip. eapply spec_bind; [by apply new_installation_spec | intros s; cbv beta].
    apply spec_pure. intros Hn. rewrite Hd. by apply install_rest.
Qed.

Lemma upgrade_command o s arch : at_ (directory o) = d -> valid s = true -> spec (know (agrees s)) (upgrade environ DefaultImage o s arch) (fun _ => Inv) Inv.
Proof.
  intros Hd Hv. unfold upgrade.
  apply spec_bind with (fun _ w => know (agrees s) w /\ Phase s <> "prepared"%string).
  { apply quiet_value; [solve [always]|]. intros w i u Ha. apply yields_check in Ha. by apply negb_true_iff, String.eqb_neq in Ha. }
  intros ?. apply spec_pure. intros Hnp.
  apply spec_bind with (fun i w => know (agrees s) w /\ imagePattern i = true); [apply quiet_value; [apply always_lift | apply selected_yields]|].
  intros image. apply spec_pure. intros Hi.
  apply spec_bind with (fun _ w => know (agrees s) w /\ (PendingImage s = "" \/ image = PendingImage s)%string).
  { apply quiet_value; [solve [always]|]. intros w i u Ha. apply yields_check in Ha. apply orb_true_iff in Ha as [E|E]; apply String.eqb_eq in E; auto. }
  intros ?. apply spec_pure. intros Hpend. skip. apply quiet_then; [solve [always] | intros ?; cbv beta].
  apply spec_bind with (fun _ => know (agrees s)).
  { case_if as E; [|by apply spec_ret]. skip. by apply backup_spec. }
  intros ?. cbv zeta. set (s1 := with_phase s (Image s) (PreviousImage s) image "upgrading"). rewrite Hd.
  apply valid_iff in Hv as Hw. destruct Hw. pose proof (image_not_empty image Hi) as Hne.
  assert (valid s1 = true) as Hv1 by (apply valid_iff; constructor; cbn; auto; by split).
  eapply spec_bind; [apply save_spec; [exact Hv1|] | intros ?; cbv beta].
  { intros p o' Ha Hp j Hj. right. split; [done|]. cbn in *. destruct (Ha Hp j Hj) as [[_ E]|[Eu [E|E]]]; [by left | by left|].
    right. destruct Hpend as [Hpend| ->]; [|done]. by apply wf_upgrading0 in Eu. }
  eapply spec_bind; [eapply spec_conseq; [apply (upgrade_spec environ d (directory o) s1 image Hv1 eq_refl eq_refl) | by intros w [[]] | by intros ?? Hk; exact Hk | done] | intros ?; cbv beta].
  eapply spec_bind; [apply save_spec | intros ?; cbv beta].
  - apply valid_iff. constructor; cbn; auto. done.
  - intros p o' Ho Hp j Hj. left. split; [done|]. cbn in *. rewrite (Ho Hp) in Hj. by injection Hj.
  - eapply spec_conseq; [apply (quiet_end d (fun p o => p = Project s1 -> o = Some image)); solve [always] | by intros w [] | done | done].
Qed.
Lemma ready_runs s p o : Phase s = "ready"%string -> agrees s p o -> runs s (Image s) p o.
Proof. intros Hr Ha Hp i Hi. destruct (Ha Hp i Hi) as [[_ E]|[E _]]; [done|]. by rewrite Hr in E. Qed.
Lemma rotate_spec dir s c : Phase s = "ready"%string -> c ∈ key_commands -> spec (know (agrees s)) (rotateKeys environ report_into dir s c) (fun _ => Inv) Inv.
Proof.
  intros Hr Hc. unfold rotateKeys. skip. case_if as E; [apply quiet_end; always|]. skip. destruct (premature _ _ _); [apply spec_fail; by intros ? []|].
  skip. skip. apply quiet_then; [solve [always] | intros ?; cbv beta].
  apply quiet_then; [unfold compose; always | intros ?; cbv beta]. skip.
  apply quiet_then; [apply always_orelse, (always_step (harmless := calm_command)) | intros ?; cbv beta].
  { unfold key_commands in Hc. repeat (apply elem_of_cons in Hc as [->|Hc]; [done|]). by apply elem_of_nil in Hc. }
  apply spec_bind with (fun _ => know (agrees s)); [apply starting; [done..|]; intros p o; by apply ready_runs|]. intros ?. apply quiet_end. always.
Qed.
Lemma manage_spec o s arch : at_ (directory o) = d -> valid s = true ->
  spec (know (agrees s)) (manage environ report_into DefaultImage Version o s arch) (fun _ => Inv) Inv.
Proof.
  intros Hd Hv. unfold manage. case_if as E1; [apply quiet_end; apply (always_status d)|]. case_if as E2; [apply quiet_end; always|].
  case_if as E3; [apply spec_fail; by intros ? []|]. destruct (String.eqb_spec (command o) "upgrade") as [Eu|Eu].
  - rewrite Eu. cbn. by apply upgrade_command.
  - assert (Phase s = "ready"%string) as Hr by (by apply andb_false_iff in E3 as [E|E]; [|apply negb_false_iff, String.eqb_eq in E]).
    case_bool_decide as E4; [by apply rotate_spec|]. case_if as E5; [skip; by apply to_Inv, backup_spec|].
    case_if as E6.
    { unfold bring_up. skip. apply quiet_then; [solve [always] | intros ?; cbv beta]. apply to_Inv, start_spec. intros p x. by apply ready_runs. }
    case_if as E7; [apply quiet_end; always|]. case_if as E8; [apply quiet_end; apply (always_printToken d)|]. case_if as E9; [apply quiet_end; apply (always_setup d)|].
    apply spec_fail; by intros ? [].
Qed.

Lemma load_yields p : yields (loadInstallation p) (fun s => valid s = true).
Proof.
  unfold loadInstallation. eapply yields_bind; [apply yields_any|]. intros c _. unfold parse_record. destruct (decode_strict c) as [s|]; [|apply yields_fail].
  destruct (valid s) eqn:Ev; [by apply yields_ret | apply yields_fail].
Qed.
Lemma verifyBackup_yields p : yields (verifyBackup p) (fun r => valid (bInstallation r) = true).
Proof.
  unfold verifyBackup. do 2 (eapply yields_bind; [apply yields_any | intros ? _; cbv beta]). destruct (decode_strict _) as [r|]; [|apply yields_fail].
  eapply yields_bind; [apply yields_any | intros ? _; cbv beta]. eapply yields_bind; [apply yields_orelse, load_yields | intros s Hs; cbv beta].
  eapply yields_bind; [apply yields_check | intros ? E; cbv beta]. apply bool_decide_eq_true in E as ->.
  do 4 (eapply yields_bind; [apply yields_any | intros ? _; cbv beta]). by apply yields_ret.
Qed.
Lemma restore_spec o : at_ (directory o) = d -> spec Inv (restore environ o) (fun _ => Inv) Inv.
Proof.
  intros Hd. apply from_Inv. unfold restore. rewrite Hd.
  apply spec_bind with (fun r w => know trivial w /\ valid (bInstallation r) = true); [apply quiet_value; [solve [always] | apply verifyBackup_yields]|].
  intros r. apply spec_pure. intros Hv. do 10 skip.
  eapply spec_bind; [apply list_volumes_spec | intros b; cbv beta]. eapply spec_bind; [apply newProject_spec | intros project; cbv beta]. apply spec_pure. intros Hp.
  cbv zeta. set (s := with_project (bInstallation r) project). do 3 skip.
  apply quiet_then; [|intros ?; cbv beta].
  { apply always_each; [apply _|]. intros name Hn. case_if as E; [always|]. unfold copy_file. always.
    apply calm_writeExclusive. intros Er. apply (under_record d) in Er; [|done]. by rewrite Er in E. }
  eapply spec_bind; [apply (save_fresh_spec d (fresh project) s) | intros ?; cbv beta].
  - apply valid_iff in Hv as []. apply valid_iff. constructor; cbn; auto.
  - intros p x. apply (fresh_agrees s).
  - apply quiet_end. always.
Qed.
Lemma find_spec o : at_ (directory o) = d -> spec Inv (find_installation o) (fun f w => found_ok f w) Inv.
Proof.
  intros Hd. unfold find_installation. rewrite Hd. apply spec_bind with (fun r w => match r with Ok s => found_ok (Some s) w | Err _ => know trivial w end).
  - intros w i Hi. unfold attempt. pose proof (load_yields d w i) as Hv. revert Hv. unfold loadInstallation, bind.
    destruct (readPrivate_same (record_file d) 16384 w i) as [E Hc]. destruct (readPrivate (record_file d) 16384 w i) as [[w' i'] [c|e]]; cbn in E, Hc; subst.
    2: { intros _. destruct e; [by apply Inv_know..|done]. }
    destruct (Hc c eq_refl) as (perm & b & Hf). destruct (parse_record c) as [s|] eqn:Ep; [|intros _; by apply Inv_know]. intros Hv. cbn. split; [|by apply Hv].
    apply know_agrees. split; [done|]. apply (proj1 Hi c) with (n := String.length c); [exists perm, b; unfold candidates; rewrite Hf; left|]. by rewrite str_take_all.
  - intros [s|e].
    + apply spec_pure. intros Hv. skip. apply spec_ret. by intros w Hw.
    + destruct e; try (apply spec_fail; by intros ? []). skip. skip. by apply spec_ret.
Qed.
Lemma execute_spec o : at_ (directory o) = d -> totp o = "on"%string \/ totp o = "off"%string ->
  spec Inv (execute environ report_into DefaultImage Version PreviewCompose o) (fun _ => Inv) Inv.
Proof.
  intros Hd Ht. unfold execute. rewrite Hd. case_if as E; [by apply restore_spec|]. apply from_Inv.
  apply quiet_then; [solve [always] | intros info; cbv beta].
  apply quiet_then; [destruct info as [|[]]; always; apply always_lift | intros ?; cbv beta]. skip. skip.
  eapply spec_bind; [eapply spec_conseq; [by apply find_spec | by intros w [] | by intros ?? Hf; exact Hf | done] | intros found; cbv beta].
  apply spec_bind with (fun _ => found_ok found).
  { destruct found as [s|]; cbn [found_ok]; [|apply quietly_know; eauto with always typeclass_instances]. apply spec_pure. intros Hv.
    eapply spec_conseq; [apply (quietly_know d _ (agrees s)); solve [always] | done | by intros | done]. }
  intros arch. case_if as E2; [by apply install_spec|]. destruct found as [s|]; cbn [found_ok]; [|apply spec_fail; by intros ? []].
  apply spec_pure. intros Hv. by apply manage_spec.
Qed.

Lemma power_Inv w f : Inv w -> power_loss w f -> Inv (mkWorld f ∅ (trace w)).
Proof.
  intros [Hr Hs] Hp. split; [|done]. intros c (perm & b & Hin). unfold candidates in Hin. cbn in Hin. rewrite lookup_empty in Hin.
  apply list_elem_of_singleton in Hin. destruct (Hp (record_file d)) as (x & Hx & Hrem). rewrite <- Hin in Hrem. unfold remains in Hrem.
  destruct x as [[|perm' c' []|]|]; try done; [simplify_eq; apply Hr; by exists perm', true|].
  destruct Hrem as (n & b' & [= -> -> ->]). apply record_ok_take, Hr. by exists perm', false.
Qed.
End flows.

(** ** Histories *)

Lemma parse_loop_totp Abs o seen args o' : totp o = "on"%string \/ totp o = "off"%string -> parse_loop Abs o seen args = Ok o' -> totp o' = "on"%string \/ totp o' = "off"%string.
Proof.
  remember (List.length args) as n eqn:En. assert (List.length args <= n)%nat as Hn by lia. clear En. revert o seen args Hn. induction n as [|n IH]; intros o seen [|name rest] Hn Ht; cbn [parse_loop List.length] in *; try lia; try (by intros [= <-]).
  case_bool_decide; [done|]. case_if as E; [by apply IH; [lia|]|]. destruct rest as [|v rest]; [done|]. cbn in Hn.
  destruct (option_value Abs o name v) as [o1|] eqn:Eo; [|done]. apply IH; [lia|]. revert Eo. unfold option_value.
  destruct (String.eqb name "--backup-directory"); [case_if as E1; [done|]; destruct (Abs v); [by intros [= <-] | done]|].
  destruct (String.eqb name "--directory"); [case_if as E1; [done|]; by intros [= <-]|].
  destruct (String.eqb name "--image"); [case_if as E1; [done|]; case_if as E2; [done|]; by intros [= <-]|].
  destruct (String.eqb name "--totp"); [|done]. case_if as E1; [done|]. intros [= <-]. cbn. apply orb_false_iff in E1 as [_ E1].
  apply andb_false_iff in E1 as [E1|E1]; apply negb_false_iff, String.eqb_eq in E1; auto.
Qed.
Lemma parse_totp Abs args dir o : parse Abs args dir = Ok o -> totp o = "on"%string \/ totp o = "off"%string.
Proof.
  unfold parse. destruct args as [|c rest]; [done|]. case_if as E; [done|]. destruct (parse_loop _ _ _ _) as [o1|] eqn:El; [|done].
  apply parse_loop_totp in El; [|by left]. case_if as E1; [done|]. case_if as E2; [done|]. destruct (Abs _); [|done]. by intros [= <-].
Qed.

Section histories.
Context `{DockerHost} (environ : list string) `{!VolumesPersist}.
Context `{Sha256} `{!Sha256Laws} `{Codec installation} `{!RecordLaws} `{Codec serviceStatus} `{Codec (list serviceStatus)} `{Codec (list imageInfo)}.
Context `{Codec backupRecord} `{Codec (list volumeInfo)} `{Codec localcontrol.RotationReport} `{Codec statusReport} `{Codec recoveryarchive.Manifest} `{recoveryarchive.Tar}.
Context (report_into : string -> localcontrol.RotationReport -> localcontrol.RotationReport * bool) (DefaultImage Version PreviewCompose : string).
Context (Abs : string -> option string) (config_dir : string).

(** The commands for one directory, one after the other, with whatever befalls
    them, and losses of power; before them the host is arbitrary. *)
Inductive reachable (dir : string) : world -> Prop :=
  | reach_start f l : reachable dir (mkWorld f l [])
  | reach_run w args o i : reachable dir w -> parse Abs args config_dir = Ok o -> directory o = dir ->
      reachable dir (fst (fst (execute environ report_into DefaultImage Version PreviewCompose o w i)))
  | reach_power w f : reachable dir w -> power_loss w f -> reachable dir (mkWorld f ∅ (trace w)).

Lemma reachable_Inv dir w : reachable dir w -> Inv (at_ dir) w.
Proof.
  induction 1 as [f l|w args o i Hw IH Hp Hd|w f Hw IH Hf].
  - split; [|done]. by intros c _ n s _ i.
  - subst dir. pose proof (execute_spec environ report_into DefaultImage Version PreviewCompose (at_ (directory o)) o eq_refl (parse_totp _ _ _ _ Hp) w i IH) as He.
    by destruct (execute environ report_into DefaultImage Version PreviewCompose o w i) as [[w' i'] [a|e]].
  - by apply power_Inv.
Qed.
Lemma starts_ok_split later env args earlier : starts_ok (later ++ Docker env args :: earlier) ->
  forall p i, starts args = Some p -> migrated p earlier = Some i -> runtime_image env = i.
Proof. induction later as [|a later IH]; cbn; [by intros [Hs _]|]. intros [_ Hs]. by apply IH. Qed.

(** C19: in every history of commands of the installer on a directory
    (installing, starting, upgrading, rotating keys, backing up, restoring),
    each with faults of any call, failing commands of Docker and kills at any
    point, and with losses of power between them that take back what was not
    synchronised: once the migration of a project to an image has been
    commanded, every later command that starts the application of the project
    runs this image, until the next migration. *)
Theorem starts_run_the_migrated_image dir w later env args earlier p i : reachable dir w -> trace w = later ++ Docker env args :: earlier ->
  starts args = Some p -> migrated p earlier = Some i -> runtime_image env = i.
Proof. intros Hr Ht. pose proof (reachable_Inv dir w Hr) as [_ Hs]. rewrite Ht in Hs. by eapply starts_ok_split. Qed.
End histories.
End history.
