(* ===== verification/InstallerFiles.v ===== *)
(** * Files that the installer leaves as they are

    Module [kept]: whatever a command of the installer does and wherever it
    ends, it changes no file that is there but the record of its installation:
    the secrets, the Compose file, older backups and foreign files stay. *)

From S2P Require Import Prelude GoStd Control InstallPlan RecoveryArchive Rotation Coordinator AuthHTTP HostFiles InstallerState InstallerDocker Installer InstallerSpecs InstallerRecord.
From stdpp Require Import base list gmap strings pretty.
From Stdlib Require Import ZArith Lia Ascii String.

Module kept.
Import host installer docker wrctl quiet records.
Local Open Scope Z_scope.
Local Open Scope host_scope.

Section kept.
Context (d : path).
Definition kept (w w' : world) : Prop := forall q n, q <> record_file d -> fs w !! q = Some n -> fs w' !! q = Some n.
#[global] Instance kept_preorder : PreOrder kept.
Proof. split; [by intros w q n|]. intros w1 w2 w3 H1 H2 q n Hq Hn. by apply H2, H1. Qed.
(** A file that was not there may change. *)
Definition kept_but (t : path) (w w' : world) : Prop := forall q n, q <> record_file d -> q <> t -> fs w !! q = Some n -> fs w' !! q = Some n.
#[global] Instance kept_but_preorder t : PreOrder (kept_but t).
Proof. split; [by intros w q n|]. intros w1 w2 w3 H1 H2 q n Hq Ht Hn. by apply H2, H1. Qed.

Lemma enter_lookup p n w q : fs (enter p n w) !! q = if decide (p = q) then n else fs w !! q.
Proof. unfold enter. cbn. case_decide; [subst; by rewrite lookup_partial_alter, decide_True | by rewrite lookup_partial_alter_ne]. Qed.
Lemma kept_but_rewrite p f b w : kept_but p w (rewrite_file p f b w).
Proof. intros q n _ Hp Hq. unfold rewrite_file. repeat case_match; try done. cbn. by rewrite lookup_insert_ne. Qed.
Lemma kept_but_enter p n w : kept_but p w (enter p n w).
Proof. intros q x _ Hp Hq. rewrite enter_lookup. by rewrite decide_False. Qed.
Lemma kept_but_write p b : always (kept_but p) (write p b).
Proof. apply always_call; intros; apply kept_but_rewrite. Qed.
Lemma kept_but_fsync p : always (kept_but p) (fsync p).
Proof. apply always_call; [reflexivity|]. intros; apply kept_but_rewrite. Qed.
Lemma kept_but_syncDirectory t p : always (kept_but t) (syncDirectory p).
Proof. unfold syncDirectory, fsync_dir. always. apply always_call; [reflexivity|]. by intros b z w q n. Qed.
Lemma kept_but_remove t : always (kept_but t) (remove t).
Proof. apply always_call; [reflexivity|]. intros b z w. destruct (fs w !! t) as [[]|]; try reflexivity. apply kept_but_enter. Qed.
Lemma kept_but_rename t : always (kept_but t) (rename t (record_file d)).
Proof.
  apply always_call; [reflexivity|]. intros b z w. assert (forall n, kept_but t w (enter (record_file d) n (enter t None w))) as He.
  { intros n q x Hr Ht Hq. rewrite !enter_lookup. by rewrite !decide_False. }
  destruct (fs w !! t), (fs w !! record_file d) as [[]|]; cbn; try reflexivity; apply He.
Qed.
#[local] Hint Resolve kept_but_write kept_but_fsync kept_but_syncDirectory kept_but_remove kept_but_rename : always.
(** What was made anew was not there. *)
Lemma kept_from t w w' : fs w !! t = None -> kept_but t w w' -> kept w w'.
Proof. intros Hn Hk q n Hq Hs. apply Hk; [done| |done]. by intros ->; rewrite Hn in Hs. Qed.
Lemma kept_write p b : always kept (writeExclusive p b).
Proof.
  intros w i. destruct (fs w !! p) as [n|] eqn:E.
  - unfold writeExclusive, bind, orelse, create, call. rewrite E. destruct i as [|[] i]; reflexivity.
  - apply (kept_from p); [done|]. revert w i E. assert (always (kept_but p) (writeExclusive p b)) as Hk; [|intros w i _; apply Hk].
    unfold writeExclusive. always. apply always_call; [reflexivity|]. intros ? ? u. destruct (fs u !! p); [reflexivity|].
    case_if as Ed; [|reflexivity]. apply kept_but_enter.
Qed.
#[global] Instance kept_frame : Frame kept (fun _ => True) (fun _ => True).
Proof.
  split.
  - apply _.
  - by intros t w q n.
  - by intros env args w _ q n.
  - intros p n w _ Hn. apply (kept_from p); [done|]. apply kept_but_enter.
  - intros p b _. apply kept_write.
Qed.
#[global] Instance kept_milder : Milder d (fun _ => True) (fun _ => True).
Proof. done. Qed.
Lemma kept_replace b : always kept (replacePrivate (record_file d) b).
Proof.
  unfold replacePrivate. apply always_bind; [apply _|always|]. intros ?. unfold bind at 1. intros w i.
  assert (match CreateTemp (parent (record_file d)) ".wrctl-write-" w i with
          | (w', _, Ok t) => fs w !! t = None /\ kept_but t w w' | (w', _, Err _) => w' = w end) as Ht.
  { unfold CreateTemp, call. destruct i as [|[] i]; try done.
    all: cbv zeta; match goal with |- context [fs ?u !! ?p] => destruct (fs u !! p) eqn:E end; [done|]; case_if as Ed; [|done]; (split; [done | apply kept_but_enter]). }
  unfold orelse at 1. destruct (CreateTemp _ _ w i) as [[w' i'] [t|e]]; [|subst; by destruct e]. destruct Ht as [Hn Hk].
  apply (kept_from t); [done|]. etrans; [exact Hk|]. match goal with |- kept_but t w' (fst (fst (?m w' i'))) => assert (always (kept_but t) m) as Hm; [always|exact (Hm w' i')] end.
Qed.
End kept.

Section commands.
Context `{DockerHost} (environ : list string).
Context `{Sha256} `{Codec installation} `{Codec serviceStatus} `{Codec (list serviceStatus)} `{Codec (list imageInfo)}.
Context `{Codec backupRecord} `{Codec (list volumeInfo)} `{Codec localcontrol.RotationReport} `{Codec statusReport} `{Codec recoveryarchive.Manifest} `{recoveryarchive.Tar}.
Context (report_into : string -> localcontrol.RotationReport -> localcontrol.RotationReport * bool) (DefaultImage Version PreviewCompose : string).
Context (d : path).
Abbreviation keeps := (always (kept d)).
#[local] Hint Resolve kept_write kept_replace : always.
#[local] Hint Extern 2 (always _ _) => first
  [ apply (always_volumeSet d) | apply (always_stopped d) | apply (always_list_volumes d) | apply (always_create_volume d) | apply (always_archive d)
  | apply (always_keyReport d) | apply (always_await d) | apply (always_printToken d) | apply (always_setup d) | apply (always_status d)
  | apply (always_verifyBackup d) ] : always.
Lemma keeps_step dir s image label args : keeps (docker.step environ dir s image label args).
Proof. by apply (always_step (harmless := fun _ => True)). Qed.
Lemma keeps_waitReady dir s image t : keeps (docker.waitReady environ dir s image t).
Proof. by apply (always_waitReady (harmless := fun _ => True)). Qed.
Lemma keeps_docker image args : keeps (docker.docker environ image args).
Proof. by apply (always_docker (harmless := fun _ => True)). Qed.
Lemma keeps_checkDocker : keeps (checkDocker environ).
Proof. by apply (always_checkDocker (harmless := fun _ => True)). Qed.
Lemma keeps_verifyImage image arch pull : keeps (verifyImage environ image arch pull).
Proof. by apply (always_verifyImage (harmless := fun _ => True)). Qed.
Lemma keeps_list_services dir s image : keeps (list_services environ dir s image).
Proof. by apply (always_list_services (harmless := fun _ => True)). Qed.
Lemma keeps_lock p : keeps (lockDirectory p).
Proof. by apply (always_lock (safe := fun _ => True)). Qed.
Lemma keeps_save s b : keeps (saveInstallation d s b).
Proof. unfold saveInstallation. always. Qed.
#[local] Hint Resolve keeps_step keeps_waitReady keeps_docker keeps_lock keeps_save keeps_checkDocker keeps_verifyImage keeps_list_services : always.
Lemma keeps_start dir s image : keeps (start environ dir s image).
Proof. unfold start, compose. always. Qed.
#[local] Hint Resolve keeps_start : always.
Lemma keeps_initialize dir s image b : keeps (initialize environ dir s image b).
Proof. unfold initialize. always. Qed.
Lemma keeps_copies from to names copied : keeps (copy_files from to names copied).
Proof. revert copied. induction names as [|n names IH]; intros copied; cbn [copy_files]; unfold copy_file; always. Qed.
#[local] Hint Resolve keeps_initialize keeps_copies : always.
Lemma keeps_backup dir s dest helper arch : keeps (backup environ dir s dest helper arch).
Proof. unfold backup. always. Qed.
#[local] Hint Resolve keeps_backup : always.
Lemma keeps_restore o : at_ (directory o) = d -> keeps (restore environ o).
Proof. intros Hd. unfold restore, copy_file. rewrite Hd. always. Qed.
Lemma keeps_prepare image t project compose : keeps (prepareFiles d image t project compose).
Proof. unfold prepareFiles, write_secret. always. Qed.
#[local] Hint Resolve keeps_prepare : always.
Lemma keeps_install o found arch : at_ (directory o) = d -> keeps (install environ DefaultImage PreviewCompose o found arch).
Proof. intros Hd. unfold install, new_installation, lift. rewrite Hd. always. Qed.
Lemma keeps_upgrade o s arch : at_ (directory o) = d -> keeps (upgrade environ DefaultImage o s arch).
Proof. intros Hd. unfold upgrade, lift. rewrite Hd. always. Qed.
Lemma keeps_rotate dir s c : keeps (rotateKeys environ report_into dir s c).
Proof. unfold rotateKeys, compose. always. Qed.
#[local] Hint Resolve keeps_rotate keeps_upgrade : always.
Lemma keeps_manage o s arch : at_ (directory o) = d -> keeps (manage environ report_into DefaultImage Version o s arch).
Proof. intros Hd. unfold manage, bring_up. always. Qed.
#[local] Hint Resolve keeps_manage keeps_install : always.
Lemma keeps_execute o : at_ (directory o) = d -> keeps (execute environ report_into DefaultImage Version PreviewCompose o).
Proof.
  intros Hd. unfold execute, find_installation, lift. rewrite Hd. destruct (String.eqb (command o) "restore"); [by apply keeps_restore|]. always.
Qed.
End commands.

Section theorem.
Context `{DockerHost} (environ : list string).
Context `{Sha256} `{Codec installation} `{Codec serviceStatus} `{Codec (list serviceStatus)} `{Codec (list imageInfo)}.
Context `{Codec backupRecord} `{Codec (list volumeInfo)} `{Codec localcontrol.RotationReport} `{Codec statusReport} `{Codec recoveryarchive.Manifest} `{recoveryarchive.Tar}.
Context (report_into : string -> localcontrol.RotationReport -> localcontrol.RotationReport * bool) (DefaultImage Version PreviewCompose : string).
(** C21: whatever a command of the installer is given, whichever of its calls
    fail and wherever it is killed, every file and directory that was there is
    there afterwards as it was, except the record of the installation: secrets,
    the Compose file, backups and foreign files are neither replaced nor
    removed. *)
Theorem files_are_kept o w i q n : q <> record_file (at_ (directory o)) -> fs w !! q = Some n ->
  fs (fst (fst (execute environ report_into DefaultImage Version PreviewCompose o w i))) !! q = Some n.
Proof. intros Hq Hn. by apply (keeps_execute environ report_into DefaultImage Version PreviewCompose (at_ (directory o)) o eq_refl w i). Qed.
End theorem.
End kept.
