(* ===== verification/InstallerRetry.v ===== *)
(** * An interrupted upgrade is completed by retrying

    Module [retry]: on a healthy host, the command [upgrade] finishes an upgrade
    that was interrupted anywhere after its record was written. *)

From S2P Require Import Prelude GoStd Control InstallPlan RecoveryArchive Rotation Coordinator AuthHTTP HostFiles InstallerState InstallerDocker Installer InstallerSpecs InstallerRecord InstallerProps InstallerFiles.
From stdpp Require Import base list gmap strings pretty.
From Stdlib Require Import ZArith Lia Ascii String.

Module retry.
Import host installer docker wrctl quiet records lifecycle kept.
Local Open Scope Z_scope.
Local Open Scope host_scope.

(** ** Runs without faults *)

Definition goes {A} (P : world -> Prop) (m : M A) (Q : A -> world -> Prop) : Prop := forall w, P w -> exists a w', m w [] = (w', [], Ok a) /\ Q a w'.
Lemma goes_ret {A} P (a : A) (Q : A -> world -> Prop) : (forall w, P w -> Q a w) -> goes P (ret a) Q.
Proof. intros H w Hp. exists a, w. auto. Qed.
Lemma goes_bind {A B} P (m : M A) R (k : A -> M B) Q : goes P m R -> (forall a, goes (R a) (k a) Q) -> goes P (bind m k) Q.
Proof.
  intros Hm Hk w Hp. destruct (Hm w Hp) as (a & w1 & E1 & H1). destruct (Hk a w1 H1) as (b & w2 & E2 & H2). exists b, w2. unfold bind. by rewrite E1, E2.
Qed.
Lemma goes_then {A B} P (m : M A) R (ok : A -> Prop) (k : A -> M B) Q :
  goes P m (fun a w => R w /\ ok a) -> (forall a, ok a -> goes R (k a) Q) -> goes P (bind m k) Q.
Proof. intros Hm Hk. eapply goes_bind; [exact Hm|]. intros a w [Hr Ha]. by apply Hk. Qed.
Lemma goes_bind_ret {A B} P (a : A) (k : A -> M B) Q : goes P (k a) Q -> goes P (bind (ret a) k) Q.
Proof. done. Qed.
Lemma goes_orelse {A} P (m : M A) t Q : goes P m Q -> goes P (orelse m t) Q.
Proof. intros Hm w Hp. destruct (Hm w Hp) as (a & w1 & E1 & H1). exists a, w1. unfold orelse. by rewrite E1. Qed.
Lemma goes_attempt {A} P (m : M A) Q : goes P m Q -> goes P (attempt m) (fun r w => match r with Ok a => Q a w | Err _ => False end).
Proof. intros Hm w Hp. destruct (Hm w Hp) as (a & w1 & E1 & H1). exists (Ok a), w1. unfold attempt. by rewrite E1. Qed.
Lemma goes_deferred {A} P (m : M A) c (Q : A -> world -> Prop) :
  goes P m Q -> (forall a w, Q a w -> exists r, c w [] = (w, [], r) /\ r <> Err Killed) -> goes P (deferred m c) Q.
Proof.
  intros Hm Hc w Hp. destruct (Hm w Hp) as (a & w1 & E1 & H1). destruct (Hc a w1 H1) as (r & E2 & Hr). exists a, w1. unfold deferred. rewrite E1, E2.
  by destruct r as [|[]].
Qed.
Lemma goes_check P b t : b = true -> goes P (check b t) (fun _ => P).
Proof. intros ->. by apply goes_ret. Qed.
Lemma goes_conseq {A} (P P' : world -> Prop) (m : M A) (Q Q' : A -> world -> Prop) : goes P' m Q' -> (forall w, P w -> P' w) -> (forall a w, Q' a w -> Q a w) -> goes P m Q.
Proof. intros Hm HP HQ w Hw. destruct (Hm w (HP w Hw)) as (a & w' & E & Hq). exists a, w'. auto. Qed.
Lemma goes_works P : goes P works (fun _ => P).
Proof. intros w Hp. by exists tt, w. Qed.
Lemma goes_each {A} P (f : A -> M unit) l : (forall x, x ∈ l -> goes P (f x) (fun _ => P)) -> goes P (each f l) (fun _ => P).
Proof.
  induction l as [|x l IH]; intros Hf; cbn [each]; [by apply goes_ret|]. eapply goes_bind; [apply Hf; set_solver|]. intros ?. apply IH. set_solver.
Qed.

(** The files that are there, and the last migration of a project. *)
Definition now (f : FS) (p : string) (m : option string) (w : world) : Prop := fs w = f /\ migrated p (trace w) = m.
Section steps.
Context (f : FS) (p : string) (m : option string).
Abbreviation here := (now f p m).

Lemma goes_print t : goes here (print t) (fun _ => here).
Proof. intros w [Hf Hm]. by exists tt, (did (Printed t) w). Qed.
Lemma goes_readPrivate q max perm c b : f !! q = Some (File perm c b) -> private perm = true -> len c <= max -> goes here (readPrivate q max) (fun x w => here w /\ x = c).
Proof.
  intros Hq Hp Hl w [Hf Hm]. exists c, w. split; [|done]. unfold readPrivate, lstat, reads, bind, call. rewrite Hf, Hq, Hp. cbn.
  assert ((max <? len c) = false) as -> by lia. done.
Qed.
Lemma goes_privateDirectory q create perm : f !! q = Some (Dir perm) -> private perm = true -> goes here (privateDirectory q create) (fun _ => here).
Proof.
  intros Hq Hp w [Hf Hm]. exists tt, w. split; [|done]. unfold privateDirectory, attempt, lstat, reads, bind, call. rewrite Hf, Hq. cbn. by rewrite Hp.
Qed.
Lemma goes_lock q perm c b : f !! (q ++ [lock_name]) = Some (File perm c b) -> private perm = true -> goes here (lockDirectory q) (fun _ => here).
Proof.
  intros Hq Hp w [Hf Hm]. exists tt, w. split; [|done]. unfold lockDirectory, attempt, lstat, reads, bind, call. rewrite Hf, Hq. cbn. by rewrite Hp.
Qed.

Context `{DockerHost} (environ : list string) (small : forall tr, len (reply tr) <= output_limit).
Lemma goes_docker image args : migrates args = None -> goes here (docker.docker environ image args)
  (fun b w => here w /\ exists tr, b = reply (Docker (dockerEnvironment environ image) args :: tr)).
Proof.
  intros Ha w [Hf Hm]. unfold docker.docker, call. cbv zeta. pose proof (small (Docker (dockerEnvironment environ image) args :: trace w)) as Hs.
  assert ((output_limit <? len (reply (Docker (dockerEnvironment environ image) args :: trace w))) = false) as -> by lia.
  do 2 eexists. split; [reflexivity|]. split; [|eauto]. split; [done|]. cbn. by rewrite decide_False by (by rewrite Ha).
Qed.
Lemma goes_step dir s image label args : migrates (compose_prefix dir (Project s) ++ graceful args) = None ->
  goes here (docker.step environ dir s image label args) (fun _ => here).
Proof.
  intros Ha. unfold step, compose. eapply goes_bind; [apply goes_orelse, goes_print | intros ?; cbv beta].
  eapply goes_bind; [by apply goes_orelse, goes_docker | intros ?; cbv beta]. apply goes_ret. by intros w [].
Qed.
End steps.

(** ** A healthy Docker *)

Section host.
Context `{DockerHost} (environ : list string) `{Codec serviceStatus} `{Codec (list serviceStatus)} `{Codec (list imageInfo)}.

(** A local daemon of an architecture with a recent Compose, the genuine image,
    and services that all become healthy. *)
Record healthy_docker (image arch : string) : Prop := mkHealthy {
  local_daemon : existsb remote_host environ = false;
  small_output : forall tr, len (reply tr) <= output_limit;
  local_context : forall env tr, strs.HasPrefix (http.TrimSpace (reply (Docker env ["context"; "inspect"; "--format"; endpoint_format] :: tr))) "unix://" = true;
  known_architecture : forall env tr, architecture (reply (Docker env ["info"; "--format"; "{{.OSType}}/{{.Architecture}}"] :: tr)) = Some arch;
  recent_compose : forall env tr, exists major minor, compose_version (http.TrimSpace (reply (Docker env ["compose"; "version"; "--short"] :: tr))) = Some (major, minor) /\
    (major <? 2) || ((major =? 2) && (minor <? 35)) = false;
  genuine_image : forall env tr, exists i, decode_strict (reply (Docker env ["image"; "inspect"; image] :: tr)) = Some [i] /\ image_matches image arch i = true;
  healthy_services : forall env dir project tr, exists l,
    decodeServices (reply (Docker env (compose_prefix dir project ++ ["ps"; "--all"; "--format"; "json"]) :: tr)) = Ok l /\ servicesReady l 0 = Ok true
}.
Context (image arch : string) (Hh : healthy_docker image arch) (f : FS) (p : string).
Abbreviation here m := (now f p m).

Lemma goes_checkDocker m : goes (here m) (checkDocker environ) (fun a w => here m w /\ a = arch).
Proof.
  destruct Hh. unfold checkDocker. eapply goes_bind; [apply goes_check; by rewrite local_daemon0 | intros ?; cbv beta].
  eapply goes_then; [by apply goes_orelse, goes_docker | intros b1 [tr1 ->]].
  eapply goes_bind; [by apply goes_check, local_context0 | intros ?; cbv beta].
  eapply goes_then; [by apply goes_orelse, goes_docker | intros b2 [tr2 ->]]. rewrite known_architecture0.
  eapply goes_then; [by apply goes_orelse, goes_docker | intros b3 [tr3 ->]].
  destruct (recent_compose0 (dockerEnvironment environ "") tr3) as (major & minor & -> & E). rewrite E. by apply goes_ret.
Qed.
Lemma goes_verifyImage m : imagePattern image = true -> goes (here m) (verifyImage environ image arch true) (fun _ => here m).
Proof.
  intros Hi. destruct Hh. unfold verifyImage. eapply goes_bind; [by apply goes_check | intros ?; cbv beta].
  eapply goes_bind; [apply goes_orelse, goes_print | intros ?; cbv beta]. apply goes_bind_ret.
  apply goes_bind with (R := fun r w => match r with Ok b => here m w /\ exists tr, b = reply (Docker (dockerEnvironment environ image) ["image"; "inspect"; image] :: tr) | Err _ => False end).
  { eapply goes_bind; [by apply goes_orelse, goes_docker | intros ?; cbv beta]. apply goes_attempt. eapply goes_conseq; [by apply goes_docker | by intros w [] | by intros b w Hb; exact Hb]. }
  intros [b|e]; [|by intros w []]. cbv beta iota. intros w [Hw [tr ->]]. revert w Hw. destruct (genuine_image0 (dockerEnvironment environ image) tr) as (i & -> & E). by apply goes_check.
Qed.
Lemma goes_waitReady m dir s img interval : goes (here m) (waitReady environ dir s img interval) (fun _ => here m).
Proof.
  unfold waitReady, most_polls. generalize (S (Z.to_nat (coordinatorStartTimeout / interval))). intros n. cbn [waitReady_loop].
  eapply goes_bind; [apply goes_works | intros ?; cbv beta]. change (coordinatorStartTimeout <=? 0) with false. cbv iota.
  eapply goes_then with (ok := fun l => servicesReady l 0 = Ok true).
  { unfold list_services, compose. change (graceful ["ps"; "--all"; "--format"; "json"]) with ["ps"; "--all"; "--format"; "json"]. eapply goes_then; [apply goes_docker; [apply Hh | reflexivity] | intros b [tr ->]].
    destruct (healthy_services _ _ Hh (dockerEnvironment environ img) dir (Project s) tr) as (l & El & Hl). rewrite El. by apply goes_ret. }
  intros l Hl. eapply goes_then with (ok := fun t => t = 0); [intros w Hw; by exists 0, w|]. intros t ->. change (0 + Z.max 0 0) with 0. cbv zeta. rewrite Hl. by apply goes_ret.
Qed.
Lemma goes_start m dir s : goes (here m) (start environ dir s image) (fun _ => here m).
Proof.
  unfold start. eapply goes_bind with (R := fun r w => match r with Ok _ => here m w | Err _ => False end); [apply (goes_attempt _ _ (fun _ => here m))|].
  - eapply goes_bind; [apply goes_step; [apply Hh | reflexivity] | intros ?; cbv beta].
    eapply goes_bind; [apply goes_print | intros ?; cbv beta]. apply goes_waitReady.
  - intros [u|e]; [by apply goes_ret | by intros w []].
Qed.
Lemma goes_initialize m dir s : p = Project s -> goes (here m) (initialize environ dir s image true) (fun _ => here (Some image)).
Proof.
  intros Hp. unfold initialize. cbn [negb]. do 2 (eapply goes_bind; [apply goes_step; [apply Hh | reflexivity] | intros ?; cbv beta]).
  eapply goes_bind with (R := fun _ => here (Some image)); [|intros ?; cbv beta].
  { unfold step. eapply goes_bind; [apply goes_orelse, goes_print | intros ?; cbv beta]. eapply goes_bind with (R := fun _ => here (Some image)); [|intros ?; by apply goes_ret].
    apply goes_orelse. intros w [Hf Hm]. unfold compose, docker.docker, call. cbv zeta.
    pose proof (small_output _ _ Hh (Docker (dockerEnvironment environ image) (compose_prefix dir (Project s) ++ graceful (run_job ["initialize"; "upgrade"])) :: trace w)) as Hs.
    apply Z.ltb_ge in Hs. rewrite Hs. do 2 eexists. split; [reflexivity|]. split; [done|]. subst p. cbn [did trace migrated]. rewrite decide_True by done. by rewrite runtime_image_env. }
  do 2 (eapply goes_bind; [apply goes_step; [apply Hh | reflexivity] | intros ?; cbv beta]). apply goes_start.
Qed.
End host.

(** ** The files *)

Definition private_file (f : FS) (q : path) (max : Z) (ok : string -> Prop) : Prop :=
  exists perm c b, f !! q = Some (File perm c b) /\ private perm = true /\ len c <= max /\ ok c.
Definition private_dir (f : FS) (q : path) : Prop := exists perm, f !! q = Some (Dir perm) /\ private perm = true.
Definition temp (d : path) : path := d ++ [".wrctl-write-" +:+ pretty 0].
(** The directory of an installation as its commands left it; the name that the
    next temporary file gets is free. *)
Record settled `{Sha256} `{Codec installation} (d : path) (s : installation) (f : FS) : Prop := mkSettled {
  set_dir : private_dir f d; set_lock : private_file f (d ++ [lock_name]) 65536 (fun _ => True);
  set_record : private_file f (record_file d) 16384 (fun c => c = encoded s);
  set_compose : private_file f (compose_file d) 65536 (fun c => digest c = ComposeSHA256 s);
  set_secrets : private_dir f (secrets_dir d);
  set_secret : forall name, name ∈ secret_names -> private_file f (secrets_dir d ++ [name]) 64 (fun c => secretPattern c = true);
  set_temp : f !! temp d = None
}.

Section files.
Context `{Sha256} `{Codec installation} `{!RecordLaws} (d : path).
Definition recorded (s : installation) (f : FS) : FS := <[record_file d := File 384 (encoded s) true]> f.

Lemma settled_recorded s s' f : valid s' = true -> ComposeSHA256 s' = ComposeSHA256 s -> settled d s f -> settled d s' (recorded s' f).
Proof.
  intros Hv Hc [Hd Hl Hr Hco Hs Hse Ht].
  assert (forall q, q <> record_file d -> recorded s' f !! q = f !! q) as Hq by (intros q Hq; by apply lookup_insert_ne).
  assert (d <> record_file d) as Hne by (intros E; apply (f_equal List.length) in E; unfold record_file in E; rewrite length_app in E; cbn in E; lia).
  assert (forall q max ok, q <> record_file d -> private_file f q max ok -> private_file (recorded s' f) q max ok) as Hpf.
  { intros q max ok Hqn (perm & c & b & E & Hx). exists perm, c, b. by rewrite Hq. }
  assert (forall q, q <> record_file d -> private_dir f q -> private_dir (recorded s' f) q) as Hpd.
  { intros q Hqn (perm & E & Hx). exists perm. by rewrite Hq. }
  split.
  - by apply Hpd.
  - apply Hpf; [by apply record_file_ne | done].
  - exists 384, (encoded s'), true. unfold recorded. rewrite lookup_insert_eq. split; [done|]. split; [done|]. split; [|done]. by apply record_short.
  - apply Hpf; [by apply record_file_ne|]. by rewrite Hc.
  - apply Hpd; [by apply record_file_ne | done].
  - intros name Hn. apply Hpf; [|by apply Hse]. apply record_file_ne. unfold secret_names in Hn. set_solver.
  - rewrite Hq; [done|]. by apply record_file_ne.
Qed.

Lemma goes_verifyFiles s f p m : settled d s f -> goes (now f p m) (verifyFiles d s) (fun _ => now f p m).
Proof.
  intros [_ _ _ (cp & c & cb & Ec & Hcp & Hcl & Hcd) (sp & Es & Hsp) Hse _]. unfold verifyFiles.
  eapply goes_then; [by apply goes_orelse; eapply goes_readPrivate | intros c' ->]. eapply goes_bind; [apply goes_check; by rewrite Hcd, String.eqb_refl | intros ?; cbv beta].
  eapply goes_bind; [by apply goes_orelse; eapply goes_privateDirectory | intros ?; cbv beta]. apply goes_each. intros name Hn.
  destruct (Hse name Hn) as (np & x & nb & En & Hnp & Hnl & Hx). eapply goes_then; [by apply goes_orelse; eapply goes_readPrivate | intros x' ->]. by apply goes_check.
Qed.
Lemma goes_load s f p m : valid s = true -> settled d s f -> goes (now f p m) (loadInstallation d) (fun x w => now f p m w /\ x = s).
Proof.
  intros Hv [_ _ (rp & c & b & Er & Hp & Hl & ->) _ _ _ _]. unfold loadInstallation. eapply goes_then; [by eapply goes_readPrivate | intros c ->].
  unfold parse_record. rewrite record_roundtrip, Hv by done. by apply goes_ret.
Qed.
(** Replacing the record. *)
Lemma goes_save s s' f p m : settled d s f -> goes (now f p m) (saveInstallation d s' false) (fun _ => now (recorded s' f) p m).
Proof.
  intros [(dp & Ed & _) _ (rp & c & b & Er & Hp & Hl & ->) _ _ _ Ht]. assert (temp d <> record_file d) as Hne by (by apply record_file_ne).
  unfold saveInstallation, replacePrivate. eapply goes_then; [apply goes_orelse; eapply goes_readPrivate; [done|done|lia] | intros x _]. rewrite parent_rp.
  apply goes_then with (R := now (<[temp d := File 384 "" false]> f) p m) (ok := fun t => t = temp d).
  { apply goes_orelse. intros w [Hf Hm]. exists (temp d), (enter (temp d) (Some (File 384 "" false)) w). split; [|by subst f].
    unfold CreateTemp, call. change (d ++ [".wrctl-write-" +:+ pretty (0 mod 2 ^ 32)]) with (temp d). rewrite Hf, Ht. unfold in_dir, temp. by rewrite dir_snoc, Ed. }
  intros t ->. apply goes_deferred.
  - apply goes_bind with (R := fun _ => now (<[temp d := File 384 (encoded s') true]> f) p m).
    { apply goes_orelse. apply goes_bind with (R := fun _ => now (<[temp d := File 384 (encoded s') false]> f) p m).
      - intros w [Hf Hm]. eexists tt, _. split; [reflexivity|]. unfold rewrite_file. rewrite Hf, lookup_insert_eq. split; [|done]. cbn. by rewrite Hf, insert_insert_eq.
      - intros _ w [Hf Hm]. eexists tt, _. split; [reflexivity|]. unfold rewrite_file. rewrite Hf, lookup_insert_eq. split; [|done]. cbn. by rewrite Hf, insert_insert_eq. }
    intros _. apply goes_bind with (R := fun _ => now (recorded s' f) p m).
    { apply goes_orelse. intros w [Hf Hm]. exists tt, (enter (record_file d) (Some (File 384 (encoded s') true)) (enter (temp d) None w)). unfold rename, call.
      rewrite Hf, lookup_insert_eq, lookup_insert_ne, Er by done. split; [done|]. split; [|done]. cbn. rewrite Hf.
      change (partial_alter (fun _ => None) (temp d) (<[temp d := File 384 (encoded s') true]> f)) with (delete (temp d) (<[temp d := File 384 (encoded s') true]> f)).
      by rewrite delete_insert_id. }
    intros _. unfold syncDirectory. eapply goes_bind; [apply goes_orelse, goes_works | intros ?; cbv beta]. apply goes_orelse. intros w Hw. by exists tt, (sync_entries d w).
  - intros _ w [Hf Hm]. exists (Err Os). split; [|done]. unfold remove, call. rewrite Hf. unfold recorded. by rewrite lookup_insert_ne, Ht by done.
Qed.
End files.

(** ** The theorem *)

Section theorem.
Context `{DockerHost} (environ : list string).
Context `{Sha256} `{Codec installation} `{!RecordLaws} `{Codec serviceStatus} `{Codec (list serviceStatus)} `{Codec (list imageInfo)}.
Context `{Codec backupRecord} `{Codec (list volumeInfo)} `{Codec localcontrol.RotationReport} `{Codec statusReport} `{Codec recoveryarchive.Manifest} `{recoveryarchive.Tar}.
Context (report_into : string -> localcontrol.RotationReport -> localcontrol.RotationReport * bool) (DefaultImage Version PreviewCompose : string).

Lemma goes_find o f s p m : valid s = true -> settled (at_ (directory o)) s f -> goes (now f p m) (find_installation o) (fun x w => now f p m w /\ x = Some s).
Proof.
  intros Hv Hs. unfold find_installation.
  eapply goes_bind with (R := fun r w => match r with Ok x => now f p m w /\ x = s | Err _ => False end); [apply (goes_attempt _ _ (fun x w => now f p m w /\ x = s)); by apply goes_load|].
  intros [x|e]; [|by intros w []]. intros w [Hw ->]. revert w Hw. eapply goes_bind; [by apply goes_verifyFiles | intros ?; cbv beta]. by apply goes_ret.
Qed.
Lemma goes_upgrade o f s arch m : image o = ""%string -> valid s = true -> Phase s = "upgrading"%string -> settled (at_ (directory o)) s f ->
  healthy_docker environ (PendingImage s) arch ->
  goes (now f (Project s) m) (upgrade environ DefaultImage o s arch)
    (fun _ => now (recorded (at_ (directory o)) (with_phase s (PendingImage s) (Image s) "" "ready") f) (Project s) (Some (PendingImage s))).
Proof.
  intros Hi Hv Hph Hs Hh. pose proof Hv as Hw. apply valid_iff in Hw as [W1 W2 W3 W4 W5 W6 W7 W8 W9].
  assert (PendingImage s <> ""%string) as Hne by (by apply W9). destruct W5 as [?|W5]; [done|].
  unfold upgrade. eapply goes_bind; [apply goes_check; by rewrite Hph | intros ?; cbv beta]. rewrite Hi.
  assert (String.eqb (PendingImage s) "" = false) as E by (by apply String.eqb_neq). rewrite E. cbn [negb andb String.eqb].
  unfold selectedImage. rewrite E, W5. cbn [negb lift]. apply goes_bind_ret. eapply goes_bind; [apply goes_check; by rewrite String.eqb_refl, orb_true_r | intros ?; cbv beta].
  eapply goes_bind; [by eapply goes_verifyImage | intros ?; cbv beta]. eapply goes_bind; [apply goes_step; [apply Hh | reflexivity] | intros ?; cbv beta].
  rewrite Hph. cbn [String.eqb Ascii.eqb Bool.eqb]. apply goes_bind_ret. cbv zeta.
  assert (with_phase s (Image s) (PreviousImage s) (PendingImage s) "upgrading" = s) as -> by (unfold with_phase; rewrite <- Hph; by destruct s).
  eapply goes_bind; [by eapply goes_save | intros ?; cbv beta]. eapply goes_bind; [by eapply goes_initialize | intros ?; cbv beta].
  eapply goes_bind; [eapply goes_save, (settled_recorded _ s); done | intros ?; cbv beta].
  eapply goes_conseq; [apply goes_print | done|]. intros ? w. unfold recorded. by rewrite insert_insert_eq.
Qed.
(** C20: an upgrade that was interrupted after its record was written, by a
    fault, a kill or a loss of power, is completed by the command upgrade on a
    healthy host: it succeeds, the record is ready with the pending image and
    remembers the previous one, the data of the project were migrated to this
    image last, and no other file has changed. *)
Theorem upgrade_is_completed o w s arch : command o = "upgrade"%string -> image o = ""%string -> valid s = true -> Phase s = "upgrading"%string ->
  settled (at_ (directory o)) s (fs w) -> healthy_docker environ (PendingImage s) arch ->
  exists w', execute environ report_into DefaultImage Version PreviewCompose o w [] = (w', [], Ok tt) /\
    fs w' = <[record_file (at_ (directory o)) := File 384 (encoded (with_phase s (PendingImage s) (Image s) "" "ready")) true]> (fs w) /\
    migrated (Project s) (trace w') = Some (PendingImage s).
Proof.
  intros Hc Hi Hv Hph Hs Hh. assert (goes (now (fs w) (Project s) (migrated (Project s) (trace w))) (execute environ report_into DefaultImage Version PreviewCompose o)
    (fun _ => now (recorded (at_ (directory o)) (with_phase s (PendingImage s) (Image s) "" "ready") (fs w)) (Project s) (Some (PendingImage s)))) as Hg.
  { unfold execute. rewrite Hc. cbn [String.eqb Ascii.eqb Bool.eqb]. pose proof Hs as [(dp & Ed & Hdp) (lp & lc & lb & El & Hlp & _) _ _ _ _ _].
    eapply goes_bind with (R := fun r w' => now (fs w) (Project s) (migrated (Project s) (trace w)) w' /\ r = Ok (Dir dp)).
    { intros w' [Hf Hm]. exists (Ok (Dir dp)), w'. split; [|done]. unfold attempt, lstat, reads, call. by rewrite Hf, Ed. }
    intros r w' [Hw' ->]. revert w' Hw'. apply goes_bind_ret. eapply goes_bind; [by eapply goes_privateDirectory | intros ?; cbv beta].
    eapply goes_bind; [by eapply goes_lock | intros ?; cbv beta]. eapply goes_then; [by apply goes_find | intros ? ->].
    eapply goes_then; [by eapply goes_checkDocker | intros ? ->]. unfold manage. rewrite Hc, bool_decide_false by (unfold key_commands; set_solver).
    cbn [String.eqb Ascii.eqb Bool.eqb negb andb]. by apply goes_upgrade. }
  destruct (Hg w ltac:(done)) as (u & w' & E & Hf & Hm). exists w'. by destruct u.
Qed.
End theorem.
End retry.
