(* ===== verification/InstallerExample.v ===== *)
(** * A concrete installation

    An installation whose upgrade was interrupted, a Docker daemon that answers
    as a healthy one does, and a simple text for records. The witnesses of the
    theorems on the installer run on them. *)

From S2P Require Import Prelude GoStd Control AdminAuth InstallPlan InstallCost RecoveryArchive RecoveryTrip Rotation Coordinator AuthHTTP Publication PublicationExample RecoveryExample HostFiles InstallerState InstallerDocker Installer InstallerSpecs InstallerRecord InstallerProps InstallerHistory InstallerFiles InstallerRetry.
From stdpp Require Import base list gmap strings pretty.
From Stdlib Require Import ZArith Lia Ascii String.

Module installerexample.
Import host installer docker wrctl quiet records lifecycle history kept retry.
Local Open Scope Z_scope.

(** ** Records as text *)

Definition ix_fields (s : installation) : list string :=
  [Project s; Image s; PreviousImage s; PendingImage s; InitialTOTP s; Phase s; ComposeSHA256 s].
Definition ix_body (s : installation) : string := String.concat "," (ix_fields s).
#[local] Instance ix_codec : Codec installation := {|
  marshal s := ix_body s +:+ "}";
  GoStd.decode t :=
    '(body, rest) ← strs.cut_byte "}" t;
    match strs.split_byte "," body with
    | [p; i; v; n; o; h; c] => Some (mkInstallation 1 p i v n o h c, rest)
    | _ => None
    end
|}.
Definition plain (c : ascii) : bool := negb (Ascii.eqb c ",") && negb (Ascii.eqb c "}").
Definition plain_text (s : string) : Prop := forallb plain (list_ascii_of_string s) = true /\ (String.length s <= 200)%nat.
Lemma hex_plain c : hex_char c = true -> plain c = true.
Proof. destruct c as [[] [] [] [] [] [] [] []]; vm_compute; done. Qed.
Lemma prefix_split p s : strs.HasPrefix s p = true -> s = p +:+ str_drop (String.length p) s.
Proof.
  unfold strs.HasPrefix. revert s. induction p as [|a p IH]; intros [|b s]; cbn; try done. destruct (ascii_dec a b) as [->|]; [|done].
  intros Hp. rewrite (IH s Hp) at 1. done.
Qed.
Lemma plain_app a b : forallb plain (list_ascii_of_string a) = true -> forallb plain (list_ascii_of_string b) = true -> forallb plain (list_ascii_of_string (a +:+ b)) = true.
Proof. induction a as [|x a IH]; [done|]. change (String x a +:+ b) with (String x (a +:+ b)). cbn. intros [-> Ha]%andb_true_iff Hb. by rewrite IH. Qed.
Lemma prefixed_plain p n s : forallb plain (list_ascii_of_string p) = true -> (Z.of_nat (String.length p) + n <= 200) -> prefixed_hex p n s = true -> plain_text s.
Proof.
  intros Hp Hn Hs. unfold prefixed_hex in Hs. destruct (strs.HasPrefix s p) eqn:E; [|done]. apply prefix_split in E. apply andb_true_iff in Hs as [Hl%Z.eqb_eq Hh].
  set (rest := str_drop (String.length p) s) in *. rewrite E. split.
  - apply plain_app; [done|]. apply forallb_forall. intros c Hc. apply hex_plain. rewrite forallb_forall in Hh. by apply Hh.
  - assert (String.length (p +:+ rest) = String.length p + String.length rest)%nat as ->; [|unfold len in Hl; lia].
    apply str_length_app.
Qed.
Lemma valid_plain s : valid s = true -> Forall plain_text (ix_fields s) /\ SchemaVersion s = 1.
Proof.
  intros [W1 W2 W3 W4 W5 W6 W7 W8 W9]%valid_iff. split; [|done].
  assert (forall i, i = ""%string \/ imagePattern i = true -> plain_text i) as Hi.
  { intros i [->|Hi]; [by split; [|vm_compute; lia]|]. by eapply prefixed_plain; [| |exact Hi]. }
  repeat apply Forall_cons_2; try apply Forall_nil_2.
  - by eapply prefixed_plain; [| |exact W2].
  - apply Hi. by right.
  - by apply Hi.
  - by apply Hi.
  - destruct W6 as [-> | ->]; (split; [done | vm_compute; lia]).
  - destruct W8 as [-> | [-> | ->]]; (split; [done | vm_compute; lia]).
  - by eapply prefixed_plain; [| |exact W7].
Qed.

Lemma take_app n a b : str_take n (a +:+ b) = if (n <=? String.length a)%nat then str_take n a else a +:+ str_take (n - String.length a) b.
Proof.
  revert n. induction a as [|x a IH]; intros n.
  - destruct n; [by destruct b|]. done.
  - change (String x a +:+ b) with (String x (a +:+ b)). destruct n as [|n]; [done|]. cbn. rewrite IH. by destruct (n <=? String.length a)%nat.
Qed.
Lemma take_no_byte c n s : strs.contains_byte c s = false -> strs.contains_byte c (str_take n s) = false.
Proof. revert n. induction s as [|a s IH]; intros [|n]; cbn; try done. intros [-> Hs]%orb_false_iff. by apply IH. Qed.
Lemma no_byte_app c a b : strs.contains_byte c (a +:+ b) = strs.contains_byte c a || strs.contains_byte c b.
Proof. induction a as [|x a IH]; [done|]. change (String x a +:+ b) with (String x (a +:+ b)). cbn. by rewrite IH, orb_assoc. Qed.
Lemma plain_no_byte s c : plain c = false -> plain_text s -> strs.contains_byte c s = false.
Proof.
  intros Hc [Hs _]. induction s as [|a s IH]; [done|]. cbn in *. apply andb_true_iff in Hs as [Ha Hs]. rewrite (IH Hs), orb_false_r.
  apply Ascii.eqb_neq. intros ->. by rewrite Hc in Ha.
Qed.
Lemma body_shape s : ix_body s = Project s +:+ String "," (Image s +:+ String "," (PreviousImage s +:+ String "," (PendingImage s +:+ String "," (InitialTOTP s +:+ String "," (Phase s +:+ String "," (ComposeSHA256 s)))))).
Proof. done. Qed.
Lemma body_no_brace s : valid s = true -> strs.contains_byte "}" (ix_body s) = false.
Proof.
  intros [Hf _]%valid_plain. assert (forall x, x ∈ ix_fields s -> strs.contains_byte "}" x = false) as Hx.
  { intros x Hx. rewrite Forall_forall in Hf. apply plain_no_byte; [done|]. by apply Hf. }
  rewrite body_shape. repeat (rewrite no_byte_app, Hx by (unfold ix_fields; set_solver); cbn [orb strs.contains_byte Ascii.eqb Bool.eqb]). apply Hx. unfold ix_fields. set_solver.
Qed.
Lemma body_splits s : valid s = true -> strs.split_byte "," (ix_body s) = ix_fields s.
Proof.
  intros [Hf _]%valid_plain. assert (forall x, x ∈ ix_fields s -> strs.contains_byte "," x = false) as Hx.
  { intros x Hx. rewrite Forall_forall in Hf. apply plain_no_byte; [done|]. by apply Hf. }
  rewrite body_shape. do 6 (rewrite strs.split_cons by (apply Hx; unfold ix_fields; set_solver)). rewrite strs.split_none by (apply Hx; unfold ix_fields; set_solver). done.
Qed.
Lemma body_length s : valid s = true -> (String.length (ix_body s) <= 1500)%nat.
Proof.
  intros [Hf _]%valid_plain. assert (forall x, x ∈ ix_fields s -> (String.length x <= 200)%nat) as Hx.
  { intros x Hx. rewrite Forall_forall in Hf. by apply Hf. }
  rewrite body_shape. repeat (rewrite str_length_app; cbn [String.length]).
  pose proof (Hx (Project s)). pose proof (Hx (Image s)). pose proof (Hx (PreviousImage s)). pose proof (Hx (PendingImage s)).
  pose proof (Hx (InitialTOTP s)). pose proof (Hx (Phase s)). pose proof (Hx (ComposeSHA256 s)). unfold ix_fields in *.
  repeat match goal with H : _ ∈ _ -> _ |- _ => specialize (H ltac:(set_solver)) end. lia.
Qed.
Lemma encoded_shape s : encoded s = ix_body s +:+ String "}" "" +:+ newline.
Proof. unfold encoded. cbn [marshal ix_codec]. apply str_app_assoc. Qed.
Lemma decode_take n s : valid s = true -> GoStd.decode (str_take n (encoded s)) = None \/ exists k, GoStd.decode (str_take n (encoded s)) = Some (s, str_take k newline).
Proof.
  intros Hv. rewrite encoded_shape, take_app. destruct (Nat.leb_spec n (String.length (ix_body s))) as [Hn|Hn].
  - left. cbn [GoStd.decode ix_codec]. rewrite cost.cut_none; [done|]. by apply take_no_byte, body_no_brace.
  - right. destruct (n - String.length (ix_body s))%nat as [|k] eqn:Ek; [lia|]. exists k.
    change (str_take (S k) (String "}" "" +:+ newline)) with (String "}" "" +:+ str_take k newline).
    cbn [GoStd.decode ix_codec]. rewrite strs.cut_join by (by apply body_no_brace). cbn [mbind option_bind]. rewrite body_splits by done. unfold ix_fields.
    destruct (valid_plain s Hv) as [_ Hs]. destruct s. cbn in *. by subst.
Qed.
Lemma newline_blank k : at_EOF (str_take k newline) = true.
Proof. by destruct k as [|[|k]]. Qed.
#[local] Instance ix_laws : RecordLaws.
Proof.
  split.
  - intros s Hv. destruct (decode_take (String.length (encoded s)) s Hv) as [E|[k E]]; rewrite str_take_all in E by done.
    + rewrite encoded_shape in E. cbn [GoStd.decode ix_codec] in E. rewrite strs.cut_join in E by (by apply body_no_brace). cbn [mbind option_bind] in E. by rewrite body_splits in E.
    + unfold decode_strict. rewrite E. cbn. by rewrite newline_blank.
  - intros s n s' Hv. unfold decode_strict. destruct (decode_take n s Hv) as [->|[k ->]]; [done|]. cbn. rewrite newline_blank. by intros [= ->].
  - intros s Hv. pose proof (body_length s Hv). rewrite encoded_shape. unfold len. rewrite !str_length_app.
    change (String.length (String "}" "")) with 1%nat. change (String.length newline) with 1%nat. lia.
Qed.

(** ** A healthy Docker *)

Definition ix_image (c : ascii) : string := "ghcr.io/nudgeon/waiting-room@sha256:" +:+ string_of_list_ascii (replicate 64 c).
Definition ix_info (image : string) : imageInfo :=
  mkImageInfo [image] "linux" "amd64"
    (<["org.opencontainers.image.source" := ImageSource]> (<["io.nudgeon.waiting-room.runtime-contract" := "1"%string]>
       (<["org.opencontainers.image.revision" := string_of_list_ascii (replicate 40 "a"%char)]> ∅))).
#[local] Instance ix_images : Codec (list imageInfo) := {|
  marshal l := String.concat "," (List.concat (RepoDigests <$> l)); GoStd.decode s := Some ([ix_info s], "")
|}.
Definition ix_services : list serviceStatus := (fun r => mkService (fst r) "running" "healthy") <$> required.
#[local] Instance ix_service : Codec serviceStatus := {| marshal s := Service s; GoStd.decode s := None |}.
#[local] Instance ix_service_list : Codec (list serviceStatus) := {|
  marshal l := "[]"; GoStd.decode s := if String.eqb s "[]" then Some (ix_services, "") else None
|}.
#[local] Instance ix_backup : Codec backupRecord := {| marshal b := HelperImage b; GoStd.decode s := None |}.
#[local] Instance ix_volumes : Codec (list volumeInfo) := {| marshal l := ""; GoStd.decode s := None |}.
#[local] Instance ix_report : Codec localcontrol.RotationReport := {| marshal r := localcontrol.rPhase r; GoStd.decode s := None |}.
#[local] Instance ix_status : Codec statusReport := {| marshal s := stPhase s; GoStd.decode t := None |}.
#[local] Instance ix_manifest : Codec recoveryarchive.Manifest := recoveryexample.rx_codec.
#[local] Instance ix_tar : recoveryarchive.Tar := recoveryexample.rx_tar.
#[local] Instance ix_sha : Sha256 := recoveryexample.rx_sha.
#[local] Instance ix_sha_laws : Sha256Laws := recoveryexample.rx_sha_laws.

(** The answers to the commands; [volumes] is the list of the volumes. *)
Definition ix_reply (volumes : list action -> string) (tr : list action) : string :=
  match tr with
  | Docker _ args :: tr =>
      match args with
      | a :: b :: rest =>
          if String.eqb a "context" then "unix:///var/run/docker.sock" else
          if String.eqb a "info" then "linux/amd64" else
          if String.eqb a "compose" && String.eqb b "version" then "2.35.1" else
          if String.eqb a "image" then match rest with [image] => str_take 1000 image | _ => "" end else
          if String.eqb a "volume" && String.eqb b "ls" then volumes tr else
          match composed args with Some (_, c :: _) => if String.eqb c "ps" then "[]" else "" | _ => "" end
      | _ => ""
      end
  | _ => ""
  end.
Definition ix_docker (volumes : list action -> string) : DockerHost := {| reply := ix_reply volumes; archived _ := (None, None) |}.

Lemma take_length n s : (String.length (str_take n s) <= n)%nat.
Proof. revert n. induction s as [|a s IH]; intros [|n]; cbn; try lia. specialize (IH n). lia. Qed.
Lemma ix_healthy : @healthy_docker (ix_docker (fun _ => "")) [] _ _ _ (ix_image "b") "amd64".
Proof.
  split.
  - done.
  - intros tr. unfold reply, ix_docker, ix_reply. assert (forall image, len (str_take 1000 image) <= output_limit) as Ht.
    { intros image. pose proof (take_length 1000 image). unfold len, output_limit. lia. }
    repeat case_match; first [apply Ht | by vm_compute].
  - done.
  - done.
  - intros env tr. by exists 2, 35.
  - intros env tr. exists (ix_info (ix_image "b")). by vm_compute.
  - intros env dir project tr. exists ix_services. split; [|by vm_compute]. done.
Qed.

(** ** A world with an interrupted upgrade *)

Definition ix_dir : path := ["srv"; "room"].
Definition ix_compose : string := "services: {}".
Definition ix_secret : string := string_of_list_ascii (replicate 64 "c"%char).
Definition ix_record : installation :=
  mkInstallation 1 ("waiting-room-preview-" +:+ string_of_list_ascii (replicate 16 "d"%char)) (ix_image "a") "" (ix_image "b") "on" "upgrading" (digest ix_compose).
Definition ix_fs : FS := list_to_map
  [([], Dir 448); (["srv"], Dir 493); (ix_dir, Dir 448); (ix_dir ++ [lock_name], File 384 "" true); (record_file ix_dir, File 384 (encoded ix_record) true);
   (compose_file ix_dir, File 384 ix_compose true); (secrets_dir ix_dir, Dir 448); (secrets_dir ix_dir ++ ["owner-password"], File 384 ix_secret true);
   (secrets_dir ix_dir ++ ["runtime-password"], File 384 ix_secret true)].
Definition ix_world : world := mkWorld ix_fs ∅ [].
Lemma ix_settled : settled ix_dir ix_record ix_fs.
Proof.
  split.
  - exists 448. by vm_compute.
  - exists 384, ""%string, true. by vm_compute.
  - exists 384, (encoded ix_record), true. split; [by vm_compute|]. split; [done|]. split; [by vm_compute | done].
  - exists 384, ix_compose, true. by vm_compute.
  - exists 448. by vm_compute.
  - intros name Hn. exists 384, ix_secret, true. unfold secret_names in Hn. apply elem_of_cons in Hn as [->|[->|[]%elem_of_nil]%elem_of_cons]; by vm_compute.
  - by vm_compute.
Qed.

(** ** The volumes of migrated projects *)

Definition ix_projects (tr : list action) : list string :=
  filter (fun p => projectPattern p = true) (omap (fun a => match a with Docker _ args => migrates args | Printed _ => None end) tr).
Definition ix_volume (p : string) : string := p +:+ "_database".
Definition ix_listing (tr : list action) : string := foldr (fun p s => ix_volume p +:+ newline +:+ s) "" (ix_projects tr).
Definition wordy (b : Z) : bool := (33 <=? b) && (b <=? 126).
Lemma fields_word w cur n rest : forallb wordy w = true -> (List.length w < n)%nat ->
  lab.fields_fuel n (w ++ 10 :: rest) cur = lab.flush (rev w ++ cur) (lab.fields_fuel (n - List.length w - 1) rest []).
Proof.
  revert cur n. induction w as [|b w IH]; intros cur n Hw Hn.
  - destruct n as [|n]; [cbn in Hn; lia|]. cbn. by rewrite Nat.sub_0_r.
  - destruct n as [|n]; [cbn in Hn; lia|]. cbn [forallb] in Hw. apply andb_true_iff in Hw as [Hb Hw]. cbn [app lab.fields_fuel].
    assert (utf8.decode_rune (b :: w ++ 10 :: rest) = Some (b, w ++ 10 :: rest)) as ->.
    { cbn [utf8.decode_rune]. unfold wordy in Hb. assert ((b <? 128) = true) as -> by lia. done. }
    assert (utf8.IsSpace b = false) as -> by (unfold wordy in Hb; unfold utf8.IsSpace; lia).
    assert (take (List.length (b :: w ++ 10 :: rest) - List.length (w ++ 10 :: rest)) (b :: w ++ 10 :: rest) = [b]) as ->.
    { cbn [List.length]. replace (S (List.length (w ++ 10%Z :: rest)) - List.length (w ++ 10%Z :: rest))%nat with 1%nat by lia. done. }
    cbn [rev app]. rewrite IH by (done || (cbn in Hn; lia)). cbn [rev List.length]. by rewrite <- app_assoc.
Qed.
Lemma fields_lines l : Forall (fun w => w <> [] /\ forallb wordy w = true) l -> forall n, (List.length (List.concat ((fun w => w ++ [10%Z]) <$> l)) <= n)%nat ->
  lab.fields_fuel n (List.concat ((fun w => w ++ [10%Z]) <$> l)) [] = of_bytes <$> l.
Proof.
  induction 1 as [|w l [Hne Hw] Hl IH]; intros n Hn; [by destruct n|]. cbn [fmap list_fmap List.concat] in *. rewrite <- app_assoc in *. cbn [app] in *.
  rewrite length_app in Hn. cbn in Hn. rewrite fields_word by (done || lia). rewrite app_nil_r, IH by (cbn; lia). unfold lab.flush.
  destruct (rev w) as [|x r] eqn:E; [by apply (f_equal (@rev Z)) in E; rewrite rev_involutive in E|]. by rewrite <- E, rev_involutive.
Qed.
Lemma wordy_hex c : hex_char c = true -> wordy (byte_of c) = true.
Proof. destruct c as [[] [] [] [] [] [] [] []]; vm_compute; done. Qed.
Lemma bytes_app_text a b : bytes (a +:+ b) = bytes a ++ bytes b.
Proof. induction a as [|x a IH]; [done|]. change (String x a +:+ b) with (String x (a +:+ b)). unfold bytes in *. cbn. by rewrite IH. Qed.
Lemma wordy_project p : projectPattern p = true -> forallb wordy (bytes (ix_volume p)) = true.
Proof.
  unfold projectPattern, prefixed_hex. destruct (strs.HasPrefix _ _) eqn:E; [|done]. apply prefix_split in E. intros [_ Hh]%andb_true_iff.
  set (rest := str_drop _ p) in *. rewrite E. unfold ix_volume. rewrite !bytes_app_text, !forallb_app. apply andb_true_iff. split; [|by vm_compute].
  apply andb_true_iff. split; [by vm_compute|]. apply forallb_forall. intros x Hx%list_elem_of_In.
  apply list_elem_of_fmap in Hx as (c & -> & Hc%list_elem_of_In). apply wordy_hex. rewrite forallb_forall in Hh. by apply Hh.
Qed.
Lemma listing_bytes l : bytes (foldr (fun p s => ix_volume p +:+ newline +:+ s) "" l) = List.concat ((fun w => w ++ [10%Z]) <$> (bytes ∘ ix_volume <$> l)).
Proof.
  induction l as [|p l IH]; [done|]. cbn [foldr fmap list_fmap List.concat]. rewrite !bytes_app_text, IH. change (bytes newline) with [10%Z]. by rewrite <- app_assoc.
Qed.
Lemma listing_fields tr : lab.Fields (ix_listing tr) = ix_volume <$> ix_projects tr.
Proof.
  unfold lab.Fields, ix_listing. rewrite listing_bytes, fields_lines.
  - rewrite <- list_fmap_compose. apply list_fmap_ext. intros _ p _. apply of_bytes_bytes.
  - apply Forall_fmap, Forall_forall. intros p Hp. apply list_elem_of_filter in Hp as [Hp _]. split; [|by apply wordy_project]. cbn. unfold ix_volume. rewrite bytes_app_text.
    intros E. apply app_eq_nil in E as [_ E]. done.
  - rewrite <- listing_bytes. unfold bytes. rewrite length_fmap. induction (foldr _ _ _) as [|a s IH]; cbn; lia.
Qed.
Lemma migrated_listed tr p i : projectPattern p = true -> migrated p tr = Some i -> p ∈ ix_projects tr.
Proof.
  intros Hp Hm. apply list_elem_of_filter. split; [done|]. apply list_elem_of_omap. induction tr as [|[env args|t] tr IH]; cbn in Hm; [done| |].
  - case_decide as E; [exists (Docker env args); split; [left | done]|]. destruct (IH Hm) as (x & Hx & Ex). exists x. split; [by right | done].
  - destruct (IH Hm) as (x & Hx & Ex). exists x. split; [by right | done].
Qed.
#[local] Instance ix_persist : @VolumesPersist (ix_docker ix_listing).
Proof.
  intros env tr p i Hp Hm. change (reply (Docker env volume_args :: tr)) with (ix_listing tr). rewrite listing_fields. unfold occupied. apply existsb_exists.
  exists (ix_volume p). split; [|unfold ix_volume; change "_database"%string with ("_" +:+ "database"); rewrite <- str_app_assoc; apply HasPrefix_app].
  apply list_elem_of_In, list_elem_of_fmap. exists p. split; [done|]. by eapply migrated_listed.
Qed.

(** ** Witnesses *)

Definition ix_options : options := mkOptions "upgrade" "/srv/room" "" "on" "" false false.
Definition ix_into (line : string) (r : localcontrol.RotationReport) : localcontrol.RotationReport * bool := (r, false).
Definition ix_execute (D : DockerHost) (w : world) (i : list event) : world * list event * result error unit :=
  @execute D [] _ _ _ _ _ _ _ _ _ _ _ ix_into "" "source" ix_compose ix_options w i.
Definition ix_quiet : DockerHost := ix_docker (fun _ => "").
Definition ix_listed : DockerHost := ix_docker ix_listing.

(** The interrupted upgrade is retried on the healthy host. *)
Lemma upgrade_is_completed_witness : exists w', ix_execute ix_quiet ix_world [] = (w', [], Ok tt) /\
  fs w' = <[record_file ix_dir := File 384 (encoded (with_phase ix_record (ix_image "b") (ix_image "a") "" "ready")) true]> ix_fs /\
  migrated (Project ix_record) (trace w') = Some (ix_image "b").
Proof.
  apply (@upgrade_is_completed ix_quiet [] _ _ _ _ _ _ _ _ _ _ _ _ ix_into "" "source" ix_compose ix_options ix_world ix_record "amd64").
  - reflexivity.
  - reflexivity.
  - vm_compute. reflexivity.
  - reflexivity.
  - exact ix_settled.
  - exact ix_healthy.
Defined.
(** The same command, killed while it starts the application: the secrets stay. *)
Definition ix_killed : list event := replicate 60 (Works "" 0) ++ [Kill 0].
Lemma files_are_kept_witness : fs (fst (fst (ix_execute ix_quiet ix_world ix_killed))) !! (secrets_dir ix_dir ++ ["owner-password"]) = Some (File 384 ix_secret true).
Proof.
  apply (@files_are_kept ix_quiet [] _ _ _ _ _ _ _ _ _ _ _ ix_into "" "source" ix_compose ix_options ix_world ix_killed).
  - vm_compute. discriminate.
  - vm_compute. reflexivity.
Defined.
(** The commands of the retried upgrade, the last one first. *)
Definition ix_after : world := fst (fst (ix_execute ix_listed ix_world [])).
Definition is_start (a : action) : bool := match a with Docker _ args => bool_decide (starts args <> None) | Printed _ => false end.
Fixpoint position (l : list action) : nat := match l with a :: l => if is_start a then O else S (position l) | [] => O end.
Definition ix_later : list action := take (position (trace ix_after)) (trace ix_after).
Definition ix_earlier : list action := drop (S (position (trace ix_after))) (trace ix_after).
Definition ix_start : list string * list string :=
  match trace ix_after !! position (trace ix_after) with Some (Docker env args) => (env, args) | _ => ([], []) end.
Lemma starts_run_the_migrated_image_witness : starts (snd ix_start) = Some (Project ix_record) /\ migrated (Project ix_record) ix_earlier = Some (ix_image "b") /\
  runtime_image (fst ix_start) = ix_image "b".
Proof.
  assert (starts (snd ix_start) = Some (Project ix_record)) as Hs by (vm_compute; reflexivity).
  assert (migrated (Project ix_record) ix_earlier = Some (ix_image "b")) as Hm by (vm_compute; reflexivity).
  split; [exact Hs|]. split; [exact Hm|].
  apply (@starts_run_the_migrated_image ix_listed [] ix_persist _ _ _ _ _ _ _ _ _ _ _ _ _ ix_into "" "source" ix_compose Some "/srv/room" "/srv/room" ix_after
    ix_later (fst ix_start) (snd ix_start) ix_earlier (Project ix_record) (ix_image "b")).
  - apply (reach_run (H := ix_listed) [] ix_into "" "source" ix_compose Some "/srv/room" "/srv/room" ix_world ["upgrade"%string] ix_options []).
    + apply reach_start.
    + vm_compute. reflexivity.
    + reflexivity.
  - vm_compute. reflexivity.
  - exact Hs.
  - exact Hm.
Defined.
End installerexample.
